(* ===== verification/_CoqProject ===== *)
-Q . S2P
Prelude.v
AESTables.v
AESSpec.v
AES.v
AESCorrect.v
AESCbc.v
I8259.v
I8254.v
PS2.v
PcKbd.v
DMA.v
RTC.v
APIC.v
IOAPIC.v
Pc.v
QDict.v
QObject.v
JsonLexer.v
JsonParser.v
QJson.v
QJsonCorrect.v
Serial.v
Block.v
Qcow.v
QcowDisk.v
QcowRead.v
QcowWrite.v
QcowOpen.v
QcowCompress.v
Hpet.v
HpetTimers.v
Timer.v
Iov.v
Cutils.v
NetChecksum.v
NetQueue.v
FwCfg.v
SMBus.v
Qcow2Cache.v
