(* ===== verification/Prelude.v ===== *)
(** * The PC machine of the hybrid memory simulator, verified

    ** The program

    The repository is a full-system simulator of machines with hybrid DRAM and
    non-volatile memory.  QEMU (src/qemu, C) provides the PC: its devices, disk
    images and dynamic translation; ptlsim (src/ptlsim, C++) replaces the
    translated processor by a cycle-accurate one; NVMain, HybridSim, DRAMSim2
    and NVDIMMSim (C++) model the memory behind it.  What the guest observes of
    time and of interrupts, and hence every measurement, comes from the QEMU
    devices, and the guest's disk comes from its image formats.  This library
    models these parts of the C code:

    - AESTables.v, AESSpec.v, AES.v, AESCorrect.v, AESCbc.v: the block cipher
      of src/qemu/aes.c, and its use for encrypted sectors in
      src/qemu/block/qcow.c, qcow2.c and qcow2-cluster.c ([qcow_set_key],
      [encrypt_sectors]);
    - I8259.v, module [I8259]: the pair of interrupt controllers,
      src/qemu/hw/i8259.c;
    - I8254.v, module [I8254]: the interval timer, src/qemu/hw/i8254.c, with
      [muldiv64] of src/qemu/qemu-common.h;
    - PS2.v, module [PS2]: the PS/2 keyboard and mouse, src/qemu/hw/ps2.c;
    - PcKbd.v, module [PcKbd]: the keyboard controller that owns them,
      src/qemu/hw/pckbd.c;
    - DMA.v, module [DMA]: the two DMA controllers, src/qemu/hw/dma.c;
    - RTC.v, module [RTC]: the real time clock, src/qemu/hw/mc146818rtc.c;
    - APIC.v, module [APIC]: the local interrupt controllers and the bus between
      them, src/qemu/hw/apic.c;
    - IOAPIC.v, module [IOAPIC]: the I/O interrupt controller,
      src/qemu/hw/ioapic.c;
    - Pc.v, module [Pc]: the interrupt wiring of the machine, which joins the
      three kinds of controller, and port 92, src/qemu/hw/pc.c;
    - QDict.v, QObject.v (modules [QDict], [QObject], [QStringBuf]): the values
      of the management protocol, src/qemu/qdict.c, qlist.c, qstring.c;
    - JsonLexer.v (modules [JsonLexer], [JsonStreamer]), JsonParser.v, QJson.v,
      QJsonCorrect.v: the text of that protocol, src/qemu/json-lexer.c,
      json-streamer.c, json-parser.c and qjson.c;
    - Serial.v, module [Serial]: the serial port, src/qemu/hw/serial.c;
    - Hpet.v, HpetTimers.v (modules [Hpet], [HpetTimers]): the high precision
      event timer, src/qemu/hw/hpet.c, which turns the interval timer off and
      on;
    - Block.v, module [Block]: bytes and sectors of a file, src/qemu/block.c
      over src/qemu/block/raw-posix.c and the worker of posix-aio-compat.c;
    - Qcow.v, module [Qcow]: the disk images of src/qemu/block/qcow.c; QcowDisk.v
      (the disk that the bytes of a file hold, and when an image is in
      order), QcowRead.v, QcowWrite.v, QcowOpen.v and QcowCompress.v prove that
      the driver implements it;
    - Timer.v, module [Timer]: the clocks and the lists of timers that drive the
      devices, src/qemu/qemu-timer.c, with the simulator's clock;
    - Iov.v, module [Iov]: the vectors that disk and network requests carry,
      src/qemu/iov.c and cutils.c;
    - Cutils.v, module [Cutils]: bounded strings and dates, src/qemu/cutils.c;
    - NetChecksum.v, module [NetChecksum]: the checksums of packets,
      src/qemu/net/checksum.c;
    - NetQueue.v, module [NetQueue]: the queues of packets between network
      clients, src/qemu/net/queue.c;
    - FwCfg.v, module [FwCfg]: the device that tells the firmware about the
      machine, src/qemu/hw/fw_cfg.c, which copies names with the functions of
      Cutils.v;
    - SMBus.v, modules [I2C], [SMBus], [Eeprom] and [PMSMBus]: the system
      management bus, from the bus up to the host controller, src/qemu/hw/i2c.c,
      smbus.c, smbus_eeprom.c and pm_smbus.c;
    - Qcow2Cache.v, module [Qcow2Cache]: the caches of second level tables and
      reference counts of qcow2 images, src/qemu/block/qcow2-cache.c, over the
      files of Block.v.

    ** How the code is modelled

    The state of a device is a record with the fields of the C structure, and
    each function of the source is a definition of the same name that takes the
    state (and the port, the value written, the readings of the clock) and
    returns the new state and the result.  Integers are [Z]; a store into a
    narrower type is written with the wrap-around of this file ([u8], [u16],
    [u32], [u64], [s32], [s64]), and the operators of C are the notations of
    [c_scope].  An array is a [list Z] with [aget] and [aset]; where the index
    comes from outside the code the access is checked and the result is [None]
    beyond the bounds.  A call that leaves the component is made visible: levels
    sent on interrupt lines are logged or kept as fields, armed timers are the
    deadline they are armed for, calls through function pointers are the
    arguments of a section.  Where a device relies on what its callback does, the
    promise is a class: [PS2.IrqHost] is what the keyboard and mouse rely on, and
    PcKbd.v discharges it for the two callbacks of the controller; [APIC.EoiHost]
    is what a local APIC relies on when it broadcasts an end of interrupt, and Pc.v
    discharges it for the machine with its I/O APIC; [Block.Protocol] with the laws
    [Block.Reliable] is what an image format relies on, and Block.v discharges it
    for files on a host that keeps POSIX's promises ([Block.RegularFile]);
    [I2C.I2CSlaveInfo] and [SMBus.SMBusDeviceInfo] are the callbacks of devices on
    the system management bus, and SMBus.v makes every device of the second kind
    one of the first; [Qcow2Cache.TableFile] is a file that may fail, and the files
    of [Block.Reliable] are among them.  An asynchronous request is the run of its
    callbacks, each up to the request it submits.  The parser of JsonParser.v
    runs in a small monad with the outcomes value, crash and end of fuel.  The
    timer lists of Timer.v are records in a heap, linked by pointers, and the
    loops over them read and write through the pointer to a link as the code
    does; the callbacks of timers are scripts of operations on the lists.  The
    handlers of a packet queue are programs that call the queue again and see
    the results ([NetQueue.Prog]).

    Port handlers dispatched by the machine are the constructors of an
    inductive step relation ([I8259.reachable], [I8254.reachable],
    [PcKbd.reachable], [Hpet.reachable]); the invariants of a component are
    proved by induction over it, so they hold after any sequence of guest accesses, timer firings and resets.

    ** What is proved

    - Cipher (AESCorrect.v, AESCbc.v): every table entry is what FIPS-197
      prescribes; the key schedules and the table-driven rounds compute the FIPS
      functions of AESSpec.v for the three key sizes; decryption undoes
      encryption; encrypted sectors read back, in place or not, and nothing
      outside the output buffer changes; the error returns.
    - Disk images (Block.v, QcowOpen.v, QcowCompress.v): bytes written at any
      alignment read back and no others change; a new image reads as its backing
      image; a read request returns the sectors of the disk and a write request
      changes exactly the sectors it writes, through the tables, their cache,
      encryption and compression, and a later user who opens the file reads what
      was written, for images without a backing image or with the clusters of one
      sector that a new image with a backing file gets (in larger ones a write
      zeroes the rest of a new cluster); new compressed clusters read back.
    - Serial port (Serial.v): the identification register and the interrupt line
      name the pending condition of highest priority in every reachable state;
      bytes are neither lost nor reordered on the way in; a byte written is sent
      once.
    - High precision event timer (Hpet.v, HpetTimers.v): the main counter is the
      counter the guest programs until its nanoseconds pass 2^64; status bits, capabilities and lines in every
      reachable state; the callbacks of periodic timers with a period below
      half of the range end and keep to their grid, one-shot timers expire at the match and at the end of a 32-bit count;
      saving and loading; legacy mode, together with the interval timer.
    - Interrupt controllers (I8259.v): the invariant of reachable states; the
      choice of an interrupt by rotated priority; acknowledge and end of
      interrupt; edges and levels over any history; the initialisation sequence.
    - Timer (I8254.v): exactness of [muldiv64]; the output is constant up to the
      transition time the code computes and inverted there, in every mode but the
      rate generator; the rate generator's two edges a period and the ticks where
      one is lost; latched, read-back and two-byte counter accesses; the invariant
      of reachable states, with no division by zero.
    - Keyboard and mouse (PS2.v, PcKbd.v): the ring buffer refines a bounded
      FIFO; the sending of mouse packets ends and carries the motion and the
      buttons; wheel mouse detection; in every reachable state the status
      register and the interrupt lines say which device has data; data, mode and
      output ports.
    - DMA controllers (DMA.v): registers read back through the two-byte ports and
      the page ports; which channels a run serves; which bytes a memory transfer
      moves, in both directions of counting.
    - Real time clock (RTC.v): the second counter is the Gregorian calendar,
      stated by day numbers; dates survive the registers in all four formats; the
      periodic interrupt keeps to its grid; the interrupt flags; the
      battery-backed memory.

    - Local and I/O APIC (APIC.v, IOAPIC.v, Pc.v): in the machine a local APIC is
      a stack of priority classes over any sequence of requests, acknowledgements
      and ends of interrupt; a message reaches exactly the APICs it names; the
      timer's deadlines; level and edge lines of the I/O APIC and its redirection
      entries; an ISA line leads to the programmed vector at the processor through
      the 8259 pair and through the I/O APIC.
    - Management protocol (QDict.v, QObject.v, JsonLexer.v, JsonParser.v,
      QJsonCorrect.v): the hash table is a finite map and both iterations visit
      each pair once; strings grow inside their memory; the tokens of the lexer
      partition the text; whatever bytes arrive, the parser ends and never crashes
      (a crash would leave a brace or bracket open, and the splitter hands over
      balanced lists only); printed values are read back as equal values.

    - Clocks and timers (Timer.v): the linked lists refine queues in the order
      of expiry over any sequence of operations, pointers and the re-arming of the
      alarm included; running a clock's timers ends, calls every callback that is
      due once and leaves the other timers; timers save and load; deadlines; the
      virtual clock is a stopwatch through runs, stops and simulation.
    - Vectors, strings, packets (Iov.v, Cutils.v, NetChecksum.v): what is
      scattered is gathered, ranges are copied and filled exactly and within the
      array of entries; bounded copies are terminated and stay in the buffer;
      dates of the real time clock's calendar are converted to their number of
      seconds; packets with a computed checksum pass the receiver's test.
    - Packet queues (NetQueue.v): sending, flushing and purging come to an end when
      handlers make a bounded number of requests, and no packet of a sender is
      lost, repeated or overtaken by a later one, under conditions on its users
      that [NetQueue.proper] spells out.
    - Firmware configuration (FwCfg.v): the guest reads the entries that were
      added, and finds the files in the directory.
    - System management bus (SMBus.v): every command of the host controller is one
      complete transaction of the slave, whatever the guest does and whatever
      devices there are, no buffer is overrun, and blocks stored in a memory are read back.
    - Metadata caches (Qcow2Cache.v): whichever accesses to the file fail, the
      caches are transparent to their users, and no table is written before the
      tables it depends on.

    Six results state behaviours the code has and does not intend
    ([I8254.pit_rate_generator_lost_edge], [PS2.ps2_mouse_partial_packet],
    [PS2.ps2_reset_loses_scancode_set], [RTC.rtc_twelve_hour_midnight],
    [QcowCompress.qcow_make_empty_stale], [HpetTimers.hpet_period_hangs]), at
    concrete states; [HpetTimers.hpet_save_load], [Timer.sim_clock_stands_still],
    [Timer.vm_clock_stopwatch], [Cutils.mktimegm_counts_seconds],
    [NetChecksum.net_checksum_overrun] and [FwCfg.fw_cfg_write_unchecked] state
    one for every state or input.

    ** Fuel and bounds

    The key expansion and round loops of aes.c leave from the middle of their
    body; their models take as much fuel as the longest key needs, and the
    theorems of AESCorrect.v show that they return for all three sizes.  The loop
    that sends mouse packets takes [PS2.packet_fuel], the remaining motion plus
    one, and always ends within it.  Signed 64-bit time arithmetic is exact in
    theorems bounded by [I8254.horizon] (2^62 ns, 146 years of simulated time)
    and, for the real time clock, 2^61 ns.  The loop of the lexer has two rounds of
    fuel and never needs a third; the parser has one unit of fuel more than there
    are tokens and never uses it up.  Messages are below 2^31 tokens, where the
    counters of braces and brackets do not wrap around.  A request to an image has
    as many rounds of fuel as sectors and two more, since each round but the
    last transfers a sector, and needs no more; image files are below 2^62 bytes,
    with a first level below 2^28 entries and clusters up to 2^30 bytes, where no
    computation of the driver overflows.  The loops of a periodic timer's callback
    end within the periods it is late by, which is what their theorem asks of the
    fuel; no fuel is enough for the guest of [HpetTimers.hpet_period_hangs].  A
    loop over a timer list has one unit of fuel more than there are timers
    ([Timer.list_fuel]) and never uses it up; running the timers of a clock takes
    one round for each timer that is due and one more.  Two rounds fold the
    carries of any sum of 32 bits ([NetChecksum.fold_fuel] is 3).  Vectors are
    below 2^63 bytes.  A request to a packet queue needs four units of fuel more
    than packets wait and handlers may still send.  The block of the bus
    controller has 32 bytes and the buffer of a slave 34, the command, the length
    and the block.  The recursion through caches that depend on each other has
    fuel for both caches of an image ([Qcow2Cache.cache_fuel]), and their
    dependency never forms a cycle; the theorem holds for as many calls as a
    counter of hits can count.

    ** What is not modelled

    The C++ simulators; QEMU's dynamic translation, network devices, display and
    audio layers, the management of drives and the other image formats (of qcow2
    only the encryption and the caches are modelled), main loop and device assembly;
    the tables that describe device state for migration.  Physical memory and the transfer handlers of devices are
    arguments of DMA.v; the host clock is an argument of the timers' handlers.
    Reference counts of management values and the messages of the JSON parser are
    left out.  zlib and the backing image are arguments of Qcow.v.  The host
    timers behind the alarm of Timer.v are left out; the host's clocks and the
    simulator's cycle count are arguments. *)

(** ** Machine integers, bit operations, C arrays and bounded enumeration

    Shared by every component.  A C integer of width [n] is a [Z]; the
    wrap-around of a store into a [uint8_t], [uint16_t], [uint32_t] or
    [uint64_t] is written with [u8], [u16], [u32], [u64]; the operators of C
    are the notations of [c_scope].  A C array is a [list Z] read with
    [aget] and written with [aset]. *)
From Stdlib Require Export ZArith Lia ZifyNat Btauto.
From stdpp Require Export base list numbers.

#[global] Open Scope Z_scope.

Declare Scope c_scope.
Delimit Scope c_scope with C.
#[global] Open Scope c_scope.

Notation "a &. b" := (Z.land a b) (at level 40, left associativity) : c_scope.
Notation "a ^. b" := (Z.lxor a b) (at level 45, left associativity) : c_scope.
Notation "a |. b" := (Z.lor a b) (at level 46, left associativity) : c_scope.
Notation "a <<. n" := (Z.shiftl a n) (at level 38, left associativity) : c_scope.
Notation "a >>. n" := (Z.shiftr a n) (at level 38, left associativity) : c_scope.
Notation "~. a" := (Z.lnot a) (at level 30, right associativity) : c_scope.

(** ** Widths *)

Definition wrap (n z : Z) : Z := z mod 2 ^ n.
Abbreviation u8 := (wrap 8).
Abbreviation u16 := (wrap 16).
Abbreviation u32 := (wrap 32).
Abbreviation u64 := (wrap 64).

(** Conversion to a signed [n]-bit integer (two's complement). *)
Definition swrap (n z : Z) : Z := (z + 2 ^ (n - 1)) mod 2 ^ n - 2 ^ (n - 1).
Abbreviation s32 := (swrap 32).
Abbreviation s64 := (swrap 64).

(** [z] is a value of an unsigned [n]-bit type. *)
Definition is_uint (n z : Z) : Prop := 0 <= z < 2 ^ n.
Abbreviation is_u8 := (is_uint 8).
Abbreviation is_u16 := (is_uint 16).
Abbreviation is_u32 := (is_uint 32).
Abbreviation is_u64 := (is_uint 64).

(** The truth value of a C scalar, and the [0]/[1] of a C comparison. *)
Definition truthy (z : Z) : bool := negb (z =? 0).
Definition of_bool (b : bool) : Z := if b then 1 else 0.

(** ** Arrays *)

Definition aget (l : list Z) (i : Z) : Z := nth (Z.to_nat i) l 0.
Definition aset (l : list Z) (i v : Z) : list Z := <[Z.to_nat i := v]> l.

Create HintDb cint discriminated.
Create Rewrite HintDb cbits.
Create Rewrite HintDb csimp.

(** Linear arithmetic with division and remainder by constants. *)
Ltac dlia := zify; Z.to_euclidean_division_equations; lia.

(** Decides the comparisons of the goal, one by one. *)
Ltac zcases :=
  repeat match goal with
  | |- context [Z.eqb ?a ?b] => destruct (Z.eqb_spec a b); try lia
  | |- context [Z.leb ?a ?b] => destruct (Z.leb_spec a b); try lia
  | |- context [Z.ltb ?a ?b] => destruct (Z.ltb_spec a b); try lia
  end; cbn [andb orb negb].

(** ** Lemmas on widths *)

Lemma wrap_range n z : 0 <= n -> is_uint n (wrap n z).
Proof. intros. apply Z.mod_pos_bound. lia. Qed.

Lemma wrap_small n z : is_uint n z -> wrap n z = z.
Proof. intros H. apply Z.mod_small, H. Qed.

Lemma swrap_small n z : - 2 ^ (n - 1) <= z < 2 ^ (n - 1) -> 0 < n -> swrap n z = z.
Proof.
  intros H Hn. unfold swrap. rewrite Z.mod_small; [lia|].
  replace (2 ^ n) with (2 * 2 ^ (n - 1)) by (rewrite <- Z.pow_succ_r by lia; f_equal; lia). lia.
Qed.

Lemma wrap_land n z : 0 <= n -> wrap n z = z &. Z.ones n.
Proof. intros. unfold wrap. by rewrite Z.land_ones. Qed.

Lemma is_uint_mono n m z : 0 <= n <= m -> is_uint n z -> is_uint m z.
Proof.
  unfold is_uint. intros ? [? ?]. split; [done|].
  pose proof (Z.pow_le_mono_r 2 n m). lia.
Qed.

Lemma is_uint_land_l n a b : is_uint n a -> 0 <= n -> is_uint n (a &. b).
Proof.
  unfold is_uint. intros [Ha1 Ha2] ?.
  assert (E : a = a mod 2 ^ n) by (by rewrite Z.mod_small).
  rewrite E, <- Z.land_ones, <- Z.land_assoc, (Z.land_comm _ b), Z.land_assoc,
    Z.land_ones by done.
  apply Z.mod_pos_bound. lia.
Qed.

Lemma is_uint_land_r n a b : is_uint n b -> 0 <= n -> is_uint n (a &. b).
Proof. rewrite Z.land_comm. apply is_uint_land_l. Qed.

Lemma is_uint_bits n z :
  0 <= n -> is_uint n z <-> 0 <= z /\ (forall i, n <= i -> Z.testbit z i = false).
Proof.
  intros Hn. unfold is_uint. split.
  - intros [H0 H1]. split; [done|]. intros i Hi.
    rewrite <- (Z.mod_small z (2 ^ n)) by done. by apply Z.mod_pow2_bits_high.
  - intros [H0 H1]. split; [done|].
    assert (E : z = z mod 2 ^ n); [|rewrite E; apply Z.mod_pos_bound; lia].
    apply Z.bits_inj'. intros i Hi.
    destruct (Z.lt_ge_cases i n).
    + by rewrite Z.mod_pow2_bits_low.
    + by rewrite Z.mod_pow2_bits_high, H1.
Qed.

Lemma is_uint_lor n a b : is_uint n a -> is_uint n b -> 0 <= n -> is_uint n (a |. b).
Proof.
  intros Ha Hb Hn. apply is_uint_bits in Ha as [? Ha]; [|done].
  apply is_uint_bits in Hb as [? Hb]; [|done].
  apply is_uint_bits; [done|]. split; [by apply Z.lor_nonneg|].
  intros. by rewrite Z.lor_spec, Ha, Hb.
Qed.

Lemma is_uint_lxor n a b : is_uint n a -> is_uint n b -> 0 <= n -> is_uint n (a ^. b).
Proof.
  intros Ha Hb Hn. apply is_uint_bits in Ha as [? Ha]; [|done].
  apply is_uint_bits in Hb as [? Hb]; [|done].
  apply is_uint_bits; [done|]. split; [apply Z.lxor_nonneg; lia|].
  intros. by rewrite Z.lxor_spec, Ha, Hb.
Qed.

Lemma is_uint_shiftr n m a : is_uint (n + m) a -> 0 <= n -> 0 <= m -> is_uint n (a >>. m).
Proof.
  unfold is_uint. intros [? ?] ? ?. rewrite Z.shiftr_div_pow2 by done.
  split; [apply Z.div_pos; lia|].
  apply Z.div_lt_upper_bound; [lia|]. rewrite <- Z.pow_add_r by done.
  by rewrite Z.add_comm.
Qed.

Lemma is_uint_0 n : 0 <= n -> is_uint n 0.
Proof. intros. split; [lia|]. apply Z.pow_pos_nonneg; lia. Qed.

Lemma truthy_land_bit a i : 0 <= i -> truthy (a &. (1 <<. i)) = Z.testbit a i.
Proof.
  intros Hi. unfold truthy. rewrite Z.shiftl_1_l.
  destruct (Z.testbit a i) eqn:E.
  - apply negb_true_iff, Z.eqb_neq. intros H0.
    assert (Hb : Z.testbit (a &. 2 ^ i) i = false) by (by rewrite H0, Z.bits_0).
    rewrite Z.land_spec, E, Z.pow2_bits_true in Hb by done. done.
  - apply negb_false_iff, Z.eqb_eq. apply Z.bits_inj'. intros j Hj.
    rewrite Z.land_spec, Z.bits_0.
    destruct (Z.eq_dec i j) as [->|]; [by rewrite E|].
    by rewrite Z.pow2_bits_false, andb_false_r.
Qed.

#[export] Hint Resolve wrap_range is_uint_land_l is_uint_land_r is_uint_lor
  is_uint_lxor is_uint_0 : cint.

(** ** Enumeration of a bounded range

    A boolean property of the integers below [n] is decided by evaluation;
    [below_spec] turns the evaluation into a universally quantified fact. *)

Fixpoint below_from (n : nat) (x : Z) (P : Z -> bool) : bool :=
  match n with
  | O => true
  | S n' => P x && below_from n' (x + 1) P
  end.

Definition below (n : nat) (P : Z -> bool) : bool := below_from n 0 P.

Lemma below_from_spec n P : forall x y,
  below_from n x P = true -> x <= y < x + Z.of_nat n -> P y = true.
Proof.
  induction n as [|n IH]; intros x y H Hy; [lia|].
  cbn [below_from] in H. apply andb_prop in H as [H1 H2].
  destruct (Z.eq_dec x y) as [<-|]; [done|]. apply (IH (x + 1)); [done|lia].
Qed.

Lemma below_spec n P x : below n P = true -> 0 <= x < Z.of_nat n -> P x = true.
Proof. intros H Hx. apply (below_from_spec n P 0); [done|lia]. Qed.

(** An equation between functions of one byte, decided by its 256 cases. *)
Lemma byte_eq (f g : Z -> Z) x :
  below 256 (fun x => f x =? g x) = true -> is_u8 x -> f x = g x.
Proof.
  intros H Hx. apply Z.eqb_eq.
  apply (below_spec 256 (fun x => f x =? g x) x H). unfold is_uint in Hx. lia.
Qed.

Lemma byte_eq2 (f g : Z -> Z -> Z) x y :
  below 256 (fun x => below 256 (fun y => f x y =? g x y)) = true ->
  is_u8 x -> is_u8 y -> f x y = g x y.
Proof.
  intros H Hx Hy. unfold is_uint in *. apply Z.eqb_eq.
  apply (below_spec 256 (fun y => f x y =? g x y) y); [|lia].
  apply (below_spec 256 (fun x => below 256 (fun y => f x y =? g x y)) x); [done|lia].
Qed.

(** Discharges an equation between two functions of the byte [x]. *)
Ltac by_bytes x :=
  match goal with
  | |- ?l = ?r =>
      let f := eval pattern x in l in
      let g := eval pattern x in r in
      match f with
      | ?f' x => match g with
                 | ?g' x => refine (byte_eq f' g' x _ _); [vm_compute; reflexivity|]
                 end
      end
  end.

(** ** Bit-level equations *)

Lemma testbit_ones n i : 0 <= n -> 0 <= i -> Z.testbit (Z.ones n) i = (i <? n).
Proof.
  intros. destruct (Z.ltb_spec i n).
  - by apply Z.ones_spec_low.
  - by apply Z.ones_spec_high.
Qed.

Lemma testbit_shiftl a n i : 0 <= i -> Z.testbit (a <<. n) i = Z.testbit a (i - n).
Proof. intros. by apply Z.shiftl_spec. Qed.

Lemma testbit_uint n z i : is_uint n z -> 0 <= n <= i -> Z.testbit z i = false.
Proof. intros H ?. apply is_uint_bits in H as [_ H]; [apply H|]; lia. Qed.

#[export] Hint Rewrite Z.lxor_spec Z.land_spec Z.lor_spec Z.bits_0 : cbits.
#[export] Hint Rewrite Z.lnot_spec Z.shiftr_spec testbit_shiftl testbit_ones using lia : cbits.

(** Proves an equation between [lxor]/[land]/[lor]/shift terms over
    arbitrary integers, bit by bit. *)
Ltac bitwise :=
  apply Z.bits_inj'; intros ?i ?Hi; autorewrite with cbits; btauto.

(** ** Lemmas on arrays *)

Lemma length_aset l i v : length (aset l i v) = length l.
Proof. apply length_insert. Qed.

Lemma aget_aset_eq l i v : 0 <= i < Z.of_nat (length l) -> aget (aset l i v) i = v.
Proof.
  intros. unfold aget, aset. apply nth_lookup_Some, list_lookup_insert_eq. lia.
Qed.

Lemma aget_aset_ne l i j v : 0 <= i -> 0 <= j -> i <> j -> aget (aset l i v) j = aget l j.
Proof.
  intros. unfold aget, aset.
  rewrite !nth_lookup, list_lookup_insert_ne by lia. done.
Qed.

Lemma aset_aset l i u v : aset (aset l i u) i v = aset l i v.
Proof. apply list_insert_insert_eq. Qed.

Lemma aset_aget l i : 0 <= i < Z.of_nat (length l) -> aset l i (aget l i) = l.
Proof.
  intros Hi. unfold aset, aget. apply list_insert_id. rewrite nth_lookup.
  destruct (l !! Z.to_nat i) eqn:E; [done|]. apply lookup_ge_None in E. lia.
Qed.
#[export] Hint Rewrite length_aset : csimp.

(** ** Single bits *)

Lemma testbit_set a i j : 0 <= i -> 0 <= j ->
  Z.testbit (a |. (1 <<. i)) j = (i =? j) || Z.testbit a j.
Proof.
  intros. rewrite Z.lor_spec, Z.shiftl_1_l, Z.pow2_bits_eqb by done. btauto.
Qed.

Lemma testbit_clear a i j : 0 <= i -> 0 <= j ->
  Z.testbit (a &. ~. (1 <<. i)) j = negb (i =? j) && Z.testbit a j.
Proof.
  intros. rewrite Z.land_spec, Z.lnot_spec, Z.shiftl_1_l, Z.pow2_bits_eqb by done. btauto.
Qed.

Lemma is_uint_bit n i : 0 <= i < n -> is_uint n (1 <<. i).
Proof.
  intros. rewrite Z.shiftl_1_l. split; [lia|]. apply Z.pow_lt_mono_r; lia.
Qed.
#[export] Hint Resolve is_uint_bit : cint.
#[export] Hint Extern 2 (0 <= _) => lia : cint.

(** A byte is zero when its eight bits are. *)
Lemma uint_zero_bits n z : 0 <= n -> is_uint n z ->
  (forall i, 0 <= i < n -> Z.testbit z i = false) -> z = 0.
Proof.
  intros Hn Hz H. apply Z.bits_inj'. intros i Hi. rewrite Z.bits_0.
  destruct (Z.lt_ge_cases i n); [by apply H|by apply (testbit_uint n); [|lia]].
Qed.

Lemma uint_eq_bits n a b : 0 <= n -> is_uint n a -> is_uint n b ->
  (forall i, 0 <= i < n -> Z.testbit a i = Z.testbit b i) -> a = b.
Proof.
  intros Hn Ha Hb H. apply Z.bits_inj'. intros i Hi.
  destruct (Z.lt_ge_cases i n); [by apply H|].
  by rewrite (testbit_uint n a), (testbit_uint n b) by (done || lia).
Qed.

Lemma land_7 x : x &. 7 = x mod 8.
Proof. change 7 with (Z.ones 3). by rewrite Z.land_ones. Qed.

Lemma wrap_testbit n a i : 0 <= n -> 0 <= i < n -> Z.testbit (wrap n a) i = Z.testbit a i.
Proof. intros. apply Z.mod_pow2_bits_low. lia. Qed.

(** Disjoint fields: the C idiom [(h << n) | l] is an addition. *)
Lemma shiftl_lor_add n h l : 0 <= n -> is_uint n l -> (h <<. n) |. l = h * 2 ^ n + l.
Proof.
  intros Hn Hl. rewrite <- Z.shiftl_mul_pow2 by lia.
  assert (E : (h <<. n) &. l = 0).
  { apply Z.bits_inj'. intros i Hi. autorewrite with cbits.
    destruct (Z.lt_ge_cases i n).
    - rewrite (Z.testbit_neg_r h) by lia. btauto.
    - rewrite (testbit_uint n l) by (done || lia). btauto. }
  rewrite <- Z.lxor_lor, <- Z.add_nocarry_lxor by done. done.
Qed.

(** Evaluates the bits of constants in the goal. *)
Ltac constbits :=
  repeat match goal with
  | |- context [Z.testbit ?c ?i] =>
      let v := eval vm_compute in (Z.testbit c i) in
      match v with
      | true => change (Z.testbit c i) with true
      | false => change (Z.testbit c i) with false
      end
  end.

(** ** Ring buffers *)

(** The [c] entries of a ring of [n] entries from position [r] on. *)
Definition ring_contents (n : Z) (data : list Z) (r c : Z) : list Z :=
  (fun i => aget data ((r + i) mod n)) <$> seqZ 0 c.

Lemma ring_push n data r c b : Z.of_nat (length data) = n -> 0 <= r < n -> 0 <= c < n ->
  ring_contents n (aset data ((r + c) mod n) b) r (c + 1) = ring_contents n data r c ++ [b].
Proof.
  intros Hn Hr Hc. unfold ring_contents. rewrite seqZ_app, fmap_app by lia. f_equal.
  - apply list_fmap_ext. intros i x Hx. apply lookup_seqZ in Hx as [-> Hi].
    apply aget_aset_ne; [apply Z.mod_pos_bound; lia|apply Z.mod_pos_bound; lia|].
    assert (N : n <> 0) by lia. assert (B : 0 <= c - Z.of_nat i < n) by lia. intros E.
    pose proof (Zminus_mod (r + c) (r + (0 + Z.of_nat i)) n) as M.
    rewrite E, Z.sub_diag, Z.mod_0_l in M by exact N.
    replace (r + c - (r + (0 + Z.of_nat i))) with (c - Z.of_nat i) in M by ring.
    rewrite Z.mod_small in M by exact B. clear E. lia.
  - rewrite (seqZ_cons (0 + c)) by lia. cbn -[aset aget]. f_equal. apply aget_aset_eq.
    pose proof (Z.mod_pos_bound (r + c) n). lia.
Qed.

Lemma ring_pop n data r c : 0 <= r < n -> 0 < c ->
  ring_contents n data r c = aget data r :: ring_contents n data ((r + 1) mod n) (c - 1).
Proof.
  intros Hr Hc. unfold ring_contents. rewrite (seqZ_cons 0) by lia. cbn -[aget].
  f_equal; [f_equal; rewrite Z.add_0_r; by apply Z.mod_small|]. change (Z.succ 0) with 1.
  rewrite <- (fmap_add_seqZ 1 0), <- list_fmap_compose. replace (Z.pred c) with (c - 1) by lia.
  apply list_fmap_ext. intros i x Hx. cbn -[aget]. rewrite Zplus_mod_idemp_l. f_equal. f_equal. lia.
Qed.

(** ** Buffers *)

(** [n] bytes of [mem] from offset [o], and their overwriting by [bs]. *)
Definition aread (mem : list Z) (o : Z) (n : nat) : list Z :=
  map (fun i => aget mem (o + Z.of_nat i)) (seq 0 n).

Fixpoint awrite (mem : list Z) (o : Z) (bs : list Z) : list Z :=
  match bs with
  | [] => mem
  | b :: bs' => awrite (aset mem o b) (o + 1) bs'
  end.

Lemma length_awrite bs : forall mem o, length (awrite mem o bs) = length mem.
Proof. induction bs as [|b bs IH]; intros; cbn [awrite]; [done|]. by rewrite IH, length_aset. Qed.

Lemma length_aread mem o n : length (aread mem o n) = n.
Proof. unfold aread. by rewrite length_map, length_seq. Qed.

Lemma aget_awrite bs : forall mem o k,
  0 <= o -> o + Z.of_nat (length bs) <= Z.of_nat (length mem) -> 0 <= k ->
  aget (awrite mem o bs) k =
  if (o <=? k) && (k <? o + Z.of_nat (length bs)) then aget bs (k - o) else aget mem k.
Proof.
  induction bs as [|b bs IH]; intros mem o k Ho Hl Hk; cbn [awrite length] in *.
  - zcases; done.
  - rewrite IH by (rewrite ?length_aset; lia). destruct (decide (k = o)) as [->|].
    + zcases. rewrite aget_aset_eq by lia. by rewrite Z.sub_diag.
    + rewrite aget_aset_ne by lia. zcases; try done.
      unfold aget. replace (Z.to_nat (k - o)) with (S (Z.to_nat (k - (o + 1)))) by lia. done.
Qed.

(** Reading a window back: pointwise equality decides it. *)
Lemma aread_ext mem mem' o o' n :
  (forall i, 0 <= i < Z.of_nat n -> aget mem (o + i) = aget mem' (o' + i)) ->
  aread mem o n = aread mem' o' n.
Proof.
  intros H. unfold aread. apply map_ext_in. intros i Hi. apply in_seq in Hi. apply H. lia.
Qed.

Lemma aread_all l : aread l 0 (length l) = l.
Proof.
  apply nth_ext with (d := 0) (d' := 0); [by rewrite length_aread|].
  rewrite length_aread. intros i Hi. unfold aread.
  rewrite (nth_indep _ _ (aget l (0 + Z.of_nat 0))) by (rewrite length_map, length_seq; lia).
  rewrite (map_nth (fun i => aget l (0 + Z.of_nat i))), seq_nth by done.
  unfold aget. f_equal. lia.
Qed.

Lemma aread_awrite_eq mem o bs n : 0 <= o -> o + Z.of_nat (length bs) <= Z.of_nat (length mem) ->
  n = length bs -> aread (awrite mem o bs) o n = bs.
Proof.
  intros Ho Hl ->. rewrite <- (aread_all bs) at 3. apply aread_ext. intros i Hi.
  rewrite aget_awrite by lia. zcases. f_equal. lia.
Qed.

Lemma aread_awrite_ne mem o bs p n : 0 <= o -> 0 <= p ->
  o + Z.of_nat (length bs) <= Z.of_nat (length mem) ->
  p + Z.of_nat n <= o \/ o + Z.of_nat (length bs) <= p ->
  aread (awrite mem o bs) p n = aread mem p n.
Proof. intros. apply aread_ext. intros i Hi. rewrite aget_awrite by lia. zcases; done. Qed.

Lemma map_seq_shift {A} (f : nat -> A) a b : map f (seq a b) = map (fun i => f (a + i)%nat) (seq 0 b).
Proof. induction b as [|b IH]; [done|]. by rewrite !seq_S, !map_app, IH. Qed.

Lemma aread_add mem o a b : aread mem o (a + b) = aread mem o a ++ aread mem (o + Z.of_nat a) b.
Proof.
  unfold aread. rewrite seq_app, map_app, Nat.add_0_l, (map_seq_shift _ a b).
  f_equal. apply map_ext. intros i. f_equal. lia.
Qed.

Lemma aget_inj l l' : length l = length l' ->
  (forall k, 0 <= k -> aget l k = aget l' k) -> l = l'.
Proof.
  intros Hl H. apply nth_ext with (d := 0) (d' := 0); [done|]. intros i Hi.
  specialize (H (Z.of_nat i)). unfold aget in H. rewrite Nat2Z.id in H. apply H. lia.
Qed.

(** *** Windows of a function *)

(** [g] at the [n] positions from [o] on: a window of a file, say. *)
Definition window (g : Z -> Z) (o : Z) (n : nat) : list Z := map (fun i => g (o + Z.of_nat i)) (seq 0 n).

Lemma length_window g o n : length (window g o n) = n.
Proof. unfold window. by rewrite length_map, length_seq. Qed.

Lemma aget_window g o n i : 0 <= i < Z.of_nat n -> aget (window g o n) i = g (o + i).
Proof.
  intros Hi. unfold aget, window.
  rewrite (nth_indep _ _ (g (o + Z.of_nat 0))) by (rewrite length_map, length_seq; lia).
  rewrite (map_nth (fun i => g (o + Z.of_nat i))), seq_nth by lia. f_equal. lia.
Qed.

Lemma aget_take l n i : 0 <= i < Z.of_nat n -> aget (take n l) i = aget l i.
Proof. intros Hi. unfold aget. rewrite !nth_lookup, lookup_take_lt by lia. done. Qed.

Lemma aget_drop l n i : 0 <= i -> aget (drop n l) i = aget l (Z.of_nat n + i).
Proof. intros Hi. unfold aget. rewrite !nth_lookup, lookup_drop. do 2 f_equal. lia. Qed.

Lemma aget_aread mem o n i : 0 <= i < Z.of_nat n -> aget (aread mem o n) i = aget mem (o + i).
Proof. apply (aget_window (aget mem)). Qed.

Lemma window_ext g h o p n : (forall i, 0 <= i < Z.of_nat n -> g (o + i) = h (p + i)) -> window g o n = window h p n.
Proof. intros H. apply map_ext_in. intros i Hi. apply in_seq in Hi. apply H. lia. Qed.

(** A list is the window [g] shows when its entries are. *)
Lemma window_eq l g o : (forall i, 0 <= i < Z.of_nat (length l) -> aget l i = g (o + i)) -> l = window g o (length l).
Proof.
  intros H. apply nth_ext with (d := 0) (d' := 0); [by rewrite length_window|]. intros i Hi.
  specialize (H (Z.of_nat i) ltac:(lia)). unfold aget in H. rewrite Nat2Z.id in H. rewrite H.
  rewrite <- (aget_window g o (length l) (Z.of_nat i)) by lia. unfold aget. by rewrite Nat2Z.id.
Qed.

Lemma window_add g o a b : window g o (a + b) = window g o a ++ window g (o + Z.of_nat a) b.
Proof.
  unfold window. rewrite seq_app, map_app, Nat.add_0_l, (map_seq_shift _ a b).
  f_equal. apply map_ext. intros i. f_equal. lia.
Qed.

Lemma window_Forall (P : Z -> Prop) g o n : (forall i, P (g i)) -> Forall P (window g o n).
Proof. intros H. apply List.Forall_forall. intros x Hx. apply in_map_iff in Hx as (i & <- & _). apply H. Qed.

Lemma take_window g o n k : (k <= n)%nat -> take k (window g o n) = window g o k.
Proof.
  intros H. replace n with (k + (n - k))%nat at 1 by lia. rewrite window_add.
  apply take_app_length'. by rewrite length_window.
Qed.

Lemma drop_window g o n k : (k <= n)%nat -> drop k (window g o n) = window g (o + Z.of_nat k) (n - k).
Proof.
  intros H. replace n with (k + (n - k))%nat at 1 by lia. rewrite window_add.
  apply drop_app_length'. by rewrite length_window.
Qed.

(** ** Loops *)

Lemma foldl_ext_in {A B} (f g : A -> B -> A) l : (forall a x, x ∈ l -> f a x = g a x) ->
  forall a, foldl f a l = foldl g a l.
Proof.
  induction l as [|x l IH]; intros H a; cbn [foldl]; [done|].
  rewrite H by left. apply IH. intros. apply H. by right.
Qed.

Lemma foldl_id_in {A B} (f : A -> B -> A) l : (forall a x, x ∈ l -> f a x = a) ->
  forall a, foldl f a l = a.
Proof.
  induction l as [|x l IH]; intros H a; cbn [foldl]; [done|].
  rewrite H by left. apply IH. intros. apply H. by right.
Qed.
