(* ===== verification/AESSpec.v ===== *)
(** * The Advanced Encryption Standard, as FIPS-197 defines it

    The abstract specification that AES.v shows src/qemu/aes.c to implement:
    arithmetic in GF(2^8), the S-box as inversion followed by an affine map,
    the four round transformations on a state of four columns, the cipher,
    the equivalent inverse cipher and the key expansion.  Nothing here is
    taken from the source; the theorem of this file is that the equivalent
    inverse cipher undoes the cipher under any round keys. *)
From S2P Require Import Prelude.

(** ** The field GF(2^8) and the S-box *)

Definition xtime (b : Z) : Z :=
  if Z.testbit b 7 then (b <<. 1) ^. 0x11b else b <<. 1.

Fixpoint gmul_bits (n : nat) (c x : Z) : Z :=
  match n with
  | O => 0
  | S n' => (if Z.odd c then x else 0) ^. gmul_bits n' (c >>. 1) (xtime x)
  end.

Definition gmul (c x : Z) : Z := gmul_bits 8 c x.

Lemma gmul_eq c x : gmul c x = gmul_bits 8 c x.
Proof. reflexivity. Qed.

(** [ginv x] is [x ^ 254], the inverse of a non-zero [x], and maps 0 to 0. *)
Definition ginv (x : Z) : Z :=
  let x2 := gmul x x in let x4 := gmul x2 x2 in let x8 := gmul x4 x4 in
  let x16 := gmul x8 x8 in let x32 := gmul x16 x16 in
  let x64 := gmul x32 x32 in let x128 := gmul x64 x64 in
  gmul x2 (gmul x4 (gmul x8 (gmul x16 (gmul x32 (gmul x64 x128))))).

Definition rotl8 (x n : Z) : Z := u8 (x <<. n) |. (x >>. (8 - n)).

Definition sbox (x : Z) : Z :=
  let y := ginv x in
  y ^. rotl8 y 1 ^. rotl8 y 2 ^. rotl8 y 3 ^. rotl8 y 4 ^. 0x63.

Definition inv_sbox (x : Z) : Z :=
  ginv (rotl8 x 1 ^. rotl8 x 3 ^. rotl8 x 6 ^. 0x05).

(** The field operations are evaluated on concrete bytes only. *)
#[global] Opaque gmul ginv sbox inv_sbox.

(** ** Columns and states *)

Record col := Col { b0 : Z; b1 : Z; b2 : Z; b3 : Z }.
Record state := State { w0 : col; w1 : col; w2 : col; w3 : col }.

Definition col_map (f : Z -> Z) (c : col) : col :=
  Col (f (b0 c)) (f (b1 c)) (f (b2 c)) (f (b3 c)).
Definition col_xor (c d : col) : col :=
  Col (b0 c ^. b0 d) (b1 c ^. b1 d) (b2 c ^. b2 d) (b3 c ^. b3 d).
Definition state_map (f : col -> col) (s : state) : state :=
  State (f (w0 s)) (f (w1 s)) (f (w2 s)) (f (w3 s)).

Definition mix_column (c : col) : col :=
  Col (gmul 2 (b0 c) ^. gmul 3 (b1 c) ^. b2 c ^. b3 c)
      (b0 c ^. gmul 2 (b1 c) ^. gmul 3 (b2 c) ^. b3 c)
      (b0 c ^. b1 c ^. gmul 2 (b2 c) ^. gmul 3 (b3 c))
      (gmul 3 (b0 c) ^. b1 c ^. b2 c ^. gmul 2 (b3 c)).

Definition inv_mix_column (c : col) : col :=
  Col (gmul 0xe (b0 c) ^. gmul 0xb (b1 c) ^. gmul 0xd (b2 c) ^. gmul 0x9 (b3 c))
      (gmul 0x9 (b0 c) ^. gmul 0xe (b1 c) ^. gmul 0xb (b2 c) ^. gmul 0xd (b3 c))
      (gmul 0xd (b0 c) ^. gmul 0x9 (b1 c) ^. gmul 0xe (b2 c) ^. gmul 0xb (b3 c))
      (gmul 0xb (b0 c) ^. gmul 0xd (b1 c) ^. gmul 0x9 (b2 c) ^. gmul 0xe (b3 c)).

Definition sub_bytes : state -> state := state_map (col_map sbox).
Definition inv_sub_bytes : state -> state := state_map (col_map inv_sbox).
Definition mix_columns : state -> state := state_map mix_column.
Definition inv_mix_columns : state -> state := state_map inv_mix_column.

(** Row [r] moves left by [r] places. *)
Definition shift_rows (s : state) : state :=
  let '(State p q r t) := s in
  State (Col (b0 p) (b1 q) (b2 r) (b3 t)) (Col (b0 q) (b1 r) (b2 t) (b3 p))
        (Col (b0 r) (b1 t) (b2 p) (b3 q)) (Col (b0 t) (b1 p) (b2 q) (b3 r)).

(** Row [r] moves right by [r] places. *)
Definition inv_shift_rows (s : state) : state :=
  let '(State p q r t) := s in
  State (Col (b0 p) (b1 t) (b2 r) (b3 q)) (Col (b0 q) (b1 p) (b2 t) (b3 r))
        (Col (b0 r) (b1 q) (b2 p) (b3 t)) (Col (b0 t) (b1 r) (b2 q) (b3 p)).

Definition add_round_key (k s : state) : state :=
  State (col_xor (w0 s) (w0 k)) (col_xor (w1 s) (w1 k))
        (col_xor (w2 s) (w2 k)) (col_xor (w3 s) (w3 k)).

(** ** The cipher and its inverse *)

Definition enc_round (s k : state) : state :=
  add_round_key k (mix_columns (shift_rows (sub_bytes s))).
Definition dec_round (s k : state) : state :=
  add_round_key k (inv_mix_columns (inv_shift_rows (inv_sub_bytes s))).

Definition cipher (first : state) (middle : list state) (final s : state) : state :=
  add_round_key final
    (shift_rows (sub_bytes (fold_left enc_round middle (add_round_key first s)))).

Definition eq_inv_cipher (first : state) (middle : list state) (final s : state) : state :=
  add_round_key final
    (inv_shift_rows (inv_sub_bytes (fold_left dec_round middle (add_round_key first s)))).

(** ** Key expansion

    The schedule is a list of columns that grows by one column at a time;
    [nk] is the key length in columns. *)

Definition sub_col : col -> col := col_map sbox.
Definition rot_col (c : col) : col := Col (b1 c) (b2 c) (b3 c) (b0 c).

Fixpoint rcon_byte (n : nat) : Z :=
  match n with O => 1 | S n' => xtime (rcon_byte n') end.

Definition zero_col : col := Col 0 0 0 0.

(** Column number [length w] of the schedule that starts with [w]. *)
Definition next_col (nk : nat) (w : list col) : col :=
  let i := length w in
  let temp := nth (i - 1) w zero_col in
  let t :=
    if Nat.eqb (i mod nk) 0
    then col_xor (sub_col (rot_col temp)) (Col (rcon_byte (i / nk - 1)) 0 0 0)
    else if Nat.ltb 6 nk && Nat.eqb (i mod nk) 4 then sub_col temp
    else temp in
  col_xor (nth (i - nk) w zero_col) t.

Fixpoint expand (nk n : nat) (w : list col) : list col :=
  match n with
  | O => w
  | S n' => expand nk n' (w ++ [next_col nk w])
  end.

(** Four columns of the schedule as a round key. *)
Definition round_key (w : list col) (r : nat) : state :=
  State (nth (4 * r) w zero_col) (nth (4 * r + 1) w zero_col)
        (nth (4 * r + 2) w zero_col) (nth (4 * r + 3) w zero_col).

Definition cipher_with (w : list col) (nr : nat) (s : state) : state :=
  cipher (round_key w 0) (map (round_key w) (seq 1 (nr - 1))) (round_key w nr) s.

(** ** Bytes are closed under the operations *)

Definition byte_col (c : col) : Prop :=
  is_u8 (b0 c) /\ is_u8 (b1 c) /\ is_u8 (b2 c) /\ is_u8 (b3 c).
Definition byte_state (s : state) : Prop :=
  byte_col (w0 s) /\ byte_col (w1 s) /\ byte_col (w2 s) /\ byte_col (w3 s).

Definition u8b (x : Z) : bool := (0 <=? x) && (x <? 256).

Lemma u8b_is_u8 x : u8b x = true -> is_u8 x.
Proof. unfold u8b, is_uint. lia. Qed.

(** A function maps bytes to bytes when it does so on all 256 of them. *)
Lemma byte_closed (f : Z -> Z) x : below 256 (fun x => u8b (f x)) = true -> is_u8 x -> is_u8 (f x).
Proof.
  intros H Hx. apply u8b_is_u8. unfold is_uint in Hx.
  apply (below_spec 256 (fun x => u8b (f x)) x H). lia.
Qed.

Lemma sbox_u8 x : is_u8 x -> is_u8 (sbox x).
Proof. apply byte_closed. vm_compute. reflexivity. Qed.

Lemma inv_sbox_u8 x : is_u8 x -> is_u8 (inv_sbox x).
Proof. apply byte_closed. vm_compute. reflexivity. Qed.

Lemma xtime_u8 x : is_u8 x -> is_u8 (xtime x).
Proof. apply byte_closed. vm_compute. reflexivity. Qed.

Lemma gmul_bits_u8 n : forall c x, is_u8 x -> is_u8 (gmul_bits n c x).
Proof.
  induction n as [|n IH]; intros c x Hx; cbn [gmul_bits]; [by apply is_uint_0|].
  apply is_uint_lxor; [|by apply IH, xtime_u8|done].
  destruct (Z.odd c); [done|by apply is_uint_0].
Qed.

Lemma gmul_u8 c x : is_u8 x -> is_u8 (gmul c x).
Proof. rewrite gmul_eq. apply gmul_bits_u8. Qed.

Lemma lxor_u8 x y : is_u8 x -> is_u8 y -> is_u8 (x ^. y).
Proof. intros. by apply is_uint_lxor. Qed.

Create HintDb aes discriminated.
#[export] Hint Resolve sbox_u8 inv_sbox_u8 gmul_u8 lxor_u8 : aes.

Lemma byte_col_mk p q r t :
  is_u8 p -> is_u8 q -> is_u8 r -> is_u8 t -> byte_col (Col p q r t).
Proof. done. Qed.

Lemma byte_state_mk p q r t :
  byte_col p -> byte_col q -> byte_col r -> byte_col t -> byte_state (State p q r t).
Proof. done. Qed.
#[export] Hint Resolve byte_col_mk byte_state_mk : aes.

(** Splits every [byte_col] and [byte_state] hypothesis into its bytes. *)
Ltac split_bytes :=
  repeat match goal with
  | H : byte_state _ |- _ => destruct H as (? & ? & ? & ?); cbn [w0 w1 w2 w3] in *
  | H : byte_col _ |- _ => destruct H as (? & ? & ? & ?); cbn [b0 b1 b2 b3] in *
  end.

Lemma col_map_bytes f c :
  (forall x, is_u8 x -> is_u8 (f x)) -> byte_col c -> byte_col (col_map f c).
Proof. intros Hf (?&?&?&?). apply byte_col_mk; by apply Hf. Qed.

Lemma state_map_bytes f s :
  (forall c, byte_col c -> byte_col (f c)) -> byte_state s -> byte_state (state_map f s).
Proof. intros Hf (?&?&?&?). apply byte_state_mk; by apply Hf. Qed.

Lemma sub_bytes_bytes s : byte_state s -> byte_state (sub_bytes s).
Proof. apply state_map_bytes. intros. apply col_map_bytes; auto with aes. Qed.

Lemma mix_column_bytes c : byte_col c -> byte_col (mix_column c).
Proof. intros (?&?&?&?). unfold mix_column. auto 10 with aes. Qed.

Lemma inv_mix_column_bytes c : byte_col c -> byte_col (inv_mix_column c).
Proof. intros (?&?&?&?). unfold inv_mix_column. auto 10 with aes. Qed.

Lemma mix_columns_bytes s : byte_state s -> byte_state (mix_columns s).
Proof. apply state_map_bytes, mix_column_bytes. Qed.

Lemma inv_mix_columns_bytes s : byte_state s -> byte_state (inv_mix_columns s).
Proof. apply state_map_bytes, inv_mix_column_bytes. Qed.

Lemma shift_rows_bytes s : byte_state s -> byte_state (shift_rows s).
Proof. destruct s as [[] [] [] []]. intros H. split_bytes. cbn. auto with aes. Qed.

Lemma col_xor_bytes c d : byte_col c -> byte_col d -> byte_col (col_xor c d).
Proof. intros (?&?&?&?) (?&?&?&?). apply byte_col_mk; by apply lxor_u8. Qed.

Lemma add_round_key_bytes k s : byte_state k -> byte_state s -> byte_state (add_round_key k s).
Proof. intros (?&?&?&?) (?&?&?&?). apply byte_state_mk; by apply col_xor_bytes. Qed.

#[export] Hint Resolve sub_bytes_bytes mix_columns_bytes inv_mix_columns_bytes
  shift_rows_bytes add_round_key_bytes mix_column_bytes inv_mix_column_bytes
  col_xor_bytes : aes.

Lemma enc_round_bytes s k : byte_state s -> byte_state k -> byte_state (enc_round s k).
Proof. unfold enc_round. auto with aes. Qed.

(** ** The round transformations have inverses *)

Lemma inv_sbox_sbox x : is_u8 x -> inv_sbox (sbox x) = x.
Proof. intros. by_bytes x. done. Qed.

Lemma xtime_lxor x y : is_u8 x -> is_u8 y -> xtime (x ^. y) = xtime x ^. xtime y.
Proof.
  apply (byte_eq2 (fun x y => xtime (x ^. y)) (fun x y => xtime x ^. xtime y)).
  vm_compute. reflexivity.
Qed.

Lemma gmul_bits_lxor n : forall c x y, is_u8 x -> is_u8 y ->
  gmul_bits n c (x ^. y) = gmul_bits n c x ^. gmul_bits n c y.
Proof.
  induction n as [|n IH]; intros c x y Hx Hy; cbn [gmul_bits]; [done|].
  rewrite xtime_lxor, IH by auto using xtime_u8.
  destruct (Z.odd c); bitwise.
Qed.

Lemma gmul_lxor c x y : is_u8 x -> is_u8 y -> gmul c (x ^. y) = gmul c x ^. gmul c y.
Proof. rewrite !gmul_eq. apply gmul_bits_lxor. Qed.

Lemma inv_mix_column_xor c d : byte_col c -> byte_col d ->
  inv_mix_column (col_xor c d) = col_xor (inv_mix_column c) (inv_mix_column d).
Proof.
  destruct c, d. intros. split_bytes. unfold inv_mix_column, col_xor. cbn [b0 b1 b2 b3].
  rewrite !gmul_lxor by assumption. f_equal; bitwise.
Qed.

Lemma mix_column_split c : mix_column c =
  col_xor (col_xor (mix_column (Col (b0 c) 0 0 0)) (mix_column (Col 0 (b1 c) 0 0)))
          (col_xor (mix_column (Col 0 0 (b2 c) 0)) (mix_column (Col 0 0 0 (b3 c)))).
Proof.
  unfold mix_column, col_xor. cbn [b0 b1 b2 b3].
  assert (gmul 2 0 = 0 /\ gmul 3 0 = 0) as [-> ->] by (vm_compute; done). f_equal; bitwise.
Qed.

(** [inv_mix_column] undoes [mix_column] on a column with one non-zero byte;
    linearity gives the rest. *)
Lemma inv_mix_column_unit x : is_u8 x ->
  inv_mix_column (mix_column (Col x 0 0 0)) = Col x 0 0 0 /\
  inv_mix_column (mix_column (Col 0 x 0 0)) = Col 0 x 0 0 /\
  inv_mix_column (mix_column (Col 0 0 x 0)) = Col 0 0 x 0 /\
  inv_mix_column (mix_column (Col 0 0 0 x)) = Col 0 0 0 x.
Proof.
  intros H. unfold inv_mix_column, mix_column. cbn [b0 b1 b2 b3].
  repeat split; f_equal; by_bytes x; done.
Qed.

Lemma inv_mix_column_mix c : byte_col c -> inv_mix_column (mix_column c) = c.
Proof.
  destruct c as [p q r t]. intros H. split_bytes. rewrite mix_column_split. cbn [b0 b1 b2 b3].
  assert (is_u8 0) by (by apply is_uint_0).
  destruct (inv_mix_column_unit p) as (E1 & _ & _ & _); [done|].
  destruct (inv_mix_column_unit q) as (_ & E2 & _ & _); [done|].
  destruct (inv_mix_column_unit r) as (_ & _ & E3 & _); [done|].
  destruct (inv_mix_column_unit t) as (_ & _ & _ & E4); [done|].
  rewrite !inv_mix_column_xor by auto 8 with aes.
  rewrite E1, E2, E3, E4. unfold col_xor. cbn [b0 b1 b2 b3]. f_equal; bitwise.
Qed.

Lemma inv_shift_rows_shift s : inv_shift_rows (shift_rows s) = s.
Proof. by destruct s as [[] [] [] []]. Qed.

Lemma state_map_shift f s :
  state_map (col_map f) (shift_rows s) = shift_rows (state_map (col_map f) s).
Proof. by destruct s as [[] [] [] []]. Qed.

Lemma col_map_cancel f g c :
  (forall x, is_u8 x -> f (g x) = x) -> byte_col c -> col_map f (col_map g c) = c.
Proof. intros H (?&?&?&?). destruct c. unfold col_map. cbn in *. by rewrite !H. Qed.

Lemma state_map_cancel f g s :
  (forall c, byte_col c -> f (g c) = c) -> byte_state s -> state_map f (state_map g s) = s.
Proof. intros H (?&?&?&?). destruct s. unfold state_map. cbn in *. by rewrite !H. Qed.

Lemma col_xor_cancel c d : col_xor (col_xor c d) d = c.
Proof. destruct c, d. unfold col_xor. cbn. by rewrite !Z.lxor_assoc, !Z.lxor_nilpotent, !Z.lxor_0_r. Qed.

Lemma add_round_key_cancel k s : add_round_key k (add_round_key k s) = s.
Proof. destruct s. unfold add_round_key. cbn. by rewrite !col_xor_cancel. Qed.

Lemma inv_sub_shift s : byte_state s ->
  inv_shift_rows (inv_sub_bytes (shift_rows (sub_bytes s))) = s.
Proof.
  intros Hs.
  unfold inv_sub_bytes, sub_bytes. rewrite state_map_shift, inv_shift_rows_shift. apply state_map_cancel; [|done].
  intros. by apply col_map_cancel; [apply inv_sbox_sbox|].
Qed.

Lemma inv_mix_columns_add k s : byte_state k -> byte_state s ->
  inv_mix_columns (add_round_key k s) = add_round_key (inv_mix_columns k) (inv_mix_columns s).
Proof.
  intros (?&?&?&?) (?&?&?&?). unfold inv_mix_columns, state_map, add_round_key. cbn.
  by rewrite !inv_mix_column_xor.
Qed.

(** One decryption round with the transformed key undoes one encryption
    round, between the substitutions of two consecutive rounds. *)
Lemma dec_enc_round k s : byte_state k -> byte_state s ->
  dec_round (shift_rows (sub_bytes (enc_round s k))) (inv_mix_columns k) =
  shift_rows (sub_bytes s).
Proof.
  intros Hk Hs. unfold dec_round.
  rewrite inv_sub_shift by (by apply enc_round_bytes). unfold enc_round.
  rewrite inv_mix_columns_add, add_round_key_cancel by auto with aes.
  apply state_map_cancel; auto with aes. apply inv_mix_column_mix.
Qed.

(** Lifts the cancellation of one round to a sequence of rounds. *)
Section RoundSequence.
Context {S K : Type} (enc dec : S -> K -> S) (pre : S -> S) (tk : K -> K).
Context (okS : S -> Prop) (okK : K -> Prop).
Hypothesis enc_ok : forall s k, okS s -> okK k -> okS (enc s k).
Hypothesis dec_enc : forall k s, okK k -> okS s -> dec (pre (enc s k)) (tk k) = pre s.

Lemma enc_fold_ok ks : forall s, Forall okK ks -> okS s -> okS (fold_left enc ks s).
Proof using enc_ok.
  induction ks as [|k ks IH]; intros s Hks Hs; [done|].
  inversion_clear Hks. cbn. auto.
Qed.

Lemma dec_enc_fold ks : forall s, Forall okK ks -> okS s ->
  fold_left dec (map tk (rev ks)) (pre (fold_left enc ks s)) = pre s.
Proof using enc_ok dec_enc.
  induction ks as [|k ks IH] using rev_ind; intros s Hks Hs; [done|].
  apply Forall_app in Hks as [Hks Hk]. inversion_clear Hk.
  rewrite rev_app_distr, fold_left_app. cbn.
  rewrite dec_enc; auto using enc_fold_ok.
Qed.
End RoundSequence.

(** The equivalent inverse cipher undoes the cipher, for any round keys. *)
Theorem eq_inv_cipher_cipher first middle final s :
  byte_state first -> Forall byte_state middle -> byte_state s ->
  eq_inv_cipher final (map inv_mix_columns (rev middle)) first
    (cipher first middle final s) = s.
Proof.
  intros Hf Hm Hs. unfold eq_inv_cipher, cipher. rewrite add_round_key_cancel.
  rewrite (dec_enc_fold enc_round dec_round (fun s => shift_rows (sub_bytes s))
             inv_mix_columns byte_state byte_state)
    by auto using enc_round_bytes, dec_enc_round, add_round_key_bytes.
  by rewrite inv_sub_shift, add_round_key_cancel by auto with aes.
Qed.
