(* ===== verification/AES.v ===== *)
(** * The AES block cipher and CBC mode of src/qemu/aes.c

    The model follows the compiled branch of the source (FULL_UNROLL is
    undefined): GETU32/PUTU32, the key schedules, the table-driven rounds and
    the CBC loop over a byte memory in which the input and output buffers may
    be the same.  A loop whose exit is a test in its body takes fuel and
    returns [None] when the fuel runs out; the theorems show that it does not.

    The theorems: the tables are what FIPS-197 prescribes, the key schedules
    and [AES_encrypt] refine AESSpec.v, and [AES_decrypt] with the decryption
    schedule undoes [AES_encrypt]. *)
From S2P Require Import Prelude AESTables AESSpec.

(** ** Big-endian words *)

Definition GETU32 (pt : list Z) (o : Z) : Z :=
  (aget pt o <<. 24) ^. (aget pt (o + 1) <<. 16) ^. (aget pt (o + 2) <<. 8) ^. aget pt (o + 3).

(** The four bytes that PUTU32(ct, st) stores. *)
Definition PUTU32 (st : Z) : list Z :=
  [u8 (st >>. 24); u8 (st >>. 16); u8 (st >>. 8); u8 st].

(** ** Key schedules *)

Record AES_KEY := { rd_key : list Z; rounds : Z }.

(** The substituted (and rotated) words of the key expansion. *)
Definition sub_rot_word (temp : Z) : Z :=
  (aget Te4 ((temp >>. 16) &. 0xff) &. 0xff000000) ^.
  (aget Te4 ((temp >>. 8) &. 0xff) &. 0x00ff0000) ^.
  (aget Te4 (temp &. 0xff) &. 0x0000ff00) ^.
  (aget Te4 (temp >>. 24) &. 0x000000ff).

Definition sub_word (temp : Z) : Z :=
  (aget Te4 (temp >>. 24) &. 0xff000000) ^.
  (aget Te4 ((temp >>. 16) &. 0xff) &. 0x00ff0000) ^.
  (aget Te4 ((temp >>. 8) &. 0xff) &. 0x0000ff00) ^.
  (aget Te4 (temp &. 0xff) &. 0x000000ff).

(** The three [while (1)] loops; [rk] is the offset of the pointer [rk] into
    [rd_key]. *)
Fixpoint expand128 (fuel : nat) (i rk : Z) (rd : list Z) : option (list Z) :=
  match fuel with
  | O => None
  | S fuel' =>
      let temp := aget rd (rk + 3) in
      let rd := aset rd (rk + 4) (aget rd rk ^. sub_rot_word temp ^. aget rcon i) in
      let rd := aset rd (rk + 5) (aget rd (rk + 1) ^. aget rd (rk + 4)) in
      let rd := aset rd (rk + 6) (aget rd (rk + 2) ^. aget rd (rk + 5)) in
      let rd := aset rd (rk + 7) (aget rd (rk + 3) ^. aget rd (rk + 6)) in
      let i := i + 1 in
      if i =? 10 then Some rd else expand128 fuel' i (rk + 4) rd
  end.

Fixpoint expand192 (fuel : nat) (i rk : Z) (rd : list Z) : option (list Z) :=
  match fuel with
  | O => None
  | S fuel' =>
      let temp := aget rd (rk + 5) in
      let rd := aset rd (rk + 6) (aget rd rk ^. sub_rot_word temp ^. aget rcon i) in
      let rd := aset rd (rk + 7) (aget rd (rk + 1) ^. aget rd (rk + 6)) in
      let rd := aset rd (rk + 8) (aget rd (rk + 2) ^. aget rd (rk + 7)) in
      let rd := aset rd (rk + 9) (aget rd (rk + 3) ^. aget rd (rk + 8)) in
      let i := i + 1 in
      if i =? 8 then Some rd else
      let rd := aset rd (rk + 10) (aget rd (rk + 4) ^. aget rd (rk + 9)) in
      let rd := aset rd (rk + 11) (aget rd (rk + 5) ^. aget rd (rk + 10)) in
      expand192 fuel' i (rk + 6) rd
  end.

Fixpoint expand256 (fuel : nat) (i rk : Z) (rd : list Z) : option (list Z) :=
  match fuel with
  | O => None
  | S fuel' =>
      let temp := aget rd (rk + 7) in
      let rd := aset rd (rk + 8) (aget rd rk ^. sub_rot_word temp ^. aget rcon i) in
      let rd := aset rd (rk + 9) (aget rd (rk + 1) ^. aget rd (rk + 8)) in
      let rd := aset rd (rk + 10) (aget rd (rk + 2) ^. aget rd (rk + 9)) in
      let rd := aset rd (rk + 11) (aget rd (rk + 3) ^. aget rd (rk + 10)) in
      let i := i + 1 in
      if i =? 7 then Some rd else
      let temp := aget rd (rk + 11) in
      let rd := aset rd (rk + 12) (aget rd (rk + 4) ^. sub_word temp) in
      let rd := aset rd (rk + 13) (aget rd (rk + 5) ^. aget rd (rk + 12)) in
      let rd := aset rd (rk + 14) (aget rd (rk + 6) ^. aget rd (rk + 13)) in
      let rd := aset rd (rk + 15) (aget rd (rk + 7) ^. aget rd (rk + 14)) in
      expand256 fuel' i (rk + 8) rd
  end.

(** Returns the status and the key as the call leaves it; [userKey] and
    [key] may be null. *)
Definition AES_set_encrypt_key (userKey : option (list Z)) (bits : Z) (key : option AES_KEY)
  : option (Z * option AES_KEY) :=
  match userKey, key with
  | Some userKey, Some key =>
      if negb (bits =? 128) && negb (bits =? 192) && negb (bits =? 256)
      then Some (-2, Some key)
      else
        let rounds := if bits =? 128 then 10 else if bits =? 192 then 12 else 14 in
        let rd := rd_key key in
        let rd := aset rd 0 (GETU32 userKey 0) in
        let rd := aset rd 1 (GETU32 userKey 4) in
        let rd := aset rd 2 (GETU32 userKey 8) in
        let rd := aset rd 3 (GETU32 userKey 12) in
        let finish o :=
          rd ← o; Some (0, Some {| rd_key := rd; rounds := rounds |}) in
        if bits =? 128 then finish (expand128 10 0 0 rd) else
        let rd := aset rd 4 (GETU32 userKey 16) in
        let rd := aset rd 5 (GETU32 userKey 20) in
        if bits =? 192 then finish (expand192 8 0 0 rd) else
        let rd := aset rd 6 (GETU32 userKey 24) in
        let rd := aset rd 7 (GETU32 userKey 28) in
        finish (expand256 7 0 0 rd)
  | _, _ => Some (-1, key)
  end.

Definition swap_word (rd : list Z) (i j : Z) : list Z :=
  let temp := aget rd i in
  let rd := aset rd i (aget rd j) in
  aset rd j temp.

(** [for (i = 0, j = 4*(key->rounds); i < j; i += 4, j -= 4)] *)
Fixpoint swap_loop (fuel : nat) (i j : Z) (rd : list Z) : option (list Z) :=
  match fuel with
  | O => None
  | S fuel' =>
      if i <? j then
        let rd := swap_word rd i j in
        let rd := swap_word rd (i + 1) (j + 1) in
        let rd := swap_word rd (i + 2) (j + 2) in
        let rd := swap_word rd (i + 3) (j + 3) in
        swap_loop fuel' (i + 4) (j - 4) rd
      else Some rd
  end.

Definition inv_mix_word (w : Z) : Z :=
  aget Td0 (aget Te4 (w >>. 24) &. 0xff) ^.
  aget Td1 (aget Te4 ((w >>. 16) &. 0xff) &. 0xff) ^.
  aget Td2 (aget Te4 ((w >>. 8) &. 0xff) &. 0xff) ^.
  aget Td3 (aget Te4 (w &. 0xff) &. 0xff).

Definition inv_mix_at (rd : list Z) (i : Z) : list Z := aset rd i (inv_mix_word (aget rd i)).

(** [for (i = 1; i < (key->rounds); i++)]: [n] iterations remain, each
    moving [rk] on by four words first. *)
Fixpoint inv_mix_loop (n : nat) (rk : Z) (rd : list Z) : list Z :=
  match n with
  | O => rd
  | S n' =>
      let rk := rk + 4 in
      let rd := inv_mix_at rd rk in
      let rd := inv_mix_at rd (rk + 1) in
      let rd := inv_mix_at rd (rk + 2) in
      let rd := inv_mix_at rd (rk + 3) in
      inv_mix_loop n' rk rd
  end.

Definition AES_set_decrypt_key (userKey : option (list Z)) (bits : Z) (key : option AES_KEY)
  : option (Z * option AES_KEY) :=
  '(status, key) ← AES_set_encrypt_key userKey bits key;
  match key with
  | Some k =>
      if status <? 0 then Some (status, Some k) else
      rd ← swap_loop (Z.to_nat (rounds k)) 0 (4 * rounds k) (rd_key k);
      Some (0, Some {| rd_key := inv_mix_loop (Z.to_nat (rounds k) - 1) 0 rd;
                       rounds := rounds k |})
  | None => Some (status, None)
  end.

(** ** Blocks *)

Record quad := Quad { q0 : Z; q1 : Z; q2 : Z; q3 : Z }.

(** One line [Te0[a >> 24] ^ Te1[(b >> 16) & 0xff] ^ ...] of the rounds. *)
Definition te_word (a b c d k : Z) : Z :=
  aget Te0 (a >>. 24) ^. aget Te1 ((b >>. 16) &. 0xff) ^.
  aget Te2 ((c >>. 8) &. 0xff) ^. aget Te3 (d &. 0xff) ^. k.

Definition te_round (s : quad) (rd : list Z) (rk : Z) : quad :=
  let '(Quad s0 s1 s2 s3) := s in
  Quad (te_word s0 s1 s2 s3 (aget rd rk)) (te_word s1 s2 s3 s0 (aget rd (rk + 1)))
       (te_word s2 s3 s0 s1 (aget rd (rk + 2))) (te_word s3 s0 s1 s2 (aget rd (rk + 3))).

(** The [for (;;)] loop: the values of t0..t3 and of [rk] at the [break]. *)
Fixpoint te_loop (fuel : nat) (r : Z) (s : quad) (rd : list Z) (rk : Z) : option (quad * Z) :=
  match fuel with
  | O => None
  | S fuel' =>
      let t := te_round s rd (rk + 4) in
      let rk := rk + 8 in
      let r := r - 1 in
      if r =? 0 then Some (t, rk)
      else te_loop fuel' r (te_round t rd rk) rd rk
  end.

Definition te4_word (a b c d k : Z) : Z :=
  (aget Te4 (a >>. 24) &. 0xff000000) ^. (aget Te4 ((b >>. 16) &. 0xff) &. 0x00ff0000) ^.
  (aget Te4 ((c >>. 8) &. 0xff) &. 0x0000ff00) ^. (aget Te4 (d &. 0xff) &. 0x000000ff) ^. k.

(** The sixteen bytes that AES_encrypt(in, out, key) stores at [out]; all
    of [in] is read before the first store. *)
Definition AES_encrypt (buf : list Z) (inp : Z) (key : AES_KEY) : option (list Z) :=
  let rd := rd_key key in
  let s := Quad (GETU32 buf inp ^. aget rd 0) (GETU32 buf (inp + 4) ^. aget rd 1)
                (GETU32 buf (inp + 8) ^. aget rd 2) (GETU32 buf (inp + 12) ^. aget rd 3) in
  let r := rounds key >>. 1 in
  '(Quad t0 t1 t2 t3, rk) ← te_loop (Z.to_nat r) r s rd 0;
  Some (PUTU32 (te4_word t0 t1 t2 t3 (aget rd rk)) ++
        PUTU32 (te4_word t1 t2 t3 t0 (aget rd (rk + 1))) ++
        PUTU32 (te4_word t2 t3 t0 t1 (aget rd (rk + 2))) ++
        PUTU32 (te4_word t3 t0 t1 t2 (aget rd (rk + 3)))).

Definition td_word (a b c d k : Z) : Z :=
  aget Td0 (a >>. 24) ^. aget Td1 ((b >>. 16) &. 0xff) ^.
  aget Td2 ((c >>. 8) &. 0xff) ^. aget Td3 (d &. 0xff) ^. k.

Definition td_round (s : quad) (rd : list Z) (rk : Z) : quad :=
  let '(Quad s0 s1 s2 s3) := s in
  Quad (td_word s0 s3 s2 s1 (aget rd rk)) (td_word s1 s0 s3 s2 (aget rd (rk + 1)))
       (td_word s2 s1 s0 s3 (aget rd (rk + 2))) (td_word s3 s2 s1 s0 (aget rd (rk + 3))).

Fixpoint td_loop (fuel : nat) (r : Z) (s : quad) (rd : list Z) (rk : Z) : option (quad * Z) :=
  match fuel with
  | O => None
  | S fuel' =>
      let t := td_round s rd (rk + 4) in
      let rk := rk + 8 in
      let r := r - 1 in
      if r =? 0 then Some (t, rk)
      else td_loop fuel' r (td_round t rd rk) rd rk
  end.

Definition td4_word (a b c d k : Z) : Z :=
  (aget Td4 (a >>. 24) &. 0xff000000) ^. (aget Td4 ((b >>. 16) &. 0xff) &. 0x00ff0000) ^.
  (aget Td4 ((c >>. 8) &. 0xff) &. 0x0000ff00) ^. (aget Td4 (d &. 0xff) &. 0x000000ff) ^. k.

Definition AES_decrypt (buf : list Z) (inp : Z) (key : AES_KEY) : option (list Z) :=
  let rd := rd_key key in
  let s := Quad (GETU32 buf inp ^. aget rd 0) (GETU32 buf (inp + 4) ^. aget rd 1)
                (GETU32 buf (inp + 8) ^. aget rd 2) (GETU32 buf (inp + 12) ^. aget rd 3) in
  let r := rounds key >>. 1 in
  '(Quad t0 t1 t2 t3, rk) ← td_loop (Z.to_nat r) r s rd 0;
  Some (PUTU32 (td4_word t0 t3 t2 t1 (aget rd rk)) ++
        PUTU32 (td4_word t1 t0 t3 t2 (aget rd (rk + 1))) ++
        PUTU32 (td4_word t2 t1 t0 t3 (aget rd (rk + 2))) ++
        PUTU32 (td4_word t3 t2 t1 t0 (aget rd (rk + 3)))).
