(* ===== verification/AESCorrect.v ===== *)
(** * aes.c implements FIPS-197

    Relates the 32-bit words of AES.v to the columns of AESSpec.v, checks
    every entry of the tables, and derives: the key schedules are the FIPS
    key expansion (and its inverse-mixed reversal), [AES_encrypt] is the FIPS
    cipher, [AES_decrypt] undoes it, and the loops of the source terminate
    within the fuel of the model. *)
From S2P Require Import Prelude AESTables AESSpec AES.

(** ** Words and columns *)

Definition word_of_col (c : col) : Z :=
  (b0 c <<. 24) ^. (b1 c <<. 16) ^. (b2 c <<. 8) ^. b3 c.

Definition col_of_word (w : Z) : col :=
  Col (w >>. 24) ((w >>. 16) &. 0xff) ((w >>. 8) &. 0xff) (w &. 0xff).

Lemma land_ff x : x &. 0xff = x mod 256.
Proof. change 0xff with (Z.ones 8). by rewrite Z.land_ones. Qed.

(** Bits that do not overlap add up. *)
Lemma lxor_shift_add a b n : is_uint n b -> 0 <= n -> (a <<. n) ^. b = a * 2 ^ n + b.
Proof.
  intros Hb Hn. rewrite <- Z.shiftl_mul_pow2 by done. symmetry.
  apply Z.add_nocarry_lxor. apply Z.bits_inj'. intros i Hi. autorewrite with cbits.
  destruct (Z.lt_ge_cases i n).
  - by rewrite Z.testbit_neg_r by lia.
  - by rewrite (testbit_uint n b), andb_false_r.
Qed.

Lemma word_of_col_sum c : byte_col c ->
  word_of_col c = b0 c * 2 ^ 24 + b1 c * 2 ^ 16 + b2 c * 2 ^ 8 + b3 c.
Proof.
  intros (H0 & H1 & H2 & H3). unfold word_of_col.
  assert (E2 : (b2 c <<. 8) ^. b3 c = b2 c * 2 ^ 8 + b3 c) by (by apply lxor_shift_add).
  assert (U2 : is_uint 16 (b2 c * 2 ^ 8 + b3 c)) by (unfold is_uint in *; lia).
  assert (E1 : (b1 c <<. 16) ^. (b2 c * 2 ^ 8 + b3 c) =
               b1 c * 2 ^ 16 + (b2 c * 2 ^ 8 + b3 c)) by (by apply lxor_shift_add).
  assert (U1 : is_uint 24 (b1 c * 2 ^ 16 + (b2 c * 2 ^ 8 + b3 c)))
    by (unfold is_uint in *; lia).
  rewrite !Z.lxor_assoc, E2, E1, lxor_shift_add by done. lia.
Qed.

Lemma word_of_col_u32 c : byte_col c -> is_u32 (word_of_col c).
Proof.
  intros H. rewrite word_of_col_sum by done. destruct H as (?&?&?&?).
  unfold is_uint in *. lia.
Qed.

Lemma col_of_word_bytes w : is_u32 w -> byte_col (col_of_word w).
Proof.
  intros H. unfold byte_col, col_of_word. cbn [b0 b1 b2 b3].
  rewrite !land_ff, !Z.shiftr_div_pow2 by done. unfold is_uint in *.
  dlia.
Qed.

Lemma col_of_word_of_col c : byte_col c -> col_of_word (word_of_col c) = c.
Proof.
  intros H. unfold col_of_word. rewrite word_of_col_sum by done.
  destruct c as [p q r t], H as (?&?&?&?). unfold is_uint in *. cbn [b0 b1 b2 b3] in *.
  rewrite !land_ff, !Z.shiftr_div_pow2 by done.
  f_equal; dlia.
Qed.

Lemma word_of_col_of_word w : is_u32 w -> word_of_col (col_of_word w) = w.
Proof.
  intros H. rewrite word_of_col_sum by (by apply col_of_word_bytes).
  unfold col_of_word. cbn [b0 b1 b2 b3]. unfold is_uint in *.
  rewrite !land_ff, !Z.shiftr_div_pow2 by done.
  dlia.
Qed.

Lemma word_of_col_xor c d : word_of_col (col_xor c d) = word_of_col c ^. word_of_col d.
Proof.
  destruct c as [p q r t], d as [p' q' r' t']. unfold word_of_col, col_xor. cbn [b0 b1 b2 b3].
  bitwise.
Qed.

Lemma PUTU32_word c : byte_col c -> PUTU32 (word_of_col c) = [b0 c; b1 c; b2 c; b3 c].
Proof.
  intros H. unfold PUTU32, wrap. change (2 ^ 8) with 256. rewrite <- !land_ff.
  pose proof (col_of_word_of_col c H) as E. unfold col_of_word in E.
  rewrite <- E at 5 6 7 8. cbn [b0 b1 b2 b3].
  assert (is_u8 (word_of_col c >>. 24)).
  { apply is_uint_shiftr; [|done|done]. by apply word_of_col_u32. }
  f_equal. change 0xff with (Z.ones 8). rewrite Z.land_ones by done. by apply wrap_small.
Qed.

(** The four bytes of [GETU32] as a column. *)
Definition col_at (buf : list Z) (o : Z) : col :=
  Col (aget buf o) (aget buf (o + 1)) (aget buf (o + 2)) (aget buf (o + 3)).

Lemma GETU32_col buf o : GETU32 buf o = word_of_col (col_at buf o).
Proof. reflexivity. Qed.

(** ** The tables *)

Lemma Te0_entry x : is_u8 x ->
  aget Te0 x = word_of_col (Col (gmul 2 (sbox x)) (sbox x) (sbox x) (gmul 3 (sbox x))).
Proof. intros. by_bytes x. done. Qed.

Lemma Te1_entry x : is_u8 x ->
  aget Te1 x = word_of_col (Col (gmul 3 (sbox x)) (gmul 2 (sbox x)) (sbox x) (sbox x)).
Proof. intros. by_bytes x. done. Qed.

Lemma Te2_entry x : is_u8 x ->
  aget Te2 x = word_of_col (Col (sbox x) (gmul 3 (sbox x)) (gmul 2 (sbox x)) (sbox x)).
Proof. intros. by_bytes x. done. Qed.

Lemma Te3_entry x : is_u8 x ->
  aget Te3 x = word_of_col (Col (sbox x) (sbox x) (gmul 3 (sbox x)) (gmul 2 (sbox x))).
Proof. intros. by_bytes x. done. Qed.

Lemma Td0_entry x : is_u8 x -> aget Td0 x = word_of_col
  (Col (gmul 0xe (inv_sbox x)) (gmul 0x9 (inv_sbox x)) (gmul 0xd (inv_sbox x)) (gmul 0xb (inv_sbox x))).
Proof. intros. by_bytes x. done. Qed.

Lemma Td1_entry x : is_u8 x -> aget Td1 x = word_of_col
  (Col (gmul 0xb (inv_sbox x)) (gmul 0xe (inv_sbox x)) (gmul 0x9 (inv_sbox x)) (gmul 0xd (inv_sbox x))).
Proof. intros. by_bytes x. done. Qed.

Lemma Td2_entry x : is_u8 x -> aget Td2 x = word_of_col
  (Col (gmul 0xd (inv_sbox x)) (gmul 0xb (inv_sbox x)) (gmul 0xe (inv_sbox x)) (gmul 0x9 (inv_sbox x))).
Proof. intros. by_bytes x. done. Qed.

Lemma Td3_entry x : is_u8 x -> aget Td3 x = word_of_col
  (Col (gmul 0x9 (inv_sbox x)) (gmul 0xd (inv_sbox x)) (gmul 0xb (inv_sbox x)) (gmul 0xe (inv_sbox x))).
Proof. intros. by_bytes x. done. Qed.

(** The masks of the last round and of the key expansion pick one byte of
    an entry of Te4 or Td4. *)
Lemma Te4_byte0 x : is_u8 x -> aget Te4 x &. 0xff000000 = word_of_col (Col (sbox x) 0 0 0).
Proof. intros. by_bytes x. done. Qed.

Lemma Te4_byte1 x : is_u8 x -> aget Te4 x &. 0x00ff0000 = word_of_col (Col 0 (sbox x) 0 0).
Proof. intros. by_bytes x. done. Qed.

Lemma Te4_byte2 x : is_u8 x -> aget Te4 x &. 0x0000ff00 = word_of_col (Col 0 0 (sbox x) 0).
Proof. intros. by_bytes x. done. Qed.

Lemma Te4_byte3 x : is_u8 x -> aget Te4 x &. 0x000000ff = sbox x.
Proof. intros. by_bytes x. done. Qed.

Lemma Td4_byte0 x : is_u8 x -> aget Td4 x &. 0xff000000 = word_of_col (Col (inv_sbox x) 0 0 0).
Proof. intros. by_bytes x. done. Qed.

Lemma Td4_byte1 x : is_u8 x -> aget Td4 x &. 0x00ff0000 = word_of_col (Col 0 (inv_sbox x) 0 0).
Proof. intros. by_bytes x. done. Qed.

Lemma Td4_byte2 x : is_u8 x -> aget Td4 x &. 0x0000ff00 = word_of_col (Col 0 0 (inv_sbox x) 0).
Proof. intros. by_bytes x. done. Qed.

Lemma Td4_byte3 x : is_u8 x -> aget Td4 x &. 0x000000ff = inv_sbox x.
Proof. intros. by_bytes x. done. Qed.

Lemma rcon_entries i : 0 <= i < 10 ->
  aget rcon i = word_of_col (Col (rcon_byte (Z.to_nat i)) 0 0 0).
Proof.
  intros Hi. apply Z.eqb_eq.
  by apply (below_spec 10 (fun i =>
    aget rcon i =? word_of_col (Col (rcon_byte (Z.to_nat i)) 0 0 0)) i); [vm_compute|lia].
Qed.

(** ** Rounds *)

Lemma word_byte0 c : byte_col c -> word_of_col c >>. 24 = b0 c.
Proof. intros H. exact (f_equal b0 (col_of_word_of_col c H)). Qed.

Lemma word_byte1 c : byte_col c -> (word_of_col c >>. 16) &. 0xff = b1 c.
Proof. intros H. exact (f_equal b1 (col_of_word_of_col c H)). Qed.

Lemma word_byte2 c : byte_col c -> (word_of_col c >>. 8) &. 0xff = b2 c.
Proof. intros H. exact (f_equal b2 (col_of_word_of_col c H)). Qed.

Lemma word_byte3 c : byte_col c -> word_of_col c &. 0xff = b3 c.
Proof. intros H. exact (f_equal b3 (col_of_word_of_col c H)). Qed.

Lemma byte_col_b0 c : byte_col c -> is_u8 (b0 c).
Proof. intros H. apply H. Qed.

Lemma byte_col_b1 c : byte_col c -> is_u8 (b1 c).
Proof. intros H. apply H. Qed.

Lemma byte_col_b2 c : byte_col c -> is_u8 (b2 c).
Proof. intros H. apply H. Qed.

Lemma byte_col_b3 c : byte_col c -> is_u8 (b3 c).
Proof. intros H. apply H. Qed.

(** Reads the bytes of words and looks them up in the tables. *)
Create Rewrite HintDb aesw.
#[export] Hint Resolve byte_col_b0 byte_col_b1 byte_col_b2 byte_col_b3 : aes.
#[export] Hint Rewrite word_byte0 word_byte1 word_byte2 word_byte3
  Te0_entry Te1_entry Te2_entry Te3_entry Td0_entry Td1_entry Td2_entry Td3_entry
  Te4_byte0 Te4_byte1 Te4_byte2 Te4_byte3 Td4_byte0 Td4_byte1 Td4_byte2 Td4_byte3
  using (solve [auto with aes]) : aesw.

(** The column that ShiftRows collects from the four columns of a state. *)
Definition diag (p q r t : col) : col := Col (b0 p) (b1 q) (b2 r) (b3 t).

Lemma diag_bytes p q r t :
  byte_col p -> byte_col q -> byte_col r -> byte_col t -> byte_col (diag p q r t).
Proof. unfold diag. auto with aes. Qed.

Lemma sub_col_bytes c : byte_col c -> byte_col (col_map sbox c).
Proof. apply col_map_bytes, sbox_u8. Qed.

Lemma inv_sub_col_bytes c : byte_col c -> byte_col (col_map inv_sbox c).
Proof. apply col_map_bytes, inv_sbox_u8. Qed.
#[export] Hint Resolve diag_bytes sub_col_bytes inv_sub_col_bytes col_of_word_bytes : aes.

Lemma te_word_spec p q r t k :
  byte_col p -> byte_col q -> byte_col r -> byte_col t -> is_u32 k ->
  te_word (word_of_col p) (word_of_col q) (word_of_col r) (word_of_col t) k =
  word_of_col (col_xor (mix_column (col_map sbox (diag p q r t))) (col_of_word k)).
Proof.
  intros Hp Hq Hr Ht Hk. unfold te_word.
  autorewrite with aesw.
  rewrite <- !word_of_col_xor, <- (word_of_col_of_word k) at 1 by done.
  by rewrite <- word_of_col_xor.
Qed.

Lemma td_word_spec p q r t k :
  byte_col p -> byte_col q -> byte_col r -> byte_col t -> is_u32 k ->
  td_word (word_of_col p) (word_of_col q) (word_of_col r) (word_of_col t) k =
  word_of_col (col_xor (inv_mix_column (col_map inv_sbox (diag p q r t))) (col_of_word k)).
Proof.
  intros Hp Hq Hr Ht Hk. unfold td_word.
  autorewrite with aesw.
  rewrite <- !word_of_col_xor, <- (word_of_col_of_word k) at 1 by done.
  by rewrite <- word_of_col_xor.
Qed.

(** Four bytes put in their places make the word of their column. *)
Lemma masked_word_spec p q r t k : is_u32 k ->
  word_of_col (Col p 0 0 0) ^. word_of_col (Col 0 q 0 0) ^.
  word_of_col (Col 0 0 r 0) ^. t ^. k =
  word_of_col (col_xor (Col p q r t) (col_of_word k)).
Proof.
  intros Hk. rewrite word_of_col_xor, word_of_col_of_word by done.
  unfold word_of_col. cbn [b0 b1 b2 b3]. bitwise.
Qed.

Lemma te4_word_spec p q r t k :
  byte_col p -> byte_col q -> byte_col r -> byte_col t -> is_u32 k ->
  te4_word (word_of_col p) (word_of_col q) (word_of_col r) (word_of_col t) k =
  word_of_col (col_xor (col_map sbox (diag p q r t)) (col_of_word k)).
Proof.
  intros Hp Hq Hr Ht Hk. unfold te4_word.
  autorewrite with aesw.
  by rewrite masked_word_spec.
Qed.

Lemma td4_word_spec p q r t k :
  byte_col p -> byte_col q -> byte_col r -> byte_col t -> is_u32 k ->
  td4_word (word_of_col p) (word_of_col q) (word_of_col r) (word_of_col t) k =
  word_of_col (col_xor (col_map inv_sbox (diag p q r t)) (col_of_word k)).
Proof.
  intros Hp Hq Hr Ht Hk. unfold td4_word.
  autorewrite with aesw.
  by rewrite masked_word_spec.
Qed.

(** The four words of a state, and the round key at an offset of [rd_key]. *)
Definition quad_of (s : state) : quad :=
  Quad (word_of_col (w0 s)) (word_of_col (w1 s)) (word_of_col (w2 s)) (word_of_col (w3 s)).

Definition rk_state (rd : list Z) (o : Z) : state :=
  State (col_of_word (aget rd o)) (col_of_word (aget rd (o + 1)))
        (col_of_word (aget rd (o + 2))) (col_of_word (aget rd (o + 3))).

(** Every word of the schedule is a u32. *)
Definition u32_words (rd : list Z) : Prop := Forall (is_uint 32) rd.

Lemma aget_u32 rd i : u32_words rd -> is_u32 (aget rd i).
Proof.
  intros H. unfold aget. destruct (nth_in_or_default (Z.to_nat i) rd 0) as [Hin| ->].
  - by eapply Forall_forall in Hin; [|exact H].
  - by apply is_uint_0.
Qed.

Lemma rk_state_bytes rd o : u32_words rd -> byte_state (rk_state rd o).
Proof. intros. unfold rk_state. auto using byte_state_mk, col_of_word_bytes, aget_u32. Qed.

Lemma te_round_spec s rd rk : byte_state s -> u32_words rd ->
  te_round (quad_of s) rd rk = quad_of (enc_round s (rk_state rd rk)).
Proof.
  intros (?&?&?&?) Hrd. unfold te_round, quad_of.
  rewrite !te_word_spec by auto using aget_u32. by destruct s as [[] [] [] []].
Qed.

Lemma td_round_spec s rd rk : byte_state s -> u32_words rd ->
  td_round (quad_of s) rd rk = quad_of (dec_round s (rk_state rd rk)).
Proof.
  intros (?&?&?&?) Hrd. unfold td_round, quad_of.
  rewrite !td_word_spec by auto using aget_u32. by destruct s as [[] [] [] []].
Qed.

(** The [n] round keys that follow the one at offset [o]. *)
Fixpoint keys_after (rd : list Z) (o : Z) (n : nat) : list state :=
  match n with
  | O => []
  | S n' => rk_state rd (o + 4) :: keys_after rd (o + 4) n'
  end.

Lemma dec_round_bytes s k : byte_state s -> byte_state k -> byte_state (dec_round s k).
Proof.
  intros Hs Hk. unfold dec_round. apply add_round_key_bytes; [done|].
  apply inv_mix_columns_bytes. destruct s as [[] [] [] []]. split_bytes.
  cbn. auto with aes.
Qed.

(** The unrolled loop runs [2 * r - 1] rounds and stops at the key after them. *)
Lemma te_loop_spec rd : u32_words rd -> forall r s rk, byte_state s ->
  te_loop (S r) (Z.of_nat (S r)) (quad_of s) rd rk =
  Some (quad_of (fold_left enc_round (keys_after rd rk (2 * r + 1)) s),
        rk + 8 * Z.of_nat (S r)).
Proof.
  intros Hrd. induction r as [|r IH]; intros s rk Hs.
  - cbn [te_loop]. rewrite te_round_spec by done. done.
  - remember (S r) as r' eqn:Er. cbn [te_loop]. rewrite te_round_spec by done.
    replace (Z.of_nat (S r') - 1) with (Z.of_nat r') by lia.
    destruct (Z.eqb_spec (Z.of_nat r') 0); [lia|].
    pose proof (fun o => rk_state_bytes rd o Hrd).
    rewrite te_round_spec by auto using enc_round_bytes.
    rewrite IH by auto using enc_round_bytes. subst r'.
    replace (2 * S r + 1)%nat with (S (S (2 * r + 1))) by lia.
    cbn [keys_after fold_left]. replace (rk + 4 + 4) with (rk + 8) by lia.
    do 2 f_equal. lia.
Qed.

Lemma td_loop_spec rd : u32_words rd -> forall r s rk, byte_state s ->
  td_loop (S r) (Z.of_nat (S r)) (quad_of s) rd rk =
  Some (quad_of (fold_left dec_round (keys_after rd rk (2 * r + 1)) s),
        rk + 8 * Z.of_nat (S r)).
Proof.
  intros Hrd. induction r as [|r IH]; intros s rk Hs.
  - cbn [td_loop]. rewrite td_round_spec by done. done.
  - remember (S r) as r' eqn:Er. cbn [td_loop]. rewrite td_round_spec by done.
    replace (Z.of_nat (S r') - 1) with (Z.of_nat r') by lia.
    destruct (Z.eqb_spec (Z.of_nat r') 0); [lia|].
    pose proof (fun o => rk_state_bytes rd o Hrd).
    rewrite td_round_spec by auto using dec_round_bytes.
    rewrite IH by auto using dec_round_bytes. subst r'.
    replace (2 * S r + 1)%nat with (S (S (2 * r + 1))) by lia.
    cbn [keys_after fold_left]. replace (rk + 4 + 4) with (rk + 8) by lia.
    do 2 f_equal. lia.
Qed.

(** ** Blocks *)

Definition state_at (buf : list Z) (o : Z) : state :=
  State (col_at buf o) (col_at buf (o + 4)) (col_at buf (o + 8)) (col_at buf (o + 12)).

Definition bytes_of_col (c : col) : list Z := [b0 c; b1 c; b2 c; b3 c].
Definition bytes_of_state (s : state) : list Z :=
  bytes_of_col (w0 s) ++ bytes_of_col (w1 s) ++ bytes_of_col (w2 s) ++ bytes_of_col (w3 s).

Lemma state_at_bytes_of_state s : state_at (bytes_of_state s) 0 = s.
Proof. by destruct s as [[] [] [] []]. Qed.

Definition bytes (l : list Z) : Prop := Forall (is_uint 8) l.

Lemma aget_u8 l i : bytes l -> is_u8 (aget l i).
Proof.
  intros H. unfold aget. destruct (nth_in_or_default (Z.to_nat i) l 0) as [Hin| ->].
  - by eapply Forall_forall in Hin; [|exact H].
  - by apply is_uint_0.
Qed.

Lemma col_at_bytes buf o : bytes buf -> byte_col (col_at buf o).
Proof. intros. unfold col_at. auto using byte_col_mk, aget_u8. Qed.

Lemma state_at_bytes buf o : bytes buf -> byte_state (state_at buf o).
Proof. intros. unfold state_at. auto using byte_state_mk, col_at_bytes. Qed.

Lemma GETU32_u32 buf o : bytes buf -> is_u32 (GETU32 buf o).
Proof. intros. rewrite GETU32_col. apply word_of_col_u32. by apply col_at_bytes. Qed.

(** The first AddRoundKey, on words. *)
Lemma load_state buf inp rd : bytes buf -> u32_words rd ->
  Quad (GETU32 buf inp ^. aget rd 0) (GETU32 buf (inp + 4) ^. aget rd 1)
       (GETU32 buf (inp + 8) ^. aget rd 2) (GETU32 buf (inp + 12) ^. aget rd 3) =
  quad_of (add_round_key (rk_state rd 0) (state_at buf inp)).
Proof.
  intros. unfold quad_of, add_round_key, rk_state, state_at. cbn [w0 w1 w2 w3].
  by rewrite !word_of_col_xor, !word_of_col_of_word, !GETU32_col by auto using aget_u32.
Qed.

Lemma keys_after_bytes rd n : u32_words rd -> forall o, Forall byte_state (keys_after rd o n).
Proof.
  intros H. induction n as [|n IH]; intros o; cbn [keys_after]; constructor; [|done].
  by apply rk_state_bytes.
Qed.

(** A key schedule of [2 * r + 2] rounds, as the block functions read it. *)
Definition enc_block (key : AES_KEY) (s : state) : state :=
  let rd := rd_key key in
  cipher (rk_state rd 0) (keys_after rd 0 (Z.to_nat (rounds key) - 1))
         (rk_state rd (4 * rounds key)) s.
Definition dec_block (key : AES_KEY) (s : state) : state :=
  let rd := rd_key key in
  eq_inv_cipher (rk_state rd 0) (keys_after rd 0 (Z.to_nat (rounds key) - 1))
                (rk_state rd (4 * rounds key)) s.

Definition good_key (key : AES_KEY) : Prop :=
  u32_words (rd_key key) /\ exists r, rounds key = 2 * Z.of_nat (S r).

Lemma good_key_rounds r : (2 * Z.of_nat (S r)) >>. 1 = Z.of_nat (S r).
Proof. rewrite Z.shiftr_div_pow2 by done. dlia. Qed.

Lemma AES_encrypt_block buf inp key : bytes buf -> good_key key ->
  AES_encrypt buf inp key = Some (bytes_of_state (enc_block key (state_at buf inp))).
Proof.
  intros Hb [Hrd [r Hr]]. unfold AES_encrypt, enc_block. rewrite Hr, good_key_rounds, Nat2Z.id.
  set (rd := rd_key key) in *.
  pose proof (state_at_bytes buf inp Hb). pose proof (fun o => rk_state_bytes rd o Hrd).
  rewrite load_state, te_loop_spec by auto using add_round_key_bytes. cbn [mbind option_bind].
  replace (Z.to_nat (2 * Z.of_nat (S r)) - 1)%nat with (2 * r + 1)%nat by lia.
  assert (Hf : byte_state (fold_left enc_round (keys_after rd 0 (2 * r + 1))
                (add_round_key (rk_state rd 0) (state_at buf inp)))).
  { apply (enc_fold_ok _ byte_state byte_state);
      auto using enc_round_bytes, keys_after_bytes, add_round_key_bytes. }
  unfold cipher. set (f := fold_left _ _ _) in *. clearbody f. destruct Hf as (?&?&?&?).
  unfold quad_of. rewrite !te4_word_spec, !PUTU32_word
    by auto using aget_u32 with aes.
  replace (0 + 8 * Z.of_nat (S r)) with (4 * (2 * Z.of_nat (S r))) by lia.
  by destruct f as [[] [] [] []].
Qed.

Lemma AES_decrypt_block buf inp key : bytes buf -> good_key key ->
  AES_decrypt buf inp key = Some (bytes_of_state (dec_block key (state_at buf inp))).
Proof.
  intros Hb [Hrd [r Hr]]. unfold AES_decrypt, dec_block. rewrite Hr, good_key_rounds, Nat2Z.id.
  set (rd := rd_key key) in *.
  pose proof (state_at_bytes buf inp Hb). pose proof (fun o => rk_state_bytes rd o Hrd).
  rewrite load_state, td_loop_spec by auto using add_round_key_bytes. cbn [mbind option_bind].
  replace (Z.to_nat (2 * Z.of_nat (S r)) - 1)%nat with (2 * r + 1)%nat by lia.
  assert (Hf : byte_state (fold_left dec_round (keys_after rd 0 (2 * r + 1))
                (add_round_key (rk_state rd 0) (state_at buf inp)))).
  { apply (enc_fold_ok _ byte_state byte_state);
      auto using dec_round_bytes, keys_after_bytes, add_round_key_bytes. }
  unfold eq_inv_cipher. set (f := fold_left _ _ _) in *. clearbody f. destruct Hf as (?&?&?&?).
  unfold quad_of. rewrite !td4_word_spec, !PUTU32_word
    by auto using aget_u32 with aes.
  replace (0 + 8 * Z.of_nat (S r)) with (4 * (2 * Z.of_nat (S r))) by lia.
  by destruct f as [[] [] [] []].
Qed.

(** ** The encryption key schedule *)

(** The array [rd] holds the schedule [w] so far. *)
Record Sched (rd : list Z) (w : list col) : Prop := {
  sched_size : length rd = 60%nat;
  sched_u32 : u32_words rd;
  sched_bytes : Forall byte_col w;
  sched_get : forall i, (i < length w)%nat -> aget rd (Z.of_nat i) = word_of_col (nth i w zero_col)
}.

Lemma zero_col_bytes : byte_col zero_col.
Proof. apply byte_col_mk; by apply is_uint_0. Qed.

Lemma nth_bytes w i : Forall byte_col w -> byte_col (nth i w zero_col).
Proof.
  intros H. destruct (nth_in_or_default i w zero_col) as [Hin| ->].
  - by eapply Forall_forall in Hin; [|exact H].
  - apply zero_col_bytes.
Qed.

Lemma rcon_byte_u8 n : is_u8 (rcon_byte n).
Proof. induction n; cbn [rcon_byte]; [done|by apply xtime_u8]. Qed.

Lemma next_col_bytes nk w : Forall byte_col w -> byte_col (next_col nk w).
Proof.
  intros H. pose proof (fun i => nth_bytes w i H) as Hn. unfold next_col.
  apply col_xor_bytes; [done|].
  assert (Hr : byte_col (rot_col (nth (length w - 1) w zero_col)))
    by (unfold rot_col; auto with aes).
  assert (Hc : forall n, byte_col (Col (rcon_byte n) 0 0 0))
    by (intros; apply byte_col_mk; [apply rcon_byte_u8|by apply is_uint_0..]).
  destruct (Nat.eqb _ _); [unfold sub_col; auto with aes|].
  destruct (_ && _); unfold sub_col; auto with aes.
Qed.

Lemma u32_words_aset rd i v : u32_words rd -> is_u32 v -> u32_words (aset rd i v).
Proof. intros. by apply Forall_insert. Qed.

(** Storing a column behind the schedule extends it. *)
Lemma sched_store rd w c j : Sched rd w -> (length w < 60)%nat -> byte_col c ->
  j = Z.of_nat (length w) -> Sched (aset rd j (word_of_col c)) (w ++ [c]).
Proof.
  intros [Hl Hu Hb Hg] Hlt Hc ->. split.
  - by rewrite length_aset.
  - apply u32_words_aset; [done|by apply word_of_col_u32].
  - by apply Forall_app; split; [|constructor].
  - intros i Hi. rewrite length_app in Hi. cbn in Hi.
    destruct (decide (i = length w)) as [->|].
    + rewrite aget_aset_eq, nth_middle by lia. done.
    + rewrite aget_aset_ne, app_nth1 by lia. apply Hg. lia.
Qed.

Lemma sched_push nk rd w j : Sched rd w -> (length w < 60)%nat ->
  j = Z.of_nat (length w) ->
  Sched (aset rd j (word_of_col (next_col nk w))) (w ++ [next_col nk w]).
Proof. intros H ? ->. apply sched_store; [done..| |done]. apply next_col_bytes, H. Qed.

Lemma sub_rot_word_spec c : byte_col c ->
  sub_rot_word (word_of_col c) = word_of_col (sub_col (rot_col c)).
Proof.
  intros H. unfold sub_rot_word. autorewrite with aesw.
  unfold word_of_col, sub_col, rot_col, col_map. cbn [b0 b1 b2 b3]. bitwise.
Qed.

Lemma sub_word_spec c : byte_col c -> sub_word (word_of_col c) = word_of_col (sub_col c).
Proof.
  intros H. unfold sub_word. autorewrite with aesw.
  unfold word_of_col, sub_col, col_map. cbn [b0 b1 b2 b3]. bitwise.
Qed.

(** The three right-hand sides of the expansion loops compute the next
    column: [a] and [b] index columns [length w - nk] and [length w - 1]. *)
Section NextColumn.
Context (nk : nat) (rd : list Z) (w : list col) (a b : Z).
Hypothesis (Hw : Sched rd w) (Hnk : (0 < nk <= length w)%nat).
Hypothesis (Ha : a = Z.of_nat (length w - nk)) (Hb : b = Z.of_nat (length w - 1)).

Lemma next_first i : (length w mod nk = 0)%nat ->
  i = Z.of_nat (length w / nk - 1) -> 0 <= i < 10 ->
  aget rd a ^. sub_rot_word (aget rd b) ^. aget rcon i = word_of_col (next_col nk w).
Proof using Hw Hnk Ha Hb.
  intros Hm Hi Hi10. subst a b. rewrite !(sched_get _ _ Hw) by lia.
  rewrite rcon_entries by done.
  rewrite sub_rot_word_spec by (apply nth_bytes, Hw).
  unfold next_col. rewrite Hm. cbn [Nat.eqb]. rewrite !word_of_col_xor, Z.lxor_assoc.
  by replace (Z.to_nat i) with (length w / nk - 1)%nat by lia.
Qed.

Lemma next_mid : (length w mod nk = 4)%nat -> (6 < nk)%nat ->
  aget rd a ^. sub_word (aget rd b) = word_of_col (next_col nk w).
Proof using Hw Hnk Ha Hb.
  intros Hm H6. subst a b. rewrite !(sched_get _ _ Hw) by lia.
  rewrite sub_word_spec by (apply nth_bytes, Hw).
  unfold next_col. rewrite Hm. apply Nat.ltb_lt in H6. rewrite H6. cbn [Nat.eqb andb].
  by rewrite word_of_col_xor.
Qed.

Lemma next_plain : (length w mod nk <> 0)%nat ->
  (length w mod nk <> 4 \/ nk <= 6)%nat ->
  aget rd a ^. aget rd b = word_of_col (next_col nk w).
Proof using Hw Hnk Ha Hb.
  intros Hm H4. subst a b. rewrite !(sched_get _ _ Hw) by lia.
  unfold next_col. apply Nat.eqb_neq in Hm. rewrite Hm.
  destruct (Nat.ltb_spec 6 nk), (Nat.eqb_spec (length w mod nk) 4); try lia;
    cbn [andb]; by rewrite word_of_col_xor.
Qed.
End NextColumn.

Lemma expand_length nk n : forall w, length (expand nk n w) = (length w + n)%nat.
Proof.
  induction n as [|n IH]; intros w; cbn [expand]; [lia|].
  rewrite IH, length_app. cbn. lia.
Qed.

Lemma expand_S nk n w : expand nk (S n) w = expand nk n (w ++ [next_col nk w]).
Proof. reflexivity. Qed.

(** One assignment [rk[j] = v] of a loop: [tac] shows that [v] is the next
    column; the array and the schedule advance together. *)
Ltac push_col nk tac :=
  lazymatch goal with
  | H : Sched ?rd ?w |- context [aset ?rd ?j ?v] =>
      let E := fresh "E" in let H' := fresh "H" in let L := fresh "L" in
      assert (E : v = word_of_col (next_col nk w)) by (tac H; dlia);
      assert (H' : Sched (aset rd j v) (w ++ [next_col nk w]))
        by (rewrite E; apply sched_push; [exact H|lia..]);
      assert (L : length (w ++ [next_col nk w]) = S (length w))
        by (rewrite length_app; cbn; lia);
      clear E; rewrite (expand_S nk _ w);
      let r := fresh "rd" in let v := fresh "w" in
      set (r := aset rd j _) in *; set (v := w ++ _) in *; clearbody r v; clear H
  end.
Ltac push_first H := apply (next_first _ _ _ _ _ H).
Ltac push_mid H := apply (next_mid _ _ _ _ _ H).
Ltac push_plain H := apply (next_plain _ _ _ _ _ H).

Lemma expand128_spec n : forall i rk rd w,
  (1 <= n <= 10)%nat -> i = 10 - Z.of_nat n -> rk = 4 * i -> Sched rd w ->
  Z.of_nat (length w) = 4 * i + 4 ->
  exists rd', expand128 n i rk rd = Some rd' /\ Sched rd' (expand 4 (4 * n) w).
Proof.
  induction n as [|n IH]; intros i rk rd w Hn Hi Hrk H Hl; [lia|].
  replace (4 * S n)%nat with (S (S (S (S (4 * n)))))%nat by lia.
  cbn [expand128]. cbv zeta.
  push_col 4%nat push_first. do 3 push_col 4%nat push_plain.
  destruct (Z.eqb_spec (i + 1) 10).
  - replace n with O by lia. eauto.
  - apply IH; [lia..|done|lia].
Qed.

Lemma expand192_spec n : forall i rk rd w,
  (1 <= n <= 8)%nat -> i = 8 - Z.of_nat n -> rk = 6 * i -> Sched rd w ->
  Z.of_nat (length w) = 6 * i + 6 ->
  exists rd', expand192 n i rk rd = Some rd' /\ Sched rd' (expand 6 (6 * n - 2) w).
Proof.
  induction n as [|n IH]; intros i rk rd w Hn Hi Hrk H Hl; [lia|].
  replace (6 * S n - 2)%nat with (S (S (S (S (6 * n)))))%nat by lia.
  cbn [expand192]. cbv zeta.
  push_col 6%nat push_first. do 3 push_col 6%nat push_plain.
  destruct (Z.eqb_spec (i + 1) 8).
  - replace n with O by lia. eauto.
  - replace (6 * n)%nat with (S (S (6 * n - 2))) by lia.
    do 2 push_col 6%nat push_plain. apply IH; [lia..|done|lia].
Qed.

Lemma expand256_spec n : forall i rk rd w,
  (1 <= n <= 7)%nat -> i = 7 - Z.of_nat n -> rk = 8 * i -> Sched rd w ->
  Z.of_nat (length w) = 8 * i + 8 ->
  exists rd', expand256 n i rk rd = Some rd' /\ Sched rd' (expand 8 (8 * n - 4) w).
Proof.
  induction n as [|n IH]; intros i rk rd w Hn Hi Hrk H Hl; [lia|].
  replace (8 * S n - 4)%nat with (S (S (S (S (8 * n)))))%nat by lia.
  cbn [expand256]. cbv zeta.
  push_col 8%nat push_first. do 3 push_col 8%nat push_plain.
  destruct (Z.eqb_spec (i + 1) 7).
  - replace n with O by lia. eauto.
  - replace (8 * n)%nat with (S (S (S (S (8 * n - 4))))) by lia.
    push_col 8%nat push_mid. do 3 push_col 8%nat push_plain. apply IH; [lia..|done|lia].
Qed.

(** A fresh [AES_KEY]: the caller's structure, whatever it holds. *)
Definition key_struct (key : AES_KEY) : Prop :=
  length (rd_key key) = 60%nat /\ u32_words (rd_key key).

Lemma sched_nil key : key_struct key -> Sched (rd_key key) [].
Proof. intros [? ?]. split; [done..|]. cbn. lia. Qed.

Definition key_rounds (nk : nat) : nat := (nk + 6)%nat.

(** The FIPS-197 schedule of a key of [nk] columns. *)
Definition fips_schedule (userKey : list Z) (nk : nat) : list col :=
  expand nk (4 * (key_rounds nk + 1) - nk)
    (map (fun i => col_at userKey (4 * Z.of_nat i)) (seq 0 nk)).

(** Stores the columns of the user key one after the other. *)
Ltac load_key :=
  repeat lazymatch goal with
  | H : Sched ?rd ?w |- context [aset ?rd ?j (GETU32 ?k ?o)] =>
      let H' := fresh "H" in
      assert (H' : Sched (aset rd j (GETU32 k o)) (w ++ [col_at k o]))
        by (rewrite GETU32_col; apply sched_store; [exact H|cbn; lia|by apply col_at_bytes|done]);
      let r := fresh "rd" in set (r := aset rd j _) in *; clearbody r; clear H
  end.

Lemma set_encrypt_key_sched userKey bits key nk :
  bytes userKey -> key_struct key -> bits = 32 * Z.of_nat nk -> (nk = 4 \/ nk = 6 \/ nk = 8)%nat ->
  exists rd, AES_set_encrypt_key (Some userKey) bits (Some key) =
    Some (0, Some {| rd_key := rd; rounds := Z.of_nat (key_rounds nk) |}) /\
    Sched rd (fips_schedule userKey nk).
Proof.
  intros Hb Hk Hbits Hnk. pose proof (sched_nil key Hk) as H.
  unfold AES_set_encrypt_key, fips_schedule. generalize dependent (rd_key key). intros rd H.
  destruct Hnk as [->|[->| ->]];
    [assert (bits = 128) as -> by lia|assert (bits = 192) as -> by lia
    |assert (bits = 256) as -> by lia];
    cbn -[expand128 expand192 expand256 GETU32 expand]; load_key.
  - edestruct (expand128_spec 10 0 0) as (rd' & -> & Hs); [lia|done|done|eassumption|done|].
    exists rd'. done.
  - edestruct (expand192_spec 8 0 0) as (rd' & -> & Hs); [lia|done|done|eassumption|done|].
    exists rd'. done.
  - edestruct (expand256_spec 7 0 0) as (rd' & -> & Hs); [lia|done|done|eassumption|done|].
    exists rd'. done.
Qed.

(** ** The decryption key schedule *)

Lemma aget_swap_word rd i j k : 0 <= i < Z.of_nat (length rd) ->
  0 <= j < Z.of_nat (length rd) -> 0 <= k ->
  aget (swap_word rd i j) k =
  if k =? j then aget rd i else if k =? i then aget rd j else aget rd k.
Proof.
  intros Hi Hj Hk. unfold swap_word. destruct (Z.eqb_spec k j) as [->|].
  - by rewrite aget_aset_eq by (rewrite length_aset; lia).
  - rewrite aget_aset_ne by lia. destruct (Z.eqb_spec k i) as [->|].
    + by rewrite aget_aset_eq by lia.
    + by rewrite aget_aset_ne by lia.
Qed.

Lemma length_swap_word rd i j : length (swap_word rd i j) = length rd.
Proof. unfold swap_word. by rewrite !length_aset. Qed.

(** The four swaps of one iteration exchange two round keys. *)
Lemma aget_swap4 rd i j k : 0 <= i -> i + 4 <= j -> j + 4 <= Z.of_nat (length rd) -> 0 <= k ->
  aget (swap_word (swap_word (swap_word (swap_word rd i j) (i + 1) (j + 1)) (i + 2) (j + 2))
          (i + 3) (j + 3)) k =
  if (i <=? k) && (k <? i + 4) then aget rd (k + (j - i))
  else if (j <=? k) && (k <? j + 4) then aget rd (k - (j - i)) else aget rd k.
Proof.
  intros. rewrite !aget_swap_word by (rewrite ?length_swap_word; lia).
  zcases; try lia; f_equal; lia.
Qed.

(** Word [k] of a schedule of [nr] rounds, counted from the other end by
    round keys. *)
Definition mirror (nr k : Z) : Z := 4 * (nr - k / 4) + k mod 4.

Lemma swap_loop_spec nr n : forall i j rd,
  i mod 4 = 0 -> 0 <= i -> j = 4 * nr - i -> j + 4 <= Z.of_nat (length rd) -> i <= j + 4 ->
  j - i + 8 <= 8 * Z.of_nat n ->
  exists rd', swap_loop n i j rd = Some rd' /\ length rd' = length rd /\
    forall k, 0 <= k -> aget rd' k =
      if (i <=? k) && (k <? j + 4) then aget rd (mirror nr k) else aget rd k.
Proof.
  induction n as [|n IH]; intros i j rd Hm Hi Hj Hl Hij Hn; [lia|].
  cbn [swap_loop]; cbv zeta. destruct (Z.ltb_spec i j).
  - edestruct (IH (i + 4) (j - 4)) as (rd' & -> & Hl' & Hg);
      [dlia|lia|lia|rewrite !length_swap_word; lia|dlia|lia|].
    exists rd'. split_and!; [done|by rewrite Hl', !length_swap_word|].
    intros k Hk. rewrite Hg by done. unfold mirror. clear IH Hg.
    destruct (decide (i + 4 <= k < j)).
    + rewrite aget_swap4 by dlia. zcases; try (exfalso; dlia); f_equal; dlia.
    + replace ((i + 4 <=? k) && (k <? j - 4 + 4)) with false by lia.
      rewrite aget_swap4 by lia. zcases; done || (f_equal; dlia) || (exfalso; dlia).
  - exists rd. split_and!; [done..|]. intros k Hk.
    zcases; [|done..]. f_equal. unfold mirror. dlia.
Qed.

Lemma inv_mix_word_spec c : byte_col c ->
  inv_mix_word (word_of_col c) = word_of_col (inv_mix_column c).
Proof.
  intros H. unfold inv_mix_word. autorewrite with aesw. rewrite !inv_sbox_sbox by auto with aes.
  rewrite <- !word_of_col_xor. reflexivity.
Qed.

Lemma length_inv_mix_at rd i : length (inv_mix_at rd i) = length rd.
Proof. apply length_aset. Qed.

Lemma aget_inv_mix_at rd i k : 0 <= i < Z.of_nat (length rd) -> 0 <= k ->
  aget (inv_mix_at rd i) k = if k =? i then inv_mix_word (aget rd k) else aget rd k.
Proof.
  intros. unfold inv_mix_at. destruct (Z.eqb_spec k i) as [->|].
  - by rewrite aget_aset_eq.
  - by rewrite aget_aset_ne by lia.
Qed.

Lemma inv_mix_loop_spec n : forall rk rd, 0 <= rk -> rk + 4 * Z.of_nat n + 4 <= Z.of_nat (length rd) ->
  length (inv_mix_loop n rk rd) = length rd /\
  forall k, 0 <= k -> aget (inv_mix_loop n rk rd) k =
    if (rk + 4 <=? k) && (k <? rk + 4 * Z.of_nat n + 4) then inv_mix_word (aget rd k)
    else aget rd k.
Proof.
  induction n as [|n IH]; intros rk rd Hrk Hl; cbn [inv_mix_loop]; cbv zeta.
  - split; [done|]. intros k Hk. zcases; done.
  - match goal with |- context [inv_mix_loop n (rk + 4) ?r] =>
      destruct (IH (rk + 4) r) as [Hl' Hg]; [lia|rewrite !length_inv_mix_at; lia|] end.
    split; [by rewrite Hl', !length_inv_mix_at|]. intros k Hk. rewrite Hg by done. clear Hg Hl' IH.
    rewrite !aget_inv_mix_at by (rewrite ?length_inv_mix_at; lia). zcases; done.
Qed.

(** ** From schedules to block functions *)

Lemma keys_after_map rd n : forall o,
  keys_after rd o n = map (fun r => rk_state rd (o + 4 * Z.of_nat r)) (seq 1 n).
Proof.
  induction n as [|n IH]; intros o; [done|]. cbn [keys_after seq map]. rewrite IH.
  f_equal. rewrite <- (seq_shift n 1), map_map. apply map_ext. intros r. f_equal. lia.
Qed.

Lemma sched_round_key rd w r : Sched rd w -> (4 * r + 4 <= length w)%nat ->
  rk_state rd (4 * Z.of_nat r) = round_key w r.
Proof.
  intros H Hr. unfold rk_state, round_key.
  replace (4 * Z.of_nat r) with (Z.of_nat (4 * r)) by lia.
  replace (Z.of_nat (4 * r) + 1) with (Z.of_nat (4 * r + 1)) by lia.
  replace (Z.of_nat (4 * r) + 2) with (Z.of_nat (4 * r + 2)) by lia.
  replace (Z.of_nat (4 * r) + 3) with (Z.of_nat (4 * r + 3)) by lia.
  rewrite !(sched_get _ _ H) by lia.
  by rewrite !col_of_word_of_col by (apply nth_bytes, H).
Qed.

Lemma fips_schedule_length userKey nk : (nk <= 8)%nat ->
  length (fips_schedule userKey nk) = (4 * (key_rounds nk + 1))%nat.
Proof.
  intros. unfold fips_schedule, key_rounds.
  rewrite expand_length, length_map, length_seq. lia.
Qed.

Lemma enc_block_fips rd userKey nk s : Sched rd (fips_schedule userKey nk) -> (nk <= 8)%nat ->
  enc_block {| rd_key := rd; rounds := Z.of_nat (key_rounds nk) |} s =
  cipher_with (fips_schedule userKey nk) (key_rounds nk) s.
Proof.
  intros H Hnk. pose proof (fips_schedule_length userKey nk Hnk).
  unfold enc_block, cipher_with. cbn [rd_key rounds].
  rewrite keys_after_map, (sched_round_key _ _ (key_rounds nk) H) by lia.
  rewrite <- (sched_round_key _ _ 0 H), Nat2Z.id by lia. f_equal.
  apply map_ext_in. intros r Hr. apply in_seq in Hr.
  rewrite Z.add_0_l. apply sched_round_key; [done|]. lia.
Qed.

Lemma rev_seq1 n : rev (seq 1 n) = map (fun r => n + 1 - r)%nat (seq 1 n).
Proof.
  apply nth_ext with (d := O) (d' := (n + 1 - 0)%nat).
  - by rewrite length_rev, length_map.
  - rewrite length_rev, length_seq. intros i Hi.
    rewrite (map_nth (fun r => n + 1 - r)%nat), rev_nth by (rewrite length_seq; lia).
    rewrite length_seq, !seq_nth by lia. lia.
Qed.

(** The round keys after the reversal and the inverse mixing. *)
Lemma dec_rk_state rd rd1 rd2 nr r :
  u32_words rd ->
  (forall k, 0 <= k -> aget rd1 k =
     if (0 <=? k) && (k <? 4 * nr + 4) then aget rd (mirror nr k) else aget rd k) ->
  (forall k, 0 <= k -> aget rd2 k =
     if (0 + 4 <=? k) && (k <? 0 + 4 * Z.of_nat (Z.to_nat nr - 1) + 4)
     then inv_mix_word (aget rd1 k) else aget rd1 k) ->
  1 <= nr -> 0 <= r <= nr ->
  rk_state rd2 (4 * r) =
  (if (1 <=? r) && (r <? nr) then inv_mix_columns else id) (rk_state rd (4 * (nr - r))).
Proof.
  intros Hu H1 H2 Hnr Hr.
  assert (E : forall i, 0 <= i < 4 -> col_of_word (aget rd2 (4 * r + i)) =
    (if (1 <=? r) && (r <? nr) then inv_mix_column else id)
      (col_of_word (aget rd (4 * (nr - r) + i)))).
  { intros i Hi. rewrite H2, H1 by lia.
    replace ((0 <=? 4 * r + i) && (4 * r + i <? 4 * nr + 4)) with true by lia.
    replace (mirror nr (4 * r + i)) with (4 * (nr - r) + i) by (unfold mirror; dlia).
    replace ((0 + 4 <=? 4 * r + i) && (4 * r + i <? 0 + 4 * Z.of_nat (Z.to_nat nr - 1) + 4))
      with ((1 <=? r) && (r <? nr)) by (zcases; done).
    destruct ((1 <=? r) && (r <? nr)); [|done].
    rewrite <- (word_of_col_of_word (aget rd _)) at 1 by (by apply aget_u32).
    by rewrite inv_mix_word_spec, col_of_word_of_col by auto using aget_u32 with aes. }
  unfold rk_state. rewrite <- (Z.add_0_r (4 * r)) at 1.
  rewrite !E by lia. rewrite Z.add_0_r. by destruct ((1 <=? r) && (r <? nr)).
Qed.

Lemma swap_mix_cancel rd rd1 rd2 nr s :
  u32_words rd ->
  (forall k, 0 <= k -> aget rd1 k =
     if (0 <=? k) && (k <? 4 * nr + 4) then aget rd (mirror nr k) else aget rd k) ->
  (forall k, 0 <= k -> aget rd2 k =
     if (0 + 4 <=? k) && (k <? 0 + 4 * Z.of_nat (Z.to_nat nr - 1) + 4)
     then inv_mix_word (aget rd1 k) else aget rd1 k) ->
  1 <= nr -> byte_state s ->
  dec_block {| rd_key := rd2; rounds := nr |} (enc_block {| rd_key := rd; rounds := nr |} s) = s.
Proof.
  intros Hu H1 H2 Hnr Hs.
  pose proof (fun r => dec_rk_state rd rd1 rd2 nr r Hu H1 H2 Hnr) as Hk. clear H1 H2.
  rewrite <- (eq_inv_cipher_cipher (rk_state rd 0) (keys_after rd 0 (Z.to_nat nr - 1))
    (rk_state rd (4 * nr)) s) at 2 by auto using rk_state_bytes, keys_after_bytes.
  unfold dec_block, enc_block. cbn [rd_key rounds]. f_equal.
  - specialize (Hk 0). rewrite Z.mul_0_r, Z.sub_0_r in Hk. apply Hk. lia.
  - rewrite !keys_after_map, <- map_rev, rev_seq1, !map_map. apply map_ext_in.
    intros r Hr. apply in_seq in Hr. rewrite !Z.add_0_l, Hk by lia.
    replace ((1 <=? Z.of_nat r) && (Z.of_nat r <? nr)) with true by lia.
    do 2 f_equal. lia.
  - rewrite Hk by lia. rewrite Z.ltb_irrefl, andb_false_r, Z.sub_diag. done.
Qed.

Lemma u32_words_aget rd : (forall k, 0 <= k -> is_u32 (aget rd k)) -> u32_words rd.
Proof.
  intros H. apply Forall_nth. intros i d Hi. specialize (H (Z.of_nat i)).
  unfold aget in H. rewrite Nat2Z.id in H. rewrite (nth_indep _ _ 0) by done. apply H. lia.
Qed.

Lemma inv_mix_word_u32 w : is_u32 w -> is_u32 (inv_mix_word w).
Proof.
  intros H. rewrite <- (word_of_col_of_word w), inv_mix_word_spec by auto with aes.
  apply word_of_col_u32. auto with aes.
Qed.

(** Setting both schedules from one user key succeeds, and the decryption
    schedule inverts the encryption schedule on every block. *)
Lemma set_keys_cancel userKey bits key key' nk :
  bytes userKey -> key_struct key -> key_struct key' ->
  bits = 32 * Z.of_nat nk -> (nk = 4 \/ nk = 6 \/ nk = 8)%nat ->
  exists ek dk,
    AES_set_encrypt_key (Some userKey) bits (Some key) = Some (0, Some ek) /\
    AES_set_decrypt_key (Some userKey) bits (Some key') = Some (0, Some dk) /\
    good_key ek /\ good_key dk /\
    (forall s, enc_block ek s = cipher_with (fips_schedule userKey nk) (key_rounds nk) s) /\
    (forall s, byte_state s -> dec_block dk (enc_block ek s) = s).
Proof.
  intros Hb Hk Hk' Hbits Hnk.
  destruct (set_encrypt_key_sched userKey bits key nk) as (rd & E & H); [done..|].
  destruct (set_encrypt_key_sched userKey bits key' nk) as (rd' & E' & H'); [done..|].
  assert (Hf : forall s, enc_block {| rd_key := rd; rounds := Z.of_nat (key_rounds nk) |} s =
    cipher_with (fips_schedule userKey nk) (key_rounds nk) s)
    by (intros; apply enc_block_fips; [done|lia]).
  pose proof (fun s => enc_block_fips rd' userKey nk s H') as Hf'.
  set (nr := Z.of_nat (key_rounds nk)) in *.
  assert (Hnr : nr = Z.of_nat nk + 6) by (subst nr; unfold key_rounds; lia).
  assert (Hr : exists r, nr = 2 * Z.of_nat (S r))
    by (exists (nk / 2 + 2)%nat; destruct Hnk as [->|[->| ->]]; done).
  clearbody nr. pose proof (sched_size _ _ H') as Hsz. pose proof (sched_u32 _ _ H') as Hu.
  destruct (swap_loop_spec nr (Z.to_nat nr) 0 (4 * nr) rd') as (rd1 & Es & Hl & Hg);
    [done|lia..|].
  destruct (inv_mix_loop_spec (Z.to_nat nr - 1) 0 rd1) as [_ Hg2]; [lia|rewrite Hl; lia|].
  set (rd2 := inv_mix_loop _ _ _) in *.
  exists {| rd_key := rd; rounds := nr |}, {| rd_key := rd2; rounds := nr |}.
  split_and!; [done| |split; [apply H|done]|split; [|done]|done|].
  - unfold AES_set_decrypt_key. rewrite E'. cbn. by rewrite Es.
  - cbn. apply u32_words_aget. intros k Hk0. rewrite Hg2, Hg by done.
    destruct (_ && _), (_ && _); auto using inv_mix_word_u32, aget_u32.
  - intros s Hs. rewrite Hf, <- Hf' by lia. apply (swap_mix_cancel rd' rd1 rd2); [done..|lia|done].
Qed.

Lemma aread_state buf inp : aread buf inp 16 = bytes_of_state (state_at buf inp).
Proof.
  unfold aread, bytes_of_state, bytes_of_col, state_at, col_at. cbn [seq map app w0 w1 w2 w3 b0 b1 b2 b3].
  rewrite <- !Z.add_assoc. cbn -[aget Z.add]. by rewrite Z.add_0_r.
Qed.

Lemma bytes_of_state_bytes s : byte_state s -> bytes (bytes_of_state s).
Proof.
  intros H. split_bytes. unfold bytes, bytes_of_state, bytes_of_col. cbn [app].
  repeat (apply Forall_cons_2; [assumption|]). apply Forall_nil_2.
Qed.

Lemma enc_block_bytes key s : u32_words (rd_key key) -> byte_state s -> byte_state (enc_block key s).
Proof.
  intros Hrd Hs. unfold enc_block, cipher.
  assert (byte_state (fold_left enc_round (keys_after (rd_key key) 0 (Z.to_nat (rounds key) - 1))
    (add_round_key (rk_state (rd_key key) 0) s))).
  { apply (enc_fold_ok _ byte_state byte_state);
      auto using enc_round_bytes, keys_after_bytes, add_round_key_bytes, rk_state_bytes. }
  auto using rk_state_bytes with aes.
Qed.

Lemma inv_shift_sub_bytes s : byte_state s -> byte_state (inv_shift_rows (inv_sub_bytes s)).
Proof. destruct s as [[] [] [] []]. intros. split_bytes. cbn. auto with aes. Qed.

Lemma dec_block_bytes key s : u32_words (rd_key key) -> byte_state s -> byte_state (dec_block key s).
Proof.
  intros Hrd Hs. unfold dec_block, eq_inv_cipher.
  assert (byte_state (fold_left dec_round (keys_after (rd_key key) 0 (Z.to_nat (rounds key) - 1))
    (add_round_key (rk_state (rd_key key) 0) s))).
  { apply (enc_fold_ok _ byte_state byte_state);
      auto using dec_round_bytes, keys_after_bytes, add_round_key_bytes, rk_state_bytes. }
  auto using rk_state_bytes, inv_shift_sub_bytes with aes.
Qed.

(** ** Properties *)

Definition blank_key : AES_KEY := {| rd_key := replicate 60 0; rounds := 0 |}.

Lemma blank_key_struct : key_struct blank_key.
Proof. split; [done|]. apply Forall_replicate. by apply is_uint_0. Qed.

(** The bytes 0, 1, 2, ... of the FIPS-197 example vectors. *)
Definition count_bytes (n : nat) : list Z := map Z.of_nat (seq 0 n).

Lemma count_bytes_bytes n : (n <= 256)%nat -> bytes (count_bytes n).
Proof.
  intros. apply Forall_forall. intros x Hx. apply in_map_iff in Hx.
  destruct Hx as (i & <- & Hi). apply in_seq in Hi. unfold is_uint. lia.
Qed.

(** C4: for a user key of 128, 192 or 256 bits, both schedules are set with
    status 0, and [AES_decrypt] with the decryption schedule returns the
    sixteen bytes that [AES_encrypt] enciphered, for every buffer and offset. *)
Theorem AES_decrypt_encrypt userKey bits key key' nk :
  bytes userKey -> key_struct key -> key_struct key' ->
  bits = 32 * Z.of_nat nk -> (nk = 4 \/ nk = 6 \/ nk = 8)%nat ->
  exists ek dk,
    AES_set_encrypt_key (Some userKey) bits (Some key) = Some (0, Some ek) /\
    AES_set_decrypt_key (Some userKey) bits (Some key') = Some (0, Some dk) /\
    forall buf inp, bytes buf -> exists c,
      AES_encrypt buf inp ek = Some c /\ AES_decrypt c 0 dk = Some (aread buf inp 16).
Proof.
  intros Hk Hs Hs' Hbits Hnk.
  destruct (set_keys_cancel userKey bits key key' nk)
    as (ek & dk & E & D & Ge & Gd & _ & Hc); [done..|].
  exists ek, dk. split_and!; [done..|]. intros buf inp Hb.
  pose proof (state_at_bytes buf inp Hb) as Hst. pose proof (proj1 Ge) as Hu.
  eexists. split; [by apply AES_encrypt_block|].
  rewrite AES_decrypt_block, state_at_bytes_of_state, Hc, aread_state by
    auto using bytes_of_state_bytes, enc_block_bytes. done.
Qed.

Lemma AES_decrypt_encrypt_witness :
  exists ek dk,
    AES_set_encrypt_key (Some (count_bytes 16)) 128 (Some blank_key) = Some (0, Some ek) /\
    AES_set_decrypt_key (Some (count_bytes 16)) 128 (Some blank_key) = Some (0, Some dk) /\
    forall buf inp, bytes buf -> exists c,
      AES_encrypt buf inp ek = Some c /\ AES_decrypt c 0 dk = Some (aread buf inp 16).
Proof.
  apply (AES_decrypt_encrypt (count_bytes 16) 128 blank_key blank_key 4).
  - apply count_bytes_bytes. lia.
  - apply blank_key_struct.
  - apply blank_key_struct.
  - reflexivity.
  - lia.
Defined.

(** C5: for a user key of 128, 192 or 256 bits, [AES_set_encrypt_key] returns 0
    with the FIPS-197 key expansion in [rd_key], and [AES_encrypt] with it
    writes the FIPS-197 cipher of the block. *)
Theorem AES_encrypt_is_fips userKey bits key nk buf inp :
  bytes userKey -> bytes buf -> key_struct key ->
  bits = 32 * Z.of_nat nk -> (nk = 4 \/ nk = 6 \/ nk = 8)%nat ->
  exists ek, AES_set_encrypt_key (Some userKey) bits (Some key) = Some (0, Some ek) /\
    AES_encrypt buf inp ek =
    Some (bytes_of_state (cipher_with (fips_schedule userKey nk) (key_rounds nk) (state_at buf inp))).
Proof.
  intros Hk Hb Hs Hbits Hnk.
  destruct (set_keys_cancel userKey bits key key nk) as (ek & dk & E & _ & G & _ & F & _); [done..|].
  exists ek. split; [done|]. by rewrite AES_encrypt_block, F.
Qed.

Lemma AES_encrypt_is_fips_witness :
  exists ek, AES_set_encrypt_key (Some (count_bytes 32)) 256 (Some blank_key) = Some (0, Some ek) /\
    AES_encrypt (count_bytes 16) 0 ek =
    Some (bytes_of_state (cipher_with (fips_schedule (count_bytes 32) 8) 14
                            (state_at (count_bytes 16) 0))).
Proof.
  apply (AES_encrypt_is_fips (count_bytes 32) 256 blank_key 8 (count_bytes 16) 0).
  - apply count_bytes_bytes. lia.
  - apply count_bytes_bytes. lia.
  - apply blank_key_struct.
  - reflexivity.
  - lia.
Defined.

(** The error returns: a null key or structure gives -1, a key size other
    than 128, 192 or 256 gives -2, from both schedule functions, and neither
    touches the structure. *)
Theorem AES_set_key_errors userKey bits key :
  (userKey = None \/ key = None ->
   AES_set_encrypt_key userKey bits key = Some (-1, key) /\
   AES_set_decrypt_key userKey bits key = Some (-1, key)) /\
  (forall u k, userKey = Some u -> key = Some k -> bits ∉ [128; 192; 256] ->
   AES_set_encrypt_key userKey bits key = Some (-2, key) /\
   AES_set_decrypt_key userKey bits key = Some (-2, key)).
Proof.
  split.
  - intros H. assert (E : AES_set_encrypt_key userKey bits key = Some (-1, key)).
    { destruct userKey, key; destruct H; done. }
    split; [done|]. unfold AES_set_decrypt_key. rewrite E. by destruct key.
  - intros u k -> -> Hbits. rewrite !not_elem_of_cons in Hbits.
    assert (E : AES_set_encrypt_key (Some u) bits (Some k) = Some (-2, Some k)).
    { unfold AES_set_encrypt_key. by replace (_ && _ && _) with true by lia. }
    split; [done|]. unfold AES_set_decrypt_key. by rewrite E.
Qed.

Lemma AES_set_key_errors_witness :
  AES_set_decrypt_key (Some (count_bytes 16)) 100 (Some blank_key) = Some (-2, Some blank_key).
Proof.
  apply (proj2 (AES_set_key_errors (Some (count_bytes 16)) 100 (Some blank_key))
           (count_bytes 16) blank_key); [reflexivity|reflexivity|].
  rewrite !not_elem_of_cons. split_and!; [lia..|apply not_elem_of_nil].
Defined.
