(* ===== verification/I8259.v ===== *)
(** * The i8259 interrupt controller pair (src/qemu/hw/i8259.c)

    [PicState] and [PicState2] keep the source's registers; an operation on a
    chip takes the pair and the index of the chip (0 the master, 1 the slave),
    because the source follows the back pointer [pics_state].  The levels sent
    to [parent_irq] are logged, newest first.  [hw_error] ends the program and
    is [None].

    The theorems: the registers stay within their widths in every reachable
    state; the priority search and the choice of an interrupt agree with the
    priority order they implement; acknowledging and ending an interrupt
    restore the in-service register; the request logic latches edges and
    follows levels; the initialisation sequence. *)
From S2P Require Import Prelude.

Module I8259.

(** ** State *)

Record PicState := mkPic {
  last_irr : Z;
  irr : Z;
  imr : Z;
  isr : Z;
  priority_add : Z;
  irq_base : Z;
  read_reg_select : Z;
  poll : Z;
  special_mask : Z;
  init_state : Z;
  auto_eoi : Z;
  rotate_on_auto_eoi : Z;
  special_fully_nested_mode : Z;
  init4 : Z;
  single_mode : Z;
  elcr : Z;
  elcr_mask : Z
}.

Definition set_last_irr (v : Z) (s : PicState) : PicState :=
  mkPic v (irr s) (imr s) (isr s) (priority_add s) (irq_base s) (read_reg_select s) (poll
    s) (special_mask s) (init_state s) (auto_eoi s) (rotate_on_auto_eoi s)
    (special_fully_nested_mode s) (init4 s) (single_mode s) (elcr s) (elcr_mask s).
Definition set_irr (v : Z) (s : PicState) : PicState :=
  mkPic (last_irr s) v (imr s) (isr s) (priority_add s) (irq_base s) (read_reg_select s)
    (poll s) (special_mask s) (init_state s) (auto_eoi s) (rotate_on_auto_eoi s)
    (special_fully_nested_mode s) (init4 s) (single_mode s) (elcr s) (elcr_mask s).
Definition set_imr (v : Z) (s : PicState) : PicState :=
  mkPic (last_irr s) (irr s) v (isr s) (priority_add s) (irq_base s) (read_reg_select s)
    (poll s) (special_mask s) (init_state s) (auto_eoi s) (rotate_on_auto_eoi s)
    (special_fully_nested_mode s) (init4 s) (single_mode s) (elcr s) (elcr_mask s).
Definition set_isr (v : Z) (s : PicState) : PicState :=
  mkPic (last_irr s) (irr s) (imr s) v (priority_add s) (irq_base s) (read_reg_select s)
    (poll s) (special_mask s) (init_state s) (auto_eoi s) (rotate_on_auto_eoi s)
    (special_fully_nested_mode s) (init4 s) (single_mode s) (elcr s) (elcr_mask s).
Definition set_priority_add (v : Z) (s : PicState) : PicState :=
  mkPic (last_irr s) (irr s) (imr s) (isr s) v (irq_base s) (read_reg_select s) (poll s)
    (special_mask s) (init_state s) (auto_eoi s) (rotate_on_auto_eoi s)
    (special_fully_nested_mode s) (init4 s) (single_mode s) (elcr s) (elcr_mask s).
Definition set_irq_base (v : Z) (s : PicState) : PicState :=
  mkPic (last_irr s) (irr s) (imr s) (isr s) (priority_add s) v (read_reg_select s) (poll
    s) (special_mask s) (init_state s) (auto_eoi s) (rotate_on_auto_eoi s)
    (special_fully_nested_mode s) (init4 s) (single_mode s) (elcr s) (elcr_mask s).
Definition set_read_reg_select (v : Z) (s : PicState) : PicState :=
  mkPic (last_irr s) (irr s) (imr s) (isr s) (priority_add s) (irq_base s) v (poll s)
    (special_mask s) (init_state s) (auto_eoi s) (rotate_on_auto_eoi s)
    (special_fully_nested_mode s) (init4 s) (single_mode s) (elcr s) (elcr_mask s).
Definition set_poll (v : Z) (s : PicState) : PicState :=
  mkPic (last_irr s) (irr s) (imr s) (isr s) (priority_add s) (irq_base s)
    (read_reg_select s) v (special_mask s) (init_state s) (auto_eoi s) (rotate_on_auto_eoi
    s) (special_fully_nested_mode s) (init4 s) (single_mode s) (elcr s) (elcr_mask s).
Definition set_special_mask (v : Z) (s : PicState) : PicState :=
  mkPic (last_irr s) (irr s) (imr s) (isr s) (priority_add s) (irq_base s)
    (read_reg_select s) (poll s) v (init_state s) (auto_eoi s) (rotate_on_auto_eoi s)
    (special_fully_nested_mode s) (init4 s) (single_mode s) (elcr s) (elcr_mask s).
Definition set_init_state (v : Z) (s : PicState) : PicState :=
  mkPic (last_irr s) (irr s) (imr s) (isr s) (priority_add s) (irq_base s)
    (read_reg_select s) (poll s) (special_mask s) v (auto_eoi s) (rotate_on_auto_eoi s)
    (special_fully_nested_mode s) (init4 s) (single_mode s) (elcr s) (elcr_mask s).
Definition set_auto_eoi (v : Z) (s : PicState) : PicState :=
  mkPic (last_irr s) (irr s) (imr s) (isr s) (priority_add s) (irq_base s)
    (read_reg_select s) (poll s) (special_mask s) (init_state s) v (rotate_on_auto_eoi s)
    (special_fully_nested_mode s) (init4 s) (single_mode s) (elcr s) (elcr_mask s).
Definition set_rotate_on_auto_eoi (v : Z) (s : PicState) : PicState :=
  mkPic (last_irr s) (irr s) (imr s) (isr s) (priority_add s) (irq_base s)
    (read_reg_select s) (poll s) (special_mask s) (init_state s) (auto_eoi s) v
    (special_fully_nested_mode s) (init4 s) (single_mode s) (elcr s) (elcr_mask s).
Definition set_special_fully_nested_mode (v : Z) (s : PicState) : PicState :=
  mkPic (last_irr s) (irr s) (imr s) (isr s) (priority_add s) (irq_base s)
    (read_reg_select s) (poll s) (special_mask s) (init_state s) (auto_eoi s)
    (rotate_on_auto_eoi s) v (init4 s) (single_mode s) (elcr s) (elcr_mask s).
Definition set_init4 (v : Z) (s : PicState) : PicState :=
  mkPic (last_irr s) (irr s) (imr s) (isr s) (priority_add s) (irq_base s)
    (read_reg_select s) (poll s) (special_mask s) (init_state s) (auto_eoi s)
    (rotate_on_auto_eoi s) (special_fully_nested_mode s) v (single_mode s) (elcr s)
    (elcr_mask s).
Definition set_single_mode (v : Z) (s : PicState) : PicState :=
  mkPic (last_irr s) (irr s) (imr s) (isr s) (priority_add s) (irq_base s)
    (read_reg_select s) (poll s) (special_mask s) (init_state s) (auto_eoi s)
    (rotate_on_auto_eoi s) (special_fully_nested_mode s) (init4 s) v (elcr s) (elcr_mask
    s).
Definition set_elcr (v : Z) (s : PicState) : PicState :=
  mkPic (last_irr s) (irr s) (imr s) (isr s) (priority_add s) (irq_base s)
    (read_reg_select s) (poll s) (special_mask s) (init_state s) (auto_eoi s)
    (rotate_on_auto_eoi s) (special_fully_nested_mode s) (init4 s) (single_mode s) v
    (elcr_mask s).

Record PicState2 := mkPic2 { pic0 : PicState; pic1 : PicState; parent_log : list Z }.

(** [&s->pics[i]], for reading and for writing. *)
Definition pics (s : PicState2) (i : bool) : PicState := if i then pic1 s else pic0 s.
Definition set_pics (i : bool) (p : PicState) (s : PicState2) : PicState2 :=
  if i then mkPic2 (pic0 s) p (parent_log s) else mkPic2 p (pic1 s) (parent_log s).
Definition upd (i : bool) (f : PicState -> PicState) (s : PicState2) : PicState2 :=
  set_pics i (f (pics s i)) s.

Definition qemu_set_parent (level : Z) (s : PicState2) : PicState2 :=
  mkPic2 (pic0 s) (pic1 s) (level :: parent_log s).

(** ** Requests *)

Definition pic_set_irq1 (irq : Z) (level : bool) (s : PicState) : PicState :=
  let mask := 1 <<. irq in
  if truthy (elcr s &. mask) then
    if level then set_last_irr (u8 (last_irr s |. mask)) (set_irr (u8 (irr s |. mask)) s)
    else set_last_irr (u8 (last_irr s &. ~. mask)) (set_irr (u8 (irr s &. ~. mask)) s)
  else
    if level then
      let s := if (last_irr s &. mask) =? 0 then set_irr (u8 (irr s |. mask)) s else s in
      set_last_irr (u8 (last_irr s |. mask)) s
    else set_last_irr (u8 (last_irr s &. ~. mask)) s.

(** The [while] loop of [get_priority]: [n] positions are left to try.  Every
    mask the code passes is a byte, and a non-zero byte has a bit in one of
    the eight positions ([get_priority_spec]). *)
Fixpoint priority_search (n : nat) (padd mask priority : Z) : Z :=
  match n with
  | O => priority
  | S n' =>
      if (mask &. (1 <<. ((priority + padd) &. 7))) =? 0
      then priority_search n' padd mask (priority + 1)
      else priority
  end.

Definition get_priority (s : PicState) (mask : Z) : Z :=
  if mask =? 0 then 8 else priority_search 8 (priority_add s) mask 0.

(** [slave] tells whether [s] is [pics[1]]. *)
Definition pic_get_irq (slave : bool) (s : PicState) : Z :=
  let mask := irr s &. ~. imr s in
  let priority := get_priority s mask in
  if priority =? 8 then -1 else
  let mask := isr s in
  let mask := if truthy (special_mask s) then mask &. ~. imr s else mask in
  let mask := if truthy (special_fully_nested_mode s) && negb slave
              then mask &. ~. (1 <<. 2) else mask in
  let cur_priority := get_priority s mask in
  if priority <? cur_priority then (priority + priority_add s) &. 7 else -1.

Definition pic_update_irq (s : PicState2) : PicState2 :=
  let irq2 := pic_get_irq true (pic1 s) in
  let s := if 0 <=? irq2
           then upd false (pic_set_irq1 2 false) (upd false (pic_set_irq1 2 true) s)
           else s in
  let irq := pic_get_irq false (pic0 s) in
  if 0 <=? irq then qemu_set_parent 1 s else s.

Definition i8259_set_irq (irq : Z) (level : bool) (s : PicState2) : PicState2 :=
  pic_update_irq (upd (0 <? irq >>. 3) (pic_set_irq1 (irq &. 7) level) s).

Definition pic_intack (irq : Z) (s : PicState) : PicState :=
  let s :=
    if truthy (auto_eoi s) then
      if truthy (rotate_on_auto_eoi s) then set_priority_add ((irq + 1) &. 7) s else s
    else set_isr (u8 (isr s |. (1 <<. irq))) s in
  if negb (truthy (elcr s &. (1 <<. irq)))
  then set_irr (u8 (irr s &. ~. (1 <<. irq))) s else s.

(** The vector delivered to the CPU. *)
Definition pic_read_irq (s : PicState2) : Z * PicState2 :=
  let irq := pic_get_irq false (pic0 s) in
  let '(intno, s) :=
    if 0 <=? irq then
      let s := upd false (pic_intack irq) s in
      if irq =? 2 then
        let irq2 := pic_get_irq true (pic1 s) in
        let '(irq2, s) :=
          if 0 <=? irq2 then (irq2, upd true (pic_intack irq2) s) else (7, s) in
        (irq_base (pic1 s) + irq2, s)
      else (irq_base (pic0 s) + irq, s)
    else (irq_base (pic0 s) + 7, s) in
  (intno, pic_update_irq s).

(** ** Ports *)

Definition pic_reset (s : PicState) : PicState :=
  mkPic 0 0 0 0 0 0 0 0 0 0 0 0 0 0 0 (elcr s) (elcr_mask s).

(** OCW2: the commands written with bits 3 and 4 clear. *)
Definition pic_command (i : bool) (val : Z) (s : PicState2) : PicState2 :=
  let cmd := val >>. 5 in
  if (cmd =? 0) || (cmd =? 4) then upd i (set_rotate_on_auto_eoi (u8 (cmd >>. 2))) s
  else if (cmd =? 1) || (cmd =? 5) then
    let p := pics s i in
    let priority := get_priority p (isr p) in
    if negb (priority =? 8) then
      let irq := (priority + priority_add p) &. 7 in
      let s := upd i (fun p => set_isr (u8 (isr p &. ~. (1 <<. irq))) p) s in
      let s := if cmd =? 5 then upd i (set_priority_add ((irq + 1) &. 7)) s else s in
      pic_update_irq s
    else s
  else if cmd =? 3 then
    let irq := val &. 7 in
    pic_update_irq (upd i (fun p => set_isr (u8 (isr p &. ~. (1 <<. irq))) p) s)
  else if cmd =? 6 then pic_update_irq (upd i (set_priority_add ((val + 1) &. 7)) s)
  else if cmd =? 7 then
    let irq := val &. 7 in
    let s := upd i (fun p => set_isr (u8 (isr p &. ~. (1 <<. irq))) p) s in
    pic_update_irq (upd i (set_priority_add ((irq + 1) &. 7)) s)
  else s.

(** [None] is [hw_error("level sensitive irq not supported")]. *)
Definition pic_ioport_write (i : bool) (addr val : Z) (s : PicState2) : option PicState2 :=
  let addr := addr &. 1 in
  if addr =? 0 then
    if truthy (val &. 0x10) then
      let s := upd i pic_reset s in
      let s := qemu_set_parent 0 s in
      let s := upd i (set_init_state 1) s in
      let s := upd i (set_init4 (val &. 1)) s in
      let s := upd i (set_single_mode (val &. 2)) s in
      if truthy (val &. 0x08) then None else Some s
    else if truthy (val &. 0x08) then
      let s := if truthy (val &. 0x04) then upd i (set_poll 1) s else s in
      let s := if truthy (val &. 0x02) then upd i (set_read_reg_select (val &. 1)) s else s in
      let s := if truthy (val &. 0x40)
               then upd i (set_special_mask ((val >>. 5) &. 1)) s else s in
      Some s
    else Some (pic_command i val s)
  else
    let p := pics s i in
    if init_state p =? 0 then Some (pic_update_irq (upd i (set_imr (u8 val)) s))
    else if init_state p =? 1 then
      let s := upd i (set_irq_base (val &. 0xf8)) s in
      Some (upd i (set_init_state
        (if truthy (single_mode p) then if truthy (init4 p) then 3 else 0 else 2)) s)
    else if init_state p =? 2 then
      Some (upd i (set_init_state (if truthy (init4 p) then 3 else 0)) s)
    else if init_state p =? 3 then
      let s := upd i (set_special_fully_nested_mode ((val >>. 4) &. 1)) s in
      let s := upd i (set_auto_eoi ((val >>. 1) &. 1)) s in
      Some (upd i (set_init_state 0) s)
    else Some s.

Definition clear_irq (irq : Z) (p : PicState) : PicState :=
  let p := set_irr (u8 (irr p &. ~. (1 <<. irq))) p in
  set_isr (u8 (isr p &. ~. (1 <<. irq))) p.

Definition pic_poll_read (i : bool) (addr1 : Z) (s : PicState2) : Z * PicState2 :=
  let ret := pic_get_irq i (pics s i) in
  if 0 <=? ret then
    let s := if truthy (addr1 >>. 7) then upd false (clear_irq 2) s else s in
    let s := upd i (clear_irq ret) s in
    (ret, if truthy (addr1 >>. 7) || negb (ret =? 2) then pic_update_irq s else s)
  else (0x07, pic_update_irq s).

Definition pic_ioport_read (i : bool) (addr1 : Z) (s : PicState2) : Z * PicState2 :=
  let addr := addr1 &. 1 in
  let p := pics s i in
  if truthy (poll p) then
    let '(ret, s) := pic_poll_read i addr1 s in
    (ret, upd i (set_poll 0) s)
  else
    ((if addr =? 0 then if truthy (read_reg_select p) then isr p else irr p else imr p), s).

Definition pic_intack_read (s : PicState2) : Z * PicState2 :=
  let '(ret, s) := pic_poll_read false 0x00 s in
  let '(ret, s) :=
    if ret =? 2 then let '(r, s) := pic_poll_read true 0x80 s in (r + 8, s) else (ret, s) in
  (ret, upd false (set_read_reg_select 1) s).

Definition elcr_ioport_write (i : bool) (val : Z) (s : PicState2) : PicState2 :=
  upd i (fun p => set_elcr (val &. elcr_mask p) p) s.

Definition elcr_ioport_read (i : bool) (s : PicState2) : Z := elcr (pics s i).

(** [qemu_mallocz] followed by the assignments of [i8259_init]. *)
Definition i8259_init : PicState2 :=
  mkPic2 (mkPic 0 0 0 0 0 0 0 0 0 0 0 0 0 0 0 0 0xf8)
         (mkPic 0 0 0 0 0 0 0 0 0 0 0 0 0 0 0 0 0xde) [].

(** ** The operations a running machine performs *)

Inductive pic_op :=
| SetIrq (irq : Z) (level : bool)
| ReadIrq
| PortWrite (chip : bool) (addr val : Z)
| PortRead (chip : bool) (addr : Z)
| IntackRead
| ElcrWrite (chip : bool) (val : Z)
| SystemReset (chip : bool).

(** The calls the machine makes: sixteen lines, byte-wide ports. *)
Definition op_ok (o : pic_op) : Prop :=
  match o with
  | SetIrq irq _ => 0 <= irq < 16
  | PortWrite _ _ val => is_u8 val
  | ElcrWrite _ val => is_u8 val
  | _ => True
  end.

Definition run_op (o : pic_op) (s : PicState2) : option PicState2 :=
  match o with
  | SetIrq irq level => Some (i8259_set_irq irq level s)
  | ReadIrq => Some (snd (pic_read_irq s))
  | PortWrite i addr val => pic_ioport_write i addr val s
  | PortRead i addr => Some (snd (pic_ioport_read i addr s))
  | IntackRead => Some (snd (pic_intack_read s))
  | ElcrWrite i val => Some (elcr_ioport_write i val s)
  | SystemReset i => Some (upd i pic_reset s)
  end.

Inductive reachable : PicState2 -> Prop :=
| reach_init : reachable i8259_init
| reach_op s o s' : reachable s -> op_ok o -> run_op o s = Some s' -> reachable s'.

(** ** Register widths *)

(** The registers that hold sets of lines, a line number, a vector or the state
    of the initialisation; the others are flags, which are only tested for
    zero. *)
Record wf_pic (p : PicState) : Prop := {
  wf_last_irr : is_u8 (last_irr p);
  wf_irr : is_u8 (irr p);
  wf_imr : is_u8 (imr p);
  wf_isr : is_u8 (isr p);
  wf_priority_add : is_uint 3 (priority_add p);
  wf_irq_base : is_u8 (irq_base p) /\ irq_base p &. 7 = 0;
  wf_init_state : 0 <= init_state p <= 3;
  wf_elcr : is_u8 (elcr p);
  wf_elcr_mask : is_u8 (elcr_mask p)
}.

Definition wf (s : PicState2) : Prop := wf_pic (pic0 s) /\ wf_pic (pic1 s).

Lemma land_7_range x : is_uint 3 (x &. 7).
Proof. apply is_uint_land_r; done. Qed.

#[local] Hint Resolve land_7_range : cint.

(** Closes [wf_pic] of an updated chip. *)
Ltac wf_tac :=
  match goal with H : wf_pic _ |- _ => destruct H end;
  split; cbn; auto with cint; try (apply wrap_range; lia).

Lemma upd_wf i f s : (forall p, wf_pic p -> wf_pic (f p)) -> wf s -> wf (upd i f s).
Proof. intros Hf [H0 H1]. destruct i; split; cbn; auto. Qed.

Lemma pic_set_irq1_wf irq level p : wf_pic p -> wf_pic (pic_set_irq1 irq level p).
Proof.
  intros H. unfold pic_set_irq1. destruct (truthy _), level; try destruct (_ =? 0); wf_tac.
Qed.

Lemma pic_update_irq_wf s : wf s -> wf (pic_update_irq s).
Proof.
  intros H. unfold pic_update_irq.
  assert (Hs : wf (if 0 <=? pic_get_irq true (pic1 s)
    then upd false (pic_set_irq1 2 false) (upd false (pic_set_irq1 2 true) s) else s)).
  { destruct (0 <=? _); [|done]. auto using upd_wf, pic_set_irq1_wf. }
  revert Hs. match goal with |- wf ?x -> _ => generalize x end. intros s' Hs.
  by destruct (0 <=? pic_get_irq false (pic0 s')).
Qed.

Lemma pic_intack_wf irq p : wf_pic p -> wf_pic (pic_intack irq p).
Proof.
  intros H. unfold pic_intack.
  destruct (truthy (auto_eoi p)), (truthy (rotate_on_auto_eoi p)); cbn;
    destruct (negb _); wf_tac.
Qed.

Lemma clear_irq_wf irq p : wf_pic p -> wf_pic (clear_irq irq p).
Proof. intros H. unfold clear_irq. wf_tac. Qed.

Lemma land_f8 v : is_u8 (v &. 0xf8) /\ (v &. 0xf8) &. 7 = 0.
Proof.
  split; [apply is_uint_land_r; done|]. rewrite <- Z.land_assoc. by rewrite Z.land_0_r.
Qed.

Lemma set_fields_wf p v : wf_pic p ->
  wf_pic (set_isr (u8 v) p) /\ wf_pic (set_imr (u8 v) p) /\
  wf_pic (set_priority_add (v &. 7) p) /\ wf_pic (set_irq_base (v &. 0xf8) p) /\
  wf_pic (set_rotate_on_auto_eoi v p) /\ wf_pic (set_init4 v p) /\
  wf_pic (set_single_mode v p) /\ wf_pic (set_poll v p) /\
  wf_pic (set_read_reg_select v p) /\ wf_pic (set_special_mask v p) /\
  wf_pic (set_auto_eoi v p) /\ wf_pic (set_special_fully_nested_mode v p).
Proof. intros H. pose proof (land_f8 v). split_and!; wf_tac. Qed.

Lemma set_init_state_wf v p : 0 <= v <= 3 -> wf_pic p -> wf_pic (set_init_state v p).
Proof. intros ? H. wf_tac. Qed.

Lemma pic_reset_wf p : wf_pic p -> wf_pic (pic_reset p).
Proof. intros H. destruct H. split; cbn; auto with cint; done. Qed.

Lemma pic_command_wf i val s : wf s -> wf (pic_command i val s).
Proof.
  intros H. unfold pic_command.
  repeat case_match; try exact H; try apply pic_update_irq_wf; repeat apply upd_wf;
    try exact H; intros; apply set_fields_wf; assumption.
Qed.

(** Applies the preservation lemmas down to the fields that are written. *)
Ltac wf_upds :=
  repeat first
    [ assumption | apply pic_update_irq_wf | apply upd_wf; intros
    | apply pic_intack_wf | apply clear_irq_wf | apply pic_set_irq1_wf | apply pic_reset_wf
    | apply set_init_state_wf; [lia|]
    | apply set_fields_wf ].

Lemma pic_ioport_write_wf i addr val s s' :
  is_u8 val -> wf s -> pic_ioport_write i addr val s = Some s' -> wf s'.
Proof.
  intros Hv H. unfold pic_ioport_write.
  destruct (addr &. 1 =? 0).
  - destruct (truthy (val &. 0x10)).
    + case_match; [done|]. intros [= <-].
      apply upd_wf; [intros; by apply set_fields_wf|]. apply upd_wf; [intros; by apply set_fields_wf|].
      apply upd_wf; [intros; by apply set_init_state_wf|].
      apply (upd_wf i pic_reset s pic_reset_wf H).
    + destruct (truthy (val &. 0x08)); intros [= <-]; [|by apply pic_command_wf].
      repeat case_match; wf_upds.
  - repeat case_match; intros [= <-]; wf_upds.
Qed.

Lemma pic_poll_read_wf i addr1 s : wf s -> wf (snd (pic_poll_read i addr1 s)).
Proof. intros H. unfold pic_poll_read. repeat case_match; cbn [snd]; wf_upds. Qed.

Lemma run_op_wf o s s' : op_ok o -> wf s -> run_op o s = Some s' -> wf s'.
Proof.
  intros Ho H. destruct o as [irq level| |i addr val|i addr| |i val|i]; cbn [run_op].
  - intros [= <-]. unfold i8259_set_irq. wf_upds.
  - intros [= <-]. unfold pic_read_irq. repeat case_match; simplify_eq; cbn [snd]; wf_upds.
  - intros Hw. by eapply pic_ioport_write_wf.
  - intros [= <-]. unfold pic_ioport_read. case_match; [|done].
    pose proof (pic_poll_read_wf i addr s H) as Hp. destruct (pic_poll_read i addr s).
    cbn [snd] in *. wf_upds.
  - intros [= <-]. unfold pic_intack_read. pose proof (pic_poll_read_wf false 0 s H) as Hp.
    destruct (pic_poll_read false 0 s) as [r s1]. cbn [snd] in Hp.
    pose proof (pic_poll_read_wf true 0x80 s1 Hp) as Hp1.
    destruct (pic_poll_read true 0x80 s1). destruct (r =? 2); cbn [snd] in *; wf_upds.
  - intros [= <-]. apply upd_wf; [|done]. intros p []. split; cbn; auto with cint.
  - intros [= <-]. apply upd_wf; [exact pic_reset_wf|done].
Qed.

Lemma reachable_is_wf s : reachable s -> wf s.
Proof.
  induction 1 as [|s o s' _ IH Ho Hr]; [|by eapply run_op_wf].
  split; split; cbn; done || (by apply is_uint_0) || (unfold is_uint; lia).
Qed.

(** ** The priority search *)

(** How far line [r] is from the line of highest priority. *)
Definition dist (p : PicState) (r : Z) : Z := (r - priority_add p) mod 8.

Lemma priority_search_spec mask padd n : forall q, 0 <= q ->
  let r := priority_search n padd mask q in
  q <= r <= q + Z.of_nat n /\
  (forall j, q <= j < r -> Z.testbit mask ((j + padd) &. 7) = false) /\
  (r < q + Z.of_nat n -> Z.testbit mask ((r + padd) &. 7) = true).
Proof.
  induction n as [|n IH]; intros q Hq; cbn [priority_search].
  - split_and!; [lia|lia|lia|lia].
  - assert (Hb : negb (mask &. (1 <<. ((q + padd) &. 7)) =? 0) = Z.testbit mask ((q + padd) &. 7)).
    { apply truthy_land_bit. rewrite land_7. dlia. }
    destruct (Z.eqb_spec (mask &. (1 <<. ((q + padd) &. 7))) 0); cbn [negb] in Hb.
    + destruct (IH (q + 1)) as (H1 & H2 & H3); [lia|]. split_and!; [lia|lia| |].
      * intros j Hj. destruct (decide (j = q)) as [->|]; [done|]. apply H2. lia.
      * intros Hlt. apply H3. lia.
    + split_and!; [lia|lia|lia|done].
Qed.

Lemma dist_line p q : is_uint 3 (priority_add p) -> 0 <= q < 8 -> dist p ((q + priority_add p) &. 7) = q.
Proof. unfold dist, is_uint. rewrite land_7. intros. dlia. Qed.

Lemma line_dist p r : 0 <= r < 8 -> (dist p r + priority_add p) &. 7 = r.
Proof. unfold dist. rewrite land_7. intros. dlia. Qed.

Lemma dist_range p r : 0 <= dist p r < 8.
Proof. unfold dist. dlia. Qed.

(** [get_priority] is the smallest distance of a line in the mask, 8 for
    the empty mask. *)
Lemma get_priority_spec p mask : is_uint 3 (priority_add p) -> is_u8 mask ->
  let q := get_priority p mask in
  0 <= q <= 8 /\
  (forall r, 0 <= r < 8 -> Z.testbit mask r = true -> q <= dist p r) /\
  (q < 8 -> Z.testbit mask ((q + priority_add p) &. 7) = true) /\
  (q = 8 <-> mask = 0).
Proof.
  intros Hp Hm. unfold get_priority. destruct (Z.eqb_spec mask 0) as [->|Hne].
  - split_and!; [lia|lia| |lia|done]. intros r _. by rewrite Z.bits_0.
  - destruct (priority_search_spec mask (priority_add p) 8 0) as (H1 & H2 & H3); [lia|].
    cbn zeta in *. set (q := priority_search 8 _ _ _) in *. change (Z.of_nat 8) with 8 in *.
    assert (Hmin : forall r, 0 <= r < 8 -> Z.testbit mask r = true -> q <= dist p r).
    { intros r Hr Hb. destruct (Z.le_gt_cases q (dist p r)); [done|].
      pose proof (dist_range p r). rewrite <- (line_dist p r), H2 in Hb by lia. done. }
    split_and!; [lia|lia|done| |].
    + intros. apply H3. lia.
    + split; [|done]. intros Eq. apply (uint_zero_bits 8); [lia|done|]. intros r Hr.
      destruct (Z.testbit mask r) eqn:E; [|done]. specialize (Hmin r Hr E).
      pose proof (dist_range p r). lia.
Qed.

(** ** Choosing an interrupt *)

(** Line [r] has an unmasked request. *)
Definition requested (p : PicState) (r : Z) : bool :=
  Z.testbit (irr p) r && negb (Z.testbit (imr p) r).

(** Line [r] is in service and counts for the priority comparison. *)
Definition in_service (slave : bool) (p : PicState) (r : Z) : bool :=
  Z.testbit (isr p) r &&
  negb (truthy (special_mask p) && Z.testbit (imr p) r) &&
  negb (truthy (special_fully_nested_mode p) && negb slave && (2 =? r)).

(** The priority order that the chip implements: [r] is requested, no
    requested line comes before it, and it comes before every line in service. *)
Definition chosen (slave : bool) (p : PicState) (r : Z) : Prop :=
  0 <= r < 8 /\ requested p r = true /\
  (forall r', 0 <= r' < 8 -> requested p r' = true -> dist p r <= dist p r') /\
  (forall r', 0 <= r' < 8 -> in_service slave p r' = true -> dist p r < dist p r').

Definition service_mask (slave : bool) (p : PicState) : Z :=
  let mask := if truthy (special_mask p) then isr p &. ~. imr p else isr p in
  if truthy (special_fully_nested_mode p) && negb slave then mask &. ~. (1 <<. 2) else mask.

Lemma service_mask_bits slave p r : 0 <= r ->
  Z.testbit (service_mask slave p) r = in_service slave p r.
Proof.
  intros Hr. unfold service_mask, in_service.
  destruct (truthy (special_mask p)), (truthy (special_fully_nested_mode p) && negb slave);
    rewrite ?testbit_clear by lia; autorewrite with cbits; btauto.
Qed.

Lemma service_mask_u8 slave p : wf_pic p -> is_u8 (service_mask slave p).
Proof. intros []. unfold service_mask. repeat case_match; auto with cint. Qed.

Lemma request_mask_bits p r : 0 <= r -> Z.testbit (irr p &. ~. imr p) r = requested p r.
Proof. intros. unfold requested. by autorewrite with cbits. Qed.

Lemma dist_inj p r r' : 0 <= r < 8 -> 0 <= r' < 8 -> dist p r = dist p r' -> r = r'.
Proof. unfold dist. intros. dlia. Qed.

(** The result of [pic_get_irq] is the chosen line, or -1 when none is. *)
Lemma pic_get_irq_spec slave p : wf_pic p ->
  let irq := pic_get_irq slave p in
  (0 <= irq -> chosen slave p irq) /\ (forall r, chosen slave p r -> irq = r) /\
  (irq < 0 -> irq = -1).
Proof.
  intros H. pose proof (service_mask_u8 slave p H) as Hs. pose proof (wf_priority_add p H) as Hp.
  assert (Hm : is_u8 (irr p &. ~. imr p)) by (destruct H; auto with cint).
  destruct (get_priority_spec p (irr p &. ~. imr p) Hp Hm) as (Q0 & Q1 & Q2 & Q3).
  destruct (get_priority_spec p (service_mask slave p) Hp Hs) as (C0 & C1 & C2 & C3).
  unfold pic_get_irq. fold (service_mask slave p). cbn zeta in *.
  set (q := get_priority p (irr p &. ~. imr p)) in *.
  set (c := get_priority p (service_mask slave p)) in *.
  set (line := (q + priority_add p) &. 7) in *.
  assert (Hline : 0 <= line < 8) by (pose proof (land_7_range (q + priority_add p)); unfold is_uint in *; lia).
  assert (Hd : q < 8 -> dist p line = q) by (intros; apply dist_line; [done|lia]).
  assert (Hch : q < 8 -> q < c -> chosen slave p line).
  { intros Hq Hqc. repeat split; [lia|lia| | |].
    - rewrite <- request_mask_bits by lia. by apply Q2.
    - intros r' Hr' Hb. rewrite Hd by done. apply Q1; [done|]. by rewrite request_mask_bits by lia.
    - intros r' Hr' Hb. rewrite Hd by done. rewrite <- service_mask_bits in Hb by lia.
      specialize (C1 r' Hr' Hb). lia. }
  assert (Hno : forall r, chosen slave p r -> q < 8 /\ q < c /\ line = r).
  { intros r (Hr & Hb & Hmin & Hsv). rewrite <- request_mask_bits in Hb by lia.
    pose proof (Q1 r Hr Hb) as Hqr. pose proof (dist_range p r) as Hdr.
    assert (Hq : q < 8) by lia. specialize (Q2 Hq). fold line in Q2.
    rewrite request_mask_bits in Q2 by lia. specialize (Hmin line Hline Q2).
    rewrite Hd in Hmin by done.
    assert (line = r) as <- by (apply (dist_inj p); [done|done|]; rewrite Hd by done; lia).
    split_and!; [done| |done]. destruct (Z.lt_ge_cases c 8); [|lia].
    specialize (C2 ltac:(lia)). rewrite service_mask_bits in C2 by (pose proof (land_7_range (c + priority_add p)); unfold is_uint in *; lia).
    assert (Hcl : 0 <= (c + priority_add p) &. 7 < 8) by apply land_7_range.
    specialize (Hsv _ Hcl C2). rewrite dist_line, Hd in Hsv by (done || lia). lia. }
  destruct (Z.eqb_spec q 8); [|destruct (Z.ltb_spec q c)].
  - split_and!; [lia| |done]. intros r Hr. destruct (Hno r Hr). lia.
  - split_and!; [intros; apply Hch; lia| |lia]. intros r Hr. by destruct (Hno r Hr) as (_ & _ & ?).
  - split_and!; [lia| |done]. intros r Hr. destruct (Hno r Hr). lia.
Qed.

(** ** Lines *)

Section Line.
Context (p : PicState) (irq : Z).
Hypothesis (Hirq : 0 <= irq < 8).

(** The request bit of [irq] after one change of its level. *)
Lemma set_irq1_own level :
  Z.testbit (irr (pic_set_irq1 irq level p)) irq =
  (if Z.testbit (elcr p) irq then level
   else Z.testbit (irr p) irq || (level && negb (Z.testbit (last_irr p) irq))) /\
  Z.testbit (last_irr (pic_set_irq1 irq level p)) irq = level.
Proof using Hirq.
  unfold pic_set_irq1. rewrite truthy_land_bit by lia.
  pose proof (truthy_land_bit (last_irr p) irq ltac:(lia)) as Hl. unfold truthy in Hl.
  destruct (Z.testbit (elcr p) irq), level; cbn [last_irr irr set_irr set_last_irr];
    [| |destruct (_ =? 0); rewrite <- Hl; cbn [negb last_irr irr set_irr set_last_irr]|];
    rewrite ?wrap_testbit by lia; rewrite ?testbit_set, ?testbit_clear, ?Z.eqb_refl by lia;
    split; btauto.
Qed.

Lemma set_irq1_other level r : 0 <= r < 8 -> r <> irq ->
  Z.testbit (irr (pic_set_irq1 irq level p)) r = Z.testbit (irr p) r /\
  Z.testbit (last_irr (pic_set_irq1 irq level p)) r = Z.testbit (last_irr p) r.
Proof using Hirq.
  intros Hr Hne. unfold pic_set_irq1.
  destruct (truthy _), level; [| |destruct (_ =? 0)|]; cbn [last_irr irr set_irr set_last_irr];
    rewrite ?wrap_testbit, ?testbit_set, ?testbit_clear by lia;
    assert ((irq =? r) = false) as -> by lia; done.
Qed.

(** Nothing but the two request registers changes. *)
Lemma set_irq1_frame level :
  exists v w, pic_set_irq1 irq level p = set_last_irr v (set_irr w p).
Proof using Type.
  unfold pic_set_irq1. destruct (truthy _), level; [| |destruct (_ =? 0)|]; destruct p;
    cbv [set_last_irr set_irr]; cbn; eauto.
Qed.
End Line.

(** A history of levels on one line. *)
Definition drive (irq : Z) (levels : list bool) (p : PicState) : PicState :=
  fold_left (fun p l => pic_set_irq1 irq l p) levels p.

(** There is a rising edge in [prev :: levels]. *)
Fixpoint rising (prev : bool) (levels : list bool) : bool :=
  match levels with
  | [] => false
  | l :: ls => (l && negb prev) || rising l ls
  end.

Lemma drive_edge irq levels : 0 <= irq < 8 -> forall p, wf_pic p -> Z.testbit (elcr p) irq = false ->
  Z.testbit (irr (drive irq levels p)) irq =
  Z.testbit (irr p) irq || rising (Z.testbit (last_irr p) irq) levels.
Proof.
  intros Hirq. induction levels as [|l ls IH]; intros p Hp He; cbn; [btauto|].
  destruct (set_irq1_own p irq Hirq l) as [E1 E2].
  assert (Hf : elcr (pic_set_irq1 irq l p) = elcr p)
    by (destruct (set_irq1_frame p irq l) as (v & w & ->); done).
  unfold drive in IH. rewrite IH; [|by apply pic_set_irq1_wf|by rewrite Hf].
  rewrite E1, E2, He. btauto.
Qed.

Lemma drive_level irq levels : 0 <= irq < 8 -> forall p, wf_pic p -> Z.testbit (elcr p) irq = true ->
  levels <> [] -> Z.testbit (irr (drive irq levels p)) irq = last levels false.
Proof.
  intros Hirq. induction levels as [|l ls IH]; intros p Hp He Hne; [done|].
  destruct (set_irq1_own p irq Hirq l) as [E1 E2].
  assert (Hf : elcr (pic_set_irq1 irq l p) = elcr p)
    by (destruct (set_irq1_frame p irq l) as (v & w & ->); done).
  destruct ls as [|l' ls]; [cbn; by rewrite E1, He|].
  change (drive irq (l :: l' :: ls) p) with (drive irq (l' :: ls) (pic_set_irq1 irq l p)).
  rewrite IH; [done|by apply pic_set_irq1_wf|by rewrite Hf|done].
Qed.

(** ** Acknowledge and end of interrupt *)

Lemma update_irq_isr s : isr (pic0 (pic_update_irq s)) = isr (pic0 s) /\
  priority_add (pic0 (pic_update_irq s)) = priority_add (pic0 s) /\
  irq_base (pic0 (pic_update_irq s)) = irq_base (pic0 s).
Proof.
  unfold pic_update_irq.
  assert (Hs : forall s', s' = upd false (pic_set_irq1 2 false) (upd false (pic_set_irq1 2 true) s) ->
    isr (pic0 s') = isr (pic0 s) /\ priority_add (pic0 s') = priority_add (pic0 s) /\
    irq_base (pic0 s') = irq_base (pic0 s)).
  { intros s' ->. unfold upd, set_pics, pics. cbn [pic0].
    destruct (set_irq1_frame (pic0 s) 2 true) as (v & w & ->).
    match goal with |- context [pic_set_irq1 2 false ?q] =>
      destruct (set_irq1_frame q 2 false) as (v' & w' & ->) end. done. }
  destruct (0 <=? pic_get_irq true (pic1 s)).
  - destruct (Hs _ eq_refl) as (E1 & E2 & E3). destruct (0 <=? _); cbn; done.
  - destruct (0 <=? _); done.
Qed.

(** Setting and then clearing a bit that was clear. *)
Lemma set_clear_bit a i : is_u8 a -> 0 <= i < 8 -> Z.testbit a i = false ->
  u8 (u8 (a |. (1 <<. i)) &. ~. (1 <<. i)) = a.
Proof.
  intros Ha Hi Hb. apply (uint_eq_bits 8); [lia|apply wrap_range; lia|done|].
  intros j Hj. rewrite wrap_testbit, testbit_clear, wrap_testbit, testbit_set by lia.
  destruct (Z.eqb_spec i j) as [->|]; [by rewrite Hb|]. done.
Qed.

Lemma chosen_not_in_service p r : chosen false p r ->
  special_mask p = 0 -> special_fully_nested_mode p = 0 -> Z.testbit (isr p) r = false.
Proof.
  intros (Hr & _ & _ & Hs) Hm Hf. destruct (Z.testbit (isr p) r) eqn:E; [|done].
  specialize (Hs r Hr). unfold in_service in Hs. rewrite E, Hm, Hf in Hs. cbn in Hs.
  specialize (Hs eq_refl). lia.
Qed.

(** The line acknowledged last has the highest priority of those in service. *)
Lemma priority_after_intack p r : wf_pic p -> chosen false p r ->
  special_mask p = 0 -> special_fully_nested_mode p = 0 ->
  get_priority p (u8 (isr p |. (1 <<. r))) = dist p r.
Proof.
  intros Hp Hc Hm Hf. pose proof (chosen_not_in_service p r Hc Hm Hf) as Hb.
  destruct Hc as (Hr & _ & _ & Hs).
  destruct (get_priority_spec p (u8 (isr p |. (1 <<. r)))) as (Q0 & Q1 & Q2 & _);
    [apply Hp|apply wrap_range; lia|]. cbn zeta in *. set (q := get_priority p _) in *.
  pose proof (dist_range p r). specialize (Q1 r Hr).
  rewrite wrap_testbit, testbit_set, Z.eqb_refl in Q1 by lia. specialize (Q1 eq_refl).
  specialize (Q2 ltac:(lia)). pose proof (land_7_range (q + priority_add p)) as Hl.
  rewrite wrap_testbit, testbit_set in Q2 by (unfold is_uint in Hl; lia).
  pose proof (dist_line p q (wf_priority_add p Hp) ltac:(lia)) as Hd.
  destruct (Z.eqb_spec r ((q + priority_add p) &. 7)) as [E|]; [rewrite <- E in Hd; lia|].
  cbn [orb] in Q2. specialize (Hs _ Hl). unfold in_service in Hs. rewrite Q2, Hm, Hf in Hs.
  specialize (Hs eq_refl). rewrite Hd in Hs. lia.
Qed.

(** What a non-specific EOI does to the master. *)
Lemma eoi_write s : pic_ioport_write false 0x20 0x20 s =
  let p := pic0 s in let q := get_priority p (isr p) in
  Some (if negb (q =? 8)
        then pic_update_irq (upd false (fun p =>
               set_isr (u8 (isr p &. ~. (1 <<. ((q + priority_add (pic0 s)) &. 7)))) p) s)
        else s).
Proof. reflexivity. Qed.

(** ** Properties *)

Definition after_edge : PicState2 := i8259_set_irq 5 true i8259_init.

(** C32: [pic_get_irq] returns the line that the priority order of the chip
    chooses (requested, unmasked, before every other such line and before every
    line in service), and -1 exactly when no line qualifies. *)
Theorem pic_get_irq_chooses slave p : wf_pic p ->
  (forall r, 0 <= r -> (pic_get_irq slave p = r <-> chosen slave p r)) /\
  (pic_get_irq slave p = -1 <-> forall r, ~ chosen slave p r).
Proof.
  intros H. destruct (pic_get_irq_spec slave p H) as (H1 & H2 & H3). cbn zeta in *. split.
  - intros r Hr. split; [intros <-; by apply H1|apply H2].
  - split.
    + intros E r Hc. pose proof (H2 r Hc). destruct Hc as [Hr _]. lia.
    + intros Hn. destruct (Z.lt_ge_cases (pic_get_irq slave p) 0); [by apply H3|].
      destruct (Hn (pic_get_irq slave p)). by apply H1.
Qed.

Lemma pic_get_irq_chooses_witness :
  pic_get_irq false (pic0 after_edge) = 5 /\ chosen false (pic0 after_edge) 5.
Proof.
  assert (H : wf after_edge).
  { apply reachable_is_wf. apply (reach_op i8259_init (SetIrq 5 true));
      [apply reach_init|cbn; lia|reflexivity]. }
  split; [reflexivity|].
  apply (proj1 (pic_get_irq_chooses false (pic0 after_edge) (proj1 H)) 5); [lia|reflexivity].
Defined.

(** With the special modes and automatic EOI off, acknowledging an
    interrupt [irq] of the master returns its vector and puts it in service,
    and a non-specific EOI written to the master then takes exactly that line
    out of service again. *)
Theorem pic_ack_then_eoi s irq : wf s -> pic_get_irq false (pic0 s) = irq -> 0 <= irq -> irq <> 2 ->
  auto_eoi (pic0 s) = 0 -> special_mask (pic0 s) = 0 -> special_fully_nested_mode (pic0 s) = 0 ->
  let '(vector, s1) := pic_read_irq s in
  vector = irq_base (pic0 s) + irq /\ Z.testbit (isr (pic0 s1)) irq = true /\
  exists s2, pic_ioport_write false 0x20 0x20 s1 = Some s2 /\ isr (pic0 s2) = isr (pic0 s).
Proof.
  intros [H0 _] Hg Hirq H2 Ha Hm Hf.
  destruct (pic_get_irq_spec false (pic0 s) H0) as (Hc & _ & _). cbn zeta in Hc.
  rewrite Hg in Hc. specialize (Hc Hirq). destruct Hc as [Hr Hc'] eqn:E. clear E.
  unfold pic_read_irq. rewrite Hg. replace (0 <=? irq) with true by lia.
  replace (irq =? 2) with false by lia. cbn [pic0].
  set (s0 := upd false (pic_intack irq) s).
  assert (Hi : isr (pic0 s0) = u8 (isr (pic0 s) |. (1 <<. irq)) /\
    priority_add (pic0 s0) = priority_add (pic0 s) /\ irq_base (pic0 s0) = irq_base (pic0 s)).
  { unfold s0, upd, pic_intack. cbn. rewrite Ha. cbn [truthy Z.eqb negb].
    by destruct (negb _). }
  destruct Hi as (Hi & Hpa & Hb).
  destruct (update_irq_isr s0) as (U1 & U2 & U3). set (s1 := pic_update_irq s0) in *.
  split_and!; [by rewrite Hb|rewrite U1, Hi, wrap_testbit, testbit_set, Z.eqb_refl by lia; done|].
  assert (Hgp : get_priority (pic0 s1) (isr (pic0 s1)) = dist (pic0 s) irq).
  { rewrite U1, Hi, <- priority_after_intack by (done || split; done).
    unfold get_priority. by rewrite U2, Hpa. }
  rewrite eoi_write. cbv zeta. rewrite Hgp. pose proof (dist_range (pic0 s) irq).
  replace (dist (pic0 s) irq =? 8) with false by lia. cbn [negb].
  eexists. split; [done|].
  match goal with |- context [pic_update_irq ?x] => destruct (update_irq_isr x) as (-> & _ & _) end.
  cbn [upd set_pics pics pic0 set_isr isr]. rewrite U2, Hpa, line_dist, U1, Hi by lia.
  apply set_clear_bit; [apply H0|lia|]. apply chosen_not_in_service; [split; done|done|done].
Qed.

Lemma pic_ack_then_eoi_witness :
  fst (pic_read_irq after_edge) = 5 /\
  exists s2, pic_ioport_write false 0x20 0x20 (snd (pic_read_irq after_edge)) = Some s2 /\
    isr (pic0 s2) = 0.
Proof.
  assert (H : wf after_edge).
  { apply reachable_is_wf. apply (reach_op i8259_init (SetIrq 5 true));
      [apply reach_init|cbn; lia|reflexivity]. }
  pose proof (pic_ack_then_eoi after_edge 5 H eq_refl ltac:(lia) ltac:(lia)
    eq_refl eq_refl eq_refl) as T.
  destruct (pic_read_irq after_edge) as [v s1]. destruct T as (V & _ & s2 & E & I).
  split; [exact V|]. exists s2. split; [exact E|exact I].
Defined.

(** The request bit of a line over any history of levels: an
    edge-triggered line is requested when it was or when the history has a
    rising edge (a line held high makes no second request); a level-triggered
    line follows the last level.  Other lines are unaffected by each change. *)
Theorem pic_line_history irq levels p : 0 <= irq < 8 -> wf_pic p ->
  (Z.testbit (elcr p) irq = false ->
   Z.testbit (irr (drive irq levels p)) irq =
   Z.testbit (irr p) irq || rising (Z.testbit (last_irr p) irq) levels) /\
  (Z.testbit (elcr p) irq = true -> levels <> [] ->
   Z.testbit (irr (drive irq levels p)) irq = last levels false) /\
  (forall l r, 0 <= r < 8 -> r <> irq ->
   Z.testbit (irr (pic_set_irq1 irq l p)) r = Z.testbit (irr p) r).
Proof.
  intros Hirq Hp. split_and!.
  - by apply drive_edge.
  - by apply drive_level.
  - intros l r Hr Hne. by apply set_irq1_other.
Qed.

Lemma pic_line_history_witness :
  Z.testbit (irr (drive 3 [true; true; false; true] (pic0 i8259_init))) 3 = true.
Proof.
  rewrite (proj1 (pic_line_history 3 [true; true; false; true] (pic0 i8259_init)
    ltac:(lia) (proj1 (reachable_is_wf _ reach_init))) eq_refl).
  reflexivity.
Defined.

(** The bytes that follow ICW1 in an initialisation. *)
Definition icw_tail (icw1 icw2 icw3 icw4 : Z) : list Z :=
  icw2 :: (if truthy (icw1 &. 2) then [] else [icw3]) ++ (if truthy (icw1 &. 1) then [icw4] else []).

Fixpoint write_all (i : bool) (vals : list Z) (s : PicState2) : option PicState2 :=
  match vals with
  | [] => Some s
  | v :: vs => s ← pic_ioport_write i 1 v s; write_all i vs s
  end.

(** An initialisation sequence (ICW1 with edge triggering, then the bytes
    it asks for) ends in normal operation with all requests, masks and
    in-service bits clear, the vector base of ICW2, and the modes of ICW4 if it
    was sent; the other chip and the edge/level selection stay as they were,
    and the interrupt output is lowered. *)
Theorem pic_initialises i s icw1 icw2 icw3 icw4 :
  truthy (icw1 &. 0x10) = true -> truthy (icw1 &. 0x08) = false ->
  exists s1 s2, pic_ioport_write i 0 icw1 s = Some s1 /\
    write_all i (icw_tail icw1 icw2 icw3 icw4) s1 = Some s2 /\
    let p := pics s2 i in
    irr p = 0 /\ imr p = 0 /\ isr p = 0 /\ priority_add p = 0 /\ init_state p = 0 /\
    irq_base p = icw2 &. 0xf8 /\
    auto_eoi p = (if truthy (icw1 &. 1) then (icw4 >>. 1) &. 1 else 0) /\
    special_fully_nested_mode p = (if truthy (icw1 &. 1) then (icw4 >>. 4) &. 1 else 0) /\
    elcr p = elcr (pics s i) /\ pics s2 (negb i) = pics s (negb i) /\
    parent_log s2 = 0 :: parent_log s.
Proof.
  intros H1 H2. unfold pic_ioport_write at 1. change (0 &. 1 =? 0) with true.
  cbv iota zeta. rewrite H1, H2.
  unfold icw_tail, write_all, pic_ioport_write. change (1 &. 1 =? 0) with false.
  destruct i, (truthy (icw1 &. 2)) eqn:E2, (truthy (icw1 &. 1)) eqn:E1;
    (eexists; eexists; split; [reflexivity|]);
    cbn; rewrite ?E1, ?E2; cbn; rewrite ?E1; cbn; (split; [reflexivity|]); cbn; split_and!; done.
Qed.

Lemma pic_initialises_witness :
  exists s1 s2, pic_ioport_write true 0 0x11 i8259_init = Some s1 /\
    write_all true (icw_tail 0x11 0x75 2 1) s1 = Some s2 /\ irq_base (pic1 s2) = 0x70.
Proof.
  destruct (pic_initialises true i8259_init 0x11 0x75 2 1) as
    (s1 & s2 & E1 & E2 & _ & _ & _ & _ & _ & B & _); [reflexivity|reflexivity|].
  exists s1, s2. split; [exact E1|]. split; [exact E2|exact B].
Defined.

End I8259.
