(* ===== verification/I8254.v ===== *)
(** * The i8254 programmable interval timer (src/qemu/hw/i8254.c)

    [PITChannelState] keeps the source's fields.  [irq_timer] is [None] for
    the null pointer (channels 1 and 2), [Some None] for a timer that is not
    armed and [Some (Some t)] for one armed to expire at [t]; the levels sent
    on the channel's [irq] are logged, newest first.  [vm_clock] is read
    several times in some handlers: a handler takes the sequence [clk] of its
    readings.  An access outside the array [channels] is [None].

    The theorems: [muldiv64] computes the exact quotient; the counters never
    divide by zero and every register keeps its range in every reachable
    state; the output of a channel is constant up to the transition time the
    code computes, and the transition is reached; the latch, read-back and
    two-byte accesses. *)
From S2P Require Import Prelude.

Module I8254.

(** ** Fixed point arithmetic (qemu-common.h) *)

(** [u.l.low] and [u.l.high] are the halves of [u.ll]. *)
Definition muldiv64 (a b c : Z) : Z :=
  let rl := u64 (u32 a * b) in
  let rh := u64 ((a >>. 32) * b) in
  let rh := u64 (rh + (rl >>. 32)) in
  let res_high := u32 (rh / c) in
  let res_low := u32 (u64 (u64 ((rh mod c) <<. 32) + (rl &. 0xffffffff)) / c) in
  (res_high <<. 32) |. res_low.

Definition PIT_FREQ : Z := 1193182.
Definition get_ticks_per_sec : Z := 1000000000.

(** ** State *)

Definition RW_STATE_LSB : Z := 1.
Definition RW_STATE_MSB : Z := 2.
Definition RW_STATE_WORD0 : Z := 3.
Definition RW_STATE_WORD1 : Z := 4.

Record PITChannelState := mkChan {
  count : Z;
  latched_count : Z;
  count_latched : Z;
  status_latched : Z;
  status : Z;
  read_state : Z;
  write_state : Z;
  write_latch : Z;
  rw_mode : Z;
  mode : Z;
  bcd : Z;
  gate : Z;
  count_load_time : Z;
  next_transition_time : Z;
  irq_timer : option (option Z);
  irq_log : list Z
}.

Definition set_count (v : Z) (s : PITChannelState) : PITChannelState :=
  mkChan v (latched_count s) (count_latched s) (status_latched s) (status s) (read_state
    s) (write_state s) (write_latch s) (rw_mode s) (mode s) (bcd s) (gate s)
    (count_load_time s) (next_transition_time s) (irq_timer s) (irq_log s).
Definition set_latched_count (v : Z) (s : PITChannelState) : PITChannelState :=
  mkChan (count s) v (count_latched s) (status_latched s) (status s) (read_state s)
    (write_state s) (write_latch s) (rw_mode s) (mode s) (bcd s) (gate s) (count_load_time
    s) (next_transition_time s) (irq_timer s) (irq_log s).
Definition set_count_latched (v : Z) (s : PITChannelState) : PITChannelState :=
  mkChan (count s) (latched_count s) v (status_latched s) (status s) (read_state s)
    (write_state s) (write_latch s) (rw_mode s) (mode s) (bcd s) (gate s) (count_load_time
    s) (next_transition_time s) (irq_timer s) (irq_log s).
Definition set_status_latched (v : Z) (s : PITChannelState) : PITChannelState :=
  mkChan (count s) (latched_count s) (count_latched s) v (status s) (read_state s)
    (write_state s) (write_latch s) (rw_mode s) (mode s) (bcd s) (gate s) (count_load_time
    s) (next_transition_time s) (irq_timer s) (irq_log s).
Definition set_status (v : Z) (s : PITChannelState) : PITChannelState :=
  mkChan (count s) (latched_count s) (count_latched s) (status_latched s) v (read_state s)
    (write_state s) (write_latch s) (rw_mode s) (mode s) (bcd s) (gate s) (count_load_time
    s) (next_transition_time s) (irq_timer s) (irq_log s).
Definition set_read_state (v : Z) (s : PITChannelState) : PITChannelState :=
  mkChan (count s) (latched_count s) (count_latched s) (status_latched s) (status s) v
    (write_state s) (write_latch s) (rw_mode s) (mode s) (bcd s) (gate s) (count_load_time
    s) (next_transition_time s) (irq_timer s) (irq_log s).
Definition set_write_state (v : Z) (s : PITChannelState) : PITChannelState :=
  mkChan (count s) (latched_count s) (count_latched s) (status_latched s) (status s)
    (read_state s) v (write_latch s) (rw_mode s) (mode s) (bcd s) (gate s)
    (count_load_time s) (next_transition_time s) (irq_timer s) (irq_log s).
Definition set_write_latch (v : Z) (s : PITChannelState) : PITChannelState :=
  mkChan (count s) (latched_count s) (count_latched s) (status_latched s) (status s)
    (read_state s) (write_state s) v (rw_mode s) (mode s) (bcd s) (gate s)
    (count_load_time s) (next_transition_time s) (irq_timer s) (irq_log s).
Definition set_rw_mode (v : Z) (s : PITChannelState) : PITChannelState :=
  mkChan (count s) (latched_count s) (count_latched s) (status_latched s) (status s)
    (read_state s) (write_state s) (write_latch s) v (mode s) (bcd s) (gate s)
    (count_load_time s) (next_transition_time s) (irq_timer s) (irq_log s).
Definition set_mode (v : Z) (s : PITChannelState) : PITChannelState :=
  mkChan (count s) (latched_count s) (count_latched s) (status_latched s) (status s)
    (read_state s) (write_state s) (write_latch s) (rw_mode s) v (bcd s) (gate s)
    (count_load_time s) (next_transition_time s) (irq_timer s) (irq_log s).
Definition set_bcd (v : Z) (s : PITChannelState) : PITChannelState :=
  mkChan (count s) (latched_count s) (count_latched s) (status_latched s) (status s)
    (read_state s) (write_state s) (write_latch s) (rw_mode s) (mode s) v (gate s)
    (count_load_time s) (next_transition_time s) (irq_timer s) (irq_log s).
Definition set_gate (v : Z) (s : PITChannelState) : PITChannelState :=
  mkChan (count s) (latched_count s) (count_latched s) (status_latched s) (status s)
    (read_state s) (write_state s) (write_latch s) (rw_mode s) (mode s) (bcd s) v
    (count_load_time s) (next_transition_time s) (irq_timer s) (irq_log s).
Definition set_count_load_time (v : Z) (s : PITChannelState) : PITChannelState :=
  mkChan (count s) (latched_count s) (count_latched s) (status_latched s) (status s)
    (read_state s) (write_state s) (write_latch s) (rw_mode s) (mode s) (bcd s) (gate s) v
    (next_transition_time s) (irq_timer s) (irq_log s).
Definition set_next_transition_time (v : Z) (s : PITChannelState) : PITChannelState :=
  mkChan (count s) (latched_count s) (count_latched s) (status_latched s) (status s)
    (read_state s) (write_state s) (write_latch s) (rw_mode s) (mode s) (bcd s) (gate s)
    (count_load_time s) v (irq_timer s) (irq_log s).
Definition set_irq_timer (v : option (option Z)) (s : PITChannelState) : PITChannelState :=
  mkChan (count s) (latched_count s) (count_latched s) (status_latched s) (status s)
    (read_state s) (write_state s) (write_latch s) (rw_mode s) (mode s) (bcd s) (gate s)
    (count_load_time s) (next_transition_time s) v (irq_log s).
Definition set_irq_log (v : list Z) (s : PITChannelState) : PITChannelState :=
  mkChan (count s) (latched_count s) (count_latched s) (status_latched s) (status s)
    (read_state s) (write_state s) (write_latch s) (rw_mode s) (mode s) (bcd s) (gate s)
    (count_load_time s) (next_transition_time s) (irq_timer s) v.

Record PITState := mkPIT { channels : list PITChannelState }.

(** [f(&pit->channels[i])]. *)
Definition on_channel (i : Z) (f : PITChannelState -> PITChannelState) (pit : PITState)
    : option PITState :=
  s ← channels pit !! Z.to_nat i;
  Some (mkPIT (<[Z.to_nat i := f s]> (channels pit))).

(** ** Counter and output *)

(** The number of PIT ticks from the load of the counter to [current_time]. *)
Definition elapsed (s : PITChannelState) (current_time : Z) : Z :=
  muldiv64 (u64 (current_time - count_load_time s)) PIT_FREQ get_ticks_per_sec.

Definition pit_get_count (now : Z) (s : PITChannelState) : Z :=
  let d := elapsed s now in
  let c := u64 (count s) in
  if (mode s =? 0) || (mode s =? 1) || (mode s =? 4) || (mode s =? 5) then
    u64 (c - d) &. 0xffff
  else if mode s =? 3 then s32 (u64 (c - u64 (2 * d) mod c))
  else s32 (u64 (c - d mod c)).

Definition pit_get_out1 (s : PITChannelState) (current_time : Z) : Z :=
  let d := elapsed s current_time in
  let c := u64 (count s) in
  if mode s =? 1 then of_bool (d <? c)
  else if mode s =? 2 then of_bool ((d mod c =? 0) && negb (d =? 0))
  else if mode s =? 3 then of_bool (d mod c <? u64 ((count s + 1) >>. 1))
  else if (mode s =? 4) || (mode s =? 5) then of_bool (d =? c)
  else of_bool (c <=? d).

Definition pit_get_out (pit : PITState) (channel current_time : Z) : option Z :=
  s ← channels pit !! Z.to_nat channel; Some (pit_get_out1 s current_time).

(** The PIT tick at which the output changes next, [None] for [return -1]. *)
Definition next_tick (s : PITChannelState) (d : Z) : option Z :=
  let c := u64 (count s) in
  let base := u64 (d / c * c) in
  if mode s =? 2 then
    if (u64 (d - base) =? 0) && negb (d =? 0) then Some (u64 (base + c))
    else Some (u64 (base + c + 1))
  else if mode s =? 3 then
    let period2 := (count s + 1) >>. 1 in
    if u64 (d - base) <? u64 period2 then Some (u64 (base + period2))
    else Some (u64 (base + c))
  else if (mode s =? 4) || (mode s =? 5) then
    if d <? c then Some c
    else if d =? c then Some (u64 (count s + 1))
    else None
  else if d <? c then Some c
  else None.

Definition pit_get_next_transition_time (s : PITChannelState) (current_time : Z) : Z :=
  match next_tick s (elapsed s current_time) with
  | None => -1
  | Some next_time =>
      let next_time :=
        u64 (count_load_time s + muldiv64 next_time get_ticks_per_sec PIT_FREQ) in
      let next_time :=
        if next_time <=? u64 current_time then u64 (current_time + 1) else next_time in
      s64 next_time
  end.

(** ** Interrupt timer *)

Definition pit_irq_timer_update (current_time : Z) (s : PITChannelState) : PITChannelState :=
  match irq_timer s with
  | None => s
  | Some _ =>
      let expire_time := pit_get_next_transition_time s current_time in
      let irq_level := pit_get_out1 s current_time in
      let s := set_irq_log (irq_level :: irq_log s) s in
      let s := set_next_transition_time expire_time s in
      if negb (expire_time =? -1) then set_irq_timer (Some (Some expire_time)) s
      else set_irq_timer (Some None) s
  end.

(** The timer has been taken off the list of active timers when its callback
    runs. *)
Definition pit_irq_timer (s : PITChannelState) : PITChannelState :=
  let s := set_irq_timer (Some None) s in
  pit_irq_timer_update (next_transition_time s) s.

(** ** Programming *)

Definition pit_set_gate1 (now val : Z) (s : PITChannelState) : PITChannelState :=
  let s :=
    if (mode s =? 1) || (mode s =? 5) || (mode s =? 2) || (mode s =? 3) then
      if gate s <? val then
        let s := set_count_load_time now s in
        pit_irq_timer_update (count_load_time s) s
      else s
    else s in
  set_gate (u8 val) s.

Definition pit_set_gate (now : Z) (pit : PITState) (channel val : Z) : option PITState :=
  on_channel channel (pit_set_gate1 now val) pit.

Definition pit_get_gate (pit : PITState) (channel : Z) : option Z :=
  s ← channels pit !! Z.to_nat channel; Some (gate s).
Definition pit_get_initial_count (pit : PITState) (channel : Z) : option Z :=
  s ← channels pit !! Z.to_nat channel; Some (count s).
Definition pit_get_mode (pit : PITState) (channel : Z) : option Z :=
  s ← channels pit !! Z.to_nat channel; Some (mode s).

Definition pit_load_count (now val : Z) (s : PITChannelState) : PITChannelState :=
  let val := if val =? 0 then 0x10000 else val in
  let s := set_count_load_time now s in
  let s := set_count val s in
  pit_irq_timer_update (count_load_time s) s.

Definition pit_latch_count (now : Z) (s : PITChannelState) : PITChannelState :=
  if count_latched s =? 0 then
    let s := set_latched_count (u16 (pit_get_count now s)) s in
    set_count_latched (rw_mode s) s
  else s.

Definition status_latch (now : Z) (s : PITChannelState) : PITChannelState :=
  if status_latched s =? 0 then
    let s := set_status
      (u8 (pit_get_out1 s now <<. 7 |. rw_mode s <<. 4 |. mode s <<. 1 |. bcd s)) s in
    set_status_latched 1 s
  else s.

(** The body of the read-back loop for one channel, with its two readings of
    the clock. *)
Definition read_back (val channel now1 now2 : Z) (s : PITChannelState) : PITChannelState :=
  if truthy (val &. (2 <<. channel)) then
    let s := if truthy (val &. 0x20) then s else pit_latch_count now1 s in
    if truthy (val &. 0x10) then s else status_latch now2 s
  else s.

Definition control_word (now val access : Z) (s : PITChannelState) : PITChannelState :=
  if access =? 0 then pit_latch_count now s
  else
    let s := set_rw_mode access s in
    let s := set_read_state access s in
    let s := set_write_state access s in
    let s := set_mode ((val >>. 1) &. 7) s in
    set_bcd (val &. 1) s.

Definition write_counter (now val : Z) (s : PITChannelState) : PITChannelState :=
  if write_state s =? RW_STATE_MSB then pit_load_count now (s32 (val <<. 8)) s
  else if write_state s =? RW_STATE_WORD0 then
    set_write_state RW_STATE_WORD1 (set_write_latch (u8 val) s)
  else if write_state s =? RW_STATE_WORD1 then
    set_write_state RW_STATE_WORD0
      (pit_load_count now (s32 (write_latch s |. u32 (val <<. 8))) s)
  else pit_load_count now (s32 val) s.

Definition pit_ioport_write (clk : nat -> Z) (pit : PITState) (addr val : Z)
    : option PITState :=
  let addr := addr &. 3 in
  if addr =? 3 then
    let channel := val >>. 6 in
    if channel =? 3 then
      pit ← on_channel 0 (read_back val 0 (clk 0%nat) (clk 1%nat)) pit;
      pit ← on_channel 1 (read_back val 1 (clk 2%nat) (clk 3%nat)) pit;
      on_channel 2 (read_back val 2 (clk 4%nat) (clk 5%nat)) pit
    else
      let access := (val >>. 4) &. 3 in
      on_channel channel (control_word (clk 0%nat) val access) pit
  else on_channel addr (write_counter (clk 0%nat) val) pit.

Definition read_counter (now : Z) (s : PITChannelState) : Z * PITChannelState :=
  if truthy (status_latched s) then (status s, set_status_latched 0 s)
  else if truthy (count_latched s) then
    if count_latched s =? RW_STATE_MSB then (latched_count s >>. 8, set_count_latched 0 s)
    else if count_latched s =? RW_STATE_WORD0 then
      (latched_count s &. 0xff, set_count_latched RW_STATE_MSB s)
    else (latched_count s &. 0xff, set_count_latched 0 s)
  else
    let count := pit_get_count now s in
    if read_state s =? RW_STATE_MSB then ((count >>. 8) &. 0xff, s)
    else if read_state s =? RW_STATE_WORD0 then
      (count &. 0xff, set_read_state RW_STATE_WORD1 s)
    else if read_state s =? RW_STATE_WORD1 then
      ((count >>. 8) &. 0xff, set_read_state RW_STATE_WORD0 s)
    else (count &. 0xff, s).

Definition pit_ioport_read (now : Z) (pit : PITState) (addr : Z) : option (Z * PITState) :=
  let addr := addr &. 3 in
  s ← channels pit !! Z.to_nat addr;
  let '(ret, s') := read_counter now s in
  Some (ret, mkPIT (<[Z.to_nat addr := s']> (channels pit))).

(** ** Reset and initialisation *)

Definition pit_reset1 (i now : Z) (s : PITChannelState) : PITChannelState :=
  let s := set_mode 3 s in
  let s := set_gate (of_bool (negb (i =? 2))) s in
  pit_load_count now 0 s.

Definition pit_reset (clk : nat -> Z) (pit : PITState) : option PITState :=
  pit ← on_channel 0 (pit_reset1 0 (clk 0%nat)) pit;
  pit ← on_channel 1 (pit_reset1 1 (clk 1%nat)) pit;
  on_channel 2 (pit_reset1 2 (clk 2%nat)) pit.

Definition hpet_disable1 (s : PITChannelState) : PITChannelState :=
  match irq_timer s with
  | Some _ => set_irq_timer (Some None) s
  | None => s
  end.
Definition hpet_pit_disable (pit : PITState) : option PITState :=
  on_channel 0 hpet_disable1 pit.

Definition hpet_enable1 (now : Z) (s : PITChannelState) : PITChannelState :=
  pit_load_count now 0 (set_gate 1 (set_mode 3 s)).
Definition hpet_pit_enable (now : Z) (pit : PITState) : option PITState :=
  on_channel 0 (hpet_enable1 now) pit.

(** The static [pit_state] before [pit_init]: all zero. *)
Definition channel_zero : PITChannelState :=
  mkChan 0 0 0 0 0 0 0 0 0 0 0 0 0 0 None [].
Definition pit_state : PITState := mkPIT [channel_zero; channel_zero; channel_zero].

Definition pit_init : option PITState :=
  on_channel 0 (set_irq_timer (Some None)) pit_state.

(** ** Exactness of the fixed point arithmetic *)

Lemma muldiv64_quotient a b c :
  is_u64 a -> is_u32 b -> 0 < c < 2 ^ 32 -> muldiv64 a b c = u64 (a * b / c).
Proof.
  intros Ha Hb Hc. unfold is_uint in *. unfold muldiv64.
  change 0xffffffff with (Z.ones 32). rewrite Z.land_ones by lia.
  rewrite !Z.shiftr_div_pow2 by lia. rewrite (Z.shiftl_mul_pow2 (_ mod c)) by lia.
  set (al := u32 a). set (ah := a / 2 ^ 32).
  assert (Ea : a = ah * 2 ^ 32 + al) by (unfold ah, al, wrap; dlia).
  assert (Hal : 0 <= al < 2 ^ 32) by (unfold al, wrap; dlia).
  assert (Hah : 0 <= ah < 2 ^ 32) by (unfold ah; dlia).
  clearbody al ah. subst a.
  assert (Hrl : 0 <= al * b <= (2 ^ 32 - 1) * (2 ^ 32 - 1)) by nia.
  assert (Hrh : 0 <= ah * b <= (2 ^ 32 - 1) * (2 ^ 32 - 1)) by nia.
  rewrite (wrap_small 64 (al * b)) by (unfold is_uint; lia).
  rewrite (wrap_small 64 (ah * b)) by (unfold is_uint; lia).
  assert (Hd : 0 <= al * b / 2 ^ 32 < 2 ^ 32) by dlia.
  rewrite (wrap_small 64 (ah * b + _)) by (unfold is_uint; lia).
  set (rh := ah * b + al * b / 2 ^ 32). set (lo := (al * b) mod 2 ^ 32).
  assert (E : (ah * 2 ^ 32 + al) * b = rh * 2 ^ 32 + lo) by (unfold rh, lo; dlia).
  assert (Hlo : 0 <= lo < 2 ^ 32) by (unfold lo; dlia).
  rewrite E. clearbody rh lo. clear E.
  pose proof (Z.div_mod rh c ltac:(lia)) as Erh.
  pose proof (Z.mod_pos_bound rh c ltac:(lia)) as Hr.
  set (q := rh / c) in *. set (r := rh mod c) in *. clearbody q r. subst rh.
  rewrite (wrap_small 64 (r * 2 ^ 32)) by (unfold is_uint; nia).
  rewrite (wrap_small 64 (r * 2 ^ 32 + lo)) by (unfold is_uint; nia).
  assert (H2 : 0 <= (r * 2 ^ 32 + lo) / c < 2 ^ 32).
  { split; [apply Z.div_pos; lia|apply Z.div_lt_upper_bound; nia]. }
  rewrite (wrap_small 32 ((r * 2 ^ 32 + lo) / c)) by (unfold is_uint; lia).
  rewrite shiftl_lor_add by (unfold is_uint, wrap in *; dlia).
  replace ((c * q + r) * 2 ^ 32 + lo) with ((q * 2 ^ 32) * c + (r * 2 ^ 32 + lo)) by ring.
  rewrite Z.div_add_l by lia. unfold wrap. dlia.
Qed.

(** The times of the machine: nanoseconds below [2^62], 146 years. *)
Definition horizon : Z := 2 ^ 62.

Lemma elapsed_eq s t :
  0 <= count_load_time s <= t -> t <= horizon ->
  elapsed s t = (t - count_load_time s) * PIT_FREQ / get_ticks_per_sec.
Proof.
  intros H1 H2. unfold elapsed, horizon, PIT_FREQ, get_ticks_per_sec in *.
  rewrite (wrap_small 64 (t - _)) by (unfold is_uint; lia).
  rewrite muldiv64_quotient by (unfold is_uint; lia).
  apply wrap_small. unfold is_uint. dlia.
Qed.

Lemma elapsed_range s t :
  0 <= count_load_time s <= t -> t <= horizon -> 0 <= elapsed s t <= t - count_load_time s.
Proof.
  intros. rewrite elapsed_eq by done. unfold PIT_FREQ, get_ticks_per_sec. dlia.
Qed.

Lemma elapsed_mono s t t' :
  0 <= count_load_time s <= t -> t <= t' -> t' <= horizon -> elapsed s t <= elapsed s t'.
Proof.
  intros. rewrite !elapsed_eq by lia. unfold PIT_FREQ, get_ticks_per_sec. dlia.
Qed.

(** ** The next transition *)

(** A counter that was loaded: [pit_load_count] is the only writer of
    [count]. *)
Definition counting (s : PITChannelState) : Prop :=
  1 <= count s <= 0x10000 /\ 0 <= count_load_time s.

Lemma u64_count s : counting s -> u64 (count s) = count s.
Proof. intros [H _]. apply wrap_small. unfold is_uint. lia. Qed.

(** The nanosecond at which tick [n] is due, as the code rounds it. *)
Definition tick_time (s : PITChannelState) (n : Z) : Z :=
  count_load_time s + n * get_ticks_per_sec / PIT_FREQ.

(** [next_tick] without the wrap-around of its 64-bit sums. *)
Lemma next_tick_eq s d :
  counting s -> 0 <= d <= 2 * horizon ->
  next_tick s d =
  let c := count s in
  let base := d / c * c in
  if mode s =? 2 then
    if (d mod c =? 0) && negb (d =? 0) then Some (base + c) else Some (base + c + 1)
  else if mode s =? 3 then
    if d mod c <? (c + 1) / 2 then Some (base + (c + 1) / 2) else Some (base + c)
  else if (mode s =? 4) || (mode s =? 5) then
    if d <? c then Some c else if d =? c then Some (c + 1) else None
  else if d <? c then Some c else None.
Proof.
  intros Hs Hd. unfold next_tick. rewrite u64_count by done. destruct Hs as [Hc _].
  unfold horizon in Hd. rewrite Z.shiftr_div_pow2 by lia. change (2 ^ 1) with 2.
  pose proof (Z.div_mod d (count s) ltac:(lia)) as E.
  pose proof (Z.mod_pos_bound d (count s) ltac:(lia)) as Hm.
  assert (0 <= d / count s * count s <= d) by lia.
  assert (0 <= (count s + 1) / 2 <= 0x10000) by dlia.
  rewrite (wrap_small 64 (d / count s * count s)) by (unfold is_uint; lia).
  replace (d - d / count s * count s) with (d mod count s) by lia.
  cbn zeta.
  repeat rewrite (wrap_small 64) by (unfold is_uint; lia). done.
Qed.

Lemma next_tick_bounds s d n :
  counting s -> 0 <= d <= 2 * horizon -> next_tick s d = Some n -> d < n <= d + 0x10001.
Proof.
  intros Hs Hd. rewrite next_tick_eq by done. destruct Hs as [Hc _]. cbn zeta.
  pose proof (Z.div_mod d (count s) ltac:(lia)) as E.
  pose proof (Z.mod_pos_bound d (count s) ltac:(lia)) as Hm.
  assert (count s <= 2 * ((count s + 1) / 2) <= count s + 1) by dlia.
  zcases; intros [= <-]; lia.
Qed.

Lemma next_transition_eq s cur :
  counting s -> count_load_time s <= cur <= horizon ->
  pit_get_next_transition_time s cur =
  match next_tick s (elapsed s cur) with
  | None => -1
  | Some n => Z.max (tick_time s n) (cur + 1)
  end.
Proof.
  intros Hs Hc. assert (0 <= count_load_time s) by apply Hs.
  assert (Hd := elapsed_range s cur ltac:(lia) ltac:(lia)).
  unfold pit_get_next_transition_time. destruct (next_tick _ _) as [n|] eqn:En; [|done].
  apply next_tick_bounds in En; [|done|unfold horizon in *; lia]. unfold horizon in *.
  assert (Hn : 0 <= n * get_ticks_per_sec / PIT_FREQ <= cur - count_load_time s + 2 ^ 30).
  { rewrite elapsed_eq in En by (unfold horizon; lia).
    unfold PIT_FREQ, get_ticks_per_sec in *. dlia. }
  assert (En' : muldiv64 n get_ticks_per_sec PIT_FREQ = n * get_ticks_per_sec / PIT_FREQ).
  { rewrite muldiv64_quotient by (unfold is_uint, get_ticks_per_sec, PIT_FREQ in *; lia).
    apply wrap_small. unfold is_uint. lia. }
  rewrite En'. fold (tick_time s n). assert (0 <= tick_time s n <= cur + 2 ^ 30)
    by (unfold tick_time; lia).
  rewrite !wrap_small by (unfold is_uint; lia). unfold swrap.
  zcases; rewrite Z.mod_small; lia.
Qed.

(** ** The output between and at transitions *)

(** The output as a function of the number of elapsed ticks. *)
Definition out_tick (s : PITChannelState) (d : Z) : Z :=
  let c := count s in
  if mode s =? 1 then of_bool (d <? c)
  else if mode s =? 2 then of_bool ((d mod c =? 0) && negb (d =? 0))
  else if mode s =? 3 then of_bool (d mod c <? (c + 1) / 2)
  else if (mode s =? 4) || (mode s =? 5) then of_bool (d =? c)
  else of_bool (c <=? d).

Lemma out1_eq s t : counting s -> pit_get_out1 s t = out_tick s (elapsed s t).
Proof.
  intros Hs. unfold pit_get_out1, out_tick. rewrite u64_count by done.
  destruct Hs as [Hc _]. rewrite Z.shiftr_div_pow2 by lia. change (2 ^ 1) with 2.
  rewrite (wrap_small 64 ((_ + 1) / 2)) by (unfold is_uint; dlia). done.
Qed.

Lemma div_mod_in_period c d d' :
  0 < c -> d / c * c <= d' < d / c * c + c ->
  d' / c = d / c /\ d' mod c = d' - d / c * c.
Proof.
  intros Hc Hd.
  assert (E : d' / c = d / c) by (symmetry; apply (Z.div_unique d' c (d / c) (d' - d / c * c)); lia).
  split; [done|]. rewrite Z.mod_eq, E by lia. lia.
Qed.

(** Facts about the period that contains tick [d]. *)
Ltac period s d :=
  pose proof (Z.div_mod d (count s) ltac:(lia));
  pose proof (Z.mod_pos_bound d (count s) ltac:(lia));
  assert (count s <= 2 * ((count s + 1) / 2) <= count s + 1) by dlia.

(** Up to the next transition the code computes, except in mode 2, the
    answer and the output do not change. *)
Lemma before_next s d n d' :
  counting s -> 0 <= d <= horizon -> mode s <> 2 ->
  next_tick s d = Some n -> d <= d' < n ->
  next_tick s d' = Some n /\ out_tick s d' = out_tick s d.
Proof.
  intros Hs Hd Hm En Hd'.
  assert (Hb : d < n <= d + 0x10001)
    by (apply (next_tick_bounds s); [done|unfold horizon in *; lia|done]).
  rewrite next_tick_eq in En |- * by (done || unfold horizon in *; lia).
  destruct Hs as [Hc _]. unfold out_tick. cbn zeta in *.
  rewrite (proj2 (Z.eqb_neq _ _) Hm) in *. period s d.
  revert En. destruct (Z.eqb_spec (mode s) 3) as [E3|N3].
  - intros En. assert (Hn : d / count s * count s <= d' < d / count s * count s + count s).
    { revert En. zcases; intros [= <-]; lia. }
    destruct (div_mod_in_period (count s) d d' ltac:(lia) Hn) as [-> ->].
    revert En. rewrite E3. cbn. zcases; intros [= <-]; split; try f_equal; try lia; done.
  - zcases; intros [= <-]; done || lia.
Qed.

(** At the next transition the output is inverted.  A square wave of period 1
    has no low half. *)
Lemma at_next s d n :
  counting s -> 0 <= d <= horizon -> mode s <> 2 -> (mode s = 3 -> 2 <= count s) ->
  next_tick s d = Some n -> out_tick s n = 1 - out_tick s d.
Proof.
  intros Hs Hd Hm H3 En. rewrite next_tick_eq in En by (done || unfold horizon in *; lia).
  destruct Hs as [Hc _]. unfold out_tick. cbn zeta in *.
  rewrite (proj2 (Z.eqb_neq _ _) Hm) in *. period s d.
  revert En. destruct (Z.eqb_spec (mode s) 3) as [E3|N3].
  - specialize (H3 E3).
    destruct (Z.ltb_spec (d mod count s) ((count s + 1) / 2)); intros [= <-].
    + destruct (div_mod_in_period (count s) d (d / count s * count s + (count s + 1) / 2)
        ltac:(lia) ltac:(lia)) as [_ ->]. zcases; done.
    + replace (d / count s * count s + count s) with ((d / count s + 1) * count s) by ring.
      rewrite Z.mod_mul by lia. zcases; done.
  - zcases; intros [= <-]; zcases; done || lia.
Qed.

(** Where the code answers [-1] the output stays as it is. *)
Lemma no_next s d d' :
  counting s -> 0 <= d <= horizon -> next_tick s d = None -> d <= d' ->
  out_tick s d' = out_tick s d.
Proof.
  intros Hs Hd En Hd'. rewrite next_tick_eq in En by (done || unfold horizon in *; lia).
  destruct Hs as [Hc _]. unfold out_tick. cbn zeta in *.
  revert En. destruct (Z.eqb_spec (mode s) 2); [zcases; done|].
  destruct (Z.eqb_spec (mode s) 3); [zcases; done|]. zcases; done || lia.
Qed.

(** ** Ticks and nanoseconds *)

Lemma elapsed_before_tick s n t :
  0 <= count_load_time s <= t -> t <= horizon -> t < tick_time s n -> elapsed s t < n.
Proof.
  intros. rewrite elapsed_eq by done. unfold tick_time, PIT_FREQ, get_ticks_per_sec in *. dlia.
Qed.

(** Conversions in both directions round down: at [tick_time s n] the counter
    may be one tick behind, one nanosecond later it is not. *)
Lemma elapsed_at_tick s n :
  0 <= count_load_time s -> 0 <= n -> tick_time s n <= horizon ->
  n - 1 <= elapsed s (tick_time s n) <= n.
Proof.
  intros. rewrite elapsed_eq; unfold tick_time, PIT_FREQ, get_ticks_per_sec in *; dlia.
Qed.

Lemma elapsed_after_tick s n :
  0 <= count_load_time s -> 0 <= n -> tick_time s n + 1 <= horizon ->
  elapsed s (tick_time s n + 1) = n.
Proof.
  intros. rewrite elapsed_eq; unfold tick_time, PIT_FREQ, get_ticks_per_sec in *; dlia.
Qed.

Lemma tick_time_after s n t :
  0 <= count_load_time s <= t -> t <= horizon -> elapsed s t < n -> t <= tick_time s n.
Proof.
  intros ? ?. rewrite elapsed_eq by done. unfold tick_time, PIT_FREQ, get_ticks_per_sec. dlia.
Qed.

(** ** The interrupt line follows the output *)

(** The fields a timer update leaves alone. *)
Lemma update_fields cur s :
  let s' := pit_irq_timer_update cur s in
  count s' = count s /\ mode s' = mode s /\ count_load_time s' = count_load_time s.
Proof.
  unfold pit_irq_timer_update. destruct (irq_timer s); [|done].
  by destruct (negb _).
Qed.

Lemma elapsed_ext s s' t : count_load_time s' = count_load_time s -> elapsed s' t = elapsed s t.
Proof. unfold elapsed. by intros ->. Qed.

Lemma out_tick_ext s s' d :
  count s' = count s -> mode s' = mode s -> out_tick s' d = out_tick s d.
Proof. unfold out_tick. by intros -> ->. Qed.

Lemma next_tick_ext s s' d :
  count s' = count s -> mode s' = mode s -> next_tick s' d = next_tick s d.
Proof. unfold next_tick. by intros -> ->. Qed.

(** A timer update at [cur] sends the output of the tick reached and arms the
    timer for the tick the code computes. *)
Lemma update_spec cur s n :
  counting s -> count_load_time s <= cur <= horizon -> irq_timer s <> None ->
  next_tick s (elapsed s cur) = Some n ->
  pit_irq_timer_update cur s =
  set_irq_timer (Some (Some (Z.max (tick_time s n) (cur + 1))))
    (set_next_transition_time (Z.max (tick_time s n) (cur + 1))
      (set_irq_log (out_tick s (elapsed s cur) :: irq_log s) s)).
Proof.
  intros Hs Hc Ht En. unfold pit_irq_timer_update. destruct (irq_timer s); [|done].
  rewrite next_transition_eq, En, out1_eq by done.
  assert (0 <= count_load_time s) by apply Hs. zcases. done.
Qed.

(** The state of a channel whose timer was armed by an update. *)
Definition armed_for (s0 s : PITChannelState) (t : Z) (log : list Z) : Prop :=
  count s = count s0 /\ mode s = mode s0 /\ count_load_time s = count_load_time s0 /\
  irq_timer s = Some (Some t) /\ next_transition_time s = t /\ irq_log s = log.

Lemma fire_spec s0 s t log n :
  counting s0 -> count_load_time s0 <= t <= horizon -> armed_for s0 s t log ->
  next_tick s0 (elapsed s0 t) = Some n ->
  armed_for s0 (pit_irq_timer s) (Z.max (tick_time s0 n) (t + 1))
    (out_tick s0 (elapsed s0 t) :: log).
Proof.
  intros Hs Ht (E1 & E2 & E3 & E4 & E5 & E6) En. unfold pit_irq_timer.
  set (s' := set_irq_timer (Some None) s).
  assert (E1' : count s' = count s0) by done. assert (E2' : mode s' = mode s0) by done.
  assert (E3' : count_load_time s' = count_load_time s0) by done.
  assert (E5' : next_transition_time s' = t) by done. rewrite E5'.
  assert (En' : next_tick s' (elapsed s' t) = Some n)
    by (by rewrite (elapsed_ext s0), (next_tick_ext s0)).
  rewrite (update_spec t s' n); [|by unfold counting; rewrite E1', E3'|by rewrite E3'|done|done].
  unfold armed_for, tick_time. cbn [count mode count_load_time irq_timer next_transition_time
    irq_log set_irq_timer set_next_transition_time set_irq_log].
  rewrite E3', (out_tick_ext s0), (elapsed_ext s0) by done. rewrite <- E6. done.
Qed.

(** The level sent by a firing, whatever the timer does next. *)
Lemma fire_log s0 s t log :
  counting s0 -> armed_for s0 s t log ->
  irq_log (pit_irq_timer s) = out_tick s0 (elapsed s0 t) :: log.
Proof.
  intros Hs (E1 & E2 & E3 & E4 & E5 & E6). unfold pit_irq_timer, pit_irq_timer_update.
  cbn [irq_timer set_irq_timer]. destruct (negb _); cbn -[pit_get_out1];
    (rewrite out1_eq; [|by unfold counting; cbn; rewrite E1, E3]);
    (rewrite (out_tick_ext s0), (elapsed_ext s0) by done); by rewrite E5, E6.
Qed.

(** When the code sees tick [n] ahead of [cur], the timer is next armed for
    [u], the first nanosecond of tick [n], or for the nanosecond before it. *)
Lemma tick_timing s cur n :
  0 <= count_load_time s <= cur -> cur + 2 ^ 30 <= horizon ->
  elapsed s cur < n <= elapsed s cur + 0x10001 ->
  let t1 := Z.max (tick_time s n) (cur + 1) in
  exists u, cur < u <= horizon /\ elapsed s u = n /\
    (forall t, cur <= t < u -> elapsed s t < n) /\
    (u = t1 \/ cur < t1 /\ u = t1 + 1 /\ t1 = tick_time s n /\ elapsed s t1 = n - 1).
Proof.
  intros Hl Hh Hn t1.
  assert (Hd := elapsed_range s cur ltac:(lia) ltac:(lia)).
  assert (Hlt := tick_time_after s n cur ltac:(lia) ltac:(lia) ltac:(lia)).
  assert (HT : tick_time s n <= cur + 2 ^ 29)
    by (revert Hn; rewrite elapsed_eq by lia; unfold tick_time, PIT_FREQ, get_ticks_per_sec; dlia).
  assert (HTh : tick_time s n + 1 <= horizon) by lia.
  assert (E := elapsed_at_tick s n ltac:(lia) ltac:(lia) ltac:(lia)).
  assert (E1 := elapsed_after_tick s n ltac:(lia) ltac:(lia) HTh).
  assert (Hb : forall t, cur <= t < tick_time s n -> elapsed s t < n)
    by (intros; apply elapsed_before_tick; lia).
  destruct (Z.eq_dec (elapsed s (tick_time s n)) n) as [E'|E'].
  - exists (tick_time s n). assert (cur <> tick_time s n) by (intros Heq; rewrite <- Heq in E'; lia).
    split_and!; [lia|lia|done|done|]. left. lia.
  - exists (tick_time s n + 1). split_and!; [lia|lia|done| |].
    + intros t Ht. destruct (Z.eq_dec t (tick_time s n)) as [->|]; [lia|]. apply Hb. lia.
    + destruct (Z.eq_dec cur (tick_time s n)); [left; lia|right].
      unfold t1. rewrite Z.max_l by lia. split_and!; lia.
Qed.

(** C33: the interrupt line follows the output exactly, in every mode but
    the rate generator: when the code sees a transition ahead of [cur], one or
    two firings of the timer later the line is inverted, the last firing is
    scheduled for the very first nanosecond [u] at which the output differs
    from its value at [cur], and the line saw no other level in between. *)
Theorem pit_irq_edge s cur :
  counting s -> count_load_time s <= cur -> cur + 2 ^ 30 <= horizon ->
  irq_timer s <> None -> mode s <> 2 -> (mode s = 3 -> 2 <= count s) ->
  pit_get_next_transition_time s cur <> -1 ->
  let o := pit_get_out1 s cur in
  exists (k : nat) u, (k < 2)%nat /\ cur < u /\
    (forall t, cur <= t < u -> pit_get_out1 s t = o) /\
    pit_get_out1 s u = 1 - o /\
    irq_timer (Nat.iter k pit_irq_timer (pit_irq_timer_update cur s)) = Some (Some u) /\
    irq_log (Nat.iter (S k) pit_irq_timer (pit_irq_timer_update cur s)) =
      (1 - o) :: repeat o (S k) ++ irq_log s.
Proof.
  intros Hs Hl Hh Ht Hm H3 Hn o. assert (H0 : 0 <= count_load_time s) by apply Hs.
  assert (Hd := elapsed_range s cur ltac:(lia) ltac:(lia)).
  rewrite next_transition_eq in Hn by (done || lia).
  destruct (next_tick s (elapsed s cur)) as [n|] eqn:En; [clear Hn|done].
  assert (Hb := next_tick_bounds s (elapsed s cur) n Hs ltac:(lia) En).
  assert (Ho : o = out_tick s (elapsed s cur)) by (by apply out1_eq).
  assert (Hi : out_tick s n = 1 - o) by (rewrite Ho; apply at_next; done || lia).
  assert (A : armed_for s (pit_irq_timer_update cur s) (Z.max (tick_time s n) (cur + 1))
                (o :: irq_log s)) by (rewrite (update_spec cur s n), Ho; done || lia).
  destruct (tick_timing s cur n ltac:(lia) Hh Hb) as (u & Hu & Eu & Hbefore & Hcase).
  assert (Hst : forall t, cur <= t < u -> pit_get_out1 s t = o).
  { intros t Htt. rewrite out1_eq, Ho by done.
    apply (before_next s _ n); try (done || lia). split; [apply elapsed_mono; lia|auto]. }
  assert (Hout : pit_get_out1 s u = 1 - o) by (by rewrite out1_eq, Eu).
  destruct Hcase as [Eu1|(Hc1 & Eu1 & ET & E1)].
  - rewrite <- Eu1 in A. exists 0%nat, u. split_and!; [lia|lia|done|done|apply A|].
    cbn [Nat.iter nat_rect]. by rewrite (fire_log s _ _ _ Hs A), Eu, Hi.
  - set (t1 := Z.max _ _) in *.
    destruct (before_next s (elapsed s cur) n (elapsed s t1) Hs ltac:(lia) Hm En
      ltac:(split; [apply elapsed_mono|]; lia)) as [En1 Eo1].
    assert (A1 := fire_spec s _ t1 _ n Hs ltac:(lia) A En1).
    rewrite Eo1, <- Ho, Z.max_r, <- Eu1 in A1 by lia.
    exists 1%nat, u. split_and!; [lia|lia|done|done|apply A1|].
    cbn [Nat.iter nat_rect]. by rewrite (fire_log s _ _ _ Hs A1), Eu, Hi.
Qed.

(** A channel as it is after a reset at time 0 and the programming of [mode]
    and [count], for the examples. *)
Definition sample_channel (mode count : Z) : PITChannelState :=
  mkChan count 0 0 0 0 3 3 0 3 mode 0 1 0 0 (Some None) [].

Lemma pit_irq_edge_witness :
  exists (k : nat) u, (k < 2)%nat /\ 500 < u /\
    irq_timer (Nat.iter k pit_irq_timer (pit_irq_timer_update 500 (sample_channel 3 65536)))
      = Some (Some u) /\
    irq_log (Nat.iter (S k) pit_irq_timer (pit_irq_timer_update 500 (sample_channel 3 65536)))
      = 0 :: repeat 1 (S k).
Proof.
  destruct (pit_irq_edge (sample_channel 3 65536) 500
    ltac:(repeat split; vm_compute; discriminate) ltac:(vm_compute; discriminate)
    ltac:(vm_compute; discriminate) ltac:(vm_compute; discriminate)
    ltac:(vm_compute; discriminate) ltac:(intros _; vm_compute; discriminate)
    ltac:(vm_compute; discriminate)) as (k & u & H1 & H2 & _ & _ & H3 & H4).
  exists k, u. split; [exact H1|]. split; [exact H2|]. split; [exact H3|].
  rewrite H4. change (pit_get_out1 _ _) with 1. by rewrite app_nil_r.
Defined.

(** When the code finds no transition ahead, the timer is disarmed
    after the current level has been sent, and the output indeed keeps its
    value for ever (to the end of the representable time). *)
Theorem pit_irq_quiet s cur t :
  counting s -> count_load_time s <= cur -> cur <= t <= horizon -> irq_timer s <> None ->
  pit_get_next_transition_time s cur = -1 ->
  let s' := pit_irq_timer_update cur s in
  pit_get_out1 s t = pit_get_out1 s cur /\
  irq_timer s' = Some None /\ irq_log s' = pit_get_out1 s t :: irq_log s.
Proof.
  intros Hs Hl Ht Hi Hn s'. assert (H0 : 0 <= count_load_time s) by apply Hs.
  assert (Hd := elapsed_range s cur ltac:(lia) ltac:(lia)).
  assert (E : pit_get_out1 s t = pit_get_out1 s cur).
  { rewrite next_transition_eq in Hn by (done || lia).
    destruct (next_tick s (elapsed s cur)) as [n|] eqn:En; [lia|].
    rewrite !out1_eq by done. apply no_next; [done|lia|done|apply elapsed_mono; lia]. }
  split; [done|]. rewrite E. unfold s', pit_irq_timer_update.
  destruct (irq_timer s); [|done]. by rewrite Hn.
Qed.

Lemma pit_irq_quiet_witness :
  pit_get_out1 (sample_channel 0 100) (2 ^ 40) = pit_get_out1 (sample_channel 0 100) 1000000.
Proof.
  apply (pit_irq_quiet (sample_channel 0 100) 1000000 (2 ^ 40));
    try (vm_compute; discriminate); try reflexivity;
    repeat split; vm_compute; discriminate.
Defined.

(** ** The rate generator *)

(** [1000000000 / 1193182] in lowest terms is [500000000 / 596591]: only at
    multiples of 596591 ticks does a tick fall on a nanosecond. *)
Lemma tick_not_exact s n :
  0 <= count_load_time s -> 0 < n -> n mod 596591 <> 0 -> tick_time s n <= horizon ->
  elapsed s (tick_time s n) = n - 1.
Proof.
  intros H0 Hn Hx Hh. rewrite elapsed_eq; unfold tick_time, PIT_FREQ, get_ticks_per_sec in *;
    [|dlia|dlia].
  replace (_ + _ - _) with (n * 1000000000 / 1193182) by lia.
  pose proof (Z.div_mod (n * 1000000000) 1193182 ltac:(lia)) as E.
  pose proof (Z.mod_pos_bound (n * 1000000000) 1193182 ltac:(lia)) as Hr.
  destruct (Z.eq_dec ((n * 1000000000) mod 1193182) 0) as [Er|Er].
  - exfalso. apply Hx. set (q := n * 1000000000 / 1193182) in *.
    assert (En : n = (570863 * q - 478437489 * n) * 596591) by lia.
    rewrite En. apply Z.mod_mul. lia.
  - symmetry. apply (Z.div_unique _ _ _
      (n * 1000000000 / 1193182 * 1193182 - (n - 1) * 1000000000)); lia.
Qed.

(** The ticks around the end of period [k]. *)
Lemma rate_ticks s k :
  let c := count s in
  counting s -> 2 <= c -> mode s = 2 -> 1 <= k -> (k + 1) * c <= horizon ->
  next_tick s (k * c) = Some ((k + 1) * c) /\
  next_tick s ((k + 1) * c - 1) = Some ((k + 1) * c + 1) /\
  out_tick s (k * c) = 1 /\ out_tick s ((k + 1) * c - 1) = 0.
Proof.
  intros c Hs H2 Hm Hk Hh.
  assert (0 < k * c) by nia.
  destruct (div_mod_in_period c (k * c) ((k + 1) * c - 1)) as [Eq Er];
    [lia|rewrite Z.div_mul by lia; lia|].
  rewrite Z.div_mul in Eq, Er by lia.
  rewrite !next_tick_eq by (done || unfold horizon in *; lia).
  unfold out_tick. cbn zeta. fold c. rewrite Hm, Eq, Er, Z.mod_mul, Z.div_mul by lia.
  split_and!; zcases; try done; f_equal; lia.
Qed.

(** The rate generator (mode 2) sends one low pulse and one rising
    edge per period of [count] ticks: from an update in the first tick of
    period [k] the line goes low and high again in two firings, the second in
    the first tick of the next period, provided that neither tick [(k+1)c] nor
    tick [(k+1)c+1] is a multiple of 596591. *)
Theorem pit_rate_generator s cur k :
  let c := count s in
  counting s -> 2 <= c -> mode s = 2 -> irq_timer s <> None ->
  count_load_time s <= cur -> cur + 2 ^ 30 <= horizon ->
  1 <= k -> elapsed s cur = k * c ->
  ((k + 1) * c) mod 596591 <> 0 -> ((k + 1) * c + 1) mod 596591 <> 0 ->
  exists u, cur < u /\ elapsed s u = (k + 1) * c /\
    irq_timer (pit_irq_timer (pit_irq_timer_update cur s)) = Some (Some u) /\
    irq_log (Nat.iter 2 pit_irq_timer (pit_irq_timer_update cur s)) = 1 :: 0 :: 1 :: irq_log s.
Proof.
  intros c Hs H2 Hm Ht Hl Hh Hk Ed X1 X2. assert (H0 : 0 <= count_load_time s) by apply Hs.
  assert (Hd := elapsed_range s cur ltac:(lia) ltac:(lia)). rewrite Ed in Hd.
  assert (Hc : c <= 0x10000) by (apply Hs).
  assert (HT : forall n, k * c < n <= k * c + c + 1 ->
    cur <= tick_time s n /\ tick_time s n <= cur + 2 ^ 29).
  { intros n Hn. split; [apply tick_time_after; lia|].
    revert Ed; rewrite elapsed_eq by lia; unfold tick_time, PIT_FREQ, get_ticks_per_sec; dlia. }
  destruct (rate_ticks s k Hs H2 Hm Hk ltac:(fold c; lia)) as (N0 & N1 & O0 & O1).
  destruct (rate_ticks s (k + 1) Hs H2 Hm ltac:(lia)) as (_ & _ & O2 & _); [fold c; lia|].
  fold c in N0, N1, O0, O1, O2. set (n1 := (k + 1) * c) in *.
  assert (Hn1 : n1 = k * c + c) by (unfold n1; lia). clearbody n1. rewrite <- Ed in N0, O0.
  destruct (HT n1 ltac:(lia)) as [HT1 HT1'].
  destruct (HT (n1 + 1) ltac:(lia)) as [HT2 HT2'].
  assert (Hlt : tick_time s n1 < tick_time s (n1 + 1))
    by (unfold tick_time, PIT_FREQ, get_ticks_per_sec; dlia).
  assert (Ex1 := tick_not_exact s n1 H0 ltac:(lia) X1 ltac:(lia)).
  assert (Ex2 := tick_not_exact s (n1 + 1) H0 ltac:(lia) X2 ltac:(lia)).
  assert (Hne : cur <> tick_time s n1) by (intros ->; lia).
  assert (A0 : armed_for s (pit_irq_timer_update cur s) (tick_time s n1) (1 :: irq_log s))
    by (rewrite (update_spec cur s n1), O0, Z.max_l; done || lia).
  rewrite <- Ex1 in N1, O1.
  assert (A1 := fire_spec s _ (tick_time s n1) _ (n1 + 1) Hs ltac:(lia) A0 N1).
  rewrite O1, Z.max_l in A1 by lia.
  exists (tick_time s (n1 + 1)). split_and!; [lia|lia|apply A1|].
  cbn [Nat.iter nat_rect]. rewrite (fire_log s _ _ _ Hs A1), Ex2.
  replace (n1 + 1 - 1) with n1 by lia. by rewrite O2.
Qed.

Lemma pit_rate_generator_witness :
  exists u, elapsed (sample_channel 2 11932) u = 23864 /\
    irq_log (Nat.iter 2 pit_irq_timer (pit_irq_timer_update 10000200 (sample_channel 2 11932)))
      = [1; 0; 1].
Proof.
  destruct (pit_rate_generator (sample_channel 2 11932) 10000200 1
    ltac:(repeat split; vm_compute; discriminate) ltac:(vm_compute; discriminate)
    ltac:(reflexivity) ltac:(vm_compute; discriminate) ltac:(vm_compute; discriminate)
    ltac:(vm_compute; discriminate) ltac:(lia) ltac:(reflexivity)
    ltac:(vm_compute; discriminate) ltac:(vm_compute; discriminate))
    as (u & _ & H1 & _ & H2).
  exists u. split; [exact H1|exact H2].
Defined.

(** The other case.  With a period of 11932 ticks (100 Hz), the output rises
    at the start of period 265146, 44 minutes after the counter was loaded.
    The firing scheduled for it comes one tick late, at a time when the output
    is low again: the line stays low and rises only a whole period later. *)
Theorem pit_rate_generator_lost_edge :
  let s := sample_channel 2 11932 in
  let cur := tick_time s (265146 * 11932) in
  let u := tick_time s (265146 * 11932 + 1) in
  elapsed s cur = 265146 * 11932 - 1 /\
  pit_get_out1 s (u - 1) = 1 /\
  irq_timer (pit_irq_timer_update cur s) = Some (Some u) /\
  irq_log (Nat.iter 2 pit_irq_timer (pit_irq_timer_update cur s)) = [1; 0; 0] /\
  next_transition_time (pit_irq_timer (pit_irq_timer_update cur s))
    = tick_time s (265147 * 11932 + 1).
Proof. vm_compute. repeat split. Qed.

(** ** Reachable states *)

(** The ranges of a channel's registers, and of a loaded channel at time
    [now]. *)
Definition ranges (s : PITChannelState) : Prop :=
  is_u16 (latched_count s) /\ 0 <= count_latched s <= 3 /\ 0 <= status_latched s <= 1 /\
  is_u8 (status s) /\ 0 <= read_state s <= 4 /\ 0 <= write_state s <= 4 /\
  is_u8 (write_latch s) /\ 0 <= rw_mode s <= 3 /\ 0 <= mode s <= 7 /\ 0 <= bcd s <= 1 /\
  0 <= gate s <= 1.

Definition wf_regs (now : Z) (s : PITChannelState) : Prop :=
  (counting s /\ count_load_time s <= now) /\ ranges s.

(** An armed timer is armed for [next_transition_time], after the load. *)
Definition timer_ok (s : PITChannelState) : Prop :=
  match irq_timer s with
  | Some (Some t) => next_transition_time s = t /\ count_load_time s < t
  | _ => True
  end.

Definition wf_channel (now : Z) (s : PITChannelState) : Prop := wf_regs now s /\ timer_ok s.

(** Only channel 0 has an interrupt timer. *)
Definition wf_pit (now : Z) (pit : PITState) : Prop :=
  exists s0 s1 s2, channels pit = [s0; s1; s2] /\
    wf_channel now s0 /\ wf_channel now s1 /\ wf_channel now s2 /\
    irq_timer s0 <> None /\ irq_timer s1 = None /\ irq_timer s2 = None.

(** A handler that starts at [now] and ends at [now'] reads the clock in
    between. *)
Definition readings (now now' : Z) (clk : nat -> Z) : Prop :=
  now <= now' /\ forall i, now <= clk i <= now'.

Inductive reachable : Z -> PITState -> Prop :=
  | reach_reset clk now pit0 pit :
      0 <= now -> readings 0 now clk -> now <= horizon ->
      pit_init = Some pit0 -> pit_reset clk pit0 = Some pit -> reachable now pit
  | reach_again clk now now' pit pit' :
      reachable now pit -> readings now now' clk -> now' <= horizon ->
      pit_reset clk pit = Some pit' -> reachable now' pit'
  | reach_write clk now now' pit addr val pit' :
      reachable now pit -> readings now now' clk -> now' <= horizon -> is_u8 val ->
      pit_ioport_write clk pit addr val = Some pit' -> reachable now' pit'
  | reach_read now now' pit addr ret pit' :
      reachable now pit -> now <= now' <= horizon ->
      pit_ioport_read now' pit addr = Some (ret, pit') -> reachable now' pit'
  | reach_gate now now' pit channel val pit' :
      reachable now pit -> now <= now' <= horizon -> 0 <= channel < 3 -> 0 <= val <= 1 ->
      pit_set_gate now' pit channel val = Some pit' -> reachable now' pit'
  | reach_fire now now' pit s t pit' :
      reachable now pit -> now <= now' <= horizon ->
      channels pit !! 0%nat = Some s -> irq_timer s = Some (Some t) -> t <= now' ->
      on_channel 0 pit_irq_timer pit = Some pit' -> reachable now' pit'
  | reach_hpet_disable now pit pit' :
      reachable now pit -> hpet_pit_disable pit = Some pit' -> reachable now pit'
  | reach_hpet_enable now now' pit pit' :
      reachable now pit -> now <= now' <= horizon ->
      hpet_pit_enable now' pit = Some pit' -> reachable now' pit'.

(** *** Preservation, one channel *)

Ltac regs :=
  unfold wf_regs, ranges, counting, is_uint in *; cbn in *; split_and!; try tauto; try lia.

Lemma wf_regs_mono now now' s : now <= now' -> wf_regs now s -> wf_regs now' s.
Proof. unfold wf_regs. intros. split_and!; try tauto. lia. Qed.

Lemma wf_channel_mono now now' s : now <= now' -> wf_channel now s -> wf_channel now' s.
Proof. intros ? [? ?]. split; [by apply (wf_regs_mono now)|done]. Qed.

(** A change of registers that leaves the timer and the load time alone. *)
Definition same_timer (s s' : PITChannelState) : Prop :=
  irq_timer s' = irq_timer s /\ next_transition_time s' = next_transition_time s /\
  count_load_time s' = count_load_time s.

Lemma timer_ok_same s s' : same_timer s s' -> timer_ok s -> timer_ok s'.
Proof. unfold timer_ok. intros (-> & -> & ->). done. Qed.

Lemma update_wf now cur s :
  wf_regs now s -> count_load_time s <= cur <= now -> now <= horizon ->
  wf_channel now (pit_irq_timer_update cur s) /\
  (irq_timer (pit_irq_timer_update cur s) = None <-> irq_timer s = None).
Proof.
  intros Hr Hc Hh. assert (Hs : counting s) by apply Hr.
  unfold pit_irq_timer_update. destruct (irq_timer s) eqn:Et.
  - rewrite next_transition_eq by (done || lia).
    destruct (next_tick _ _) as [n|]; zcases; cbn.
    all: split; [split; [exact Hr|]|done]; unfold timer_ok; cbn; lia.
  - split; [|by rewrite Et]. split; [done|]. unfold timer_ok. by rewrite Et.
Qed.

(** What a channel operation has to guarantee. *)
Definition keeps (now : Z) (s s' : PITChannelState) : Prop :=
  wf_channel now s' /\ (irq_timer s' = None <-> irq_timer s = None).

Lemma load_count_keeps now val s :
  ranges s -> 0 <= now <= horizon -> 0 <= val <= 0xffff ->
  keeps now s (pit_load_count now val s).
Proof.
  intros Hr Hn Hv. unfold pit_load_count, keeps.
  set (v := if val =? 0 then _ else _).
  assert (1 <= v <= 0x10000) by (unfold v; zcases; lia). clearbody v.
  apply (update_wf now now (set_count v (set_count_load_time now s))); cbn; [regs|lia|lia].
Qed.

Lemma set_gate_keeps now val s :
  wf_channel now s -> 0 <= now <= horizon -> 0 <= val <= 1 ->
  keeps now s (pit_set_gate1 now val s).
Proof.
  intros [Hr Ht] Hn Hv. unfold pit_set_gate1, keeps.
  assert (G : forall x, is_u8 val -> wf_channel now x ->
    wf_channel now (set_gate (u8 val) x)).
  { intros x Hb [H1 H2]. split; [rewrite wrap_small by done; regs|exact H2]. }
  assert (is_u8 val) by (unfold is_uint; lia).
  destruct (_ || _); [|split; [by apply G|done]].
  destruct (gate s <? val); [|split; [by apply G|done]].
  destruct (update_wf now now (set_count_load_time now s)) as [U1 U2];
    [regs|cbn; lia|lia|]. split; [by apply G|done].
Qed.

Lemma latch_count_keeps now now' s :
  wf_channel now s -> keeps now s (pit_latch_count now' s).
Proof.
  intros [Hr Ht]. unfold pit_latch_count, keeps. destruct (_ =? 0); [|done].
  split; [|done]. split; [|by eapply timer_ok_same].
  pose proof (wrap_range 16 (pit_get_count now' s) ltac:(lia)). regs.
Qed.

Lemma status_latch_keeps now now' s :
  wf_channel now s -> keeps now s (status_latch now' s).
Proof.
  intros [Hr Ht]. unfold status_latch, keeps. destruct (_ =? 0); [|done].
  split; [|done]. split; [|by eapply timer_ok_same].
  pose proof (wrap_range 8 (pit_get_out1 s now' <<. 7 |. rw_mode s <<. 4 |. mode s <<. 1 |. bcd s)
    ltac:(lia)). regs.
Qed.

Lemma keeps_trans now s s' s'' : keeps now s s' -> keeps now s' s'' -> keeps now s s''.
Proof. unfold keeps. tauto. Qed.

Lemma keeps_refl now s : wf_channel now s -> keeps now s s.
Proof. done. Qed.

Lemma read_back_keeps now val i now1 now2 s :
  wf_channel now s -> keeps now s (read_back val i now1 now2 s).
Proof.
  intros Hs. unfold read_back. destruct (truthy (_ &. (2 <<. i))); [|done].
  apply (keeps_trans _ _ (if truthy (val &. 0x20) then s else pit_latch_count now1 s)).
  - destruct (truthy _); [done|by apply latch_count_keeps].
  - set (s1 := if truthy (val &. 0x20) then _ else _).
    assert (Hs1 : wf_channel now s1)
      by (unfold s1; destruct (truthy _); [done|by apply latch_count_keeps]).
    clearbody s1. destruct (truthy _); [by apply keeps_refl|by apply status_latch_keeps].
Qed.

Lemma control_word_keeps now now' val s :
  wf_channel now s -> is_u8 val ->
  keeps now s (control_word now' val ((val >>. 4) &. 3) s).
Proof.
  intros Hs Hv. unfold control_word. destruct (_ =? 0); [by apply latch_count_keeps|].
  destruct Hs as [Hr Ht]. split; [|done]. split; [|by eapply timer_ok_same].
  pose proof (is_uint_land_r 2 (val >>. 4) 3 ltac:(done) ltac:(lia)).
  pose proof (is_uint_land_r 3 (val >>. 1) 7 ltac:(done) ltac:(lia)).
  pose proof (is_uint_land_r 1 val 1 ltac:(done) ltac:(lia)).
  unfold is_uint in *. regs.
Qed.

Lemma word_of_bytes l h : is_u8 l -> is_u8 h ->
  s32 (l |. u32 (h <<. 8)) = l + 256 * h.
Proof.
  intros Hl Hh. assert (E : u32 (h <<. 8) = h <<. 8).
  { apply wrap_small. unfold is_uint in *. rewrite Z.shiftl_mul_pow2 by lia. lia. }
  rewrite E, Z.lor_comm, shiftl_lor_add by (done || lia).
  unfold is_uint in *. unfold swrap. rewrite Z.mod_small; lia.
Qed.

Lemma write_counter_keeps now val s :
  wf_channel now s -> 0 <= now <= horizon -> is_u8 val ->
  keeps now s (write_counter now val s).
Proof.
  intros [Hr Ht] Hn Hv. unfold write_counter.
  assert (Hl : is_u8 (write_latch s)) by (unfold wf_regs, ranges in Hr; tauto).
  
  pose proof (word_of_bytes _ val Hl Hv) as Ew.
  unfold is_uint in *.
  assert (E1 : s32 (val <<. 8) = 256 * val)
    by (rewrite Z.shiftl_mul_pow2 by lia; unfold swrap; rewrite Z.mod_small; lia).
  assert (E2 : s32 val = val) by (unfold swrap; rewrite Z.mod_small; lia).
  rewrite E1, E2, Ew.
  destruct (_ =? RW_STATE_MSB); [apply load_count_keeps; apply Hr || lia|].
  destruct (_ =? RW_STATE_WORD0).
  { split; [|done]. split; [|by eapply timer_ok_same].
    rewrite (wrap_small 8 val) by done. unfold RW_STATE_WORD1. regs. }
  destruct (_ =? RW_STATE_WORD1); [|apply load_count_keeps; apply Hr || lia].
  destruct (load_count_keeps now (write_latch s + 256 * val) s (proj2 Hr) Hn ltac:(lia)) as [[K1 K2] K3].
  split; [|exact K3]. split; [|by eapply timer_ok_same]. clear -K1. unfold RW_STATE_WORD0.
  unfold wf_regs, ranges, counting in *. cbn in *. split_and!; try tauto; lia.
Qed.

Lemma pit_get_count_range now s : counting s -> 0 <= pit_get_count now s <= 0x10000.
Proof.
  intros Hs. unfold pit_get_count. rewrite u64_count by done. destruct Hs as [Hc _].
  assert (M : forall x, 0 <= s32 (u64 (count s - x mod count s)) <= 0x10000).
  { intros x. pose proof (Z.mod_pos_bound x (count s) ltac:(lia)).
    rewrite (wrap_small 64) by (unfold is_uint; lia).
    unfold swrap. rewrite Z.mod_small; lia. }
  destruct (_ || _); [|destruct (_ =? 3); apply M].
  pose proof (is_uint_land_r 16 (u64 (count s - elapsed s now)) 0xffff ltac:(done) ltac:(lia)).
  unfold is_uint in *. lia.
Qed.

Lemma read_counter_keeps now now' s :
  wf_channel now s ->
  keeps now s (snd (read_counter now' s)) /\ is_u8 (fst (read_counter now' s)).
Proof.
  intros [Hr Ht].
  assert (B : forall x, is_u8 (x &. 0xff)) by (intros; apply is_uint_land_r; done || lia).
  assert (U : is_u16 (latched_count s)) by (unfold wf_regs, ranges in Hr; tauto).
  assert (Sb : is_u8 (status s)) by (unfold wf_regs, ranges in Hr; tauto).
  assert (L : is_u8 (latched_count s >>. 8)) by (apply (is_uint_shiftr 8 8); done || lia).
  assert (K : forall s', same_timer s s' -> wf_regs now s' -> keeps now s s').
  { intros s' Hs' Hr'. split; [split; [done|by eapply timer_ok_same]|].
    destruct Hs' as (-> & _). done. }
  unfold read_counter.
  repeat (destruct (truthy _)); repeat (destruct (_ =? _)); cbn [fst snd];
    (split; [|by auto]); apply K; try done;
    unfold RW_STATE_MSB, RW_STATE_WORD0, RW_STATE_WORD1; regs.
Qed.

Lemma fire_keeps now s t :
  wf_channel now s -> irq_timer s = Some (Some t) -> t <= now -> now <= horizon ->
  keeps now s (pit_irq_timer s).
Proof.
  intros [Hr Ht] Et Hn Hh. unfold pit_irq_timer, timer_ok in *. rewrite Et in Ht.
  destruct (update_wf now (next_transition_time s) (set_irq_timer (Some None) s)) as [U1 U2];
    [exact Hr|cbn; lia|done|]. split; [exact U1|].
  change (irq_timer (set_irq_timer (Some None) s)) with (Some (@None Z)) in U2.
  rewrite Et. split; [|done]. intros E. apply U2 in E. done.
Qed.

Lemma reset_keeps i now s :
  ranges s -> 0 <= now <= horizon -> keeps now s (pit_reset1 i now s).
Proof.
  intros Hr Hn. unfold pit_reset1.
  destruct (load_count_keeps now 0 (set_gate (of_bool (negb (i =? 2))) (set_mode 3 s)))
    as [K1 K2]; [|done|lia|split; [exact K1|exact K2]].
  assert (0 <= of_bool (negb (i =? 2)) <= 1) by (destruct (i =? 2); cbn; lia). regs.
Qed.

(** *** Preservation, the three channels *)

Lemma on_channel_wf now i f pit :
  wf_pit now pit -> 0 <= i < 3 -> (forall s, channels pit !! Z.to_nat i = Some s ->
    wf_channel now s -> keeps now s (f s)) ->
  exists pit', on_channel i f pit = Some pit' /\ wf_pit now pit'.
Proof.
  intros (s0 & s1 & s2 & E & W0 & W1 & W2 & T0 & T1 & T2) Hi Hf.
  unfold on_channel. rewrite E in *.
  assert (i = 0 \/ i = 1 \/ i = 2) as [-> | [-> | ->]] by lia; cbn;
    (eexists; split; [reflexivity|]); cbn in Hf.
  - destruct (Hf s0 eq_refl W0) as [K1 K2]. exists (f s0), s1, s2. cbn. tauto.
  - destruct (Hf s1 eq_refl W1) as [K1 K2]. exists s0, (f s1), s2. cbn. tauto.
  - destruct (Hf s2 eq_refl W2) as [K1 K2]. exists s0, s1, (f s2). cbn. tauto.
Qed.

Lemma wf_pit_mono now now' pit : now <= now' -> wf_pit now pit -> wf_pit now' pit.
Proof.
  intros Hn (s0 & s1 & s2 & E & W0 & W1 & W2 & T). exists s0, s1, s2.
  pose proof (wf_channel_mono now now'). auto 10.
Qed.

Lemma keeps_mono now now' s s' : now <= now' -> keeps now s s' -> keeps now' s s'.
Proof. intros Hn [H1 H2]. split; [by apply (wf_channel_mono now)|done]. Qed.

Lemma write_wf now now' clk pit addr val :
  wf_pit now pit -> 0 <= now -> readings now now' clk -> now' <= horizon -> is_u8 val ->
  exists pit', pit_ioport_write clk pit addr val = Some pit' /\ wf_pit now' pit'.
Proof.
  intros W H0 [Hn Hc] Hh Hv. apply (wf_pit_mono now now' pit Hn) in W as W'.
  assert (Ha := is_uint_land_r 2 addr 3 ltac:(done) ltac:(lia)).
  assert (Hch := is_uint_shiftr 2 6 val Hv ltac:(lia) ltac:(lia)). unfold is_uint in Ha, Hch.
  unfold pit_ioport_write. destruct (Z.eqb_spec (addr &. 3) 3) as [E|N].
  - destruct (Z.eqb_spec (val >>. 6) 3) as [E6|N6].
    + destruct (on_channel_wf now' 0 (read_back val 0 (clk 0%nat) (clk 1%nat)) pit W' ltac:(lia))
        as (p1 & -> & W1); [intros; by apply read_back_keeps|].
      destruct (on_channel_wf now' 1 (read_back val 1 (clk 2%nat) (clk 3%nat)) p1 W1 ltac:(lia))
        as (p2 & E2 & W2); [intros; by apply read_back_keeps|].
      cbn. rewrite E2. cbn. apply on_channel_wf; [done|lia|]. intros; by apply read_back_keeps.
    + apply on_channel_wf; [done|lia|]. intros; by apply control_word_keeps.
  - specialize (Hc 0%nat). apply (wf_pit_mono now (clk 0%nat)) in W; [|lia].
    destruct (on_channel_wf (clk 0%nat) (addr &. 3) (write_counter (clk 0%nat) val) pit W ltac:(lia))
      as (p & -> & Wp); [intros; apply write_counter_keeps; [done|lia|done]|].
    exists p. split; [done|]. apply (wf_pit_mono (clk 0%nat)); [lia|done].
Qed.

Lemma read_wf now pit addr :
  wf_pit now pit -> 0 <= addr < 3 ->
  exists ret pit', pit_ioport_read now pit addr = Some (ret, pit') /\ wf_pit now pit' /\ is_u8 ret.
Proof.
  intros W Ha. destruct (on_channel_wf now addr (fun s => snd (read_counter now s)) pit W Ha)
    as (p & Ep & Wp); [intros; by apply read_counter_keeps|].
  assert (Ea : addr &. 3 = addr) by
    (assert (addr = 0 \/ addr = 1 \/ addr = 2) as [-> | [-> | ->]] by lia; done).
  revert Ep. unfold on_channel, pit_ioport_read. rewrite Ea.
  destruct (channels pit !! Z.to_nat addr) as [s|] eqn:Es; [|done]. cbn. intros [= <-].
  destruct (read_counter now s) as [ret s'] eqn:Er. exists ret, (mkPIT (<[Z.to_nat addr:=s']> (channels pit))).
  split; [done|]. split; [exact Wp|]. change ret with (fst (ret, s')). rewrite <- Er.
  apply (read_counter_keeps now). destruct W as (s0 & s1 & s2 & E & W0 & W1 & W2 & _).
  rewrite E in Es. assert (addr = 0 \/ addr = 1 \/ addr = 2) as [-> | [-> | ->]] by lia;
    injection Es as <-; done.
Qed.

(** The channels before a reset: registers in range, and a timer on channel
    0 only. *)
Lemma reset_wf clk now now' pit s0 s1 s2 :
  channels pit = [s0; s1; s2] -> ranges s0 -> ranges s1 -> ranges s2 ->
  irq_timer s0 <> None -> irq_timer s1 = None -> irq_timer s2 = None ->
  0 <= now -> readings now now' clk -> now' <= horizon ->
  exists pit', pit_reset clk pit = Some pit' /\ wf_pit now' pit'.
Proof.
  intros E R0 R1 R2 T0 T1 T2 H0 [Hn Hc] Hh. unfold pit_reset, on_channel. rewrite E. cbn.
  assert (K : forall i s j, ranges s -> keeps now' s (pit_reset1 i (clk j) s)).
  { intros i s j Hr. specialize (Hc j). apply (keeps_mono (clk j)); [lia|].
    apply reset_keeps; [done|lia]. }
  pose proof (K 0 s0 0%nat R0) as [K0 K0']. pose proof (K 1 s1 1%nat R1) as [K1 K1'].
  pose proof (K 2 s2 2%nat R2) as [K2 K2'].
  eexists. split; [reflexivity|]. do 3 eexists. split; [reflexivity|]. tauto.
Qed.

Lemma wf_pit_reset now clk now' pit :
  wf_pit now pit -> 0 <= now -> readings now now' clk -> now' <= horizon ->
  exists pit', pit_reset clk pit = Some pit' /\ wf_pit now' pit'.
Proof.
  intros (s0 & s1 & s2 & E & [[_ R0] _] & [[_ R1] _] & [[_ R2] _] & T0 & T1 & T2).
  intros. by apply (reset_wf clk now now' pit s0 s1 s2).
Qed.

Lemma init_wf clk now pit0 :
  readings 0 now clk -> now <= horizon -> pit_init = Some pit0 ->
  exists pit, pit_reset clk pit0 = Some pit /\ wf_pit now pit.
Proof.
  intros Hc Hh [= <-].
  apply (reset_wf clk 0 now _ (set_irq_timer (Some None) channel_zero) channel_zero channel_zero);
    done || lia || (unfold ranges, is_uint; cbn; split_and!; lia).
Qed.

Lemma reachable_wf now pit : reachable now pit -> (0 <= now <= horizon) /\ wf_pit now pit.
Proof.
  intros H. induction H as [clk now p0 p ? Hc ? Hi Hr|clk now now' p p' _ [? IH] Hc ? Hr
    |clk now now' p addr val p' _ [? IH] Hc ? ? Hr|now now' p addr ret p' _ [? IH] ? Hr
    |now now' p ch val p' _ [? IH] ? ? ? Hr|now now' p s t p' _ [? IH] ? Hs Ht ? Hr
    |now p p' _ [? IH] Hr|now now' p p' _ [? IH] ? Hr].
  - split; [done|]. destruct (init_wf clk now p0 Hc ltac:(done) Hi) as (p'' & E & W).
    by rewrite E in Hr; simplify_eq.
  - split; [destruct Hc; lia|]. destruct (wf_pit_reset now clk now' p IH) as (p'' & E & W);
      [lia|done|done|]. by rewrite E in Hr; simplify_eq.
  - split; [destruct Hc; lia|]. destruct (write_wf now now' clk p addr val IH) as (p'' & E & W);
      [lia|done|done|done|]. by rewrite E in Hr; simplify_eq.
  - split; [lia|]. apply (wf_pit_mono now now') in IH; [|lia].
    assert (Ha := is_uint_land_r 2 addr 3 ltac:(done) ltac:(lia)). unfold is_uint in Ha.
    destruct (Z.eq_dec (addr &. 3) 3) as [E3|N3].
    { exfalso. revert Hr. unfold pit_ioport_read. rewrite E3.
      destruct IH as (s0 & s1 & s2 & -> & _). done. }
    destruct (read_wf now' p (addr &. 3) IH ltac:(lia)) as (r & p'' & E & W & _).
    unfold pit_ioport_read in *. rewrite <- Z.land_assoc in E.
    change (3 &. 3) with 3 in E. by rewrite E in Hr; simplify_eq.
  - split; [lia|]. apply (wf_pit_mono now now') in IH; [|lia].
    destruct (on_channel_wf now' ch (pit_set_gate1 now' val) p IH ltac:(lia)) as (p'' & E & W).
    { intros. apply set_gate_keeps; done || lia. }
    unfold pit_set_gate in Hr. by rewrite E in Hr; simplify_eq.
  - split; [lia|]. apply (wf_pit_mono now now') in IH; [|lia].
    destruct (on_channel_wf now' 0 pit_irq_timer p IH ltac:(lia)) as (p'' & E & W).
    { intros s' Es' Ws'. change (Z.to_nat 0) with 0%nat in Es'. simplify_eq.
      apply (fire_keeps now' s t); done || lia. }
    by rewrite E in Hr; simplify_eq.
  - split; [done|]. destruct (on_channel_wf now 0 hpet_disable1 p IH ltac:(lia)) as (p'' & E & W);
      [|unfold hpet_pit_disable in Hr; rewrite E in Hr; by simplify_eq].
    intros s _ [Wr Wt]. unfold hpet_disable1. destruct (irq_timer s) eqn:Et; [|done].
    split; [split; [exact Wr|done]|by rewrite Et].
  - split; [lia|]. apply (wf_pit_mono now now') in IH; [|lia].
    destruct (on_channel_wf now' 0 (hpet_enable1 now') p IH ltac:(lia)) as (p'' & E & W);
      [|unfold hpet_pit_enable in Hr; rewrite E in Hr; by simplify_eq].
    intros s _ [Wr Wt].
    destruct (load_count_keeps now' 0 (set_gate 1 (set_mode 3 s))) as [K1 K2];
      [regs|lia|lia|by split].
Qed.

(** In every reachable state the registers of the three channels are
    in range; in particular every loaded count is between 1 and 65536, so that no
    handler divides by zero; a byte written to any of the four ports and a
    read of the three readable ports stay inside the channel array, keep the
    state well formed, and the value read is a byte. *)
Theorem pit_reachable_ok now pit :
  reachable now pit ->
  wf_pit now pit /\
  (forall clk now' addr val, readings now now' clk -> now' <= horizon -> is_u8 val ->
    exists pit', pit_ioport_write clk pit addr val = Some pit' /\ wf_pit now' pit') /\
  (forall now' addr, now <= now' <= horizon -> 0 <= addr < 3 ->
    exists ret pit', pit_ioport_read now' pit addr = Some (ret, pit') /\
      wf_pit now' pit' /\ is_u8 ret).
Proof.
  intros H. apply reachable_wf in H as [Hn W]. split; [done|]. split.
  - intros. apply (write_wf now); done || lia.
  - intros. apply read_wf; [|done]. apply (wf_pit_mono now); [lia|done].
Qed.

Lemma pit_reachable_ok_witness :
  exists pit, reachable 1000 pit /\
    exists ret pit', pit_ioport_read 2000 pit 0 = Some (ret, pit') /\ is_u8 ret.
Proof.
  pose (r := pit ← pit_init; pit_reset (fun _ => 1000) pit).
  destruct r as [pit|] eqn:E; [|discriminate E].
  assert (R : reachable 1000 pit).
  { destruct pit_init as [p0|] eqn:E0; [|discriminate E0].
    apply (reach_reset (fun _ => 1000) 1000 p0); [lia| |unfold horizon; lia|exact E0|exact E].
    split; [lia|]. intros. lia. }
  exists pit. split; [exact R|].
  destruct (pit_reachable_ok 1000 pit R) as (_ & _ & H).
  destruct (H 2000 0) as (ret & pit' & H1 & _ & H2); [unfold horizon; lia|lia|].
  exists ret, pit'. split; [exact H1|exact H2].
Defined.

(** [muldiv64] is the exact quotient [a * b / c] whenever that fits 64
    bits, although the product needs 96. *)
Theorem muldiv64_exact a b c :
  is_u64 a -> is_u32 b -> 0 < c < 2 ^ 32 -> a * b < 2 ^ 64 * c ->
  muldiv64 a b c * c <= a * b < (muldiv64 a b c + 1) * c.
Proof.
  intros Ha Hb Hc Hq. rewrite muldiv64_quotient by done. unfold is_uint in *.
  assert (Hs : is_u64 (a * b / c)).
  { split; [apply Z.div_pos; nia|]. apply Z.div_lt_upper_bound; nia. }
  rewrite wrap_small by done.
  pose proof (Z.div_mod (a * b) c ltac:(lia)).
  pose proof (Z.mod_pos_bound (a * b) c ltac:(lia)). lia.
Qed.

Lemma muldiv64_exact_witness :
  muldiv64 (2 ^ 63) PIT_FREQ get_ticks_per_sec * get_ticks_per_sec <= 2 ^ 63 * PIT_FREQ
    < (muldiv64 (2 ^ 63) PIT_FREQ get_ticks_per_sec + 1) * get_ticks_per_sec.
Proof.
  apply (muldiv64_exact (2 ^ 63) PIT_FREQ get_ticks_per_sec);
    unfold is_uint, PIT_FREQ, get_ticks_per_sec; lia.
Defined.

(** ** Port protocols *)

Lemma on_channel_lookup i f pit s :
  channels pit !! Z.to_nat i = Some s ->
  on_channel i f pit = Some (mkPIT (<[Z.to_nat i := f s]> (channels pit))).
Proof. unfold on_channel. by intros ->. Qed.

Lemma write_port_counter clk pit ch val s :
  0 <= ch < 3 -> channels pit !! Z.to_nat ch = Some s ->
  pit_ioport_write clk pit ch val =
  Some (mkPIT (<[Z.to_nat ch := write_counter (clk 0%nat) val s]> (channels pit))).
Proof.
  intros Hc Hs. unfold pit_ioport_write.
  assert (E : ch &. 3 = ch) by
    (assert (ch = 0 \/ ch = 1 \/ ch = 2) as [-> | [-> | ->]] by lia; done).
  rewrite E. zcases. by apply on_channel_lookup.
Qed.

Lemma read_port_counter now pit ch s :
  0 <= ch < 3 -> channels pit !! Z.to_nat ch = Some s ->
  pit_ioport_read now pit ch =
  Some (fst (read_counter now s),
        mkPIT (<[Z.to_nat ch := snd (read_counter now s)]> (channels pit))).
Proof.
  intros Hc Hs. unfold pit_ioport_read.
  assert (E : ch &. 3 = ch) by
    (assert (ch = 0 \/ ch = 1 \/ ch = 2) as [-> | [-> | ->]] by lia; done).
  rewrite E, Hs. cbn. by destruct (read_counter now s).
Qed.

(** The control word for channel [ch], access mode [rw], mode [m]. *)
Definition control (ch rw m : Z) : Z := ch * 64 + rw * 16 + m * 2.

Lemma control_fields ch rw m :
  0 <= ch < 3 -> 0 <= rw <= 3 -> 0 <= m <= 7 ->
  control ch rw m >>. 6 = ch /\ (control ch rw m >>. 4) &. 3 = rw /\
  (control ch rw m >>. 1) &. 7 = m /\ control ch rw m &. 1 = 0.
Proof.
  intros. unfold control. rewrite land_7, !Z.shiftr_div_pow2 by lia.
  assert (E1 : forall x, x &. 1 = x mod 2) by (intros; by apply (Z.land_ones x 1)).
  assert (E3 : forall x, x &. 3 = x mod 4) by (intros; by apply (Z.land_ones x 2)).
  rewrite E1, E3. dlia.
Qed.

Lemma write_port_control clk pit ch rw m s :
  0 <= ch < 3 -> 0 <= rw <= 3 -> 0 <= m <= 7 -> channels pit !! Z.to_nat ch = Some s ->
  pit_ioport_write clk pit 3 (control ch rw m) =
  Some (mkPIT (<[Z.to_nat ch := control_word (clk 0%nat) (control ch rw m) rw s]> (channels pit))).
Proof.
  intros Hc Hr Hm Hs. destruct (control_fields ch rw m Hc Hr Hm) as (E1 & E2 & _).
  unfold pit_ioport_write. change (3 &. 3 =? 3) with true. cbv iota.
  rewrite E1, E2. zcases. by apply on_channel_lookup.
Qed.

Lemma load_count_regs now val s :
  let s' := pit_load_count now val s in
  count s' = (if val =? 0 then 0x10000 else val) /\ count_load_time s' = now /\
  mode s' = mode s /\ read_state s' = read_state s /\ rw_mode s' = rw_mode s /\
  latched_count s' = latched_count s /\ count_latched s' = count_latched s /\
  status_latched s' = status_latched s.
Proof.
  unfold pit_load_count, pit_irq_timer_update. cbn.
  destruct (irq_timer s); [|done]. by destruct (negb _).
Qed.

(** A sequence of writes to the counter ports. *)
Fixpoint counter_writes (l : list ((nat -> Z) * Z * Z)) (pit : PITState) : option PITState :=
  match l with
  | [] => Some pit
  | (clk, addr, val) :: l => pit ← pit_ioport_write clk pit addr val; counter_writes l pit
  end.

Definition latch_of (s : PITChannelState) : Z * Z * Z :=
  (latched_count s, count_latched s, status_latched s).

Lemma write_counter_latch now val s : latch_of (write_counter now val s) = latch_of s.
Proof.
  assert (L : forall v, latch_of (pit_load_count now v s) = latch_of s).
  { intros v. destruct (load_count_regs now v s) as (_ & _ & _ & _ & _ & E1 & E2 & E3).
    unfold latch_of. by rewrite E1, E2, E3. }
  unfold write_counter. destruct (_ =? RW_STATE_MSB); [apply L|].
  destruct (_ =? RW_STATE_WORD0); [done|].
  destruct (_ =? RW_STATE_WORD1); [|apply L].
  rewrite <- (L (s32 (write_latch s |. u32 (val <<. 8)))). done.
Qed.

Lemma counter_writes_latch l : forall pit pit' ch s,
  Forall (fun w => 0 <= snd (fst w) < 3) l -> counter_writes l pit = Some pit' ->
  channels pit !! ch = Some s ->
  exists s', channels pit' !! ch = Some s' /\ latch_of s' = latch_of s.
Proof.
  induction l as [|[[clk addr] val] l IH]; intros pit pit' ch s Hl E Hs.
  - injection E as <-. by exists s.
  - inversion_clear Hl as [|? ? Ha Hl']. cbn in Ha. cbn [counter_writes] in E.
    destruct (channels pit !! Z.to_nat addr) as [sa|] eqn:Esa.
    + rewrite (write_port_counter clk pit addr val sa) in E by done. cbn in E.
      destruct (decide (Z.to_nat addr = ch)) as [<-|Hne].
      * simplify_eq. edestruct IH as (s' & H1 & H2); [done|exact E| |].
        { cbn. apply list_lookup_insert_eq. by eapply lookup_lt_Some. }
        exists s'. split; [done|]. by rewrite H2, write_counter_latch.
      * eapply IH; [done|exact E|]. cbn. by rewrite list_lookup_insert_ne.
    + exfalso. revert E. unfold pit_ioport_write, on_channel.
      assert (Ea : addr &. 3 = addr) by
        (assert (addr = 0 \/ addr = 1 \/ addr = 2) as [-> | [-> | ->]] by lia; done).
      rewrite Ea. zcases. by rewrite Esa.
Qed.

(** The counter latch.  A latch command for a channel in two-byte
    access mode freezes the count: whatever is then written to the counter
    ports, and whenever the two bytes are read, they are the low and high byte
    of the count at the time of the command; after the second read the latch is
    open again. *)
Theorem pit_latch_reads_count clk l t1 t2 pit ch s pit1 pit2 :
  0 <= ch < 3 -> channels pit !! Z.to_nat ch = Some s ->
  counting s -> rw_mode s = 3 -> count_latched s = 0 -> status_latched s = 0 ->
  pit_ioport_write clk pit 3 (control ch 0 0) = Some pit1 ->
  Forall (fun w => 0 <= snd (fst w) < 3) l -> counter_writes l pit1 = Some pit2 ->
  let c := pit_get_count (clk 0%nat) s in
  exists pit3 pit4 s4,
    pit_ioport_read t1 pit2 ch = Some (c mod 256, pit3) /\
    pit_ioport_read t2 pit3 ch = Some (c / 256 mod 256, pit4) /\
    channels pit4 !! Z.to_nat ch = Some s4 /\ count_latched s4 = 0.
Proof.
  intros Hch Hs Hc Hrw Hcl Hsl E1 Hl E2 c.
  rewrite (write_port_control clk pit ch 0 0 s) in E1 by (done || lia).
  injection E1 as <-. assert (Hlen := lookup_lt_Some _ _ _ Hs).
  set (s1 := control_word _ _ _ s) in E2.
  assert (L : latch_of s1 = (u16 c, 3, 0)).
  { unfold s1, control_word, pit_latch_count, latch_of. rewrite Hcl. cbn.
    by rewrite Hrw, Hsl. }
  destruct (counter_writes_latch l _ pit2 (Z.to_nat ch) s1 Hl E2) as (s2 & Hs2 & Hlt).
  { cbn. by apply list_lookup_insert_eq. }
  rewrite L in Hlt. unfold latch_of in Hlt. injection Hlt as L1 L2 L3. clear E2 L.
  assert (Hlen2 := lookup_lt_Some _ _ _ Hs2).
  set (s3 := set_count_latched RW_STATE_MSB s2).
  assert (Hcr := pit_get_count_range (clk 0%nat) s Hc). fold c in L1, Hcr.
  assert (V1 : read_counter t1 s2 = (c mod 256, s3)).
  { unfold read_counter. rewrite L2, L3. cbn -[Z.land]. f_equal. rewrite L1.
    change 0xff with (Z.ones 8). rewrite Z.land_ones by lia. unfold wrap. dlia. }
  assert (V2 : read_counter t2 s3 = (c / 256 mod 256, set_count_latched 0 s3)).
  { unfold read_counter, s3. cbn -[Z.shiftr]. rewrite L3. cbn -[Z.shiftr]. f_equal. rewrite L1.
    rewrite Z.shiftr_div_pow2 by lia. unfold wrap. dlia. }
  pose (p3 := mkPIT (<[Z.to_nat ch := s3]> (channels pit2))).
  assert (Hs3 : channels p3 !! Z.to_nat ch = Some s3) by (by apply list_lookup_insert_eq).
  exists p3, (mkPIT (<[Z.to_nat ch := set_count_latched 0 s3]> (channels p3))),
    (set_count_latched 0 s3).
  rewrite (read_port_counter t1 pit2 ch s2), V1 by done. split; [done|].
  rewrite (read_port_counter t2 p3 ch s3), V2 by done. split; [done|].
  split; [|done]. apply list_lookup_insert_eq. cbn. by rewrite length_insert.
Qed.

(** The pit as [pit_init] and [pit_reset] at time 1000 leave it. *)
Definition sample_pit : PITState :=
  default pit_state (pit ← pit_init; pit_reset (fun _ => 1000) pit).

Definition sample_programmed : PITState :=
  default pit_state (pit_ioport_write (fun _ => 2000) sample_pit 3 (control 0 3 2)).
Definition sample_ch0 : PITChannelState :=
  default channel_zero (channels sample_programmed !! 0%nat).
Definition sample_latched : PITState :=
  default pit_state (pit_ioport_write (fun _ => 9000000) sample_programmed 3 (control 0 0 0)).

Lemma pit_latch_reads_count_witness :
  exists pit3 pit4, pit_ioport_read 20000000 sample_latched 0 = Some (15, pit3) /\
    pit_ioport_read 30000000 pit3 0 = Some (214, pit4).
Proof.
  destruct (pit_latch_reads_count (fun _ => 9000000) [] 20000000 30000000 sample_programmed 0
    sample_ch0 sample_latched sample_latched ltac:(lia) ltac:(reflexivity)
    ltac:(repeat split; vm_compute; discriminate) ltac:(reflexivity) ltac:(reflexivity)
    ltac:(reflexivity) ltac:(reflexivity) ltac:(apply Forall_nil_2) ltac:(reflexivity))
    as (p3 & p4 & s4 & H1 & H2 & _).
  exists p3, p4. split; [exact H1|exact H2].
Defined.

(** The count just after a load. *)
Lemma fresh_count now s lsb msb :
  is_u8 lsb -> is_u8 msb -> 0 <= now <= horizon ->
  count s = (if lsb + 256 * msb =? 0 then 0x10000 else lsb + 256 * msb) ->
  count_load_time s = now ->
  pit_get_count now s &. 0xff = lsb /\ (pit_get_count now s >>. 8) &. 0xff = msb.
Proof.
  unfold is_uint. intros Hl Hh Hn Ec Et.
  assert (E0 : elapsed s now = 0) by (rewrite elapsed_eq, Et, Z.sub_diag by lia; done).
  assert (Hs : counting s) by (unfold counting; rewrite Ec, Et; zcases; lia).
  assert (E : pit_get_count now s mod 0x10000 = lsb + 256 * msb).
  { unfold pit_get_count. rewrite u64_count, E0 by done. destruct Hs as [Hc _].
    change (u64 (2 * 0)) with 0. rewrite Z.mod_0_l, !Z.sub_0_r by lia.
    rewrite (wrap_small 64) by (unfold is_uint; lia).
    assert (s32 (count s) = count s) as -> by (unfold swrap; rewrite Z.mod_small; lia).
    change 0xffff with (Z.ones 16). rewrite Z.land_ones by lia. rewrite Ec.
    destruct (_ || _); [|destruct (_ =? 3)]; zcases; dlia. }
  change 0xff with (Z.ones 8). rewrite !Z.land_ones, Z.shiftr_div_pow2 by lia. dlia.
Qed.

Lemma pit_get_count_ext now s s' :
  count s' = count s -> mode s' = mode s -> count_load_time s' = count_load_time s ->
  pit_get_count now s' = pit_get_count now s.
Proof. unfold pit_get_count, elapsed. by intros -> -> ->. Qed.

(** Programming a channel.  After a control word with two-byte access
    and mode [m], and the two bytes of the count, the channel counts from that
    number (65536 for 0) in mode [m] from the time of the second byte on, the
    other channels are as before, and reading the port back at that moment
    returns the two bytes that were written. *)
Theorem pit_program_and_read_back clk0 clk1 clk2 pit ch m lsb msb s :
  0 <= ch < 3 -> 0 <= m <= 7 -> is_u8 lsb -> is_u8 msb ->
  channels pit !! Z.to_nat ch = Some s -> count_latched s = 0 -> status_latched s = 0 ->
  0 <= clk2 0%nat <= horizon ->
  let now := clk2 0%nat in
  let n := lsb + 256 * msb in
  exists pit1 pit2 pit3 pit4 pit5 s',
    pit_ioport_write clk0 pit 3 (control ch 3 m) = Some pit1 /\
    pit_ioport_write clk1 pit1 ch lsb = Some pit2 /\
    pit_ioport_write clk2 pit2 ch msb = Some pit3 /\
    channels pit3 = <[Z.to_nat ch := s']> (channels pit) /\
    count s' = (if n =? 0 then 0x10000 else n) /\ mode s' = m /\ count_load_time s' = now /\
    pit_ioport_read now pit3 ch = Some (lsb, pit4) /\
    pit_ioport_read now pit4 ch = Some (msb, pit5).
Proof.
  intros Hch Hm Hl Hh Hs Hcl Hsl Hn now n.
  assert (Hlen := lookup_lt_Some _ _ _ Hs).
  destruct (control_fields ch 3 m Hch ltac:(lia) Hm) as (_ & _ & E3 & E4).
  set (s1 := control_word (clk0 0%nat) (control ch 3 m) 3 s).
  set (s2 := set_write_state RW_STATE_WORD1 (set_write_latch lsb s1)).
  set (s3 := set_write_state RW_STATE_WORD0 (pit_load_count now n s2)).
  assert (W1 : write_counter (clk1 0%nat) lsb s1 = s2)
    by (unfold s2, write_counter; cbn; by rewrite (wrap_small 8 lsb)).
  assert (W2 : write_counter now msb s2 = s3)
    by (unfold s3, write_counter; cbn -[pit_load_count]; by rewrite word_of_bytes).
  destruct (load_count_regs now n s2) as (R1 & R2 & R3 & R4 & _ & _ & R7 & R8).
  set (s4 := set_read_state RW_STATE_WORD1 s3).
  destruct (fresh_count now s3 lsb msb Hl Hh Hn R1 R2) as [C1 C2].
  assert (V3 : read_counter now s3 = (lsb, s4)).
  { unfold read_counter, s3. cbn -[pit_load_count pit_get_count].
    rewrite R8, R7, R4. cbn -[pit_load_count pit_get_count].
    rewrite Hsl, Hcl. cbn -[pit_load_count pit_get_count]. f_equal. exact C1. }
  assert (V4 : fst (read_counter now s4) = msb).
  { assert (Ec : pit_get_count now s4 = pit_get_count now s3) by (by apply pit_get_count_ext).
    unfold read_counter. rewrite Ec. unfold s4. cbn -[pit_load_count pit_get_count].
    rewrite R8, R7. cbn -[pit_load_count pit_get_count].
    rewrite Hsl, Hcl. cbn -[pit_load_count pit_get_count]. exact C2. }
  pose (upd := fun x => mkPIT (<[Z.to_nat ch := x]> (channels pit))).
  assert (Hu : forall x, channels (upd x) !! Z.to_nat ch = Some x)
    by (intros; by apply list_lookup_insert_eq).
  assert (Huu : forall x y, mkPIT (<[Z.to_nat ch := y]> (channels (upd x))) = upd y)
    by (intros; unfold upd; cbn; by rewrite list_insert_insert_eq).
  exists (upd s1), (upd s2), (upd s3), (upd s4), (upd (snd (read_counter now s4))), s3.
  rewrite (write_port_control clk0 pit ch 3 m s) by (done || lia).
  rewrite (write_port_counter clk1 (upd s1) ch lsb s1), W1, Huu by done.
  rewrite (write_port_counter clk2 (upd s2) ch msb s2) by done. fold now. rewrite W2, Huu.
  rewrite (read_port_counter now (upd s3) ch s3), V3, Huu by done.
  rewrite (read_port_counter now (upd s4) ch s4), V4, Huu by done.
  split_and!; try done. unfold s3. cbn -[pit_load_count]. rewrite R3. exact E3.
Qed.

Lemma pit_program_and_read_back_witness :
  exists pit3 pit4 pit5,
    pit_ioport_read 7000 pit3 0 = Some (0x9c, pit4) /\
    pit_ioport_read 7000 pit4 0 = Some (0x2e, pit5).
Proof.
  destruct (pit_program_and_read_back (fun _ => 5000) (fun _ => 6000) (fun _ => 7000)
    sample_programmed 0 2 0x9c 0x2e sample_ch0 ltac:(lia) ltac:(lia) ltac:(done) ltac:(done)
    ltac:(reflexivity) ltac:(reflexivity) ltac:(reflexivity) ltac:(unfold horizon; lia))
    as (p1 & p2 & p3 & p4 & p5 & s' & _ & _ & _ & _ & _ & _ & _ & H1 & H2).
  exists p3, p4, p5. split; [exact H1|exact H2].
Defined.

End I8254.
