(* ===== verification/PS2.v ===== *)
(** * PS/2 keyboard and mouse (src/qemu/hw/ps2.c)

    The devices own a 256-byte ring buffer towards the keyboard controller and
    call the controller back through [update_irq(update_arg, level)].  The
    function pointer and its opaque argument are the section's [update_irq],
    acting on a host state of type [H] that every operation threads; what the
    devices rely on is the class [IrqHost]: the callback sets an interrupt line
    to the level passed.  The key LEDs sent to the user interface are logged.

    The theorems: the ring buffer is a bounded FIFO; the host's line is high
    exactly while bytes wait; the command protocols of keyboard and mouse; the
    movement packets lose no motion and the sending loop ends. *)
From S2P Require Import Prelude.

Module PS2.

(** ** Constants *)

Definition KBD_CMD_SET_LEDS : Z := 0xED.
Definition KBD_CMD_ECHO : Z := 0xEE.
Definition KBD_CMD_SCANCODE : Z := 0xF0.
Definition KBD_CMD_GET_ID : Z := 0xF2.
Definition KBD_CMD_SET_RATE : Z := 0xF3.
Definition KBD_CMD_ENABLE : Z := 0xF4.
Definition KBD_CMD_RESET_DISABLE : Z := 0xF5.
Definition KBD_CMD_RESET_ENABLE : Z := 0xF6.
Definition KBD_CMD_RESET : Z := 0xFF.
Definition KBD_REPLY_POR : Z := 0xAA.
Definition KBD_REPLY_ID : Z := 0xAB.
Definition KBD_REPLY_ACK : Z := 0xFA.
Definition KBD_REPLY_RESEND : Z := 0xFE.
Definition AUX_SET_SCALE11 : Z := 0xE6.
Definition AUX_SET_SCALE21 : Z := 0xE7.
Definition AUX_SET_RES : Z := 0xE8.
Definition AUX_GET_SCALE : Z := 0xE9.
Definition AUX_SET_STREAM : Z := 0xEA.
Definition AUX_POLL : Z := 0xEB.
Definition AUX_RESET_WRAP : Z := 0xEC.
Definition AUX_SET_WRAP : Z := 0xEE.
Definition AUX_SET_REMOTE : Z := 0xF0.
Definition AUX_GET_TYPE : Z := 0xF2.
Definition AUX_SET_SAMPLE : Z := 0xF3.
Definition AUX_ENABLE_DEV : Z := 0xF4.
Definition AUX_DISABLE_DEV : Z := 0xF5.
Definition AUX_SET_DEFAULT : Z := 0xF6.
Definition AUX_RESET : Z := 0xFF.
Definition AUX_ACK : Z := 0xFA.
Definition MOUSE_STATUS_REMOTE : Z := 0x40.
Definition MOUSE_STATUS_ENABLED : Z := 0x20.
Definition MOUSE_STATUS_SCALE21 : Z := 0x10.
Definition PS2_QUEUE_SIZE : Z := 256.

(** ** State *)

Record PS2Queue := mkQueue {
  data : list Z;
  rptr : Z;
  wptr : Z;
  count : Z
}.

Definition set_data (v : list Z) (s : PS2Queue) : PS2Queue :=
  mkQueue v (rptr s) (wptr s) (count s).
Definition set_rptr (v : Z) (s : PS2Queue) : PS2Queue :=
  mkQueue (data s) v (wptr s) (count s).
Definition set_wptr (v : Z) (s : PS2Queue) : PS2Queue :=
  mkQueue (data s) (rptr s) v (count s).
Definition set_count (v : Z) (s : PS2Queue) : PS2Queue :=
  mkQueue (data s) (rptr s) (wptr s) v.

Record PS2State := mkPS2 {
  queue : PS2Queue;
  write_cmd : Z
}.

Definition set_queue (v : PS2Queue) (s : PS2State) : PS2State :=
  mkPS2 v (write_cmd s).
Definition set_write_cmd (v : Z) (s : PS2State) : PS2State :=
  mkPS2 (queue s) v.

Record PS2KbdState := mkKbd {
  kcommon : PS2State;
  scan_enabled : Z;
  translate : Z;
  scancode_set : Z;
  led_log : list Z
}.

Definition set_kcommon (v : PS2State) (s : PS2KbdState) : PS2KbdState :=
  mkKbd v (scan_enabled s) (translate s) (scancode_set s) (led_log s).
Definition set_scan_enabled (v : Z) (s : PS2KbdState) : PS2KbdState :=
  mkKbd (kcommon s) v (translate s) (scancode_set s) (led_log s).
Definition set_translate (v : Z) (s : PS2KbdState) : PS2KbdState :=
  mkKbd (kcommon s) (scan_enabled s) v (scancode_set s) (led_log s).
Definition set_scancode_set (v : Z) (s : PS2KbdState) : PS2KbdState :=
  mkKbd (kcommon s) (scan_enabled s) (translate s) v (led_log s).
Definition set_led_log (v : list Z) (s : PS2KbdState) : PS2KbdState :=
  mkKbd (kcommon s) (scan_enabled s) (translate s) (scancode_set s) v.

Record PS2MouseState := mkMouse {
  mcommon : PS2State;
  mouse_status : Z;
  mouse_resolution : Z;
  mouse_sample_rate : Z;
  mouse_wrap : Z;
  mouse_type : Z;
  mouse_detect_state : Z;
  mouse_dx : Z;
  mouse_dy : Z;
  mouse_dz : Z;
  mouse_buttons : Z
}.

Definition set_mcommon (v : PS2State) (s : PS2MouseState) : PS2MouseState :=
  mkMouse v (mouse_status s) (mouse_resolution s) (mouse_sample_rate s) (mouse_wrap s)
    (mouse_type s) (mouse_detect_state s) (mouse_dx s) (mouse_dy s) (mouse_dz s)
    (mouse_buttons s).
Definition set_mouse_status (v : Z) (s : PS2MouseState) : PS2MouseState :=
  mkMouse (mcommon s) v (mouse_resolution s) (mouse_sample_rate s) (mouse_wrap s)
    (mouse_type s) (mouse_detect_state s) (mouse_dx s) (mouse_dy s) (mouse_dz s)
    (mouse_buttons s).
Definition set_mouse_resolution (v : Z) (s : PS2MouseState) : PS2MouseState :=
  mkMouse (mcommon s) (mouse_status s) v (mouse_sample_rate s) (mouse_wrap s) (mouse_type
    s) (mouse_detect_state s) (mouse_dx s) (mouse_dy s) (mouse_dz s) (mouse_buttons s).
Definition set_mouse_sample_rate (v : Z) (s : PS2MouseState) : PS2MouseState :=
  mkMouse (mcommon s) (mouse_status s) (mouse_resolution s) v (mouse_wrap s) (mouse_type
    s) (mouse_detect_state s) (mouse_dx s) (mouse_dy s) (mouse_dz s) (mouse_buttons s).
Definition set_mouse_wrap (v : Z) (s : PS2MouseState) : PS2MouseState :=
  mkMouse (mcommon s) (mouse_status s) (mouse_resolution s) (mouse_sample_rate s) v
    (mouse_type s) (mouse_detect_state s) (mouse_dx s) (mouse_dy s) (mouse_dz s)
    (mouse_buttons s).
Definition set_mouse_type (v : Z) (s : PS2MouseState) : PS2MouseState :=
  mkMouse (mcommon s) (mouse_status s) (mouse_resolution s) (mouse_sample_rate s)
    (mouse_wrap s) v (mouse_detect_state s) (mouse_dx s) (mouse_dy s) (mouse_dz s)
    (mouse_buttons s).
Definition set_mouse_detect_state (v : Z) (s : PS2MouseState) : PS2MouseState :=
  mkMouse (mcommon s) (mouse_status s) (mouse_resolution s) (mouse_sample_rate s)
    (mouse_wrap s) (mouse_type s) v (mouse_dx s) (mouse_dy s) (mouse_dz s) (mouse_buttons
    s).
Definition set_mouse_dx (v : Z) (s : PS2MouseState) : PS2MouseState :=
  mkMouse (mcommon s) (mouse_status s) (mouse_resolution s) (mouse_sample_rate s)
    (mouse_wrap s) (mouse_type s) (mouse_detect_state s) v (mouse_dy s) (mouse_dz s)
    (mouse_buttons s).
Definition set_mouse_dy (v : Z) (s : PS2MouseState) : PS2MouseState :=
  mkMouse (mcommon s) (mouse_status s) (mouse_resolution s) (mouse_sample_rate s)
    (mouse_wrap s) (mouse_type s) (mouse_detect_state s) (mouse_dx s) v (mouse_dz s)
    (mouse_buttons s).
Definition set_mouse_dz (v : Z) (s : PS2MouseState) : PS2MouseState :=
  mkMouse (mcommon s) (mouse_status s) (mouse_resolution s) (mouse_sample_rate s)
    (mouse_wrap s) (mouse_type s) (mouse_detect_state s) (mouse_dx s) (mouse_dy s) v
    (mouse_buttons s).
Definition set_mouse_buttons (v : Z) (s : PS2MouseState) : PS2MouseState :=
  mkMouse (mcommon s) (mouse_status s) (mouse_resolution s) (mouse_sample_rate s)
    (mouse_wrap s) (mouse_type s) (mouse_detect_state s) (mouse_dx s) (mouse_dy s)
    (mouse_dz s) v.

Definition ps2_raw_keycode : list Z := [
    0;118; 22; 30; 38; 37; 46; 54; 61; 62; 70; 69; 78; 85;102; 13;
   21; 29; 36; 45; 44; 53; 60; 67; 68; 77; 84; 91; 90; 20; 28; 27;
   35; 43; 52; 51; 59; 66; 75; 76; 82; 14; 18; 93; 26; 34; 33; 42;
   50; 49; 58; 65; 73; 74; 89;124; 17; 41; 88;  5;  6;  4; 12;  3;
   11;  2; 10;  1;  9;119;126;108;117;125;123;107;115;116;121;105;
  114;122;112;113;127; 96; 97;120;  7; 15; 23; 31; 39; 47; 55; 63;
   71; 79; 86; 94;  8; 16; 24; 32; 40; 48; 56; 64; 72; 80; 87;111;
   19; 25; 57; 81; 83; 92; 95; 98; 99;100;101;103;104;106;109;110].

(** Sequencing of steps on a state: [f >>> g] runs [f] first. *)
Definition then_ {S : Type} (f g : S -> S) : S -> S := fun s => g (f s).
Notation "f >>> g" := (then_ f g) (at level 90, right associativity) : c_scope.

Section Device.
Context {H : Type} (update_irq : Z -> H -> H).

(** ** The queue *)

Definition ps2_queue (b : Z) (sh : PS2State * H) : PS2State * H :=
  let '(s, h) := sh in
  let q := queue s in
  if PS2_QUEUE_SIZE <=? count q then (s, h)
  else
    let q := set_data (aset (data q) (wptr q) (u8 b)) q in
    let q := set_wptr (wptr q + 1) q in
    let q := if wptr q =? PS2_QUEUE_SIZE then set_wptr 0 q else q in
    let q := set_count (count q + 1) q in
    (set_queue q s, update_irq 1 h).

Definition ps2_read_data (sh : PS2State * H) : Z * (PS2State * H) :=
  let '(s, h) := sh in
  let q := queue s in
  if count q =? 0 then
    let index := rptr q - 1 in
    let index := if index <? 0 then PS2_QUEUE_SIZE - 1 else index in
    (aget (data q) index, (s, h))
  else
    let val := aget (data q) (rptr q) in
    let q := set_rptr (rptr q + 1) q in
    let q := if rptr q =? PS2_QUEUE_SIZE then set_rptr 0 q else q in
    let q := set_count (count q - 1) q in
    let h := update_irq 0 h in
    let h := update_irq (of_bool (negb (count q =? 0))) h in
    (val, (set_queue q s, h)).

Definition ps2_common_reset (sh : PS2State * H) : PS2State * H :=
  let '(s, h) := sh in
  let s := set_write_cmd (-1) s in
  let q := set_count 0 (set_wptr 0 (set_rptr 0 (queue s))) in
  (set_queue q s, update_irq 0 h).

(** ** The keyboard *)

(** A step on [&s->common], and a step on the keyboard alone. *)
Definition on_kcommon (f : PS2State * H -> PS2State * H) (sh : PS2KbdState * H)
    : PS2KbdState * H :=
  let '(c, h) := f (kcommon (fst sh), snd sh) in (set_kcommon c (fst sh), h).
Definition kbd_set (f : PS2KbdState -> PS2KbdState) (sh : PS2KbdState * H) : PS2KbdState * H :=
  (f (fst sh), snd sh).
Definition kbd_write_cmd (v : Z) : PS2KbdState * H -> PS2KbdState * H :=
  kbd_set (fun s => set_kcommon (set_write_cmd v (kcommon s)) s).

Definition ps2_put_keycode (keycode : Z) (sh : PS2KbdState * H) : PS2KbdState * H :=
  let s := fst sh in
  if (translate s =? 0) && (keycode <? 0xe0) && (scancode_set s =? 2) then
    let sh := if truthy (keycode &. 0x80) then on_kcommon (ps2_queue 0xf0) sh else sh in
    on_kcommon (ps2_queue (aget ps2_raw_keycode (keycode &. 0x7f))) sh
  else on_kcommon (ps2_queue keycode) sh.

Definition kbd_put_ledstate (v : Z) (s : PS2KbdState) : PS2KbdState :=
  set_led_log (v :: led_log s) s.

Definition ps2_reset_keyboard (s : PS2KbdState) : PS2KbdState :=
  let s := set_scan_enabled 1 s in
  let s := set_scancode_set 2 s in
  kbd_put_ledstate 0 s.

(** The inner [switch]: a command byte. *)
Definition keyboard_command (val : Z) (sh : PS2KbdState * H) : PS2KbdState * H :=
  let ack := on_kcommon (ps2_queue KBD_REPLY_ACK) in
  if val =? 0x00 then ack sh
  else if val =? 0x05 then on_kcommon (ps2_queue KBD_REPLY_RESEND) sh
  else if val =? KBD_CMD_GET_ID then
    (ack >>> on_kcommon (ps2_queue KBD_REPLY_ID) >>>
     on_kcommon (ps2_queue (if truthy (translate (fst sh)) then 0x41 else 0x83))) sh
  else if val =? KBD_CMD_ECHO then on_kcommon (ps2_queue KBD_CMD_ECHO) sh
  else if val =? KBD_CMD_ENABLE then (kbd_set (set_scan_enabled 1) >>> ack) sh
  else if (val =? KBD_CMD_SCANCODE) || (val =? KBD_CMD_SET_LEDS) || (val =? KBD_CMD_SET_RATE)
  then (kbd_write_cmd val >>> ack) sh
  else if val =? KBD_CMD_RESET_DISABLE then
    (kbd_set ps2_reset_keyboard >>> kbd_set (set_scan_enabled 0) >>> ack) sh
  else if val =? KBD_CMD_RESET_ENABLE then
    (kbd_set ps2_reset_keyboard >>> kbd_set (set_scan_enabled 1) >>> ack) sh
  else if val =? KBD_CMD_RESET then
    (kbd_set ps2_reset_keyboard >>> ack >>> on_kcommon (ps2_queue KBD_REPLY_POR)) sh
  else ack sh.

Definition ps2_write_keyboard (val : Z) (sh : PS2KbdState * H) : PS2KbdState * H :=
  let ack := on_kcommon (ps2_queue KBD_REPLY_ACK) in
  let cmd := write_cmd (kcommon (fst sh)) in
  if cmd =? KBD_CMD_SCANCODE then
    let set := scancode_set (fst sh) in
    ((if val =? 0 then
        if set =? 1 then ps2_put_keycode 0x43
        else if set =? 2 then ps2_put_keycode 0x41
        else if set =? 3 then ps2_put_keycode 0x3f
        else id
      else
        (if (1 <=? val) && (val <=? 3) then kbd_set (set_scancode_set val) else id) >>> ack) >>>
     kbd_write_cmd (-1)) sh
  else if cmd =? KBD_CMD_SET_LEDS then
    (kbd_set (kbd_put_ledstate val) >>> ack >>> kbd_write_cmd (-1)) sh
  else if cmd =? KBD_CMD_SET_RATE then (ack >>> kbd_write_cmd (-1)) sh
  else keyboard_command val sh.

Definition ps2_keyboard_set_translation (mode : Z) (s : PS2KbdState) : PS2KbdState :=
  set_translate mode s.

Definition ps2_kbd_reset (sh : PS2KbdState * H) : PS2KbdState * H :=
  (on_kcommon ps2_common_reset >>>
   kbd_set (set_scan_enabled 0) >>> kbd_set (set_translate 0) >>> kbd_set (set_scancode_set 0)) sh.

(** ** The mouse *)

Definition on_mcommon (f : PS2State * H -> PS2State * H) (sh : PS2MouseState * H)
    : PS2MouseState * H :=
  let '(c, h) := f (mcommon (fst sh), snd sh) in (set_mcommon c (fst sh), h).
Definition mouse_set (f : PS2MouseState -> PS2MouseState) (sh : PS2MouseState * H)
    : PS2MouseState * H := (f (fst sh), snd sh).
Definition mouse_write_cmd (v : Z) : PS2MouseState * H -> PS2MouseState * H :=
  mouse_set (fun s => set_mcommon (set_write_cmd v (mcommon s)) s).

Definition clamp (n d : Z) : Z := if n <? d then n else if d <? - n then - n else d.

Definition ps2_mouse_send_packet (sh : PS2MouseState * H) : PS2MouseState * H :=
  let s := fst sh in
  let dx1 := clamp 127 (mouse_dx s) in
  let dy1 := clamp 127 (mouse_dy s) in
  let b := 0x08 |. of_bool (dx1 <? 0) <<. 4 |. of_bool (dy1 <? 0) <<. 5
           |. (mouse_buttons s &. 0x07) in
  let sh := on_mcommon (ps2_queue b) sh in
  let sh := on_mcommon (ps2_queue (dx1 &. 0xff)) sh in
  let sh := on_mcommon (ps2_queue (dy1 &. 0xff)) sh in
  let '(dz1, sh) :=
    if mouse_type s =? 3 then
      let dz1 := clamp 127 (mouse_dz s) in
      (dz1, on_mcommon (ps2_queue (dz1 &. 0xff)) sh)
    else if mouse_type s =? 4 then
      let dz1 := clamp 7 (mouse_dz s) in
      (dz1, on_mcommon (ps2_queue ((dz1 &. 0x0f) |. (mouse_buttons s &. 0x18) <<. 1)) sh)
    else (mouse_dz s, sh) in
  (mouse_set (fun s => set_mouse_dx (mouse_dx s - dx1) s) >>>
   mouse_set (fun s => set_mouse_dy (mouse_dy s - dy1) s) >>>
   mouse_set (fun s => set_mouse_dz (mouse_dz s - dz1) s)) sh.

Definition at_rest (s : PS2MouseState) : bool :=
  (mouse_dx s =? 0) && (mouse_dy s =? 0) && (mouse_dz s =? 0).

(** The loop of [ps2_mouse_event]; [None] if [fuel] packets are not enough. *)
Fixpoint send_packets (fuel : nat) (sh : PS2MouseState * H) : option (PS2MouseState * H) :=
  match fuel with
  | O => None
  | S fuel =>
      let sh := ps2_mouse_send_packet sh in
      if at_rest (fst sh) then Some sh else send_packets fuel sh
  end.

(** Every packet but the last reduces the sum of the distances. *)
Definition motion (s : PS2MouseState) : Z :=
  Z.abs (mouse_dx s) + Z.abs (mouse_dy s) + Z.abs (mouse_dz s).
Definition packet_fuel (s : PS2MouseState) : nat := S (Z.to_nat (motion s)).

Definition ps2_mouse_event (dx dy dz buttons_state : Z) (sh : PS2MouseState * H)
    : option (PS2MouseState * H) :=
  let '(s, h) := sh in
  if negb (truthy (mouse_status s &. MOUSE_STATUS_ENABLED)) then Some (s, h)
  else
    let s := set_mouse_dx (s32 (mouse_dx s + dx)) s in
    let s := set_mouse_dy (s32 (mouse_dy s - dy)) s in
    let s := set_mouse_dz (s32 (mouse_dz s + dz)) s in
    if at_rest s && (mouse_buttons s =? buttons_state) then Some (s, h)
    else
      let s := set_mouse_buttons (u8 buttons_state) s in
      if negb (truthy (mouse_status s &. MOUSE_STATUS_REMOTE)) &&
         (count (queue (mcommon s)) <? PS2_QUEUE_SIZE - 16)
      then send_packets (packet_fuel s) (s, h)
      else Some (s, h).

Definition ps2_mouse_fake_event (sh : PS2MouseState * H) : option (PS2MouseState * H) :=
  ps2_mouse_event 1 0 0 0 sh.

(** The [switch] on a command byte. *)
Definition mouse_command (val : Z) (sh : PS2MouseState * H) : PS2MouseState * H :=
  let s := fst sh in
  let ack := on_mcommon (ps2_queue AUX_ACK) in
  let status f := mouse_set (fun s => set_mouse_status (u8 (f (mouse_status s))) s) in
  let defaults := mouse_set (set_mouse_sample_rate 100) >>>
                  mouse_set (set_mouse_resolution 2) >>> mouse_set (set_mouse_status 0) in
  if val =? AUX_SET_SCALE11 then (status (fun x => x &. ~. MOUSE_STATUS_SCALE21) >>> ack) sh
  else if val =? AUX_SET_SCALE21 then (status (fun x => x |. MOUSE_STATUS_SCALE21) >>> ack) sh
  else if val =? AUX_SET_STREAM then (status (fun x => x &. ~. MOUSE_STATUS_REMOTE) >>> ack) sh
  else if val =? AUX_SET_WRAP then (mouse_set (set_mouse_wrap 1) >>> ack) sh
  else if val =? AUX_SET_REMOTE then (status (fun x => x |. MOUSE_STATUS_REMOTE) >>> ack) sh
  else if val =? AUX_GET_TYPE then (ack >>> on_mcommon (ps2_queue (mouse_type s))) sh
  else if (val =? AUX_SET_RES) || (val =? AUX_SET_SAMPLE) then (mouse_write_cmd val >>> ack) sh
  else if val =? AUX_GET_SCALE then
    (ack >>> on_mcommon (ps2_queue (mouse_status s)) >>>
     on_mcommon (ps2_queue (mouse_resolution s)) >>>
     on_mcommon (ps2_queue (mouse_sample_rate s))) sh
  else if val =? AUX_POLL then (ack >>> ps2_mouse_send_packet) sh
  else if val =? AUX_ENABLE_DEV then (status (fun x => x |. MOUSE_STATUS_ENABLED) >>> ack) sh
  else if val =? AUX_DISABLE_DEV then (status (fun x => x &. ~. MOUSE_STATUS_ENABLED) >>> ack) sh
  else if val =? AUX_SET_DEFAULT then (defaults >>> ack) sh
  else if val =? AUX_RESET then
    (defaults >>> mouse_set (set_mouse_type 0) >>> ack >>> on_mcommon (ps2_queue 0xaa) >>>
     on_mcommon (ps2_queue 0)) sh
  else sh.

(** The detection of IMPS/2 and IMEX by the sequence of sample rates. *)
Definition detect_step (val : Z) (s : PS2MouseState) : PS2MouseState :=
  if mouse_detect_state s =? 1 then
    if val =? 100 then set_mouse_detect_state 2 s
    else if val =? 200 then set_mouse_detect_state 3 s
    else set_mouse_detect_state 0 s
  else if mouse_detect_state s =? 2 then
    set_mouse_detect_state 0 (if val =? 80 then set_mouse_type 3 s else s)
  else if mouse_detect_state s =? 3 then
    set_mouse_detect_state 0 (if val =? 80 then set_mouse_type 4 s else s)
  else if val =? 200 then set_mouse_detect_state 1 s else s.

Definition ps2_write_mouse (val : Z) (sh : PS2MouseState * H) : PS2MouseState * H :=
  let s := fst sh in
  let ack := on_mcommon (ps2_queue AUX_ACK) in
  let cmd := write_cmd (mcommon s) in
  if cmd =? AUX_SET_SAMPLE then
    (mouse_set (set_mouse_sample_rate (u8 val)) >>> mouse_set (detect_step val) >>> ack >>>
     mouse_write_cmd (-1)) sh
  else if cmd =? AUX_SET_RES then
    (mouse_set (set_mouse_resolution (u8 val)) >>> ack >>> mouse_write_cmd (-1)) sh
  else if truthy (mouse_wrap s) && (val =? AUX_RESET_WRAP) then
    (mouse_set (set_mouse_wrap 0) >>> ack) sh
  else if truthy (mouse_wrap s) && negb (val =? AUX_RESET) then on_mcommon (ps2_queue val) sh
  else mouse_command val sh.

Definition ps2_mouse_reset (sh : PS2MouseState * H) : PS2MouseState * H :=
  let '(s, h) := on_mcommon ps2_common_reset sh in
  (mkMouse (mcommon s) 0 0 0 0 0 0 0 0 0 0, h).

End Device.

(** ** Creation *)

(** [qemu_mallocz]: all zero, the function pointer and its argument aside. *)
Definition ps2_zero : PS2State := mkPS2 (mkQueue (repeat 0 256) 0 0 0) 0.
Definition ps2_kbd_init : PS2KbdState := set_scancode_set 2 (mkKbd ps2_zero 0 0 0 []).
Definition ps2_mouse_init : PS2MouseState := mkMouse ps2_zero 0 0 0 0 0 0 0 0 0 0.

(** ** The ring buffer is a bounded FIFO *)

(** Where the pointers are, and that the bytes are bytes. *)
Definition ring (q : PS2Queue) : Prop :=
  length (data q) = 256%nat /\ Forall is_u8 (data q) /\
  0 <= rptr q < 256 /\ 0 <= count q <= 256 /\ wptr q = (rptr q + count q) mod 256.

(** The waiting bytes, oldest first, and the byte read last. *)
Definition contents (q : PS2Queue) : list Z := ring_contents 256 (data q) (rptr q) (count q).
Definition last_byte (q : PS2Queue) : Z := aget (data q) ((rptr q - 1) mod 256).

Lemma length_contents q : ring q -> Z.of_nat (length (contents q)) = count q.
Proof.
  intros (_ & _ & _ & Hc & _). unfold contents, ring_contents. rewrite length_fmap, length_seqZ. lia.
Qed.

Lemma ring_init : ring (queue ps2_zero).
Proof.
  split_and!; try done. apply Forall_forall. intros x Hx. by apply repeat_spec in Hx as ->.
Qed.

(** A step of a pointer around the ring. *)
Lemma ring_step p : 0 <= p < 256 -> (if p + 1 =? PS2_QUEUE_SIZE then 0 else p + 1) = (p + 1) mod 256.
Proof. intros. unfold PS2_QUEUE_SIZE. zcases; dlia. Qed.

Lemma ring_put q b :
  ring q -> count q < 256 ->
  let q' := mkQueue (aset (data q) (wptr q) (u8 b)) (rptr q) ((wptr q + 1) mod 256) (count q + 1) in
  ring q' /\ contents q' = contents q ++ [u8 b].
Proof.
  intros (Hd & Hb & Hr & Hc & Hw) Hlt.
  assert (Hw' : 0 <= wptr q < 256) by (rewrite Hw; dlia). split.
  - unfold ring. cbn -[aset]. rewrite length_aset.
    split_and!; try lia; try (rewrite Hw; dlia).
    apply Forall_insert; [done|by apply wrap_range].
  - unfold contents. cbn [data rptr count]. rewrite Hw. apply ring_push; lia.
Qed.

Lemma ring_get q :
  ring q -> 0 < count q ->
  let q' := mkQueue (data q) ((rptr q + 1) mod 256) (wptr q) (count q - 1) in
  ring q' /\ contents q = aget (data q) (rptr q) :: contents q' /\
  last_byte q' = aget (data q) (rptr q).
Proof.
  intros (Hd & Hb & Hr & Hc & Hw) Hlt. split; [|split].
  - unfold ring. cbn. split_and!; done || dlia || (rewrite Hw; dlia).
  - apply ring_pop; lia.
  - unfold last_byte. cbn [data rptr]. by rewrite Zminus_mod_idemp_l, Z.add_simpl_r, Z.mod_small.
Qed.

Section Fifo.
Context {H : Type} (update_irq : Z -> H -> H).

Lemma ps2_queue_spec b s h :
  ring (queue s) ->
  let '(s', h') := ps2_queue update_irq b (s, h) in
  ring (queue s') /\ write_cmd s' = write_cmd s /\
  if count (queue s) <? 256 then
    contents (queue s') = contents (queue s) ++ [u8 b] /\
    count (queue s') = count (queue s) + 1 /\ h' = update_irq 1 h
  else s' = s /\ h' = h.
Proof.
  intros R. unfold ps2_queue. change PS2_QUEUE_SIZE with 256.
  destruct (Z.leb_spec 256 (count (queue s))) as [Hf|Hf]; [zcases; done|].
  destruct (Z.ltb_spec (count (queue s)) 256); [|lia].
  destruct (ring_put (queue s) b R Hf) as [R' C'].
  assert (Ew := ring_step (wptr (queue s))). change PS2_QUEUE_SIZE with 256 in Ew.
  pose proof R as (_ & _ & _ & _ & Hw). rewrite <- Ew in R', C' by (rewrite Hw; dlia).
  cbn -[aset]. by destruct (_ =? 256).
Qed.

Lemma ps2_read_data_spec s h :
  ring (queue s) ->
  let '(v, (s', h')) := ps2_read_data update_irq (s, h) in
  ring (queue s') /\ write_cmd s' = write_cmd s /\ is_u8 v /\
  match contents (queue s) with
  | [] => v = last_byte (queue s) /\ s' = s /\ h' = h
  | b :: l =>
      v = b /\ contents (queue s') = l /\ last_byte (queue s') = b /\
      h' = update_irq (of_bool (negb (bool_decide (l = [])))) (update_irq 0 h)
  end.
Proof.
  intros R. unfold ps2_read_data. pose proof R as (Hd & Hb & Hr & Hc & _).
  assert (B : forall i, 0 <= i < 256 -> is_u8 (aget (data (queue s)) i)).
  { intros i Hi. rewrite Forall_forall in Hb. apply Hb. unfold aget. apply nth_In. lia. }
  destruct (Z.eqb_spec (count (queue s)) 0) as [E0|N0].
  - assert (El : (if rptr (queue s) - 1 <? 0 then PS2_QUEUE_SIZE - 1 else rptr (queue s) - 1)
      = (rptr (queue s) - 1) mod 256) by (unfold PS2_QUEUE_SIZE; zcases; dlia).
    rewrite El. unfold contents at 1. rewrite E0. cbn.
    assert (Hv := B ((rptr (queue s) - 1) mod 256) ltac:(dlia)). done.
  - destruct (ring_get (queue s) R ltac:(lia)) as (R' & C' & L').
    rewrite C'. rewrite <- (ring_step _ Hr) in *. change PS2_QUEUE_SIZE with 256 in *.
    apply length_contents in R' as Hl.
    assert (En : bool_decide (contents (mkQueue (data (queue s))
      (if rptr (queue s) + 1 =? 256 then 0 else rptr (queue s) + 1) (wptr (queue s))
      (count (queue s) - 1)) = []) = (count (queue s) - 1 =? 0)).
    { cbn [count] in Hl. revert Hl. destruct (contents (mkQueue _ _ _ _)) as [|x l];
        cbn [length]; intros Hl.
      - by rewrite (proj2 (Z.eqb_eq _ _)) by lia.
      - by rewrite (proj2 (Z.eqb_neq _ _)) by lia. }
    rewrite En. cbn. assert (Hv := B (rptr (queue s)) Hr). by destruct (_ =? 256).
Qed.

(** *** Histories of accesses *)

Inductive access := Put (b : Z) | Get.

(** What a history of accesses reads from the ring buffer. *)
Fixpoint run_ring (l : list access) (sh : PS2State * H) : list Z * (PS2State * H) :=
  match l with
  | [] => ([], sh)
  | Put b :: l => run_ring l (ps2_queue update_irq b sh)
  | Get :: l =>
      let '(v, sh) := ps2_read_data update_irq sh in
      let '(vs, sh) := run_ring l sh in (v :: vs, sh)
  end.
End Fifo.

(** The abstract queue: at most 256 bytes, and the byte read last, which an
    empty queue returns again. *)
Definition fifo_put (b : Z) (f : list Z * Z) : list Z * Z :=
  if (length (fst f) <? 256)%nat then (fst f ++ [u8 b], snd f) else f.
Definition fifo_get (f : list Z * Z) : Z * (list Z * Z) :=
  match fst f with
  | [] => (snd f, f)
  | b :: l => (b, (l, b))
  end.
Fixpoint run_fifo (l : list access) (f : list Z * Z) : list Z * (list Z * Z) :=
  match l with
  | [] => ([], f)
  | Put b :: l => run_fifo l (fifo_put b f)
  | Get :: l =>
      let '(v, f) := fifo_get f in
      let '(vs, f) := run_fifo l f in (v :: vs, f)
  end.

(** The abstraction relation: the byte read last matters only while the
    queue is empty. *)
Definition fifo_of (q : PS2Queue) (f : list Z * Z) : Prop :=
  contents q = fst f /\ (contents q = [] -> last_byte q = snd f).

Lemma contents_length q : ring q -> count q = Z.of_nat (length (contents q)).
Proof. intros. by rewrite length_contents. Qed.

(** C34: the ring buffer implements the bounded FIFO: over any history of
    writes and reads the bytes returned are those of the abstract queue, in order,
    bytes written to a full queue are dropped, and a read of an empty queue repeats
    the byte read last. *)
Theorem ps2_ring_is_fifo {H : Type} (update_irq : Z -> H -> H) l s h f :
  ring (queue s) -> fifo_of (queue s) f ->
  let '(vs, (s', _)) := run_ring update_irq l (s, h) in
  let '(vs', f') := run_fifo l f in
  vs = vs' /\ ring (queue s') /\ fifo_of (queue s') f'.
Proof.
  revert s h f. induction l as [|[b|] l IH]; intros s h f R [F1 F2]; [done| |].
  - cbn [run_ring run_fifo]. pose proof (ps2_queue_spec update_irq b s h R) as P.
    destruct (ps2_queue update_irq b (s, h)) as [s1 h1]. destruct P as (R1 & _ & P).
    apply IH; [done|]. rewrite contents_length, F1 in P by done. unfold fifo_put, fifo_of.
    destruct (Nat.ltb_spec (length (fst f)) 256).
    + rewrite (proj2 (Z.ltb_lt _ _)) in P by lia. destruct P as (-> & _). cbn.
      split; [done|]. by destruct (fst f).
    + rewrite (proj2 (Z.ltb_ge _ _)) in P by lia. by destruct P as [-> _].
  - cbn [run_ring run_fifo]. pose proof (ps2_read_data_spec update_irq s h R) as P.
    destruct (ps2_read_data update_irq (s, h)) as [v [s1 h1]].
    destruct P as (R1 & _ & _ & P). rewrite F1 in P.
    assert (G : v = fst (fifo_get f) /\ fifo_of (queue s1) (snd (fifo_get f))).
    { unfold fifo_get, fifo_of. rewrite F1 in F2. destruct (fst f) as [|b l'] eqn:Ef.
      - destruct P as (-> & -> & _). cbn. rewrite F1, Ef. auto.
      - destruct P as (-> & P1 & P2 & _). cbn. split; auto. }
    destruct (fifo_get f) as [v' f']. cbn in G. destruct G as [-> G].
    specialize (IH s1 h1 f' R1 G).
    destruct (run_ring update_irq l (s1, h1)) as [vs [s2 h2]].
    destruct (run_fifo l f') as [vs' f2]. destruct IH as (-> & ? & ?). done.
Qed.

Lemma ps2_ring_is_fifo_witness :
  fst (run_ring (fun _ (h : unit) => h) [Get; Put 0x1c; Put 0x9c; Get; Get; Get] (ps2_zero, tt))
  = [0; 0x1c; 0x9c; 0x9c].
Proof.
  pose proof (ps2_ring_is_fifo (fun _ (h : unit) => h)
    [Get; Put 0x1c; Put 0x9c; Get; Get; Get] ps2_zero tt ([], 0) ring_init
    ltac:(split; intros; reflexivity)) as W.
  destruct (run_ring _ _ _) as [vs [s' h']]. destruct (run_fifo _ _) as [vs' f'] eqn:E.
  destruct W as (-> & _). injection E as <- _. reflexivity.
Defined.

(** ** The interface to the host *)

(** What a device relies on: the callback sets the host's line for this
    device, and keeps the host's own invariant. *)
Class IrqHost {H : Type} (update_irq : Z -> H -> H) (line : H -> bool) (inv : H -> Prop) := {
  line_update : forall l h, line (update_irq l h) = truthy l;
  inv_update : forall l h, inv h -> inv (update_irq l h)
}.

Create HintDb ps2 discriminated.

Section Synced.
Context {H : Type} (update_irq : Z -> H -> H) (line : H -> bool) (inv : H -> Prop).
Context `{!IrqHost update_irq line inv}.

(** The line is high exactly while bytes wait. *)
Definition synced (sh : PS2State * H) : Prop :=
  ring (queue (fst sh)) /\ line (snd sh) = negb (count (queue (fst sh)) =? 0) /\ inv (snd sh).
Definition synced_kbd (sh : PS2KbdState * H) : Prop := synced (kcommon (fst sh), snd sh).
Definition synced_mouse (sh : PS2MouseState * H) : Prop := synced (mcommon (fst sh), snd sh).

Lemma ps2_queue_synced b sh : synced sh -> synced (ps2_queue update_irq b sh).
Proof.
  destruct sh as [s h]. intros (R & L & I). cbn [fst snd] in R, L, I. pose proof (ps2_queue_spec update_irq b s h R) as P.
  destruct (ps2_queue update_irq b (s, h)) as [s' h']. destruct P as (R' & _ & P).
  pose proof R as (_ & _ & _ & Hc & _). split; [done|].
  destruct (Z.ltb_spec (count (queue s)) 256).
  - destruct P as (_ & E & ->). cbn [fst snd]. rewrite line_update, E.
    split; [|by apply inv_update]. zcases; done.
  - destruct P as [-> ->]. done.
Qed.

Lemma ps2_read_data_synced sh : synced sh -> synced (snd (ps2_read_data update_irq sh)).
Proof.
  destruct sh as [s h]. intros (R & L & I). cbn [fst snd] in R, L, I. pose proof (ps2_read_data_spec update_irq s h R) as P.
  destruct (ps2_read_data update_irq (s, h)) as [v [s' h']]. destruct P as (R' & _ & _ & P).
  destruct (contents (queue s)) as [|b l]; [by destruct P as (_ & -> & ->)|].
  destruct P as (_ & C & _ & ->). split; [done|]. cbn [fst snd].
  split; [|by do 2 apply inv_update].
  rewrite line_update, contents_length, C by done.
  destruct l; [done|]. cbn [length]. zcases; done.
Qed.

Lemma ps2_common_reset_synced sh :
  ring (queue (fst sh)) -> inv (snd sh) -> synced (ps2_common_reset update_irq sh).
Proof.
  destruct sh as [s h]. intros (R1 & R2 & _) I. split; [split_and!; done|].
  cbn [fst snd ps2_common_reset]. rewrite line_update. split; [done|by apply inv_update].
Qed.

Lemma on_kcommon_synced f sh :
  (forall x, synced x -> synced (f x)) -> synced_kbd sh -> synced_kbd (on_kcommon f sh).
Proof.
  intros Hf Hs. unfold on_kcommon, synced_kbd in *. specialize (Hf _ Hs). by destruct (f _).
Qed.

Lemma kbd_set_synced f sh :
  (forall s, queue (kcommon (f s)) = queue (kcommon s)) ->
  synced_kbd sh -> synced_kbd (kbd_set f sh).
Proof. intros Hf (R & L & I). split; cbn in *; by rewrite Hf. Qed.

Lemma on_mcommon_synced f sh :
  (forall x, synced x -> synced (f x)) -> synced_mouse sh -> synced_mouse (on_mcommon f sh).
Proof.
  intros Hf Hs. unfold on_mcommon, synced_mouse in *. specialize (Hf _ Hs). by destruct (f _).
Qed.

Lemma mouse_set_synced f sh :
  (forall s, queue (mcommon (f s)) = queue (mcommon s)) ->
  synced_mouse sh -> synced_mouse (mouse_set f sh).
Proof. intros Hf (R & L & I). split; cbn in *; by rewrite Hf. Qed.

#[local] Hint Resolve ps2_queue_synced on_kcommon_synced on_mcommon_synced : ps2.
#[local] Hint Extern 1 (synced_kbd (_ _)) => progress unfold then_ : ps2.
#[local] Hint Extern 1 (synced_mouse (_ _)) => progress unfold then_ : ps2.
#[local] Hint Extern 1 (synced_kbd (kbd_set _ _)) => apply kbd_set_synced : ps2.
#[local] Hint Extern 1 (synced_mouse (mouse_set _ _)) => apply mouse_set_synced : ps2.
#[local] Hint Extern 1 (synced_kbd (kbd_write_cmd _ _)) => apply kbd_set_synced : ps2.
#[local] Hint Extern 1 (synced_mouse (mouse_write_cmd _ _)) => apply mouse_set_synced : ps2.
#[local] Hint Extern 2 (queue _ = queue _) => reflexivity : ps2.

Lemma ps2_put_keycode_synced k sh :
  synced_kbd sh -> synced_kbd (ps2_put_keycode update_irq k sh).
Proof.
  intros Hs. unfold ps2_put_keycode. destruct (_ && _); [|auto with ps2].
  destruct (truthy _); auto with ps2.
Qed.
#[local] Hint Resolve ps2_put_keycode_synced : ps2.

Lemma ps2_write_keyboard_synced val sh :
  synced_kbd sh -> synced_kbd (ps2_write_keyboard update_irq val sh).
Proof.
  intros Hs. unfold ps2_write_keyboard, keyboard_command.
  repeat (destruct (_ =? _) || destruct (_ || _) || destruct (_ && _)); cbn [orb]; auto 10 with ps2.
Qed.

Lemma ps2_kbd_reset_synced sh :
  ring (queue (kcommon (fst sh))) -> inv (snd sh) -> synced_kbd (ps2_kbd_reset update_irq sh).
Proof.
  intros R I. pose proof (ps2_common_reset_synced (kcommon (fst sh), snd sh) R I) as P.
  unfold ps2_kbd_reset, then_. do 3 (apply kbd_set_synced; [done|]).
  unfold on_kcommon, synced_kbd. by destruct (ps2_common_reset _ _).
Qed.

Lemma ps2_mouse_send_packet_synced sh :
  synced_mouse sh -> synced_mouse (ps2_mouse_send_packet update_irq sh).
Proof.
  intros Hs. unfold ps2_mouse_send_packet.
  destruct (_ =? 3); [|destruct (_ =? 4)]; auto 10 with ps2.
Qed.
#[local] Hint Resolve ps2_mouse_send_packet_synced : ps2.

Lemma send_packets_synced fuel : forall sh sh',
  synced_mouse sh -> send_packets update_irq fuel sh = Some sh' -> synced_mouse sh'.
Proof.
  induction fuel as [|fuel IH]; intros sh sh' Hs E; [done|]. cbn [send_packets] in E.
  destruct (at_rest _); [injection E as <-; auto with ps2|]. eapply IH; [|done]. auto with ps2.
Qed.

Lemma ps2_mouse_event_synced dx dy dz b sh sh' :
  synced_mouse sh -> ps2_mouse_event update_irq dx dy dz b sh = Some sh' -> synced_mouse sh'.
Proof.
  destruct sh as [s h]. intros Hs. unfold ps2_mouse_event.
  destruct (negb (truthy _)); [by intros [= <-]|].
  destruct (_ && (_ =? b)); [by intros [= <-]|].
  destruct (negb (truthy _) && _); [|by intros [= <-]]. by apply send_packets_synced.
Qed.

Lemma ps2_write_mouse_synced val sh :
  synced_mouse sh -> synced_mouse (ps2_write_mouse update_irq val sh).
Proof.
  intros Hs. unfold ps2_write_mouse, mouse_command.
  assert (D : forall s, queue (mcommon (detect_step val s)) = queue (mcommon s)).
  { intros s. unfold detect_step. by repeat destruct (_ =? _). }
  repeat (destruct (_ =? _)); repeat (destruct (truthy _)); cbn [andb orb negb];
    auto 15 with ps2.
Qed.

Lemma ps2_mouse_reset_synced sh :
  ring (queue (mcommon (fst sh))) -> inv (snd sh) -> synced_mouse (ps2_mouse_reset update_irq sh).
Proof.
  intros R I. pose proof (ps2_common_reset_synced (mcommon (fst sh), snd sh) R I) as P.
  unfold ps2_mouse_reset, on_mcommon, synced_mouse. by destruct (ps2_common_reset _ _).
Qed.
End Synced.

(** ** Movement packets *)

(** The bytes of one packet, and the distances it carries. *)
Definition packet_dz (s : PS2MouseState) : Z :=
  if mouse_type s =? 3 then clamp 127 (mouse_dz s)
  else if mouse_type s =? 4 then clamp 7 (mouse_dz s) else mouse_dz s.
Definition packet_bytes (s : PS2MouseState) : list Z :=
  let dx1 := clamp 127 (mouse_dx s) in
  let dy1 := clamp 127 (mouse_dy s) in
  [0x08 |. of_bool (dx1 <? 0) <<. 4 |. of_bool (dy1 <? 0) <<. 5 |. (mouse_buttons s &. 0x07);
   dx1 &. 0xff; dy1 &. 0xff] ++
  (if mouse_type s =? 3 then [packet_dz s &. 0xff]
   else if mouse_type s =? 4 then [(packet_dz s &. 0x0f) |. (mouse_buttons s &. 0x18) <<. 1]
   else []).

(** The mouse after a packet, its queue aside. *)
Definition sent (s : PS2MouseState) : PS2MouseState :=
  set_mouse_dz (mouse_dz s - packet_dz s)
    (set_mouse_dy (mouse_dy s - clamp 127 (mouse_dy s))
      (set_mouse_dx (mouse_dx s - clamp 127 (mouse_dx s)) s)).

(** How a driver reads a packet: distances and the three buttons. *)
Definition decode (type : Z) (p : list Z) : option (Z * Z * Z * Z) :=
  match p with
  | b :: x :: y :: r =>
      let dx := x - (if Z.testbit b 4 then 256 else 0) in
      let dy := y - (if Z.testbit b 5 then 256 else 0) in
      let dz :=
        match r with
        | z :: _ => if type =? 3 then if z <? 128 then z else z - 256
                    else if z &. 15 <? 8 then z &. 15 else z &. 15 - 16
        | [] => 0
        end in
      Some (dx, dy, dz, b &. 7)
  | _ => None
  end.

Lemma clamp_range n d : 0 < n -> - n <= clamp n d <= n.
Proof. unfold clamp. zcases. Qed.

Lemma clamp_progress n d : 0 < n -> Z.abs (d - clamp n d) <= Z.abs d /\
  (d <> 0 -> Z.abs (d - clamp n d) < Z.abs d).
Proof. unfold clamp. zcases. Qed.

Lemma land_ff_signed d : - 256 <= d < 256 -> d &. 0xff = if d <? 0 then d + 256 else d.
Proof.
  intros. change 0xff with (Z.ones 8). rewrite Z.land_ones by lia. zcases; dlia.
Qed.

Lemma land_range k x : 0 <= k -> 0 <= x &. Z.ones k < 2 ^ k.
Proof. intros. rewrite Z.land_ones by done. apply Z.mod_pos_bound. lia. Qed.

(** The head byte carries the two signs and the three buttons. *)
Lemma head_byte (sx sy : bool) k : 0 <= k < 8 ->
  let b := 0x08 |. of_bool sx <<. 4 |. of_bool sy <<. 5 |. k in
  Z.testbit b 4 = sx /\ Z.testbit b 5 = sy /\ b &. 7 = k /\ is_u8 b.
Proof.
  intros Hk.
  assert (k = 0 \/ k = 1 \/ k = 2 \/ k = 3 \/ k = 4 \/ k = 5 \/ k = 6 \/ k = 7) as Hc by lia.
  repeat destruct Hc as [-> | Hc]; [..|subst k]; destruct sx, sy; vm_compute; repeat split; done.
Qed.

Lemma imex_byte d k : -7 <= d <= 7 -> 0 <= k < 4 ->
  let z := (d &. 0x0f) |. (k <<. 3) <<. 1 in
  (if z &. 15 <? 8 then z &. 15 else z &. 15 - 16) = d /\ is_u8 z.
Proof.
  intros Hd Hk. assert (E : exists n, n < 15 /\ 0 <= n /\ d = n - 7) by (exists (d + 7); lia).
  destruct E as (n & Hn & Hn0 & ->).
  assert (B : below 4 (fun k => below 15 (fun n =>
    let z := ((n - 7) &. 0x0f) |. (k <<. 3) <<. 1 in
    ((if z &. 15 <? 8 then z &. 15 else z &. 15 - 16) =? n - 7) && (0 <=? z) && (z <? 256))) = true)
    by reflexivity.
  apply (below_spec 4 _ k) in B; [|lia]. apply (below_spec 15 _ n) in B; [|lia].
  apply andb_prop in B as [B B3]. apply andb_prop in B as [B1 B2].
  split; [by apply Z.eqb_eq|]. unfold is_uint. lia.
Qed.

Lemma land_18 b : b &. 0x18 = ((b >>. 3) &. 3) <<. 3.
Proof.
  change 0x18 with (3 <<. 3). apply Z.bits_inj'. intros i Hi.
  rewrite Z.land_spec, !Z.shiftl_spec, Z.land_spec by lia.
  destruct (Z.lt_ge_cases i 3).
  - rewrite !(Z.testbit_neg_r _ (i - 3)) by lia. btauto.
  - rewrite Z.shiftr_spec by lia. by replace (i - 3 + 3) with i by lia.
Qed.

Lemma decode_packet s :
  Forall is_u8 (packet_bytes s) /\
  decode (mouse_type s) (packet_bytes s) =
    Some (clamp 127 (mouse_dx s), clamp 127 (mouse_dy s),
          (if (mouse_type s =? 3) || (mouse_type s =? 4) then packet_dz s else 0),
          mouse_buttons s &. 7).
Proof.
  assert (Cx := clamp_range 127 (mouse_dx s) ltac:(lia)).
  assert (Cy := clamp_range 127 (mouse_dy s) ltac:(lia)).
  assert (Hk := land_range 3 (mouse_buttons s) ltac:(lia)). change (Z.ones 3) with 7 in Hk.
  assert (U : forall x, is_u8 (x &. 0xff)) by (intros; apply is_uint_land_r; done || lia).
  unfold packet_bytes. cbv zeta.
  destruct (head_byte (clamp 127 (mouse_dx s) <? 0) (clamp 127 (mouse_dy s) <? 0)
    (mouse_buttons s &. 7) Hk) as (H4 & H5 & H7 & H8).
  set (b := _ |. _) in *. clearbody b.
  assert (Fx : (clamp 127 (mouse_dx s) &. 0xff) -
    (if clamp 127 (mouse_dx s) <? 0 then 256 else 0) = clamp 127 (mouse_dx s))
    by (rewrite land_ff_signed by lia; zcases).
  assert (Fy : (clamp 127 (mouse_dy s) &. 0xff) -
    (if clamp 127 (mouse_dy s) <? 0 then 256 else 0) = clamp 127 (mouse_dy s))
    by (rewrite land_ff_signed by lia; zcases).
  unfold packet_dz. destruct (Z.eqb_spec (mouse_type s) 3) as [E3|N3].
  - assert (Cz := clamp_range 127 (mouse_dz s) ltac:(lia)).
    split; [repeat (constructor; [done|]); constructor|].
    cbn -[Z.land Z.testbit]. rewrite H4, H5, H7, Fx, Fy, E3. do 3 f_equal.
    rewrite land_ff_signed by lia. zcases.
  - destruct (Z.eqb_spec (mouse_type s) 4) as [E4|N4].
    + assert (Cz := clamp_range 7 (mouse_dz s) ltac:(lia)).
      rewrite land_18.
      destruct (imex_byte (clamp 7 (mouse_dz s)) ((mouse_buttons s >>. 3) &. 3)) as [I1 I2];
        [lia|by apply (land_range 2)|].
      split; [repeat (constructor; [done|]); constructor|].
      cbn -[Z.land Z.testbit Z.lor Z.shiftl Z.shiftr clamp].
      rewrite H4, H5, H7, Fx, Fy, E4, I1. done.
    + split; [repeat (constructor; [done|]); constructor|].
      cbn -[Z.land Z.testbit]. rewrite H4, H5, H7, Fx, Fy. done.
Qed.

Section Packets.
Context {H : Type} (update_irq : Z -> H -> H).

Fixpoint queue_all (bs : list Z) (sh : PS2State * H) : PS2State * H :=
  match bs with
  | [] => sh
  | b :: bs => queue_all bs (ps2_queue update_irq b sh)
  end.

Lemma queue_all_spec bs : forall s h,
  ring (queue s) -> Forall is_u8 bs ->
  let '(s', h') := queue_all bs (s, h) in
  ring (queue s') /\ count (queue s) <= count (queue s') /\
  (count (queue s') < 256 -> contents (queue s') = contents (queue s) ++ bs).
Proof.
  induction bs as [|b bs IH]; intros s h R Hb.
  - cbn. rewrite app_nil_r. split_and!; done || apply R.
  - inversion_clear Hb as [|? ? Hb1 Hb2]. cbn [queue_all].
    pose proof (ps2_queue_spec update_irq b s h R) as P.
    destruct (ps2_queue update_irq b (s, h)) as [s1 h1]. destruct P as (R1 & _ & P).
    specialize (IH s1 h1 R1 Hb2). destruct (queue_all bs (s1, h1)) as [s2 h2].
    destruct IH as (R2 & Hle & Hc). split; [done|].
    destruct (Z.ltb_spec (count (queue s)) 256).
    + destruct P as (C1 & E1 & _). split; [lia|]. intros Hlt.
      rewrite (Hc Hlt), C1, wrap_small, <- app_assoc by done. done.
    + destruct P as [-> _]. split; [lia|]. lia.
Qed.

Lemma send_packet_eq s h :
  ps2_mouse_send_packet update_irq (s, h) =
  let '(c, h') := queue_all (packet_bytes s) (mcommon s, h) in (sent (set_mcommon c s), h').
Proof.
  destruct s as [cm st res rate wr ty det dx dy dz bt].
  unfold ps2_mouse_send_packet, packet_bytes, sent, packet_dz, on_mcommon, then_, mouse_set.
  cbn -[ps2_queue clamp Z.land Z.lor Z.shiftl Z.eqb Z.ltb of_bool].
  set (bx := _ |. _). clearbody bx.
  destruct (ps2_queue update_irq bx (cm, h)) as [c1 h1]. cbn [fst snd mcommon set_mcommon].
  destruct (ps2_queue update_irq _ (c1, h1)) as [c2 h2]. cbn [fst snd mcommon set_mcommon].
  destruct (ps2_queue update_irq _ (c2, h2)) as [c3 h3]. cbn [fst snd mcommon set_mcommon].
  destruct (ty =? 3); [|destruct (ty =? 4)]; cbn [queue_all fst snd];
    try (destruct (ps2_queue update_irq _ (c3, h3)) as [c4 h4]); reflexivity.
Qed.

(** A packet that is not the last brings the mouse closer to rest. *)
Lemma sent_motion s : at_rest (sent s) = false -> motion (sent s) < motion s.
Proof.
  assert (Px := clamp_progress 127 (mouse_dx s) ltac:(lia)).
  assert (Py := clamp_progress 127 (mouse_dy s) ltac:(lia)).
  assert (Pz : Z.abs (mouse_dz s - packet_dz s) <= Z.abs (mouse_dz s) /\
    (mouse_dz s <> 0 -> Z.abs (mouse_dz s - packet_dz s) < Z.abs (mouse_dz s))).
  { unfold packet_dz. repeat (destruct (_ =? _)); try (apply clamp_progress; lia). lia. }
  unfold at_rest, motion, sent. cbn -[clamp packet_dz].
  destruct (Z.eqb_spec (mouse_dx s - clamp 127 (mouse_dx s)) 0);
    destruct (Z.eqb_spec (mouse_dy s - clamp 127 (mouse_dy s)) 0);
    destruct (Z.eqb_spec (mouse_dz s - packet_dz s) 0); cbn; intros ?; try done; lia.
Qed.

Definition total (ds : list (Z * Z * Z)) : Z * Z * Z :=
  foldr (fun '(x, y, z) '(x', y', z') => (x + x', y + y', z + z')) (0, 0, 0) ds.

(** The fields of the mouse that the packets leave alone. *)
Definition same_mouse (s s' : PS2MouseState) : Prop :=
  mouse_type s' = mouse_type s /\ mouse_buttons s' = mouse_buttons s /\
  mouse_status s' = mouse_status s.

Lemma send_packets_spec n : forall fuel s h,
  (motion s < Z.of_nat n) -> (n <= fuel)%nat -> ring (queue (mcommon s)) ->
  exists s' h' ps ds,
    send_packets update_irq fuel (s, h) = Some (s', h') /\ at_rest s' = true /\
    same_mouse s s' /\ ring (queue (mcommon s')) /\
    count (queue (mcommon s)) <= count (queue (mcommon s')) /\
    (count (queue (mcommon s')) < 256 ->
      contents (queue (mcommon s')) = contents (queue (mcommon s)) ++ concat ps) /\
    Forall2 (fun p d => decode (mouse_type s) p = Some (d, mouse_buttons s &. 7)) ps ds /\
    fst (fst (total ds)) = mouse_dx s /\ snd (fst (total ds)) = mouse_dy s /\
    (mouse_type s = 3 \/ mouse_type s = 4 -> snd (total ds) = mouse_dz s).
Proof.
  induction n as [|n IH]; intros fuel s h Hm Hf R; [unfold motion in Hm; lia|].
  destruct fuel as [|fuel]; [lia|]. cbn [send_packets]. rewrite send_packet_eq.
  destruct (decode_packet s) as [Hb Hd].
  pose proof (queue_all_spec (packet_bytes s) (mcommon s) h R Hb) as P.
  destruct (queue_all (packet_bytes s) (mcommon s, h)) as [c h1]. destruct P as (R1 & Hle & Hc).
  set (s1 := sent (set_mcommon c s)). cbn [fst].
  set (d := (clamp 127 (mouse_dx s), clamp 127 (mouse_dy s),
    if (mouse_type s =? 3) || (mouse_type s =? 4) then packet_dz s else 0)) in *.
  assert (Ez : mouse_type s = 3 \/ mouse_type s = 4 -> snd d = packet_dz s)
    by (intros [E|E]; unfold d; rewrite E; done).
  destruct (at_rest s1) eqn:Er.
  - exists s1, h1, [packet_bytes s], [d]. cbn [concat]. rewrite app_nil_r.
    unfold at_rest in Er. apply andb_prop in Er as [Er Er3]. apply andb_prop in Er as [Er1 Er2].
    apply Z.eqb_eq in Er1, Er2, Er3. cbn -[clamp packet_dz] in Er1, Er2, Er3.
    change (packet_dz (set_mcommon c s)) with (packet_dz s) in Er3.
    split_and!; try done.
    + unfold at_rest. cbn -[clamp packet_dz].
      change (packet_dz (set_mcommon c s)) with (packet_dz s). by rewrite Er1, Er2, Er3.
    + by constructor.
    + cbn -[clamp]. lia.
    + cbn -[clamp]. lia.
    + intros Ht. specialize (Ez Ht). unfold d in *. cbn -[clamp packet_dz] in *. lia.
  - assert (Hm1 : motion s1 < motion s) by (apply (sent_motion (set_mcommon c s)); done).
    destruct (IH fuel s1 h1 ltac:(lia) ltac:(lia) R1)
      as (s' & h' & ps & ds & E & Hr & (T1 & T2 & T3) & R' & Hle' & Hc' & Hds & Sx & Sy & Sz).
    exists s', h', (packet_bytes s :: ps), (d :: ds).
    change (mouse_type s1) with (mouse_type s) in *.
    change (mouse_buttons s1) with (mouse_buttons s) in *.
    change (mcommon s1) with c in *.
    change (mouse_dx s1) with (mouse_dx s - clamp 127 (mouse_dx s)) in *.
    change (mouse_dy s1) with (mouse_dy s - clamp 127 (mouse_dy s)) in *.
    change (mouse_dz s1) with (mouse_dz s - packet_dz s) in *.
    split_and!; try done; try lia.
    + intros Hlt. cbn [concat]. rewrite (Hc' Hlt), Hc, app_assoc by lia. done.
    + by constructor.
    + cbn -[clamp]. fold (total ds). destruct (total ds) as [[x y] z]. cbn in *. lia.
    + cbn -[clamp]. fold (total ds). destruct (total ds) as [[x y] z]. cbn in *. lia.
    + intros Ht. specialize (Sz Ht). specialize (Ez Ht). cbn -[clamp].
      fold (total ds). destruct (total ds) as [[x y] z]. cbn in *. lia.
Qed.
End Packets.

(** A mouse event in stream mode.  The sending loop ends; afterwards no
    motion is left in the device, and the packets it sent, decoded as a driver
    does, carry the buttons of the event and add up to exactly the motion
    accumulated before the event plus the motion of the event; they reach the
    queue complete and in order unless they filled it. *)
Theorem ps2_mouse_event_complete {H : Type} (update_irq : Z -> H -> H) dx dy dz b s h :
  ring (queue (mcommon s)) -> is_u8 b ->
  truthy (mouse_status s &. MOUSE_STATUS_ENABLED) = true ->
  truthy (mouse_status s &. MOUSE_STATUS_REMOTE) = false ->
  count (queue (mcommon s)) < 240 ->
  let x := s32 (mouse_dx s + dx) in
  let y := s32 (mouse_dy s - dy) in
  let z := s32 (mouse_dz s + dz) in
  ~ (x = 0 /\ y = 0 /\ z = 0 /\ mouse_buttons s = b) ->
  exists s' h' ps ds,
    ps2_mouse_event update_irq dx dy dz b (s, h) = Some (s', h') /\
    at_rest s' = true /\ mouse_buttons s' = b /\
    (count (queue (mcommon s')) < 256 ->
      contents (queue (mcommon s')) = contents (queue (mcommon s)) ++ concat ps) /\
    Forall2 (fun p d => decode (mouse_type s) p = Some (d, b &. 7)) ps ds /\
    fst (fst (total ds)) = x /\ snd (fst (total ds)) = y /\
    (mouse_type s = 3 \/ mouse_type s = 4 -> snd (total ds) = z).
Proof.
  intros R Hb He Hr Hc x y z Hn. unfold ps2_mouse_event. rewrite He. cbn [negb].
  set (s1 := set_mouse_dz _ _).
  assert (E : at_rest s1 && (mouse_buttons s1 =? b) = false).
  { apply not_true_is_false. intros E. apply Hn. unfold at_rest in E. cbn in E.
    apply andb_prop in E as [E E4]. apply andb_prop in E as [E E3].
    apply andb_prop in E as [E1 E2]. unfold x, y, z. split_and!; lia. }
  rewrite E. cbn [mouse_status set_mouse_buttons]. change (mouse_status s1) with (mouse_status s).
  rewrite Hr. cbn [negb andb]. change PS2_QUEUE_SIZE with 256.
  change (queue (mcommon (set_mouse_buttons (u8 b) s1))) with (queue (mcommon s)).
  rewrite (proj2 (Z.ltb_lt _ _)) by lia. rewrite (wrap_small 8 b) by done.
  set (s2 := set_mouse_buttons b s1).
  destruct (send_packets_spec update_irq (packet_fuel s2) (packet_fuel s2) s2 h)
    as (s' & h' & ps & ds & E1 & E2 & (_ & E3 & _) & _ & _ & E4 & E5 & E6 & E7 & E8);
    [unfold packet_fuel, motion; lia|done|exact R|].
  exists s', h', ps, ds. split_and!; done.
Qed.

(** An enabled IMPS/2 mouse at rest. *)
Definition sample_mouse : PS2MouseState := mkMouse ps2_zero 0x20 2 100 0 3 0 0 0 0 0.

Lemma ps2_mouse_event_complete_witness :
  exists s' h' ps ds,
    ps2_mouse_event (fun _ (h : unit) => h) 300 (-4) 1 1 (sample_mouse, tt) = Some (s', h') /\
    Forall2 (fun p d => decode 3 p = Some (d, 1)) ps ds /\
    fst (fst (total ds)) = 300 /\ snd (fst (total ds)) = 4 /\ snd (total ds) = 1.
Proof.
  destruct (ps2_mouse_event_complete (fun _ (h : unit) => h) 300 (-4) 1 1 sample_mouse tt
    ring_init ltac:(done) ltac:(reflexivity) ltac:(reflexivity) ltac:(reflexivity)
    ltac:(intros (Hx & _); vm_compute in Hx; discriminate Hx))
    as (s' & h' & ps & ds & H1 & _ & _ & _ & H2 & H3 & H4 & H5).
  exists s', h', ps, ds. split_and!; [exact H1|exact H2|exact H3|exact H4|].
  apply H5. left. reflexivity.
Defined.

(** The event always completes. *)
Lemma ps2_mouse_event_total {H : Type} (update_irq : Z -> H -> H) dx dy dz b s h :
  ring (queue (mcommon s)) ->
  exists sh', ps2_mouse_event update_irq dx dy dz b (s, h) = Some sh'.
Proof.
  intros R. unfold ps2_mouse_event. destruct (negb (truthy _)); [by eexists|].
  destruct (_ && (_ =? b)); [by eexists|]. destruct (negb (truthy _) && _); [|by eexists].
  set (s1 := set_mouse_buttons _ _).
  destruct (send_packets_spec update_irq (packet_fuel s1) (packet_fuel s1) s1 h)
    as (s' & h' & ps & ds & E & _); [unfold packet_fuel, motion; lia|done|exact R|].
  rewrite E. by eexists.
Qed.

(** A partial packet.  A motion of 86 packets into an empty queue: 85 packets of three bytes
    and the head of the next one fill the queue, and the rest of that packet is
    dropped, so that the driver's framing is lost. *)
Theorem ps2_mouse_partial_packet :
  let s := set_mouse_type 0 sample_mouse in
  match ps2_mouse_event (fun _ (h : unit) => h) (127 * 86) 0 0 0 (s, tt) with
  | Some (s', _) => count (queue (mcommon s')) = 256 /\ contents (queue (mcommon s')) !! 255%nat = Some 0x08
  | None => False
  end.
Proof. vm_compute. split; reflexivity. Qed.

(** The keyboard is created with scan code set 2, but a reset leaves set 0:
    until the guest resets the keyboard itself, untranslated keys arrive as PC
    scan codes instead of set 2 codes. *)
Theorem ps2_reset_loses_scancode_set :
  let press s := contents (queue (kcommon (fst (ps2_put_keycode (fun _ (h : unit) => h) 0x1e (s, tt))))) in
  press ps2_kbd_init = [28] /\
  press (fst (ps2_kbd_reset (fun _ (h : unit) => h) (ps2_kbd_init, tt))) = [0x1e].
Proof. vm_compute. split; reflexivity. Qed.

(** ** Detection of wheel mice *)

Section Detect.
Context {H : Type} (update_irq : Z -> H -> H).

Definition set_rate (r : Z) : PS2MouseState * H -> PS2MouseState * H :=
  ps2_write_mouse update_irq AUX_SET_SAMPLE >>> ps2_write_mouse update_irq r.

Lemma ps2_queue_write_cmd b (sh : PS2State * H) :
  write_cmd (fst (ps2_queue update_irq b sh)) = write_cmd (fst sh).
Proof.
  destruct sh as [s h]. unfold ps2_queue. destruct (_ <=? _); [done|].
  cbn -[aset]. done.
Qed.

(** Ready for a command. *)
Definition mouse_ready (s : PS2MouseState) : Prop :=
  write_cmd (mcommon s) <> AUX_SET_SAMPLE /\ write_cmd (mcommon s) <> AUX_SET_RES /\
  mouse_wrap s = 0.

Lemma set_rate_eq r s h :
  mouse_ready s ->
  set_rate r (s, h) =
  let '(c, h') := queue_all update_irq [AUX_ACK; AUX_ACK] (set_write_cmd AUX_SET_SAMPLE (mcommon s), h) in
  (set_mcommon (set_write_cmd (-1) c) (detect_step r (set_mouse_sample_rate (u8 r) s)), h').
Proof.
  intros (H1 & H2 & H3). apply Z.eqb_neq in H1, H2. unfold set_rate, then_.
  unfold ps2_write_mouse at 2. cbn [fst]. rewrite H1, H2, H3. cbn [truthy Z.eqb negb andb].
  change (mouse_command update_irq AUX_SET_SAMPLE (s, h)) with
    (on_mcommon (ps2_queue update_irq AUX_ACK) (mouse_write_cmd AUX_SET_SAMPLE (s, h))).
  unfold on_mcommon at 1. cbn [mouse_write_cmd mouse_set fst snd mcommon set_mcommon queue_all].
  pose proof (ps2_queue_write_cmd AUX_ACK (set_write_cmd AUX_SET_SAMPLE (mcommon s), h)) as Ew.
  destruct (ps2_queue update_irq AUX_ACK _) as [c1 h1]. cbn [fst write_cmd set_write_cmd] in Ew.
  unfold ps2_write_mouse. cbn [fst mcommon set_mcommon]. rewrite Ew, Z.eqb_refl.
  unfold then_, mouse_set, on_mcommon. cbn [fst snd].
  set (s1 := detect_step r _).
  assert (E : mcommon s1 = c1) by (unfold s1, detect_step; by repeat destruct (_ =? _)).
  assert (E' : forall c, set_mcommon c s1 =
    set_mcommon c (detect_step r (set_mouse_sample_rate (u8 r) s)))
    by (intros c; unfold s1, detect_step; cbn; by repeat destruct (_ =? _)).
  rewrite E. destruct (ps2_queue update_irq AUX_ACK (c1, h1)) as [c2 h2].
  cbn [fst snd]. rewrite <- E'. done.
Qed.

Lemma queue_all_write_cmd bs : forall sh : PS2State * H,
  write_cmd (fst (queue_all update_irq bs sh)) = write_cmd (fst sh).
Proof.
  induction bs as [|b bs IH]; intros sh; [done|]. cbn [queue_all].
  by rewrite IH, ps2_queue_write_cmd.
Qed.

(** What a rate setting does to the mouse, its queue included. *)
Lemma set_rate_step r s h :
  mouse_ready s -> ring (queue (mcommon s)) ->
  let '(s', h') := set_rate r (s, h) in
  mouse_ready s' /\ ring (queue (mcommon s')) /\
  count (queue (mcommon s)) <= count (queue (mcommon s')) /\
  (count (queue (mcommon s')) < 256 ->
    contents (queue (mcommon s')) = contents (queue (mcommon s)) ++ [AUX_ACK; AUX_ACK]) /\
  let d := detect_step r (set_mouse_sample_rate (u8 r) s) in
  mouse_type s' = mouse_type d /\ mouse_detect_state s' = mouse_detect_state d.
Proof.
  intros Hm R. rewrite set_rate_eq by done.
  pose proof (queue_all_spec update_irq [AUX_ACK; AUX_ACK] (set_write_cmd AUX_SET_SAMPLE (mcommon s))
    h R ltac:(by repeat constructor)) as P.
  destruct (queue_all _ _ _) as [c h1]. destruct P as (R1 & Hle & Hc).
  split; [|done]. split; [done|]. split; [done|]. cbn.
  destruct Hm as (_ & _ & Hw). unfold detect_step. by repeat destruct (_ =? _).
Qed.

End Detect.

(** Wheel mouse detection.  A driver that sets the sample rates
    200, 100, 80 turns an idle mouse into an IMPS/2 mouse, one that sets 200,
    200, 80 into an IMEX mouse; the "get type" command that follows answers
    with the acknowledge byte and the new type, after one acknowledge for each
    of the six bytes before it. *)
Theorem ps2_mouse_detects {H : Type} (update_irq : Z -> H -> H) second type s h :
  (second, type) = (100, 3) \/ (second, type) = (200, 4) ->
  mouse_ready s -> mouse_detect_state s = 0 -> ring (queue (mcommon s)) ->
  let '(s', _) := (set_rate update_irq 200 >>> set_rate update_irq second >>>
                   set_rate update_irq 80 >>> ps2_write_mouse update_irq AUX_GET_TYPE) (s, h) in
  mouse_type s' = type /\
  (count (queue (mcommon s')) < 256 ->
    contents (queue (mcommon s')) =
      contents (queue (mcommon s)) ++ repeat AUX_ACK 7 ++ [type]).
Proof.
  intros Ht Hm Hd R. unfold then_.
  pose proof (set_rate_step update_irq 200 s h Hm R) as P1.
  destruct (set_rate update_irq 200 (s, h)) as [s1 h1].
  destruct P1 as (M1 & R1 & L1 & C1 & T1 & D1).
  pose proof (set_rate_step update_irq second s1 h1 M1 R1) as P2.
  destruct (set_rate update_irq second (s1, h1)) as [s2 h2].
  destruct P2 as (M2 & R2 & L2 & C2 & T2 & D2).
  pose proof (set_rate_step update_irq 80 s2 h2 M2 R2) as P3.
  destruct (set_rate update_irq 80 (s2, h2)) as [s3 h3].
  destruct P3 as (M3 & R3 & L3 & C3 & T3 & D3).
  unfold detect_step in D1, D2, T3. cbn in D1, D2, T3.
  rewrite Hd in D1. cbn in D1. rewrite D1 in D2. cbn in D2.
  assert (Ht3 : mouse_type s3 = type).
  { rewrite T3. destruct Ht as [[= -> ->]|[= -> ->]]; cbn in D2; by rewrite D2. }
  destruct M3 as (M3 & M3' & M3''). apply Z.eqb_neq in M3, M3'.
  unfold ps2_write_mouse. cbn [fst]. rewrite M3, M3', M3''. cbn [truthy Z.eqb negb andb].
  change (mouse_command update_irq AUX_GET_TYPE (s3, h3)) with
    (on_mcommon (ps2_queue update_irq (mouse_type s3))
      (on_mcommon (ps2_queue update_irq AUX_ACK) (s3, h3))).
  assert (Hu : is_u8 type) by (clear - Ht; destruct Ht as [[= -> ->]|[= -> ->]]; done).
  pose proof (queue_all_spec update_irq [AUX_ACK; type] (mcommon s3) h3 R3
    ltac:(constructor; [done|constructor; [exact Hu|constructor]])) as P. cbn [queue_all] in P. rewrite Ht3.
  unfold on_mcommon. cbn [fst snd].
  destruct (ps2_queue update_irq AUX_ACK (mcommon s3, h3)) as [c4 h4]. cbn [fst snd mcommon set_mcommon].
  destruct (ps2_queue update_irq type (c4, h4)) as [c5 h5]. cbn [fst snd mcommon set_mcommon mouse_type].
  destruct P as (_ & L5 & C5). split; [done|]. intros Hlt.
  rewrite (C5 Hlt), C3, C2, C1, <- !app_assoc by lia. done.
Qed.

Lemma ps2_mouse_detects_witness :
  let '(s', _) := (set_rate (fun _ (h : unit) => h) 200 >>> set_rate (fun _ (h : unit) => h) 200 >>>
    set_rate (fun _ (h : unit) => h) 80 >>> ps2_write_mouse (fun _ (h : unit) => h) AUX_GET_TYPE)
    (ps2_mouse_init, tt) in
  mouse_type s' = 4.
Proof.
  pose proof (ps2_mouse_detects (fun _ (h : unit) => h) 200 4 ps2_mouse_init tt
    ltac:(right; reflexivity) ltac:(split_and!; done) ltac:(reflexivity) ring_init) as W.
  destruct ((_ >>> _) _) as [s' h']. exact (proj1 W).
Defined.

End PS2.
