(* ===== verification/PcKbd.v ===== *)
(** * The i8042 keyboard controller (src/qemu/hw/pckbd.c)

    [KBDState] keeps the source's registers.  The levels last sent on the two
    interrupt lines and on the A20 line are fields ([a20_out] is [None] for the
    null pointer), [reset_requests] counts the calls of
    [qemu_system_reset_request].  [I8042] is the controller with the two devices
    it owns; the devices call back [kbd_update_kbd_irq] and
    [kbd_update_aux_irq] on the registers, which discharge the interface
    [IrqHost] of the devices.

    The theorems: in every reachable state the status register and the
    interrupt lines say exactly which device has data waiting; a read of the
    data port takes the oldest keyboard byte, or else the oldest mouse byte; the
    mode byte can be written and read back; the output port drives A20 and
    reset. *)
From S2P Require Import Prelude PS2.

Module PcKbd.

(** ** Constants *)

Definition KBD_CCMD_READ_MODE : Z := 0x20.
Definition KBD_CCMD_WRITE_MODE : Z := 0x60.
Definition KBD_CCMD_MOUSE_DISABLE : Z := 0xA7.
Definition KBD_CCMD_MOUSE_ENABLE : Z := 0xA8.
Definition KBD_CCMD_TEST_MOUSE : Z := 0xA9.
Definition KBD_CCMD_SELF_TEST : Z := 0xAA.
Definition KBD_CCMD_KBD_TEST : Z := 0xAB.
Definition KBD_CCMD_KBD_DISABLE : Z := 0xAD.
Definition KBD_CCMD_KBD_ENABLE : Z := 0xAE.
Definition KBD_CCMD_READ_INPORT : Z := 0xC0.
Definition KBD_CCMD_READ_OUTPORT : Z := 0xD0.
Definition KBD_CCMD_WRITE_OUTPORT : Z := 0xD1.
Definition KBD_CCMD_WRITE_OBUF : Z := 0xD2.
Definition KBD_CCMD_WRITE_AUX_OBUF : Z := 0xD3.
Definition KBD_CCMD_WRITE_MOUSE : Z := 0xD4.
Definition KBD_CCMD_DISABLE_A20 : Z := 0xDD.
Definition KBD_CCMD_ENABLE_A20 : Z := 0xDF.
Definition KBD_CCMD_PULSE_BITS_3_0 : Z := 0xF0.
Definition KBD_CCMD_RESET : Z := 0xFE.
Definition KBD_CCMD_NO_OP : Z := 0xFF.
Definition KBD_STAT_OBF : Z := 0x01.
Definition KBD_STAT_SELFTEST : Z := 0x04.
Definition KBD_STAT_CMD : Z := 0x08.
Definition KBD_STAT_UNLOCKED : Z := 0x10.
Definition KBD_STAT_MOUSE_OBF : Z := 0x20.
Definition KBD_MODE_KBD_INT : Z := 0x01.
Definition KBD_MODE_MOUSE_INT : Z := 0x02.
Definition KBD_MODE_DISABLE_KBD : Z := 0x10.
Definition KBD_MODE_DISABLE_MOUSE : Z := 0x20.
Definition KBD_MODE_KCC : Z := 0x40.
Definition KBD_OUT_RESET : Z := 0x01.
Definition KBD_OUT_A20 : Z := 0x02.
Definition KBD_OUT_OBF : Z := 0x10.
Definition KBD_OUT_MOUSE_OBF : Z := 0x20.
Definition KBD_PENDING_KBD : Z := 1.
Definition KBD_PENDING_AUX : Z := 2.

(** ** State *)

Record KBDState := mkKBD {
  write_cmd : Z;
  status : Z;
  mode : Z;
  outport : Z;
  pending : Z;
  irq_kbd : Z;
  irq_mouse : Z;
  a20_out : option Z;
  mask : Z;
  reset_requests : nat
}.

Definition set_write_cmd (v : Z) (s : KBDState) : KBDState :=
  mkKBD v (status s) (mode s) (outport s) (pending s) (irq_kbd s) (irq_mouse s) (a20_out
    s) (mask s) (reset_requests s).
Definition set_status (v : Z) (s : KBDState) : KBDState :=
  mkKBD (write_cmd s) v (mode s) (outport s) (pending s) (irq_kbd s) (irq_mouse s)
    (a20_out s) (mask s) (reset_requests s).
Definition set_mode (v : Z) (s : KBDState) : KBDState :=
  mkKBD (write_cmd s) (status s) v (outport s) (pending s) (irq_kbd s) (irq_mouse s)
    (a20_out s) (mask s) (reset_requests s).
Definition set_outport (v : Z) (s : KBDState) : KBDState :=
  mkKBD (write_cmd s) (status s) (mode s) v (pending s) (irq_kbd s) (irq_mouse s) (a20_out
    s) (mask s) (reset_requests s).
Definition set_pending (v : Z) (s : KBDState) : KBDState :=
  mkKBD (write_cmd s) (status s) (mode s) (outport s) v (irq_kbd s) (irq_mouse s) (a20_out
    s) (mask s) (reset_requests s).
Definition set_irq_kbd (v : Z) (s : KBDState) : KBDState :=
  mkKBD (write_cmd s) (status s) (mode s) (outport s) (pending s) v (irq_mouse s) (a20_out
    s) (mask s) (reset_requests s).
Definition set_irq_mouse (v : Z) (s : KBDState) : KBDState :=
  mkKBD (write_cmd s) (status s) (mode s) (outport s) (pending s) (irq_kbd s) v (a20_out
    s) (mask s) (reset_requests s).
Definition set_a20_out (v : option Z) (s : KBDState) : KBDState :=
  mkKBD (write_cmd s) (status s) (mode s) (outport s) (pending s) (irq_kbd s) (irq_mouse
    s) v (mask s) (reset_requests s).
Definition set_mask (v : Z) (s : KBDState) : KBDState :=
  mkKBD (write_cmd s) (status s) (mode s) (outport s) (pending s) (irq_kbd s) (irq_mouse
    s) (a20_out s) v (reset_requests s).
Definition set_reset_requests (v : nat) (s : KBDState) : KBDState :=
  mkKBD (write_cmd s) (status s) (mode s) (outport s) (pending s) (irq_kbd s) (irq_mouse
    s) (a20_out s) (mask s) v.

Record I8042 := mkI8042 {
  regs : KBDState;
  kbd : PS2.PS2KbdState;
  mouse : PS2.PS2MouseState
}.

(** A step on the registers, on the keyboard and on the mouse. *)
Definition on_regs (f : KBDState -> KBDState) (c : I8042) : I8042 :=
  mkI8042 (f (regs c)) (kbd c) (mouse c).
Definition on_kbd (f : PS2.PS2KbdState * KBDState -> PS2.PS2KbdState * KBDState) (c : I8042)
    : I8042 :=
  let '(k, r) := f (kbd c, regs c) in mkI8042 r k (mouse c).
Definition on_mouse (f : PS2.PS2MouseState * KBDState -> PS2.PS2MouseState * KBDState)
    (c : I8042) : I8042 :=
  let '(m, r) := f (mouse c, regs c) in mkI8042 r (kbd c) m.

(** ** Interrupts *)

Definition kbd_update_irq (s : KBDState) : KBDState :=
  let s := set_status (u8 (status s &. ~. (KBD_STAT_OBF |. KBD_STAT_MOUSE_OBF))) s in
  let s := set_outport (u8 (outport s &. ~. (KBD_OUT_OBF |. KBD_OUT_MOUSE_OBF))) s in
  let '(irq_kbd_level, irq_mouse_level, s) :=
    if truthy (pending s) then
      let s := set_status (u8 (status s |. KBD_STAT_OBF)) s in
      let s := set_outport (u8 (outport s |. KBD_OUT_OBF)) s in
      if pending s =? KBD_PENDING_AUX then
        let s := set_status (u8 (status s |. KBD_STAT_MOUSE_OBF)) s in
        let s := set_outport (u8 (outport s |. KBD_OUT_MOUSE_OBF)) s in
        (0, if truthy (mode s &. KBD_MODE_MOUSE_INT) then 1 else 0, s)
      else
        (if truthy (mode s &. KBD_MODE_KBD_INT) && negb (truthy (mode s &. KBD_MODE_DISABLE_KBD))
         then 1 else 0, 0, s)
    else (0, 0, s) in
  set_irq_mouse irq_mouse_level (set_irq_kbd irq_kbd_level s).

Definition kbd_update_kbd_irq (level : Z) (s : KBDState) : KBDState :=
  kbd_update_irq
    (if truthy level then set_pending (u8 (pending s |. KBD_PENDING_KBD)) s
     else set_pending (u8 (pending s &. ~. KBD_PENDING_KBD)) s).

Definition kbd_update_aux_irq (level : Z) (s : KBDState) : KBDState :=
  kbd_update_irq
    (if truthy level then set_pending (u8 (pending s |. KBD_PENDING_AUX)) s
     else set_pending (u8 (pending s &. ~. KBD_PENDING_AUX)) s).

(** ** Ports *)

Definition kbd_read_status (c : I8042) : Z := status (regs c).

Definition kbd_queue (b aux : Z) (c : I8042) : I8042 :=
  if truthy aux then
    on_mouse (PS2.on_mcommon (PS2.ps2_queue kbd_update_aux_irq b)) c
  else on_kbd (PS2.on_kcommon (PS2.ps2_queue kbd_update_kbd_irq b)) c.

(** [qemu_set_irq] on the A20 line, when [a20_out] is not null. *)
Definition set_a20 (level : Z) (s : KBDState) : KBDState :=
  match a20_out s with Some _ => set_a20_out (Some level) s | None => s end.
Definition qemu_system_reset_request (s : KBDState) : KBDState :=
  set_reset_requests (S (reset_requests s)) s.

Definition outport_write (val : Z) (s : KBDState) : KBDState :=
  let s := set_outport (u8 val) s in
  let s := set_a20 ((val >>. 1) &. 1) s in
  if negb (truthy (val &. 1)) then qemu_system_reset_request s else s.

Definition kbd_write_command (val : Z) (c : I8042) : I8042 :=
  let val :=
    if (val &. KBD_CCMD_PULSE_BITS_3_0) =? KBD_CCMD_PULSE_BITS_3_0 then
      if negb (truthy (val &. 1)) then KBD_CCMD_RESET else KBD_CCMD_NO_OP
    else val in
  if val =? KBD_CCMD_READ_MODE then kbd_queue (mode (regs c)) 0 c
  else if (val =? KBD_CCMD_WRITE_MODE) || (val =? KBD_CCMD_WRITE_OBUF) ||
          (val =? KBD_CCMD_WRITE_AUX_OBUF) || (val =? KBD_CCMD_WRITE_MOUSE) ||
          (val =? KBD_CCMD_WRITE_OUTPORT) then on_regs (set_write_cmd (u8 val)) c
  else if val =? KBD_CCMD_MOUSE_DISABLE then
    on_regs (fun s => set_mode (u8 (mode s |. KBD_MODE_DISABLE_MOUSE)) s) c
  else if val =? KBD_CCMD_MOUSE_ENABLE then
    on_regs (fun s => set_mode (u8 (mode s &. ~. KBD_MODE_DISABLE_MOUSE)) s) c
  else if val =? KBD_CCMD_TEST_MOUSE then kbd_queue 0x00 0 c
  else if val =? KBD_CCMD_SELF_TEST then
    kbd_queue 0x55 0 (on_regs (fun s => set_status (u8 (status s |. KBD_STAT_SELFTEST)) s) c)
  else if val =? KBD_CCMD_KBD_TEST then kbd_queue 0x00 0 c
  else if val =? KBD_CCMD_KBD_DISABLE then
    on_regs (fun s => kbd_update_irq (set_mode (u8 (mode s |. KBD_MODE_DISABLE_KBD)) s)) c
  else if val =? KBD_CCMD_KBD_ENABLE then
    on_regs (fun s => kbd_update_irq (set_mode (u8 (mode s &. ~. KBD_MODE_DISABLE_KBD)) s)) c
  else if val =? KBD_CCMD_READ_INPORT then kbd_queue 0x00 0 c
  else if val =? KBD_CCMD_READ_OUTPORT then kbd_queue (outport (regs c)) 0 c
  else if val =? KBD_CCMD_ENABLE_A20 then
    on_regs (fun s => let s := set_a20 1 s in set_outport (u8 (outport s |. KBD_OUT_A20)) s) c
  else if val =? KBD_CCMD_DISABLE_A20 then
    on_regs (fun s => let s := set_a20 0 s in set_outport (u8 (outport s &. ~. KBD_OUT_A20)) s) c
  else if val =? KBD_CCMD_RESET then on_regs qemu_system_reset_request c
  else c.

Definition kbd_read_data (c : I8042) : Z * I8042 :=
  if pending (regs c) =? KBD_PENDING_AUX then
    let '(val, (m, r)) := PS2.ps2_read_data kbd_update_aux_irq (PS2.mcommon (mouse c), regs c) in
    (val, mkI8042 r (kbd c) (PS2.set_mcommon m (mouse c)))
  else
    let '(val, (k, r)) := PS2.ps2_read_data kbd_update_kbd_irq (PS2.kcommon (kbd c), regs c) in
    (val, mkI8042 r (PS2.set_kcommon k (kbd c)) (mouse c)).

Definition kbd_write_data (val : Z) (c : I8042) : I8042 :=
  let cmd := write_cmd (regs c) in
  let c :=
    if cmd =? 0 then on_kbd (PS2.ps2_write_keyboard kbd_update_kbd_irq val) c
    else if cmd =? KBD_CCMD_WRITE_MODE then
      let c := on_regs (set_mode (u8 val)) c in
      let translate := of_bool (truthy (mode (regs c) &. KBD_MODE_KCC)) in
      let c := on_kbd (fun '(k, r) => (PS2.ps2_keyboard_set_translation translate k, r)) c in
      on_regs kbd_update_irq c
    else if cmd =? KBD_CCMD_WRITE_OBUF then kbd_queue val 0 c
    else if cmd =? KBD_CCMD_WRITE_AUX_OBUF then kbd_queue val 1 c
    else if cmd =? KBD_CCMD_WRITE_OUTPORT then on_regs (outport_write val) c
    else if cmd =? KBD_CCMD_WRITE_MOUSE then
      on_mouse (PS2.ps2_write_mouse kbd_update_aux_irq val) c
    else c in
  on_regs (set_write_cmd 0) c.

(** ** Reset and creation *)

Definition kbd_reset (s : KBDState) : KBDState :=
  let s := set_mode (KBD_MODE_KBD_INT |. KBD_MODE_MOUSE_INT) s in
  let s := set_status (KBD_STAT_CMD |. KBD_STAT_UNLOCKED) s in
  set_outport (KBD_OUT_RESET |. KBD_OUT_A20) s.

(** The reset handlers in the order of their registration: the two devices
    register theirs when they are created, before the controller. *)
Definition system_reset (c : I8042) : I8042 :=
  on_regs kbd_reset
    (on_mouse (PS2.ps2_mouse_reset kbd_update_aux_irq)
      (on_kbd (PS2.ps2_kbd_reset kbd_update_kbd_irq) c)).

Definition i8042_initfn : I8042 :=
  mkI8042 (mkKBD 0 0 0 0 0 0 0 None 0 0) PS2.ps2_kbd_init PS2.ps2_mouse_init.

Definition i8042_mm_init (mask : Z) : I8042 := on_regs (set_mask mask) i8042_initfn.

Definition i8042_setup_a20_line (level : Z) (c : I8042) : I8042 :=
  on_regs (set_a20_out (Some level)) c.

(** The events of the user interface. *)
Definition key_event (keycode : Z) (c : I8042) : I8042 :=
  on_kbd (PS2.ps2_put_keycode kbd_update_kbd_irq keycode) c.
Definition mouse_event (dx dy dz buttons : Z) (c : I8042) : option I8042 :=
  '(m, r) ← PS2.ps2_mouse_event kbd_update_aux_irq dx dy dz buttons (mouse c, regs c);
  Some (mkI8042 r (kbd c) m).
Definition i8042_isa_mouse_fake_event (c : I8042) : option I8042 :=
  '(m, r) ← PS2.ps2_mouse_fake_event kbd_update_aux_irq (mouse c, regs c);
  Some (mkI8042 r (kbd c) m).

(** ** Memory mapped interface *)

Definition kbd_mm_readb (addr : Z) (c : I8042) : Z * I8042 :=
  if truthy (addr &. mask (regs c)) then (kbd_read_status c &. 0xff, c)
  else let '(val, c) := kbd_read_data c in (val &. 0xff, c).

Definition kbd_mm_writeb (addr value : Z) (c : I8042) : I8042 :=
  if truthy (addr &. mask (regs c)) then kbd_write_command (value &. 0xff) c
  else kbd_write_data (value &. 0xff) c.

(** ** Status and interrupt lines *)

(** The registers are bytes, and [pending] has two bits. *)
Definition bytes (s : KBDState) : Prop :=
  is_u8 (write_cmd s) /\ is_u8 (status s) /\ is_u8 (mode s) /\ is_u8 (outport s) /\
  0 <= pending s <= 3.

(** Data waits; only the mouse has data waiting. *)
Definition obf (s : KBDState) : bool := truthy (pending s).
Definition aux_only (s : KBDState) : bool := pending s =? 2.

(** The status bits and the interrupt lines follow [pending] and [mode]. *)
Definition consistent (s : KBDState) : Prop :=
  Z.testbit (status s) 0 = obf s /\ Z.testbit (status s) 5 = aux_only s /\
  irq_kbd s =
    of_bool (obf s && negb (aux_only s) && Z.testbit (mode s) 0 && negb (Z.testbit (mode s) 4)) /\
  irq_mouse s = of_bool (aux_only s && Z.testbit (mode s) 1).

Lemma mask_bit x i m : m = 1 <<. i -> 0 <= i -> truthy (x &. m) = Z.testbit x i.
Proof. intros -> ?. by apply truthy_land_bit. Qed.

(** Bits of a stored byte. *)
Lemma stored_bit x i : 0 <= i < 8 -> Z.testbit (u8 x) i = Z.testbit x i.
Proof. intros. apply wrap_testbit; lia. Qed.
#[export] Hint Rewrite stored_bit using lia : cbits.

(** Computes the fields of an updated record of registers. *)
Ltac kproj :=
  cbn [write_cmd status mode outport pending irq_kbd irq_mouse a20_out mask reset_requests
       set_write_cmd set_status set_mode set_outport set_pending set_irq_kbd set_irq_mouse
       set_a20_out set_mask set_reset_requests] in *.

Lemma update_irq_spec s :
  bytes s ->
  let s' := kbd_update_irq s in
  bytes s' /\ consistent s' /\ pending s' = pending s /\ mode s' = mode s /\
  write_cmd s' = write_cmd s.
Proof.
  destruct s as [wc st md op pd ik im a2 mk rr]. unfold bytes. kproj.
  intros (B1 & B2 & B3 & B4 & B5). unfold kbd_update_irq. kproj.
  assert (W : forall x, is_u8 (u8 x)) by (intros; by apply wrap_range).
  rewrite !(mask_bit _ 1 KBD_MODE_MOUSE_INT), !(mask_bit _ 0 KBD_MODE_KBD_INT),
    !(mask_bit _ 4 KBD_MODE_DISABLE_KBD) by (reflexivity || lia).
  unfold consistent, obf, aux_only, KBD_PENDING_AUX.
  destruct (truthy pd) eqn:Ep; [destruct (Z.eqb_spec pd 2) as [E2|N2]|]; kproj;
    (split; [by eauto 10|]); autorewrite with cbits; constbits.
  - subst pd. cbn [andb orb negb]. rewrite !orb_true_r. by destruct (Z.testbit md 1).
  - rewrite Ep. destruct (Z.eqb_spec pd 2); [done|]. cbn [andb negb orb].
    destruct (Z.testbit st 0), (Z.testbit st 5), (Z.testbit md 0), (Z.testbit md 4); done.
  - apply negb_false_iff, Z.eqb_eq in Ep. subst pd.
    by destruct (Z.testbit st 0), (Z.testbit st 5).
Qed.

(** ** The controller as host of its devices *)

Lemma set_pending_bit s i (b : bool) :
  bytes s -> 0 <= i <= 1 ->
  let p := if b then u8 (pending s |. (1 <<. i)) else u8 (pending s &. ~. (1 <<. i)) in
  bytes (set_pending p s) /\ Z.testbit p i = b /\
  (forall j, 0 <= j <= 1 -> j <> i -> Z.testbit p j = Z.testbit (pending s) j).
Proof.
  intros (B1 & B2 & B3 & B4 & B5) Hi p.
  assert (Hb : forall j, 0 <= j < 8 ->
    Z.testbit p j = if i =? j then b else Z.testbit (pending s) j).
  { intros j Hj. unfold p. destruct b; rewrite stored_bit by lia;
      [rewrite testbit_set by lia|rewrite testbit_clear by lia]; by destruct (i =? j). }
  split; [|split].
  - unfold bytes. kproj. split_and!; try done.
    + unfold p. destruct b; apply wrap_range; lia.
    + assert (Hp : is_uint 2 p); [|unfold is_uint in Hp; lia].
      apply is_uint_bits; [lia|]. split; [unfold p; destruct b; apply wrap_range; lia|].
      intros j Hj. destruct (Z.lt_ge_cases j 8).
      * rewrite Hb by lia. rewrite (proj2 (Z.eqb_neq i j)) by lia.
        apply (testbit_uint 2); [unfold is_uint; lia|lia].
      * apply (testbit_uint 8); [unfold p; destruct b; apply wrap_range; lia|lia].
  - rewrite Hb by lia. by rewrite Z.eqb_refl.
  - intros j Hj Hne. rewrite Hb by lia. by rewrite (proj2 (Z.eqb_neq i j)) by lia.
Qed.

Definition kbd_line (s : KBDState) : bool := Z.testbit (pending s) 0.
Definition aux_line (s : KBDState) : bool := Z.testbit (pending s) 1.

(** The invariant of the registers that the callbacks of one device keep,
    the line of the other device included. *)
Definition host_inv (other : KBDState -> bool) (b : bool) (s : KBDState) : Prop :=
  bytes s /\ consistent s /\ other s = b.

Lemma pending_update_irq s : pending (kbd_update_irq s) = pending s.
Proof.
  unfold kbd_update_irq. kproj. destruct (truthy _); [|done]. by destruct (_ =? _).
Qed.

(** The two callbacks, as one function of the bit of [pending] they move. *)
Definition update_line (i level : Z) (s : KBDState) : KBDState :=
  kbd_update_irq (set_pending
    (if truthy level then u8 (pending s |. (1 <<. i)) else u8 (pending s &. ~. (1 <<. i))) s).

Lemma update_line_eq level s :
  kbd_update_kbd_irq level s = update_line 0 level s /\
  kbd_update_aux_irq level s = update_line 1 level s.
Proof.
  unfold kbd_update_kbd_irq, kbd_update_aux_irq, update_line. by destruct (truthy level).
Qed.

Lemma update_line_bit i level s : 0 <= i <= 1 ->
  Z.testbit (pending (update_line i level s)) i = truthy level.
Proof.
  intros Hi. unfold update_line. rewrite pending_update_irq. kproj.
  destruct (truthy level); rewrite stored_bit by lia;
    [rewrite testbit_set by lia|rewrite testbit_clear by lia]; by rewrite Z.eqb_refl.
Qed.

Lemma update_line_inv i j level b s :
  0 <= i <= 1 -> 0 <= j <= 1 -> i <> j ->
  host_inv (fun s => Z.testbit (pending s) j) b s ->
  host_inv (fun s => Z.testbit (pending s) j) b (update_line i level s).
Proof.
  intros Hi Hj Hn (B & C & O). unfold update_line.
  destruct (set_pending_bit s i (truthy level) B Hi) as (B' & _ & Hb).
  set (s' := set_pending _ s) in *. destruct (update_irq_spec s' B') as (U1 & U2 & U3 & _).
  split; [done|]. split; [done|]. rewrite U3, <- O. by apply Hb; [|lia].
Qed.

#[export] Instance kbd_host (b : bool) :
  PS2.IrqHost kbd_update_kbd_irq kbd_line (host_inv aux_line b).
Proof.
  split; intros l h; rewrite (proj1 (update_line_eq l h)).
  - by apply update_line_bit.
  - by apply update_line_inv.
Qed.

#[export] Instance aux_host (b : bool) :
  PS2.IrqHost kbd_update_aux_irq aux_line (host_inv kbd_line b).
Proof.
  split; intros l h; rewrite (proj2 (update_line_eq l h)).
  - by apply update_line_bit.
  - by apply update_line_inv.
Qed.

(** ** The invariant of the controller *)

Definition kq (c : I8042) : PS2.PS2Queue := PS2.queue (PS2.kcommon (kbd c)).
Definition mq (c : I8042) : PS2.PS2Queue := PS2.queue (PS2.mcommon (mouse c)).

(** Each bit of [pending] says whether its device has bytes waiting, and the
    status register and the interrupt lines follow. *)
Definition coupled (c : I8042) : Prop :=
  PS2.ring (kq c) /\ PS2.ring (mq c) /\ bytes (regs c) /\ consistent (regs c) /\
  kbd_line (regs c) = negb (PS2.count (kq c) =? 0) /\
  aux_line (regs c) = negb (PS2.count (mq c) =? 0).

Lemma on_kbd_coupled f c :
  (forall b, PS2.synced_kbd kbd_line (host_inv aux_line b) (kbd c, regs c) ->
     PS2.synced_kbd kbd_line (host_inv aux_line b) (f (kbd c, regs c))) ->
  coupled c -> coupled (on_kbd f c).
Proof.
  intros Hf (R1 & R2 & B & C & L1 & L2). unfold on_kbd.
  specialize (Hf _ (conj R1 (conj L1 (conj B (conj C L2))))).
  destruct (f (kbd c, regs c)) as [k r]. destruct Hf as (R1' & L1' & B' & C' & L2').
  repeat (split; [done|]). done.
Qed.

Lemma on_mouse_coupled f c :
  (forall b, PS2.synced_mouse aux_line (host_inv kbd_line b) (mouse c, regs c) ->
     PS2.synced_mouse aux_line (host_inv kbd_line b) (f (mouse c, regs c))) ->
  coupled c -> coupled (on_mouse f c).
Proof.
  intros Hf (R1 & R2 & B & C & L1 & L2). unfold on_mouse.
  specialize (Hf _ (conj R2 (conj L2 (conj B (conj C L1))))).
  destruct (f (mouse c, regs c)) as [m r]. destruct Hf as (R2' & L2' & B' & C' & L1').
  repeat (split; [done|]). done.
Qed.

(** A change of registers that leaves [pending] alone. *)
Definition keeps_regs (f : KBDState -> KBDState) : Prop :=
  forall s, bytes s -> consistent s ->
    bytes (f s) /\ consistent (f s) /\ pending (f s) = pending s.

Lemma on_regs_coupled f c : keeps_regs f -> coupled c -> coupled (on_regs f c).
Proof.
  intros Hf (R1 & R2 & B & C & L1 & L2). destruct (Hf _ B C) as (B' & C' & P).
  split; [done|]. split; [done|]. split; [done|]. split; [done|].
  unfold kbd_line, aux_line in *. cbn. by rewrite P.
Qed.

Create HintDb kbd discriminated.
#[export] Hint Resolve on_kbd_coupled on_mouse_coupled on_regs_coupled : kbd.

Lemma kbd_queue_coupled b aux c : coupled c -> coupled (kbd_queue b aux c).
Proof.
  intros Hc. unfold kbd_queue. destruct (truthy aux).
  - apply on_mouse_coupled; [|done]. intros x Hs. apply PS2.on_mcommon_synced; [|done].
    apply PS2.ps2_queue_synced, _.
  - apply on_kbd_coupled; [|done]. intros x Hs. apply PS2.on_kcommon_synced; [|done].
    apply PS2.ps2_queue_synced, _.
Qed.
#[export] Hint Resolve kbd_queue_coupled : kbd.

(** Updates of single registers. *)
Lemma keeps_update f :
  (forall s, bytes s -> bytes (f s) /\ pending (f s) = pending s) ->
  keeps_regs (fun s => kbd_update_irq (f s)).
Proof.
  intros Hf s B _. destruct (Hf s B) as [B' P]. destruct (update_irq_spec _ B') as (U1 & U2 & U3 & _).
  split; [done|]. split; [done|]. by rewrite U3.
Qed.

Lemma bytes_set_mode s v : bytes s -> bytes (set_mode (u8 v) s) /\ pending (set_mode (u8 v) s) = pending s.
Proof.
  intros (B1 & B2 & B3 & B4 & B5). split; [|done].
  assert (W : is_u8 (u8 v)) by (by apply wrap_range). by unfold bytes; eauto.
Qed.

Lemma keeps_write_cmd v : keeps_regs (set_write_cmd (u8 v)).
Proof.
  intros s (B1 & B2 & B3 & B4 & B5) C. split; [|done].
  assert (W : is_u8 (u8 v)) by (by apply wrap_range). by unfold bytes; eauto.
Qed.

Lemma keeps_set_a20 v : keeps_regs (set_a20 v).
Proof. intros s B C. unfold set_a20. by destruct (a20_out s). Qed.

Lemma keeps_outport g : keeps_regs (fun s => set_outport (u8 (g s)) s).
Proof.
  intros s (B1 & B2 & B3 & B4 & B5) C. split; [|done].
  assert (W : is_u8 (u8 (g s))) by (by apply wrap_range). by unfold bytes; eauto.
Qed.

Lemma keeps_mode_bit5 g :
  (forall x i, 0 <= i < 5 -> Z.testbit (g x) i = Z.testbit x i) ->
  keeps_regs (fun s => set_mode (u8 (g (mode s))) s).
Proof.
  intros Hg s B C. destruct (bytes_set_mode s (g (mode s)) B) as [B' P]. split; [done|].
  split; [|done]. revert C. unfold consistent, obf, aux_only. kproj.
  rewrite !stored_bit, !Hg by lia. done.
Qed.

Lemma keeps_selftest : keeps_regs (fun s => set_status (u8 (status s |. KBD_STAT_SELFTEST)) s).
Proof.
  intros s (B1 & B2 & B3 & B4 & B5) C.
  assert (W : is_u8 (u8 (status s |. KBD_STAT_SELFTEST))) by (by apply wrap_range).
  split; [by unfold bytes; eauto|]. split; [|done]. revert C. unfold consistent, obf, aux_only.
  kproj. autorewrite with cbits. constbits. by rewrite !orb_false_r.
Qed.

Lemma keeps_compose f g : keeps_regs f -> keeps_regs g -> keeps_regs (fun s => g (f s)).
Proof.
  intros Hf Hg s B C. destruct (Hf s B C) as (B1 & C1 & P1).
  destruct (Hg _ B1 C1) as (B2 & C2 & P2). rewrite P2. done.
Qed.

Lemma keeps_reset_request : keeps_regs qemu_system_reset_request.
Proof. by intros s. Qed.

#[export] Hint Resolve keeps_write_cmd keeps_outport keeps_selftest keeps_reset_request
  keeps_set_a20 : kbd.

Lemma write_command_coupled val c : coupled c -> coupled (kbd_write_command val c).
Proof.
  intros Hc. unfold kbd_write_command. set (v := if _ =? _ then _ else val). clearbody v.
  repeat match goal with |- context [if ?b then _ else _] => destruct b end; auto with kbd.
  - apply on_regs_coupled; [|done]. apply (keeps_mode_bit5 (fun x => x |. KBD_MODE_DISABLE_MOUSE)).
    intros x i Hi. rewrite (testbit_set x 5) by lia. by rewrite (proj2 (Z.eqb_neq 5 i)) by lia.
  - apply on_regs_coupled; [|done]. apply (keeps_mode_bit5 (fun x => x &. ~. KBD_MODE_DISABLE_MOUSE)).
    intros x i Hi. rewrite (testbit_clear x 5) by lia. by rewrite (proj2 (Z.eqb_neq 5 i)) by lia.
  - apply on_regs_coupled; [|done].
    apply (keeps_update (fun s => set_mode (u8 (mode s |. KBD_MODE_DISABLE_KBD)) s)).
    intros s. apply bytes_set_mode.
  - apply on_regs_coupled; [|done].
    apply (keeps_update (fun s => set_mode (u8 (mode s &. ~. KBD_MODE_DISABLE_KBD)) s)).
    intros s. apply bytes_set_mode.
  - apply on_regs_coupled; [|done].
    apply (keeps_compose (set_a20 1) (fun s => set_outport (u8 (outport s |. KBD_OUT_A20)) s));
      auto with kbd.
  - apply on_regs_coupled; [|done].
    apply (keeps_compose (set_a20 0) (fun s => set_outport (u8 (outport s &. ~. KBD_OUT_A20)) s));
      auto with kbd.
Qed.

Lemma read_data_coupled c : coupled c -> coupled (snd (kbd_read_data c)).
Proof.
  intros (R1 & R2 & B & C & L1 & L2). unfold kbd_read_data.
  destruct (_ =? KBD_PENDING_AUX).
  - pose proof (PS2.ps2_read_data_synced kbd_update_aux_irq aux_line (host_inv kbd_line _)
      (PS2.mcommon (mouse c), regs c) (conj R2 (conj L2 (conj B (conj C L1))))) as P.
    destruct (PS2.ps2_read_data _ _) as [v [m r]]. destruct P as (R2' & L2' & B' & C' & L1').
    exact (conj R1 (conj R2' (conj B' (conj C' (conj L1' L2'))))).
  - pose proof (PS2.ps2_read_data_synced kbd_update_kbd_irq kbd_line (host_inv aux_line _)
      (PS2.kcommon (kbd c), regs c) (conj R1 (conj L1 (conj B (conj C L2))))) as P.
    destruct (PS2.ps2_read_data _ _) as [v [k r]]. destruct P as (R1' & L1' & B' & C' & L2').
    exact (conj R1' (conj R2 (conj B' (conj C' (conj L1' L2'))))).
Qed.

Lemma outport_write_keeps val : keeps_regs (outport_write val).
Proof.
  unfold outport_write.
  apply (keeps_compose (fun s => set_a20 ((val >>. 1) &. 1) (set_outport (u8 val) s))
    (fun s => if negb (truthy (val &. 1)) then qemu_system_reset_request s else s)).
  - apply (keeps_compose (set_outport (u8 val)) (set_a20 ((val >>. 1) &. 1))); auto with kbd.
  - destruct (negb _); [apply keeps_reset_request|by intros s].
Qed.
#[export] Hint Resolve outport_write_keeps : kbd.

Lemma write_data_coupled val c : coupled c -> coupled (kbd_write_data val c).
Proof.
  intros Hc. unfold kbd_write_data.
  apply on_regs_coupled; [apply (keeps_write_cmd 0)|].
  destruct (_ =? 0).
  { apply on_kbd_coupled; [|done]. intros. by apply (PS2.ps2_write_keyboard_synced _ _ _). }
  destruct (_ =? KBD_CCMD_WRITE_MODE).
  { destruct Hc as (R1 & R2 & B & C & L1 & L2).
    destruct (bytes_set_mode _ val B) as [B' P]. destruct (update_irq_spec _ B') as (U1 & U2 & U3 & _).
    split; [done|]. split; [done|]. split; [done|]. split; [done|].
    unfold kbd_line, aux_line in *. cbn. by rewrite U3. }
  destruct (_ =? KBD_CCMD_WRITE_OBUF); [auto with kbd|].
  destruct (_ =? KBD_CCMD_WRITE_AUX_OBUF); [auto with kbd|].
  destruct (_ =? KBD_CCMD_WRITE_OUTPORT); [auto with kbd|].
  destruct (_ =? KBD_CCMD_WRITE_MOUSE); [|done].
  apply on_mouse_coupled; [|done]. intros. by apply (PS2.ps2_write_mouse_synced _ _ _).
Qed.

(** ** Reachable states *)

Inductive reachable : I8042 -> Prop :=
  | reach_init : reachable i8042_initfn
  | reach_a20 level c : reachable c -> reachable (i8042_setup_a20_line level c)
  | reach_system_reset c : reachable c -> reachable (system_reset c)
  | reach_command val c : reachable c -> reachable (kbd_write_command val c)
  | reach_write val c : reachable c -> reachable (kbd_write_data val c)
  | reach_read c : reachable c -> reachable (snd (kbd_read_data c))
  | reach_key keycode c : reachable c -> reachable (key_event keycode c)
  | reach_mouse dx dy dz buttons c c' :
      reachable c -> mouse_event dx dy dz buttons c = Some c' -> reachable c'.

Lemma pending_cases s :
  bytes s -> pending s = of_bool (kbd_line s) + 2 * of_bool (aux_line s).
Proof.
  intros (_ & _ & _ & _ & B). unfold kbd_line, aux_line.
  assert (pending s = 0 \/ pending s = 1 \/ pending s = 2 \/ pending s = 3) as Hc by lia.
  repeat destruct Hc as [-> | Hc]; [..|rewrite Hc]; reflexivity.
Qed.

Lemma mouse_event_coupled dx dy dz b c c' :
  coupled c -> mouse_event dx dy dz b c = Some c' -> coupled c'.
Proof.
  intros (R1 & R2 & B & C & L1 & L2). unfold mouse_event.
  destruct (PS2.ps2_mouse_event _ _ _ _ _ _) as [[m r]|] eqn:E; [|done]. intros [= <-].
  apply (PS2.ps2_mouse_event_synced kbd_update_aux_irq aux_line
    (host_inv kbd_line (negb (PS2.count (kq c) =? 0)))) in E as (R2' & L2' & B' & C' & L1');
    [|exact (conj R2 (conj L2 (conj B (conj C L1))))].
  exact (conj R1 (conj R2' (conj B' (conj C' (conj L1' L2'))))).
Qed.

Lemma system_reset_coupled c : coupled c -> coupled (system_reset c).
Proof.
  intros Hc. unfold system_reset.
  set (c1 := on_kbd _ c). set (c2 := on_mouse _ c1).
  assert (H1 : coupled c1 /\ PS2.count (kq c1) = 0).
  { split; [|done]. apply on_kbd_coupled; [|done]. intros b (R & L & I).
    apply (PS2.ps2_kbd_reset_synced _ _ _); [exact R|exact I]. }
  assert (H2 : coupled c2 /\ PS2.count (kq c2) = 0 /\ PS2.count (mq c2) = 0).
  { split; [|done]. apply on_mouse_coupled; [|apply H1]. intros b (R & L & I).
    apply (PS2.ps2_mouse_reset_synced _ _ _); [exact R|exact I]. }
  clearbody c2. destruct H2 as ((R1 & R2 & B & C & L1 & L2) & E1 & E2).
  rewrite E1 in L1. rewrite E2 in L2.
  assert (P : pending (regs c2) = 0) by (by rewrite pending_cases, L1, L2).
  destruct (regs c2) as [wc st md op pd ik im a2 mk rr] eqn:Er. kproj. subst pd.
  destruct B as (B1 & _ & _ & _ & _), C as (_ & _ & C3 & C4). kproj.
  unfold coupled, on_regs. cbn [regs]. rewrite Er.
  split; [done|]. split; [done|]. split; [by unfold bytes; kproj; split_and!|].
  split; [|unfold kq, mq in *; cbn [kbd mouse]; rewrite E1, E2; done]. unfold consistent. kproj. rewrite C3, C4. done.
Qed.

Lemma reachable_coupled c : reachable c -> coupled c.
Proof.
  induction 1 as [|level c _ IH|c _ IH|val c _ IH|val c _ IH|c _ IH|k c _ IH|dx dy dz b c c' _ IH E].
  - split; [apply PS2.ring_init|]. split; [apply PS2.ring_init|]. by vm_compute.
  - apply on_regs_coupled; [by intros s|done].
  - by apply system_reset_coupled.
  - by apply write_command_coupled.
  - by apply write_data_coupled.
  - by apply read_data_coupled.
  - apply on_kbd_coupled; [|done]. intros. by apply (PS2.ps2_put_keycode_synced _ _ _).
  - by eapply mouse_event_coupled.
Qed.

(** C35: what the status port and the interrupt lines say.  In every
    reachable state, output buffer full means that a device has bytes waiting,
    the mouse bit that only the mouse has; the keyboard interrupt is raised
    exactly when a keyboard byte waits and the mode enables it, the mouse interrupt
    when only mouse bytes wait and the mode enables it; and a mouse event of the
    user interface always completes. *)
Theorem i8042_status_and_lines c :
  reachable c ->
  let k := negb (PS2.count (kq c) =? 0) in
  let m := negb (PS2.count (mq c) =? 0) in
  let md := mode (regs c) in
  Z.testbit (kbd_read_status c) 0 = k || m /\
  Z.testbit (kbd_read_status c) 5 = negb k && m /\
  irq_kbd (regs c) = of_bool (k && Z.testbit md 0 && negb (Z.testbit md 4)) /\
  irq_mouse (regs c) = of_bool (negb k && m && Z.testbit md 1) /\
  forall dx dy dz b, exists c', mouse_event dx dy dz b c = Some c'.
Proof.
  intros Hr k m md. apply reachable_coupled in Hr as (R1 & R2 & B & (C1 & C2 & C3 & C4) & L1 & L2).
  unfold kbd_read_status, obf, aux_only in *. rewrite (pending_cases _ B), L1, L2 in *.
  fold k m in C1, C2, C3, C4. fold md in C3, C4. rewrite C1, C2, C3, C4.
  split_and!; try (by destruct k, m).
  intros dx dy dz b. unfold mouse_event.
  destruct (PS2.ps2_mouse_event_total kbd_update_aux_irq dx dy dz b (mouse c) (regs c) R2)
    as [[m' r'] ->]. by eexists.
Qed.

Lemma i8042_status_and_lines_witness :
  Z.testbit (kbd_read_status (key_event 0x1e (system_reset i8042_initfn))) 0 = true /\
  irq_kbd (regs (key_event 0x1e (system_reset i8042_initfn))) = 1.
Proof.
  pose proof (i8042_status_and_lines (key_event 0x1e (system_reset i8042_initfn))
    ltac:(apply reach_key, reach_system_reset, reach_init)) as (H1 & _ & H2 & _).
  split; [exact H1|exact H2].
Defined.

Lemma read_data_oldest c :
  coupled c ->
  let '(v, c') := kbd_read_data c in
  match PS2.contents (kq c), PS2.contents (mq c) with
  | b :: l, _ => v = b /\ PS2.contents (kq c') = l /\ mq c' = mq c
  | [], b :: l => v = b /\ PS2.contents (mq c') = l /\ kq c' = kq c
  | [], [] => v = PS2.last_byte (kq c) /\ c' = c
  end.
Proof.
  intros (R1 & R2 & B & C & L1 & L2).
  unfold kbd_read_data. rewrite (pending_cases _ B), L1, L2.
  rewrite (PS2.contents_length _ R1), (PS2.contents_length _ R2).
  pose proof (PS2.ps2_read_data_spec kbd_update_kbd_irq (PS2.kcommon (kbd c)) (regs c) R1) as Pk.
  pose proof (PS2.ps2_read_data_spec kbd_update_aux_irq (PS2.mcommon (mouse c)) (regs c) R2) as Pm.
  fold (kq c) in Pk. fold (mq c) in Pm.
  destruct (PS2.contents (kq c)) as [|b l], (PS2.contents (mq c)) as [|b' l']; cbn [length];
    cbn -[PS2.ps2_read_data Z.of_nat].
  - destruct (PS2.ps2_read_data kbd_update_kbd_irq _) as [v [k r]].
    destruct Pk as (_ & _ & _ & -> & -> & ->). by destruct c as [? [] ?].
  - destruct (PS2.ps2_read_data kbd_update_aux_irq _) as [v [m r]].
    by destruct Pm as (_ & _ & _ & -> & Hm & _).
  - destruct (PS2.ps2_read_data kbd_update_kbd_irq _) as [v [k r]].
    by destruct Pk as (_ & _ & _ & -> & Hk & _).
  - destruct (PS2.ps2_read_data kbd_update_kbd_irq _) as [v [k r]].
    by destruct Pk as (_ & _ & _ & -> & Hk & _).
Qed.

(** A read of the data port in a reachable state takes the oldest byte
    of the keyboard, or, when the keyboard has none, the oldest byte of the mouse,
    and leaves the other queue alone; with both empty it repeats the byte of the
    keyboard read last and changes nothing. *)
Theorem i8042_read_data_takes_oldest c :
  reachable c ->
  let '(v, c') := kbd_read_data c in
  match PS2.contents (kq c), PS2.contents (mq c) with
  | b :: l, _ => v = b /\ PS2.contents (kq c') = l /\ mq c' = mq c
  | [], b :: l => v = b /\ PS2.contents (mq c') = l /\ kq c' = kq c
  | [], [] => v = PS2.last_byte (kq c) /\ c' = c
  end.
Proof. intros Hr. by apply read_data_oldest, reachable_coupled. Qed.

Lemma i8042_read_data_takes_oldest_witness :
  fst (kbd_read_data (key_event 0x1e i8042_initfn)) = 28.
Proof.
  pose proof (i8042_read_data_takes_oldest (key_event 0x1e i8042_initfn)
    ltac:(apply reach_key, reach_init)) as W.
  destruct (kbd_read_data (key_event 0x1e i8042_initfn)) as [v c'].
  change (PS2.contents (kq (key_event 30 i8042_initfn))) with [28] in W. exact (proj1 W).
Defined.

(** A byte that the controller queues for itself. *)
Lemma kbd_queue_spec b c :
  coupled c -> PS2.count (kq c) < 256 ->
  let c' := kbd_queue b 0 c in
  PS2.contents (kq c') = PS2.contents (kq c) ++ [u8 b] /\
  regs c' = kbd_update_kbd_irq 1 (regs c) /\
  PS2.translate (kbd c') = PS2.translate (kbd c).
Proof.
  intros (R1 & _) Hlt. unfold kbd_queue, on_kbd, PS2.on_kcommon. cbn [truthy Z.eqb negb fst snd].
  pose proof (PS2.ps2_queue_spec kbd_update_kbd_irq b (PS2.kcommon (kbd c)) (regs c) R1) as P.
  fold (kq c) in P. rewrite (proj2 (Z.ltb_lt _ _) Hlt) in P.
  destruct (PS2.ps2_queue _ _ _) as [k r]. by destruct P as (_ & _ & P1 & _ & P2).
Qed.

Lemma update_line_mode i level s : mode (update_line i level s) = mode s.
Proof.
  unfold update_line, kbd_update_irq. kproj. set (p := if truthy level then _ else _).
  clearbody p. destruct (truthy p); [|done]. by destruct (p =? _).
Qed.

(** The mode byte.  With no keyboard byte waiting, a mode byte written
    with command 0x60 is what command 0x20 makes the data port return, whatever the
    mouse has queued; its bit 6 selects scan code translation. *)
Theorem i8042_mode_roundtrip c v :
  reachable c -> is_u8 v -> PS2.count (kq c) = 0 ->
  let c1 := kbd_write_data v (kbd_write_command KBD_CCMD_WRITE_MODE c) in
  let c2 := kbd_write_command KBD_CCMD_READ_MODE c1 in
  fst (kbd_read_data c2) = v /\ mode (regs c2) = v /\
  PS2.translate (kbd c2) = of_bool (Z.testbit v 6).
Proof.
  intros Hr Hv H0 c1 c2. apply reachable_coupled in Hr.
  assert (Hc1 : coupled c1) by (apply write_data_coupled, write_command_coupled, Hr).
  assert (Ek : kq c1 = kq c) by reflexivity.
  assert (Em : mode (regs c1) = v).
  { unfold c1, kbd_write_data. cbn -[kbd_update_irq]. rewrite (wrap_small 8 v) by done.
    destruct (update_irq_spec (set_mode v (set_write_cmd 96 (regs c)))) as (_ & _ & _ & U & _);
      [|exact U].
    destruct Hr as (_ & _ & (B1 & B2 & B3 & B4 & B5) & _).
    assert (W : is_u8 96) by done. by unfold bytes; eauto. }
  assert (Et : PS2.translate (kbd c1) = of_bool (Z.testbit v 6)).
  { unfold c1, kbd_write_data. cbn -[kbd_update_irq truthy Z.land of_bool].
    rewrite (wrap_small 8 v) by done. by rewrite (mask_bit v 6) by (reflexivity || lia). }
  assert (E2 : c2 = kbd_queue v 0 c1) by (unfold c2; rewrite <- Em; reflexivity).
  destruct (kbd_queue_spec v c1 Hc1) as (Q1 & Q2 & Q3); [rewrite Ek; lia|].
  assert (Hc2 : coupled c2) by (by apply write_command_coupled).
  rewrite E2 in *. pose proof (read_data_oldest _ Hc2) as P. rewrite Q1, Ek in P.
  assert (En : PS2.contents (kq c) = []).
  { apply nil_length_inv. destruct Hr as (R1 & _). apply PS2.contents_length in R1. lia. }
  rewrite En, wrap_small in P by done. destruct (kbd_read_data _) as [v' c'].
  split; [apply P|]. rewrite Q2, Q3, (proj1 (update_line_eq 1 _)), update_line_mode. done.
Qed.

Lemma i8042_mode_roundtrip_witness :
  fst (kbd_read_data (kbd_write_command KBD_CCMD_READ_MODE
    (kbd_write_data 0x61 (kbd_write_command KBD_CCMD_WRITE_MODE i8042_initfn)))) = 0x61.
Proof. apply (i8042_mode_roundtrip i8042_initfn 0x61); [apply reach_init|done|reflexivity]. Defined.

(** The output port.  Command 0xD1 followed by a byte sets the output
    port, drives the A20 line (when connected) with bit 1 and requests a system
    reset exactly when bit 0 is clear; the pulse commands 0xF0 to 0xFF request a
    reset exactly when bit 0 is clear and do nothing else. *)
Theorem i8042_output_port c v p :
  is_u8 v -> 0xf0 <= p <= 0xff ->
  let r := regs (kbd_write_data v (kbd_write_command KBD_CCMD_WRITE_OUTPORT c)) in
  let bump (b : bool) := (reset_requests (regs c) + if b then 0 else 1)%nat in
  outport r = v /\
  a20_out r = option_map (fun _ => of_bool (Z.testbit v 1)) (a20_out (regs c)) /\
  reset_requests r = bump (Z.testbit v 0) /\
  kbd_write_command p c =
    on_regs (set_reset_requests (bump (Z.testbit p 0))) c.
Proof.
  intros Hv Hp r bump.
  assert (E : r = set_write_cmd 0 (outport_write v (set_write_cmd 0xd1 (regs c)))) by reflexivity.
  clearbody r. subst r. unfold outport_write, set_a20, qemu_system_reset_request, bump. kproj.
  rewrite (mask_bit v 0) by (reflexivity || lia).
  assert (E : (v >>. 1) &. 1 = of_bool (Z.testbit v 1)) by (by by_bytes v).
  rewrite E, (wrap_small 8 v) by done.
  split; [|split; [|split]];
    [by destruct (Z.testbit v 0), (a20_out (regs c))| | |].
  { by destruct (Z.testbit v 0), (a20_out (regs c)) eqn:Ea; kproj; rewrite ?Ea. }
  { destruct (Z.testbit v 0), (a20_out (regs c)); cbn; lia. }
  assert (Hr : reset_requests (regs c) = (reset_requests (regs c) + 0)%nat) by lia.
  assert (Hs : S (reset_requests (regs c)) = (reset_requests (regs c) + 1)%nat) by lia.
  assert (Hn : on_regs (set_reset_requests (reset_requests (regs c))) c = c)
    by (by destruct c as [[]]).
  assert (exists n, p = 0xf0 + n /\ 0 <= n < 16) as (n & -> & Hnn) by (exists (p - 0xf0); lia).
  assert (B : below 16 (fun n => ((0xf0 + n) &. KBD_CCMD_PULSE_BITS_3_0) =? KBD_CCMD_PULSE_BITS_3_0)
    = true) by reflexivity.
  apply (below_spec 16 _ n) in B; [|lia]. unfold kbd_write_command. rewrite B.
  rewrite (mask_bit _ 0) by (reflexivity || lia).
  destruct (Z.testbit (0xf0 + n) 0); cbn [negb].
  - rewrite <- Hr, Hn. reflexivity.
  - rewrite <- Hs. reflexivity.
Qed.

Lemma i8042_output_port_witness :
  reset_requests (regs (kbd_write_command 0xfe i8042_initfn)) = 1%nat.
Proof.
  rewrite (proj2 (proj2 (proj2 (i8042_output_port i8042_initfn 0 0xfe ltac:(done) ltac:(lia))))).
  reflexivity.
Defined.

End PcKbd.
