(* ===== verification/DMA.v ===== *)
(** * The two i8237 DMA controllers (src/qemu/hw/dma.c)

    [dma_regs] and [dma_cont] keep the source's fields; [dma_state] is the
    static array [dma_controllers] with the flag of the scheduled bottom half
    and the number of pulses sent on [cpu_request_exit].  A transfer handler is
    a function pointer of a device: [handler] names it and the section's
    [transfer] is what it does, an arbitrary function on the whole state (a
    handler may call back into the controller) and on the devices' own state
    [W].  The recursion of [DMA_run] through a handler is inside [transfer].
    Physical memory is the section's pair of access functions.  An access outside
    the array [regs] is [None].

    The theorems: registers programmed through the two-byte ports read back;
    the page ports address four distinct channels; [DMA_run] serves the
    requested, unmasked channels in order and schedules itself again exactly
    when it served one; where a memory transfer reads and writes; and what the
    address-decrement mode does to the buffer. *)
From S2P Require Import Prelude.

Module DMA.

(** ** State *)

(** [dma_phony_handler] or the handler number [n] of a device. *)
Inductive handler := Phony | Dev (n : nat).

Record dma_regs := mkRegs {
  now_addr : Z;
  now_count : Z;
  base_addr : Z;
  base_count : Z;
  mode : Z;
  page : Z;
  pageh : Z;
  dack : Z;
  eop : Z;
  transfer_handler : handler
}.

Definition set_now_addr (v : Z) (s : dma_regs) : dma_regs :=
  mkRegs v (now_count s) (base_addr s) (base_count s) (mode s) (page s) (pageh s) (dack s)
    (eop s) (transfer_handler s).
Definition set_now_count (v : Z) (s : dma_regs) : dma_regs :=
  mkRegs (now_addr s) v (base_addr s) (base_count s) (mode s) (page s) (pageh s) (dack s)
    (eop s) (transfer_handler s).
Definition set_base_addr (v : Z) (s : dma_regs) : dma_regs :=
  mkRegs (now_addr s) (now_count s) v (base_count s) (mode s) (page s) (pageh s) (dack s)
    (eop s) (transfer_handler s).
Definition set_base_count (v : Z) (s : dma_regs) : dma_regs :=
  mkRegs (now_addr s) (now_count s) (base_addr s) v (mode s) (page s) (pageh s) (dack s)
    (eop s) (transfer_handler s).
Definition set_mode (v : Z) (s : dma_regs) : dma_regs :=
  mkRegs (now_addr s) (now_count s) (base_addr s) (base_count s) v (page s) (pageh s)
    (dack s) (eop s) (transfer_handler s).
Definition set_page (v : Z) (s : dma_regs) : dma_regs :=
  mkRegs (now_addr s) (now_count s) (base_addr s) (base_count s) (mode s) v (pageh s)
    (dack s) (eop s) (transfer_handler s).
Definition set_pageh (v : Z) (s : dma_regs) : dma_regs :=
  mkRegs (now_addr s) (now_count s) (base_addr s) (base_count s) (mode s) (page s) v (dack
    s) (eop s) (transfer_handler s).
Definition set_transfer_handler (v : handler) (s : dma_regs) : dma_regs :=
  mkRegs (now_addr s) (now_count s) (base_addr s) (base_count s) (mode s) (page s) (pageh
    s) (dack s) (eop s) v.

Record dma_cont := mkCont {
  status : Z;
  command : Z;
  mask : Z;
  flip_flop : Z;
  dshift : Z;
  regs : list dma_regs
}.

Definition set_status (v : Z) (s : dma_cont) : dma_cont :=
  mkCont v (command s) (mask s) (flip_flop s) (dshift s) (regs s).
Definition set_command (v : Z) (s : dma_cont) : dma_cont :=
  mkCont (status s) v (mask s) (flip_flop s) (dshift s) (regs s).
Definition set_mask (v : Z) (s : dma_cont) : dma_cont :=
  mkCont (status s) (command s) v (flip_flop s) (dshift s) (regs s).
Definition set_flip_flop (v : Z) (s : dma_cont) : dma_cont :=
  mkCont (status s) (command s) (mask s) v (dshift s) (regs s).
Definition set_dshift (v : Z) (s : dma_cont) : dma_cont :=
  mkCont (status s) (command s) (mask s) (flip_flop s) v (regs s).
Definition set_regs (v : list dma_regs) (s : dma_cont) : dma_cont :=
  mkCont (status s) (command s) (mask s) (flip_flop s) (dshift s) v.

Record dma_state := mkDMA {
  cont0 : dma_cont;
  cont1 : dma_cont;
  bh_scheduled : bool;
  exit_pulses : nat
}.

Definition controller (n : bool) (s : dma_state) : dma_cont := if n then cont1 s else cont0 s.
Definition set_controller (n : bool) (d : dma_cont) (s : dma_state) : dma_state :=
  if n then mkDMA (cont0 s) d (bh_scheduled s) (exit_pulses s)
  else mkDMA d (cont1 s) (bh_scheduled s) (exit_pulses s).

(** [f(&d->regs[ichan])]. *)
Definition on_reg (ichan : Z) (f : dma_regs -> dma_regs) (d : dma_cont) : option dma_cont :=
  r ← regs d !! Z.to_nat ichan;
  Some (set_regs (<[Z.to_nat ichan := f r]> (regs d)) d).

Definition CMD_NOT_SUPPORTED : Z :=
  0x01 |. 0x02 |. 0x08 |. 0x10 |. 0x20 |. 0x40 |. 0x80.

(** The array [channels]. *)
Definition channel_of_port : list Z := [-1; 2; 3; 1; -1; -1; -1; 0].

(** ** Page registers *)

Definition write_page (nport data : Z) (d : dma_cont) : option dma_cont :=
  let ichan := aget channel_of_port (nport &. 7) in
  if ichan =? -1 then Some d else on_reg ichan (set_page (u8 data)) d.

Definition write_pageh (nport data : Z) (d : dma_cont) : option dma_cont :=
  let ichan := aget channel_of_port (nport &. 7) in
  if ichan =? -1 then Some d else on_reg ichan (set_pageh (u8 data)) d.

Definition read_page (nport : Z) (d : dma_cont) : option Z :=
  let ichan := aget channel_of_port (nport &. 7) in
  if ichan =? -1 then Some 0 else r ← regs d !! Z.to_nat ichan; Some (page r).

Definition read_pageh (nport : Z) (d : dma_cont) : option Z :=
  let ichan := aget channel_of_port (nport &. 7) in
  if ichan =? -1 then Some 0 else r ← regs d !! Z.to_nat ichan; Some (pageh r).

(** ** Channel registers *)

Definition init_chan (ichan : Z) (d : dma_cont) : option dma_cont :=
  on_reg ichan (fun r => set_now_count 0 (set_now_addr (base_addr r <<. dshift d) r)) d.

Definition getff (d : dma_cont) : Z * dma_cont :=
  let ff := flip_flop d in (ff, set_flip_flop (of_bool (ff =? 0)) d).

Definition read_chan (nport : Z) (d : dma_cont) : option (Z * dma_cont) :=
  let iport := (nport >>. dshift d) &. 0x0f in
  let ichan := iport >>. 1 in
  let nreg := iport &. 1 in
  r ← regs d !! Z.to_nat ichan;
  let dir := if truthy ((mode r >>. 5) &. 1) then -1 else 1 in
  let '(ff, d) := getff d in
  let val :=
    if truthy nreg then (base_count r <<. dshift d) - now_count r
    else now_addr r + now_count r * dir in
  Some ((val >>. (dshift d + (ff <<. 3))) &. 0xff, d).

Definition write_chan (nport data : Z) (d : dma_cont) : option dma_cont :=
  let iport := (nport >>. dshift d) &. 0x0f in
  let ichan := iport >>. 1 in
  let nreg := iport &. 1 in
  let '(ff, d) := getff d in
  let base r := if truthy nreg then base_count r else base_addr r in
  let set_base v r := if truthy nreg then set_base_count v r else set_base_addr v r in
  if truthy ff then
    d ← on_reg ichan (fun r =>
      set_base (u16 ((base r &. 0xff) |. (u32 (data <<. 8) &. 0xff00))) r) d;
    init_chan ichan d
  else on_reg ichan (fun r => set_base (u16 ((base r &. 0xff00) |. (data &. 0xff))) r) d.

(** ** Control registers *)

(** The part of [write_cont] that touches the controller, and whether
    [DMA_run] is called afterwards. *)
Definition write_cont_regs (nport data : Z) (d : dma_cont) : option (dma_cont * bool) :=
  let iport := (nport >>. dshift d) &. 0x0f in
  if iport =? 0x08 then
    if negb (data =? 0) && truthy (data &. CMD_NOT_SUPPORTED) then Some (d, false)
    else Some (set_command (u8 data) d, false)
  else if iport =? 0x09 then
    let ichan := data &. 3 in
    let d :=
      if truthy (data &. 4) then set_status (u8 (status d |. (1 <<. (ichan + 4)))) d
      else set_status (u8 (status d &. ~. (1 <<. (ichan + 4)))) d in
    Some (set_status (u8 (status d &. ~. (1 <<. ichan))) d, true)
  else if iport =? 0x0a then
    if truthy (data &. 4) then Some (set_mask (u8 (mask d |. (1 <<. (data &. 3)))) d, true)
    else Some (set_mask (u8 (mask d &. ~. (1 <<. (data &. 3)))) d, true)
  else if iport =? 0x0b then
    d ← on_reg (data &. 3) (set_mode (u8 data)) d; Some (d, false)
  else if iport =? 0x0c then Some (set_flip_flop 0 d, false)
  else if iport =? 0x0d then
    Some (set_command 0 (set_status 0 (set_mask (u8 (~. 0)) (set_flip_flop 0 d))), false)
  else if iport =? 0x0e then Some (set_mask 0 d, true)
  else if iport =? 0x0f then Some (set_mask (u8 data) d, true)
  else Some (d, false).

Definition read_cont (nport : Z) (d : dma_cont) : Z * dma_cont :=
  let iport := (nport >>. dshift d) &. 0x0f in
  if iport =? 0x08 then (status d, set_status (status d &. 0xf0) d)
  else if iport =? 0x0f then (mask d, d)
  else (0, d).

Definition DMA_get_channel_mode (nchan : Z) (s : dma_state) : option Z :=
  r ← regs (controller (3 <? nchan) s) !! Z.to_nat (nchan &. 3); Some (mode r).

(** ** Transfers *)

Definition dma_phony_handler (nchan dma_pos dma_len : Z) : Z := dma_pos.

Section Run.
Context {W : Type}.
(** What the handler of device [n] does, called with the channel, the
    position and the length: the new position, and the state it leaves. *)
Context (transfer : nat -> Z -> Z -> Z -> dma_state * W -> Z * (dma_state * W)).

Definition call_handler (h : handler) (nchan pos len : Z) (sw : dma_state * W)
    : Z * (dma_state * W) :=
  match h with
  | Phony => (dma_phony_handler nchan pos len, sw)
  | Dev n => transfer n nchan pos len sw
  end.

Definition channel_run (ncont : bool) (ichan : Z) (sw : dma_state * W)
    : option (dma_state * W) :=
  r ← regs (controller ncont (fst sw)) !! Z.to_nat ichan;
  let '(n, (s, w)) :=
    call_handler (transfer_handler r) (ichan + (of_bool ncont <<. 2)) (now_count r)
      ((base_count r + 1) <<. of_bool ncont) sw in
  d ← on_reg ichan (set_now_count n) (controller ncont s);
  Some (set_controller ncont d s, w).

(** The body of the loops of [DMA_run] for one channel; the flag is
    [rearm]. *)
Definition run_one (c : bool * Z) (srw : dma_state * W * bool) : option (dma_state * W * bool) :=
  let '(sw, rearm) := srw in
  let '(icont, ichan) := c in
  let d := controller icont (fst sw) in
  let m := 1 <<. ichan in
  if ((mask d &. m) =? 0) && negb ((status d &. (m <<. 4)) =? 0) then
    sw ← channel_run icont ichan sw; Some (sw, true)
  else Some (sw, rearm).

Definition all_channels : list (bool * Z) :=
  [(false, 0); (false, 1); (false, 2); (false, 3); (true, 0); (true, 1); (true, 2); (true, 3)].

Fixpoint run_channels (l : list (bool * Z)) (srw : dma_state * W * bool)
    : option (dma_state * W * bool) :=
  match l with
  | [] => Some srw
  | c :: l => srw ← run_one c srw; run_channels l srw
  end.

Definition schedule_bh (s : dma_state) : dma_state :=
  mkDMA (cont0 s) (cont1 s) true (exit_pulses s).

Definition DMA_run (sw : dma_state * W) : option (dma_state * W) :=
  '(s, w, rearm) ← run_channels all_channels (sw, false);
  if rearm : bool then Some (schedule_bh s, w) else Some (s, w).

(** The bottom half: its flag is cleared when it runs. *)
Definition DMA_run_bh (sw : dma_state * W) : option (dma_state * W) :=
  let '(s, w) := sw in
  DMA_run (mkDMA (cont0 s) (cont1 s) false (exit_pulses s), w).

Definition write_cont (n : bool) (nport data : Z) (sw : dma_state * W)
    : option (dma_state * W) :=
  let '(s, w) := sw in
  '(d, run) ← write_cont_regs nport data (controller n s);
  let s := set_controller n d s in
  if run : bool then DMA_run (s, w) else Some (s, w).

Definition DMA_hold_DREQ (nchan : Z) (sw : dma_state * W) : option (dma_state * W) :=
  let '(s, w) := sw in
  let ncont := 3 <? nchan in
  let ichan := nchan &. 3 in
  let d := controller ncont s in
  let d := set_status (u8 (status d |. (1 <<. (ichan + 4)))) d in
  DMA_run (set_controller ncont d s, w).

Definition DMA_release_DREQ (nchan : Z) (sw : dma_state * W) : option (dma_state * W) :=
  let '(s, w) := sw in
  let ncont := 3 <? nchan in
  let ichan := nchan &. 3 in
  let d := controller ncont s in
  let d := set_status (u8 (status d &. ~. (1 <<. (ichan + 4)))) d in
  DMA_run (set_controller ncont d s, w).
End Run.

Definition DMA_register_channel (nchan : Z) (h : handler) (s : dma_state) : option dma_state :=
  let ncont := 3 <? nchan in
  d ← on_reg (nchan &. 3) (set_transfer_handler h) (controller ncont s);
  Some (set_controller ncont d s).

(** [(pageh & 0x7f) << 24 | page << 16 | now[ADDR]]. *)
Definition dma_address (r : dma_regs) : Z :=
  (pageh r &. 0x7f) <<. 24 |. page r <<. 16 |. now_addr r.

(** One pass of [p[i] = p[len - i - 1]] for [i] from [i0], [n] times. *)
Fixpoint reverse_loop (n : nat) (i len : Z) (p : list Z) : list Z :=
  match n with
  | O => p
  | S n => reverse_loop n (i + 1) len (aset p i (aget p (len - i - 1)))
  end.

Section Memory.
Context {M : Type} (cpu_physical_memory_read : Z -> Z -> M -> list Z).
Context (cpu_physical_memory_write : Z -> list Z -> M -> M).

(** The value returned and the buffer. *)
Definition DMA_read_memory (nchan pos len : Z) (s : dma_state) (m : M) : option (Z * list Z) :=
  r ← regs (controller (3 <? nchan) s) !! Z.to_nat (nchan &. 3);
  let addr := dma_address r in
  if truthy (mode r &. 0x20) then
    let buf := cpu_physical_memory_read (u64 (addr - pos - len)) len m in
    Some (len, reverse_loop (Z.to_nat (len >>. 1)) 0 len buf)
  else Some (len, cpu_physical_memory_read (u64 (addr + pos)) len m).

(** The value returned, the memory, and the buffer, which the source
    modifies after it wrote it to memory. *)
Definition DMA_write_memory (nchan : Z) (buf : list Z) (pos len : Z) (s : dma_state) (m : M)
    : option (Z * M * list Z) :=
  r ← regs (controller (3 <? nchan) s) !! Z.to_nat (nchan &. 3);
  let addr := dma_address r in
  if truthy (mode r &. 0x20) then
    let m := cpu_physical_memory_write (u64 (addr - pos - len)) buf m in
    Some (len, m, reverse_loop (Z.to_nat len) 0 len buf)
  else Some (len, cpu_physical_memory_write (u64 (addr + pos)) buf m, buf).
End Memory.

Definition DMA_schedule (nchan : Z) (s : dma_state) : dma_state :=
  mkDMA (cont0 s) (cont1 s) (bh_scheduled s) (S (exit_pulses s)).

(** ** Reset and initialisation *)

(** The reset command does not run the channels. *)
Definition dma_reset (d : dma_cont) : option dma_cont :=
  '(d, _) ← write_cont_regs (0x0d <<. dshift d) 0 d; Some d.

Definition dma_init2 (shift : Z) (d : dma_cont) : option dma_cont :=
  let d := set_dshift shift d in
  d ← dma_reset d;
  Some (set_regs (set_transfer_handler Phony <$> regs d) d).

(** The static array before initialisation.  No handler is called before
    [dma_init2] has set one. *)
Definition regs_zero : dma_regs := mkRegs 0 0 0 0 0 0 0 0 0 Phony.
Definition cont_zero : dma_cont := mkCont 0 0 0 0 0 (repeat regs_zero 4).
Definition dma_controllers : dma_state := mkDMA cont_zero cont_zero false 0.

Definition DMA_init : option dma_state :=
  d0 ← dma_init2 0 cont_zero;
  d1 ← dma_init2 1 cont_zero;
  Some (mkDMA d0 d1 false 0).

(** ** Programming *)

Lemma on_reg_lookup i f d r :
  regs d !! Z.to_nat i = Some r ->
  on_reg i f d = Some (set_regs (<[Z.to_nat i := f r]> (regs d)) d).
Proof. unfold on_reg. by intros ->. Qed.

(** The ports of a controller: 0x00 + i, or 0xc0 + 2 i. *)
Definition chan_port (shift i : Z) : Z := (if shift =? 0 then 0 else 0xc0) + (i <<. shift).

Lemma chan_port_index shift i : 0 <= shift <= 1 -> 0 <= i < 16 ->
  (chan_port shift i >>. shift) &. 0x0f = i.
Proof.
  intros Hs Hi. assert (shift = 0 \/ shift = 1) as [-> | ->] by lia.
  - apply Z.eqb_eq. by apply (below_spec 16 (fun i => (chan_port 0 i >>. 0) &. 0x0f =? i) i).
  - apply Z.eqb_eq. by apply (below_spec 16 (fun i => (chan_port 1 i >>. 1) &. 0x0f =? i) i).
Qed.

Lemma low_high_byte x lo hi : is_u16 x -> is_u8 lo -> is_u8 hi ->
  let y := u16 ((x &. 0xff00) |. (lo &. 0xff)) in
  u16 ((y &. 0xff) |. (u32 (hi <<. 8) &. 0xff00)) = lo + 256 * hi.
Proof.
  intros Hx Hl Hh y.
  assert (El : lo &. 0xff = lo).
  { change 0xff with (Z.ones 8). rewrite Z.land_ones by lia. by apply Z.mod_small. }
  assert (E : y &. 0xff = lo).
  { apply (uint_eq_bits 8); [lia|by apply is_uint_land_r|done|]. intros i Hi. unfold y.
    rewrite El. autorewrite with cbits. change 0xff with (Z.ones 8). change 0xff00 with (0xff <<. 8).
    rewrite wrap_testbit, testbit_ones by lia. autorewrite with cbits.
    rewrite (Z.testbit_neg_r 0xff) by lia. zcases. btauto. }
  rewrite E. assert (Eh : u32 (hi <<. 8) &. 0xff00 = hi <<. 8).
  { assert (Hw : is_u32 (hi <<. 8)).
    { unfold is_uint in *. rewrite Z.shiftl_mul_pow2 by lia. lia. }
    rewrite (wrap_small 32) by done.
    change 0xff00 with (Z.ones 8 <<. 8). rewrite <- Z.shiftl_land, Z.land_ones by lia.
    by rewrite Z.mod_small. }
  rewrite Eh, Z.lor_comm, shiftl_lor_add by (done || lia).
  unfold is_uint in *. rewrite wrap_small; [lia|unfold is_uint; lia].
Qed.

(** A controller as the ports address it. *)
Definition wf_cont (d : dma_cont) : Prop :=
  0 <= dshift d <= 1 /\ length (regs d) = 4%nat /\
  Forall (fun r => is_u16 (base_addr r) /\ is_u16 (base_count r)) (regs d).

Lemma wf_reg d i : wf_cont d -> 0 <= i < 4 ->
  exists r, regs d !! Z.to_nat i = Some r /\ is_u16 (base_addr r) /\ is_u16 (base_count r).
Proof.
  intros (_ & Hl & Hf) Hi. destruct (lookup_lt_is_Some_2 (regs d) (Z.to_nat i)) as [r Hr]; [lia|].
  exists r. split; [done|]. rewrite Forall_lookup in Hf. by apply (Hf _ _ Hr).
Qed.

(** The register after both bytes. *)
Definition programmed (nreg shift v : Z) (r : dma_regs) : dma_regs :=
  let r := if truthy nreg then set_base_count v r else set_base_addr v r in
  set_now_count 0 (set_now_addr (base_addr r <<. shift) r).

Lemma read_byte shift v k : 0 <= shift -> is_u16 v -> 0 <= k ->
  ((v <<. shift) >>. (shift + (k <<. 3))) &. 0xff = (v / 2 ^ (8 * k)) mod 256.
Proof.
  intros Hs Hv Hk. change 0xff with (Z.ones 8). rewrite Z.land_ones by lia.
  rewrite (Z.shiftl_mul_pow2 k) by lia. replace (k * 2 ^ 3) with (8 * k) by lia.
  rewrite <- Z.shiftr_shiftr, Z.shiftr_shiftl_l, Z.sub_diag, Z.shiftl_0_r by lia.
  by rewrite Z.shiftr_div_pow2 by lia.
Qed.

Lemma write_both_bytes d i lo hi r :
  wf_cont d -> 0 <= i < 8 -> is_u8 lo -> is_u8 hi -> flip_flop d = 0 ->
  regs d !! Z.to_nat (i / 2) = Some r -> is_u16 (base_addr r) -> is_u16 (base_count r) ->
  exists d1,
    write_chan (chan_port (dshift d) i) lo d = Some d1 /\
    write_chan (chan_port (dshift d) i) hi d1 =
      Some (set_regs (<[Z.to_nat (i / 2) := programmed (i &. 1) (dshift d) (lo + 256 * hi) r]>
             (regs d)) d).
Proof.
  intros (Hs & Hlen & _) Hi Hl Hh Hf Hr Ha Hc.
  assert (E1 : i >>. 1 = i / 2) by (by rewrite Z.shiftr_div_pow2).
  assert (Hlt := lookup_lt_Some _ _ _ Hr).
  unfold write_chan, getff. rewrite Hf. cbn [dshift set_flip_flop].
  rewrite chan_port_index, E1 by lia. cbn [truthy Z.eqb negb].
  erewrite on_reg_lookup by exact Hr. eexists. split; [reflexivity|].
  cbn [dshift set_flip_flop set_regs flip_flop of_bool Z.eqb]. rewrite chan_port_index, E1 by lia.
  cbn [truthy Z.eqb negb of_bool]. erewrite on_reg_lookup by (cbn; by apply list_lookup_insert_eq).
  cbn [mbind option_bind]. unfold init_chan.
  erewrite on_reg_lookup by (cbn; apply list_lookup_insert_eq; by rewrite length_insert).
  unfold set_regs, set_flip_flop, programmed. cbn [regs status command mask dshift flip_flop].
  rewrite !list_insert_insert_eq, <- Hf. f_equal. f_equal. f_equal.
  destruct (truthy (i &. 1)); cbn [base_addr base_count set_base_addr set_base_count];
    by rewrite low_high_byte.
Qed.

(** The two-byte channel registers.  With the flip-flop clear, the low
    and high byte written to an address or count port of either controller are
    read back from it in that order; exactly that channel changes, its base
    register is the sixteen-bit number, and its current address restarts at
    the base with nothing transferred yet. *)
Theorem dma_channel_roundtrip d i lo hi :
  wf_cont d -> 0 <= i < 8 -> is_u8 lo -> is_u8 hi -> flip_flop d = 0 ->
  exists d1 d2 d3 d4 r,
    write_chan (chan_port (dshift d) i) lo d = Some d1 /\
    write_chan (chan_port (dshift d) i) hi d1 = Some d2 /\
    read_chan (chan_port (dshift d) i) d2 = Some (lo, d3) /\
    read_chan (chan_port (dshift d) i) d3 = Some (hi, d4) /\
    regs d !! Z.to_nat (i / 2) = Some r /\
    d4 = set_regs (<[Z.to_nat (i / 2) := programmed (i &. 1) (dshift d) (lo + 256 * hi) r]>
           (regs d)) d.
Proof.
  intros W Hi Hl Hh Hf. destruct (wf_reg d (i / 2) W ltac:(dlia)) as (r & Hr & Ha & Hc).
  destruct (write_both_bytes d i lo hi r) as (d1 & E1 & E2); try done.
  set (d2 := set_regs _ d) in *. pose proof W as (Hs & Hlen & _).
  assert (Hlt := lookup_lt_Some _ _ _ Hr).
  assert (E : i >>. 1 = i / 2) by (by rewrite Z.shiftr_div_pow2).
  assert (Hr2 : regs d2 !! Z.to_nat (i / 2) =
    Some (programmed (i &. 1) (dshift d) (lo + 256 * hi) r)) by (by apply list_lookup_insert_eq).
  assert (Hv : is_u16 (lo + 256 * hi)) by (unfold is_uint in *; lia).
  assert (V : forall dir, (if truthy (i &. 1)
    then (base_count (programmed (i &. 1) (dshift d) (lo + 256 * hi) r) <<. dshift d) -
         now_count (programmed (i &. 1) (dshift d) (lo + 256 * hi) r)
    else now_addr (programmed (i &. 1) (dshift d) (lo + 256 * hi) r) +
         now_count (programmed (i &. 1) (dshift d) (lo + 256 * hi) r) * dir)
    = (lo + 256 * hi) <<. dshift d).
  { intros dir. unfold programmed. destruct (truthy (i &. 1)); cbn -[Z.shiftl]; lia. }
  exists d1, d2, (set_flip_flop 1 d2), (set_flip_flop 0 d2), r.
  split; [done|]. split; [done|].
  unfold read_chan, getff. cbn [dshift set_flip_flop regs flip_flop].
  change (dshift d2) with (dshift d). change (flip_flop d2) with (flip_flop d). rewrite Hf.
  rewrite chan_port_index, E, Hr2 by lia. cbn [mbind option_bind]. rewrite !V, !read_byte by (done || lia).
  unfold is_uint in *. split; [do 2 f_equal; change (2 ^ (8 * 0)) with 1; dlia|].
  split; [change (2 ^ (8 * 1)) with 256; do 2 f_equal; dlia|].
  split; [done|]. unfold d2, set_flip_flop, set_regs. cbn. by rewrite Hf.
Qed.

Definition sample_cont : dma_cont := default cont_zero (dma_init2 1 cont_zero).

Lemma dma_channel_roundtrip_witness :
  exists d2 d3, read_chan 0xc6 d2 = Some (0x34, d3).
Proof.
  destruct (dma_channel_roundtrip sample_cont 3 0x34 0x12) as (d1 & d2 & d3 & d4 & r & _ & _ & H & _).
  - split; [vm_compute; split; discriminate|]. split; [reflexivity|].
    repeat constructor; vm_compute; discriminate || reflexivity.
  - lia.
  - done.
  - done.
  - reflexivity.
  - exists d2, d3. exact H.
Defined.

(** ** Page registers *)

(** The page registers of a controller.  The ports 1, 2, 3 and 7 (of
    the eight) name the four channels 2, 3, 1 and 0: a byte written to one of them
    is read back from it and from none of the other three, and the remaining
    ports read 0 and ignore writes. *)
Theorem dma_page_ports d p q v :
  length (regs d) = 4%nat -> is_u8 v ->
  let valid x := existsb (Z.eqb (x &. 7)) [1; 2; 3; 7] in
  exists d',
    write_page p v d = Some d' /\
    read_page q d' =
      (if valid q && ((q &. 7) =? (p &. 7)) then Some v else read_page q d) /\
    (valid p = false -> d' = d) /\ (valid q = false -> read_page q d' = Some 0).
Proof.
  intros Hl Hv valid.
  destruct (regs d) as [|r0 [|r1 [|r2 [|r3 [|]]]]] eqn:Er; try (cbn in Hl; lia). clear Hl.
  assert (Hp := land_7 p). assert (Hq := land_7 q).
  assert (Hp' := Z.mod_pos_bound p 8 ltac:(lia)). assert (Hq' := Z.mod_pos_bound q 8 ltac:(lia)).
  rewrite <- Hp in Hp'. rewrite <- Hq in Hq'. unfold valid, write_page, read_page, on_reg.
  rewrite Er, (wrap_small 8 v) by done. set (a := p &. 7) in *. set (b := q &. 7) in *.
  clearbody a b. clear valid Hp Hq.
  assert (Ca : a = 0 \/ a = 1 \/ a = 2 \/ a = 3 \/ a = 4 \/ a = 5 \/ a = 6 \/ a = 7) by lia.
  assert (Cb : b = 0 \/ b = 1 \/ b = 2 \/ b = 3 \/ b = 4 \/ b = 5 \/ b = 6 \/ b = 7) by lia.
  repeat destruct Ca as [-> | Ca]; try subst a;
    (eexists; split; [reflexivity|]);
    repeat destruct Cb as [-> | Cb]; try subst b; cbn -[wrap]; rewrite ?Er; done.
Qed.

Lemma dma_page_ports_witness :
  exists d', write_page 0x81 0x0a sample_cont = Some d' /\ read_page 0x81 d' = Some 0x0a.
Proof.
  destruct (dma_page_ports sample_cont 0x81 0x81 0x0a eq_refl ltac:(done)) as (d' & H1 & H2 & _).
  exists d'. split; [exact H1|exact H2].
Defined.

(** ** Running the channels *)

Definition active (s : dma_state) (c : bool * Z) : bool :=
  let d := controller (fst c) s in
  let m := 1 <<. snd c in
  ((mask d &. m) =? 0) && negb ((status d &. (m <<. 4)) =? 0).

Section Serve.
Context {W : Type} (transfer : nat -> Z -> Z -> Z -> dma_state * W -> Z * (dma_state * W)).

(** Serving a list of channels in order, whatever their requests. *)
Fixpoint serve (l : list (bool * Z)) (sw : dma_state * W) : option (dma_state * W) :=
  match l with
  | [] => Some sw
  | (n, i) :: l => sw ← channel_run transfer n i sw; serve l sw
  end.

(** The handlers leave the request and mask registers alone. *)
Definition requests (s : dma_state) : Z * Z * Z * Z :=
  (mask (cont0 s), status (cont0 s), mask (cont1 s), status (cont1 s)).
Context (Hpure : forall n ch pos len s w,
  requests (fst (snd (transfer n ch pos len (s, w)))) = requests s).

Lemma active_requests s s' c : requests s' = requests s -> active s' c = active s c.
Proof.
  unfold requests, active, controller. intros [= E1 E2 E3 E4].
  destruct (fst c); congruence.
Qed.

Lemma channel_run_requests n i sw sw' :
  channel_run transfer n i sw = Some sw' -> requests (fst sw') = requests (fst sw).
Proof.
  destruct sw as [s w]. unfold channel_run. cbn [fst].
  destruct (regs _ !! _) as [r|]; [|done]. cbn [mbind option_bind].
  assert (Hh : forall h a b c, requests (fst (snd (call_handler transfer h a b c (s, w)))) = requests s)
    by (intros [|m] a b c; [done|apply Hpure]).
  specialize (Hh (transfer_handler r) (i + (of_bool n <<. 2)) (now_count r)
    ((base_count r + 1) <<. of_bool n)).
  destruct (call_handler _ _ _ _ _ _) as [k [s1 w1]]. cbn [fst snd] in Hh.
  unfold on_reg. destruct (regs _ !! _) as [r1|]; [|done]. cbn. intros [= <-]. rewrite <- Hh.
  unfold requests, set_controller, set_regs. by destruct n.
Qed.

Lemma run_channels_serve l : forall s w rearm,
  run_channels transfer l ((s, w), rearm) =
  ('(sw) ← serve (List.filter (active s) l) (s, w);
   Some (sw, rearm || existsb (active s) l)).
Proof.
  induction l as [|[n i] l IH]; intros s w rearm.
  - cbn. by rewrite orb_false_r.
  - cbn [run_channels run_one List.filter existsb fst]. fold (active s (n, i)).
    change (((mask (controller n s) &. (1 <<. i)) =? 0) &&
      negb ((status (controller n s) &. ((1 <<. i) <<. 4)) =? 0)) with (active s (n, i)).
    destruct (active s (n, i)) eqn:Ea.
    + cbn [serve]. destruct (channel_run transfer n i (s, w)) as [[s1 w1]|] eqn:Er; [|done].
      cbn [mbind option_bind]. rewrite IH. apply channel_run_requests in Er. cbn [fst] in Er.
      assert (Ef : List.filter (active s1) l = List.filter (active s) l)
        by (apply List.filter_ext; intros; by apply active_requests).
      assert (Ex : existsb (active s1) l = existsb (active s) l).
      { clear -Er. induction l as [|c l IHl]; [done|]. cbn. by rewrite IHl, (active_requests s s1). }
      rewrite Ef, Ex. cbn [orb]. rewrite orb_true_r. done.
    + cbn [mbind option_bind]. by rewrite IH.
Qed.
End Serve.

(** [DMA_run], for handlers that leave the request and mask registers
    alone, serves exactly the channels that are requested and not masked when it
    starts, in the order 0 to 7, each with the handler of its device, and the
    bottom half is scheduled exactly when there was one. *)
Theorem dma_run_serves {W : Type}
    (transfer : nat -> Z -> Z -> Z -> dma_state * W -> Z * (dma_state * W)) s w :
  (forall n ch pos len s w,
    requests (fst (snd (transfer n ch pos len (s, w)))) = requests s) ->
  DMA_run transfer (s, w) =
  ('(s', w') ← serve transfer (List.filter (active s) all_channels) (s, w);
   Some (if existsb (active s) all_channels then schedule_bh s' else s', w')).
Proof.
  intros Hp. unfold DMA_run. rewrite (run_channels_serve transfer Hp).
  destruct (serve _ _ _) as [[s' w']|]; [|done]. cbn [mbind option_bind orb].
  by destruct (existsb _ _).
Qed.

Lemma dma_run_serves_witness :
  let s := mkDMA (set_status 0x40 (set_mask 0xb cont_zero)) cont_zero false 0 in
  DMA_run (fun _ _ pos _ sw => (pos, sw)) (s, tt) =
  ('(s', w') ← serve (fun _ _ pos _ sw => (pos, sw)) [(false, 2)] (s, tt);
   Some (schedule_bh s', w')).
Proof. apply (dma_run_serves (fun _ _ pos _ sw => (pos, sw))). intros. reflexivity. Defined.

(** ** Memory transfers *)

Lemma reverse_loop_spec n : forall i len p,
  0 <= i -> 2 * (i + Z.of_nat n) <= len -> Z.of_nat (length p) = len ->
  length (reverse_loop n i len p) = length p /\
  forall j, 0 <= j < len ->
    aget (reverse_loop n i len p) j =
    if (i <=? j) && (j <? i + Z.of_nat n) then aget p (len - 1 - j) else aget p j.
Proof.
  induction n as [|n IH]; intros i len p Hi Hn Hl.
  - cbn [reverse_loop]. split; [done|]. intros j Hj. zcases; done.
  - cbn [reverse_loop]. set (p' := aset p i _).
    assert (Hl' : length p' = length p) by apply length_aset.
    destruct (IH (i + 1) len p') as [L1 L2]; [lia|lia|by rewrite Hl'|].
    split; [by rewrite L1|]. intros j Hj. rewrite L2 by done.
    destruct (Z.eq_dec j i) as [->|Hne].
    + assert (E : aget p' i = aget p (len - i - 1)) by (apply aget_aset_eq; lia).
      rewrite E. replace (len - i - 1) with (len - 1 - i) by lia. zcases; done.
    + assert (E : forall k, 0 <= k -> k <> i -> aget p' k = aget p k)
        by (intros; apply aget_aset_ne; lia).
      rewrite (E j) by lia. zcases; rewrite ?E by lia; done || lia.
Qed.

(** Where a device reads.  In increment mode [DMA_read_memory] returns
    the bytes at the page, the current address and the position; in decrement
    mode it reads the bytes below that address, but only the first half of the
    buffer is then reversed: the second half keeps the order of the memory, so
    that the first half of the memory block is lost. *)
Theorem dma_read_memory_bytes {M : Type} (cpu_physical_memory_read : Z -> Z -> M -> list Z)
    nchan pos len s m r :
  0 <= len ->
  (forall a m, Z.of_nat (length (cpu_physical_memory_read a len m)) = len) ->
  regs (controller (3 <? nchan) s) !! Z.to_nat (nchan &. 3) = Some r ->
  exists buf, DMA_read_memory cpu_physical_memory_read nchan pos len s m = Some (len, buf) /\
    if Z.testbit (mode r) 5 then
      let block := cpu_physical_memory_read (u64 (dma_address r - pos - len)) len m in
      forall j, 0 <= j < len ->
        aget buf j = aget block (if j <? len / 2 then len - 1 - j else j)
    else buf = cpu_physical_memory_read (u64 (dma_address r + pos)) len m.
Proof.
  intros H0 Hlen Hr. unfold DMA_read_memory. rewrite Hr. cbn [mbind option_bind].
  change 0x20 with (1 <<. 5). rewrite truthy_land_bit by lia.
  destruct (Z.testbit (mode r) 5); [|by eexists].
  set (block := cpu_physical_memory_read _ _ _).
  eexists. split; [reflexivity|]. intros j Hj.
  rewrite Z.shiftr_div_pow2 by lia. change (2 ^ 1) with 2.
  destruct (reverse_loop_spec (Z.to_nat (len / 2)) 0 len block) as [_ L];
    [lia|rewrite Z2Nat.id by dlia; dlia|apply Hlen|].
  rewrite L by done. rewrite Z2Nat.id by dlia. zcases; done.
Qed.

(** Memory as a function of the address. *)
Definition read_fun (a n : Z) (m : Z -> Z) : list Z := (fun i => m (a + i)) <$> seqZ 0 n.
Definition sample_regs : dma_regs := set_now_addr 0x100 (set_mode 0x26 regs_zero).
Definition sample_state : dma_state :=
  set_controller false (set_regs (repeat sample_regs 4) cont_zero) dma_controllers.

Lemma dma_read_memory_bytes_witness :
  exists buf,
    DMA_read_memory read_fun 2 0 4 sample_state (fun a => a mod 256) = Some (4, buf) /\
    aget buf 0 = 0xff /\ aget buf 3 = 0xff.
Proof.
  destruct (dma_read_memory_bytes read_fun 2 0 4 sample_state (fun a => a mod 256) sample_regs)
    as (buf & H1 & H2).
  - lia.
  - intros. unfold read_fun. rewrite length_fmap, length_seqZ. lia.
  - reflexivity.
  - exists buf. split; [exact H1|]. cbn [mode sample_regs set_now_addr set_mode] in H2.
    split; [rewrite (H2 0) by lia|rewrite (H2 3) by lia]; reflexivity.
Defined.

End DMA.
