(* ===== verification/RTC.v ===== *)
(** * The MC146818 real time clock (src/qemu/hw/mc146818rtc.c)

    [RTCState] keeps the source's fields; [cmos_data] is the array of 128
    bytes.  A timer is [Some t] when armed for [t]; [coalesced_timer] is [None]
    for the null pointer.  [irq] and [sqw_irq] are the levels of the lines
    ([sqw_irq] is [None] when not connected).  [rtc_td_hack] is the global of
    that name, and [delivered] what [apic_get_irq_delivered] answers after the
    interrupt was raised; the clock reading of a handler is its argument [now].
    The notifications of [rtc_change_mon_event] are logged.  The code compiled
    for the x86 targets ([TARGET_I386]) is modelled.

    The theorems: the second counter implements the Gregorian calendar; dates
    survive the conversion to the registers and back in all four formats; the
    periodic timer fires at exact multiples of its period; register C
    acknowledges interrupts; the battery-backed memory reads back. *)
From S2P Require Import Prelude I8254.

Module RTC.

(** ** Constants *)

Definition RTC_REINJECT_ON_ACK_COUNT : Z := 20.
Definition RTC_SECONDS : Z := 0.
Definition RTC_SECONDS_ALARM : Z := 1.
Definition RTC_MINUTES : Z := 2.
Definition RTC_MINUTES_ALARM : Z := 3.
Definition RTC_HOURS : Z := 4.
Definition RTC_HOURS_ALARM : Z := 5.
Definition RTC_DAY_OF_WEEK : Z := 6.
Definition RTC_DAY_OF_MONTH : Z := 7.
Definition RTC_MONTH : Z := 8.
Definition RTC_YEAR : Z := 9.
Definition RTC_REG_A : Z := 10.
Definition RTC_REG_B : Z := 11.
Definition RTC_REG_C : Z := 12.
Definition RTC_REG_D : Z := 13.
Definition REG_A_UIP : Z := 0x80.
Definition REG_B_SET : Z := 0x80.
Definition REG_B_PIE : Z := 0x40.
Definition REG_B_AIE : Z := 0x20.
Definition REG_B_UIE : Z := 0x10.
Definition REG_B_SQWE : Z := 0x08.
Definition REG_B_DM : Z := 0x04.
Definition REG_B_24H : Z := 0x02.
Definition REG_C_UF : Z := 0x10.
Definition REG_C_IRQF : Z := 0x80.
Definition REG_C_PF : Z := 0x40.
Definition REG_C_AF : Z := 0x20.
Definition REG_IBM_CENTURY_BYTE : Z := 0x32.
Definition REG_IBM_PS2_CENTURY_BYTE : Z := 0x37.

(** ** State *)

(** The fields of [struct tm] that the clock uses. *)
Record tm := mkTm {
  tm_sec : Z;
  tm_min : Z;
  tm_hour : Z;
  tm_wday : Z;
  tm_mday : Z;
  tm_mon : Z;
  tm_year : Z
}.

Definition set_tm_sec (v : Z) (s : tm) : tm :=
  mkTm v (tm_min s) (tm_hour s) (tm_wday s) (tm_mday s) (tm_mon s) (tm_year s).
Definition set_tm_min (v : Z) (s : tm) : tm :=
  mkTm (tm_sec s) v (tm_hour s) (tm_wday s) (tm_mday s) (tm_mon s) (tm_year s).
Definition set_tm_hour (v : Z) (s : tm) : tm :=
  mkTm (tm_sec s) (tm_min s) v (tm_wday s) (tm_mday s) (tm_mon s) (tm_year s).
Definition set_tm_wday (v : Z) (s : tm) : tm :=
  mkTm (tm_sec s) (tm_min s) (tm_hour s) v (tm_mday s) (tm_mon s) (tm_year s).
Definition set_tm_mday (v : Z) (s : tm) : tm :=
  mkTm (tm_sec s) (tm_min s) (tm_hour s) (tm_wday s) v (tm_mon s) (tm_year s).
Definition set_tm_mon (v : Z) (s : tm) : tm :=
  mkTm (tm_sec s) (tm_min s) (tm_hour s) (tm_wday s) (tm_mday s) v (tm_year s).
Definition set_tm_year (v : Z) (s : tm) : tm :=
  mkTm (tm_sec s) (tm_min s) (tm_hour s) (tm_wday s) (tm_mday s) (tm_mon s) v.

Record RTCState := mkRTC {
  cmos_data : list Z;
  cmos_index : Z;
  current_tm : tm;
  base_year : Z;
  irq : Z;
  sqw_irq : option Z;
  periodic_timer : option Z;
  next_periodic_time : Z;
  next_second_time : Z;
  irq_reinject_on_ack_count : Z;
  irq_coalesced : Z;
  period : Z;
  coalesced_timer : option (option Z);
  second_timer : option Z;
  second_timer2 : option Z;
  mon_events : list tm
}.

Definition set_cmos_data (v : list Z) (s : RTCState) : RTCState :=
  mkRTC v (cmos_index s) (current_tm s) (base_year s) (irq s) (sqw_irq s) (periodic_timer
    s) (next_periodic_time s) (next_second_time s) (irq_reinject_on_ack_count s)
    (irq_coalesced s) (period s) (coalesced_timer s) (second_timer s) (second_timer2 s)
    (mon_events s).
Definition set_cmos_index (v : Z) (s : RTCState) : RTCState :=
  mkRTC (cmos_data s) v (current_tm s) (base_year s) (irq s) (sqw_irq s) (periodic_timer
    s) (next_periodic_time s) (next_second_time s) (irq_reinject_on_ack_count s)
    (irq_coalesced s) (period s) (coalesced_timer s) (second_timer s) (second_timer2 s)
    (mon_events s).
Definition set_current_tm (v : tm) (s : RTCState) : RTCState :=
  mkRTC (cmos_data s) (cmos_index s) v (base_year s) (irq s) (sqw_irq s) (periodic_timer
    s) (next_periodic_time s) (next_second_time s) (irq_reinject_on_ack_count s)
    (irq_coalesced s) (period s) (coalesced_timer s) (second_timer s) (second_timer2 s)
    (mon_events s).
Definition set_base_year (v : Z) (s : RTCState) : RTCState :=
  mkRTC (cmos_data s) (cmos_index s) (current_tm s) v (irq s) (sqw_irq s) (periodic_timer
    s) (next_periodic_time s) (next_second_time s) (irq_reinject_on_ack_count s)
    (irq_coalesced s) (period s) (coalesced_timer s) (second_timer s) (second_timer2 s)
    (mon_events s).
Definition set_irq (v : Z) (s : RTCState) : RTCState :=
  mkRTC (cmos_data s) (cmos_index s) (current_tm s) (base_year s) v (sqw_irq s)
    (periodic_timer s) (next_periodic_time s) (next_second_time s)
    (irq_reinject_on_ack_count s) (irq_coalesced s) (period s) (coalesced_timer s)
    (second_timer s) (second_timer2 s) (mon_events s).
Definition set_sqw_irq (v : option Z) (s : RTCState) : RTCState :=
  mkRTC (cmos_data s) (cmos_index s) (current_tm s) (base_year s) (irq s) v
    (periodic_timer s) (next_periodic_time s) (next_second_time s)
    (irq_reinject_on_ack_count s) (irq_coalesced s) (period s) (coalesced_timer s)
    (second_timer s) (second_timer2 s) (mon_events s).
Definition set_periodic_timer (v : option Z) (s : RTCState) : RTCState :=
  mkRTC (cmos_data s) (cmos_index s) (current_tm s) (base_year s) (irq s) (sqw_irq s) v
    (next_periodic_time s) (next_second_time s) (irq_reinject_on_ack_count s)
    (irq_coalesced s) (period s) (coalesced_timer s) (second_timer s) (second_timer2 s)
    (mon_events s).
Definition set_next_periodic_time (v : Z) (s : RTCState) : RTCState :=
  mkRTC (cmos_data s) (cmos_index s) (current_tm s) (base_year s) (irq s) (sqw_irq s)
    (periodic_timer s) v (next_second_time s) (irq_reinject_on_ack_count s) (irq_coalesced
    s) (period s) (coalesced_timer s) (second_timer s) (second_timer2 s) (mon_events s).
Definition set_next_second_time (v : Z) (s : RTCState) : RTCState :=
  mkRTC (cmos_data s) (cmos_index s) (current_tm s) (base_year s) (irq s) (sqw_irq s)
    (periodic_timer s) (next_periodic_time s) v (irq_reinject_on_ack_count s)
    (irq_coalesced s) (period s) (coalesced_timer s) (second_timer s) (second_timer2 s)
    (mon_events s).
Definition set_irq_reinject_on_ack_count (v : Z) (s : RTCState) : RTCState :=
  mkRTC (cmos_data s) (cmos_index s) (current_tm s) (base_year s) (irq s) (sqw_irq s)
    (periodic_timer s) (next_periodic_time s) (next_second_time s) v (irq_coalesced s)
    (period s) (coalesced_timer s) (second_timer s) (second_timer2 s) (mon_events s).
Definition set_irq_coalesced (v : Z) (s : RTCState) : RTCState :=
  mkRTC (cmos_data s) (cmos_index s) (current_tm s) (base_year s) (irq s) (sqw_irq s)
    (periodic_timer s) (next_periodic_time s) (next_second_time s)
    (irq_reinject_on_ack_count s) v (period s) (coalesced_timer s) (second_timer s)
    (second_timer2 s) (mon_events s).
Definition set_period (v : Z) (s : RTCState) : RTCState :=
  mkRTC (cmos_data s) (cmos_index s) (current_tm s) (base_year s) (irq s) (sqw_irq s)
    (periodic_timer s) (next_periodic_time s) (next_second_time s)
    (irq_reinject_on_ack_count s) (irq_coalesced s) v (coalesced_timer s) (second_timer s)
    (second_timer2 s) (mon_events s).
Definition set_coalesced_timer (v : option (option Z)) (s : RTCState) : RTCState :=
  mkRTC (cmos_data s) (cmos_index s) (current_tm s) (base_year s) (irq s) (sqw_irq s)
    (periodic_timer s) (next_periodic_time s) (next_second_time s)
    (irq_reinject_on_ack_count s) (irq_coalesced s) (period s) v (second_timer s)
    (second_timer2 s) (mon_events s).
Definition set_second_timer (v : option Z) (s : RTCState) : RTCState :=
  mkRTC (cmos_data s) (cmos_index s) (current_tm s) (base_year s) (irq s) (sqw_irq s)
    (periodic_timer s) (next_periodic_time s) (next_second_time s)
    (irq_reinject_on_ack_count s) (irq_coalesced s) (period s) (coalesced_timer s) v
    (second_timer2 s) (mon_events s).
Definition set_second_timer2 (v : option Z) (s : RTCState) : RTCState :=
  mkRTC (cmos_data s) (cmos_index s) (current_tm s) (base_year s) (irq s) (sqw_irq s)
    (periodic_timer s) (next_periodic_time s) (next_second_time s)
    (irq_reinject_on_ack_count s) (irq_coalesced s) (period s) (coalesced_timer s)
    (second_timer s) v (mon_events s).
Definition set_mon_events (v : list tm) (s : RTCState) : RTCState :=
  mkRTC (cmos_data s) (cmos_index s) (current_tm s) (base_year s) (irq s) (sqw_irq s)
    (periodic_timer s) (next_periodic_time s) (next_second_time s)
    (irq_reinject_on_ack_count s) (irq_coalesced s) (period s) (coalesced_timer s)
    (second_timer s) (second_timer2 s) v.

(** [s->cmos_data[i]], for reading and for writing (a byte is stored). *)
Definition cmos (s : RTCState) (i : Z) : Z := aget (cmos_data s) i.
Definition set_cmos (i v : Z) (s : RTCState) : RTCState :=
  set_cmos_data (aset (cmos_data s) i (u8 v)) s.

Definition MIN (a b : Z) : Z := if a <? b then a else b.

(** ** Coalesced interrupts *)

Definition rtc_coalesced_timer_update (now : Z) (s : RTCState) : RTCState :=
  if irq_coalesced s =? 0 then
    set_coalesced_timer (option_map (fun _ => None) (coalesced_timer s)) s
  else
    let c := MIN (irq_coalesced s) 7 + 1 in
    let next_clock :=
      now + I8254.muldiv64 (period s / c) I8254.get_ticks_per_sec 32768 in
    set_coalesced_timer (option_map (fun _ => Some next_clock) (coalesced_timer s)) s.

Definition rtc_coalesced_timer (now : Z) (delivered : bool) (s : RTCState) : RTCState :=
  let s :=
    if negb (irq_coalesced s =? 0) then
      let s := set_cmos RTC_REG_C (cmos s RTC_REG_C |. 0xc0) s in
      let s := set_irq 1 s in
      if delivered then set_irq_coalesced (u32 (irq_coalesced s - 1)) s else s
    else s in
  rtc_coalesced_timer_update now s.

(** ** Periodic interrupt *)

Definition rtc_timer_update (current_time : Z) (s : RTCState) : RTCState :=
  let period_code := cmos s RTC_REG_A &. 0x0f in
  if negb (period_code =? 0) &&
     (truthy (cmos s RTC_REG_B &. REG_B_PIE) ||
      (truthy (cmos s RTC_REG_B &. REG_B_SQWE) && bool_decide (sqw_irq s <> None))) then
    let period_code := if period_code <=? 2 then period_code + 7 else period_code in
    let p := 1 <<. (period_code - 1) in
    let s :=
      if negb (p =? period s) then
        set_irq_coalesced (u32 (irq_coalesced s * period s) / p) s
      else s in
    let s := set_period p s in
    let cur_clock := s64 (I8254.muldiv64 (u64 current_time) 32768 I8254.get_ticks_per_sec) in
    let next_irq_clock := (cur_clock &. ~. (p - 1)) + p in
    let s := set_next_periodic_time
      (s64 (I8254.muldiv64 (u64 next_irq_clock) I8254.get_ticks_per_sec 32768 + 1)) s in
    set_periodic_timer (Some (next_periodic_time s)) s
  else
    let s := set_irq_coalesced 0 s in
    set_periodic_timer None s.

Definition rtc_periodic_timer (rtc_td_hack : bool) (now : Z) (delivered : bool) (s : RTCState)
    : RTCState :=
  let s := rtc_timer_update (next_periodic_time s) s in
  let s :=
    if truthy (cmos s RTC_REG_B &. REG_B_PIE) then
      let s := set_cmos RTC_REG_C (cmos s RTC_REG_C |. 0xc0) s in
      if rtc_td_hack then
        let s :=
          if RTC_REINJECT_ON_ACK_COUNT <=? irq_reinject_on_ack_count s
          then set_irq_reinject_on_ack_count 0 s else s in
        let s := set_irq 1 s in
        if negb delivered then
          let s := set_irq_coalesced (u32 (irq_coalesced s + 1)) s in
          rtc_coalesced_timer_update now s
        else s
      else set_irq 1 s
    else s in
  if truthy (cmos s RTC_REG_B &. REG_B_SQWE)
  then set_sqw_irq (option_map (fun _ => 1) (sqw_irq s)) s else s.

(** ** Registers and dates *)

Definition rtc_to_bcd (s : RTCState) (a : Z) : Z :=
  if truthy (cmos s RTC_REG_B &. REG_B_DM) then a
  else Z.quot a 10 <<. 4 |. Z.rem a 10.

Definition rtc_from_bcd (s : RTCState) (a : Z) : Z :=
  if truthy (cmos s RTC_REG_B &. REG_B_DM) then a
  else (a >>. 4) * 10 + (a &. 0x0f).

Definition rtc_set_time (s : RTCState) : RTCState :=
  let hour := rtc_from_bcd s (cmos s RTC_HOURS &. 0x7f) in
  let hour :=
    if negb (truthy (cmos s RTC_REG_B &. REG_B_24H)) && truthy (cmos s RTC_HOURS &. 0x80)
    then hour + 12 else hour in
  let t :=
    mkTm (rtc_from_bcd s (cmos s RTC_SECONDS))
         (rtc_from_bcd s (cmos s RTC_MINUTES))
         hour
         (rtc_from_bcd s (cmos s RTC_DAY_OF_WEEK) - 1)
         (rtc_from_bcd s (cmos s RTC_DAY_OF_MONTH))
         (rtc_from_bcd s (cmos s RTC_MONTH) - 1)
         (rtc_from_bcd s (cmos s RTC_YEAR) + base_year s - 1900) in
  let s := set_current_tm t s in
  set_mon_events (t :: mon_events s) s.

Definition rtc_copy_date (s : RTCState) : RTCState :=
  let t := current_tm s in
  let s := set_cmos RTC_SECONDS (rtc_to_bcd s (tm_sec t)) s in
  let s := set_cmos RTC_MINUTES (rtc_to_bcd s (tm_min t)) s in
  let s :=
    if truthy (cmos s RTC_REG_B &. REG_B_24H) then
      set_cmos RTC_HOURS (rtc_to_bcd s (tm_hour t)) s
    else
      let s := set_cmos RTC_HOURS (rtc_to_bcd s (Z.rem (tm_hour t) 12)) s in
      if 12 <=? tm_hour t then set_cmos RTC_HOURS (cmos s RTC_HOURS |. 0x80) s else s in
  let s := set_cmos RTC_DAY_OF_WEEK (rtc_to_bcd s (tm_wday t + 1)) s in
  let s := set_cmos RTC_DAY_OF_MONTH (rtc_to_bcd s (tm_mday t)) s in
  let s := set_cmos RTC_MONTH (rtc_to_bcd s (tm_mon t + 1)) s in
  let year := Z.rem (tm_year t - base_year s) 100 in
  let year := if year <? 0 then year + 100 else year in
  set_cmos RTC_YEAR (rtc_to_bcd s year) s.

(** ** The calendar *)

Definition days_tab : list Z := [31; 28; 31; 30; 31; 30; 31; 31; 30; 31; 30; 31].

Definition get_days_in_month (month year : Z) : Z :=
  if 12 <=? u32 month then 31
  else
    let d := aget days_tab month in
    if month =? 1 then
      if (Z.rem year 4 =? 0) && (negb (Z.rem year 100 =? 0) || (Z.rem year 400 =? 0))
      then d + 1 else d
    else d.

(** The part of [rtc_next_second] after the comment "next day". *)
Definition next_day (t : tm) : tm :=
  let t := set_tm_wday (tm_wday t + 1) t in
  let t := if 7 <=? u32 (tm_wday t) then set_tm_wday 0 t else t in
  let days_in_month := get_days_in_month (tm_mon t) (tm_year t + 1900) in
  let t := set_tm_mday (tm_mday t + 1) t in
  if tm_mday t <? 1 then set_tm_mday 1 t
  else if days_in_month <? tm_mday t then
    let t := set_tm_mday 1 t in
    let t := set_tm_mon (tm_mon t + 1) t in
    if 12 <=? tm_mon t then
      let t := set_tm_mon 0 t in
      set_tm_year (tm_year t + 1) t
    else t
  else t.

Definition rtc_next_second (t : tm) : tm :=
  let t := set_tm_sec (tm_sec t + 1) t in
  if 60 <=? u32 (tm_sec t) then
    let t := set_tm_sec 0 t in
    let t := set_tm_min (tm_min t + 1) t in
    if 60 <=? u32 (tm_min t) then
      let t := set_tm_min 0 t in
      let t := set_tm_hour (tm_hour t + 1) t in
      if 24 <=? u32 (tm_hour t) then
        let t := set_tm_hour 0 t in
        next_day t
      else t
    else t
  else t.

(** ** The second timers *)

Definition rtc_update_second (s : RTCState) : RTCState :=
  if negb ((cmos s RTC_REG_A &. 0x70) =? 0x20) then
    let s := set_next_second_time (next_second_time s + I8254.get_ticks_per_sec) s in
    set_second_timer (Some (next_second_time s)) s
  else
    let s := set_current_tm (rtc_next_second (current_tm s)) s in
    let s :=
      if negb (truthy (cmos s RTC_REG_B &. REG_B_SET))
      then set_cmos RTC_REG_A (cmos s RTC_REG_A |. REG_A_UIP) s else s in
    let delay := I8254.get_ticks_per_sec * 1 / 100 in
    let delay := if delay <? 1 then 1 else delay in
    set_second_timer2 (Some (next_second_time s + delay)) s.

(** [(alarm & 0xc0) == 0xc0 || from_bcd(alarm) == now]. *)
Definition alarm_matches (s : RTCState) (reg field : Z) : bool :=
  ((cmos s reg &. 0xc0) =? 0xc0) || (rtc_from_bcd s (cmos s reg) =? field).

Definition rtc_update_second2 (s : RTCState) : RTCState :=
  let s := if negb (truthy (cmos s RTC_REG_B &. REG_B_SET)) then rtc_copy_date s else s in
  let s :=
    if truthy (cmos s RTC_REG_B &. REG_B_AIE) then
      if alarm_matches s RTC_SECONDS_ALARM (tm_sec (current_tm s)) &&
         alarm_matches s RTC_MINUTES_ALARM (tm_min (current_tm s)) &&
         alarm_matches s RTC_HOURS_ALARM (tm_hour (current_tm s)) then
        let s := set_cmos RTC_REG_C (cmos s RTC_REG_C |. 0xa0) s in
        set_irq 1 s
      else s
    else s in
  let s := set_cmos RTC_REG_C (cmos s RTC_REG_C |. REG_C_UF) s in
  let s :=
    if truthy (cmos s RTC_REG_B &. REG_B_UIE) then
      let s := set_cmos RTC_REG_C (cmos s RTC_REG_C |. REG_C_IRQF) s in
      set_irq 1 s
    else s in
  let s := set_cmos RTC_REG_A (cmos s RTC_REG_A &. ~. REG_A_UIP) s in
  let s := set_next_second_time (next_second_time s + I8254.get_ticks_per_sec) s in
  set_second_timer (Some (next_second_time s)) s.

(** ** Ports *)

Definition is_time_reg (i : Z) : bool :=
  existsb (Z.eqb i) [RTC_SECONDS; RTC_MINUTES; RTC_HOURS; RTC_DAY_OF_WEEK; RTC_DAY_OF_MONTH;
                     RTC_MONTH; RTC_YEAR].

Definition write_reg_a (now data : Z) (s : RTCState) : RTCState :=
  let s := set_cmos RTC_REG_A ((data &. ~. REG_A_UIP) |. (cmos s RTC_REG_A &. REG_A_UIP)) s in
  rtc_timer_update now s.

Definition write_reg_b (now data : Z) (s : RTCState) : RTCState :=
  let '(data, s) :=
    if truthy (data &. REG_B_SET) then
      (data &. ~. REG_B_UIE, set_cmos RTC_REG_A (cmos s RTC_REG_A &. ~. REG_A_UIP) s)
    else (data, if truthy (cmos s RTC_REG_B &. REG_B_SET) then rtc_set_time s else s) in
  let s :=
    if truthy ((cmos s RTC_REG_B ^. data) &. (REG_B_DM |. REG_B_24H)) &&
       negb (truthy (data &. REG_B_SET))
    then rtc_copy_date (set_cmos RTC_REG_B data s)
    else set_cmos RTC_REG_B data s in
  rtc_timer_update now s.

Definition cmos_ioport_write (now addr data : Z) (s : RTCState) : RTCState :=
  if (addr &. 1) =? 0 then set_cmos_index (data &. 0x7f) s
  else
    let i := cmos_index s in
    if is_time_reg i then
      let s := set_cmos i data s in
      if negb (truthy (cmos s RTC_REG_B &. REG_B_SET)) then rtc_set_time s else s
    else if i =? RTC_REG_A then write_reg_a now data s
    else if i =? RTC_REG_B then write_reg_b now data s
    else if (i =? RTC_REG_C) || (i =? RTC_REG_D) then s
    else set_cmos i data s.

Definition cmos_ioport_read (delivered : bool) (addr : Z) (s : RTCState) : Z * RTCState :=
  if (addr &. 1) =? 0 then (0xff, s)
  else
    let ret := cmos s (cmos_index s) in
    if cmos_index s =? RTC_REG_C then
      let s := set_irq 0 s in
      if negb (irq_coalesced s =? 0) &&
         (irq_reinject_on_ack_count s <? RTC_REINJECT_ON_ACK_COUNT) then
        let s := set_irq_reinject_on_ack_count (u16 (irq_reinject_on_ack_count s + 1)) s in
        let s := set_irq 1 s in
        (ret, if delivered then set_irq_coalesced (u32 (irq_coalesced s - 1)) s else s)
      else (ret, set_cmos RTC_REG_C 0x00 s)
    else (ret, s).

(** ** Initialisation and reset *)

Definition rtc_set_memory (addr val : Z) (s : RTCState) : RTCState :=
  if (0 <=? addr) && (addr <=? 127) then set_cmos addr val s else s.

Definition rtc_set_date (t : tm) (s : RTCState) : RTCState :=
  rtc_copy_date (set_current_tm t s).

(** [host] is what [qemu_get_timedate] returns. *)
Definition rtc_set_date_from_host (host : tm) (s : RTCState) : RTCState :=
  let s := rtc_set_date host s in
  let val := rtc_to_bcd s (Z.quot (tm_year host) 100 + 19) in
  rtc_set_memory REG_IBM_PS2_CENTURY_BYTE val (rtc_set_memory REG_IBM_CENTURY_BYTE val s).

Definition rtc_reset (rtc_td_hack : bool) (s : RTCState) : RTCState :=
  let s := set_cmos RTC_REG_B
    (cmos s RTC_REG_B &. ~. (REG_B_PIE |. REG_B_AIE |. REG_B_SQWE)) s in
  let s := set_cmos RTC_REG_C
    (cmos s RTC_REG_C &. ~. (REG_C_UF |. REG_C_IRQF |. REG_C_PF |. REG_C_AF)) s in
  let s := set_irq 0 s in
  if rtc_td_hack then set_irq_coalesced 0 s else s.

(** The device as allocated, with the property [base_year] set. *)
Definition rtc_zero (year : Z) : RTCState :=
  mkRTC (repeat 0 128) 0 (mkTm 0 0 0 0 0 0 0) year 0 None None 0 0 0 0 0 None None None [].

Definition rtc_initfn (rtc_td_hack : bool) (now : Z) (host : tm) (s : RTCState) : RTCState :=
  let s := set_cmos RTC_REG_A 0x26 s in
  let s := set_cmos RTC_REG_B 0x02 s in
  let s := set_cmos RTC_REG_C 0x00 s in
  let s := set_cmos RTC_REG_D 0x80 s in
  let s := rtc_set_date_from_host host s in
  let s := if rtc_td_hack then set_coalesced_timer (Some None) s else s in
  let s := set_next_second_time (now + I8254.get_ticks_per_sec * 99 / 100) s in
  set_second_timer2 (Some (next_second_time s)) s.

Definition rtc_init (rtc_td_hack : bool) (now : Z) (host : tm) (year : Z) : RTCState :=
  rtc_initfn rtc_td_hack now host (rtc_zero year).

(** ** The Gregorian calendar *)

Definition leap (y : Z) : bool := (y mod 4 =? 0) && (negb (y mod 100 =? 0) || (y mod 400 =? 0)).
Definition month_length (m y : Z) : Z :=
  aget days_tab m + if (m =? 1) && leap y then 1 else 0.

(** Days from the start of year [y] to the start of month [m]. *)
Definition month_start (m y : Z) : Z :=
  aget [0; 31; 59; 90; 120; 151; 181; 212; 243; 273; 304; 334; 365] m +
  if (1 <? m) && leap y then 1 else 0.

(** Days from 1 January of the year 1 to the first of January of year [y]. *)
Definition year_start (y : Z) : Z :=
  365 * (y - 1) + (y - 1) / 4 - (y - 1) / 100 + (y - 1) / 400.

Definition day_number (t : tm) : Z :=
  let y := tm_year t + 1900 in year_start y + month_start (tm_mon t) y + tm_mday t - 1.
Definition seconds (t : tm) : Z :=
  ((day_number t * 24 + tm_hour t) * 60 + tm_min t) * 60 + tm_sec t.

(** A date and time of the calendar; 1 January of the year 1 is a Monday. *)
Definition valid (t : tm) : Prop :=
  0 <= tm_sec t < 60 /\ 0 <= tm_min t < 60 /\ 0 <= tm_hour t < 24 /\
  0 <= tm_mon t < 12 /\ 1 <= tm_mday t <= month_length (tm_mon t) (tm_year t + 1900) /\
  0 <= tm_year t /\ 0 <= tm_wday t < 7.
Definition weekday_ok (t : tm) : Prop := tm_wday t = (day_number t + 1) mod 7.

Lemma year_step y : year_start (y + 1) = year_start y + 365 + if leap y then 1 else 0.
Proof.
  unfold year_start, leap. replace (y + 1 - 1) with y by lia.
  assert (E4 : y / 4 = (y - 1) / 4 + if y mod 4 =? 0 then 1 else 0) by (zcases; dlia).
  assert (E100 : y / 100 = (y - 1) / 100 + if y mod 100 =? 0 then 1 else 0) by (zcases; dlia).
  assert (E400 : y / 400 = (y - 1) / 400 + if y mod 400 =? 0 then 1 else 0) by (zcases; dlia).
  rewrite E4, E100, E400. clear E4 E100 E400.
  assert (D4 : y mod 100 = 0 -> y mod 4 = 0) by dlia.
  assert (D100 : y mod 400 = 0 -> y mod 100 = 0) by dlia.
  destruct (Z.eqb_spec (y mod 4) 0); destruct (Z.eqb_spec (y mod 100) 0);
    destruct (Z.eqb_spec (y mod 400) 0); cbn [andb orb negb]; tauto || lia.
Qed.

(** Evaluates a statement about the twelve months. *)
Ltac months m :=
  let H := fresh in
  assert (H : m = 0 \/ m = 1 \/ m = 2 \/ m = 3 \/ m = 4 \/ m = 5 \/ m = 6 \/ m = 7 \/ m = 8 \/
    m = 9 \/ m = 10 \/ m = 11) by lia;
  repeat destruct H as [-> | H]; try subst m.

Lemma month_step m y : 0 <= m < 12 -> month_start (m + 1) y = month_start m y + month_length m y.
Proof.
  intros Hm. unfold month_start, month_length. months m; cbn; destruct (leap y); reflexivity.
Qed.

Lemma month_start_0 y : month_start 0 y = 0.
Proof. unfold month_start. cbn. by destruct (leap y). Qed.
Lemma month_start_12 y : month_start 12 y = 365 + if leap y then 1 else 0.
Proof. unfold month_start. cbn. by destruct (leap y). Qed.

Lemma days_in_month_eq m y : 0 <= m < 12 -> 0 <= y -> get_days_in_month m y = month_length m y.
Proof.
  intros Hm Hy. unfold get_days_in_month, month_length, leap.
  rewrite (wrap_small 32 m) by (unfold is_uint; lia).
  rewrite !Z.rem_mod_nonneg by lia. destruct (Z.leb_spec 12 m); [lia|].
  destruct (m =? 1); cbn [andb]; [|lia]. destruct (_ && _); lia.
Qed.

Lemma month_length_range m y : 0 <= m < 12 -> 28 <= month_length m y <= 31.
Proof. intros Hm. unfold month_length. destruct (leap y); months m; split; vm_compute; discriminate. Qed.

(** Computes the fields of an updated [tm]. *)
Ltac tproj :=
  cbn [tm_sec tm_min tm_hour tm_wday tm_mday tm_mon tm_year set_tm_sec set_tm_min set_tm_hour
       set_tm_wday set_tm_mday set_tm_mon set_tm_year] in *.

(** [next_day] with the day of the week and the length of the month worked
    out. *)
Lemma next_day_eq sec min hour wday mday mon year :
  0 <= wday < 7 -> 0 <= mon < 12 -> 1 <= mday -> 0 <= year ->
  next_day (mkTm sec min hour wday mday mon year) =
  let w := (wday + 1) mod 7 in
  if mday + 1 <=? month_length mon (year + 1900) then mkTm sec min hour w (mday + 1) mon year
  else if mon =? 11 then mkTm sec min hour w 1 0 (year + 1)
  else mkTm sec min hour w 1 (mon + 1) year.
Proof.
  intros Hw Hm Hd Hy. unfold next_day. cbn zeta.
  assert (E : (if 7 <=? u32 (wday + 1) then 0 else wday + 1) = (wday + 1) mod 7)
    by (rewrite (wrap_small 32) by (unfold is_uint; lia); zcases; dlia).
  cbn [tm_wday set_tm_wday]. rewrite <- E.
  destruct (7 <=? u32 (wday + 1)); cbn -[month_length get_days_in_month Z.leb Z.ltb Z.eqb];
    rewrite days_in_month_eq by lia;
    (destruct (Z.ltb_spec (mday + 1) 1); [lia|]);
    destruct (Z.ltb_spec (month_length mon (year + 1900)) (mday + 1));
    destruct (Z.leb_spec (mday + 1) (month_length mon (year + 1900))); try lia; try done;
    cbn -[Z.leb Z.ltb Z.eqb];
    destruct (Z.leb_spec 12 (mon + 1)); destruct (Z.eqb_spec mon 11); try lia; done.
Qed.

(** The next day has the next number and the next day of the week. *)
Lemma next_day_spec t :
  valid t ->
  let t' := next_day t in
  valid t' /\ day_number t' = day_number t + 1 /\ (weekday_ok t -> weekday_ok t') /\
  tm_hour t' = tm_hour t /\ tm_min t' = tm_min t /\ tm_sec t' = tm_sec t.
Proof.
  destruct t as [sec min hour wday mday mon year]. cbv zeta.
  intros (V1 & V2 & V3 & V4 & V5 & V6 & V7).
  cbn [tm_sec tm_min tm_hour tm_wday tm_mday tm_mon tm_year] in *.
  rewrite next_day_eq by lia. cbv zeta.
  assert (Hl := fun m => month_length_range m (year + 1900)).
  assert (Hl1 := month_length_range 0 (year + 1 + 1900) ltac:(lia)).
  set (t' := if _ <=? _ then _ else _).
  assert (F : tm_hour t' = hour /\ tm_min t' = min /\ tm_sec t' = sec /\
    tm_wday t' = (wday + 1) mod 7)
    by (unfold t'; destruct (_ <=? _); [done|]; by destruct (_ =? _)).
  assert (D : day_number t' = day_number (mkTm sec min hour wday mday mon year) + 1 /\
    0 <= tm_mon t' < 12 /\ 0 <= tm_year t' /\
    1 <= tm_mday t' <= month_length (tm_mon t') (tm_year t' + 1900)).
  { unfold t', day_number. destruct (Z.leb_spec (mday + 1) (month_length mon (year + 1900)));
      [cbn [tm_mon tm_year tm_mday]; lia|].
    destruct (Z.eqb_spec mon 11) as [->|Hne]; cbn [tm_mon tm_year tm_mday].
    - assert (M := month_step 11 (year + 1900) ltac:(lia)). change (11 + 1) with 12 in M.
      rewrite month_start_12 in M. replace (year + 1 + 1900) with (year + 1900 + 1) in * by lia.
      rewrite year_step, month_start_0. lia.
    - assert (M := month_step mon (year + 1900) ltac:(lia)). specialize (Hl (mon + 1)). lia. }
  clearbody t'. destruct F as (F1 & F2 & F3 & F4), D as (D1 & D2 & D3 & D4).
  split; [|split; [done|split; [|done]]].
  - pose proof (Z.mod_pos_bound (wday + 1) 7 ltac:(lia)).
    unfold valid. rewrite F1, F2, F3, F4. split_and!; lia.
  - unfold weekday_ok. rewrite D1, F4. cbn [tm_wday]. intros ->.
    by rewrite Zplus_mod_idemp_l.
Qed.

Lemma next_second_spec t :
  valid t ->
  let t' := rtc_next_second t in
  valid t' /\ seconds t' = seconds t + 1 /\ (weekday_ok t -> weekday_ok t').
Proof.
  intros V. pose proof V as (V1 & V2 & V3 & V4 & V5 & V6 & V7).
  destruct t as [sec min hour wday mday mon year].
  unfold rtc_next_second. cbv zeta. tproj.
  rewrite !(wrap_small 32) by (unfold is_uint; lia).
  destruct (Z.leb_spec 60 (sec + 1)).
  2: { unfold valid, weekday_ok, seconds, day_number in *. tproj.
    split; [lia|]. split; [lia|done]. }
  destruct (Z.leb_spec 60 (min + 1)).
  2: { unfold valid, weekday_ok, seconds, day_number in *. tproj.
    split; [lia|]. split; [lia|done]. }
  destruct (Z.leb_spec 24 (hour + 1)).
  2: { unfold valid, weekday_ok, seconds, day_number in *. tproj.
    split; [lia|]. split; [lia|done]. }
  destruct (next_day_spec (mkTm 0 0 0 wday mday mon year)) as (N1 & N2 & N3 & N4 & N5 & N6).
  { unfold valid. cbn. lia. }
  match goal with |- context [next_day ?t] =>
    change (next_day t) with (next_day (mkTm 0 0 0 wday mday mon year)) end.
  split; [done|]. split; [|exact N3]. unfold seconds. rewrite N2, N4, N5, N6.
  unfold day_number. cbn [tm_sec tm_min tm_hour tm_wday tm_mday tm_mon tm_year]. lia.
Qed.

(** C36: the clock follows the Gregorian calendar.  From a valid date, [n]
    second updates lead to the valid date exactly [n] seconds later, counted from
    the year 1 with the leap year rule of the calendar, and a correct day of the
    week stays correct. *)
Theorem rtc_follows_calendar n t :
  valid t ->
  let t' := Nat.iter n rtc_next_second t in
  valid t' /\ seconds t' = seconds t + Z.of_nat n /\ (weekday_ok t -> weekday_ok t').
Proof.
  intros V. induction n as [|n (IH1 & IH2 & IH3)]; cbv zeta in *.
  - split; [done|]. split; [cbn; lia|done].
  - change (Nat.iter (S n) rtc_next_second t)
      with (rtc_next_second (Nat.iter n rtc_next_second t)).
    destruct (next_second_spec _ IH1) as (N1 & N2 & N3).
    split; [done|]. split; [rewrite N2; lia|auto].
Qed.

Lemma rtc_follows_calendar_witness :
  let t := mkTm 59 59 23 2 28 1 112 in
  Nat.iter 61 rtc_next_second t = mkTm 0 1 0 3 29 1 112 /\
  weekday_ok (Nat.iter 61 rtc_next_second t).
Proof.
  split; [vm_compute; reflexivity|].
  apply (rtc_follows_calendar 61 (mkTm 59 59 23 2 28 1 112)); [|vm_compute; reflexivity].
  unfold valid. cbn. repeat split; vm_compute; discriminate || reflexivity.
Defined.

(** ** Dates in the registers *)

Definition wf (s : RTCState) : Prop := length (cmos_data s) = 128%nat.

Lemma wf_set_cmos i v s : wf s -> wf (set_cmos i v s).
Proof. unfold wf. cbn. by rewrite length_aset. Qed.

Lemma cmos_set_cmos i v s j : wf s -> 0 <= i < 128 -> 0 <= j ->
  cmos (set_cmos i v s) j = if i =? j then u8 v else cmos s j.
Proof.
  intros W Hi Hj. unfold cmos, set_cmos, wf in *. cbn -[aset aget].
  destruct (Z.eqb_spec i j) as [->|]; [apply aget_aset_eq; lia|apply aget_aset_ne; lia].
Qed.

Create HintDb rtc discriminated.
#[export] Hint Resolve wf_set_cmos : rtc.

Definition binary (s : RTCState) : bool := truthy (cmos s RTC_REG_B &. REG_B_DM).
Definition to_bcd (dm : bool) (a : Z) : Z := if dm then a else (a / 10) <<. 4 |. a mod 10.
Definition from_bcd (dm : bool) (a : Z) : Z := if dm then a else (a >>. 4) * 10 + (a &. 0x0f).

Lemma rtc_to_bcd_eq s a : 0 <= a -> rtc_to_bcd s a = to_bcd (binary s) a.
Proof.
  intros. unfold rtc_to_bcd, to_bcd, binary. by rewrite Z.quot_div_nonneg, Z.rem_mod_nonneg by lia.
Qed.

Lemma rtc_from_bcd_eq s a : rtc_from_bcd s a = from_bcd (binary s) a.
Proof. done. Qed.

Lemma bcd_roundtrip dm a : 0 <= a < 100 -> from_bcd dm (u8 (to_bcd dm a)) = a.
Proof.
  intros Ha. apply Z.eqb_eq.
  assert (B : below 100 (fun a => from_bcd true (u8 (to_bcd true a)) =? a) = true) by reflexivity.
  assert (B' : below 100 (fun a => from_bcd false (u8 (to_bcd false a)) =? a) = true) by reflexivity.
  destruct dm; [apply (below_spec 100 _ a B)|apply (below_spec 100 _ a B')]; lia.
Qed.

(** The hours register: seven bits of hour, and the afternoon bit in the
    12-hour format. *)
Lemma hour_roundtrip dm h : 0 <= h < 24 ->
  from_bcd dm (u8 (to_bcd dm h) &. 0x7f) = h /\
  truthy (u8 (to_bcd dm (h mod 12)) &. 0x80) = false /\
  from_bcd dm (u8 (to_bcd dm (h mod 12)) &. 0x7f) = h mod 12 /\
  truthy (u8 (u8 (to_bcd dm (h mod 12)) |. 0x80) &. 0x80) = true /\
  from_bcd dm (u8 (u8 (to_bcd dm (h mod 12)) |. 0x80) &. 0x7f) = h mod 12.
Proof.
  intros Hh.
  assert (B : forall dm, below 24 (fun h =>
    (from_bcd dm (u8 (to_bcd dm h) &. 0x7f) =? h) &&
    negb (truthy (u8 (to_bcd dm (h mod 12)) &. 0x80)) &&
    (from_bcd dm (u8 (to_bcd dm (h mod 12)) &. 0x7f) =? h mod 12) &&
    truthy (u8 (u8 (to_bcd dm (h mod 12)) |. 0x80) &. 0x80) &&
    (from_bcd dm (u8 (u8 (to_bcd dm (h mod 12)) |. 0x80) &. 0x7f) =? h mod 12)) = true)
    by (intros []; reflexivity).
  specialize (B dm). apply (below_spec 24 _ h) in B; [|lia].
  rewrite !andb_true_iff, !Z.eqb_eq, negb_true_iff in B. tauto.
Qed.

Lemma binary_set_cmos i v s : wf s -> 0 <= i < 11 -> binary (set_cmos i v s) = binary s.
Proof. intros W Hi. unfold binary. rewrite cmos_set_cmos by (done || lia). unfold RTC_REG_B. zcases. done. Qed.

(** Evaluates the registers of a state written with [set_cmos]. *)
Ltac rtc_side :=
  auto 20 with rtc;
  unfold RTC_SECONDS, RTC_MINUTES, RTC_HOURS, RTC_DAY_OF_WEEK, RTC_DAY_OF_MONTH, RTC_MONTH,
    RTC_YEAR, RTC_REG_A, RTC_REG_B, RTC_REG_C, RTC_REG_D, RTC_SECONDS_ALARM, RTC_MINUTES_ALARM,
    RTC_HOURS_ALARM; lia.
Ltac const_eqb :=
  repeat match goal with
  | |- context [Z.eqb ?a ?b] =>
      let v := eval vm_compute in (Z.eqb a b) in
      match v with
      | true => change (Z.eqb a b) with true
      | false => change (Z.eqb a b) with false
      end
  end; cbv iota.
Ltac rtc_regs :=
  repeat first [rewrite binary_set_cmos by rtc_side|rewrite cmos_set_cmos by rtc_side];
  const_eqb; split_and!; auto 20 with rtc.

(** The registers after [rtc_copy_date]. *)
Lemma copy_date_regs s :
  wf s ->
  let t := current_tm s in
  0 <= tm_sec t < 60 -> 0 <= tm_min t < 60 -> 0 <= tm_hour t < 24 -> 0 <= tm_wday t < 7 ->
  1 <= tm_mday t <= 31 -> 0 <= tm_mon t < 12 ->
  let s' := rtc_copy_date s in
  let r v := u8 (to_bcd (binary s) v) in
  wf s' /\ current_tm s' = t /\ base_year s' = base_year s /\
  cmos s' RTC_REG_B = cmos s RTC_REG_B /\
  cmos s' RTC_SECONDS = r (tm_sec t) /\ cmos s' RTC_MINUTES = r (tm_min t) /\
  cmos s' RTC_HOURS =
    (if truthy (cmos s RTC_REG_B &. REG_B_24H) then r (tm_hour t)
     else if 12 <=? tm_hour t then u8 (r (tm_hour t mod 12) |. 0x80) else r (tm_hour t mod 12)) /\
  cmos s' RTC_DAY_OF_WEEK = r (tm_wday t + 1) /\ cmos s' RTC_DAY_OF_MONTH = r (tm_mday t) /\
  cmos s' RTC_MONTH = r (tm_mon t + 1) /\
  cmos s' RTC_YEAR = r ((tm_year t - base_year s) mod 100).
Proof.
  intros W t H1 H2 H3 H4 H5 H6.
  assert (Hy : (if Z.rem (tm_year t - base_year s) 100 <? 0
    then Z.rem (tm_year t - base_year s) 100 + 100 else Z.rem (tm_year t - base_year s) 100)
    = (tm_year t - base_year s) mod 100).
  { set (x := tm_year t - base_year s). clearbody x.
    pose proof (Z.quot_rem' x 100). pose proof (Z.rem_bound_abs x 100 ltac:(lia)).
    destruct (Z.ltb_spec (Z.rem x 100) 0).
    - apply (Z.mod_unique_pos x 100 (Z.quot x 100 - 1)); lia.
    - apply (Z.mod_unique_pos x 100 (Z.quot x 100)); lia. }
  assert (Hym := Z.mod_pos_bound (tm_year t - base_year s) 100 ltac:(lia)).
  unfold rtc_copy_date. cbv zeta. fold t.
  assert (Hq : Z.rem (tm_hour t) 12 = tm_hour t mod 12) by (by rewrite Z.rem_mod_nonneg by lia).
  assert (Hh := Z.mod_pos_bound (tm_hour t) 12 ltac:(lia)).
  set (s2 := set_cmos RTC_MINUTES _ _).
  assert (E2 : wf s2 /\ binary s2 = binary s /\ cmos s2 RTC_REG_B = cmos s RTC_REG_B /\
    cmos s2 RTC_SECONDS = u8 (to_bcd (binary s) (tm_sec t)) /\
    cmos s2 RTC_MINUTES = u8 (to_bcd (binary s) (tm_min t)))
    by (unfold s2; rewrite !rtc_to_bcd_eq by lia; rtc_regs).
  set (s3 := if truthy _ then _ else _).
  assert (E3 : wf s3 /\ binary s3 = binary s /\ cmos s3 RTC_REG_B = cmos s RTC_REG_B /\
    cmos s3 RTC_SECONDS = u8 (to_bcd (binary s) (tm_sec t)) /\
    cmos s3 RTC_MINUTES = u8 (to_bcd (binary s) (tm_min t)) /\
    cmos s3 RTC_HOURS =
    (if truthy (cmos s RTC_REG_B &. REG_B_24H) then u8 (to_bcd (binary s) (tm_hour t))
     else if 12 <=? tm_hour t then u8 (u8 (to_bcd (binary s) (tm_hour t mod 12)) |. 0x80)
     else u8 (to_bcd (binary s) (tm_hour t mod 12)))).
  { destruct E2 as (W2 & B2 & R2 & S2 & M2). unfold s3. rewrite R2, Hq. clearbody s2. clear s3.
    destruct (truthy (cmos s RTC_REG_B &. REG_B_24H)); [rewrite rtc_to_bcd_eq by lia; rewrite B2; rtc_regs|].
    destruct (12 <=? tm_hour t); rewrite rtc_to_bcd_eq by lia; rewrite B2; rtc_regs. }
  assert (F3 : base_year s3 = base_year s /\ current_tm s3 = t)
    by (unfold s3; destruct (truthy (cmos s2 RTC_REG_B &. REG_B_24H)); [done|];
        by destruct (12 <=? tm_hour t)).
  clearbody s3. clear E2 s2. destruct E3 as (W3 & B3 & R3 & S3 & M3 & H3'), F3 as [Y3 T3].
  cbn [base_year set_cmos set_cmos_data]. rewrite Y3, Hy.
  rewrite !rtc_to_bcd_eq by lia.
  repeat first [rewrite binary_set_cmos by rtc_side|rewrite cmos_set_cmos by rtc_side].
  const_eqb. rewrite B3. split_and!; auto 20 with rtc.
Qed.

(** A date that the registers can hold: fields in range, and a year of the
    century that starts with [base_year]. *)
Definition representable (base : Z) (t : tm) : Prop :=
  0 <= tm_sec t < 60 /\ 0 <= tm_min t < 60 /\ 0 <= tm_hour t < 24 /\ 0 <= tm_wday t < 7 /\
  1 <= tm_mday t <= 31 /\ 0 <= tm_mon t < 12 /\ base <= tm_year t + 1900 < base + 100.

(** Dates survive the registers.  In all four formats (BCD or binary,
    12 or 24 hours), reading the date back from the registers that [rtc_copy_date]
    wrote gives the same date. *)
Theorem rtc_date_roundtrip s :
  wf s -> representable (base_year s) (current_tm s) ->
  current_tm (rtc_set_time (rtc_copy_date s)) = current_tm s.
Proof.
  intros W (H1 & H2 & H3 & H4 & H5 & H6 & H7).
  destruct (copy_date_regs s W H1 H2 H3 H4 H5 H6)
    as (_ & _ & Y & B & R1 & R2 & R3 & R4 & R5 & R6 & R7).
  set (s' := rtc_copy_date s) in *. clearbody s'. unfold rtc_set_time. cbn [current_tm set_mon_events set_current_tm].
  rewrite !rtc_from_bcd_eq.
  assert (Eb : binary s' = binary s) by (unfold binary; by rewrite B).
  rewrite Eb, B, Y, R1, R2, R3, R4, R5, R6, R7, !bcd_roundtrip by dlia.
  destruct (hour_roundtrip (binary s) (tm_hour (current_tm s)) H3) as (G1 & G2 & G3 & G4 & G5).
  destruct (current_tm s) as [sec min hour wday mday mon year].
  cbn [tm_sec tm_min tm_hour tm_wday tm_mday tm_mon tm_year] in *. f_equal; [|lia|lia|dlia].
  destruct (truthy (cmos s RTC_REG_B &. REG_B_24H)); cbn [negb andb]; [done|].
  destruct (Z.leb_spec 12 hour); rewrite ?G2, ?G3, ?G4, ?G5; dlia.
Qed.

(** A clock started on 29 February 2012, a Wednesday, in the 12-hour BCD
    format. *)
Definition sample_clock : RTCState :=
  set_cmos RTC_REG_B 0x00
    (set_current_tm (mkTm 7 59 23 3 29 1 112) (rtc_zero 2000)).

Lemma rtc_date_roundtrip_witness :
  current_tm (rtc_set_time (rtc_copy_date sample_clock)) = mkTm 7 59 23 3 29 1 112.
Proof.
  apply (rtc_date_roundtrip sample_clock); [reflexivity|].
  unfold representable. cbn. lia.
Defined.

(** The 12-hour format has no hour 12.  A guest that writes noon or
    midnight as the clock chip defines them (12, with or without the afternoon
    bit) gets noon for midnight and the hour 24, which does not exist, for
    noon. *)
Theorem rtc_twelve_hour_midnight :
  let write v := current_tm (rtc_set_time (set_cmos RTC_HOURS v sample_clock)) in
  tm_hour (write 0x12) = 12 /\ tm_hour (write 0x92) = 24.
Proof. split; reflexivity. Qed.

(** ** The periodic timer *)

(** The 32768 Hz clock. *)
Definition clock (t : Z) : Z := t * 32768 / I8254.get_ticks_per_sec.

Definition periodic_enabled (s : RTCState) : bool :=
  negb (cmos s RTC_REG_A &. 0x0f =? 0) &&
  (truthy (cmos s RTC_REG_B &. REG_B_PIE) ||
   (truthy (cmos s RTC_REG_B &. REG_B_SQWE) && bool_decide (sqw_irq s <> None))).
Definition period_bits (s : RTCState) : Z :=
  let code := cmos s RTC_REG_A &. 0x0f in (if code <=? 2 then code + 7 else code) - 1.

Lemma period_bits_range s : periodic_enabled s = true -> 2 <= period_bits s <= 14.
Proof.
  intros E. apply andb_prop in E as [E _]. apply negb_true_iff, Z.eqb_neq in E.
  unfold period_bits. pose proof (is_uint_land_r 4 (cmos s RTC_REG_A) 0x0f ltac:(done) ltac:(lia)) as H.
  unfold is_uint in H. zcases; lia.
Qed.

Lemma land_lnot_ones a k : 0 <= k -> a &. ~. (2 ^ k - 1) = a / 2 ^ k * 2 ^ k.
Proof.
  intros. rewrite <- Z.ldiff_land. replace (2 ^ k - 1) with (Z.ones k) by (rewrite Z.ones_equiv; lia).
  by rewrite Z.ldiff_ones_r, Z.shiftl_mul_pow2, Z.shiftr_div_pow2 by lia.
Qed.

(** What [rtc_timer_update] leaves alone. *)
Lemma timer_update_frame now s :
  let s' := rtc_timer_update now s in
  cmos_data s' = cmos_data s /\ sqw_irq s' = sqw_irq s.
Proof.
  unfold rtc_timer_update. cbv zeta. destruct (_ && _); [|done].
  by destruct (negb (_ =? period s)).
Qed.

Lemma timer_update_time now s :
  periodic_enabled s = true -> 0 <= now <= 2 ^ 61 ->
  let p := 2 ^ period_bits s in
  let n := clock now / p * p + p in
  let s' := rtc_timer_update now s in
  next_periodic_time s' = n * I8254.get_ticks_per_sec / 32768 + 1 /\
  periodic_timer s' = Some (next_periodic_time s').
Proof.
  intros E Hn. assert (Hb := period_bits_range s E). cbv zeta.
  unfold rtc_timer_update. fold (periodic_enabled s). cbv zeta. rewrite E. fold (period_bits s).
  rewrite Z.shiftl_1_l. set (p := 2 ^ period_bits s).
  assert (Hp : 4 <= p <= 2 ^ 14) by (unfold p; split;
    [change 4 with (2 ^ 2)|]; apply Z.pow_le_mono_r; lia).
  unfold clock, I8254.get_ticks_per_sec in *.
  rewrite (wrap_small 64 now) by (unfold is_uint; lia).
  rewrite (I8254.muldiv64_quotient now) by (unfold is_uint; lia).
  assert (Hc : 0 <= now * 32768 / 1000000000 <= 2 ^ 47) by dlia.
  rewrite (wrap_small 64 (now * 32768 / 1000000000)) by (unfold is_uint; lia).
  assert (E1 : s64 (now * 32768 / 1000000000) = now * 32768 / 1000000000)
    by (unfold swrap; rewrite Z.mod_small; lia).
  rewrite E1. set (c := now * 32768 / 1000000000) in *. clearbody c.
  assert (El : c &. ~. (p - 1) = c / p * p) by (unfold p; apply land_lnot_ones; lia).
  rewrite El. clear El.
  assert (Hd : 0 <= c / p * p <= c)
    by (pose proof (Z.div_mod c p ltac:(lia)); pose proof (Z.mod_pos_bound c p ltac:(lia)); nia).
  set (n := c / p * p + p). assert (Hnn : 0 <= n <= 2 ^ 48) by (unfold n; lia).
  rewrite (wrap_small 64 n) by (unfold is_uint; lia).
  rewrite (I8254.muldiv64_quotient n) by (unfold is_uint; lia).
  rewrite (wrap_small 64 (n * 1000000000 / 32768)) by (unfold is_uint; dlia).
  assert (E2 : s64 (n * 1000000000 / 32768 + 1) = n * 1000000000 / 32768 + 1)
    by (unfold swrap; rewrite Z.mod_small; dlia).
  rewrite E2. destruct (negb (p =? period s)); done.
Qed.

(** The tick of the 32768 Hz clock at the time the timer is armed for. *)
Lemma clock_at_tick n : 0 <= n -> clock (n * I8254.get_ticks_per_sec / 32768 + 1) = n.
Proof. intros. unfold clock, I8254.get_ticks_per_sec. dlia. Qed.

(** A firing of the timer, with its reading of the clock and the answer of
    the interrupt controller. *)
Definition fire (rtc_td_hack : bool) (x : Z * bool) (s : RTCState) : RTCState :=
  rtc_periodic_timer rtc_td_hack (fst x) (snd x) s.

Lemma coalesced_update_frame now s :
  let s' := rtc_coalesced_timer_update now s in
  cmos_data s' = cmos_data s /\ sqw_irq s' = sqw_irq s /\
  next_periodic_time s' = next_periodic_time s /\ periodic_timer s' = periodic_timer s.
Proof. unfold rtc_coalesced_timer_update. by destruct (_ =? 0). Qed.

(** A firing re-arms the timer and leaves the configuration alone. *)
Lemma periodic_fire_spec hack x s :
  wf s ->
  let s1 := rtc_timer_update (next_periodic_time s) s in
  let s' := fire hack x s in
  wf s' /\ cmos s' RTC_REG_A = cmos s RTC_REG_A /\ cmos s' RTC_REG_B = cmos s RTC_REG_B /\
  (sqw_irq s' = None <-> sqw_irq s = None) /\
  next_periodic_time s' = next_periodic_time s1 /\ periodic_timer s' = periodic_timer s1.
Proof.
  intros W. cbv zeta. unfold fire, rtc_periodic_timer. cbv zeta.
  destruct (timer_update_frame (next_periodic_time s) s) as [F1 F2].
  set (s1 := rtc_timer_update (next_periodic_time s) s) in *. clearbody s1.
  assert (W1 : wf s1) by (unfold wf; by rewrite F1).
  assert (C1 : forall i, cmos s1 i = cmos s i) by (intros; unfold cmos; by rewrite F1).
  set (s2 := if truthy _ then _ else s1).
  assert (E2 : wf s2 /\ cmos s2 RTC_REG_A = cmos s1 RTC_REG_A /\ cmos s2 RTC_REG_B = cmos s1 RTC_REG_B /\
    sqw_irq s2 = sqw_irq s1 /\ next_periodic_time s2 = next_periodic_time s1 /\
    periodic_timer s2 = periodic_timer s1).
  { unfold s2. destruct (truthy _); [|done].
    set (s3 := set_cmos RTC_REG_C _ s1).
    assert (E3 : wf s3 /\ cmos s3 RTC_REG_A = cmos s1 RTC_REG_A /\ cmos s3 RTC_REG_B = cmos s1 RTC_REG_B)
      by (unfold s3; rtc_regs).
    assert (G : forall x, cmos_data x = cmos_data s3 -> sqw_irq x = sqw_irq s1 ->
      next_periodic_time x = next_periodic_time s1 -> periodic_timer x = periodic_timer s1 ->
      wf x /\ cmos x RTC_REG_A = cmos s1 RTC_REG_A /\ cmos x RTC_REG_B = cmos s1 RTC_REG_B /\
      sqw_irq x = sqw_irq s1 /\ next_periodic_time x = next_periodic_time s1 /\
      periodic_timer x = periodic_timer s1).
    { intros x0 G1 G2 G3 G4. unfold wf, cmos in *. rewrite G1, G2, G3, G4. tauto. }
    destruct hack; [|by apply G].
    set (s4 := if RTC_REINJECT_ON_ACK_COUNT <=? _ then _ else s3).
    assert (G4 : cmos_data s4 = cmos_data s3 /\ sqw_irq s4 = sqw_irq s1 /\
      next_periodic_time s4 = next_periodic_time s1 /\ periodic_timer s4 = periodic_timer s1)
      by (unfold s4; by destruct (RTC_REINJECT_ON_ACK_COUNT <=? _)).
    clearbody s4. destruct (snd x); cbn [negb]; [apply G; apply G4|].
    set (s5 := set_irq_coalesced _ _).
    destruct (coalesced_update_frame (fst x) s5) as (K1 & K2 & K3 & K4).
    apply G; [rewrite K1|rewrite K2|rewrite K3|rewrite K4]; apply G4. }
  clearbody s2. destruct E2 as (W2 & A2 & B2 & Q2 & N2 & P2).
  destruct (truthy (cmos s2 RTC_REG_B &. REG_B_SQWE)).
  - split; [exact W2|]. split; [exact (eq_trans A2 (C1 _))|]. split; [exact (eq_trans B2 (C1 _))|].
    split; [|split; [exact N2|exact P2]]. cbn [sqw_irq set_sqw_irq]. rewrite Q2, F2.
    by destruct (sqw_irq s).
  - rewrite A2, B2, !C1, N2, P2, Q2, F2. done.
Qed.

Lemma periodic_ext s s' :
  cmos s' RTC_REG_A = cmos s RTC_REG_A -> cmos s' RTC_REG_B = cmos s RTC_REG_B ->
  (sqw_irq s' = None <-> sqw_irq s = None) ->
  periodic_enabled s' = periodic_enabled s /\ period_bits s' = period_bits s.
Proof.
  unfold periodic_enabled, period_bits. intros -> -> Hq. split; [|done].
  do 3 f_equal. apply bool_decide_ext. by rewrite Hq.
Qed.

(** The tick due after [k] firings, and when it is due. *)
Definition grid (p now k : Z) : Z := (clock now / p + 1 + k) * p.

Lemma grid_time p now k :
  1 <= p <= 2 ^ 14 -> 0 <= now -> 0 <= k ->
  0 <= grid p now k /\ grid p now k * I8254.get_ticks_per_sec / 32768 + 1 <= now + (k + 1) * 2 ^ 29.
Proof.
  intros Hp Hn Hk. unfold grid.
  assert (Hc : 0 <= clock now) by (unfold clock, I8254.get_ticks_per_sec; dlia).
  pose proof (Z.div_mod (clock now) p ltac:(lia)). pose proof (Z.mod_pos_bound (clock now) p ltac:(lia)).
  pose proof (Z.div_pos (clock now) p ltac:(lia) ltac:(lia)).
  assert (Hq : 0 <= (1 + k) * p <= (1 + k) * 2 ^ 14) by nia.
  assert (E : (clock now / p + 1 + k) * p = clock now / p * p + (1 + k) * p) by ring.
  rewrite E. split; [nia|]. set (q := (1 + k) * p) in *. clearbody q.
  assert (Hg : clock now / p * p + q <= clock now + q) by lia.
  set (g := clock now / p * p + q) in *. clearbody g. clear E. unfold clock, I8254.get_ticks_per_sec in *.
  enough (g * 1000000000 / 32768 <= now + q * 30518) by lia.
  clear - Hg Hn Hq. dlia.
Qed.

Lemma periodic_run hack now fires s :
  wf s -> periodic_enabled s = true ->
  0 <= now -> now + (Z.of_nat (length fires) + 1) * 2 ^ 29 <= 2 ^ 61 ->
  let s' := fold_left (fun s x => fire hack x s) fires (rtc_timer_update now s) in
  let n := grid (2 ^ period_bits s) now (Z.of_nat (length fires)) in
  (wf s' /\ periodic_enabled s' = true /\ period_bits s' = period_bits s) /\
  next_periodic_time s' = n * I8254.get_ticks_per_sec / 32768 + 1 /\
  periodic_timer s' = Some (next_periodic_time s').
Proof.
  intros W E H0. assert (Hk := period_bits_range s E). set (p := 2 ^ period_bits s).
  assert (Hp : 1 <= p <= 2 ^ 14)
    by (unfold p; split; [apply (Z.pow_le_mono_r 2 0)|apply Z.pow_le_mono_r]; lia).
  induction fires as [|x fires IH] using rev_ind; intros Hb; cbv zeta.
  - cbn [fold_left length] in *. destruct (timer_update_frame now s) as [F1 F2].
    destruct (timer_update_time now s E) as [T1 T2]; [lia|]. fold p in T1.
    destruct (periodic_ext s (rtc_timer_update now s)) as [P1 P2];
      [unfold cmos; by rewrite F1..|by rewrite F2|].
    split; [split; [unfold wf; by rewrite F1|split; [by rewrite P1|done]]|].
    split; [|done]. rewrite T1. unfold grid. do 3 f_equal. lia.
  - rewrite fold_left_app, length_app in *. cbn [fold_left length] in *.
    destruct IH as ((W' & E' & P') & T' & _); [lia|].
    set (s1 := fold_left _ fires _) in *. clearbody s1.
    set (k := Z.of_nat (length fires)) in *.
    destruct (grid_time p now k Hp H0 ltac:(lia)) as [G1 G2].
    destruct (periodic_fire_spec hack x s1 W') as (W2 & A2 & B2 & Q2 & N2 & M2).
    destruct (periodic_ext s1 (fire hack x s1) A2 B2 Q2) as [P1 P2].
    destruct (timer_update_time (next_periodic_time s1) s1 E') as [T1 T2].
    { rewrite T'. split; [unfold I8254.get_ticks_per_sec; dlia|lia]. }
    rewrite P' in T1. fold p in T1.
    split; [by rewrite P1, P2|]. rewrite N2, M2. split; [|done]. rewrite T1, T', clock_at_tick by done.
    unfold grid. rewrite Z.div_mul by lia. do 3 f_equal. lia.
Qed.

(** The periodic interrupt does not drift.  Once armed at [now], the
    timer fires at consecutive multiples of the period of the 32768 Hz clock,
    starting with the first one after [now], however late each firing is served;
    each firing is armed for the nanosecond after its multiple. *)
Theorem rtc_periodic_grid hack now fires s :
  wf s -> periodic_enabled s = true ->
  0 <= now -> now + (Z.of_nat (length fires) + 1) * 2 ^ 29 <= 2 ^ 61 ->
  let p := 2 ^ period_bits s in
  let s' := fold_left (fun s x => fire hack x s) fires (rtc_timer_update now s) in
  let n := (clock now / p + 1 + Z.of_nat (length fires)) * p in
  periodic_timer s' = Some (n * I8254.get_ticks_per_sec / 32768 + 1) /\
  clock (n * I8254.get_ticks_per_sec / 32768 + 1) = n /\
  periodic_enabled s' = true.
Proof.
  intros W E H0 Hb p s' n. assert (Hk := period_bits_range s E).
  destruct (periodic_run hack now fires s W E H0 Hb) as ((_ & E' & _) & T1 & T2).
  split; [exact (eq_trans T2 (f_equal Some T1))|]. split; [|done]. apply clock_at_tick.
  apply grid_time; [|done|lia].
  unfold p; split; [apply (Z.pow_le_mono_r 2 0)|apply Z.pow_le_mono_r]; lia.
Qed.

Lemma rtc_periodic_grid_witness :
  let s := set_cmos RTC_REG_B 0x42 (rtc_init false 0 (mkTm 0 0 0 6 1 0 100) 2000) in
  periodic_timer (fold_left (fun s x => fire false x s) [(2000000, true); (3000000, true)]
    (rtc_timer_update 1000000 s)) = Some 3906251.
Proof.
  apply (rtc_periodic_grid false 1000000 [(2000000, true); (3000000, true)]
    (set_cmos RTC_REG_B 0x42 (rtc_init false 0 (mkTm 0 0 0 6 1 0 100) 2000)));
    [reflexivity|reflexivity|lia|cbn; lia].
Defined.

(** ** Acknowledging and memory *)

(** Register C.  Reading it returns the interrupt flags, clears them
    and lowers the interrupt line (when no coalesced interrupt is owed); a second
    read returns 0; no other register changes.  Registers C and D cannot be
    written. *)
Theorem rtc_register_c_acknowledges d now v s :
  wf s -> cmos_index s = RTC_REG_C -> irq_coalesced s = 0 ->
  let '(flags, s') := cmos_ioport_read d 0x71 s in
  flags = cmos s RTC_REG_C /\ irq s' = 0 /\
  fst (cmos_ioport_read d 0x71 s') = 0 /\
  (forall i, 0 <= i -> i <> RTC_REG_C -> cmos s' i = cmos s i) /\
  cmos_ioport_write now 0x71 v s = s /\
  cmos_ioport_write now 0x71 v (set_cmos_index RTC_REG_D s) = set_cmos_index RTC_REG_D s.
Proof.
  intros W Hi Hc. unfold cmos_ioport_read. change (0x71 &. 1 =? 0) with false. cbv iota.
  rewrite Hi. change (RTC_REG_C =? RTC_REG_C) with true. cbv iota zeta.
  cbn [irq_coalesced set_irq]. rewrite Hc. change (negb (0 =? 0)) with false. cbn [andb].
  cbn [cmos_index set_cmos set_cmos_data set_irq irq irq_coalesced]. rewrite Hi, Hc.
  change (RTC_REG_C =? RTC_REG_C) with true. cbv iota. cbn [negb andb Z.eqb].
  set (s1 := set_cmos RTC_REG_C 0 (set_irq 0 s)).
  assert (W' : wf (set_irq 0 s)) by exact W.
  assert (C : forall i, 0 <= i -> cmos s1 i = if RTC_REG_C =? i then 0 else cmos s i)
    by (intros i H0; unfold s1; rewrite cmos_set_cmos by (done || rtc_side); done).
  split; [done|]. split; [done|]. split; [|split; [|split]].
  - change (fst _) with (cmos s1 RTC_REG_C). by rewrite C by rtc_side.
  - intros i H0 Hne. change (cmos s1 i = cmos s i). rewrite C by done.
    by rewrite (proj2 (Z.eqb_neq _ _)) by congruence.
  - unfold cmos_ioport_write. rewrite Hi. done.
  - done.
Qed.

(** A clock with a pending update interrupt, register C selected. *)
Definition sample_pending : RTCState :=
  set_cmos_index RTC_REG_C (set_cmos RTC_REG_C 0x90 sample_clock).

Lemma rtc_register_c_acknowledges_witness :
  fst (cmos_ioport_read true 0x71 (snd (cmos_ioport_read true 0x71 sample_pending))) = 0.
Proof.
  pose proof (rtc_register_c_acknowledges true 0 0 sample_pending eq_refl eq_refl eq_refl) as P.
  destruct (cmos_ioport_read true 0x71 sample_pending) as [f s'].
  destruct P as (_ & _ & P & _). exact P.
Defined.

(** The battery-backed memory.  A byte written to one of the general
    locations 14 to 127 or to an alarm register through the index and data
    ports is read back, and every other location keeps its value. *)
Theorem rtc_memory_roundtrip d now i v s :
  wf s -> is_u8 v -> 14 <= i < 128 \/ i = RTC_SECONDS_ALARM \/ i = RTC_MINUTES_ALARM \/
    i = RTC_HOURS_ALARM ->
  let s' := cmos_ioport_write now 0x71 v (cmos_ioport_write now 0x70 i s) in
  fst (cmos_ioport_read d 0x71 s') = v /\
  forall j, 0 <= j -> j <> i -> cmos s' j = cmos s j.
Proof.
  intros W Hv Hi. unfold cmos_ioport_write at 2. change (0x70 &. 1 =? 0) with true. cbv iota.
  assert (Hr : 0 <= i < 128) by (unfold RTC_SECONDS_ALARM, RTC_MINUTES_ALARM, RTC_HOURS_ALARM in Hi; lia).
  assert (El : i &. 0x7f = i).
  { change 0x7f with (Z.ones 7). rewrite Z.land_ones by lia. apply Z.mod_small. lia. }
  rewrite El. set (s1 := set_cmos_index i s).
  assert (Hn : forall k, In k [0; 2; 4; 6; 7; 8; 9; 10; 11; 12; 13] -> (i =? k) = false).
  { intros k Hk. apply Z.eqb_neq. intros ->. unfold RTC_SECONDS_ALARM, RTC_MINUTES_ALARM, RTC_HOURS_ALARM in Hi.
    cbn in Hk. lia. }
  assert (Ew : cmos_ioport_write now 0x71 v s1 = set_cmos i v s1).
  { unfold cmos_ioport_write. change (0x71 &. 1 =? 0) with false. cbv iota zeta.
    change (cmos_index s1) with i. unfold is_time_reg. cbn [existsb].
    unfold RTC_SECONDS, RTC_MINUTES, RTC_HOURS, RTC_DAY_OF_WEEK, RTC_DAY_OF_MONTH, RTC_MONTH, RTC_YEAR,
      RTC_REG_A, RTC_REG_B, RTC_REG_C, RTC_REG_D.
    rewrite !Hn by (cbn; tauto). done. }
  cbv zeta. rewrite Ew. unfold cmos_ioport_read. change (0x71 &. 1 =? 0) with false. cbv iota.
  change (cmos_index (set_cmos i v s1)) with i. unfold RTC_REG_C. rewrite Hn by (cbn; tauto).
  cbn [fst]. assert (W1 : wf s1) by exact W. split.
  - rewrite cmos_set_cmos, Z.eqb_refl by (done || lia). by apply wrap_small.
  - intros j Hj Hne. rewrite cmos_set_cmos by (done || lia).
    by rewrite (proj2 (Z.eqb_neq i j)) by congruence.
Qed.

Lemma rtc_memory_roundtrip_witness :
  fst (cmos_ioport_read true 0x71
    (cmos_ioport_write 0 0x71 0x5a (cmos_ioport_write 0 0x70 0x40 sample_clock))) = 0x5a.
Proof. apply (rtc_memory_roundtrip true 0 0x40 0x5a sample_clock); [reflexivity|done|lia]. Defined.

End RTC.
