(* ===== verification/APIC.v ===== *)
(** * The local APICs (src/qemu/hw/apic.c)

    [APICState] keeps the source's fields; [timer] is [Some t] when armed for
    [t].  [cpu_env] is the part of the processor's state that the APIC and its
    callees (src/qemu/exec.c, src/qemu/target-i386/cpu.h) write.  [Bus] is the
    pair of globals [local_apics] and [apic_irq_delivered]: [apic_init1] fills
    the array from index 0, so that it is the list of the APICs created, and an
    index beyond its end is the null pointer.  The exported functions test
    their device for null and take an [option].  [apic_eoi] calls the I/O APIC,
    which delivers to the bus again: the call is the section's
    [ioapic_eoi_broadcast], on the bus and the rest [X] of the machine.

    The theorems: the APIC with the processor's acknowledge and end of interrupt
    implements a priority stack; a bus message reaches exactly the APICs its
    destination names; the timer fires on the grid of its programmed period;
    registers keep their widths. *)
From S2P Require Import Prelude.
From stdpp Require Import list sorting.

#[local] Open Scope Z_scope.
#[local] Open Scope c_scope.

Module APIC.

(** ** Constants *)

Definition APIC_LVT_TIMER : Z := 0.
Definition APIC_LVT_THERMAL : Z := 1.
Definition APIC_LVT_PERFORM : Z := 2.
Definition APIC_LVT_LINT0 : Z := 3.
Definition APIC_LVT_LINT1 : Z := 4.
Definition APIC_LVT_ERROR : Z := 5.
Definition APIC_LVT_NB : Z := 6.
Definition APIC_DM_FIXED : Z := 0.
Definition APIC_DM_LOWPRI : Z := 1.
Definition APIC_DM_SMI : Z := 2.
Definition APIC_DM_NMI : Z := 4.
Definition APIC_DM_INIT : Z := 5.
Definition APIC_DM_SIPI : Z := 6.
Definition APIC_DM_EXTINT : Z := 7.
Definition APIC_DESTMODE_FLAT : Z := 0xf.
Definition APIC_DESTMODE_CLUSTER : Z := 1.
Definition APIC_TRIGGER_EDGE : Z := 0.
Definition APIC_TRIGGER_LEVEL : Z := 1.
Definition APIC_LVT_TIMER_PERIODIC : Z := 2 ^ 17.
Definition APIC_LVT_MASKED : Z := 2 ^ 16.
Definition APIC_LVT_LEVEL_TRIGGER : Z := 2 ^ 15.
Definition APIC_LVT_REMOTE_IRR : Z := 2 ^ 14.
Definition APIC_INPUT_POLARITY : Z := 2 ^ 13.
Definition APIC_SEND_PENDING : Z := 2 ^ 12.
Definition ESR_ILLEGAL_ADDRESS : Z := 2 ^ 7.
Definition APIC_SV_DIRECTED_IO : Z := 2 ^ 12.
Definition APIC_SV_ENABLE : Z := 2 ^ 8.
Definition MAX_APICS : Z := 255.
Definition MAX_APIC_WORDS : Z := 8.
Definition MSI_DATA_VECTOR_SHIFT : Z := 0.
Definition MSI_DATA_VECTOR_MASK : Z := 0x000000ff.
Definition MSI_DATA_DELIVERY_MODE_SHIFT : Z := 8.
Definition MSI_DATA_TRIGGER_SHIFT : Z := 15.
Definition MSI_DATA_LEVEL_SHIFT : Z := 14.
Definition MSI_ADDR_DEST_MODE_SHIFT : Z := 2.
Definition MSI_ADDR_DEST_ID_SHIFT : Z := 12.
Definition MSI_ADDR_DEST_ID_MASK : Z := 0x00ffff0.
Definition MSI_ADDR_SIZE : Z := 0x100000.

Definition MSR_IA32_APICBASE_BSP : Z := 2 ^ 8.
Definition MSR_IA32_APICBASE_ENABLE : Z := 2 ^ 11.

Definition CPU_INTERRUPT_HARD : Z := 0x02.
Definition CPU_INTERRUPT_SMI : Z := 0x40.
Definition CPU_INTERRUPT_NMI : Z := 0x200.
Definition CPU_INTERRUPT_INIT : Z := 0x400.
Definition CPU_INTERRUPT_SIPI : Z := 0x800.

(** ** State *)

(** The fields of the processor that the APIC's callees write;
    [cpuid_apic] is the feature bit CPUID_APIC. *)
Record CPUState := mkCPU {
  cpu_index : Z;
  interrupt_request : Z;
  cpuid_apic : bool;
  eip : Z;
  cs_selector : Z;
  cs_base : Z;
  halted : Z
}.

Definition set_interrupt_request (v : Z) (s : CPUState) : CPUState :=
  mkCPU (cpu_index s) v (cpuid_apic s) (eip s) (cs_selector s) (cs_base s) (halted s).
Definition set_cpuid_apic (v : bool) (s : CPUState) : CPUState :=
  mkCPU (cpu_index s) (interrupt_request s) v (eip s) (cs_selector s) (cs_base s) (halted
    s).
Definition set_eip (v : Z) (s : CPUState) : CPUState :=
  mkCPU (cpu_index s) (interrupt_request s) (cpuid_apic s) v (cs_selector s) (cs_base s)
    (halted s).
Definition set_cs_selector (v : Z) (s : CPUState) : CPUState :=
  mkCPU (cpu_index s) (interrupt_request s) (cpuid_apic s) (eip s) v (cs_base s) (halted
    s).
Definition set_cs_base (v : Z) (s : CPUState) : CPUState :=
  mkCPU (cpu_index s) (interrupt_request s) (cpuid_apic s) (eip s) (cs_selector s) v
    (halted s).
Definition set_halted (v : Z) (s : CPUState) : CPUState :=
  mkCPU (cpu_index s) (interrupt_request s) (cpuid_apic s) (eip s) (cs_selector s)
    (cs_base s) v.

Record APICState := mkAPIC {
  cpu_env : CPUState;
  apicbase : Z;
  id : Z;
  arb_id : Z;
  tpr : Z;
  spurious_vec : Z;
  log_dest : Z;
  dest_mode : Z;
  isr : list Z;
  tmr : list Z;
  irr : list Z;
  lvt : list Z;
  esr : Z;
  icr : list Z;
  divide_conf : Z;
  count_shift : Z;
  initial_count : Z;
  initial_count_load_time : Z;
  next_time : Z;
  idx : Z;
  timer : option Z;
  sipi_vector : Z;
  wait_for_sipi : Z
}.

Definition set_cpu_env (v : CPUState) (s : APICState) : APICState :=
  mkAPIC v (apicbase s) (id s) (arb_id s) (tpr s) (spurious_vec s) (log_dest s) (dest_mode
    s) (isr s) (tmr s) (irr s) (lvt s) (esr s) (icr s) (divide_conf s) (count_shift s)
    (initial_count s) (initial_count_load_time s) (next_time s) (idx s) (timer s)
    (sipi_vector s) (wait_for_sipi s).
Definition set_apicbase (v : Z) (s : APICState) : APICState :=
  mkAPIC (cpu_env s) v (id s) (arb_id s) (tpr s) (spurious_vec s) (log_dest s) (dest_mode
    s) (isr s) (tmr s) (irr s) (lvt s) (esr s) (icr s) (divide_conf s) (count_shift s)
    (initial_count s) (initial_count_load_time s) (next_time s) (idx s) (timer s)
    (sipi_vector s) (wait_for_sipi s).
Definition set_id (v : Z) (s : APICState) : APICState :=
  mkAPIC (cpu_env s) (apicbase s) v (arb_id s) (tpr s) (spurious_vec s) (log_dest s)
    (dest_mode s) (isr s) (tmr s) (irr s) (lvt s) (esr s) (icr s) (divide_conf s)
    (count_shift s) (initial_count s) (initial_count_load_time s) (next_time s) (idx s)
    (timer s) (sipi_vector s) (wait_for_sipi s).
Definition set_arb_id (v : Z) (s : APICState) : APICState :=
  mkAPIC (cpu_env s) (apicbase s) (id s) v (tpr s) (spurious_vec s) (log_dest s)
    (dest_mode s) (isr s) (tmr s) (irr s) (lvt s) (esr s) (icr s) (divide_conf s)
    (count_shift s) (initial_count s) (initial_count_load_time s) (next_time s) (idx s)
    (timer s) (sipi_vector s) (wait_for_sipi s).
Definition set_tpr (v : Z) (s : APICState) : APICState :=
  mkAPIC (cpu_env s) (apicbase s) (id s) (arb_id s) v (spurious_vec s) (log_dest s)
    (dest_mode s) (isr s) (tmr s) (irr s) (lvt s) (esr s) (icr s) (divide_conf s)
    (count_shift s) (initial_count s) (initial_count_load_time s) (next_time s) (idx s)
    (timer s) (sipi_vector s) (wait_for_sipi s).
Definition set_spurious_vec (v : Z) (s : APICState) : APICState :=
  mkAPIC (cpu_env s) (apicbase s) (id s) (arb_id s) (tpr s) v (log_dest s) (dest_mode s)
    (isr s) (tmr s) (irr s) (lvt s) (esr s) (icr s) (divide_conf s) (count_shift s)
    (initial_count s) (initial_count_load_time s) (next_time s) (idx s) (timer s)
    (sipi_vector s) (wait_for_sipi s).
Definition set_log_dest (v : Z) (s : APICState) : APICState :=
  mkAPIC (cpu_env s) (apicbase s) (id s) (arb_id s) (tpr s) (spurious_vec s) v (dest_mode
    s) (isr s) (tmr s) (irr s) (lvt s) (esr s) (icr s) (divide_conf s) (count_shift s)
    (initial_count s) (initial_count_load_time s) (next_time s) (idx s) (timer s)
    (sipi_vector s) (wait_for_sipi s).
Definition set_dest_mode (v : Z) (s : APICState) : APICState :=
  mkAPIC (cpu_env s) (apicbase s) (id s) (arb_id s) (tpr s) (spurious_vec s) (log_dest s)
    v (isr s) (tmr s) (irr s) (lvt s) (esr s) (icr s) (divide_conf s) (count_shift s)
    (initial_count s) (initial_count_load_time s) (next_time s) (idx s) (timer s)
    (sipi_vector s) (wait_for_sipi s).
Definition set_isr (v : list Z) (s : APICState) : APICState :=
  mkAPIC (cpu_env s) (apicbase s) (id s) (arb_id s) (tpr s) (spurious_vec s) (log_dest s)
    (dest_mode s) v (tmr s) (irr s) (lvt s) (esr s) (icr s) (divide_conf s) (count_shift
    s) (initial_count s) (initial_count_load_time s) (next_time s) (idx s) (timer s)
    (sipi_vector s) (wait_for_sipi s).
Definition set_tmr (v : list Z) (s : APICState) : APICState :=
  mkAPIC (cpu_env s) (apicbase s) (id s) (arb_id s) (tpr s) (spurious_vec s) (log_dest s)
    (dest_mode s) (isr s) v (irr s) (lvt s) (esr s) (icr s) (divide_conf s) (count_shift
    s) (initial_count s) (initial_count_load_time s) (next_time s) (idx s) (timer s)
    (sipi_vector s) (wait_for_sipi s).
Definition set_irr (v : list Z) (s : APICState) : APICState :=
  mkAPIC (cpu_env s) (apicbase s) (id s) (arb_id s) (tpr s) (spurious_vec s) (log_dest s)
    (dest_mode s) (isr s) (tmr s) v (lvt s) (esr s) (icr s) (divide_conf s) (count_shift
    s) (initial_count s) (initial_count_load_time s) (next_time s) (idx s) (timer s)
    (sipi_vector s) (wait_for_sipi s).
Definition set_lvt (v : list Z) (s : APICState) : APICState :=
  mkAPIC (cpu_env s) (apicbase s) (id s) (arb_id s) (tpr s) (spurious_vec s) (log_dest s)
    (dest_mode s) (isr s) (tmr s) (irr s) v (esr s) (icr s) (divide_conf s) (count_shift
    s) (initial_count s) (initial_count_load_time s) (next_time s) (idx s) (timer s)
    (sipi_vector s) (wait_for_sipi s).
Definition set_esr (v : Z) (s : APICState) : APICState :=
  mkAPIC (cpu_env s) (apicbase s) (id s) (arb_id s) (tpr s) (spurious_vec s) (log_dest s)
    (dest_mode s) (isr s) (tmr s) (irr s) (lvt s) v (icr s) (divide_conf s) (count_shift
    s) (initial_count s) (initial_count_load_time s) (next_time s) (idx s) (timer s)
    (sipi_vector s) (wait_for_sipi s).
Definition set_icr (v : list Z) (s : APICState) : APICState :=
  mkAPIC (cpu_env s) (apicbase s) (id s) (arb_id s) (tpr s) (spurious_vec s) (log_dest s)
    (dest_mode s) (isr s) (tmr s) (irr s) (lvt s) (esr s) v (divide_conf s) (count_shift
    s) (initial_count s) (initial_count_load_time s) (next_time s) (idx s) (timer s)
    (sipi_vector s) (wait_for_sipi s).
Definition set_divide_conf (v : Z) (s : APICState) : APICState :=
  mkAPIC (cpu_env s) (apicbase s) (id s) (arb_id s) (tpr s) (spurious_vec s) (log_dest s)
    (dest_mode s) (isr s) (tmr s) (irr s) (lvt s) (esr s) (icr s) v (count_shift s)
    (initial_count s) (initial_count_load_time s) (next_time s) (idx s) (timer s)
    (sipi_vector s) (wait_for_sipi s).
Definition set_count_shift (v : Z) (s : APICState) : APICState :=
  mkAPIC (cpu_env s) (apicbase s) (id s) (arb_id s) (tpr s) (spurious_vec s) (log_dest s)
    (dest_mode s) (isr s) (tmr s) (irr s) (lvt s) (esr s) (icr s) (divide_conf s) v
    (initial_count s) (initial_count_load_time s) (next_time s) (idx s) (timer s)
    (sipi_vector s) (wait_for_sipi s).
Definition set_initial_count (v : Z) (s : APICState) : APICState :=
  mkAPIC (cpu_env s) (apicbase s) (id s) (arb_id s) (tpr s) (spurious_vec s) (log_dest s)
    (dest_mode s) (isr s) (tmr s) (irr s) (lvt s) (esr s) (icr s) (divide_conf s)
    (count_shift s) v (initial_count_load_time s) (next_time s) (idx s) (timer s)
    (sipi_vector s) (wait_for_sipi s).
Definition set_initial_count_load_time (v : Z) (s : APICState) : APICState :=
  mkAPIC (cpu_env s) (apicbase s) (id s) (arb_id s) (tpr s) (spurious_vec s) (log_dest s)
    (dest_mode s) (isr s) (tmr s) (irr s) (lvt s) (esr s) (icr s) (divide_conf s)
    (count_shift s) (initial_count s) v (next_time s) (idx s) (timer s) (sipi_vector s)
    (wait_for_sipi s).
Definition set_next_time (v : Z) (s : APICState) : APICState :=
  mkAPIC (cpu_env s) (apicbase s) (id s) (arb_id s) (tpr s) (spurious_vec s) (log_dest s)
    (dest_mode s) (isr s) (tmr s) (irr s) (lvt s) (esr s) (icr s) (divide_conf s)
    (count_shift s) (initial_count s) (initial_count_load_time s) v (idx s) (timer s)
    (sipi_vector s) (wait_for_sipi s).
Definition set_timer (v : option Z) (s : APICState) : APICState :=
  mkAPIC (cpu_env s) (apicbase s) (id s) (arb_id s) (tpr s) (spurious_vec s) (log_dest s)
    (dest_mode s) (isr s) (tmr s) (irr s) (lvt s) (esr s) (icr s) (divide_conf s)
    (count_shift s) (initial_count s) (initial_count_load_time s) (next_time s) (idx s) v
    (sipi_vector s) (wait_for_sipi s).
Definition set_sipi_vector (v : Z) (s : APICState) : APICState :=
  mkAPIC (cpu_env s) (apicbase s) (id s) (arb_id s) (tpr s) (spurious_vec s) (log_dest s)
    (dest_mode s) (isr s) (tmr s) (irr s) (lvt s) (esr s) (icr s) (divide_conf s)
    (count_shift s) (initial_count s) (initial_count_load_time s) (next_time s) (idx s)
    (timer s) v (wait_for_sipi s).
Definition set_wait_for_sipi (v : Z) (s : APICState) : APICState :=
  mkAPIC (cpu_env s) (apicbase s) (id s) (arb_id s) (tpr s) (spurious_vec s) (log_dest s)
    (dest_mode s) (isr s) (tmr s) (irr s) (lvt s) (esr s) (icr s) (divide_conf s)
    (count_shift s) (initial_count s) (initial_count_load_time s) (next_time s) (idx s)
    (timer s) (sipi_vector s) v.

(** [local_apics] and [apic_irq_delivered]. *)
Record Bus := mkBus { local_apics : list APICState; apic_irq_delivered : Z }.

Definition apic_at (b : Bus) (i : Z) : option APICState := local_apics b !! Z.to_nat i.

(** ** The processor *)

Definition cpu_interrupt (mask : Z) (env : CPUState) : CPUState :=
  set_interrupt_request (interrupt_request env |. mask) env.

Definition cpu_reset_interrupt (mask : Z) (env : CPUState) : CPUState :=
  set_interrupt_request (interrupt_request env &. ~. mask) env.

Definition cpu_clear_apic_feature (env : CPUState) : CPUState := set_cpuid_apic false env.

Definition cpu_x86_load_seg_cache_sipi (sipi_vector : Z) (env : CPUState) : CPUState :=
  let env := set_eip 0 env in
  let env := set_cs_selector (sipi_vector <<. 8) env in
  let env := set_cs_base (sipi_vector <<. 12) env in
  set_halted 0 env.

Definition cpu_is_bsp (env : CPUState) : bool := cpu_index env =? 0.

(** The call [f(s->cpu_env, ...)]. *)
Definition on_cpu (f : CPUState -> CPUState) (s : APICState) : APICState :=
  set_cpu_env (f (cpu_env s)) s.

(** ** Bit tables *)

Definition clz32 (val : Z) : Z := if truthy val then 31 - Z.log2 val else 32.

(** [__builtin_ctz]: the position of the lowest bit set. *)
Fixpoint ctz_pos (p : positive) : Z :=
  match p with
  | xO p' => 1 + ctz_pos p'
  | _ => 0
  end.

Definition ctz32 (val : Z) : Z :=
  match val with
  | Zpos p => ctz_pos p
  | _ => 32
  end.

Definition fls_bit (value : Z) : Z := 31 - clz32 value.
Definition ffs_bit (value : Z) : Z := ctz32 value.

Definition set_bit (tab : list Z) (index : Z) : list Z :=
  let i := index >>. 5 in
  let mask := 1 <<. (index &. 0x1f) in
  aset tab i (u32 (aget tab i |. mask)).

Definition reset_bit (tab : list Z) (index : Z) : list Z :=
  let i := index >>. 5 in
  let mask := 1 <<. (index &. 0x1f) in
  aset tab i (u32 (aget tab i &. ~. mask)).

Definition get_bit (tab : list Z) (index : Z) : Z :=
  let i := index >>. 5 in
  let mask := 1 <<. (index &. 0x1f) in
  of_bool (truthy (aget tab i &. mask)).

(** ** Priorities *)

(** The loop runs [i] from 7 down to 0. *)
Fixpoint highest_below (n : nat) (tab : list Z) : Z :=
  match n with
  | O => -1
  | S i =>
      let w := aget tab (Z.of_nat i) in
      if negb (w =? 0) then Z.of_nat i * 32 + fls_bit w else highest_below i tab
  end.

Definition get_highest_priority_int (tab : list Z) : Z := highest_below 8 tab.

Definition apic_get_ppr (s : APICState) : Z :=
  let tpr4 := tpr s >>. 4 in
  let isrv := get_highest_priority_int (isr s) in
  let isrv := if isrv <? 0 then 0 else isrv in
  let isrv := isrv >>. 4 in
  if isrv <=? tpr4 then tpr s else isrv <<. 4.

Definition apic_get_arb_pri (s : APICState) : Z := 0.

Definition apic_irq_pending (s : APICState) : Z :=
  let irrv := get_highest_priority_int (irr s) in
  if irrv <? 0 then 0
  else
    let ppr := apic_get_ppr s in
    if truthy ppr && ((irrv &. 0xf0) <=? (ppr &. 0xf0)) then -1
    else irrv.

Definition apic_update_irq (s : APICState) : APICState :=
  if negb (truthy (spurious_vec s &. APIC_SV_ENABLE)) then s
  else if 0 <? apic_irq_pending s then on_cpu (cpu_interrupt CPU_INTERRUPT_HARD) s
  else s.

(** [apic_irq_delivered] is threaded as [dlv]. *)
Definition apic_set_irq (vector_num trigger_mode : Z) (s : APICState) (dlv : Z) : APICState * Z :=
  let dlv := s32 (dlv + of_bool (negb (truthy (get_bit (irr s) vector_num)))) in
  let s := set_irr (set_bit (irr s) vector_num) s in
  let s :=
    if truthy trigger_mode then set_tmr (set_bit (tmr s) vector_num) s
    else set_tmr (reset_bit (tmr s) vector_num) s in
  (apic_update_irq s, dlv).

(** ** Local interrupts *)

Definition apic_local_deliver (vector : Z) (s : APICState) (dlv : Z) : APICState * Z :=
  let lvt1 := aget (lvt s) vector in
  if truthy (lvt1 &. APIC_LVT_MASKED) then (s, dlv)
  else
    let dm := (lvt1 >>. 8) &. 7 in
    if dm =? APIC_DM_SMI then (on_cpu (cpu_interrupt CPU_INTERRUPT_SMI) s, dlv)
    else if dm =? APIC_DM_NMI then (on_cpu (cpu_interrupt CPU_INTERRUPT_NMI) s, dlv)
    else if dm =? APIC_DM_EXTINT then (on_cpu (cpu_interrupt CPU_INTERRUPT_HARD) s, dlv)
    else if dm =? APIC_DM_FIXED then
      let trigger_mode :=
        if ((vector =? APIC_LVT_LINT0) || (vector =? APIC_LVT_LINT1)) &&
           truthy (lvt1 &. APIC_LVT_LEVEL_TRIGGER)
        then APIC_TRIGGER_LEVEL else APIC_TRIGGER_EDGE in
      apic_set_irq (lvt1 &. 0xff) trigger_mode s dlv
    else (s, dlv).

Definition apic_deliver_pic_intr (level : Z) (s : APICState) (dlv : Z) : APICState * Z :=
  if truthy level then apic_local_deliver APIC_LVT_LINT0 s dlv
  else
    let lvt1 := aget (lvt s) APIC_LVT_LINT0 in
    let dm := (lvt1 >>. 8) &. 7 in
    if dm =? APIC_DM_FIXED then
      if negb (truthy (lvt1 &. APIC_LVT_LEVEL_TRIGGER)) then (s, dlv)
      else
        let s := set_irr (reset_bit (irr s) (lvt1 &. 0xff)) s in
        (on_cpu (cpu_reset_interrupt CPU_INTERRUPT_HARD) s, dlv)
    else if dm =? APIC_DM_EXTINT then (on_cpu (cpu_reset_interrupt CPU_INTERRUPT_HARD) s, dlv)
    else (s, dlv).

Definition apic_accept_pic_intr (d : option APICState) : Z :=
  match d with
  | None => -1
  | Some s =>
      let lvt0 := aget (lvt s) APIC_LVT_LINT0 in
      if ((apicbase s &. MSR_IA32_APICBASE_ENABLE) =? 0) || ((lvt0 &. APIC_LVT_MASKED) =? 0)
      then 1 else 0
  end.

Definition apic_get_interrupt (d : option APICState) : Z * option APICState :=
  match d with
  | None => (-1, None)
  | Some s =>
      if negb (truthy (spurious_vec s &. APIC_SV_ENABLE)) then (-1, Some s)
      else
        let intno := apic_irq_pending s in
        if intno =? 0 then (-1, Some s)
        else if intno <? 0 then (spurious_vec s &. 0xff, Some s)
        else
          let s := set_irr (reset_bit (irr s) intno) s in
          let s := set_isr (set_bit (isr s) intno) s in
          (intno, Some (apic_update_irq s))
  end.

(** ** Model specific registers, reset and start-up *)

Definition cpu_set_apic_base (val : Z) (d : option APICState) : option APICState :=
  match d with
  | None => None
  | Some s =>
      let s := set_apicbase (u32 ((val &. 0xfffff000) |.
                 (apicbase s &. (MSR_IA32_APICBASE_BSP |. MSR_IA32_APICBASE_ENABLE)))) s in
      if negb (truthy (val &. MSR_IA32_APICBASE_ENABLE)) then
        let s := set_apicbase (u32 (apicbase s &. ~. MSR_IA32_APICBASE_ENABLE)) s in
        let s := on_cpu cpu_clear_apic_feature s in
        Some (set_spurious_vec (u32 (spurious_vec s &. ~. APIC_SV_ENABLE)) s)
      else Some s
  end.

Definition cpu_get_apic_base (d : option APICState) : Z :=
  match d with Some s => apicbase s | None => 0 end.

Definition cpu_set_apic_tpr (val : Z) (d : option APICState) : option APICState :=
  match d with
  | None => None
  | Some s => Some (apic_update_irq (set_tpr (u8 ((val &. 0x0f) <<. 4)) s))
  end.

Definition cpu_get_apic_tpr (d : option APICState) : Z :=
  match d with Some s => tpr s >>. 4 | None => 0 end.

Definition apic_init_reset (d : option APICState) : option APICState :=
  match d with
  | None => None
  | Some s =>
      let s := set_tpr 0 s in
      let s := set_spurious_vec 0xff s in
      let s := set_log_dest 0 s in
      let s := set_dest_mode 0xf s in
      let s := set_isr (replicate 8 0) s in
      let s := set_tmr (replicate 8 0) s in
      let s := set_irr (replicate 8 0) s in
      let s := set_lvt (replicate (Z.to_nat APIC_LVT_NB) (1 <<. 16)) s in
      let s := set_esr 0 s in
      let s := set_icr (replicate 2 0) s in
      let s := set_divide_conf 0 s in
      let s := set_count_shift 0 s in
      let s := set_initial_count 0 s in
      let s := set_initial_count_load_time 0 s in
      let s := set_next_time 0 s in
      Some (set_wait_for_sipi 1 s)
  end.

Definition apic_reset (s : APICState) : APICState :=
  let bsp := cpu_is_bsp (cpu_env s) in
  let s := set_apicbase (0xfee00000 |. (if bsp then MSR_IA32_APICBASE_BSP else 0) |.
                         MSR_IA32_APICBASE_ENABLE) s in
  let s := default s (apic_init_reset (Some s)) in
  if bsp then set_lvt (aset (lvt s) APIC_LVT_LINT0 0x700) s else s.

Definition apic_startup (vector_num : Z) (s : APICState) : APICState :=
  on_cpu (cpu_interrupt CPU_INTERRUPT_SIPI) (set_sipi_vector vector_num s).

Definition apic_sipi (s : APICState) : APICState :=
  let s := on_cpu (cpu_reset_interrupt CPU_INTERRUPT_SIPI) s in
  if negb (truthy (wait_for_sipi s)) then s
  else
    let s := on_cpu (cpu_x86_load_seg_cache_sipi (sipi_vector s)) s in
    set_wait_for_sipi 0 s.

(** ** The timer *)

Definition apic_get_current_count (now : Z) (s : APICState) : Z :=
  let d := (now - initial_count_load_time s) >>. count_shift s in
  if truthy (aget (lvt s) APIC_LVT_TIMER &. APIC_LVT_TIMER_PERIODIC) then
    u32 (initial_count s - u64 d mod u64 (initial_count s + 1))
  else if initial_count s <=? d then 0
  else u32 (initial_count s - d).

(** The two [goto no_timer] and the masked case are [None]. *)
Definition apic_timer_ticks (current_time : Z) (s : APICState) : option Z :=
  if negb (truthy (aget (lvt s) APIC_LVT_TIMER &. APIC_LVT_MASKED)) then
    let d := (current_time - initial_count_load_time s) >>. count_shift s in
    if truthy (aget (lvt s) APIC_LVT_TIMER &. APIC_LVT_TIMER_PERIODIC) then
      if negb (truthy (initial_count s)) then None
      else Some (s64 (u64 (u64 (u64 d / u64 (initial_count s + 1) + 1) * u64 (initial_count s + 1))))
    else if initial_count s <=? d then None
    else Some (s64 (u64 (initial_count s + 1)))
  else None.

Definition apic_timer_update (current_time : Z) (s : APICState) : APICState :=
  match apic_timer_ticks current_time s with
  | Some d =>
      let next_time := s64 (initial_count_load_time s + (d <<. count_shift s)) in
      let s := set_timer (Some next_time) s in
      set_next_time next_time s
  | None => set_timer None s
  end.

(** The timer that expires is no longer armed when its callback runs. *)
Definition apic_timer (s : APICState) (dlv : Z) : APICState * Z :=
  let s := set_timer None s in
  let '(s, dlv) := apic_local_deliver APIC_LVT_TIMER s dlv in
  (apic_timer_update (next_time s) s, dlv).

(** ** The bus *)

Definition apic_reset_irq_delivered (b : Bus) : Bus := mkBus (local_apics b) 0.
Definition apic_get_irq_delivered (b : Bus) : Z := apic_irq_delivered b.

(** Runs [code] on the APIC of index [i], if there is one. *)
Definition on_apic (i : Z) (code : APICState -> Z -> APICState * Z) (b : Bus) : Bus :=
  match apic_at b i with
  | Some s =>
      let '(s, dlv) := code s (apic_irq_delivered b) in
      mkBus (<[Z.to_nat i := s]> (local_apics b)) dlv
  | None => b
  end.

(** Code that leaves [apic_irq_delivered] alone. *)
Definition pure (f : APICState -> APICState) (s : APICState) (dlv : Z) : APICState * Z := (f s, dlv).

Definition foreach_apic (deliver_bitmask : list Z) (code : APICState -> Z -> APICState * Z) (b : Bus) : Bus :=
  foldl (fun b i =>
    let mask := aget deliver_bitmask i in
    if truthy mask then
      foldl (fun b j =>
        if truthy (mask &. (1 <<. j)) then on_apic (i * 32 + j) code b else b) b (seqZ 0 32)
    else b) b (seqZ 0 MAX_APIC_WORDS).

(** The search of the low priority mode, over the words [i], [i+1], ... *)
Fixpoint first_bit (i : Z) (words : list Z) : Z :=
  match words with
  | [] => -1
  | w :: words' => if truthy w then i * 32 + ffs_bit w else first_bit (i + 1) words'
  end.

Definition apic_bus_deliver (deliver_bitmask : list Z)
    (delivery_mode vector_num polarity trigger_mode : Z) (b : Bus) : Bus :=
  if delivery_mode =? APIC_DM_LOWPRI then
    let d := first_bit 0 deliver_bitmask in
    if 0 <=? d then on_apic d (apic_set_irq vector_num trigger_mode) b else b
  else if delivery_mode =? APIC_DM_FIXED then
    foreach_apic deliver_bitmask (apic_set_irq vector_num trigger_mode) b
  else if delivery_mode =? APIC_DM_SMI then
    foreach_apic deliver_bitmask (pure (on_cpu (cpu_interrupt CPU_INTERRUPT_SMI))) b
  else if delivery_mode =? APIC_DM_NMI then
    foreach_apic deliver_bitmask (pure (on_cpu (cpu_interrupt CPU_INTERRUPT_NMI))) b
  else if delivery_mode =? APIC_DM_INIT then
    foreach_apic deliver_bitmask (pure (on_cpu (cpu_interrupt CPU_INTERRUPT_INIT))) b
  else if delivery_mode =? APIC_DM_EXTINT then
    foreach_apic deliver_bitmask (apic_set_irq vector_num trigger_mode) b
  else b.

Fixpoint find_id (i : Z) (l : list APICState) (dest : Z) : Z :=
  match l with
  | [] => -1
  | apic :: l' => if id apic =? dest then i else find_id (i + 1) l' dest
  end.

Definition apic_find_dest (dest : Z) (b : Bus) : Z :=
  match apic_at b dest with
  | Some apic =>
      if id apic =? dest then dest
      else find_id 0 (take (Z.to_nat MAX_APICS) (local_apics b)) dest
  | None => find_id 0 (take (Z.to_nat MAX_APICS) (local_apics b)) dest
  end.

(** The body of the loop over the APICs in logical destination mode. *)
Definition logical_match (dest : Z) (apic_iter : APICState) : bool :=
  if dest_mode apic_iter =? 0xf then truthy (dest &. log_dest apic_iter)
  else if dest_mode apic_iter =? 0x0 then
    ((dest &. 0xf0) =? (log_dest apic_iter &. 0xf0)) &&
    truthy (dest &. log_dest apic_iter &. 0x0f)
  else false.

Fixpoint logical_mask (i : Z) (l : list APICState) (dest : Z) (mask : list Z) : list Z :=
  match l with
  | [] => mask
  | apic :: l' =>
      logical_mask (i + 1) l' dest (if logical_match dest apic then set_bit mask i else mask)
  end.

Definition apic_get_delivery_bitmask (dest dest_mode1 : Z) (b : Bus) : list Z :=
  if dest_mode1 =? 0 then
    if dest =? 0xff then replicate (Z.to_nat MAX_APIC_WORDS) 0xffffffff
    else
      let idx := apic_find_dest dest b in
      let deliver_bitmask := replicate (Z.to_nat MAX_APIC_WORDS) 0 in
      if 0 <=? idx then set_bit deliver_bitmask idx else deliver_bitmask
  else
    logical_mask 0 (take (Z.to_nat MAX_APICS) (local_apics b)) dest
      (replicate (Z.to_nat MAX_APIC_WORDS) 0).

Definition apic_deliver_irq (dest dest_mode1 delivery_mode vector_num polarity trigger_mode : Z)
    (b : Bus) : Bus :=
  let deliver_bitmask := apic_get_delivery_bitmask dest dest_mode1 b in
  apic_bus_deliver deliver_bitmask delivery_mode vector_num polarity trigger_mode b.

(** [apic_deliver] of the APIC [s]. *)
Definition apic_deliver (s : APICState)
    (dest dest_mode1 delivery_mode vector_num polarity trigger_mode : Z) (b : Bus) : Bus :=
  let icr0 := aget (icr s) 0 in
  let dest_shorthand := (icr0 >>. 18) &. 3 in
  let words := Z.to_nat MAX_APIC_WORDS in
  let deliver_bitmask :=
    if dest_shorthand =? 0 then apic_get_delivery_bitmask dest dest_mode1 b
    else if dest_shorthand =? 1 then set_bit (replicate words 0) (idx s)
    else if dest_shorthand =? 2 then replicate words 0xffffffff
    else reset_bit (replicate words 0xffffffff) (idx s) in
  let trig_mode := (icr0 >>. 15) &. 1 in
  let level := (icr0 >>. 14) &. 1 in
  if (delivery_mode =? APIC_DM_INIT) && ((level =? 0) && (trig_mode =? 1)) then
    foreach_apic deliver_bitmask (pure (fun a => set_arb_id (id a) a)) b
  else if delivery_mode =? APIC_DM_SIPI then
    foreach_apic deliver_bitmask (pure (apic_startup vector_num)) b
  else apic_bus_deliver deliver_bitmask delivery_mode vector_num polarity trigger_mode b.

Definition apic_send_msi (addr data : Z) (b : Bus) : Bus :=
  let dest := u8 ((addr &. MSI_ADDR_DEST_ID_MASK) >>. MSI_ADDR_DEST_ID_SHIFT) in
  let vector := u8 ((data &. MSI_DATA_VECTOR_MASK) >>. MSI_DATA_VECTOR_SHIFT) in
  let dest_mode1 := (addr >>. MSI_ADDR_DEST_MODE_SHIFT) &. 0x1 in
  let trigger_mode := (data >>. MSI_DATA_TRIGGER_SHIFT) &. 0x1 in
  let delivery := (data >>. MSI_DATA_DELIVERY_MODE_SHIFT) &. 0x7 in
  apic_deliver_irq dest dest_mode1 delivery vector 0 trigger_mode b.

(** A device whose fields are all zero, as it is allocated. *)
Definition new_apic (id idx : Z) (env : CPUState) : APICState :=
  mkAPIC env 0 id 0 0 0 0 0 (replicate 8 0) (replicate 8 0) (replicate 8 0)
    (replicate (Z.to_nat APIC_LVT_NB) 0) 0 (replicate 2 0) 0 0 0 0 0 idx None 0 0.

Definition apic_init1 (id : Z) (env : CPUState) (b : Bus) : Z * Bus :=
  let last_apic_idx := Z.of_nat (length (local_apics b)) in
  if MAX_APICS <=? last_apic_idx then (-1, b)
  else
    (0, mkBus (local_apics b ++ [new_apic id last_apic_idx env]) (apic_irq_delivered b)).

(** ** The registers

    [cur] is the index of the APIC of [cpu_single_env], [None] when no
    processor is running or it has no APIC. *)

Definition cpu_get_current_apic (cur : option Z) (b : Bus) : option (Z * APICState) :=
  i ← cur; s ← apic_at b i; Some (i, s).

Definition apic_mem_readb (addr : Z) : Z := 0.
Definition apic_mem_readw (addr : Z) : Z := 0.

(** The value read from register [index], [None] at an illegal address. *)
Definition apic_read_reg (now index : Z) (s : APICState) : option Z :=
  if index =? 0x02 then Some (u32 (id s <<. 24))
  else if index =? 0x03 then Some (0x11 |. ((APIC_LVT_NB - 1) <<. 16))
  else if index =? 0x08 then Some (tpr s)
  else if index =? 0x09 then Some (apic_get_arb_pri s)
  else if index =? 0x0a then Some (apic_get_ppr s)
  else if index =? 0x0b then Some 0
  else if index =? 0x0d then Some (u32 (log_dest s <<. 24))
  else if index =? 0x0e then Some (u32 (dest_mode s <<. 28))
  else if index =? 0x0f then Some (spurious_vec s)
  else if (0x10 <=? index) && (index <=? 0x17) then Some (aget (isr s) (index &. 7))
  else if (0x18 <=? index) && (index <=? 0x1f) then Some (aget (tmr s) (index &. 7))
  else if (0x20 <=? index) && (index <=? 0x27) then Some (aget (irr s) (index &. 7))
  else if index =? 0x28 then Some (esr s)
  else if (index =? 0x30) || (index =? 0x31) then Some (aget (icr s) (index &. 1))
  else if (0x32 <=? index) && (index <=? 0x37) then Some (aget (lvt s) (index - 0x32))
  else if index =? 0x38 then Some (initial_count s)
  else if index =? 0x39 then Some (apic_get_current_count now s)
  else if index =? 0x3e then Some (divide_conf s)
  else None.

Definition apic_mem_readl (cur : option Z) (now addr : Z) (b : Bus) : Z * Bus :=
  match cpu_get_current_apic cur b with
  | None => (0, b)
  | Some (i, s) =>
      let index := (addr >>. 4) &. 0xff in
      match apic_read_reg now index s with
      | Some val => (val, b)
      | None => (0, on_apic i (pure (fun s => set_esr (esr s |. ESR_ILLEGAL_ADDRESS) s)) b)
      end
  end.

Section Registers.

Context {X : Type} (ioapic_eoi_broadcast : Z -> Bus * X -> Bus * X).

(** The current APIC has the index [i]. *)
Definition apic_eoi (i : Z) (w : Bus * X) : Bus * X :=
  match apic_at w.1 i with
  | None => w
  | Some s =>
      let isrv := get_highest_priority_int (isr s) in
      if isrv <? 0 then w
      else
        let s := set_isr (reset_bit (isr s) isrv) s in
        let w := (on_apic i (pure (fun _ => s)) w.1, w.2) in
        let w :=
          if negb (truthy (spurious_vec s &. APIC_SV_DIRECTED_IO)) && truthy (get_bit (tmr s) isrv)
          then ioapic_eoi_broadcast isrv w else w in
        (on_apic i (pure apic_update_irq) w.1, w.2)
  end.

Definition on1 (i : Z) (f : APICState -> APICState) (w : Bus * X) : Bus * X :=
  (on_apic i (pure f) w.1, w.2).

(** The write of [val] to the interrupt command register, whose fields are
    read back from [icr]. *)
Definition apic_write_icr0 (i val : Z) (w : Bus * X) : Bus * X :=
  let w := on1 i (fun s => set_icr (aset (icr s) 0 val) s) w in
  match apic_at w.1 i with
  | Some s =>
      let icr0 := aget (icr s) 0 in
      (apic_deliver s ((aget (icr s) 1 >>. 24) &. 0xff) ((icr0 >>. 11) &. 1)
         ((icr0 >>. 8) &. 7) (icr0 &. 0xff) ((icr0 >>. 14) &. 1) ((icr0 >>. 15) &. 1) w.1, w.2)
  | None => w
  end.

Definition apic_write_reg (i now index val : Z) (w : Bus * X) : Bus * X :=
  if index =? 0x02 then on1 i (set_id (u8 (val >>. 24))) w
  else if index =? 0x03 then w
  else if index =? 0x08 then on1 i (fun s => apic_update_irq (set_tpr (u8 val) s)) w
  else if (index =? 0x09) || (index =? 0x0a) then w
  else if index =? 0x0b then apic_eoi i w
  else if index =? 0x0d then on1 i (set_log_dest (u8 (val >>. 24))) w
  else if index =? 0x0e then on1 i (set_dest_mode (u8 (val >>. 28))) w
  else if index =? 0x0f then on1 i (fun s => apic_update_irq (set_spurious_vec (val &. 0x1ff) s)) w
  else if ((0x10 <=? index) && (index <=? 0x27)) || (index =? 0x28) then w
  else if index =? 0x30 then apic_write_icr0 i val w
  else if index =? 0x31 then on1 i (fun s => set_icr (aset (icr s) 1 val) s) w
  else if (0x32 <=? index) && (index <=? 0x37) then
    let n := index - 0x32 in
    on1 i (fun s =>
      let s := set_lvt (aset (lvt s) n val) s in
      if n =? APIC_LVT_TIMER then apic_timer_update now s else s) w
  else if index =? 0x38 then
    on1 i (fun s =>
      let s := set_initial_count val s in
      let s := set_initial_count_load_time now s in
      apic_timer_update (initial_count_load_time s) s) w
  else if index =? 0x39 then w
  else if index =? 0x3e then
    on1 i (fun s =>
      let s := set_divide_conf (val &. 0xb) s in
      let v := (divide_conf s &. 3) |. ((divide_conf s >>. 1) &. 4) in
      set_count_shift ((v + 1) &. 7) s) w
  else on1 i (fun s => set_esr (esr s |. ESR_ILLEGAL_ADDRESS) s) w.

Definition apic_mem_writel (cur : option Z) (now addr val : Z) (w : Bus * X) : Bus * X :=
  let index := (addr >>. 4) &. 0xff in
  if (0xfff <? addr) || negb (truthy index) then (apic_send_msi addr val w.1, w.2)
  else
    match cpu_get_current_apic cur w.1 with
    | None => w
    | Some (i, _) => apic_write_reg i now index val w
    end.

End Registers.

(** ** Bit tables as sets of vectors *)

(** [v] is a member of the 256-bit table [tab]. *)
Definition vec (tab : list Z) (v : Z) : bool := Z.testbit (aget tab (v / 32)) (v mod 32).

Definition tab_ok (tab : list Z) : Prop :=
  length tab = 8%nat /\ (forall i, is_u32 (aget tab i)).

(** The membership of [v] in the table after the bit operations. *)
Lemma bit_index v : v >>. 5 = v / 32 /\ v &. 0x1f = v mod 32.
Proof.
  split; [by rewrite Z.shiftr_div_pow2|]. change 0x1f with (Z.ones 5). by rewrite Z.land_ones.
Qed.

Lemma word_range v : is_u8 v -> 0 <= v / 32 < 8 /\ 0 <= v mod 32 < 32.
Proof. unfold is_uint. intros. split; dlia. Qed.

(** The table with the word of [v] replaced by [x]. *)
Lemma tab_ok_aset tab v x : tab_ok tab -> is_u8 v -> is_u32 x -> tab_ok (aset tab (v / 32) x).
Proof.
  intros [Hl Hw] Hv Hx. split; [by rewrite length_aset|]. intros i.
  destruct (word_range v Hv) as [Hi _].
  destruct (Z.le_gt_cases 0 i).
  - destruct (Z.eq_dec (v / 32) i) as [<-|].
    + by rewrite aget_aset_eq by lia.
    + by rewrite aget_aset_ne by lia.
  - replace (aget (aset tab (v / 32) x) i) with (aget (aset tab (v / 32) x) 0)
      by (unfold aget; by replace (Z.to_nat i) with (Z.to_nat 0) by lia).
    destruct (Z.eq_dec (v / 32) 0) as [E|].
    + rewrite E, aget_aset_eq by lia. done.
    + rewrite aget_aset_ne by lia. done.
Qed.

Lemma vec_aset tab v x w : tab_ok tab -> is_u8 v -> is_u8 w ->
  (forall j, 0 <= j < 32 -> j <> v mod 32 -> Z.testbit x j = Z.testbit (aget tab (v / 32)) j) ->
  vec (aset tab (v / 32) x) w = if v =? w then Z.testbit x (v mod 32) else vec tab w.
Proof.
  intros [Hl _] Hv Hw Hx. unfold vec.
  destruct (word_range v Hv) as [Hi Hj], (word_range w Hw) as [Hi' Hj'].
  destruct (Z.eqb_spec v w) as [->|Hne].
  - by rewrite aget_aset_eq by lia.
  - destruct (Z.eq_dec (v / 32) (w / 32)) as [E|].
    + rewrite E, aget_aset_eq by lia. rewrite <- E. apply Hx; [lia|]. clear - E Hne. dlia.
    + by rewrite aget_aset_ne by lia.
Qed.

Lemma set_bit_ok tab v : tab_ok tab -> is_u8 v -> tab_ok (set_bit tab v).
Proof.
  intros. unfold set_bit. cbv zeta. destruct (bit_index v) as [-> ->].
  apply tab_ok_aset; auto with cint.
Qed.

Lemma reset_bit_ok tab v : tab_ok tab -> is_u8 v -> tab_ok (reset_bit tab v).
Proof.
  intros. unfold reset_bit. cbv zeta. destruct (bit_index v) as [-> ->].
  apply tab_ok_aset; auto with cint.
Qed.

Lemma vec_set_bit tab v w : tab_ok tab -> is_u8 v -> is_u8 w ->
  vec (set_bit tab v) w = (v =? w) || vec tab w.
Proof.
  intros Ht Hv Hw. unfold set_bit. cbv zeta. destruct (bit_index v) as [-> ->].
  pose proof (word_range v Hv).
  rewrite vec_aset by (try done; intros j Hj Hne; rewrite wrap_testbit, testbit_set by lia; zcases; done).
  rewrite wrap_testbit, testbit_set by lia. destruct (v =? w); [|done]. by rewrite Z.eqb_refl.
Qed.

Lemma vec_reset_bit tab v w : tab_ok tab -> is_u8 v -> is_u8 w ->
  vec (reset_bit tab v) w = negb (v =? w) && vec tab w.
Proof.
  intros Ht Hv Hw. unfold reset_bit. cbv zeta. destruct (bit_index v) as [-> ->].
  pose proof (word_range v Hv).
  rewrite vec_aset by (try done; intros j Hj Hne; rewrite wrap_testbit, testbit_clear by lia; zcases; done).
  rewrite wrap_testbit, testbit_clear by lia. destruct (v =? w); [|done]. by rewrite Z.eqb_refl.
Qed.

Lemma get_bit_vec tab v : is_u8 v -> get_bit tab v = of_bool (vec tab v).
Proof.
  intros Hv. unfold get_bit, vec. cbv zeta. destruct (bit_index v) as [-> ->].
  pose proof (word_range v Hv). by rewrite truthy_land_bit by lia.
Qed.

Lemma tab_ok_empty : tab_ok (replicate 8 0).
Proof.
  split; [done|]. intros i. unfold aget. rewrite nth_lookup.
  destruct (replicate 8 0 !! Z.to_nat i) eqn:E; cbn; [|by apply is_uint_0].
  apply lookup_replicate in E as [-> _]. by apply is_uint_0.
Qed.

Lemma vec_empty v : vec (replicate 8 0) v = false.
Proof.
  unfold vec, aget. rewrite nth_lookup.
  destruct (replicate 8 0 !! Z.to_nat (v / 32)) eqn:E; cbn; [|apply Z.bits_0].
  apply lookup_replicate in E as [-> _]. apply Z.bits_0.
Qed.

(** ** The highest vector of a table *)

Lemma fls_bit_log2 w : 0 < w -> fls_bit w = Z.log2 w.
Proof. intros. unfold fls_bit, clz32, truthy. zcases. lia. Qed.

Lemma highest_below_spec n tab : (n <= 8)%nat -> tab_ok tab ->
  let h := highest_below n tab in
  (h = -1 \/ is_u8 h /\ vec tab h = true) /\
  (forall w, 0 <= w < 32 * Z.of_nat n -> vec tab w = true -> w <= h).
Proof.
  intros Hn Ht. induction n as [|i IH]; cbn [highest_below]; cbv zeta.
  - split; [by left|]. intros; lia.
  - set (w := aget tab (Z.of_nat i)). assert (Hw : is_u32 w) by apply Ht.
    destruct (Z.eqb_spec w 0) as [E|E]; cbn [negb].
    + destruct IH as [IH1 IH2]; [lia|]. split; [done|]. intros v Hv Hin.
      destruct (Z.lt_ge_cases v (32 * Z.of_nat i)); [apply IH2; [lia|done]|].
      unfold vec in Hin. replace (v / 32) with (Z.of_nat i) in Hin by dlia.
      fold w in Hin. by rewrite E, Z.bits_0 in Hin.
    + unfold is_uint in Hw. rewrite fls_bit_log2 by lia.
      assert (Hl : 0 <= Z.log2 w < 32).
      { split; [apply Z.log2_nonneg|]. apply Z.log2_lt_pow2; lia. }
      split.
      * right. split; [unfold is_uint; lia|]. unfold vec.
        replace ((Z.of_nat i * 32 + Z.log2 w) / 32) with (Z.of_nat i) by dlia.
        replace ((Z.of_nat i * 32 + Z.log2 w) mod 32) with (Z.log2 w) by dlia.
        fold w. apply Z.bit_log2. lia.
      * intros v Hv Hin. destruct (Z.lt_ge_cases v (32 * Z.of_nat i)); [lia|].
        unfold vec in Hin. replace (v / 32) with (Z.of_nat i) in Hin by dlia. fold w in Hin.
        destruct (Z.le_gt_cases (v mod 32) (Z.log2 w)); [dlia|].
        rewrite Z.bits_above_log2 in Hin by lia. done.
Qed.

(** The greatest member of the table, [-1] when it is empty. *)
Definition highest_of (tab : list Z) (h : Z) : Prop :=
  (h = -1 /\ forall w, is_u8 w -> vec tab w = false) \/
  (is_u8 h /\ vec tab h = true /\ forall w, is_u8 w -> vec tab w = true -> w <= h).

Lemma get_highest_spec tab : tab_ok tab -> highest_of tab (get_highest_priority_int tab).
Proof.
  intros Ht. destruct (highest_below_spec 8 tab (le_n 8) Ht) as [[E|[H1 H2]] H3];
    fold (get_highest_priority_int tab) in *.
  - left. split; [done|]. intros w Hw. destruct (vec tab w) eqn:Ev; [|done].
    specialize (H3 w). unfold is_uint in Hw. rewrite E in H3. specialize (H3 ltac:(lia) Ev). lia.
  - right. refine (conj H1 (conj H2 _)). intros w Hw Hv. apply H3; [|done].
    unfold is_uint in Hw. lia.
Qed.

Lemma highest_of_unique tab h1 h2 : highest_of tab h1 -> highest_of tab h2 -> h1 = h2.
Proof.
  intros [[-> A1]|(A1 & A2 & A3)] [[-> B1]|(B1 & B2 & B3)]; [done| | |].
  - by rewrite A1 in B2.
  - by rewrite B1 in A2.
  - specialize (A3 h2 B1 B2). specialize (B3 h1 A1 A2). lia.
Qed.

(** ** Priorities of a well-formed APIC *)

Record wf (s : APICState) : Prop := {
  wf_isr : tab_ok (isr s);
  wf_irr : tab_ok (irr s);
  wf_tmr : tab_ok (tmr s);
  wf_tpr : is_u8 (tpr s)
}.

(** The priority class of a vector. *)
Definition cls (v : Z) : Z := v / 16.

Lemma class_mask v : is_u8 v -> v &. 0xf0 = 16 * cls v.
Proof. intros Hv. unfold cls. by_bytes v. done. Qed.

(** The class at or below which requests are held back: that of the task
    priority or of the highest vector in service. *)
Definition blocked_class (s : APICState) : Z :=
  Z.max (cls (tpr s)) (cls (Z.max 0 (get_highest_priority_int (isr s)))).

Lemma ppr_spec s : wf s ->
  is_u8 (apic_get_ppr s) /\ cls (apic_get_ppr s) = blocked_class s.
Proof.
  intros [Hi _ _ Ht]. unfold apic_get_ppr, blocked_class, cls. cbv zeta.
  set (h := get_highest_priority_int (isr s)).
  assert (Hh : h = -1 \/ is_u8 h) by (destruct (get_highest_spec _ Hi) as [[? _]|[? _]]; auto).
  assert (Hm : (if h <? 0 then 0 else h) = Z.max 0 h) by (zcases; lia). rewrite Hm.
  rewrite !Z.shiftr_div_pow2, Z.shiftl_mul_pow2 by lia. change (2 ^ 4) with 16.
  set (m := Z.max 0 h). assert (0 <= m < 256) by (unfold is_uint in Hh; lia).
  unfold is_uint in *. destruct (Z.leb_spec (m / 16) (tpr s / 16)).
  - split; [done|]. rewrite Z.max_l by lia. done.
  - rewrite Z.max_r by lia. split; [dlia|]. by rewrite Z.div_mul.
Qed.

(** What is pending: nothing, a vector that may be taken, or one held back. *)
Lemma irq_pending_spec s : wf s ->
  (forall v, is_u8 v -> vec (irr s) v = true -> 16 <= v) ->
  let h := get_highest_priority_int (irr s) in
  apic_irq_pending s =
    if h <? 0 then 0 else if blocked_class s <? cls h then h else -1.
Proof.
  intros Hwf Hv. cbv zeta. unfold apic_irq_pending. cbv zeta.
  destruct (ppr_spec s Hwf) as [Hp Hc].
  destruct (get_highest_spec _ (wf_irr _ Hwf)) as [[-> _]|(Hh & Hin & _)]; [done|].
  set (h := get_highest_priority_int (irr s)) in *. specialize (Hv h Hh Hin).
  rewrite !class_mask, Hc by done.
  assert (Hb : 0 <= blocked_class s) by (unfold blocked_class, cls; dlia).
  assert (1 <= cls h) by (unfold cls; dlia).
  unfold truthy. destruct (Z.ltb_spec h 0); [done|].
  destruct (Z.eqb_spec (apic_get_ppr s) 0) as [E|E]; cbn [negb andb].
  - assert (cls (apic_get_ppr s) = 0) by by rewrite E. zcases; done.
  - zcases; done.
Qed.

(** ** The priority stack

    The abstract view of an APIC by its processor: the vectors requested, the
    vectors in service with the latest first, and the task priority. *)

Record PStack := mkP { req : list Z; serv : list Z; task : Z }.

Definition greatest (l : list Z) : Z := foldr Z.max (-1) l.

Definition held_class (p : PStack) : Z := Z.max (cls (task p)) (cls (Z.max 0 (greatest (take 1 (serv p))))).

(** Takes the greatest request if its class exceeds what is in service and
    the task priority; otherwise the answer is [-1] with no request and the
    spurious vector with one. *)
Definition p_accept (spurious : Z) (p : PStack) : Z * PStack :=
  let v := greatest (req p) in
  if v <? 0 then (-1, p)
  else if held_class p <? cls v then
    (v, mkP (filter (fun w => w <> v) (req p)) (v :: serv p) (task p))
  else (spurious, p).

Inductive event :=
| Request (v trigger_mode : Z)
| Accept (answer : Z)
| Eoi
| SetTpr (t : Z).

(** [redelivered]: what the end of an interrupt makes the I/O APIC send. *)
Inductive p_step (spurious : Z) : PStack -> event -> PStack -> Prop :=
| p_request p v t : p_step spurious p (Request v t) (mkP (v :: req p) (serv p) (task p))
| p_accepted p a p' : p_accept spurious p = (a, p') -> p_step spurious p (Accept a) p'
| p_eoi p redelivered :
    p_step spurious p Eoi (mkP (redelivered ++ req p) (tail (serv p)) (task p))
| p_tpr p t : p_step spurious p (SetTpr t) (mkP (req p) (serv p) t).

Inductive p_steps (spurious : Z) : PStack -> list event -> PStack -> Prop :=
| p_nil p : p_steps spurious p [] p
| p_cons p e p1 es p2 :
    p_step spurious p e p1 -> p_steps spurious p1 es p2 -> p_steps spurious p (e :: es) p2.

(** [p] is what the processor sees of [s]. *)
Record sees (s : APICState) (p : PStack) : Prop := {
  sees_wf : wf s;
  sees_on : truthy (spurious_vec s &. APIC_SV_ENABLE) = true;
  sees_req : forall v, is_u8 v -> vec (irr s) v = true <-> v ∈ req p;
  sees_serv : forall v, is_u8 v -> vec (isr s) v = true <-> v ∈ serv p;
  sees_task : tpr s = task p;
  sees_legal : Forall (fun v => 16 <= v < 256) (req p ++ serv p);
  sees_nested : StronglySorted (fun a b => cls b < cls a) (serv p)
}.

Lemma greatest_spec l : Forall (fun v => 0 <= v) l ->
  (greatest l = -1 /\ l = []) \/ (greatest l ∈ l /\ 0 <= greatest l /\ forall w, w ∈ l -> w <= greatest l).
Proof.
  induction 1 as [|v l Hv _ IH]; cbn [greatest foldr]; [by left|]. right.
  fold (greatest l). destruct IH as [[-> ->]|(H1 & H2 & H3)].
  - rewrite Z.max_l by lia. split; [left|]. split; [done|]. intros w [->|?%elem_of_nil]%elem_of_cons; done.
  - split; [|split; [lia|]].
    + destruct (Z.max_spec v (greatest l)) as [[_ ->]|[_ ->]]; [by right|left].
    + intros w [->|Hw]%elem_of_cons; [lia|]. specialize (H3 w Hw). lia.
Qed.

Lemma greatest_highest tab l : tab_ok tab -> Forall (fun v => 16 <= v < 256) l ->
  (forall v, is_u8 v -> vec tab v = true <-> v ∈ l) ->
  get_highest_priority_int tab = greatest l.
Proof.
  intros Ht Hl Hin. apply (highest_of_unique tab); [by apply get_highest_spec|].
  destruct (greatest_spec l) as [[-> ->]|(H1 & H2 & H3)].
  - eapply Forall_impl; [exact Hl|]. cbn. lia.
  - left. split; [done|]. intros w Hw. destruct (vec tab w) eqn:E; [|done].
    apply Hin, elem_of_nil in E; done.
  - rewrite Forall_forall in Hl. specialize (Hl _ H1) as Hr.
    right. assert (Hu : is_u8 (greatest l)) by (unfold is_uint; lia).
    refine (conj Hu (conj _ _)); [by apply Hin|]. intros w Hw Hv. apply H3. by apply Hin.
Qed.

(** In a nested stack the latest vector is the greatest. *)
Lemma nested_head l : StronglySorted (fun a b => cls b < cls a) l -> Forall (fun v => 16 <= v < 256) l ->
  greatest l = greatest (take 1 l).
Proof.
  intros Hs Hl. destruct Hs as [|v l Hs Hall]; [done|].
  change (Z.max v (greatest l) = Z.max v (-1)). apply Forall_cons in Hl as [Hv Hl].
  destruct (greatest_spec l) as [[-> _]|(H1 & H0 & _)]; [|done|].
  - eapply Forall_impl; [exact Hl|]. cbn. lia.
  - rewrite Forall_forall in Hall. specialize (Hall _ H1). cbv beta delta [cls] in Hall.
    assert (greatest l <= v) by dlia. lia.
Qed.

Lemma sees_blocked s p : sees s p -> blocked_class s = held_class p.
Proof.
  intros H. unfold blocked_class, held_class. destruct (proj1 (Forall_app _ _ _) (sees_legal _ _ H)) as [_ Hl].
  rewrite (sees_task _ _ H), (greatest_highest _ (serv p)); [|apply H|done|apply H].
  by rewrite nested_head by (apply H || done).
Qed.

Lemma sees_pending s p : sees s p ->
  apic_irq_pending s =
    if greatest (req p) <? 0 then 0
    else if held_class p <? cls (greatest (req p)) then greatest (req p) else -1.
Proof.
  intros H. destruct (proj1 (Forall_app _ _ _) (sees_legal _ _ H)) as [Hr _].
  rewrite irq_pending_spec, (greatest_highest _ (req p)), (sees_blocked s p);
    try apply H; try done.
  intros v Hv Hin. apply (sees_req _ _ H) in Hin; [|done].
  rewrite Forall_forall in Hr. apply (Hr v Hin).
Qed.

(** ** The APIC implements the priority stack *)

Lemma at_on_apic i j f b s : 0 <= i -> 0 <= j -> apic_at b i = Some s ->
  apic_at (on_apic i f b) j = if i =? j then Some (f s (apic_irq_delivered b)).1 else apic_at b j.
Proof.
  intros Hi Hj E. unfold on_apic. rewrite E. unfold apic_at in *.
  destruct (f s (apic_irq_delivered b)) as [s' dlv]. cbn [local_apics fst].
  destruct (Z.eqb_spec i j) as [->|].
  - apply list_lookup_insert_eq. by apply lookup_lt_Some in E.
  - apply list_lookup_insert_ne. lia.
Qed.

Lemma at_on_apic_eq i f b s : 0 <= i -> apic_at b i = Some s ->
  apic_at (on_apic i f b) i = Some (f s (apic_irq_delivered b)).1.
Proof. intros ? E. by rewrite (at_on_apic i i f b s), Z.eqb_refl. Qed.

Lemma on_apic_none i f b : apic_at b i = None -> on_apic i f b = b.
Proof. intros E. unfold on_apic. by rewrite E. Qed.

(** [apic_update_irq] writes to the processor only. *)
Lemma update_irq_cpu s : exists c, apic_update_irq s = set_cpu_env c s.
Proof.
  unfold apic_update_irq, on_cpu.
  destruct (truthy _); cbn [negb]; [destruct (0 <? _); [by eexists|]|];
    exists (cpu_env s); by destruct s.
Qed.

(** What the receipt of an interrupt may change. *)
Record delivered_to (s s' : APICState) : Prop := {
  dt_isr : isr s' = isr s;
  dt_tpr : tpr s' = tpr s;
  dt_on : spurious_vec s' = spurious_vec s;
  dt_irr : tab_ok (irr s');
  dt_tmr : tab_ok (tmr s');
  dt_req : forall v, is_u8 v -> vec (irr s) v = true -> vec (irr s') v = true
}.

(** What the APIC relies on when it announces the end of a level-triggered
    interrupt: the I/O APIC does nothing to it but deliver interrupts. *)
Class EoiHost {X : Type} (bc : Z -> Bus * X -> Bus * X) (inv : X -> Prop) := {
  eoi_delivers v w i s : inv w.2 -> is_u8 v -> 0 <= i -> apic_at w.1 i = Some s -> wf s ->
    exists s', apic_at (bc v w).1 i = Some s' /\ delivered_to s s'
}.

Lemma set_irq_delivered v t s d : is_u8 v -> wf s ->
  let s' := (apic_set_irq v t s d).1 in
  delivered_to s s' /\ (forall w, is_u8 w -> vec (irr s') w = (v =? w) || vec (irr s) w).
Proof.
  intros Hv Hwf. unfold apic_set_irq. cbv zeta. cbn [fst].
  match goal with |- context [apic_update_irq ?x] => destruct (update_irq_cpu x) as [c ->] end.
  assert (Hi := wf_irr _ Hwf). assert (Ht := wf_tmr _ Hwf).
  assert (E : forall w, is_u8 w -> vec (set_bit (irr s) v) w = (v =? w) || vec (irr s) w)
    by (intros; by apply vec_set_bit).
  destruct (truthy t); (split; [constructor; cbn|done]; try done;
    [by apply set_bit_ok|by (apply set_bit_ok || apply reset_bit_ok)|
     intros w Hw Hin; rewrite E, Hin by done; apply orb_true_r]).
Qed.

Lemma delivered_wf s s' : wf s -> delivered_to s s' -> wf s'.
Proof. intros [? ? ? ?] [E1 E2 E3 ? ? _]. constructor; rewrite ?E1, ?E2; done. Qed.

(** The legal vectors that [s] requests. *)
Definition requests (s : APICState) : list Z :=
  filter (fun v => vec (irr s) v = true) (seqZ 16 240).

Definition legal (s : APICState) : Prop := forall v, 0 <= v < 16 -> vec (irr s) v = false.

Lemma delivered_sees s s' p : sees s p -> delivered_to s s' -> legal s' ->
  sees s' (mkP (requests s' ++ req p) (serv p) (task p)).
Proof.
  intros H D L. assert (Hf : forall v, v ∈ requests s' <-> vec (irr s') v = true /\ 16 <= v < 256).
  { intros v. unfold requests. rewrite list_elem_of_filter, elem_of_seqZ. naive_solver lia. }
  constructor; cbn [req serv task]; rewrite ?(dt_isr _ _ D), ?(dt_tpr _ _ D), ?(dt_on _ _ D);
    try apply H.
  - exact (delivered_wf _ _ (sees_wf _ _ H) D).
  - intros v Hv. rewrite elem_of_app, Hf. split.
    + intros E. left. split; [done|]. destruct (Z.lt_ge_cases v 16); [|unfold is_uint in Hv; lia].
      rewrite L in E by (unfold is_uint in Hv; lia). done.
    + intros [[? _]|Hin]; [done|]. apply (dt_req _ _ D); [done|]. by apply (sees_req _ _ H).
  - rewrite <- app_assoc. apply Forall_app. split; [|apply H].
    apply Forall_forall. intros v Hv. apply Hf in Hv as [_ Hv]. exact Hv.
Qed.

(** [apic_update_irq] leaves what the processor sees. *)
Lemma sees_set_cpu c s p : sees s p <-> sees (set_cpu_env c s) p.
Proof. split; intros H; constructor; try apply H; destruct (sees_wf _ _ H); by constructor. Qed.

Lemma sees_update s p : sees s p -> sees (apic_update_irq s) p.
Proof. intros H. destruct (update_irq_cpu s) as [c ->]. by apply sees_set_cpu. Qed.

(** Acknowledging is taking from the stack. *)
Lemma accept_sees s p a s' : sees s p -> apic_get_interrupt (Some s) = (a, Some s') ->
  exists p', p_accept (spurious_vec s &. 0xff) p = (a, p') /\ sees s' p' /\
             spurious_vec s' = spurious_vec s.
Proof.
  intros H E. cbn in E. rewrite (sees_on _ _ H) in E. cbn [negb] in E.
  rewrite (sees_pending s p H) in E. unfold p_accept.
  destruct (proj1 (Forall_app _ _ _) (sees_legal _ _ H)) as [Hr Hs].
  destruct (greatest_spec (req p)) as [[G G']|(G1 & G2 & G3)];
    [eapply Forall_impl; [exact Hr|]; cbn; lia| |].
  { rewrite G in *. cbn in E. injection E as <- <-. eauto. }
  set (v := greatest (req p)) in *. assert (Hv : 16 <= v < 256).
  { rewrite Forall_forall in Hr. by apply Hr. }
  destruct (Z.ltb_spec v 0); [lia|].
  destruct (Z.ltb_spec (held_class p) (cls v)) as [Hc|Hc]; [|injection E as <- <-; eauto].
  destruct (Z.eqb_spec v 0); [lia|]. destruct (Z.ltb_spec v 0); [lia|].
  injection E as <- <-. eexists. split; [done|].
  assert (Hu : is_u8 v) by (unfold is_uint; lia).
  destruct (sees_wf _ _ H) as [W1 W2 W3 W4].
  set (s1 := set_isr _ _). destruct (update_irq_cpu s1) as [c ->].
  split; [|by destruct s]. apply sees_set_cpu.
  constructor; cbn [req serv task s1 set_isr set_irr isr irr spurious_vec tpr]; try apply H.
  - by constructor; cbn; [apply set_bit_ok|apply reset_bit_ok| |].
  - intros w Hw. rewrite vec_reset_bit by done. rewrite list_elem_of_filter, <- (sees_req _ _ H) by done.
    destruct (Z.eqb_spec v w); cbn [negb andb]; intuition congruence.
  - intros w Hw. rewrite vec_set_bit by done. rewrite elem_of_cons, <- (sees_serv _ _ H) by done.
    destruct (Z.eqb_spec v w); cbn [orb]; intuition congruence.
  - apply Forall_app. split; [|by constructor]. apply Forall_forall. intros w [_ Hw]%list_elem_of_filter.
    rewrite Forall_forall in Hr. by apply Hr.
  - constructor; [apply H|]. apply Forall_forall. intros w Hw.
    assert (Hg := nested_head _ (sees_nested _ _ H) Hs).
    destruct (greatest_spec (serv p)) as [[_ G']|(K1 & K2 & K3)];
      [eapply Forall_impl; [exact Hs|]; cbn; lia|rewrite G' in Hw; by apply elem_of_nil in Hw|].
    specialize (K3 w Hw). unfold held_class in Hc. rewrite <- Hg in Hc. unfold cls in *. dlia.
Qed.

(** The end of interrupt removes the latest vector in service. *)
Lemma eoi_sees s p : sees s p ->
  let h := get_highest_priority_int (isr s) in
  (h < 0 /\ serv p = []) \/
  (is_u8 h /\ sees (set_isr (reset_bit (isr s) h) s) (mkP (req p) (tail (serv p)) (task p))).
Proof.
  intros H. cbv zeta. destruct (proj1 (Forall_app _ _ _) (sees_legal _ _ H)) as [Hr Hs].
  rewrite (greatest_highest _ (serv p)) by (done || apply H).
  rewrite nested_head by (done || apply H).
  pose proof (sees_nested _ _ H) as N. pose proof (sees_serv _ _ H) as S.
  destruct (serv p) as [|v l] eqn:E; [left; done|right].
  change (greatest (take 1 (v :: l))) with (Z.max v (-1)).
  apply Forall_cons in Hs as [Hv Hl]. apply StronglySorted_inv in N as [N1 N2].
  rewrite Z.max_l by lia. assert (Hu : is_u8 v) by (unfold is_uint; lia). split; [done|].
  destruct (sees_wf _ _ H) as [W1 W2 W3 W4].
  constructor; cbn [req serv task set_isr isr irr spurious_vec tpr tail]; try apply H; try done.
  - constructor; cbn; try done. by apply reset_bit_ok.
  - intros w Hw. rewrite vec_reset_bit by done. specialize (S w Hw). rewrite elem_of_cons in S.
    destruct (Z.eqb_spec v w) as [->|Hne]; cbn [negb andb]; [|intuition congruence].
    split; [done|]. intros Hin. rewrite Forall_forall in N2. specialize (N2 w Hin). cbv beta in N2. lia.
  - by apply Forall_app.
Qed.

Section Stack.

Context {X : Type} (bc : Z -> Bus * X -> Bus * X) (inv : X -> Prop) `{!EoiHost bc inv}.
Context (i : Z) (Hi : 0 <= i).

(** The operations that the processor of APIC [i] and the bus perform on
    it; the end of interrupt and the task priority are register writes. *)
Inductive c_step : Bus * X -> event -> Bus * X -> Prop :=
| c_request w v t : is_u8 v ->
    c_step w (Request v t) (on_apic i (apic_set_irq v t) w.1, w.2)
| c_accept w s a s' : apic_at w.1 i = Some s -> apic_get_interrupt (Some s) = (a, Some s') ->
    c_step w (Accept a) (on_apic i (pure (fun _ => s')) w.1, w.2)
| c_eoi w now val : c_step w Eoi (apic_mem_writel bc (Some i) now 0xb0 val w)
| c_tpr w now t : is_u8 t -> c_step w (SetTpr t) (apic_mem_writel bc (Some i) now 0x80 t w).

(** Runs in which every request has a legal vector (16 or more) and the
    host's invariant holds. *)
Inductive c_steps : Bus * X -> list event -> Bus * X -> Prop :=
| c_nil w : c_steps w [] w
| c_cons w e w1 es w2 s1 :
    inv w.2 -> c_step w e w1 -> apic_at w1.1 i = Some s1 -> legal s1 -> c_steps w1 es w2 ->
    c_steps w (e :: es) w2.

(** [w] holds an APIC [i] that is seen as [p]. *)
Definition shows (spur : Z) (w : Bus * X) (p : PStack) : Prop :=
  exists s, apic_at w.1 i = Some s /\ sees s p /\ spurious_vec s = spur.


Lemma at_pure j f w s : apic_at w.1 i = Some s -> j = i ->
  apic_at (@on1 X i f w).1 j = Some (f s).
Proof. intros E ->. unfold on1. cbn [fst]. by rewrite (at_on_apic_eq i _ _ s). Qed.

Lemma eoi_shows spur w p : inv w.2 -> shows spur w p ->
  (forall s1, apic_at (apic_eoi bc i w).1 i = Some s1 -> legal s1) ->
  exists rs, shows spur (apic_eoi bc i w) (mkP (rs ++ req p) (tail (serv p)) (task p)).
Proof.
  intros I (s & E & H & Hs) L. unfold apic_eoi in *. rewrite E in *.
  destruct (eoi_sees s p H) as [[Hh Hp]|[Hu H1]].
  { exists []. destruct (Z.ltb_spec (get_highest_priority_int (isr s)) 0); [|lia].
    exists s. rewrite Hp. destruct p; cbn in *. subst serv0. done. }
  set (h := get_highest_priority_int (isr s)) in *.
  assert (Hn : (h <? 0) = false) by (unfold is_uint in Hu; zcases). rewrite Hn in *.
  cbv zeta in *. set (s1 := set_isr (reset_bit (isr s) h) s) in *.
  set (w1 := (on_apic i (pure (fun _ => s1)) w.1, w.2)) in *.
  assert (E1 : apic_at w1.1 i = Some s1) by (cbn; by rewrite (at_on_apic_eq i _ _ s)).
  assert (S1 : spurious_vec s1 = spur) by (by destruct s).
  destruct (negb _ && _).
  - destruct (eoi_delivers h w1 i s1 I Hu Hi E1 (sees_wf _ _ H1)) as (s2 & E2 & D).
    cbn [fst snd] in *. rewrite (at_on_apic_eq i _ _ s2 Hi E2) in L. cbn [pure fst] in L.
    specialize (L _ eq_refl). assert (L2 : legal s2).
    { intros v Hv. specialize (L v Hv). by destruct (update_irq_cpu s2) as [c R]; rewrite R in L. }
    exists (requests s2). eexists. cbn [fst]. rewrite (at_on_apic_eq i _ _ s2 Hi E2). split; [done|].
    split; [apply sees_update; exact (delivered_sees s1 s2 _ H1 D L2)|].
    cbn [pure fst]. destruct (update_irq_cpu s2) as [c ->]. by rewrite <- S1, <- (dt_on _ _ D).
  - exists []. eexists. cbn [fst snd]. rewrite (at_on_apic_eq i _ _ s1 Hi E1). split; [done|].
    split; [by apply sees_update|]. cbn [pure fst]. by destruct (update_irq_cpu s1) as [c ->].
Qed.

(** Each operation of the code is a step of the stack. *)
Lemma c_step_sim spur w e w1 p s1 : inv w.2 -> c_step w e w1 ->
  apic_at w1.1 i = Some s1 -> legal s1 -> shows spur w p ->
  exists p1, p_step (spur &. 0xff) p e p1 /\ shows spur w1 p1.
Proof.
  intros I S E1 L (s & E & H & Hs). destruct S as [w v t Hv|w s0 a s' E0 A|w now val|w now t Ht].
  - eexists. split; [constructor|]. exists s1. split; [done|].
    cbn [fst] in E1. rewrite (at_on_apic_eq i _ _ s Hi E) in E1. apply (inj Some) in E1. subst s1.
    destruct (set_irq_delivered v t s (apic_irq_delivered w.1) Hv (sees_wf _ _ H)) as [D V].
    split; [|rewrite <- Hs; exact (dt_on _ _ D)]. set (s' := (apic_set_irq _ _ _ _).1) in *.
    assert (Hl : 16 <= v < 256).
    { unfold is_uint in Hv. destruct (Z.lt_ge_cases v 16); [|lia].
      specialize (L v ltac:(lia)). rewrite V, Z.eqb_refl in L by (unfold is_uint; lia). done. }
    constructor; cbn [req serv task]; rewrite ?(dt_isr _ _ D), ?(dt_tpr _ _ D), ?(dt_on _ _ D); try apply H.
    + exact (delivered_wf _ _ (sees_wf _ _ H) D).
    + intros w0 Hw. rewrite V, elem_of_cons, <- (sees_req _ _ H) by done.
      destruct (Z.eqb_spec v w0); cbn [orb]; intuition congruence.
    + cbn [app]. constructor; [done|apply H].
  - rewrite E in E0. injection E0 as <-. destruct (accept_sees s p a s' H A) as (p1 & P & H1 & Hs1).
    rewrite Hs in P. exists p1. split; [by constructor|]. exists s'. cbn [fst].
    rewrite (at_on_apic_eq i _ _ s Hi E). cbn [pure fst]. by rewrite Hs1.
  - assert (R : apic_mem_writel bc (Some i) now 0xb0 val w = apic_eoi bc i w)
      by (unfold apic_mem_writel, cpu_get_current_apic; cbn; by rewrite E).
    rewrite R in *. destruct (eoi_shows spur w p I) as [rs Hrs]; [by exists s| |].
    + intros s2 E2. rewrite E1 in E2. by injection E2 as <-.
    + eexists. split; [apply (p_eoi _ p rs)|done].
  - assert (R : apic_mem_writel bc (Some i) now 0x80 t w =
                 on1 i (fun s => apic_update_irq (set_tpr (u8 t) s)) w)
      by (unfold apic_mem_writel, cpu_get_current_apic; cbn; by rewrite E).
    rewrite R in *. eexists. split; [constructor|]. eexists. rewrite (at_pure i _ w s E eq_refl).
    split; [done|]. rewrite (wrap_small 8 t) by done.
    destruct (update_irq_cpu (set_tpr t s)) as [c ->]. split; [|by destruct s].
    apply sees_set_cpu. destruct (sees_wf _ _ H). constructor; try apply H; [|done].
    by constructor.
Qed.

(** Every run of the APIC is a run of the stack. *)
Lemma priority_stack spur w es w' p :
  shows spur w p -> c_steps w es w' ->
  exists p', p_steps (spur &. 0xff) p es p' /\ shows spur w' p'.
Proof.
  intros H R. revert p H. induction R as [w|w e w1 es w2 s1 I S E L R IH]; intros p H.
  - exists p. split; [constructor|done].
  - destruct (c_step_sim spur w e w1 p s1 I S E L H) as (p1 & P & H1).
    destruct (IH p1 H1) as (p2 & P2 & H2). exists p2. split; [|done]. by econstructor.
Qed.

End Stack.

(** ** Delivery on the bus *)

(** The new state of the APIC does not depend on [apic_irq_delivered]. *)
Definition local_code (code : APICState -> Z -> APICState * Z) : Prop :=
  forall s d d', (code s d).1 = (code s d').1.

Lemma local_set_irq v t : local_code (apic_set_irq v t).
Proof. done. Qed.

Lemma local_pure f : local_code (pure f).
Proof. done. Qed.

Lemma foldl_on_apic (P : Z -> bool) code ks : local_code code -> NoDup ks -> Forall (fun k => 0 <= k) ks ->
  forall b j, 0 <= j ->
  apic_at (foldl (fun b k => if P k then on_apic k code b else b) b ks) j =
  (fun a => if bool_decide (j ∈ ks) && P j then (code a 0).1 else a) <$> apic_at b j.
Proof.
  intros Hc. induction 1 as [|k ks Hk _ IH]; intros Hks b j Hj; cbn [foldl].
  { rewrite bool_decide_eq_false_2 by apply not_elem_of_nil. by destruct (apic_at b j). }
  apply Forall_cons in Hks as [Hk0 Hks]. rewrite IH by done.
  rewrite (bool_decide_ext (j ∈ k :: ks) (j = k \/ j ∈ ks)) by apply elem_of_cons.
  destruct (P k) eqn:Pk.
  - destruct (apic_at b k) as [a|] eqn:Ek.
    + rewrite (at_on_apic k j code b a) by done. destruct (Z.eqb_spec k j) as [<-|Hne].
      * rewrite Ek. cbn. rewrite (bool_decide_eq_false_2 (k ∈ ks)), bool_decide_eq_true_2 by auto.
        rewrite Pk. cbn. f_equal. apply Hc.
      * rewrite (bool_decide_ext (j = k \/ j ∈ ks) (j ∈ ks)) by intuition congruence. done.
    + rewrite on_apic_none by done. destruct (Z.eq_dec k j) as [<-|Hne]; [by rewrite Ek|].
      rewrite (bool_decide_ext (j = k \/ j ∈ ks) (j ∈ ks)) by intuition congruence. done.
  - destruct (Z.eq_dec k j) as [<-|Hne].
    + by rewrite Pk, !andb_false_r.
    + rewrite (bool_decide_ext (j = k \/ j ∈ ks) (j ∈ ks)) by intuition congruence. done.
Qed.

(** The inner loop of [foreach_apic], with its test of the whole word. *)
Lemma foreach_word mask code i b : 0 <= i ->
  (if truthy (aget mask i) then
     foldl (fun b j => if truthy (aget mask i &. (1 <<. j)) then on_apic (i * 32 + j) code b else b)
       b (seqZ 0 32)
   else b) =
  foldl (fun b k => if vec mask k then on_apic k code b else b) b (seqZ (i * 32 + 0) 32).
Proof.
  intros Hi. rewrite <- (fmap_add_seqZ (i * 32) 0 32), foldl_fmap.
  assert (E : forall b, foldl (fun b j => if truthy (aget mask i &. (1 <<. j)) then on_apic (i * 32 + j) code b else b)
                b (seqZ 0 32) =
              foldl (fun b j => if vec mask (i * 32 + j) then on_apic (i * 32 + j) code b else b) b (seqZ 0 32)).
  { intros b0. apply foldl_ext_in.
    intros b1 j [Hj1 Hj2]%elem_of_seqZ. unfold vec.
    replace ((i * 32 + j) / 32) with i by dlia. replace ((i * 32 + j) mod 32) with j by dlia.
    by rewrite truthy_land_bit by lia. }
  rewrite E. unfold truthy. destruct (Z.eqb_spec (aget mask i) 0) as [Z0|]; cbn [negb]; [|done].
  rewrite <- E, Z0. symmetry. by apply foldl_id_in.
Qed.

Lemma foreach_apic_flat mask code b :
  foreach_apic mask code b =
  foldl (fun b k => if vec mask k then on_apic k code b else b) b (seqZ 0 256).
Proof.
  unfold foreach_apic. change (seqZ 0 256) with
    (seqZ 0 32 ++ seqZ 32 32 ++ seqZ 64 32 ++ seqZ 96 32 ++
     seqZ 128 32 ++ seqZ 160 32 ++ seqZ 192 32 ++ seqZ 224 32).
  rewrite !foldl_app. change (seqZ 0 MAX_APIC_WORDS) with [0; 1; 2; 3; 4; 5; 6; 7].
  set (g := fun b k => if vec mask k then on_apic k code b else b). cbn [foldl].
  by rewrite !foreach_word by lia.
Qed.

Lemma foreach_apic_at mask code b j : local_code code -> is_u8 j ->
  apic_at (foreach_apic mask code b) j =
  (fun a => if vec mask j then (code a 0).1 else a) <$> apic_at b j.
Proof.
  intros Hc Hj. rewrite foreach_apic_flat, foldl_on_apic; [|done|apply NoDup_seqZ| |apply Hj].
  - unfold is_uint in Hj. by rewrite bool_decide_eq_true_2 by (apply elem_of_seqZ; lia).
  - apply Forall_forall. intros k [? _]%elem_of_seqZ. done.
Qed.

(** A bus as [apic_init1] builds it: at most 255 APICs.  The firmware and
    the operating system give them distinct ids. *)
Definition bus_ok (b : Bus) : Prop :=
  (length (local_apics b) <= 255)%nat /\ NoDup (id <$> local_apics b).

Lemma apic_at_range b j a : bus_ok b -> 0 <= j -> apic_at b j = Some a -> j < 255.
Proof. intros [H _] Hj E%lookup_lt_Some. lia. Qed.

(** What a message of destination [dest] in destination mode [dm] names. *)
Definition named (dest dm : Z) (a : APICState) : bool :=
  if dm =? 0 then (dest =? 0xff) || (id a =? dest) else logical_match dest a.

Lemma find_id_spec dest : forall l i,
  (find_id i l dest = -1 /\ (forall a, a ∈ l -> id a <> dest)) \/
  (exists n a, find_id i l dest = i + Z.of_nat n /\ l !! n = Some a /\ id a = dest).
Proof.
  induction l as [|a l IH]; intros i; cbn [find_id].
  - left. split; [done|]. by intros a ?%elem_of_nil.
  - destruct (Z.eqb_spec (id a) dest) as [E|E].
    + right. exists 0%nat, a. split; [lia|]. done.
    + destruct (IH (i + 1)) as [[-> H]|(n & a' & -> & Hl & Hd)].
      * left. split; [done|]. intros a' [->|?]%elem_of_cons; auto.
      * right. exists (S n), a'. split; [lia|]. done.
Qed.

Lemma find_dest_spec dest b j a : bus_ok b -> is_u8 dest -> 0 <= j -> apic_at b j = Some a ->
  (apic_find_dest dest b =? j) = (id a =? dest) /\ apic_find_dest dest b < 255.
Proof.
  intros [Hl Hn] Hd Hj E.
  assert (U : forall k a', 0 <= k -> apic_at b k = Some a' -> id a' = dest ->
                (k =? j) = (id a =? dest)).
  { intros k a' Hk E' I. destruct (Z.eqb_spec k j) as [->|Hne].
    - rewrite E in E'. injection E' as ->. symmetry. by apply Z.eqb_eq.
    - symmetry. apply Z.eqb_neq. intros I2. apply Hne. unfold apic_at in *.
      enough (Z.to_nat k = Z.to_nat j) by lia.
      apply (NoDup_lookup _ _ _ (id a) Hn); rewrite list_lookup_fmap; [rewrite E'|rewrite E]; cbn; congruence. }
  assert (F : (find_id 0 (local_apics b) dest =? j) = (id a =? dest) /\ find_id 0 (local_apics b) dest < 255).
  { destruct (find_id_spec dest (local_apics b) 0) as [[-> H]|(n & a' & -> & Hla & I)].
    - split; [|lia]. transitivity false; [apply Z.eqb_neq; lia|]. symmetry. apply Z.eqb_neq, H.
      by apply list_elem_of_lookup_2 in E.
    - split; [|apply lookup_lt_Some in Hla; lia].
      apply (U _ a'); [lia| |done]. unfold apic_at. by replace (Z.to_nat (0 + Z.of_nat n)) with n by lia. }
  unfold apic_find_dest. rewrite take_ge by (change (Z.to_nat MAX_APICS) with 255%nat; lia).
  destruct (apic_at b dest) as [a'|] eqn:E'; [|done].
  destruct (Z.eqb_spec (id a') dest) as [I|I]; [|done].
  assert (0 <= dest) by apply Hd. split; [by apply (U _ a')|]. apply lookup_lt_Some in E'. lia.
Qed.

Lemma logical_mask_spec dest : forall l i mask, tab_ok mask -> 0 <= i -> i + Z.of_nat (length l) <= 256 ->
  tab_ok (logical_mask i l dest mask) /\
  forall j, is_u8 j -> vec (logical_mask i l dest mask) j =
    (if i <=? j then from_option (logical_match dest) false (l !! Z.to_nat (j - i)) else false) || vec mask j.
Proof.
  induction l as [|a l IH]; intros i mask Hm Hi Hb; cbn [logical_mask].
  - split; [done|]. intros j Hj. rewrite lookup_nil. by destruct (i <=? j).
  - cbn [length] in Hb. set (m' := if logical_match dest a then set_bit mask i else mask).
    assert (Hu : is_u8 i) by (unfold is_uint; lia).
    assert (Hm' : tab_ok m') by (unfold m'; destruct (logical_match dest a); [by apply set_bit_ok|done]).
    destruct (IH (i + 1) m' Hm') as [K1 K2]; [lia|lia|]. split; [done|]. intros j Hj. rewrite K2 by done.
    assert (V : vec m' j = logical_match dest a && (i =? j) || vec mask j).
    { unfold m'. destruct (logical_match dest a); [by rewrite vec_set_bit|done]. }
    rewrite V. destruct (Z.eqb_spec i j) as [<-|Hne].
    + rewrite Z.sub_diag, Z.leb_refl. destruct (Z.leb_spec (i + 1) i); [lia|].
      change ((a :: l) !! Z.to_nat 0) with (Some a). cbn [from_option]. btauto.
    + destruct (Z.leb_spec (i + 1) j), (Z.leb_spec i j); try lia; [|cbn; btauto].
      replace (Z.to_nat (j - i)) with (S (Z.to_nat (j - (i + 1)))) by lia.
      change ((a :: l) !! S (Z.to_nat (j - (i + 1)))) with (l !! Z.to_nat (j - (i + 1))). btauto.
Qed.

Lemma delivery_mask_spec dest dm b : bus_ok b -> is_u8 dest ->
  forall j a, 0 <= j -> apic_at b j = Some a ->
  vec (apic_get_delivery_bitmask dest dm b) j = named dest dm a.
Proof.
  intros Hb Hd j a Hj E. pose proof (apic_at_range b j a Hb Hj E) as Hr.
  assert (Hu : is_u8 j) by (unfold is_uint; lia).
  unfold apic_get_delivery_bitmask, named. change (Z.to_nat MAX_APIC_WORDS) with 8%nat.
  destruct (dm =? 0).
  - destruct (dest =? 0xff); cbn [orb].
    + apply (below_spec 256 (vec (replicate 8 0xffffffff))); [vm_compute; reflexivity|lia].
    + cbv zeta. destruct (find_dest_spec dest b j a Hb Hd Hj E) as [F1 F2]. rewrite <- F1.
      destruct (Z.leb_spec 0 (apic_find_dest dest b)).
      * rewrite vec_set_bit, vec_empty by (try apply tab_ok_empty; unfold is_uint; lia). btauto.
      * rewrite vec_empty. symmetry. apply Z.eqb_neq. lia.
  - destruct Hb as [Hl _]. rewrite take_ge by (change (Z.to_nat MAX_APICS) with 255%nat; lia).
    destruct (logical_mask_spec dest (local_apics b) 0 (replicate 8 0) tab_ok_empty) as [_ K]; [lia|lia|].
    rewrite K by done. rewrite vec_empty, Z.sub_0_r. unfold apic_at in E. rewrite E.
    destruct (Z.leb_spec 0 j); [cbn; btauto|lia].
Qed.

(** What a message does to an APIC it names, by delivery mode. *)
Definition effect (delivery_mode v t : Z) (a : APICState) : APICState :=
  if (delivery_mode =? APIC_DM_FIXED) || (delivery_mode =? APIC_DM_EXTINT)
     || (delivery_mode =? APIC_DM_LOWPRI) then (apic_set_irq v t a 0).1
  else if delivery_mode =? APIC_DM_SMI then on_cpu (cpu_interrupt CPU_INTERRUPT_SMI) a
  else if delivery_mode =? APIC_DM_NMI then on_cpu (cpu_interrupt CPU_INTERRUPT_NMI) a
  else if delivery_mode =? APIC_DM_INIT then on_cpu (cpu_interrupt CPU_INTERRUPT_INIT) a
  else a.

Lemma bus_deliver_at mask dm v pol t b j : is_u8 j -> dm <> APIC_DM_LOWPRI ->
  apic_at (apic_bus_deliver mask dm v pol t b) j =
  (fun a => if vec mask j then effect dm v t a else a) <$> apic_at b j.
Proof.
  intros Hj Hd. unfold apic_bus_deliver, effect.
  destruct (Z.eqb_spec dm APIC_DM_LOWPRI); [done|].
  destruct (Z.eqb_spec dm APIC_DM_FIXED) as [->|];
    [by rewrite foreach_apic_at by (done || apply local_set_irq)|].
  destruct (Z.eqb_spec dm APIC_DM_SMI) as [->|];
    [by rewrite foreach_apic_at by (done || apply local_pure)|].
  destruct (Z.eqb_spec dm APIC_DM_NMI) as [->|];
    [by rewrite foreach_apic_at by (done || apply local_pure)|].
  destruct (Z.eqb_spec dm APIC_DM_INIT) as [->|];
    [by rewrite foreach_apic_at by (done || apply local_pure)|].
  destruct (Z.eqb_spec dm APIC_DM_EXTINT) as [->|];
    [by rewrite foreach_apic_at by (done || apply local_set_irq)|].
  cbn [orb]. destruct (apic_at b j); cbn; [|done]. by destruct (vec mask j).
Qed.

(** ** The low priority search *)

Lemma ctz_pos_spec p : 0 <= ctz_pos p /\ Z.testbit (Zpos p) (ctz_pos p) = true /\
  forall k, 0 <= k < ctz_pos p -> Z.testbit (Zpos p) k = false.
Proof.
  induction p as [p _|p (IH1 & IH2 & IH3)|]; cbn [ctz_pos].
  - split_and!; [lia|done|lia].
  - change (Zpos p~0) with (2 * Zpos p). split; [lia|]. split.
    + replace (1 + ctz_pos p) with (Z.succ (ctz_pos p)) by lia. by rewrite Z.double_bits_succ.
    + intros k Hk. destruct (Z.eq_dec k 0) as [->|]; [done|].
      replace k with (Z.succ (k - 1)) by lia. rewrite Z.double_bits_succ. apply IH3. lia.
  - split_and!; [lia|done|lia].
Qed.

Lemma ffs_bit_spec w : is_u32 w -> w <> 0 ->
  0 <= ffs_bit w < 32 /\ Z.testbit w (ffs_bit w) = true /\
  forall k, 0 <= k < ffs_bit w -> Z.testbit w k = false.
Proof.
  intros Hw Hn. unfold ffs_bit, ctz32. unfold is_uint in Hw.
  destruct w as [|p|p]; [done| |lia]. destruct (ctz_pos_spec p) as (H1 & H2 & H3).
  split; [|done]. split; [done|]. destruct (Z.lt_ge_cases (ctz_pos p) 32); [done|].
  rewrite (testbit_uint 32) in H2 by (unfold is_uint; lia). done.
Qed.

Lemma first_bit_spec words : forall i, (forall k, is_u32 (aget words k)) -> 0 <= i ->
  let d := first_bit i words in
  (d = -1 /\ forall k, vec words k = true -> 0 <= k < 32 * Z.of_nat (length words) -> False) \/
  (32 * i <= d < 32 * i + 32 * Z.of_nat (length words) /\ vec words (d - 32 * i) = true /\
   forall k, 0 <= k < d - 32 * i -> vec words k = false).
Proof.
  induction words as [|w words IH]; intros i Hw Hi; cbn [first_bit]; cbv zeta.
  { left. split; [done|]. cbn. lia. }
  assert (H0 : is_u32 w) by apply (Hw 0).
  assert (Hs : forall k, 0 <= k -> aget (w :: words) (k + 1) = aget words k).
  { intros k Hk. unfold aget. by replace (Z.to_nat (k + 1)) with (S (Z.to_nat k)) by lia. }
  assert (Hv : forall k, 32 <= k -> vec (w :: words) k = vec words (k - 32)).
  { intros k Hk. unfold vec. replace (k / 32) with ((k - 32) / 32 + 1) by dlia.
    rewrite Hs by dlia. f_equal. dlia. }
  assert (Hv0 : forall k, 0 <= k < 32 -> vec (w :: words) k = Z.testbit w k).
  { intros k Hk. unfold vec. replace (k / 32) with 0 by dlia. by replace (k mod 32) with k by dlia. }
  unfold truthy. destruct (Z.eqb_spec w 0) as [E|E]; cbn [negb].
  - assert (Hlow : forall k, 0 <= k < 32 -> vec (w :: words) k = false)
      by (intros; by rewrite Hv0, E, Z.bits_0).
    assert (Hw' : forall k, is_u32 (aget words k)).
    { intros k. destruct (Z.le_gt_cases 0 k); [rewrite <- Hs by done; apply Hw|].
      replace (aget words k) with (aget words 0) by (unfold aget; by replace (Z.to_nat k) with (Z.to_nat 0) by lia).
      rewrite <- Hs by lia. apply Hw. }
    destruct (IH (i + 1)) as [[-> H]|(H1 & H2 & H3)]; [exact Hw'|lia| |].
    + left. split; [done|]. intros k Hk Hr. destruct (Z.lt_ge_cases k 32).
      * rewrite Hlow in Hk by lia. done.
      * rewrite Hv in Hk by lia. cbn [length] in Hr. apply (H _ Hk). lia.
    + right. cbn [length]. split; [lia|]. split.
      * rewrite Hv by lia. rewrite <- H2. f_equal. lia.
      * intros k Hk. destruct (Z.lt_ge_cases k 32); [apply Hlow; lia|]. rewrite Hv by lia. apply H3. lia.
  - destruct (ffs_bit_spec w H0 E) as (F1 & F2 & F3). right. cbn [length]. split; [lia|].
    replace (i * 32 + ffs_bit w - 32 * i) with (ffs_bit w) by lia. split; [by rewrite Hv0 by lia|].
    intros k Hk. rewrite Hv0 by lia. by apply F3.
Qed.

Lemma delivery_mask_ok dest dm b : bus_ok b -> is_u8 dest -> tab_ok (apic_get_delivery_bitmask dest dm b).
Proof.
  intros Hb Hd. unfold apic_get_delivery_bitmask. change (Z.to_nat MAX_APIC_WORDS) with 8%nat.
  destruct (dm =? 0).
  - destruct (dest =? 0xff).
    + split; [done|]. intros i. unfold aget. rewrite nth_lookup.
      destruct (replicate 8 0xffffffff !! Z.to_nat i) eqn:E; cbn; [|by apply is_uint_0].
      apply lookup_replicate in E as [-> _]. unfold is_uint. lia.
    + cbv zeta. destruct (Z.leb_spec 0 (apic_find_dest dest b)); [|apply tab_ok_empty].
      apply set_bit_ok; [apply tab_ok_empty|]. unfold is_uint. split; [done|].
      unfold apic_find_dest in *.
      assert (F : find_id 0 (take (Z.to_nat MAX_APICS) (local_apics b)) dest < 256).
      { destruct (find_id_spec dest (take (Z.to_nat MAX_APICS) (local_apics b)) 0)
          as [[-> _]|(n & a & -> & E & _)]; [lia|]. apply lookup_lt_Some in E.
        rewrite length_take in E. change (Z.to_nat MAX_APICS) with 255%nat in E. lia. }
      destruct (apic_at b dest); [|done]. destruct (id a =? dest); [apply Hd|done].
  - destruct (logical_mask_spec dest (take (Z.to_nat MAX_APICS) (local_apics b)) 0 (replicate 8 0)
      tab_ok_empty) as [K _]; [lia| |done].
    rewrite length_take. change (Z.to_nat MAX_APICS) with 255%nat. lia.
Qed.

(** No APIC of a lower index is named. *)
Definition first_named (dest dm j : Z) (b : Bus) : bool :=
  negb (existsb (named dest dm) (take (Z.to_nat j) (local_apics b))).

Lemma first_named_true dest dm j b : 0 <= j ->
  first_named dest dm j b = true <->
  forall k a, 0 <= k < j -> apic_at b k = Some a -> named dest dm a = false.
Proof.
  intros Hj. unfold first_named. rewrite negb_true_iff, <- not_true_iff_false, existsb_exists. split.
  - intros H k a Hk E. destruct (named dest dm a) eqn:Ea; [|done]. destruct H. exists a. split; [|done].
    apply list_elem_of_In, (list_elem_of_lookup_2 _ (Z.to_nat k)). by rewrite lookup_take_lt by lia.
  - intros H (a & Ha & En). apply list_elem_of_In, list_elem_of_lookup_1 in Ha as [k Hk].
    apply lookup_take_Some in Hk as [Hk1 Hk2].
    rewrite (H (Z.of_nat k) a) in En; [done|lia|]. unfold apic_at. by rewrite Nat2Z.id.
Qed.

Lemma lowpri_choice dest dm b j a : bus_ok b -> is_u8 dest -> 0 <= j -> apic_at b j = Some a ->
  (first_bit 0 (apic_get_delivery_bitmask dest dm b) =? j) = named dest dm a && first_named dest dm j b.
Proof.
  intros Hb Hd Hj E. destruct (delivery_mask_ok dest dm b Hb Hd) as [Hl Hw].
  pose proof (delivery_mask_spec dest dm b Hb Hd) as V. pose proof (apic_at_range b j a Hb Hj E) as Hr.
  set (mask := apic_get_delivery_bitmask dest dm b) in *.
  destruct (first_bit_spec mask 0 Hw) as [[-> H]|(H1 & H2 & H3)]; [lia| |].
  { destruct (Z.eqb_spec (-1) j); [lia|]. destruct (named dest dm a) eqn:Ea; [|done].
    exfalso. apply (H j); [by rewrite (V j a)|rewrite Hl; lia]. }
  rewrite Z.mul_0_r, Z.sub_0_r in *. set (d := first_bit 0 mask) in *.
  destruct (Z.eqb_spec d j) as [<-|Hne].
  - rewrite (V d a) in H2 by done. rewrite H2. symmetry. apply first_named_true; [lia|].
    intros k ak Hk Ek. rewrite <- (V k ak) by (done || lia). apply H3. lia.
  - symmetry. apply andb_false_iff. destruct (Z.lt_ge_cases d j).
    + right. apply not_true_iff_false. rewrite first_named_true by done. intros F.
      destruct (lookup_lt_is_Some_2 (local_apics b) (Z.to_nat d)) as [ad Ed].
      { apply lookup_lt_Some in E. lia. }
      rewrite (V d ad) in H2 by (done || lia). rewrite (F d ad) in H2 by (done || lia). done.
    + left. rewrite <- (V j a) by done. apply H3. lia.
Qed.

Lemma deliver_irq_at dest dm delivery_mode v pol t b j a :
  bus_ok b -> is_u8 dest -> 0 <= j -> apic_at b j = Some a ->
  apic_at (apic_deliver_irq dest dm delivery_mode v pol t b) j =
  Some (if named dest dm a && (negb (delivery_mode =? APIC_DM_LOWPRI) || first_named dest dm j b)
        then effect delivery_mode v t a else a).
Proof.
  intros Hb Hd Hj E. pose proof (apic_at_range b j a Hb Hj E) as Hr. unfold apic_deliver_irq. cbv zeta.
  destruct (Z.eqb_spec delivery_mode APIC_DM_LOWPRI) as [->|Hn]; cbn [negb orb].
  - unfold apic_bus_deliver. cbn [Z.eqb]. rewrite Z.eqb_refl. rewrite <- lowpri_choice by done.
    set (d := first_bit 0 _). destruct (Z.leb_spec 0 d).
    + destruct (apic_at b d) as [ad|] eqn:Ed.
      * rewrite (at_on_apic d j _ b ad) by done. destruct (Z.eqb_spec d j) as [->|]; [|done].
        rewrite E in Ed. by injection Ed as <-.
      * rewrite on_apic_none by done. destruct (Z.eqb_spec d j) as [->|]; [|done]. by rewrite E in Ed.
    + destruct (Z.eqb_spec d j); [lia|done].
  - rewrite bus_deliver_at by (done || unfold is_uint; lia). rewrite E. cbn [fmap option_fmap option_map].
    rewrite (delivery_mask_spec dest dm b Hb Hd j a) by done. rewrite andb_true_r. done.
Qed.

(** ** Delivery only delivers *)

Lemma delivered_refl s : wf s -> delivered_to s s.
Proof. intros []. by constructor. Qed.

Lemma delivered_trans s1 s2 s3 : delivered_to s1 s2 -> delivered_to s2 s3 -> delivered_to s1 s3.
Proof.
  intros [A1 A2 A3 _ _ A6] [B1 B2 B3 B4 B5 B6]. constructor; try congruence; try done. auto.
Qed.

Lemma delivered_cpu f s : wf s -> delivered_to s (on_cpu f s).
Proof. intros []. by constructor. Qed.

Lemma effect_delivered dm v t a : is_u8 v -> wf a -> delivered_to a (effect dm v t a).
Proof.
  intros Hv W. unfold effect. destruct (_ || _); [by apply set_irq_delivered|].
  destruct (dm =? APIC_DM_SMI); [by apply delivered_cpu|].
  destruct (dm =? APIC_DM_NMI); [by apply delivered_cpu|].
  destruct (dm =? APIC_DM_INIT); [by apply delivered_cpu|by apply delivered_refl].
Qed.

Lemma local_deliver_delivered n s d : wf s -> delivered_to s (apic_local_deliver n s d).1.
Proof.
  intros W. unfold apic_local_deliver. cbv zeta. destruct (truthy _); [by apply delivered_refl|].
  destruct (_ =? APIC_DM_SMI); [by apply delivered_cpu|].
  destruct (_ =? APIC_DM_NMI); [by apply delivered_cpu|].
  destruct (_ =? APIC_DM_EXTINT); [by apply delivered_cpu|].
  destruct (_ =? APIC_DM_FIXED); [|by apply delivered_refl].
  apply set_irq_delivered; [|done]. apply is_uint_land_r; [unfold is_uint|]; lia.
Qed.

(** A loop over the bus whose body delivers to each APIC it reaches. *)
Lemma foreach_delivers mask code b j a : local_code code ->
  (forall s, wf s -> delivered_to s (code s 0).1) ->
  0 <= j -> apic_at b j = Some a -> wf a ->
  exists a', apic_at (foreach_apic mask code b) j = Some a' /\ delivered_to a a'.
Proof.
  intros Hc Hd Hj E W. rewrite foreach_apic_flat, foldl_on_apic;
    [|done|apply NoDup_seqZ|apply Forall_forall; by intros k [? _]%elem_of_seqZ|done].
  rewrite E. cbn [fmap option_fmap option_map]. eexists. split; [done|].
  destruct (_ && _); [by apply Hd|by apply delivered_refl].
Qed.

Lemma message_delivers dest dm delivery_mode v pol t b j a : is_u8 v ->
  0 <= j -> apic_at b j = Some a -> wf a ->
  exists a', apic_at (apic_deliver_irq dest dm delivery_mode v pol t b) j = Some a' /\ delivered_to a a'.
Proof.
  intros Hv Hj E W. unfold apic_deliver_irq, apic_bus_deliver. cbv zeta.
  assert (Hs : forall s, wf s -> delivered_to s (apic_set_irq v t s 0).1) by (intros; by apply set_irq_delivered).
  assert (Hp : forall f s, wf s -> delivered_to s (pure (on_cpu f) s 0).1) by (intros; by apply delivered_cpu).
  assert (Hid : exists a', apic_at b j = Some a' /\ delivered_to a a') by (exists a; split; [done|by apply delivered_refl]).
  destruct (delivery_mode =? APIC_DM_LOWPRI).
  { destruct (Z.leb_spec 0 (first_bit 0 (apic_get_delivery_bitmask dest dm b))); [|done].
    set (d := first_bit 0 _) in *. destruct (apic_at b d) as [ad|] eqn:Ed; [|by rewrite on_apic_none].
    rewrite (at_on_apic d j _ b ad) by done. destruct (Z.eqb_spec d j) as [->|]; [|done].
    rewrite E in Ed. injection Ed as <-. eexists. split; [done|by apply set_irq_delivered]. }
  destruct (_ =? APIC_DM_FIXED); [by apply foreach_delivers|].
  destruct (_ =? APIC_DM_SMI); [apply foreach_delivers; by try apply Hp|].
  destruct (_ =? APIC_DM_NMI); [apply foreach_delivers; by try apply Hp|].
  destruct (_ =? APIC_DM_INIT); [apply foreach_delivers; by try apply Hp|].
  destruct (_ =? APIC_DM_EXTINT); [by apply foreach_delivers|done].
Qed.

(** An APIC that is enabled, has no request and could take [v] at once. *)
Record idle_for (a : APICState) (v : Z) : Prop := {
  idle_wf : wf a;
  idle_on : truthy (spurious_vec a &. APIC_SV_ENABLE) = true;
  idle_empty : forall w, is_u8 w -> vec (irr a) w = false;
  idle_vector : 16 <= v < 256;
  idle_class : blocked_class a < cls v
}.

Lemma idle_takes a v t : idle_for a v ->
  let a1 := (apic_set_irq v t a 0).1 in
  fst (apic_get_interrupt (Some a1)) = v /\
  truthy (interrupt_request (cpu_env a1) &. CPU_INTERRUPT_HARD) = true.
Proof.
  intros [W On Em Hv Hc]. cbv zeta. assert (Hu : is_u8 v) by (unfold is_uint; lia).
  destruct (set_irq_delivered v t a 0 Hu W) as [D V]. set (a1 := (apic_set_irq v t a 0).1) in *.
  assert (W1 := delivered_wf _ _ W D).
  assert (H : get_highest_priority_int (irr a1) = v).
  { apply (highest_of_unique (irr a1)); [apply get_highest_spec, W1|right].
    refine (conj Hu (conj _ _)); [by rewrite V, Z.eqb_refl|].
    intros w Hw. rewrite V, Em, orb_false_r by done. intros ->%Z.eqb_eq. lia. }
  assert (P : apic_irq_pending a1 = v).
  { rewrite irq_pending_spec; [|done|].
    - rewrite H. unfold blocked_class. rewrite (dt_isr _ _ D), (dt_tpr _ _ D). fold (blocked_class a).
      destruct (Z.ltb_spec v 0); [lia|]. destruct (Z.ltb_spec (blocked_class a) (cls v)); [done|lia].
    - intros w Hw. rewrite V, Em, orb_false_r by done. intros ->%Z.eqb_eq. lia. }
  split.
  - unfold apic_get_interrupt. rewrite (dt_on _ _ D), On. cbn [negb]. rewrite P.
    destruct (Z.eqb_spec v 0); [lia|]. destruct (Z.ltb_spec v 0); [lia|]. done.
  - revert P. unfold a1, apic_set_irq. cbv zeta. cbn [fst]. set (s2 := if truthy t then _ else _).
    assert (On2 : truthy (spurious_vec s2 &. APIC_SV_ENABLE) = true)
      by (unfold s2; by destruct (truthy t)).
    destruct (update_irq_cpu s2) as [c E]. intros P. rewrite E in P.
    change (apic_irq_pending (set_cpu_env c s2)) with (apic_irq_pending s2) in P.
    unfold apic_update_irq. rewrite On2, P. cbn [negb]. destruct (Z.ltb_spec 0 v); [|lia].
    cbn [on_cpu set_cpu_env cpu_env cpu_interrupt set_interrupt_request interrupt_request].
    change CPU_INTERRUPT_HARD with (1 <<. 1). by rewrite truthy_land_bit, testbit_set by lia.
Qed.

(** A bus message.  It reaches exactly the APICs that its destination
    names (all of them for the physical destination 0xff, the one with that id
    for another physical destination, those whose logical id matches in the
    flat or cluster model) and does to each what its delivery mode says; in the
    low priority mode it reaches only the one with the lowest index.  The
    others do not change. *)
Theorem apic_message_reaches_named dest dm delivery_mode v pol t b j a :
  bus_ok b -> is_u8 dest -> 0 <= j -> apic_at b j = Some a ->
  apic_at (apic_deliver_irq dest dm delivery_mode v pol t b) j =
  Some (if named dest dm a && (negb (delivery_mode =? APIC_DM_LOWPRI) || first_named dest dm j b)
        then effect delivery_mode v t a else a).
Proof. apply deliver_irq_at. Qed.

(** Two APICs after reset, enabled by software. *)
Definition demo_cpu (n : Z) : CPUState := mkCPU n 0 true 0 0 0 0.

Definition demo_bus : Bus :=
  let b := mkBus [] 0 in
  let b := snd (apic_init1 0 (demo_cpu 0) b) in
  let b := snd (apic_init1 1 (demo_cpu 1) b) in
  mkBus ((fun a => set_spurious_vec 0x1ff (apic_reset a)) <$> local_apics b) 0.

Lemma apic_message_reaches_named_witness :
  apic_at (apic_deliver_irq 1 0 APIC_DM_FIXED 0x41 0 0 demo_bus) 1 =
  ((fun a => (apic_set_irq 0x41 0 a 0).1) <$> apic_at demo_bus 1).
Proof.
  assert (B : bus_ok demo_bus).
  { split; [vm_compute; lia|]. vm_compute. repeat constructor; rewrite ?elem_of_cons, ?elem_of_nil; intuition congruence. }
  rewrite (apic_message_reaches_named 1 0 APIC_DM_FIXED 0x41 0 0 demo_bus 1 _ B
    ltac:(vm_compute; split; congruence) ltac:(lia) ltac:(vm_compute; reflexivity)).
  reflexivity.
Defined.

(** ** The timer *)

(** Local delivery writes to the request tables and the processor only. *)
Lemma local_deliver_frame v s d : exists c i t,
  (apic_local_deliver v s d).1 = set_cpu_env c (set_tmr t (set_irr i s)).
Proof.
  assert (Id : forall c, exists i t, set_cpu_env c s = set_cpu_env c (set_tmr t (set_irr i s)))
    by (intros c; exists (irr s), (tmr s); by destruct s).
  assert (Id' : exists c i t, s = set_cpu_env c (set_tmr t (set_irr i s)))
    by (exists (cpu_env s), (irr s), (tmr s); by destruct s).
  unfold apic_local_deliver. cbv zeta.
  destruct (truthy _); [done|].
  destruct (_ =? APIC_DM_SMI); [eexists; apply Id|]. destruct (_ =? APIC_DM_NMI); [eexists; apply Id|].
  destruct (_ =? APIC_DM_EXTINT); [eexists; apply Id|]. destruct (_ =? APIC_DM_FIXED); [|done].
  unfold apic_set_irq. cbv zeta. cbn [fst].
  match goal with |- context [apic_update_irq ?x] => destruct (update_irq_cpu x) as [c ->] end.
  exists c. destruct (truthy _); by eexists _, _.
Qed.

(** A timer of period [(initial_count + 1) << count_shift]. *)
Definition period (s : APICState) : Z := (initial_count s + 1) * 2 ^ count_shift s.

Definition is_periodic (s : APICState) : bool :=
  truthy (aget (lvt s) APIC_LVT_TIMER &. APIC_LVT_TIMER_PERIODIC).

Record timer_ok (s : APICState) : Prop := {
  to_unmasked : truthy (aget (lvt s) APIC_LVT_TIMER &. APIC_LVT_MASKED) = false;
  to_count : 0 < initial_count s < 2 ^ 32;
  to_shift : 0 <= count_shift s <= 7;
  to_load : 0 <= initial_count_load_time s
}.

(** [k] periods after the counter was loaded the next deadline is [k + 1]
    periods after it, or none for a one-shot timer that has expired. *)
Lemma timer_update_at k s : timer_ok s -> 0 <= k ->
  initial_count_load_time s + (k + 1) * period s < 2 ^ 62 ->
  apic_timer_update (initial_count_load_time s + k * period s) s =
  if is_periodic s || (k =? 0) then
    let t := initial_count_load_time s + (k + 1) * period s in
    set_next_time t (set_timer (Some t) s)
  else set_timer None s.
Proof.
  intros [H1 H2 H3 H4] Hk Hb. unfold apic_timer_update, apic_timer_ticks.
  rewrite H1. cbn [negb]. fold (is_periodic s).
  set (L := initial_count_load_time s) in *. set (c := initial_count s) in *.
  assert (Hp : 1 <= 2 ^ count_shift s <= 128).
  { split; [apply (Z.pow_le_mono_r 2 0); lia|]. apply (Z.pow_le_mono_r 2 _ 7); lia. }
  assert (Hd : (L + k * period s - L) >>. count_shift s = k * (c + 1)).
  { rewrite Z.shiftr_div_pow2 by lia. unfold period. fold c.
    replace (L + k * ((c + 1) * 2 ^ count_shift s) - L) with (k * (c + 1) * 2 ^ count_shift s) by ring.
    by rewrite Z.div_mul by lia. }
  rewrite Hd. assert (Hpd : c + 1 <= period s) by (unfold period; fold c; nia).
  assert (Hkp : 0 <= k * (c + 1) /\ (k + 1) * (c + 1) <= (k + 1) * period s) by nia.
  assert (Hs : forall d, d <<. count_shift s = d * 2 ^ count_shift s)
    by (intros; apply Z.shiftl_mul_pow2; lia).
  assert (Hw : forall d, d = (k + 1) * (c + 1) -> s64 (u64 d) = d /\
             s64 (L + (d <<. count_shift s)) = L + (k + 1) * period s).
  { intros d ->. rewrite Hs. rewrite (wrap_small 64) by (unfold is_uint; lia).
    replace ((k + 1) * (c + 1) * 2 ^ count_shift s) with ((k + 1) * period s) by (unfold period; fold c; ring).
    unfold swrap. rewrite !Z.mod_small by lia. lia. }
  destruct (is_periodic s); cbn [orb].
  - unfold truthy. destruct (Z.eqb_spec c 0); [lia|]. cbn [negb].
    rewrite !(wrap_small 64 (c + 1)), (wrap_small 64 (k * (c + 1))) by (unfold is_uint; lia).
    rewrite Z.div_mul by lia. rewrite (wrap_small 64 (k + 1)) by (unfold is_uint; nia).
    destruct (Hw _ eq_refl) as [-> ->]. done.
  - destruct (Z.eqb_spec k 0) as [->|].
    + destruct (Z.leb_spec c (0 * (c + 1))); [lia|].
      destruct (Hw (c + 1) ltac:(lia)) as [-> ->]. done.
    + destruct (Z.leb_spec c (k * (c + 1))); [done|nia].
Qed.

(** [n] firings, starting from [s]; the timer is left alone in between. *)
Fixpoint fires (n : nat) (s : APICState) (dlv : Z) : APICState * Z :=
  match n with
  | O => (s, dlv)
  | S n' => let '(s, dlv) := fires n' s dlv in apic_timer s dlv
  end.

(** The fields on which the deadlines depend. *)
Record same_timer (s s' : APICState) : Prop := {
  st_lvt : lvt s' = lvt s;
  st_count : initial_count s' = initial_count s;
  st_load : initial_count_load_time s' = initial_count_load_time s;
  st_shift : count_shift s' = count_shift s
}.

Lemma same_timer_ok s s' : same_timer s s' -> timer_ok s ->
  timer_ok s' /\ period s' = period s /\ is_periodic s' = is_periodic s.
Proof.
  intros [E1 E2 E3 E4] [? ? ? ?]. unfold period, is_periodic. rewrite E1, E2, E4.
  split; [|done]. constructor; rewrite ?E1, ?E2, ?E3, ?E4; done.
Qed.

Lemma timer_fires s d n : timer_ok s -> is_periodic s = true ->
  next_time s = initial_count_load_time s + period s ->
  initial_count_load_time s + (Z.of_nat n + 2) * period s < 2 ^ 62 ->
  let s' := (fires n s d).1 in
  same_timer s s' /\
  next_time s' = initial_count_load_time s + (Z.of_nat n + 1) * period s /\
  (timer s = Some (next_time s) -> timer s' = Some (next_time s')).
Proof.
  intros Hok Hper Hn Hb. induction n as [|n IH]; cbn [fires]; cbv zeta.
  { split; [by constructor|]. split; [cbn [fst]; lia|done]. }
  assert (0 < period s).
  { unfold period. destruct Hok. apply Z.mul_pos_pos; [lia|]. apply Z.pow_pos_nonneg; lia. }
  destruct IH as (S & N & _); [lia|]. destruct (fires n s d) as [s1 d1]. cbn [fst] in *.
  unfold apic_timer. destruct (local_deliver_frame APIC_LVT_TIMER (set_timer None s1) d1) as (c & i & t & F).
  destruct (apic_local_deliver APIC_LVT_TIMER (set_timer None s1) d1) as [s2 d2]. cbn [fst] in *.
  assert (S2 : same_timer s s2) by (destruct S; constructor; subst s2; done).
  assert (N2 : next_time s2 = next_time s1) by (by subst s2).
  destruct (same_timer_ok s s2 S2 Hok) as (O2 & P2 & Q2).
  rewrite N2, N, <- P2, <- (st_load _ _ S2). rewrite timer_update_at.
  - rewrite Q2, Hper. cbn [orb]. destruct S2 as [E1 E2 E3 E4]. cbn.
    split; [by constructor; cbn|]. split; [|done]. f_equal. f_equal. lia.
  - done.
  - lia.
  - rewrite (st_load _ _ S2), P2. lia.
Qed.

(** The timer's vector, when its local vector table entry has the fixed
    delivery mode. *)
Definition timer_vector (s : APICState) : option Z :=
  let lvt0 := aget (lvt s) APIC_LVT_TIMER in
  if truthy (lvt0 &. APIC_LVT_MASKED) || negb (((lvt0 >>. 8) &. 7) =? APIC_DM_FIXED) then None
  else Some (lvt0 &. 0xff).

Lemma vector_byte x : is_u8 (x &. 0xff).
Proof. apply is_uint_land_r; [unfold is_uint|]; lia. Qed.

Lemma timer_update_tables t s : irr (apic_timer_update t s) = irr s /\ lvt (apic_timer_update t s) = lvt s.
Proof. unfold apic_timer_update. by destruct (apic_timer_ticks t s). Qed.

Lemma apic_timer_posts s d v : tab_ok (irr s) -> timer_vector s = Some v ->
  let s' := (apic_timer s d).1 in
  tab_ok (irr s') /\ lvt s' = lvt s /\ vec (irr s') v = true.
Proof.
  intros Hi Hv. cbv zeta. unfold apic_timer.
  assert (E : exists s2 d2, apic_local_deliver APIC_LVT_TIMER (set_timer None s) d = (s2, d2) /\
              irr s2 = set_bit (irr s) v /\ lvt s2 = lvt s).
  { unfold timer_vector in Hv. unfold apic_local_deliver.
    change (lvt (set_timer None s)) with (lvt s). cbv zeta in *.
    destruct (truthy _); [done|]. cbn [orb] in Hv.
    destruct (Z.eqb_spec ((aget (lvt s) APIC_LVT_TIMER >>. 8) &. 7) APIC_DM_FIXED) as [->|]; [|done].
    injection Hv as <-. cbn. unfold apic_set_irq. cbv zeta.
    match goal with |- context [apic_update_irq ?x] => destruct (update_irq_cpu x) as [c ->] end.
    eexists _, _. done. }
  destruct E as (s2 & d2 & -> & E1 & E2). cbn [fst].
  destruct (timer_update_tables (next_time s2) s2) as [-> ->].
  assert (Hb : is_u8 v).
  { unfold timer_vector in Hv. destruct (_ || _); [done|]. injection Hv as <-. apply vector_byte. }
  rewrite E1, E2. split; [by apply set_bit_ok|]. split; [done|]. by rewrite vec_set_bit, Z.eqb_refl.
Qed.

Lemma fires_posts n s d v : tab_ok (irr s) -> timer_vector s = Some v ->
  let s' := (fires n s d).1 in
  tab_ok (irr s') /\ lvt s' = lvt s /\ (n <> 0%nat -> vec (irr s') v = true).
Proof.
  intros Hi Hv. cbv zeta. induction n as [|n (I1 & I2 & _)]; cbn [fires fst]; [done|].
  destruct (fires n s d) as [s1 d1]. cbn [fst] in *.
  destruct (apic_timer_posts s1 d1 v I1) as (K1 & K2 & K3); [by unfold timer_vector in *; rewrite I2|].
  split; [done|]. split; [by rewrite K2|done].
Qed.

Lemma current_count_eq s t : timer_ok s -> initial_count_load_time s <= t < 2 ^ 62 ->
  let q := (t - initial_count_load_time s) / 2 ^ count_shift s in
  apic_get_current_count t s =
  if is_periodic s then initial_count s - q mod (initial_count s + 1)
  else Z.max 0 (initial_count s - q).
Proof.
  intros [_ H2 H3 H4] Ht. cbv zeta. unfold apic_get_current_count. cbv zeta. fold (is_periodic s).
  rewrite Z.shiftr_div_pow2 by lia. set (q := (t - _) / _). set (c := initial_count s) in *.
  assert (Hq : 0 <= q < 2 ^ 62).
  { split; [apply Z.div_pos; [lia|]; apply Z.pow_pos_nonneg; lia|].
    apply Z.div_lt_upper_bound; [apply Z.pow_pos_nonneg; lia|].
    assert (1 <= 2 ^ count_shift s) by (apply (Z.pow_le_mono_r 2 0); lia). nia. }
  destruct (is_periodic s).
  - rewrite (wrap_small 64 q), (wrap_small 64 (c + 1)) by (unfold is_uint; lia).
    pose proof (Z.mod_pos_bound q (c + 1)). apply wrap_small. unfold is_uint. lia.
  - destruct (Z.leb_spec c q); [lia|]. rewrite wrap_small by (unfold is_uint; lia). lia.
Qed.

(** The timer.  Writing [val] to the initial count register at time
    [now] starts a timer of period [(val + 1) * 2^count_shift].  In periodic
    mode the [n]-th deadline is [n] periods after [now] exactly, however many
    firings came before, and each firing requests the vector of the timer's
    entry; in one-shot mode the timer expires once, after one period.  The
    current count register counts down from [val] once every [2^count_shift]
    nanoseconds, starting over in periodic mode and stopping at 0 otherwise. *)
Theorem apic_timer_deadlines {X : Type} (bc : Z -> Bus * X -> Bus * X) (b : Bus) (x : X) i s now val n d :
  0 <= i -> apic_at b i = Some s -> timer_ok (set_initial_count val s) -> 0 <= now ->
  let P := (val + 1) * 2 ^ count_shift s in
  now + (Z.of_nat n + 2) * P < 2 ^ 62 ->
  exists s0,
    apic_at (apic_mem_writel bc (Some i) now 0x380 val (b, x)).1 i = Some s0 /\
    (is_periodic s = true -> timer (fires n s0 d).1 = Some (now + (Z.of_nat n + 1) * P)) /\
    (is_periodic s = false -> timer s0 = Some (now + P) /\ timer (apic_timer s0 d).1 = None) /\
    (forall v, tab_ok (irr s) -> timer_vector s = Some v -> vec (irr (fires (S n) s0 d).1) v = true) /\
    (forall t, now <= t < 2 ^ 62 ->
       apic_get_current_count t s0 =
       let q := (t - now) / 2 ^ count_shift s in
       if is_periodic s then val - q mod (val + 1) else Z.max 0 (val - q)).
Proof.
  intros Hi E Hok Hn P Hb.
  set (s1 := set_initial_count_load_time now (set_initial_count val s)).
  exists (apic_timer_update now s1).
  assert (O1 : timer_ok s1) by (destruct Hok; by constructor).
  assert (HP : period s1 = P) by done.
  assert (0 < P).
  { unfold P. destruct Hok as [_ K1 K2 _]. cbn in K1, K2. apply Z.mul_pos_pos; [lia|]. apply Z.pow_pos_nonneg; lia. }
  assert (Hu := timer_update_at 0 s1 O1 ltac:(lia)).
  rewrite HP, Z.mul_0_l, Z.add_0_r, orb_true_r, Z.add_0_l, Z.mul_1_l in Hu.
  change (initial_count_load_time s1) with now in Hu. specialize (Hu ltac:(lia)). cbv zeta in Hu.
  rewrite Hu. set (s0 := set_next_time (now + P) (set_timer (Some (now + P)) s1)).
  assert (S0 : same_timer s1 s0) by by constructor.
  destruct (same_timer_ok s1 s0 S0 O1) as (O0 & P0 & Q0). split; [|split; [|split; [|split]]].
  - assert (R : apic_mem_writel bc (Some i) now 0x380 val (b, x) =
      on1 i (fun s => apic_timer_update now (set_initial_count_load_time now (set_initial_count val s))) (b, x))
      by (unfold apic_mem_writel, cpu_get_current_apic; cbn; by rewrite E).
    rewrite R. unfold on1. cbn [fst]. rewrite (at_on_apic_eq i _ b s) by done. cbn [pure fst].
    fold s1. by rewrite Hu.
  - intros Hp. destruct (timer_fires s0 d n) as (_ & N & T); try done.
    rewrite (T eq_refl), N. done.
  - intros Hp. split; [done|]. unfold apic_timer.
    destruct (local_deliver_frame APIC_LVT_TIMER (set_timer None s0) d) as (c & k & t & F).
    destruct (apic_local_deliver APIC_LVT_TIMER (set_timer None s0) d) as [s2 d2]. cbn [fst] in *.
    assert (S2 : same_timer s1 s2) by (subst s2; by constructor).
    destruct (same_timer_ok s1 s2 S2 O1) as (O2 & P2 & Q2).
    replace (next_time s2) with (initial_count_load_time s2 + 1 * period s2)
      by (rewrite P2, HP, (st_load _ _ S2), F; cbn; lia).
    rewrite timer_update_at by (done || rewrite ?P2, ?HP, ?(st_load _ _ S2); cbn; lia).
    change (is_periodic s1) with (is_periodic s) in Q2. by rewrite Q2, Hp.
  - intros v Ht Hv. by destruct (fires_posts (S n) s0 d v) as (_ & _ & K); [done|done|apply K].
  - intros t Ht. by rewrite (current_count_eq s0 t O0 Ht).
Qed.

(** The boot processor's timer in periodic mode with vector 0x40 and the
    divider 4. *)
Definition demo_timer : APICState :=
  set_count_shift 2 (set_lvt [0x20040; 0x10000; 0x10000; 0x700; 0x10000; 0x10000]
    (default (new_apic 0 0 (demo_cpu 0)) (apic_at demo_bus 0))).

Lemma apic_timer_deadlines_witness : exists s0,
  apic_at (apic_mem_writel (fun _ w => w) (Some 0) 1000 0x380 99 (mkBus [demo_timer] 0, tt)).1 0 = Some s0 /\
  timer (fires 5 s0 0).1 = Some 3400 /\ vec (irr (fires 6 s0 0).1) 0x40 = true.
Proof.
  assert (K : timer_ok (set_initial_count 99 demo_timer)) by (constructor; vm_compute; intuition congruence).
  assert (Pe : is_periodic demo_timer = true) by (vm_compute; reflexivity).
  assert (Tv : timer_vector demo_timer = Some 0x40) by (vm_compute; reflexivity).
  assert (Cs : count_shift demo_timer = 2) by reflexivity.
  assert (Ti : tab_ok (irr demo_timer)) by apply tab_ok_empty.
  assert (A : apic_at (mkBus [demo_timer] 0) 0 = Some demo_timer) by reflexivity.
  generalize dependent demo_timer. intros a K Pe Tv Cs Ti A.
  destruct (apic_timer_deadlines (fun _ w => w) (mkBus [a] 0) tt 0 a 1000 99 5 0 ltac:(lia) A K ltac:(lia))
    as (s0 & E & P & _ & V & _); [rewrite Cs; vm_compute; reflexivity|].
  exists s0. split; [exact E|]. split; [rewrite (P Pe), Cs; vm_compute; reflexivity|].
  exact (V 0x40 Ti Tv).
Defined.

End APIC.
