(* ===== verification/IOAPIC.v ===== *)
(** * The I/O APIC (src/qemu/hw/ioapic.c)

    [IOAPICState] keeps the source's fields.  The I/O APIC calls two others: it
    sends messages with [apic_deliver_irq] and asks the 8259 pair for a vector
    with [pic_read_irq].  Both are arguments of the section, acting on the rest
    [W] of the machine, which every operation threads; Pc.v supplies them.
    [ioapics] has one entry (MAX_IOAPICS is 1), [None] before [ioapic_init1].

    The theorems: what each pin delivers, and how often, as it is raised,
    lowered, masked and acknowledged, in edge and in level mode; the
    redirection table through the register window. *)
From S2P Require Import Prelude.

Module IOAPIC.

(** ** Constants *)

Definition MAX_IOAPICS : Z := 1.
Definition IOAPIC_VERSION : Z := 0x11.
Definition IOAPIC_LVT_DEST_SHIFT : Z := 56.
Definition IOAPIC_LVT_MASKED_SHIFT : Z := 16.
Definition IOAPIC_LVT_TRIGGER_MODE_SHIFT : Z := 15.
Definition IOAPIC_LVT_REMOTE_IRR_SHIFT : Z := 14.
Definition IOAPIC_LVT_POLARITY_SHIFT : Z := 13.
Definition IOAPIC_LVT_DELIV_STATUS_SHIFT : Z := 12.
Definition IOAPIC_LVT_DEST_MODE_SHIFT : Z := 11.
Definition IOAPIC_LVT_DELIV_MODE_SHIFT : Z := 8.
Definition IOAPIC_LVT_MASKED : Z := 1 <<. IOAPIC_LVT_MASKED_SHIFT.
Definition IOAPIC_LVT_REMOTE_IRR : Z := 1 <<. IOAPIC_LVT_REMOTE_IRR_SHIFT.
Definition IOAPIC_TRIGGER_EDGE : Z := 0.
Definition IOAPIC_TRIGGER_LEVEL : Z := 1.
Definition IOAPIC_DM_FIXED : Z := 0x0.
Definition IOAPIC_DM_LOWEST_PRIORITY : Z := 0x1.
Definition IOAPIC_DM_PMI : Z := 0x2.
Definition IOAPIC_DM_NMI : Z := 0x4.
Definition IOAPIC_DM_INIT : Z := 0x5.
Definition IOAPIC_DM_SIPI : Z := 0x6.
Definition IOAPIC_DM_EXTINT : Z := 0x7.
Definition IOAPIC_DM_MASK : Z := 0x7.
Definition IOAPIC_VECTOR_MASK : Z := 0xff.
Definition IOAPIC_IOREGSEL : Z := 0x00.
Definition IOAPIC_IOWIN : Z := 0x10.
Definition IOAPIC_REG_ID : Z := 0x00.
Definition IOAPIC_REG_VER : Z := 0x01.
Definition IOAPIC_REG_ARB : Z := 0x02.
Definition IOAPIC_REG_REDTBL_BASE : Z := 0x10.
Definition IOAPIC_ID : Z := 0x00.
Definition IOAPIC_ID_SHIFT : Z := 24.
Definition IOAPIC_ID_MASK : Z := 0xf.
Definition IOAPIC_VER_ENTRIES_SHIFT : Z := 16.
Definition IOAPIC_NUM_PINS : Z := 0x18.

(** ** State *)

Record IOAPICState := mkIOAPIC {
  id : Z;
  ioregsel : Z;
  irr : Z;
  ioredtbl : list Z
}.

Definition set_id (v : Z) (s : IOAPICState) : IOAPICState :=
  mkIOAPIC v (ioregsel s) (irr s) (ioredtbl s).
Definition set_ioregsel (v : Z) (s : IOAPICState) : IOAPICState :=
  mkIOAPIC (id s) v (irr s) (ioredtbl s).
Definition set_irr (v : Z) (s : IOAPICState) : IOAPICState :=
  mkIOAPIC (id s) (ioregsel s) v (ioredtbl s).
Definition set_ioredtbl (v : list Z) (s : IOAPICState) : IOAPICState :=
  mkIOAPIC (id s) (ioregsel s) (irr s) v.

Section Device.

Context {W : Type}.
(** [apic_deliver_irq(dest, dest_mode, delivery_mode, vector_num, polarity,
    trigger_mode)] and [pic_read_irq(isa_pic)]. *)
Context (apic_deliver_irq : Z -> Z -> Z -> Z -> Z -> Z -> W -> W).
Context (pic_read_irq : W -> Z * W).

(** The body of the loop of [ioapic_service] for pin [i]. *)
Definition service_pin (m : IOAPICState * W) (i : Z) : IOAPICState * W :=
  let '(s, w) := m in
  let mask := 1 <<. i in
  if truthy (irr s &. mask) then
    let entry := aget (ioredtbl s) i in
    if negb (truthy (entry &. IOAPIC_LVT_MASKED)) then
      let trig_mode := (entry >>. IOAPIC_LVT_TRIGGER_MODE_SHIFT) &. 1 in
      let dest := u8 (entry >>. IOAPIC_LVT_DEST_SHIFT) in
      let dest_mode := (entry >>. IOAPIC_LVT_DEST_MODE_SHIFT) &. 1 in
      let delivery_mode := (entry >>. IOAPIC_LVT_DELIV_MODE_SHIFT) &. IOAPIC_DM_MASK in
      let polarity := (entry >>. IOAPIC_LVT_POLARITY_SHIFT) &. 1 in
      let s :=
        if trig_mode =? IOAPIC_TRIGGER_EDGE then set_irr (u32 (irr s &. ~. mask)) s
        else set_ioredtbl (aset (ioredtbl s) i (u64 (entry |. IOAPIC_LVT_REMOTE_IRR))) s in
      let '(vector, w) :=
        if delivery_mode =? IOAPIC_DM_EXTINT then
          let '(v, w) := pic_read_irq w in (u8 v, w)
        else (entry &. IOAPIC_VECTOR_MASK, w) in
      (s, apic_deliver_irq dest dest_mode delivery_mode vector polarity trig_mode w)
    else (s, w)
  else (s, w).

Definition ioapic_service (m : IOAPICState * W) : IOAPICState * W :=
  foldl service_pin m (seqZ 0 IOAPIC_NUM_PINS).

Definition ioapic_set_irq (vector level : Z) (m : IOAPICState * W) : IOAPICState * W :=
  let '(s, w) := m in
  let vector := if vector =? 0 then 2 else vector in
  if (0 <=? vector) && (vector <? IOAPIC_NUM_PINS) then
    let mask := 1 <<. vector in
    let entry := aget (ioredtbl s) vector in
    if ((entry >>. IOAPIC_LVT_TRIGGER_MODE_SHIFT) &. 1) =? IOAPIC_TRIGGER_LEVEL then
      if truthy level then ioapic_service (set_irr (irr s |. mask) s, w)
      else (set_irr (u32 (irr s &. ~. mask)) s, w)
    else
      if truthy level then ioapic_service (set_irr (irr s |. mask) s, w)
      else (s, w)
  else (s, w).

(** The body of the inner loop of [ioapic_eoi_broadcast] for pin [n]. *)
Definition eoi_pin (vector : Z) (m : IOAPICState * W) (n : Z) : IOAPICState * W :=
  let '(s, w) := m in
  let entry := aget (ioredtbl s) n in
  if truthy (entry &. IOAPIC_LVT_REMOTE_IRR) && ((entry &. IOAPIC_VECTOR_MASK) =? vector) then
    let s := set_ioredtbl (aset (ioredtbl s) n (u64 (entry &. ~. IOAPIC_LVT_REMOTE_IRR))) s in
    if negb (truthy (entry &. IOAPIC_LVT_MASKED)) && truthy (irr s &. (1 <<. n)) then
      ioapic_service (s, w)
    else (s, w)
  else (s, w).

(** The loop over [ioapics] has one iteration. *)
Definition ioapic_eoi_broadcast (vector : Z) (m : option IOAPICState * W) : option IOAPICState * W :=
  let '(s, w) := m in
  match s with
  | None => (None, w)
  | Some s =>
      let '(s, w) := foldl (eoi_pin vector) (s, w) (seqZ 0 IOAPIC_NUM_PINS) in (Some s, w)
  end.

(** ** The register window *)

Definition ioapic_mem_readl (addr : Z) (s : IOAPICState) : Z :=
  if (addr &. 0xff) =? IOAPIC_IOREGSEL then ioregsel s
  else if (addr &. 0xff) =? IOAPIC_IOWIN then
    if ioregsel s =? IOAPIC_REG_ID then u32 (id s <<. IOAPIC_ID_SHIFT)
    else if ioregsel s =? IOAPIC_REG_VER then
      IOAPIC_VERSION |. ((IOAPIC_NUM_PINS - 1) <<. IOAPIC_VER_ENTRIES_SHIFT)
    else if ioregsel s =? IOAPIC_REG_ARB then 0
    else
      let index := (ioregsel s - IOAPIC_REG_REDTBL_BASE) >>. 1 in
      if (0 <=? index) && (index <? IOAPIC_NUM_PINS) then
        if truthy (ioregsel s &. 1) then u32 (aget (ioredtbl s) index >>. 32)
        else aget (ioredtbl s) index &. 0xffffffff
      else 0
  else 0.

Definition ioapic_mem_writel (addr val : Z) (m : IOAPICState * W) : IOAPICState * W :=
  let '(s, w) := m in
  if (addr &. 0xff) =? IOAPIC_IOREGSEL then (set_ioregsel (u8 val) s, w)
  else if (addr &. 0xff) =? IOAPIC_IOWIN then
    if ioregsel s =? IOAPIC_REG_ID then
      (set_id ((val >>. IOAPIC_ID_SHIFT) &. IOAPIC_ID_MASK) s, w)
    else if (ioregsel s =? IOAPIC_REG_VER) || (ioregsel s =? IOAPIC_REG_ARB) then (s, w)
    else
      let index := (ioregsel s - IOAPIC_REG_REDTBL_BASE) >>. 1 in
      if (0 <=? index) && (index <? IOAPIC_NUM_PINS) then
        let entry := aget (ioredtbl s) index in
        let s :=
          if truthy (ioregsel s &. 1) then
            set_ioredtbl (aset (ioredtbl s) index ((entry &. 0xffffffff) |. u64 (val <<. 32))) s
          else
            set_ioredtbl (aset (ioredtbl s) index (u64 (entry &. ~. 0xffffffff) |. val)) s in
        ioapic_service (s, w)
      else (s, w)
  else (s, w).

End Device.

(** ** Reset and initialisation *)

Definition ioapic_reset (s : IOAPICState) : IOAPICState :=
  let s := set_id 0 s in
  let s := set_ioregsel 0 s in
  let s := set_irr 0 s in
  set_ioredtbl (replicate (Z.to_nat IOAPIC_NUM_PINS) (1 <<. IOAPIC_LVT_MASKED_SHIFT)) s.

(** [ioapics[0]] when the device is allocated; a second I/O APIC is
    refused. *)
Definition ioapic_init1 (ioapics : option IOAPICState) : Z * option IOAPICState :=
  match ioapics with
  | Some s => (-1, Some s)
  | None => (0, Some (mkIOAPIC 0 0 0 (replicate (Z.to_nat IOAPIC_NUM_PINS) 0)))
  end.

Definition ioapic_post_load (version_id : Z) (s : IOAPICState) : Z * IOAPICState :=
  if version_id =? 1 then (0, set_irr 0 s) else (0, s).

(** ** Pins *)

(** Pin [k] has a request and is not masked. *)
Definition ready (s : IOAPICState) (k : Z) : bool :=
  truthy (irr s &. (1 <<. k)) && negb (truthy (aget (ioredtbl s) k &. IOAPIC_LVT_MASKED)).

Definition masked (entry : Z) : bool := Z.testbit entry 16.
Definition level_mode (entry : Z) : bool := Z.testbit entry 15.
Definition remote_irr (entry : Z) : bool := Z.testbit entry 14.
Definition vector_of (entry : Z) : Z := entry &. IOAPIC_VECTOR_MASK.

(** ISA line 0 is wired to pin 2. *)
Definition pin_of (line : Z) : Z := if line =? 0 then 2 else line.

Record wf (s : IOAPICState) : Prop := {
  wf_len : length (ioredtbl s) = 24%nat;
  wf_entry : forall k, is_u64 (aget (ioredtbl s) k);
  wf_irr : is_u32 (irr s)
}.

Lemma bit_truthy e i c : 0 <= i -> c = 1 <<. i -> truthy (e &. c) = Z.testbit e i.
Proof. intros Hi ->. by apply truthy_land_bit. Qed.

Lemma land_1_bit e i : 0 <= i -> (e >>. i) &. 1 = of_bool (Z.testbit e i).
Proof.
  intros. change 1 with (Z.ones 1) at 1. rewrite Z.land_ones by lia. change (2 ^ 1) with 2.
  rewrite <- Z.bit0_mod, Z.shiftr_spec, Z.add_0_l by lia. by destruct (Z.testbit e i).
Qed.

Lemma ready_bits s k : 0 <= k ->
  ready s k = Z.testbit (irr s) k && negb (masked (aget (ioredtbl s) k)).
Proof.
  intros. unfold ready. rewrite truthy_land_bit by done.
  by rewrite (bit_truthy _ 16) by (done || lia).
Qed.

Section Messages.

Context {W : Type}.
Context (apic_deliver_irq : Z -> Z -> Z -> Z -> Z -> Z -> W -> W).
Context (pic_read_irq : W -> Z * W).

Local Abbreviation service_pin := (service_pin apic_deliver_irq pic_read_irq).
Local Abbreviation ioapic_service := (ioapic_service apic_deliver_irq pic_read_irq).
Local Abbreviation ioapic_set_irq := (ioapic_set_irq apic_deliver_irq pic_read_irq).

(** The message that a redirection entry stands for; the vector of an
    ExtINT entry comes from the 8259 pair. *)
Definition sent (entry : Z) (w : W) : W :=
  let delivery_mode := (entry >>. IOAPIC_LVT_DELIV_MODE_SHIFT) &. IOAPIC_DM_MASK in
  let '(vector, w) :=
    if delivery_mode =? IOAPIC_DM_EXTINT then let '(v, w) := pic_read_irq w in (u8 v, w)
    else (vector_of entry, w) in
  apic_deliver_irq (u8 (entry >>. IOAPIC_LVT_DEST_SHIFT)) ((entry >>. IOAPIC_LVT_DEST_MODE_SHIFT) &. 1)
    delivery_mode vector ((entry >>. IOAPIC_LVT_POLARITY_SHIFT) &. 1)
    ((entry >>. IOAPIC_LVT_TRIGGER_MODE_SHIFT) &. 1) w.

(** How a pin remembers that its message was sent. *)
Definition served (s : IOAPICState) (i : Z) : IOAPICState :=
  let entry := aget (ioredtbl s) i in
  if level_mode entry then set_ioredtbl (aset (ioredtbl s) i (u64 (entry |. IOAPIC_LVT_REMOTE_IRR))) s
  else set_irr (u32 (irr s &. ~. (1 <<. i))) s.

Lemma service_pin_eq s w i :
  service_pin (s, w) i =
  if ready s i then (served s i, sent (aget (ioredtbl s) i) w) else (s, w).
Proof.
  unfold IOAPIC.service_pin, ready, served, sent, level_mode, vector_of. cbv zeta.
  destruct (truthy (irr s &. (1 <<. i))); cbn [andb]; [|done].
  destruct (negb _); [|done].
  assert (E := land_1_bit (aget (ioredtbl s) i) 15 ltac:(lia)).
  change IOAPIC_LVT_TRIGGER_MODE_SHIFT with 15. rewrite E.
  destruct (Z.testbit (aget (ioredtbl s) i) 15); cbn [of_bool Z.eqb IOAPIC_TRIGGER_EDGE];
    destruct (_ =? IOAPIC_DM_EXTINT); try destruct (pic_read_irq w); done.
Qed.

Lemma service_quiet l : forall s w, (forall k, k ∈ l -> ready s k = false) ->
  foldl service_pin (s, w) l = (s, w).
Proof.
  induction l as [|k l IH]; intros s w H; cbn [foldl]; [done|].
  rewrite service_pin_eq, H by left. apply IH. intros. apply H. by right.
Qed.

(** Serving a pin leaves the other pins as they were. *)
Lemma served_other s i k : wf s -> 0 <= i < 24 -> 0 <= k < 24 -> i <> k ->
  ready (served s i) k = ready s k /\ aget (ioredtbl (served s i)) k = aget (ioredtbl s) k.
Proof.
  intros H Hi Hk Hn. unfold served. cbv zeta. destruct (level_mode _).
  - unfold ready. cbn [set_ioredtbl irr ioredtbl]. by rewrite aget_aset_ne by lia.
  - cbn [set_irr ioredtbl]. split; [|done]. rewrite !ready_bits by lia. cbn [set_irr irr ioredtbl].
    rewrite wrap_testbit, testbit_clear by lia. zcases. done.
Qed.

Lemma pins_split p : 0 <= p < 24 -> seqZ 0 24 = seqZ 0 p ++ p :: seqZ (p + 1) (23 - p).
Proof.
  intros Hp. replace 24 with (p + (1 + (23 - p))) at 1 by lia. rewrite seqZ_app by lia. f_equal.
  rewrite Z.add_0_l, (seqZ_cons p) by lia. f_equal. f_equal; lia.
Qed.

(** When at most the pin [p] is ready, serving all pins serves that one. *)
Lemma service_one s w p : wf s -> 0 <= p < 24 ->
  (forall k, 0 <= k < 24 -> k <> p -> ready s k = false) ->
  ioapic_service (s, w) =
  if ready s p then (served s p, sent (aget (ioredtbl s) p) w) else (s, w).
Proof.
  intros Hwf Hp Hq. unfold IOAPIC.ioapic_service. change IOAPIC_NUM_PINS with 24.
  rewrite (pins_split p Hp).
  rewrite foldl_app. rewrite service_quiet.
  2: { intros k [Hk1 Hk2]%elem_of_seqZ. apply Hq; lia. }
  cbn [foldl]. rewrite service_pin_eq. destruct (ready s p).
  - apply service_quiet. intros k [Hk1 Hk2]%elem_of_seqZ.
    rewrite (proj1 (served_other s p k Hwf Hp ltac:(lia) ltac:(lia))). apply Hq; lia.
  - apply service_quiet. intros k [Hk1 Hk2]%elem_of_seqZ. apply Hq; lia.
Qed.

(** The request of pin [p] set. *)
Definition raised (s : IOAPICState) (p : Z) : IOAPICState := set_irr (irr s |. (1 <<. p)) s.

Lemma raised_ready s p k : 0 <= p -> 0 <= k ->
  ready (raised s p) k =
  ((p =? k) || Z.testbit (irr s) k) && negb (masked (aget (ioredtbl s) k)).
Proof.
  intros. rewrite ready_bits by done. cbn [raised set_irr irr ioredtbl].
  by rewrite testbit_set by done.
Qed.

Lemma raised_wf s p : wf s -> 0 <= p < 24 -> wf (raised s p).
Proof.
  intros [? ? ?] Hp. constructor; cbn; try done. apply is_uint_lor; [done| |lia].
  apply is_uint_bit. lia.
Qed.

Definition others_quiet (s : IOAPICState) (p : Z) : Prop :=
  forall k, 0 <= k < 24 -> k <> p -> ready s k = false.

Lemma raise_line s w line level : wf s -> 0 <= line < 24 -> truthy level = true ->
  others_quiet s (pin_of line) ->
  ioapic_set_irq line level (s, w) =
  let p := pin_of line in
  let e := aget (ioredtbl s) p in
  if masked e then (raised s p, w) else (served (raised s p) p, sent e w).
Proof.
  intros Hwf Hl Hlev Hq. unfold IOAPIC.ioapic_set_irq. cbv zeta. fold (pin_of line).
  set (p := pin_of line) in *. assert (Hp : 0 <= p < 24) by (subst p; unfold pin_of; zcases).
  change IOAPIC_NUM_PINS with 24. destruct (Z.leb_spec 0 p); [|lia]. destruct (Z.ltb_spec p 24); [|lia].
  cbn [andb]. rewrite Hlev. fold (raised s p).
  assert (E : ioapic_service (raised s p, w) =
    if masked (aget (ioredtbl s) p) then (raised s p, w)
    else (served (raised s p) p, sent (aget (ioredtbl s) p) w)).
  { rewrite (service_one (raised s p) w p (raised_wf s p Hwf Hp) Hp).
    - rewrite raised_ready, Z.eqb_refl by lia. cbn [orb andb raised set_irr ioredtbl]. by destruct (masked _).
    - intros k Hk Hne. rewrite raised_ready by lia. specialize (Hq k Hk Hne).
      rewrite ready_bits in Hq by lia. destruct (Z.eqb_spec p k); [lia|]. done. }
  by destruct (_ =? IOAPIC_TRIGGER_LEVEL).
Qed.


(** ** The end of a level-triggered interrupt *)

Lemma field_ext e e' k n m : 0 <= k -> is_uint n m -> 0 <= n ->
  (forall i, k <= i < k + n -> Z.testbit e i = Z.testbit e' i) ->
  (e >>. k) &. m = (e' >>. k) &. m.
Proof.
  intros Hk Hm Hn H. apply Z.bits_inj'. intros i Hi. rewrite !Z.land_spec, !Z.shiftr_spec by lia.
  destruct (Z.lt_ge_cases i n); [by rewrite H by lia|]. by rewrite (testbit_uint n m), !andb_false_r by (done || lia).
Qed.

(** The message does not depend on the remote IRR bit. *)
Lemma sent_ext e e' w : (forall i, 0 <= i -> i <> 14 -> Z.testbit e i = Z.testbit e' i) ->
  sent e w = sent e' w.
Proof.
  intros H. unfold sent, vector_of. cbv zeta.
  assert (F : forall k n m, 0 <= k -> is_uint n m -> 0 <= n -> (k + n <= 14 \/ 14 < k) ->
                (e >>. k) &. m = (e' >>. k) &. m)
    by (intros k n m ? ? ? Hr; apply (field_ext e e' k n); try done; intros; apply H; lia).
  rewrite (F IOAPIC_LVT_DELIV_MODE_SHIFT 3 IOAPIC_DM_MASK), (F IOAPIC_LVT_DEST_MODE_SHIFT 1 1),
    (F IOAPIC_LVT_POLARITY_SHIFT 1 1), (F IOAPIC_LVT_TRIGGER_MODE_SHIFT 1 1)
    by (unfold is_uint, IOAPIC_LVT_DELIV_MODE_SHIFT, IOAPIC_DM_MASK, IOAPIC_LVT_DEST_MODE_SHIFT,
          IOAPIC_LVT_POLARITY_SHIFT, IOAPIC_LVT_TRIGGER_MODE_SHIFT; lia).
  rewrite !(wrap_land 8) by lia.
  rewrite (F IOAPIC_LVT_DEST_SHIFT 8 (Z.ones 8))
    by (unfold is_uint, IOAPIC_LVT_DEST_SHIFT; change (Z.ones 8) with 255; lia).
  assert (V : e &. IOAPIC_VECTOR_MASK = e' &. IOAPIC_VECTOR_MASK).
  { specialize (F 0 8 IOAPIC_VECTOR_MASK). rewrite !Z.shiftr_0_r in F. apply F; unfold is_uint, IOAPIC_VECTOR_MASK; lia. }
  by rewrite V.
Qed.

(** A pin that an end of interrupt for [v] concerns. *)
Definition awaits (s : IOAPICState) (v k : Z) : bool :=
  remote_irr (aget (ioredtbl s) k) && (vector_of (aget (ioredtbl s) k) =? v).

(** Pin [p] with its remote IRR cleared. *)
Definition ended (s : IOAPICState) (p : Z) : IOAPICState :=
  set_ioredtbl (aset (ioredtbl s) p (u64 (aget (ioredtbl s) p &. ~. IOAPIC_LVT_REMOTE_IRR))) s.

Local Abbreviation eoi_pin := (eoi_pin apic_deliver_irq pic_read_irq).
Local Abbreviation ioapic_eoi_broadcast := (ioapic_eoi_broadcast apic_deliver_irq pic_read_irq).

Lemma eoi_pin_eq v s w k : 0 <= k ->
  eoi_pin v (s, w) k =
  if awaits s v k then
    if ready s k then ioapic_service (ended s k, w) else (ended s k, w)
  else (s, w).
Proof.
  intros Hk. unfold IOAPIC.eoi_pin, awaits, ready, vector_of, ended, remote_irr. cbv zeta.
  rewrite (bit_truthy _ 14) by (done || lia). cbn [set_ioredtbl irr].
  destruct (Z.testbit _ 14 && _); [|done]. by rewrite andb_comm.
Qed.

Lemma eoi_quiet v l : forall s w, (forall k, k ∈ l -> 0 <= k /\ awaits s v k = false) ->
  foldl (eoi_pin v) (s, w) l = (s, w).
Proof.
  induction l as [|k l IH]; intros s w H; cbn [foldl]; [done|].
  destruct (H k ltac:(left)) as [Hk Ha]. rewrite eoi_pin_eq, Ha by done. apply IH. intros. apply H. by right.
Qed.

Lemma ended_bits s p i : wf s -> 0 <= p < 24 -> 0 <= i < 64 ->
  Z.testbit (aget (ioredtbl (ended s p)) p) i = negb (14 =? i) && Z.testbit (aget (ioredtbl s) p) i.
Proof.
  intros H Hp Hi. cbn [ended set_ioredtbl ioredtbl]. rewrite aget_aset_eq by (rewrite (wf_len _ H); lia).
  rewrite wrap_testbit by lia. change IOAPIC_LVT_REMOTE_IRR with (1 <<. 14). by rewrite testbit_clear by lia.
Qed.

(** Changing the remote IRR of pin [p] keeps the state well formed and the
    other pins as they are. *)
Lemma wf_aset s p x : wf s -> 0 <= p < 24 -> is_u64 x -> wf (set_ioredtbl (aset (ioredtbl s) p x) s).
Proof.
  intros [H1 H2 H3] Hp Hx. constructor; cbn [set_ioredtbl ioredtbl irr]; [by rewrite length_aset| |done].
  intros k. destruct (Z.le_gt_cases 0 k).
  - destruct (Z.eq_dec p k) as [<-|]; [by rewrite aget_aset_eq by lia|by rewrite aget_aset_ne by lia].
  - replace (aget _ k) with (aget (aset (ioredtbl s) p x) 0)
      by (unfold aget; by replace (Z.to_nat k) with (Z.to_nat 0) by lia).
    destruct (Z.eq_dec p 0) as [->|]; [by rewrite aget_aset_eq by lia|by rewrite aget_aset_ne by lia].
Qed.

Lemma ended_ready s p k : wf s -> 0 <= p < 24 -> 0 <= k -> ready (ended s p) k = ready s k.
Proof.
  intros H Hp Hk. rewrite !ready_bits by done. unfold masked.
  change (irr (ended s p)) with (irr s). destruct (Z.eq_dec p k) as [<-|].
  - rewrite ended_bits by (done || lia). done.
  - unfold ended. cbn [set_ioredtbl ioredtbl]. by rewrite aget_aset_ne by lia.
Qed.

Lemma eoi_one s w v p : wf s -> 0 <= p < 24 -> others_quiet s p ->
  awaits s v p = true -> (forall k, 0 <= k < 24 -> k <> p -> awaits s v k = false) ->
  ioapic_eoi_broadcast v (Some s, w) =
  if ready s p then (Some (served (ended s p) p), sent (aget (ioredtbl s) p) w) else (Some (ended s p), w).
Proof.
  intros Hwf Hp Hq Ha Hn. unfold IOAPIC.ioapic_eoi_broadcast. change IOAPIC_NUM_PINS with 24.
  rewrite (pins_split p Hp).
  assert (We : wf (ended s p)) by (apply wf_aset; auto with cint).
  assert (No : forall k, 0 <= k < 24 -> k <> p -> awaits (ended s p) v k = false /\
                 awaits (served (ended s p) p) v k = false).
  { intros k Hk Hne. unfold awaits. rewrite (proj2 (served_other _ p k We Hp Hk ltac:(lia))).
    cbn [ended set_ioredtbl ioredtbl]. rewrite aget_aset_ne by lia. split; by apply Hn. }
  rewrite foldl_app, eoi_quiet by (intros k [? ?]%elem_of_seqZ; split; [lia|apply Hn; lia]).
  cbn [foldl]. rewrite eoi_pin_eq, Ha by lia. destruct (ready s p) eqn:R.
  - rewrite (service_one (ended s p) w p We Hp) by (intros k Hk Hne; rewrite ended_ready by (done || lia); by apply Hq).
    rewrite ended_ready, R by (done || lia).
    rewrite eoi_quiet by (intros k [? ?]%elem_of_seqZ; split; [lia|apply No; lia]).
    f_equal. apply sent_ext. intros i Hi Hne. destruct (Z.lt_ge_cases i 64).
    + rewrite ended_bits by (done || lia). zcases. done.
    + rewrite !(testbit_uint 64) by (try apply We; try apply Hwf; lia). done.
  - by rewrite eoi_quiet by (intros k [? ?]%elem_of_seqZ; split; [lia|apply No; lia]).
Qed.


(** ** What a line delivers *)

Lemma served_edge s p : level_mode (aget (ioredtbl s) p) = false -> 0 <= p < 24 ->
  Z.testbit (irr (served s p)) p = false /\ ioredtbl (served s p) = ioredtbl s.
Proof.
  intros E Hp. unfold served. cbv zeta. rewrite E. cbn [set_irr irr ioredtbl]. split; [|done].
  rewrite wrap_testbit, testbit_clear, Z.eqb_refl by lia. done.
Qed.

Lemma served_level s p : wf s -> level_mode (aget (ioredtbl s) p) = true -> 0 <= p < 24 ->
  irr (served s p) = irr s /\
  forall i, 0 <= i < 64 -> Z.testbit (aget (ioredtbl (served s p)) p) i =
                            (14 =? i) || Z.testbit (aget (ioredtbl s) p) i.
Proof.
  intros Hwf E Hp. unfold served. cbv zeta. rewrite E. cbn [set_ioredtbl irr ioredtbl]. split; [done|].
  intros i Hi. rewrite aget_aset_eq by (rewrite (wf_len _ Hwf); lia). rewrite wrap_testbit by lia.
  change IOAPIC_LVT_REMOTE_IRR with (1 <<. 14). by rewrite testbit_set by lia.
Qed.

Lemma served_wf s p : wf s -> 0 <= p < 24 -> wf (served s p).
Proof.
  intros H Hp. unfold served. cbv zeta. destruct (level_mode _).
  - apply wf_aset; auto with cint.
  - destruct H. constructor; cbn; auto with cint.
Qed.

Lemma lower_line s w line : 0 <= line < 24 ->
  let p := pin_of line in
  ioapic_set_irq line 0 (s, w) =
  (if level_mode (aget (ioredtbl s) p) then set_irr (u32 (irr s &. ~. (1 <<. p))) s else s, w).
Proof.
  intros Hl. cbv zeta. unfold IOAPIC.ioapic_set_irq. cbv zeta. fold (pin_of line). set (p := pin_of line).
  assert (Hp : 0 <= p < 24) by (subst p; unfold pin_of; zcases). change IOAPIC_NUM_PINS with 24.
  destruct (Z.leb_spec 0 p); [|lia]. destruct (Z.ltb_spec p 24); [|lia]. cbn [andb].
  unfold level_mode. rewrite land_1_bit by (unfold IOAPIC_LVT_TRIGGER_MODE_SHIFT; lia).
  change IOAPIC_LVT_TRIGGER_MODE_SHIFT with 15. by destruct (Z.testbit _ 15).
Qed.

(** Two well-formed entries of pin [p] that agree on their bits. *)
Lemma entry_restored s p : wf s -> 0 <= p < 24 ->
  level_mode (aget (ioredtbl s) p) = true -> remote_irr (aget (ioredtbl s) p) = true ->
  served (ended s p) p = s.
Proof.
  intros Hwf Hp Hl Hr.
  assert (We : wf (ended s p)) by (apply wf_aset; auto with cint).
  assert (Le : level_mode (aget (ioredtbl (ended s p)) p) = true)
    by (unfold level_mode in *; by rewrite ended_bits, Hl by (done || lia)).
  destruct (served_level (ended s p) p We Le Hp) as [_ B].
  assert (E : aget (ioredtbl (served (ended s p) p)) p = aget (ioredtbl s) p).
  { apply (uint_eq_bits 64); [lia|apply served_wf; done|apply Hwf|]. intros i Hi.
    rewrite B, ended_bits by (done || lia). destruct (Z.eqb_spec 14 i) as [<-|]; [|done]. by symmetry. }
  transitivity (set_ioredtbl (aset (ioredtbl s) p (aget (ioredtbl (served (ended s p) p)) p)) s).
  - unfold served. cbv zeta. rewrite Le. cbn [set_ioredtbl ioredtbl].
    rewrite aget_aset_eq by (rewrite (wf_len _ We); lia).
    unfold ended at 1 2. cbn [set_ioredtbl ioredtbl id ioregsel irr]. by rewrite aset_aset.
  - rewrite E, aset_aget by (rewrite (wf_len _ Hwf); lia). by destruct s.
Qed.

(** The state [s1] of a level-triggered line that was raised: its message
    was sent and is not acknowledged. *)
Record outstanding (s s1 : IOAPICState) (p : Z) : Prop := {
  os_wf : wf s1;
  os_ready : ready s1 p = true;
  os_level : level_mode (aget (ioredtbl s1) p) = true;
  os_remote : remote_irr (aget (ioredtbl s1) p) = true;
  os_same : forall i, 0 <= i -> i <> 14 ->
    Z.testbit (aget (ioredtbl s1) p) i = Z.testbit (aget (ioredtbl s) p) i;
  os_others : forall k, 0 <= k < 24 -> k <> p ->
    ready s1 k = false /\ aget (ioredtbl s1) k = aget (ioredtbl s) k
}.

Lemma raise_outstanding s p : wf s -> 0 <= p < 24 -> others_quiet s p ->
  masked (aget (ioredtbl s) p) = false -> level_mode (aget (ioredtbl s) p) = true ->
  outstanding s (served (raised s p) p) p.
Proof.
  intros Hwf Hp Hq M L. assert (Hw := raised_wf s p Hwf Hp).
  destruct (served_level (raised s p) p Hw L Hp) as [I B].
  change (ioredtbl (raised s p)) with (ioredtbl s) in B.
  assert (W1 : wf (served (raised s p) p)) by by apply served_wf.
  constructor; [done| | | | |].
  - rewrite ready_bits, I by lia. unfold masked in *. rewrite B, M by lia. cbn [raised set_irr irr].
    by rewrite testbit_set, Z.eqb_refl by lia.
  - unfold level_mode in *. rewrite B by lia. exact L.
  - unfold remote_irr. by rewrite B by lia.
  - intros i Hi Hne. destruct (Z.lt_ge_cases i 64).
    + rewrite B by lia. zcases. done.
    + rewrite !(testbit_uint 64) by (try apply W1; try apply Hwf; lia). done.
  - intros k Hk Hne. destruct (served_other (raised s p) p k Hw Hp Hk ltac:(lia)) as [-> ->].
    split; [|done]. specialize (Hq k Hk Hne).
    rewrite raised_ready, ready_bits in * by lia. destruct (Z.eqb_spec p k); [lia|done].
Qed.

Lemma outstanding_awaits s s1 s2 p v : outstanding s s1 p -> 0 <= p < 24 ->
  v = vector_of (aget (ioredtbl s) p) -> ioredtbl s2 = ioredtbl s1 ->
  (forall k, 0 <= k < 24 -> k <> p -> awaits s v k = false) ->
  awaits s2 v p = true /\ forall k, 0 <= k < 24 -> k <> p -> awaits s2 v k = false.
Proof.
  intros H Hp -> T Hn. unfold awaits in *. rewrite T. split.
  - rewrite (os_remote _ _ _ H). apply Z.eqb_eq. unfold vector_of. apply Z.bits_inj'. intros i Hi.
    rewrite !Z.land_spec. destruct (Z.eq_dec i 14) as [->|]; [by rewrite !andb_false_r|].
    by rewrite (os_same _ _ _ H).
  - intros k Hk Hne. rewrite (proj2 (os_others _ _ _ H k Hk Hne)). by apply Hn.
Qed.

(** Acknowledged while the line is still high, the message is sent again. *)
Lemma outstanding_again s s1 w p v : outstanding s s1 p -> 0 <= p < 24 ->
  v = vector_of (aget (ioredtbl s) p) ->
  (forall k, 0 <= k < 24 -> k <> p -> awaits s v k = false) ->
  ioapic_eoi_broadcast v (Some s1, w) = (Some s1, sent (aget (ioredtbl s) p) w).
Proof.
  intros H Hp Hv Hn. destruct (outstanding_awaits s s1 s1 p v H Hp Hv eq_refl Hn) as [A1 A2].
  rewrite (eoi_one s1 w v p (os_wf _ _ _ H) Hp (fun k Hk Hne => proj1 (os_others _ _ _ H k Hk Hne)) A1 A2).
  rewrite (os_ready _ _ _ H), entry_restored by (done || apply H).
  f_equal. apply sent_ext, H.
Qed.

(** Acknowledged after the line was lowered, it is not. *)
Lemma outstanding_done s s1 w p v : outstanding s s1 p -> 0 <= p < 24 ->
  v = vector_of (aget (ioredtbl s) p) ->
  (forall k, 0 <= k < 24 -> k <> p -> awaits s v k = false) ->
  let s2 := set_irr (u32 (irr s1 &. ~. (1 <<. p))) s1 in
  ioapic_eoi_broadcast v (Some s2, w) = (Some (ended s2 p), w) /\
  remote_irr (aget (ioredtbl (ended s2 p)) p) = false.
Proof.
  intros H Hp Hv Hn s2. destruct (outstanding_awaits s s1 s2 p v H Hp Hv eq_refl Hn) as [A1 A2].
  assert (W2 : wf s2) by (destruct (os_wf _ _ _ H); constructor; cbn; auto with cint).
  assert (Rd2 : forall k, 0 <= k < 24 -> ready s2 k = ready s1 k && negb (p =? k)).
  { intros k Hk. rewrite !ready_bits by lia. cbn [s2 set_irr irr ioredtbl].
    rewrite wrap_testbit, testbit_clear by lia. btauto. }
  split.
  - rewrite (eoi_one s2 w v p W2 Hp); [|intros k Hk Hne|done|done].
    + by rewrite Rd2, Z.eqb_refl, andb_false_r.
    + by rewrite Rd2, (proj1 (os_others _ _ _ H k Hk Hne)).
  - unfold remote_irr. by rewrite ended_bits by (done || lia).
Qed.

(** An ISA line raised while no other pin of the I/O APIC is ready.  If
    its pin is masked the request is held and nothing is sent.  An
    edge-triggered pin sends its message once: the request is consumed, and
    lowering the line does nothing.  A level-triggered pin sends its message
    and notes it as outstanding; when the end of interrupt for its vector
    arrives with the line still high the message is sent once more, and when
    the line was lowered first nothing is sent and the note is cleared. *)
Theorem ioapic_line_protocol s w line w1 :
  wf s -> 0 <= line < 24 ->
  let p := pin_of line in
  let e := aget (ioredtbl s) p in
  others_quiet s p ->
  (masked e = true -> ioapic_set_irq line 1 (s, w) = (raised s p, w)) /\
  (masked e = false -> level_mode e = false -> exists s1,
     ioapic_set_irq line 1 (s, w) = (s1, sent e w) /\
     Z.testbit (irr s1) p = false /\ ioredtbl s1 = ioredtbl s /\
     ioapic_set_irq line 0 (s1, w1) = (s1, w1)) /\
  (masked e = false -> level_mode e = true ->
   (forall k, 0 <= k < 24 -> k <> p -> awaits s (vector_of e) k = false) -> exists s1 s2 s3,
     ioapic_set_irq line 1 (s, w) = (s1, sent e w) /\
     remote_irr (aget (ioredtbl s1) p) = true /\
     ioapic_eoi_broadcast (vector_of e) (Some s1, w1) = (Some s1, sent e w1) /\
     ioapic_set_irq line 0 (s1, w1) = (s2, w1) /\
     ioapic_eoi_broadcast (vector_of e) (Some s2, w1) = (Some s3, w1) /\
     remote_irr (aget (ioredtbl s3) p) = false).
Proof.
  intros Hwf Hl p e Hq. pose proof (raise_line s w line 1 Hwf Hl eq_refl Hq) as Hr.
  cbv zeta in Hr. fold p e in Hr.
  assert (Hp : 0 <= p < 24) by (subst p; unfold pin_of; zcases). split; [|split].
  - intros M. by rewrite M in Hr.
  - intros M L. rewrite M in Hr. eexists. split; [exact Hr|].
    destruct (served_edge (raised s p) p L Hp) as [B T]. split; [done|]. split; [done|].
    rewrite lower_line by done. cbv zeta. fold p. rewrite T. change (ioredtbl (raised s p)) with (ioredtbl s).
    fold e. by rewrite L.
  - intros M L Hn. rewrite M in Hr. pose proof (raise_outstanding s p Hwf Hp Hq M L) as O.
    destruct (outstanding_done s _ w1 p _ O Hp eq_refl Hn) as [D1 D2].
    eexists _, _, _. split; [exact Hr|]. split; [apply O|].
    split; [by apply (outstanding_again s)|]. split; [|split; [exact D1|exact D2]].
    rewrite lower_line by done. cbv zeta. fold p. by rewrite (os_level _ _ _ O).
Qed.


(** ** The redirection table through the window *)

Local Abbreviation ioapic_mem_writel := (ioapic_mem_writel apic_deliver_irq pic_read_irq).

(** The register number of a word of entry [n]. *)
Definition redtbl (n : Z) (high : bool) : Z := IOAPIC_REG_REDTBL_BASE + 2 * n + of_bool high.

Lemma redtbl_index n high : 0 <= n < 24 ->
  (redtbl n high - IOAPIC_REG_REDTBL_BASE) >>. 1 = n /\
  truthy (redtbl n high &. 1) = high /\ 0x10 <= redtbl n high < 0x40.
Proof.
  intros Hn. unfold redtbl, IOAPIC_REG_REDTBL_BASE. rewrite Z.shiftr_div_pow2 by lia. change (2 ^ 1) with 2.
  split; [destruct high; cbn [of_bool]; dlia|]. split; [|destruct high; cbn [of_bool]; lia].
  change 1 with (Z.ones 1). rewrite Z.land_ones by lia. change (2 ^ 1) with 2. unfold truthy.
  destruct high; cbn [of_bool]; [replace ((0x10 + 2 * n + 1) mod 2) with 1 by dlia
                                |replace ((0x10 + 2 * n + 0) mod 2) with 0 by dlia]; done.
Qed.

(** Entry [n] after a word of it was written. *)
Definition merged (entry val : Z) (high : bool) : Z :=
  if high then (entry &. 0xffffffff) |. u64 (val <<. 32) else u64 (entry &. ~. 0xffffffff) |. val.

Lemma merged_eq entry val high : is_u64 entry -> is_u32 val ->
  merged entry val high =
  if high then val * 2 ^ 32 + entry mod 2 ^ 32 else entry / 2 ^ 32 * 2 ^ 32 + val.
Proof.
  intros He Hv. unfold is_uint in *. unfold merged. destruct high.
  - change 0xffffffff with (Z.ones 32). rewrite Z.land_ones, Z.lor_comm by lia.
    rewrite wrap_small by (rewrite Z.shiftl_mul_pow2 by lia; unfold is_uint; lia).
    apply shiftl_lor_add; [lia|]. apply Z.mod_pos_bound. lia.
  - assert (E : entry &. ~. 0xffffffff = (entry / 2 ^ 32) <<. 32).
    { rewrite <- Z.shiftr_div_pow2 by lia. change 0xffffffff with (Z.ones 32).
      rewrite <- Z.ldiff_land. apply Z.ldiff_ones_r. lia. }
    rewrite E, wrap_small.
    + apply shiftl_lor_add; [lia|]. unfold is_uint. lia.
    + rewrite Z.shiftl_mul_pow2 by lia. unfold is_uint. dlia.
Qed.

(** Selecting a register and writing it. *)
Definition write_entry (n : Z) (high : bool) (val : Z) (m : IOAPICState * W) : IOAPICState * W :=
  ioapic_mem_writel 0x10 val (ioapic_mem_writel 0x00 (redtbl n high) m).

Definition read_entry (n : Z) (high : bool) (m : IOAPICState * W) : Z :=
  ioapic_mem_readl 0x10 (ioapic_mem_writel 0x00 (redtbl n high) m).1.

Definition selected (n : Z) (high : bool) (x : Z) (s : IOAPICState) : IOAPICState :=
  set_ioredtbl (aset (ioredtbl s) n x) (set_ioregsel (redtbl n high) s).

Lemma write_entry_eq n high val s w : 0 <= n < 24 ->
  write_entry n high val (s, w) =
  ioapic_service (selected n high (merged (aget (ioredtbl s) n) val high) s, w).
Proof.
  intros Hn. destruct (redtbl_index n high Hn) as (I & B & R).
  unfold write_entry, IOAPIC.ioapic_mem_writel.
  change (0x00 &. 0xff =? IOAPIC_IOREGSEL) with true. change (0x10 &. 0xff =? IOAPIC_IOREGSEL) with false.
  change (0x10 &. 0xff =? IOAPIC_IOWIN) with true. cbv iota.
  rewrite (wrap_small 8) by (unfold is_uint; lia). cbn [set_ioregsel ioregsel].
  unfold IOAPIC_REG_ID, IOAPIC_REG_VER, IOAPIC_REG_ARB.
  destruct (Z.eqb_spec (redtbl n high) 0); [lia|]. destruct (Z.eqb_spec (redtbl n high) 1); [lia|].
  destruct (Z.eqb_spec (redtbl n high) 2); [lia|]. cbn [orb]. rewrite I, B.
  change IOAPIC_NUM_PINS with 24. destruct (Z.leb_spec 0 n); [|lia]. destruct (Z.ltb_spec n 24); [|lia].
  unfold selected, merged. by destruct high.
Qed.

Lemma read_entry_eq n high s w : 0 <= n < 24 ->
  read_entry n high (s, w) =
  if high then u32 (aget (ioredtbl s) n >>. 32) else aget (ioredtbl s) n &. 0xffffffff.
Proof.
  intros Hn. destruct (redtbl_index n high Hn) as (I & B & R).
  unfold read_entry, IOAPIC.ioapic_mem_writel, ioapic_mem_readl.
  change (0x00 &. 0xff =? IOAPIC_IOREGSEL) with true. change (0x10 &. 0xff =? IOAPIC_IOREGSEL) with false.
  change (0x10 &. 0xff =? IOAPIC_IOWIN) with true. cbv iota.
  rewrite (wrap_small 8) by (unfold is_uint; lia). cbn [set_ioregsel ioregsel fst].
  unfold IOAPIC_REG_ID, IOAPIC_REG_VER, IOAPIC_REG_ARB.
  destruct (Z.eqb_spec (redtbl n high) 0); [lia|]. destruct (Z.eqb_spec (redtbl n high) 1); [lia|].
  destruct (Z.eqb_spec (redtbl n high) 2); [lia|]. rewrite I, B.
  change IOAPIC_NUM_PINS with 24. destruct (Z.leb_spec 0 n); [|lia]. destruct (Z.ltb_spec n 24); [|lia].
  by destruct high.
Qed.

Lemma write_entry_quiet n high val s w : wf s -> 0 <= n < 24 -> is_u32 val -> others_quiet s n ->
  let e := merged (aget (ioredtbl s) n) val high in
  let s' := selected n high e s in
  wf s' /\ others_quiet s' n /\
  write_entry n high val (s, w) =
  if Z.testbit (irr s) n && negb (masked e) then (served s' n, sent e w) else (s', w).
Proof.
  intros Hwf Hn Hv Hq e s'.
  assert (He : is_u64 e).
  { pose proof (wf_entry _ Hwf n) as H. unfold e. rewrite merged_eq by done. unfold is_uint in *.
    destruct high; dlia. }
  assert (W' : wf s').
  { destruct (wf_aset s n e Hwf Hn He). by constructor. }
  assert (A : forall k, 0 <= k < 24 -> aget (ioredtbl s') k = if n =? k then e else aget (ioredtbl s) k).
  { intros k Hk. unfold s', selected. cbn [set_ioredtbl ioredtbl]. destruct (Z.eqb_spec n k) as [<-|].
    - rewrite aget_aset_eq; [done|]. rewrite (wf_len _ Hwf). lia.
    - by rewrite aget_aset_ne by lia. }
  assert (Q' : others_quiet s' n).
  { intros k Hk Hne. rewrite ready_bits, A by lia. destruct (Z.eqb_spec n k); [lia|].
    change (irr s') with (irr s). rewrite <- ready_bits by lia. by apply Hq. }
  split; [done|]. split; [done|]. rewrite write_entry_eq by done. fold e s'.
  rewrite (service_one s' w n W' Hn Q'), ready_bits, A, Z.eqb_refl by lia. done.
Qed.

(** Programming a redirection entry.  While the pin is masked, writing
    the high word and then the low word of an entry through the register window
    makes the entry [hi:lo] and reads back as these words.  A request that was
    held by the mask is sent by the write of the low word that unmasks it, once
    and with the new entry; otherwise nothing is sent. *)
Theorem ioapic_redirection_entry s w n lo hi :
  wf s -> 0 <= n < 24 -> others_quiet s n -> masked (aget (ioredtbl s) n) = true ->
  is_u32 lo -> is_u32 hi ->
  let e := hi * 2 ^ 32 + lo in
  let m := write_entry n false lo (write_entry n true hi (s, w)) in
  m.2 = (if Z.testbit (irr s) n && negb (masked e) then sent e w else w) /\
  (Z.testbit (irr s) n && negb (masked e) = false ->
     aget (ioredtbl m.1) n = e /\ read_entry n false m = lo /\ read_entry n true m = hi).
Proof.
  intros Hwf Hn Hq M Hlo Hhi e m.
  pose proof (wf_entry _ Hwf n) as He0. unfold is_uint in He0.
  destruct (write_entry_quiet n true hi s w Hwf Hn Hhi Hq) as (W1 & Q1 & E1).
  set (e1 := merged (aget (ioredtbl s) n) hi true) in *. set (s1 := selected n true e1 s) in *.
  assert (V1 : e1 = hi * 2 ^ 32 + aget (ioredtbl s) n mod 2 ^ 32) by (by apply merged_eq).
  assert (M1 : masked e1 = true).
  { unfold masked in *. rewrite <- (Z.mod_pow2_bits_low e1 32 16) by lia.
    rewrite V1, Z.add_comm, Z_mod_plus_full, Zmod_mod, Z.mod_pow2_bits_low by lia. exact M. }
  rewrite M1, andb_false_r in E1. unfold m. rewrite E1.
  assert (A1 : aget (ioredtbl s1) n = e1).
  { unfold s1, selected. cbn [set_ioredtbl ioredtbl]. apply aget_aset_eq. cbn. rewrite (wf_len _ Hwf). lia. }
  destruct (write_entry_quiet n false lo s1 w W1 Hn Hlo Q1) as (W2 & Q2 & E2).
  assert (U1 : is_u64 e1) by (rewrite <- A1; apply W1). rewrite A1 in W2, Q2, E2.
  assert (V2 : merged e1 lo false = e).
  { rewrite merged_eq by done. unfold e. rewrite V1. unfold is_uint in *. dlia. }
  rewrite V2 in W2, Q2, E2. change (irr s1) with (irr s) in E2. rewrite E2.
  destruct (Z.testbit (irr s) n && negb (masked e)); [done|].
  set (s2 := selected n false e s1) in *. cbn [fst snd]. split; [done|]. intros _.
  assert (A2 : aget (ioredtbl s2) n = e).
  { unfold s2, selected. cbn [set_ioredtbl ioredtbl]. apply aget_aset_eq. rewrite (wf_len _ W1). lia. }
  rewrite !read_entry_eq, A2 by done. unfold is_uint in *. split; [done|].
  change 0xffffffff with (Z.ones 32). rewrite Z.land_ones, Z.shiftr_div_pow2 by lia. unfold wrap, e.
  split; dlia.
Qed.

End Messages.


(** ** An I/O APIC on a bus that logs the vectors sent *)

Definition demo_deliver (dest dm delivery v pol t : Z) (w : list Z) : list Z := v :: w.
Definition demo_read (w : list Z) : Z * list Z := (0, w).

Lemma entries_wf e s : is_u64 e -> is_u32 (irr s) -> ioredtbl s = replicate 24 e -> wf s.
Proof.
  intros He Hi E. constructor; rewrite ?E; [done| |done]. intros k. unfold aget. rewrite nth_lookup.
  destruct (replicate 24 e !! Z.to_nat k) eqn:L; cbn; [|apply is_uint_0; lia].
  by apply lookup_replicate in L as [-> _].
Qed.

(** Every pin level-triggered with vector 0x33; pin 5 is masked in the
    second. *)
Definition demo_level : IOAPICState := mkIOAPIC 0 0 0 (replicate 24 0x8033).
Definition demo_masked : IOAPICState := mkIOAPIC 0 0 (1 <<. 5) (replicate 24 0x18033).

Lemma ioapic_line_protocol_witness : exists s1 s2 s3,
  ioapic_set_irq demo_deliver demo_read 5 1 (demo_level, []) = (s1, [0x33]) /\
  ioapic_eoi_broadcast demo_deliver demo_read 0x33 (Some s1, [0x33]) = (Some s1, [0x33; 0x33]) /\
  ioapic_set_irq demo_deliver demo_read 5 0 (s1, [0x33]) = (s2, [0x33]) /\
  ioapic_eoi_broadcast demo_deliver demo_read 0x33 (Some s2, [0x33]) = (Some s3, [0x33]).
Proof.
  destruct (ioapic_line_protocol demo_deliver demo_read demo_level [] 5 [0x33]) as (_ & _ & H).
  - apply (entries_wf 0x8033); [vm_compute; split; congruence|vm_compute; split; congruence|reflexivity].
  - lia.
  - intros k Hk _. by apply (below_spec 24 (fun k => negb (ready demo_level k)) k), negb_true_iff in Hk.
  - destruct H as (s1 & s2 & s3 & A & _ & B & C & D & _); [reflexivity|reflexivity| |].
    + intros k Hk _. by apply (below_spec 24 (fun k => negb (awaits demo_level 0x33 k)) k), negb_true_iff in Hk.
    + exists s1, s2, s3. split; [exact A|]. split; [exact B|]. split; [exact C|exact D].
Defined.

Lemma ioapic_redirection_entry_witness :
  (write_entry demo_deliver demo_read 5 false 0x44
     (write_entry demo_deliver demo_read 5 true 0x01000000 (demo_masked, []))).2 = [0x44].
Proof.
  refine (proj1 (ioapic_redirection_entry demo_deliver demo_read demo_masked [] 5 0x44 0x01000000 _ _ _ _ _ _));
    try (vm_compute; split; congruence); try reflexivity.
  - apply (entries_wf 0x18033); [vm_compute; split; congruence|vm_compute; split; congruence|reflexivity].
  - intros k Hk _. by apply (below_spec 24 (fun k => negb (ready demo_masked k)) k), negb_true_iff in Hk.
Defined.

End IOAPIC.
