(* ===== verification/Pc.v ===== *)
(** * The interrupt wiring of the PC (src/qemu/hw/pc.c)

    Puts the 8259 pair, the I/O APIC and the local APICs together the way
    [pc_init1] wires them: an ISA line drives the input of the 8259 and the pin
    of the I/O APIC of the same number ([isa_irq_handler]); the output of the
    8259 goes to the LINT0 input of every local APIC that accepts it
    ([pic_irq_request]); a processor asks its local APIC first and the 8259
    after it ([cpu_get_pic_interrupt]).

    The 8259 raises its output in the middle of its operations, but the
    handlers behind it never call back into the 8259, so that an operation of
    I8259.v is run first and the levels it sent are handled after it, in order
    ([with_pic]).

    The theorems: an ISA line reaches the processor as the vector that the
    8259 was programmed with, through either chip of the pair; it reaches the
    processor named by the I/O APIC's redirection entry as the vector of that
    entry; and the I/O APIC keeps the promise that the local APICs rely on. *)
From S2P Require Import Prelude I8259 APIC IOAPIC.
From stdpp Require Import list.

#[local] Open Scope Z_scope.
#[local] Open Scope c_scope.

Module Pc.

(** ** State *)

(** [cpu0] is [first_cpu] of a machine whose processors have no APIC. *)
Record Core := mkCore { bus : APIC.Bus; cpu0 : APIC.CPUState; pic : I8259.PicState2 }.

Definition set_bus (b : APIC.Bus) (c : Core) : Core := mkCore b (cpu0 c) (pic c).

Record Machine := mkMachine { core : Core; ioapic : option IOAPIC.IOAPICState }.

(** ** The output of the 8259 pair *)

(** One iteration of the loop over the processors. *)
Definition pic_irq_request1 (level : Z) (b : APIC.Bus) (i : Z) : APIC.Bus :=
  if truthy (APIC.apic_accept_pic_intr (APIC.apic_at b i))
  then APIC.on_apic i (APIC.apic_deliver_pic_intr level) b else b.

Definition pic_irq_request (level : Z) (c : Core) : Core :=
  match APIC.local_apics (bus c) with
  | [] =>
      mkCore (bus c)
        (if truthy level then APIC.cpu_interrupt APIC.CPU_INTERRUPT_HARD (cpu0 c)
         else APIC.cpu_reset_interrupt APIC.CPU_INTERRUPT_HARD (cpu0 c)) (pic c)
  | _ =>
      set_bus (foldl (pic_irq_request1 level) (bus c)
                 (seqZ 0 (Z.of_nat (length (APIC.local_apics (bus c)))))) c
  end.

Definition no_log (p : I8259.PicState2) : I8259.PicState2 :=
  I8259.mkPic2 (I8259.pic0 p) (I8259.pic1 p) [].

(** The pair is now in the state [p], and sent the levels of its log. *)
Definition after_pic (p : I8259.PicState2) (c : Core) : Core :=
  foldr pic_irq_request
    (mkCore (bus c) (cpu0 c)
       (I8259.mkPic2 (I8259.pic0 p) (I8259.pic1 p) (I8259.parent_log p ++ I8259.parent_log (pic c))))
    (I8259.parent_log p).

(** An operation of the 8259 pair, with the levels it sends. *)
Definition with_pic {A} (op : I8259.PicState2 -> A * I8259.PicState2) (c : Core) : A * Core :=
  let '(a, p) := op (no_log (pic c)) in (a, after_pic p c).

Definition with_pic_ (op : I8259.PicState2 -> I8259.PicState2) (c : Core) : Core :=
  snd (with_pic (fun p => (tt, op p)) c).

(** ** The callees of the I/O APIC *)

Definition apic_deliver_irq (dest dest_mode delivery_mode vector_num polarity trigger_mode : Z)
    (c : Core) : Core :=
  set_bus (APIC.apic_deliver_irq dest dest_mode delivery_mode vector_num polarity trigger_mode (bus c)) c.

Definition pic_read_irq : Core -> Z * Core := with_pic I8259.pic_read_irq.

Abbreviation ioapic_set_irq := (IOAPIC.ioapic_set_irq apic_deliver_irq pic_read_irq).

(** ** ISA lines *)

Definition isa_irq_handler (n level : Z) (m : Machine) : Machine :=
  let c := if n <? 16 then with_pic_ (I8259.i8259_set_irq n (truthy level)) (core m) else core m in
  match ioapic m with
  | Some s => let '(s, c) := ioapic_set_irq n level (s, c) in mkMachine c (Some s)
  | None => mkMachine c None
  end.

(** [ferr_irq] is line 13. *)
Definition cpu_set_ferr (m : Machine) : Machine := isa_irq_handler 13 1 m.
Definition ioportF0_write (addr data : Z) (m : Machine) : Machine := isa_irq_handler 13 0 m.

(** ** The processor's request for a vector *)

Definition cpu_get_pic_interrupt (i : Z) (m : Machine) : Z * Machine :=
  let c := core m in
  let '(intno, d) := APIC.apic_get_interrupt (APIC.apic_at (bus c) i) in
  let c := match d with
           | Some s => set_bus (APIC.on_apic i (APIC.pure (fun _ => s)) (bus c)) c
           | None => c
           end in
  if 0 <=? intno then (intno, mkMachine (with_pic_ I8259.pic_update_irq c) (ioapic m))
  else if negb (truthy (APIC.apic_accept_pic_intr (APIC.apic_at (bus c) i))) then (-1, mkMachine c (ioapic m))
  else let '(intno, c) := pic_read_irq c in (intno, mkMachine c (ioapic m)).

(** ** The local APICs' callee *)

(** [ioapic_eoi_broadcast], on the bus and the rest of the machine. *)
Definition eoi_broadcast (vector : Z)
    (w : APIC.Bus * (APIC.CPUState * I8259.PicState2 * option IOAPIC.IOAPICState)) :
    APIC.Bus * (APIC.CPUState * I8259.PicState2 * option IOAPIC.IOAPICState) :=
  let '(b, (cpu, p, io)) := w in
  let '(io, c) := IOAPIC.ioapic_eoi_broadcast apic_deliver_irq pic_read_irq vector (io, mkCore b cpu p) in
  (bus c, (cpu0 c, pic c, io)).

Definition apic_mem_writel (cur : option Z) (now addr val : Z) (m : Machine) : Machine :=
  let c := core m in
  let '(b, (cpu, p, io)) :=
    APIC.apic_mem_writel eoi_broadcast cur now addr val (bus c, (cpu0 c, pic c, ioapic m)) in
  mkMachine (mkCore b cpu p) io.

Definition ioapic_mem_writel (addr val : Z) (m : Machine) : Machine :=
  match ioapic m with
  | Some s =>
      let '(s, c) := IOAPIC.ioapic_mem_writel apic_deliver_irq pic_read_irq addr val (s, core m) in
      mkMachine c (Some s)
  | None => m
  end.

(** The ports of the 8259 pair. *)
Definition pic_ioport_write (i : bool) (addr val : Z) (m : Machine) : option Machine :=
  p ← I8259.pic_ioport_write i addr val (no_log (pic (core m)));
  Some (mkMachine (after_pic p (core m)) (ioapic m)).

Definition pic_ioport_read (i : bool) (addr : Z) (m : Machine) : Z * Machine :=
  let '(v, c) := with_pic (I8259.pic_ioport_read i addr) (core m) in (v, mkMachine c (ioapic m)).

(** ** Port 0x92 *)

Record Port92State := mkPort92 { outport : Z; a20_out : Z; reset_requests : Z }.

Definition port92_write (addr val : Z) (s : Port92State) : Port92State :=
  mkPort92 (u8 val) ((val >>. 1) &. 1) (reset_requests s + if truthy (val &. 1) then 1 else 0).

Definition port92_read (addr : Z) (s : Port92State) : Z := outport s.

Definition port92_reset (s : Port92State) : Port92State :=
  mkPort92 (outport s &. ~. 1) (a20_out s) (reset_requests s).

(** ** The output of the 8259 and the local APICs *)

(** What the LINT0 input does to an APIC that accepts it. *)
Definition lint0 (level : Z) (s : APIC.APICState) (d : Z) : APIC.APICState * Z :=
  if truthy (APIC.apic_accept_pic_intr (Some s)) then APIC.apic_deliver_pic_intr level s d else (s, d).

Lemma pic_irq_request1_eq level b i : pic_irq_request1 level b i = APIC.on_apic i (lint0 level) b.
Proof.
  unfold pic_irq_request1, lint0, APIC.on_apic. destruct (APIC.apic_at b i) as [s|] eqn:E.
  - destruct (truthy _); [done|]. unfold APIC.apic_at in E. rewrite list_insert_id by done. by destruct b.
  - by destruct (truthy _).
Qed.

Lemma set_irq_local v t : APIC.local_code (APIC.apic_set_irq v t).
Proof. done. Qed.

Lemma lint0_local level : APIC.local_code (lint0 level).
Proof.
  intros s d d'. unfold lint0, APIC.apic_deliver_pic_intr, APIC.apic_local_deliver. cbv zeta.
  repeat case_match; done.
Qed.

Lemma pic_irq_request_at level c i : APIC.local_apics (bus c) <> [] -> 0 <= i ->
  APIC.apic_at (bus (pic_irq_request level c)) i =
  (fun a => (lint0 level a 0).1) <$> APIC.apic_at (bus c) i.
Proof.
  intros Hne Hi. set (n := length (APIC.local_apics (bus c))).
  assert (E : bus (pic_irq_request level c) =
    foldl (fun b k => if (fun _ => true) k then APIC.on_apic k (lint0 level) b else b) (bus c) (seqZ 0 (Z.of_nat n))).
  { unfold pic_irq_request. fold n. destruct (APIC.local_apics (bus c)); [done|]. cbn [set_bus bus].
    apply foldl_ext_in. intros b k _. apply pic_irq_request1_eq. }
  rewrite E. etransitivity; [apply (APIC.foldl_on_apic (fun _ => true) (lint0 level) (seqZ 0 (Z.of_nat n)));
    [apply lint0_local|apply NoDup_seqZ|apply Forall_forall; by intros k [? _]%elem_of_seqZ|done]|].
  destruct (APIC.apic_at (bus c) i) as [a|] eqn:A; [|done]. cbn [fmap option_fmap option_map].
    rewrite bool_decide_eq_true_2; [done|]. apply elem_of_seqZ. apply lookup_lt_Some in A. lia.
Qed.

(** The LINT0 entry as the firmware leaves it on the boot processor: not
    masked and in the ExtINT delivery mode. *)
Definition virtual_wire (a : APIC.APICState) : Prop :=
  let e := aget (APIC.lvt a) APIC.APIC_LVT_LINT0 in
  truthy (e &. APIC.APIC_LVT_MASKED) = false /\ (e >>. 8) &. 7 = APIC.APIC_DM_EXTINT.

Lemma virtual_wire_accepts a : virtual_wire a -> APIC.apic_accept_pic_intr (Some a) = 1.
Proof.
  intros [H _]. unfold APIC.apic_accept_pic_intr. cbv zeta. unfold truthy in H.
  apply negb_false_iff in H. rewrite H. by rewrite orb_true_r.
Qed.

Lemma virtual_wire_raise a : virtual_wire a ->
  (lint0 1 a 0).1 = APIC.on_cpu (APIC.cpu_interrupt APIC.CPU_INTERRUPT_HARD) a.
Proof.
  intros H. unfold lint0. rewrite virtual_wire_accepts by done. destruct H as [H1 H2].
  unfold APIC.apic_deliver_pic_intr, APIC.apic_local_deliver. cbn [truthy Z.eqb negb].
  rewrite H1, H2. done.
Qed.

(** ** The choice of the 8259 pair *)

(** Line [r] of a chip: it is not masked, it is edge-triggered and was low,
    and it comes before every request and every interrupt in service. *)
Record free_line (slave : bool) (p : I8259.PicState) (r : Z) : Prop := {
  fl_range : 0 <= r < 8;
  fl_unmasked : Z.testbit (I8259.imr p) r = false;
  fl_edge : Z.testbit (I8259.elcr p) r = false;
  fl_low : Z.testbit (I8259.last_irr p) r = false;
  fl_requests : forall r', 0 <= r' < 8 -> I8259.requested p r' = true -> I8259.dist p r <= I8259.dist p r';
  fl_service : forall r', 0 <= r' < 8 -> I8259.in_service slave p r' = true ->
    I8259.dist p r < I8259.dist p r'
}.

(** A pulse or a rising edge on a free line is chosen. *)
Lemma raise_chosen slave p r : I8259.wf_pic p -> free_line slave p r ->
  I8259.chosen slave (I8259.pic_set_irq1 r true p) r.
Proof.
  intros Hwf H. destruct H as [Hr Hm He Hl Hq Hs].
  destruct (I8259.set_irq1_own p r Hr true) as [E _]. rewrite He, Hl, orb_true_r in E.
  assert (Ho := fun r' => I8259.set_irq1_other p r Hr true r').
  destruct (I8259.set_irq1_frame p r true) as (v & w & F). rewrite F in *. cbn in E, Ho.
  split; [done|]. split; [unfold I8259.requested; cbn; by rewrite E, Hm|]. split; intros r' Hr' Hb.
  - destruct (Z.eq_dec r' r) as [->|Hne]; [done|]. apply Hq; [done|].
    unfold I8259.requested in *. cbn in Hb. by rewrite (proj1 (Ho r' Hr' Hne)) in Hb.
  - by apply Hs.
Qed.

Lemma lower_chosen slave p r : I8259.wf_pic p -> 0 <= r < 8 -> Z.testbit (I8259.elcr p) r = false ->
  I8259.chosen slave p r -> I8259.chosen slave (I8259.pic_set_irq1 r false p) r.
Proof.
  intros Hwf Hr He (_ & H1 & H2 & H3).
  destruct (I8259.set_irq1_own p r Hr false) as [E _]. rewrite He, orb_false_r in E.
  assert (Ho := fun r' => I8259.set_irq1_other p r Hr false r').
  destruct (I8259.set_irq1_frame p r false) as (v & w & F). rewrite F in *. cbn in E, Ho.
  assert (Q : forall r', 0 <= r' < 8 -> I8259.requested (I8259.set_last_irr v (I8259.set_irr w p)) r' = I8259.requested p r').
  { intros r' Hr'. unfold I8259.requested. cbn. destruct (Z.eq_dec r' r) as [->|Hne]; [by rewrite E|].
    by rewrite (proj1 (Ho r' Hr' Hne)). }
  split; [done|]. split; [by rewrite Q|]. split; intros r' Hr' Hb.
  - apply H2; [done|]. by rewrite <- Q.
  - by apply H3.
Qed.

Lemma chosen_get slave p r : I8259.wf_pic p -> I8259.chosen slave p r -> I8259.pic_get_irq slave p = r.
Proof. intros Hwf Hc. by apply (I8259.pic_get_irq_spec slave p Hwf). Qed.

(** Line [n] of the pair; a line of the slave also needs the cascade. *)
Definition line_free (p : I8259.PicState2) (n : Z) : Prop :=
  if n <? 8 then
    n <> 2 /\ free_line false (I8259.pic0 p) n /\ I8259.pic_get_irq true (I8259.pic1 p) < 0
  else free_line true (I8259.pic1 p) (n - 8) /\ free_line false (I8259.pic0 p) 2.

Definition line_vector (p : I8259.PicState2) (n : Z) : Z :=
  if n <? 8 then I8259.irq_base (I8259.pic0 p) + n else I8259.irq_base (I8259.pic1 p) + (n - 8).

Lemma set_irq1_base r l p : I8259.irq_base (I8259.pic_set_irq1 r l p) = I8259.irq_base p.
Proof. destruct (I8259.set_irq1_frame p r l) as (v & w & ->). done. Qed.

Lemma intack_base r p : I8259.irq_base (I8259.pic_intack r p) = I8259.irq_base p.
Proof. unfold I8259.pic_intack. repeat case_match; done. Qed.

(** Acknowledging returns the vector of the chosen line. *)
Lemma read_irq_master p n : I8259.pic_get_irq false (I8259.pic0 p) = n -> 0 <= n -> n <> 2 ->
  fst (I8259.pic_read_irq p) = I8259.irq_base (I8259.pic0 p) + n.
Proof.
  intros E Hn H2. unfold I8259.pic_read_irq. rewrite E. destruct (Z.leb_spec 0 n); [|lia].
  destruct (Z.eqb_spec n 2); [done|]. cbn. by rewrite intack_base.
Qed.

Lemma read_irq_slave p n : I8259.pic_get_irq false (I8259.pic0 p) = 2 ->
  I8259.pic_get_irq true (I8259.pic1 p) = n -> 0 <= n ->
  fst (I8259.pic_read_irq p) = I8259.irq_base (I8259.pic1 p) + n.
Proof.
  intros E1 E2 Hn. unfold I8259.pic_read_irq. rewrite E1. cbn [Z.leb Z.compare Z.eqb Pos.eqb].
  cbn [I8259.upd I8259.set_pics I8259.pic1]. rewrite E2. destruct (Z.leb_spec 0 n); [|lia].
  cbn. by rewrite intack_base.
Qed.

(** Raising a free line raises the output once, and the acknowledge that
    follows returns the line's vector. *)
Lemma raise_line_pic p n : I8259.wf p -> 0 <= n < 16 -> line_free p n ->
  let p' := I8259.i8259_set_irq n true (no_log p) in
  I8259.parent_log p' = [1] /\ fst (I8259.pic_read_irq (no_log p')) = line_vector p n.
Proof.
  intros [W0 W1] Hn H. unfold line_free, line_vector in *. cbv zeta. unfold I8259.i8259_set_irq.
  rewrite Z.shiftr_div_pow2, land_7 by lia. change (2 ^ 3) with 8.
  destruct (Z.ltb_spec n 8).
  - destruct H as (H2 & HF & HS).
    assert ((0 <? n / 8) = false) as -> by (apply Z.ltb_ge; dlia). replace (n mod 8) with n by dlia.
    set (q := I8259.upd false (I8259.pic_set_irq1 n true) (no_log p)).
    assert (G : I8259.pic_get_irq false (I8259.pic0 q) = n).
    { apply chosen_get; [by apply I8259.pic_set_irq1_wf|by apply raise_chosen]. }
    assert (U : I8259.pic_update_irq q = I8259.qemu_set_parent 1 q).
    { unfold I8259.pic_update_irq. change (I8259.pic1 q) with (I8259.pic1 p).
      destruct (Z.leb_spec 0 (I8259.pic_get_irq true (I8259.pic1 p))); [lia|]. rewrite G.
      destruct (Z.leb_spec 0 n); [done|lia]. }
    rewrite U. split; [done|]. rewrite (read_irq_master _ n); [|done|lia|done]. cbn. by rewrite set_irq1_base.
  - destruct H as (HS & HF).
    assert ((0 <? n / 8) = true) as -> by (apply Z.ltb_lt; dlia). replace (n mod 8) with (n - 8) by dlia.
    set (q := I8259.upd true (I8259.pic_set_irq1 (n - 8) true) (no_log p)).
    assert (W1' : I8259.wf_pic (I8259.pic1 q)) by by apply I8259.pic_set_irq1_wf.
    assert (G1 : I8259.pic_get_irq true (I8259.pic1 q) = n - 8) by (apply chosen_get; [done|by apply raise_chosen]).
    set (q0 := I8259.pic_set_irq1 2 false (I8259.pic_set_irq1 2 true (I8259.pic0 p))).
    assert (G0 : I8259.pic_get_irq false q0 = 2).
    { assert (Wa : I8259.wf_pic (I8259.pic_set_irq1 2 true (I8259.pic0 p))) by by apply I8259.pic_set_irq1_wf.
      apply chosen_get; [by apply I8259.pic_set_irq1_wf|].
      apply lower_chosen; [done|lia| |by apply raise_chosen].
      destruct (I8259.set_irq1_frame (I8259.pic0 p) 2 true) as (v & w & ->). apply HF. }
    assert (U : I8259.pic_update_irq q = I8259.mkPic2 q0 (I8259.pic1 q) [1]).
    { unfold I8259.pic_update_irq. rewrite G1. destruct (Z.leb_spec 0 (n - 8)); [|lia].
      cbn [I8259.upd I8259.set_pics I8259.pics I8259.pic0 I8259.pic1 q no_log]. fold q0. rewrite G0. done. }
    rewrite U. split; [done|]. rewrite (read_irq_slave _ (n - 8)); [|done|done|lia]. cbn. by rewrite set_irq1_base.
Qed.

(** ** From an ISA line to the boot processor through the 8259 *)

(** The boot processor's pending hardware interrupt. *)
Definition hard_requested (c : Core) : bool :=
  let env := match APIC.apic_at (bus c) 0 with Some a => APIC.cpu_env a | None => cpu0 c end in
  truthy (APIC.interrupt_request env &. APIC.CPU_INTERRUPT_HARD).

(** The boot processor takes its interrupts from the 8259: it has no APIC,
    or one in virtual wire mode with no interrupt of its own to deliver. *)
Definition takes_extint (c : Core) : Prop :=
  match APIC.apic_at (bus c) 0 with
  | None => True
  | Some a =>
      virtual_wire a /\
      (truthy (APIC.spurious_vec a &. APIC.APIC_SV_ENABLE) = false \/ APIC.apic_irq_pending a = 0)
  end.

(** The I/O APIC, if there is one, holds line [n]. *)
Definition ioapic_holds (io : option IOAPIC.IOAPICState) (n : Z) : Prop :=
  match io with
  | None => True
  | Some s =>
      IOAPIC.wf s /\ IOAPIC.others_quiet s (IOAPIC.pin_of n) /\
      IOAPIC.masked (aget (IOAPIC.ioredtbl s) (IOAPIC.pin_of n)) = true
  end.

Lemma hard_bit x : truthy ((x |. APIC.CPU_INTERRUPT_HARD) &. APIC.CPU_INTERRUPT_HARD) = true.
Proof.
  change APIC.CPU_INTERRUPT_HARD with (1 <<. 1). rewrite truthy_land_bit, testbit_set by lia. done.
Qed.

Lemma request_boot c : takes_extint c ->
  hard_requested (pic_irq_request 1 c) = true /\ takes_extint (pic_irq_request 1 c) /\
  pic (pic_irq_request 1 c) = pic c.
Proof.
  intros H. unfold hard_requested, takes_extint in *.
  assert (P : pic (pic_irq_request 1 c) = pic c) by (unfold pic_irq_request; by destruct (APIC.local_apics (bus c))).
  rewrite P. destruct (APIC.local_apics (bus c)) as [|a0 l] eqn:E.
  - assert (N : APIC.apic_at (bus c) 0 = None) by (unfold APIC.apic_at; by rewrite E).
    unfold pic_irq_request. rewrite E. cbn [bus cpu0]. rewrite N. split; [apply hard_bit|done].
  - rewrite pic_irq_request_at by (rewrite ?E; done). 
    assert (N : APIC.apic_at (bus c) 0 = Some a0) by (unfold APIC.apic_at; by rewrite E).
    rewrite N in *. cbn [fmap option_fmap option_map]. destruct H as [V Hp].
    rewrite virtual_wire_raise by done. split; [apply hard_bit|]. split; [|done].
    split; [exact V|]. exact Hp.
Qed.

Lemma get_interrupt_extint m : takes_extint (core m) ->
  fst (cpu_get_pic_interrupt 0 m) = fst (I8259.pic_read_irq (no_log (pic (core m)))).
Proof.
  intros H. unfold cpu_get_pic_interrupt, takes_extint in *.
  assert (R : forall c, pic c = pic (core m) ->
    fst (pic_read_irq c) = fst (I8259.pic_read_irq (no_log (pic (core m))))).
  { intros c E. unfold pic_read_irq, with_pic. rewrite E. fold (no_log (pic (core m))).
    by destruct (I8259.pic_read_irq _). }
  destruct (APIC.apic_at (bus (core m)) 0) as [a|] eqn:A.
  - destruct H as [V Hp].
    assert (G : APIC.apic_get_interrupt (Some a) = (-1, Some a)).
    { unfold APIC.apic_get_interrupt. destruct (truthy _) eqn:On; cbn [negb]; [|done].
      destruct Hp as [Hp|Hp]; [congruence|]. by rewrite Hp. }
    rewrite G. cbn [Z.leb Z.compare set_bus bus]. rewrite (APIC.at_on_apic_eq 0 _ _ a) by done.
    cbn [APIC.pure fst]. rewrite virtual_wire_accepts by done. cbn [truthy Z.eqb negb].
    match goal with |- context [pic_read_irq ?c] => specialize (R c eq_refl); destruct (pic_read_irq c) end.
    done.
  - cbn [APIC.apic_get_interrupt Z.leb Z.compare]. rewrite A. cbn [APIC.apic_accept_pic_intr truthy Z.eqb negb].
    specialize (R (core m) eq_refl). by destruct (pic_read_irq (core m)).
Qed.

(** C16: an ISA line through the 8259 pair.  Raising a line that is free (not
    masked, low before, and ahead of everything requested and in service, at
    both chips for a line of the slave) while the I/O APIC holds its pin makes
    the hardware interrupt of the boot processor pending, and when the
    processor asks for the vector it gets the vector base programmed for the
    line's chip plus the number of the line on that chip. *)
Theorem isa_line_via_pic m n :
  0 <= n < 16 -> I8259.wf (pic (core m)) -> line_free (pic (core m)) n ->
  takes_extint (core m) -> ioapic_holds (ioapic m) n ->
  let m1 := isa_irq_handler n 1 m in
  hard_requested (core m1) = true /\
  fst (cpu_get_pic_interrupt 0 m1) = line_vector (pic (core m)) n.
Proof.
  intros Hn Hwf Hf Ht Hio m1.
  destruct (raise_line_pic (pic (core m)) n Hwf Hn Hf) as [L V]. cbv zeta in *.
  set (p' := I8259.i8259_set_irq n true (no_log (pic (core m)))) in *.
  set (c0 := mkCore (bus (core m)) (cpu0 (core m))
     (I8259.mkPic2 (I8259.pic0 p') (I8259.pic1 p') (1 :: I8259.parent_log (pic (core m))))).
  assert (C : core m1 = pic_irq_request 1 c0).
  { unfold m1, isa_irq_handler. destruct (Z.ltb_spec n 16); [|lia].
    assert (E : with_pic_ (I8259.i8259_set_irq n (truthy 1)) (core m) = pic_irq_request 1 c0).
    { unfold with_pic_, with_pic. change (truthy 1) with true.
      fold p'. cbn [snd]. unfold after_pic. rewrite L. done. }
    rewrite E. unfold ioapic_holds in Hio. destruct (ioapic m) as [s|]; [|done].
    destruct Hio as (Wi & Q & M).
    rewrite (IOAPIC.raise_line apic_deliver_irq pic_read_irq s _ n 1 Wi ltac:(lia) eq_refl Q).
    cbv zeta. by rewrite M. }
  assert (T0 : takes_extint c0) by done.
  destruct (request_boot c0 T0) as (H1 & H2 & H3).
  rewrite get_interrupt_extint, C by (by rewrite C). split; [done|]. rewrite H3. exact V.
Qed.

(** ** The I/O APIC as the local APICs' host *)

(** Between [b] and [b'] the APIC of index [i] had interrupts delivered and
    nothing else happened to it. *)
Definition only_delivered (i : Z) (b b' : APIC.Bus) : Prop :=
  forall a, APIC.apic_at b i = Some a -> APIC.wf a ->
  exists a', APIC.apic_at b' i = Some a' /\ APIC.delivered_to a a'.

#[local] Instance only_delivered_preorder i : PreOrder (only_delivered i).
Proof.
  split.
  - intros b a E W. exists a. split; [done|by apply APIC.delivered_refl].
  - intros b1 b2 b3 H1 H2 a E W. destruct (H1 a E W) as (a2 & E2 & D2).
    destruct (H2 a2 E2 (APIC.delivered_wf _ _ W D2)) as (a3 & E3 & D3).
    exists a3. split; [done|by apply (APIC.delivered_trans _ a2)].
Qed.

Lemma lint0_delivers a d : APIC.wf a -> APIC.delivered_to a (lint0 1 a d).1.
Proof.
  intros W. unfold lint0. destruct (truthy _); [by apply APIC.local_deliver_delivered|by apply APIC.delivered_refl].
Qed.

Lemma request_delivers i c : 0 <= i -> only_delivered i (bus c) (bus (pic_irq_request 1 c)).
Proof.
  intros Hi a E W. rewrite pic_irq_request_at; [|intros N; unfold APIC.apic_at in E; by rewrite N in E|done].
  rewrite E. cbn [fmap option_fmap option_map]. eexists. split; [done|by apply lint0_delivers].
Qed.

Lemma requests_deliver i l c : 0 <= i -> Forall (fun x => x = 1) l ->
  only_delivered i (bus c) (bus (foldr pic_irq_request c l)).
Proof.
  intros Hi. induction 1 as [|x l -> _ IH]; cbn [foldr]; [reflexivity|].
  etransitivity; [exact IH|]. by apply request_delivers.
Qed.

(** On this machine the 8259 pair only ever raises its output. *)
Lemma update_log p : exists l, I8259.parent_log (I8259.pic_update_irq p) = l ++ I8259.parent_log p /\
  Forall (fun x => x = 1) l.
Proof.
  unfold I8259.pic_update_irq. destruct (0 <=? I8259.pic_get_irq true (I8259.pic1 p));
    (destruct (0 <=? _); [exists [1]; split; [done|by repeat constructor]|exists []; by split]).
Qed.

Lemma read_irq_log p : exists l, I8259.parent_log (I8259.pic_read_irq p).2 = l ++ I8259.parent_log p /\
  Forall (fun x => x = 1) l.
Proof.
  unfold I8259.pic_read_irq. destruct (0 <=? _); [destruct (_ =? 2); [destruct (0 <=? _)|]|];
    cbn [snd]; match goal with |- context [I8259.pic_update_irq ?q] => destruct (update_log q) as (l & E & F) end;
    rewrite E; exists l; by split.
Qed.

Lemma read_irq_delivers i c : 0 <= i -> only_delivered i (bus c) (bus (pic_read_irq c).2).
Proof.
  intros Hi. unfold pic_read_irq, with_pic.
  destruct (read_irq_log (no_log (pic c))) as (l & E & F).
  destruct (I8259.pic_read_irq _) as [v p]. cbn [snd no_log I8259.parent_log] in *. rewrite app_nil_r in E. unfold after_pic. rewrite E.
  by apply (requests_deliver i l (mkCore (bus c) (cpu0 c) _)).
Qed.

Lemma service_pin_delivers i s c k : 0 <= i ->
  only_delivered i (bus c) (bus (IOAPIC.service_pin apic_deliver_irq pic_read_irq (s, c) k).2).
Proof.
  intros Hi. unfold IOAPIC.service_pin. cbv zeta. destruct (truthy _); [|reflexivity].
  destruct (negb _); [|reflexivity].
  assert (M : forall dest dm dl v pol t c0, is_u8 v ->
            only_delivered i (bus c0) (bus (apic_deliver_irq dest dm dl v pol t c0))).
  { intros dest dm dl v pol t c0 Hv a E W. by apply APIC.message_delivers. }
  destruct (_ =? IOAPIC.IOAPIC_DM_EXTINT).
  - pose proof (read_irq_delivers i c Hi) as R. destruct (pic_read_irq c) as [v c1]. cbn [snd] in *.
    etransitivity; [exact R|]. apply M. apply wrap_range. lia.
  - apply M. apply is_uint_land_r; [unfold is_uint, IOAPIC.IOAPIC_VECTOR_MASK|]; lia.
Qed.

Lemma foldl_delivers {S} (step : S * Core -> Z -> S * Core) i l :
  (forall m k, only_delivered i (bus m.2) (bus (step m k).2)) ->
  forall m, only_delivered i (bus m.2) (bus (foldl step m l).2).
Proof.
  intros H. induction l as [|k l IH]; intros m; cbn [foldl]; [reflexivity|].
  etransitivity; [apply H|apply IH].
Qed.

Lemma service_delivers i m : 0 <= i ->
  only_delivered i (bus m.2) (bus (IOAPIC.ioapic_service apic_deliver_irq pic_read_irq m).2).
Proof. intros Hi. apply foldl_delivers. intros [s c] k. by apply service_pin_delivers. Qed.

(** Discharges the promise of the I/O APIC to the local APICs. *)
#[export] Instance eoi_broadcast_host : APIC.EoiHost eoi_broadcast (fun _ => True).
Proof.
  constructor. intros v w i s _ Hv Hi E W. destruct w as [b [[cpu p] io]]. unfold eoi_broadcast. cbn [fst] in *.
  unfold IOAPIC.ioapic_eoi_broadcast. destruct io as [io|].
  - assert (F : only_delivered i b (bus (foldl (IOAPIC.eoi_pin apic_deliver_irq pic_read_irq v)
                  (io, mkCore b cpu p) (seqZ 0 IOAPIC.IOAPIC_NUM_PINS)).2)).
    { apply (foldl_delivers (IOAPIC.eoi_pin apic_deliver_irq pic_read_irq v) i _) with (m := (io, mkCore b cpu p)).
      intros [s0 c] k. unfold IOAPIC.eoi_pin. cbv zeta. destruct (_ && _); [|reflexivity].
      destruct (_ && _); [|reflexivity].
      match goal with |- context [IOAPIC.ioapic_service _ _ ?m] => exact (service_delivers i m Hi) end. }
    destruct (foldl _ _ _) as [io' c']. cbn [fst snd] in *. by apply F.
  - cbn. exists s. split; [done|by apply APIC.delivered_refl].
Qed.

(** C14: in the machine, a local APIC with its processor is a priority stack.
    Over any sequence of requests, acknowledgements, ends of interrupt and
    changes of the task priority, whatever the I/O APIC delivers when an
    interrupt ends, the APIC of index [i] answers as the stack does: an
    acknowledgement takes the greatest request if its class is above the task
    priority and above everything in service, and answers the spurious vector or
    -1 otherwise; an end of interrupt removes the vector taken last; the vectors
    in service are always nested, each of a higher class than those below it.
    The vectors requested are 16 or more, as the architecture demands. *)
Theorem apic_priority_stack i spur w es w' p :
  0 <= i -> APIC.shows i spur w p ->
  APIC.c_steps eoi_broadcast (fun _ => True) i w es w' ->
  exists p', APIC.p_steps (spur &. 0xff) p es p' /\ APIC.shows i spur w' p'.
Proof. intros Hi H R. exact (APIC.priority_stack eoi_broadcast (fun _ => True) i Hi spur w es w' p H R). Qed.

(** ** A machine *)

(** Two processors after reset, their APICs enabled by software, and the
    8259 pair initialised by the firmware with the vector bases 0x08 and 0x70. *)
Abbreviation demo_cpu := APIC.demo_cpu.
Abbreviation demo_bus := APIC.demo_bus.

Definition demo_pic_ops : list I8259.pic_op :=
  [I8259.PortWrite false 0 0x11; I8259.PortWrite false 1 0x08; I8259.PortWrite false 1 0x04;
   I8259.PortWrite false 1 0x01; I8259.PortWrite true 0 0x11; I8259.PortWrite true 1 0x70;
   I8259.PortWrite true 1 0x02; I8259.PortWrite true 1 0x01].

Definition run_ops (ops : list I8259.pic_op) : I8259.PicState2 :=
  foldl (fun s o => default s (I8259.run_op o s)) I8259.i8259_init ops.

Lemma run_ops_wf ops : Forall I8259.op_ok ops -> I8259.wf (run_ops ops).
Proof.
  intros H. apply I8259.reachable_is_wf. unfold run_ops.
  assert (G : forall s, I8259.reachable s ->
    I8259.reachable (foldl (fun s o => default s (I8259.run_op o s)) s ops)).
  { induction H as [|o ops Ho _ IH]; intros s Hs; cbn [foldl]; [done|]. apply IH.
    destruct (I8259.run_op o s) as [s'|] eqn:E; [|done]. by apply (I8259.reach_op s o). }
  apply G, I8259.reach_init.
Qed.

Definition demo_pic : I8259.PicState2 := run_ops demo_pic_ops.

Lemma demo_pic_wf : I8259.wf demo_pic.
Proof. apply run_ops_wf. repeat (apply Forall_cons; split; [vm_compute; split; congruence|]). by apply Forall_nil. Qed.

Definition demo_ioapic : IOAPIC.IOAPICState :=
  IOAPIC.ioapic_reset (IOAPIC.mkIOAPIC 0 0 0 (replicate 24 0)).

Definition demo : Machine := mkMachine (mkCore demo_bus (demo_cpu 0) demo_pic) (Some demo_ioapic).

(** A request and its service nested in those of a lower class. *)
Definition demo_events : list APIC.event :=
  [APIC.Request 0x31 0; APIC.Accept 0x31; APIC.Request 0x52 0; APIC.Accept 0x52;
   APIC.Accept (-1); APIC.Eoi; APIC.Eoi].

Lemma legal_check a : below 16 (fun v => negb (APIC.vec (APIC.irr a) v)) = true -> APIC.legal a.
Proof. intros H v Hv. apply (below_spec 16 _ v) in H; [|lia]. by apply negb_true_iff in H. Qed.

Lemma demo_shows : APIC.shows 0 0x1ff (demo_bus, (demo_cpu 0, demo_pic, Some demo_ioapic)) (APIC.mkP [] [] 0).
Proof.
  eexists. split; [vm_compute; reflexivity|]. split; [|done].
  assert (T : APIC.tab_ok (replicate 8 0)) by apply APIC.tab_ok_empty.
  assert (V : forall v, APIC.vec (replicate 8 0) v = true <-> v ∈ @nil Z)
    by (intros v; rewrite APIC.vec_empty, elem_of_nil; done).
  constructor; cbn [APIC.req APIC.serv APIC.task].
  - constructor; [exact T|exact T|exact T|by apply is_uint_0].
  - reflexivity.
  - intros v _. exact (V v).
  - intros v _. exact (V v).
  - reflexivity.
  - by apply Forall_nil.
  - constructor.
Qed.

Lemma apic_priority_stack_witness :
  exists (w' : APIC.Bus * (APIC.CPUState * I8259.PicState2 * option IOAPIC.IOAPICState)) p',
  APIC.p_steps 0xff (APIC.mkP [] [] 0) demo_events p' /\ APIC.shows 0 0x1ff w' p'.
Proof.
  eexists.
  apply (apic_priority_stack 0 0x1ff (demo_bus, (demo_cpu 0, demo_pic, Some demo_ioapic)) demo_events);
    [lia|exact demo_shows|].
  eapply APIC.c_cons; [exact I|apply APIC.c_request; vm_compute; split; congruence|vm_compute; reflexivity
    |apply legal_check; vm_compute; reflexivity|].
  do 6 (eapply APIC.c_cons; [exact I
    |first [eapply APIC.c_accept; [vm_compute; reflexivity|vm_compute; reflexivity]
           |eapply (APIC.c_eoi _ _ _ 0 0)|apply APIC.c_request; vm_compute; split; congruence]
    |vm_compute; reflexivity|apply legal_check; vm_compute; reflexivity|]).
  apply APIC.c_nil.
Defined.

Lemma isa_line_via_pic_witness :
  hard_requested (core (isa_irq_handler 8 1 demo)) = true /\
  fst (cpu_get_pic_interrupt 0 (isa_irq_handler 8 1 demo)) = 0x70.
Proof.
  apply (isa_line_via_pic demo 8); [lia|exact demo_pic_wf| | |].
  - assert (F : forall slave p, I8259.irr p = 0 -> I8259.isr p = 0 -> I8259.imr p = 0 ->
      I8259.elcr p = 0 -> I8259.last_irr p = 0 -> forall r, 0 <= r < 8 -> free_line slave p r).
    { intros slave p E1 E2 E3 E4 E5 r Hr. constructor; rewrite ?E3, ?E4, ?E5; try apply Z.bits_0; [done| |];
        intros r' _; unfold I8259.requested, I8259.in_service; rewrite ?E1, ?E2, Z.bits_0; done. }
    split; apply F; try reflexivity; lia.
  - split; [split; reflexivity|right; reflexivity].
  - split; [|split; [|reflexivity]].
    + apply (IOAPIC.entries_wf 0x10000); [vm_compute; split; congruence|vm_compute; split; congruence|reflexivity].
    + intros k Hk _. apply (below_spec 24 (fun k => negb (IOAPIC.ready demo_ioapic k)) k) in Hk as R;
        [by apply negb_true_iff in R|reflexivity].
Defined.

(** ** From an ISA line to a processor through the I/O APIC *)

Lemma masked_quiet slave p : I8259.wf_pic p -> I8259.imr p = 0xff -> I8259.pic_get_irq slave p = -1.
Proof.
  intros W M. destruct (I8259.pic_get_irq_spec slave p W) as (H1 & _ & H3). cbv zeta in *.
  destruct (Z.lt_ge_cases (I8259.pic_get_irq slave p) 0) as [|H]; [by apply H3|].
  destruct (H1 ltac:(lia)) as (R & Q & _). unfold I8259.requested in Q. rewrite M in Q.
  change 0xff with (Z.ones 8) in Q. rewrite testbit_ones in Q by lia.
  destruct (Z.ltb_spec (I8259.pic_get_irq slave p) 8); [|lia]. by rewrite andb_false_r in Q.
Qed.

(** With both chips masked a line does not reach the output of the pair. *)
Lemma masked_line n level c : I8259.wf (pic c) ->
  I8259.imr (I8259.pic0 (pic c)) = 0xff -> I8259.imr (I8259.pic1 (pic c)) = 0xff ->
  bus (with_pic_ (I8259.i8259_set_irq n level) c) = bus c.
Proof.
  intros [W0 W1] M0 M1. unfold with_pic_, with_pic, I8259.i8259_set_irq.
  set (q := I8259.upd _ _ _).
  assert (Q : I8259.wf q /\ I8259.imr (I8259.pic0 q) = 0xff /\ I8259.imr (I8259.pic1 q) = 0xff /\
              I8259.parent_log q = []).
  { assert (Fr : forall r p, I8259.imr (I8259.pic_set_irq1 r level p) = I8259.imr p)
      by (intros r p; destruct (I8259.set_irq1_frame p r level) as (v & w & ->); done).
    unfold q, I8259.upd, I8259.set_pics, I8259.pics. destruct (0 <? _); cbn; rewrite Fr;
      (split; [split; cbn; try done; by apply I8259.pic_set_irq1_wf|done]). }
  destruct Q as ([Q0 Q1] & N0 & N1 & L).
  assert (U : I8259.pic_update_irq q = q)
    by (unfold I8259.pic_update_irq; by rewrite (masked_quiet true), (masked_quiet false)).
  rewrite U. cbn [snd]. unfold after_pic. by rewrite L.
Qed.

(** C17: an ISA line through the I/O APIC.  With the 8259 pair masked and the
    other pins of the I/O APIC quiet, raising a line whose redirection entry is not masked and has the fixed delivery mode
    requests the vector of the entry at every local APIC that the entry's
    destination names, and leaves every other APIC as it is.  A processor among them whose APIC is
    enabled and idle has its hardware interrupt pending, and gets that vector
    when it asks for it. *)
Theorem isa_line_via_ioapic m s n j a :
  0 <= n < 24 -> I8259.wf (pic (core m)) ->
  I8259.imr (I8259.pic0 (pic (core m))) = 0xff -> I8259.imr (I8259.pic1 (pic (core m))) = 0xff ->
  ioapic m = Some s -> IOAPIC.wf s -> IOAPIC.others_quiet s (IOAPIC.pin_of n) ->
  let e := aget (IOAPIC.ioredtbl s) (IOAPIC.pin_of n) in
  IOAPIC.masked e = false -> (e >>. 8) &. 7 = 0 ->
  APIC.bus_ok (bus (core m)) -> 0 <= j -> APIC.apic_at (bus (core m)) j = Some a ->
  let m1 := isa_irq_handler n 1 m in
  let named := APIC.named (u8 (e >>. 56)) ((e >>. 11) &. 1) a in
  APIC.apic_at (bus (core m1)) j =
    Some (if named then (APIC.apic_set_irq (IOAPIC.vector_of e) ((e >>. 15) &. 1) a 0).1 else a) /\
  (named = true -> APIC.idle_for a (IOAPIC.vector_of e) ->
   fst (cpu_get_pic_interrupt j m1) = IOAPIC.vector_of e /\
   exists a1, APIC.apic_at (bus (core m1)) j = Some a1 /\
     truthy (APIC.interrupt_request (APIC.cpu_env a1) &. APIC.CPU_INTERRUPT_HARD) = true).
Proof.
  intros Hn Wp M0 M1 Eio Wi Q e Me Dm Hb Hj Ea m1 named.
  set (c0 := if n <? 16 then with_pic_ (I8259.i8259_set_irq n (truthy 1)) (core m) else core m).
  assert (B0 : bus c0 = bus (core m)) by (unfold c0; destruct (n <? 16); [by apply masked_line|done]).
  assert (C : bus (core m1) = APIC.apic_deliver_irq (u8 (e >>. 56)) ((e >>. 11) &. 1) 0
                (IOAPIC.vector_of e) ((e >>. 13) &. 1) ((e >>. 15) &. 1) (bus (core m))).
  { unfold m1, isa_irq_handler. fold c0. rewrite Eio.
    rewrite (IOAPIC.raise_line apic_deliver_irq pic_read_irq s c0 n 1 Wi Hn eq_refl Q).
    cbv zeta. fold e. rewrite Me. cbn [core]. unfold IOAPIC.sent. cbv zeta.
    change IOAPIC.IOAPIC_LVT_DELIV_MODE_SHIFT with 8. change IOAPIC.IOAPIC_DM_MASK with 7. rewrite Dm.
    cbn [Z.eqb IOAPIC.IOAPIC_DM_EXTINT]. unfold apic_deliver_irq, set_bus. cbn [bus]. by rewrite B0. }
  assert (D : APIC.apic_at (bus (core m1)) j =
    Some (if named then (APIC.apic_set_irq (IOAPIC.vector_of e) ((e >>. 15) &. 1) a 0).1 else a)).
  { rewrite C, (APIC.deliver_irq_at _ _ _ _ _ _ _ j a Hb) by (done || apply wrap_range; lia).
    cbn [Z.eqb APIC.APIC_DM_LOWPRI negb orb]. rewrite andb_true_r. done. }
  split; [done|]. intros Nm Id. rewrite Nm in D.
  destruct (APIC.idle_takes a (IOAPIC.vector_of e) ((e >>. 15) &. 1) Id) as [G H].
  split; [|by eexists]. unfold cpu_get_pic_interrupt. rewrite D.
  destruct (APIC.apic_get_interrupt _) as [v d]. cbn [fst] in G. subst v.
  pose proof (APIC.idle_vector _ _ Id). destruct (Z.leb_spec 0 (IOAPIC.vector_of e)); [|lia].
  by destruct d.
Qed.

(** The machine in APIC mode: the 8259 pair masked, line 4 redirected to the
    second processor with vector 0x61. *)
Definition demo_apic : Machine :=
  mkMachine
    (mkCore demo_bus (demo_cpu 0)
       (run_ops (demo_pic_ops ++ [I8259.PortWrite false 1 0xff; I8259.PortWrite true 1 0xff])))
    (Some (IOAPIC.set_ioredtbl (replicate 24 0x0100000000000061) demo_ioapic)).

Lemma isa_line_via_ioapic_witness :
  fst (cpu_get_pic_interrupt 1 (isa_irq_handler 4 1 demo_apic)) = 0x61.
Proof.
  assert (W : APIC.tab_ok (replicate 8 0)) by apply APIC.tab_ok_empty.
  assert (N : APIC.bus_ok demo_bus).
  { split; [vm_compute; lia|]. vm_compute. repeat constructor; rewrite ?elem_of_cons, ?elem_of_nil; intuition congruence. }
  refine (proj1 (proj2 (isa_line_via_ioapic demo_apic
    (IOAPIC.set_ioredtbl (replicate 24 0x0100000000000061) demo_ioapic) 4 1 _
    _ _ _ _ _ _ _ _ _ N _ eq_refl) _ _)); try reflexivity; try lia.
  - apply run_ops_wf. repeat (apply Forall_cons; split; [vm_compute; split; congruence|]). by apply Forall_nil.
  - apply (IOAPIC.entries_wf 0x0100000000000061); [vm_compute; split; congruence|vm_compute; split; congruence|reflexivity].
  - intros k Hk _. by apply (below_spec 24 (fun k => negb (IOAPIC.ready
      (IOAPIC.set_ioredtbl (replicate 24 0x0100000000000061) demo_ioapic) k)) k), negb_true_iff in Hk.
  - constructor; try reflexivity; [constructor; try done; by apply is_uint_0|intros w _; apply APIC.vec_empty|vm_compute; split; congruence].
Defined.

End Pc.
