(* ===== verification/QDict.v ===== *)
(** * Dictionaries of the management protocol (src/qemu/qdict.c)

    A [qdict A] is the source's structure: the number of entries and 512
    buckets, each a list of key and value, the newest entry first.  A key is a
    C string, a [list Z] of its bytes without the final 0.  Reference counts
    and the freeing of memory are not part of the model.  A look-up that the
    source asserts to succeed is an [option].

    The theorems: the hash table behaves as the finite map it represents under
    insertion, replacement and deletion; its size is the number of keys; both
    ways of iterating visit every entry once. *)
From S2P Require Import Prelude.
From stdpp Require Import list gmap.

#[local] Open Scope Z_scope.
#[local] Open Scope c_scope.

Module QDict.

(** ** The structure and its operations *)

Abbreviation key := (list Z).

Definition QDICT_BUCKET_MAX : Z := 512.

Record qdict (A : Type) := mkQDict { size : Z; table : list (list (key * A)) }.
Arguments mkQDict {A} size table.
Arguments size {A} _.
Arguments table {A} _.

Section Dict.

Context {A : Type}.
Implicit Types (d : qdict A) (k : key) (v : A).

Definition qdict_new : qdict A := mkQDict 0 (replicate (Z.to_nat QDICT_BUCKET_MAX) []).

(** The loop of [tdb_hash], from position [i] on. *)
Fixpoint hash_loop (value i : Z) (name : key) : Z :=
  match name with
  | [] => value
  | c :: name' => hash_loop (u32 (value + (c <<. (i * 5 mod 24)))) (i + 1) name'
  end.

Definition tdb_hash (name : key) : Z :=
  let value := u32 (0x238F13AF * Z.of_nat (length name)) in
  u32 (1103515243 * hash_loop value 0 name + 12345).

Definition bucket_of (k : key) : Z := tdb_hash k mod QDICT_BUCKET_MAX.

Definition bucket (d : qdict A) (b : Z) : list (key * A) := default [] (table d !! Z.to_nat b).
Definition set_bucket (b : Z) (l : list (key * A)) (d : qdict A) : qdict A :=
  mkQDict (size d) (<[Z.to_nat b := l]> (table d)).

Fixpoint find_entry (l : list (key * A)) (k : key) : option A :=
  match l with
  | [] => None
  | (k', v) :: l' => if bool_decide (k' = k) then Some v else find_entry l' k
  end.

Definition qdict_find (d : qdict A) (k : key) (b : Z) : option A := find_entry (bucket d b) k.

(** [entry->value = value] for the first entry of key [k]. *)
Fixpoint replace_entry (l : list (key * A)) (k : key) (v : A) : list (key * A) :=
  match l with
  | [] => []
  | (k', v') :: l' => if bool_decide (k' = k) then (k', v) :: l' else (k', v') :: replace_entry l' k v
  end.

(** [QLIST_REMOVE] of the first entry of key [k]. *)
Fixpoint remove_entry (l : list (key * A)) (k : key) : list (key * A) :=
  match l with
  | [] => []
  | (k', v') :: l' => if bool_decide (k' = k) then l' else (k', v') :: remove_entry l' k
  end.

Definition qdict_put_obj (d : qdict A) (k : key) (v : A) : qdict A :=
  let b := bucket_of k in
  match qdict_find d k b with
  | Some _ => set_bucket b (replace_entry (bucket d b) k v) d
  | None =>
      let d := set_bucket b ((k, v) :: bucket d b) d in
      mkQDict (size d + 1) (table d)
  end.

Definition qdict_get (d : qdict A) (k : key) : option A := qdict_find d k (bucket_of k).

Definition qdict_haskey (d : qdict A) (k : key) : Z :=
  match qdict_find d k (bucket_of k) with None => 0 | Some _ => 1 end.

Definition qdict_size (d : qdict A) : Z := size d.

Definition qdict_del (d : qdict A) (k : key) : qdict A :=
  let b := bucket_of k in
  match qdict_find d k b with
  | Some _ =>
      let d := set_bucket b (remove_entry (bucket d b) k) d in
      mkQDict (size d - 1) (table d)
  | None => d
  end.

(** [qdict_iter] with the function [iter] on a state [S]. *)
Definition qdict_iter {S} (iter : key -> A -> S -> S) (d : qdict A) (s : S) : S :=
  foldl (fun s l => foldl (fun s e => iter e.1 e.2 s) s l) s (table d).

(** The first entry of the buckets [first_bucket], [first_bucket + 1], ...  An
    entry is identified by the list of entries of its bucket that starts with
    it, from which [QLIST_NEXT] is read. *)
Fixpoint first_nonempty (ls : list (list (key * A))) : option (list (key * A)) :=
  match ls with
  | [] => None
  | [] :: ls' => first_nonempty ls'
  | l :: _ => Some l
  end.

Definition qdict_next_entry (d : qdict A) (first_bucket : Z) : option (list (key * A)) :=
  first_nonempty (drop (Z.to_nat first_bucket) (table d)).

Definition qdict_first (d : qdict A) : option (list (key * A)) := qdict_next_entry d 0.

Definition qdict_next (d : qdict A) (entry : list (key * A)) : option (list (key * A)) :=
  match entry with
  | [] => None
  | [(k, _)] => qdict_next_entry d (bucket_of k + 1)
  | _ :: e => Some e
  end.

(** The entries that the loop [for (e = qdict_first(d); e; e =
    qdict_next(d, e))] visits from the entry [e] on.  The loop tests its
    condition at most [n] times: [None] when the entry is not NULL at the last
    of them, so that the loop has not ended. *)
Fixpoint walk (n : nat) (d : qdict A) (e : option (list (key * A))) : option (list (key * A)) :=
  match n, e with
  | O, _ => None
  | S n', None => Some []
  | S n', Some [] => None
  | S n', Some (kv :: l) => rest ← walk n' d (qdict_next d (kv :: l)); Some (kv :: rest)
  end.

(** ** The finite map *)

Definition entries (d : qdict A) : list (key * A) := concat (table d).

(** Every entry is in the bucket of its key, no key occurs twice, and the
    size counts the entries. *)
Record wf d : Prop := {
  wf_len : length (table d) = 512%nat;
  wf_place : forall b l k v, table d !! b = Some l -> (k, v) ∈ l -> Z.of_nat b = bucket_of k;
  wf_keys : forall b l, table d !! b = Some l -> NoDup l.*1;
  wf_size : size d = Z.of_nat (length (entries d))
}.

Lemma bucket_range k : 0 <= bucket_of k < 512.
Proof. unfold bucket_of, QDICT_BUCKET_MAX. apply Z.mod_pos_bound. lia. Qed.

Lemma bucket_lookup d b : length (table d) = 512%nat -> 0 <= b < 512 ->
  table d !! Z.to_nat b = Some (bucket d b).
Proof.
  intros Hl Hb. unfold bucket. destruct (table d !! Z.to_nat b) eqn:E; [done|].
  apply lookup_ge_None in E. lia.
Qed.

Lemma find_entry_Some l k v : find_entry l k = Some v -> (k, v) ∈ l.
Proof.
  induction l as [|[k' v'] l IH]; cbn [find_entry]; [done|].
  case_bool_decide as E; [|right; auto]. intros [= ->]. rewrite E. left.
Qed.

Lemma find_entry_None l k : find_entry l k = None <-> k ∉ l.*1.
Proof.
  induction l as [|[k' v'] l IH]; cbn [find_entry fmap list_fmap fst].
  - rewrite elem_of_nil. tauto.
  - rewrite elem_of_cons. case_bool_decide; [split; [done|]; subst; tauto|].
    rewrite IH. intuition congruence.
Qed.

Lemma find_entry_in l k v : NoDup l.*1 -> (k, v) ∈ l -> find_entry l k = Some v.
Proof.
  induction l as [|[k' v'] l IH]; cbn [find_entry fmap list_fmap fst]; intros N H;
    [by apply elem_of_nil in H|].
  apply NoDup_cons in N as [N1 N2]. apply elem_of_cons in H as [[= -> ->]|H].
  - by rewrite bool_decide_eq_true_2.
  - rewrite bool_decide_eq_false_2; [by apply IH|]. intros ->. destruct N1.
    apply list_elem_of_fmap. by exists (k, v).
Qed.

Lemma replace_keys l k v : (replace_entry l k v).*1 = l.*1.
Proof.
  induction l as [|[k' v'] l IH]; cbn [replace_entry fmap list_fmap fst]; [done|].
  case_bool_decide; cbn; [done|]. f_equal. exact IH.
Qed.

Lemma find_replace l k v k0 : find_entry (replace_entry l k v) k0 =
  if bool_decide (k = k0) then (fun _ => v) <$> find_entry l k0 else find_entry l k0.
Proof.
  induction l as [|[k' v'] l IH]; cbn [replace_entry find_entry]; [by case_bool_decide|].
  destruct (decide (k' = k)) as [->|Hne].
  - rewrite (bool_decide_eq_true_2 (k = k)) by done. cbn [find_entry].
    by destruct (bool_decide (k = k0)).
  - rewrite (bool_decide_eq_false_2 (k' = k)) by done. cbn [find_entry]. rewrite IH.
    destruct (decide (k' = k0)) as [->|]; [|by rewrite !(bool_decide_eq_false_2 (k' = k0)) by done].
    rewrite (bool_decide_eq_true_2 (k0 = k0)) by done. by rewrite bool_decide_eq_false_2 by congruence.
Qed.

Lemma find_remove l k k0 : NoDup l.*1 -> find_entry (remove_entry l k) k0 =
  if bool_decide (k = k0) then None else find_entry l k0.
Proof.
  induction l as [|[k' v'] l IH]; cbn [remove_entry find_entry fmap list_fmap fst]; intros N;
    [by case_bool_decide|].
  apply NoDup_cons in N as [N1 N2]. destruct (decide (k' = k)) as [->|Hne].
  - rewrite (bool_decide_eq_true_2 (k = k)) by done. case_bool_decide; subst; [|done].
    by apply find_entry_None.
  - rewrite (bool_decide_eq_false_2 (k' = k)) by done. cbn [find_entry]. rewrite IH by done.
    destruct (decide (k' = k0)) as [->|]; [|by rewrite !(bool_decide_eq_false_2 (k' = k0)) by done].
    rewrite (bool_decide_eq_true_2 (k0 = k0)) by done. by rewrite bool_decide_eq_false_2 by congruence.
Qed.

Lemma remove_sublist l k : remove_entry l k `sublist_of` l.
Proof.
  induction l as [|[k' v'] l IH]; cbn [remove_entry]; [done|].
  case_bool_decide; [by apply sublist_cons|by apply sublist_skip].
Qed.

Lemma remove_length l k v : find_entry l k = Some v -> length l = S (length (remove_entry l k)).
Proof.
  induction l as [|[k' v'] l IH]; cbn [remove_entry find_entry length]; [done|].
  case_bool_decide; [done|]. intros F. cbn [length]. f_equal. by apply IH.
Qed.

(** ** The operations keep the table well formed *)

(** Changing one bucket. *)
Lemma get_set_bucket d b l k : length (table d) = 512%nat -> 0 <= b < 512 ->
  qdict_get (set_bucket b l d) k = if bucket_of k =? b then find_entry l k else qdict_get d k.
Proof.
  intros Hl Hb. unfold qdict_get, qdict_find, bucket, set_bucket. cbn [table]. pose proof (bucket_range k).
  destruct (Z.eqb_spec (bucket_of k) b) as [->|Hne].
  - by rewrite list_lookup_insert_eq by lia.
  - by rewrite list_lookup_insert_ne by lia.
Qed.

Lemma concat_insert_length (ls : list (list (key * A))) n l l0 : ls !! n = Some l0 ->
  Z.of_nat (length (concat (<[n := l]> ls))) =
  Z.of_nat (length (concat ls)) - Z.of_nat (length l0) + Z.of_nat (length l).
Proof.
  intros E. pose proof (lookup_lt_Some _ _ _ E). rewrite insert_take_drop by done.
  rewrite <- (take_drop_middle ls n l0 E) at 3. rewrite !concat_app. cbn [concat].
  rewrite !length_app. lia.
Qed.

Lemma wf_set_bucket d b l n : wf d -> 0 <= b < 512 ->
  (forall k v, (k, v) ∈ l -> bucket_of k = b) -> NoDup l.*1 ->
  n = size d - Z.of_nat (length (bucket d b)) + Z.of_nat (length l) ->
  wf (mkQDict n (table (set_bucket b l d))).
Proof.
  intros [H1 H2 H3 H4] Hb Hp Hn Hs. constructor; cbn [table size set_bucket].
  - by rewrite length_insert.
  - intros b' l' k v E Hin. destruct (decide (b' = Z.to_nat b)) as [->|Hne].
    + rewrite list_lookup_insert_eq in E by lia. injection E as <-. rewrite (Hp k v Hin). lia.
    + rewrite list_lookup_insert_ne in E by lia. by apply (H2 b' l' k v).
  - intros b' l' E. destruct (decide (b' = Z.to_nat b)) as [->|Hne].
    + rewrite list_lookup_insert_eq in E by lia. by injection E as <-.
    + rewrite list_lookup_insert_ne in E by lia. by apply (H3 b').
  - unfold entries in *. cbn [table]. rewrite (concat_insert_length _ _ _ (bucket d b)) by (by apply bucket_lookup).
    lia.
Qed.

Lemma bucket_place d b k v : wf d -> 0 <= b < 512 -> (k, v) ∈ bucket d b -> bucket_of k = b.
Proof.
  intros H Hb Hin. pose proof (wf_place d H _ _ k v (bucket_lookup d b (wf_len d H) Hb) Hin). lia.
Qed.

Lemma bucket_keys d b : wf d -> 0 <= b < 512 -> NoDup (bucket d b).*1.
Proof. intros H Hb. exact (wf_keys d H _ _ (bucket_lookup d b (wf_len d H) Hb)). Qed.

Lemma replace_length l k v : length (replace_entry l k v) = length l.
Proof. rewrite <- (length_fmap fst), replace_keys. apply length_fmap. Qed.

Lemma replace_elem l k v k0 v0 : (k0, v0) ∈ replace_entry l k v -> exists v1, (k0, v1) ∈ l.
Proof.
  intros H. assert (E : k0 ∈ (replace_entry l k v).*1) by (apply list_elem_of_fmap; by exists (k0, v0)).
  rewrite replace_keys in E. apply list_elem_of_fmap in E as ([k1 v1] & -> & E). by exists v1.
Qed.

Lemma qdict_new_wf : wf qdict_new.
Proof.
  constructor; cbn [qdict_new table size]; [by rewrite length_replicate| | |].
  - intros b l k v E Hin. apply lookup_replicate in E as [-> _]. by apply elem_of_nil in Hin.
  - intros b l E. apply lookup_replicate in E as [-> _]. apply NoDup_nil_2.
  - unfold entries. cbn [table]. reflexivity.
Qed.

Lemma put_wf d k v : wf d -> wf (qdict_put_obj d k v).
Proof.
  intros H. pose proof (bucket_range k) as Hb. unfold qdict_put_obj. cbv zeta.
  destruct (qdict_find d k (bucket_of k)) as [v0|] eqn:F; unfold qdict_find in F.
  - apply (wf_set_bucket d (bucket_of k) _ (size d) H Hb).
    + intros k0 v1 [v2 Hin]%replace_elem. by apply (bucket_place d _ _ v2).
    + rewrite replace_keys. by apply bucket_keys.
    + rewrite replace_length. lia.
  - apply (wf_set_bucket d (bucket_of k) _ _ H Hb).
    + intros k0 v1 [[= -> ->]|Hin]%elem_of_cons; [done|]. by apply (bucket_place d _ _ v1).
    + cbn. apply NoDup_cons. split; [by apply find_entry_None|by apply bucket_keys].
    + cbn [length set_bucket size]. lia.
Qed.

Lemma del_wf d k : wf d -> wf (qdict_del d k).
Proof.
  intros H. pose proof (bucket_range k) as Hb. unfold qdict_del. cbv zeta.
  destruct (qdict_find d k (bucket_of k)) as [v0|] eqn:F; unfold qdict_find in F; [|done].
  apply (wf_set_bucket d (bucket_of k) _ _ H Hb).
  - intros k0 v1 Hin. apply (bucket_place d _ _ v1); [done|done|].
    by apply (sublist_subseteq _ _ (remove_sublist (bucket d (bucket_of k)) k)).
  - eapply sublist_NoDup; [by apply (bucket_keys d (bucket_of k))|apply fmap_sublist, remove_sublist].
  - cbn [set_bucket size]. rewrite (remove_length _ _ _ F). lia.
Qed.

Lemma get_put d k v k0 : wf d ->
  qdict_get (qdict_put_obj d k v) k0 = if bool_decide (k = k0) then Some v else qdict_get d k0.
Proof.
  intros H. pose proof (bucket_range k) as Hb. unfold qdict_put_obj. cbv zeta.
  assert (T : forall d' (n : Z), qdict_get (mkQDict n (table d')) k0 = qdict_get d' k0) by done.
  destruct (qdict_find d k (bucket_of k)) as [v0|] eqn:F; unfold qdict_find in F.
  - rewrite get_set_bucket by (apply H || done). rewrite find_replace. unfold qdict_get, qdict_find.
    case_bool_decide as E; [subst k0|].
    + by rewrite Z.eqb_refl, F.
    + by destruct (Z.eqb_spec (bucket_of k0) (bucket_of k)) as [->|].
  - rewrite T, get_set_bucket by (apply H || done). cbn [find_entry]. unfold qdict_get, qdict_find.
    case_bool_decide as E; [subst k0; by rewrite Z.eqb_refl|].
    by destruct (Z.eqb_spec (bucket_of k0) (bucket_of k)) as [->|].
Qed.

Lemma get_del d k k0 : wf d ->
  qdict_get (qdict_del d k) k0 = if bool_decide (k = k0) then None else qdict_get d k0.
Proof.
  intros H. pose proof (bucket_range k) as Hb. unfold qdict_del. cbv zeta.
  assert (T : forall d' (n : Z), qdict_get (mkQDict n (table d')) k0 = qdict_get d' k0) by done.
  destruct (qdict_find d k (bucket_of k)) as [v0|] eqn:F; unfold qdict_find in F.
  - rewrite T, get_set_bucket by (apply H || done). rewrite find_remove by (by apply bucket_keys).
    unfold qdict_get, qdict_find. case_bool_decide as E; [subst k0; by rewrite Z.eqb_refl|].
    by destruct (Z.eqb_spec (bucket_of k0) (bucket_of k)) as [->|].
  - case_bool_decide as E; [subst k0; exact F|done].
Qed.

Lemma get_new k : qdict_get qdict_new k = None.
Proof.
  unfold qdict_get, qdict_find, bucket. cbn [qdict_new table].
  destruct (replicate _ _ !! _) eqn:E; [|done]. by apply lookup_replicate in E as [-> _].
Qed.

(** ** Entries *)

Lemma entries_elem d k v : (k, v) ∈ entries d <-> exists b l, table d !! b = Some l /\ (k, v) ∈ l.
Proof.
  unfold entries. rewrite list_elem_of_In, in_concat. split.
  - intros (l & Hl & Hin). apply list_elem_of_In, list_elem_of_lookup in Hl as [b Hb].
    exists b, l. by rewrite list_elem_of_In.
  - intros (b & l & Hb & Hin). exists l. split; [by apply list_elem_of_In, (list_elem_of_lookup_2 _ b)|].
    by apply list_elem_of_In.
Qed.

Lemma entries_get d k v : wf d -> (k, v) ∈ entries d <-> qdict_get d k = Some v.
Proof.
  intros H. pose proof (bucket_range k) as Hb. rewrite entries_elem. unfold qdict_get, qdict_find. split.
  - intros (b & l & E & Hin). pose proof (wf_place d H b l k v E Hin) as Hp.
    replace (Z.to_nat (bucket_of k)) with b by lia. unfold bucket. replace (Z.to_nat (bucket_of k)) with b by lia.
    rewrite E. cbn. apply find_entry_in; [|done]. exact (wf_keys d H b l E).
  - intros E%find_entry_Some. eexists _, _. split; [|exact E]. apply bucket_lookup; [apply H|done].
Qed.

Lemma concat_keys (ls : list (list (key * A))) : concat ((fun l : list (key * A) => l.*1) <$> ls) = (concat ls).*1.
Proof. induction ls as [|l ls IH]; cbn; [done|]. by rewrite fmap_app, <- IH. Qed.

Lemma entries_keys d : wf d -> NoDup (entries d).*1.
Proof.
  intros [_ Hp Hk _]. unfold entries. rewrite <- concat_keys.
  assert (G : forall ls n, (forall b l k v, ls !! b = Some l -> (k, v) ∈ l -> Z.of_nat (n + b) = bucket_of k) ->
    (forall b l, ls !! b = Some l -> NoDup l.*1) -> NoDup (concat ((fun l : list (key * A) => l.*1) <$> ls))).
  { induction ls as [|l ls IH]; intros n P K; cbn; [apply NoDup_nil_2|]. apply NoDup_app. split_and!.
    - by apply (K 0%nat).
    - intros k ([k1 v] & -> & Hin)%list_elem_of_fmap Hin'.
      apply list_elem_of_In, in_concat in Hin' as (l' & Hl' & Hk').
      apply list_elem_of_In in Hk'. apply list_elem_of_In, list_elem_of_fmap in Hl' as (l2 & -> & Hl2).
      apply list_elem_of_lookup in Hl2 as [b Hb]. apply list_elem_of_fmap in Hk' as ([k2 v2] & E & Hin2).
      cbn in E. subst k2. pose proof (P 0%nat l k1 v eq_refl Hin). pose proof (P (S b) l2 k1 v2 Hb Hin2). lia.
    - apply (IH (S n)).
      + intros b l' k v E Hin. rewrite <- (P (S b) l' k v E Hin). lia.
      + intros b l' E. exact (K (S b) l' E). }
  apply (G (table d) 0%nat); [|done]. intros b l k v E Hin. exact (Hp b l k v E Hin).
Qed.

(** The first entry after bucket [b]. *)
Lemma first_nonempty_spec (ls : list (list (key * A))) :
  (first_nonempty ls = None /\ concat ls = []) \/
  exists b kv l, ls !! b = Some (kv :: l) /\ first_nonempty ls = Some (kv :: l) /\
    concat ls = (kv :: l) ++ concat (drop (S b) ls).
Proof.
  induction ls as [|[|kv l] ls IH]; [by left| |].
  - destruct IH as [[E1 E2]|(b & kv & l & E1 & E2 & E3)]; [by left|right].
    exists (S b), kv, l. by split.
  - right. exists 0%nat, kv, l. split; [done|]. split; [done|]. by rewrite skipn_cons, drop_0.
Qed.

(** The walk from an entry visits the rest of its bucket and then the
    buckets after it. *)
Lemma walk_from d n : wf d -> forall b kv l,
  (forall k v, (k, v) ∈ kv :: l -> bucket_of k = Z.of_nat b) ->
  (length (kv :: l ++ concat (drop (S b) (table d))) < n)%nat ->
  walk n d (Some (kv :: l)) = Some (kv :: l ++ concat (drop (S b) (table d))).
Proof.
  intros H. induction n as [|n IH]; intros b [k v] l Hp Hn; [cbn in Hn; lia|].
  cbn [walk]. cbn [length] in Hn.
  match goal with |- (rest ← ?w; _) = Some (_ :: ?r) => enough (w = Some r) as -> by done end.
  destruct l as [|kv' l].
  - cbn [qdict_next app] in *. rewrite (Hp k v) by left. unfold qdict_next_entry.
    replace (Z.to_nat (Z.of_nat b + 1)) with (S b) by lia.
    destruct (first_nonempty_spec (drop (S b) (table d))) as [[-> ->]|(b' & kv & l & E1 & -> & E3)];
      [destruct n; [lia|done]|].
    rewrite lookup_drop in E1. rewrite drop_drop in E3. rewrite E3 in Hn |- *.
    replace (S b + S b')%nat with (S (S b + b')) in * by lia.
    apply IH; [|cbn [app] in Hn |- *; lia].
    intros k' v' Hin. symmetry. exact (wf_place d H _ _ k' v' E1 Hin).
  - cbn [qdict_next]. cbn [app length] in Hn |- *. apply IH; [|cbn [length]; lia].
    intros k' v' Hin. apply (Hp k' v'). by right.
Qed.

Lemma walk_entries d n : wf d -> (length (entries d) < n)%nat -> walk n d (qdict_first d) = Some (entries d).
Proof.
  intros H Hn. unfold entries in Hn |- *. unfold qdict_first, qdict_next_entry. change (Z.to_nat 0) with 0%nat. rewrite drop_0.
  destruct (first_nonempty_spec (table d)) as [[-> ->]|(b & kv & l & E1 & -> & E3)]; [destruct n; [lia|done]|].
  rewrite E3 in Hn |- *. apply (walk_from d _ H b); [|exact Hn].
  intros k v Hin. symmetry. exact (wf_place d H b _ k v E1 Hin).
Qed.

Lemma iter_entries {S} (iter : key -> A -> S -> S) d s :
  qdict_iter iter d s = foldl (fun s e => iter e.1 e.2 s) s (entries d).
Proof.
  unfold qdict_iter, entries. revert s. induction (table d) as [|l ls IH]; intros s; cbn; [done|].
  by rewrite IH, foldl_app.
Qed.

(** ** The dictionary is a finite map *)

Inductive op := Put (k : key) (v : A) | Del (k : key).

Definition run (o : op) (d : qdict A) : qdict A :=
  match o with Put k v => qdict_put_obj d k v | Del k => qdict_del d k end.

Definition run_map (o : op) (m : gmap key A) : gmap key A :=
  match o with Put k v => <[k := v]> m | Del k => delete k m end.

Definition after (ops : list op) : qdict A := foldl (fun d o => run o d) qdict_new ops.
Definition after_map (ops : list op) : gmap key A := foldl (fun m o => run_map o m) ∅ ops.

Lemma after_repr ops : wf (after ops) /\ forall k, qdict_get (after ops) k = after_map ops !! k.
Proof.
  unfold after, after_map.
  assert (G : forall d m, wf d /\ (forall k, qdict_get d k = m !! k) ->
    wf (foldl (fun d o => run o d) d ops) /\
    forall k, qdict_get (foldl (fun d o => run o d) d ops) k = foldl (fun m o => run_map o m) m ops !! k).
  { induction ops as [|o ops IH]; intros d m [W G]; cbn [foldl]; [done|]. apply IH.
    destruct o as [k v|k]; cbn [run run_map]; (split; [by apply put_wf || apply del_wf|]); intros k0.
    - rewrite get_put, G, lookup_insert by done. by repeat case_decide || case_bool_decide.
    - rewrite get_del, G, lookup_delete by done. by repeat case_decide || case_bool_decide. }
  apply G. split; [apply qdict_new_wf|]. intros k. by rewrite get_new, lookup_empty.
Qed.

Lemma entries_map d (m : gmap key A) : wf d -> (forall k, qdict_get d k = m !! k) ->
  entries d ≡ₚ map_to_list m.
Proof.
  intros W G. apply NoDup_Permutation.
  - apply (NoDup_fmap_1 fst), entries_keys, W.
  - apply NoDup_map_to_list.
  - intros [k v]. by rewrite entries_get, G, elem_of_map_to_list.
Qed.

(** C15: a dictionary is the finite map that the same operations build.  After
    any sequence of insertions and deletions the look-up functions answer as
    the map does and the size is its number of keys.  The iteration with
    [qdict_first] and [qdict_next] reaches NULL when it has visited as many
    entries as the map has keys, and before that it has visited each pair of
    the map exactly once; [qdict_iter] visits the same entries in the same
    order. *)
Theorem qdict_is_finite_map (ops : list op) :
  let d := after ops in
  let m := after_map ops in
  (forall k, qdict_get d k = m !! k) /\
  (forall k, qdict_haskey d k = match m !! k with Some _ => 1 | None => 0 end) /\
  qdict_size d = Z.of_nat (stdpp.base.size m) /\
  exists visited,
    (forall n, (stdpp.base.size m < n)%nat -> walk n d (qdict_first d) = Some visited) /\
    visited ≡ₚ map_to_list m /\
    (forall S (iter : key -> A -> S -> S) s,
       qdict_iter iter d s = foldl (fun s e => iter e.1 e.2 s) s visited).
Proof.
  intros d m. destruct (after_repr ops) as [W G]. fold d m in W, G.
  pose proof (entries_map d m W G) as P.
  assert (L : length (entries d) = stdpp.base.size m) by (rewrite P; apply length_map_to_list).
  split; [done|]. split; [|split].
  - intros k. rewrite <- G. unfold qdict_haskey, qdict_get. by destruct (qdict_find _ _ _).
  - unfold qdict_size. by rewrite (wf_size d W), L.
  - exists (entries d). split; [intros n Hn; apply walk_entries; [done|lia]|]. split; [done|]. intros. apply iter_entries.
Qed.

End Dict.

End QDict.
