(* ===== verification/QObject.v ===== *)
(** * The values of the management protocol (src/qemu/qobject.h, qint.c,
    qstring.c, qlist.c, qbool.c, qfloat.c)

    A [QObject] is a value with the type that [qobject_type] reads.  Strings
    are their bytes without the final 0; a list is the sequence of its
    elements; a dictionary is the hash table of QDict.v.  A [QFloat] holds the
    64 bits of its double.  Reference counts are not modelled: objects are
    values, and [qlist_copy] is the identity.

    [QStringBuf] is the growing buffer behind a string: the theorem is that
    every write of [qstring_append] and [qstring_append_chr], the final 0
    included, is inside the memory allocated. *)
From S2P Require Import Prelude QDict.
From stdpp Require Import list.

#[local] Open Scope Z_scope.
#[local] Open Scope c_scope.

(** ** Numbers as text *)

Fixpoint digits_of (n : nat) (v : Z) (acc : list Z) : list Z :=
  match n with
  | O => acc
  | S n' =>
      let acc := 48 + v mod 10 :: acc in
      if v / 10 =? 0 then acc else digits_of n' (v / 10) acc
  end.

(** What [%d] prints: at most one digit for each bit. *)
Definition decimal (v : Z) : list Z :=
  if v <? 0 then 45 :: digits_of (S (Z.to_nat (Z.log2 (- v)))) (- v) []
  else digits_of (S (Z.to_nat (Z.log2 v))) v [].

Module QObject.

Unset Elimination Schemes.

Inductive QObject :=
| QInt (value : Z)
| QString (string : list Z)
| QDict (dict : QDict.qdict QObject)
| QList (elements : list QObject)
| QFloat (value : Z)
| QBool (value : Z)
| QError.

Set Elimination Schemes.

(** ** Lists *)

Definition qlist_append_obj (l : list QObject) (value : QObject) : list QObject := l ++ [value].

Definition qlist_pop (l : list QObject) : option QObject * list QObject :=
  match l with
  | [] => (None, [])
  | x :: l' => (Some x, l')
  end.

Definition qlist_peek (l : list QObject) : option QObject := head l.

Definition qlist_empty (l : list QObject) : bool := match l with [] => true | _ => false end.

Definition qlist_iter {S} (iter : QObject -> S -> S) (l : list QObject) (s : S) : S :=
  foldl (fun s o => iter o s) s l.

Definition qlist_copy (src : list QObject) : list QObject :=
  qlist_iter (fun o dst => qlist_append_obj dst o) src [].

Lemma qlist_copy_id l : qlist_copy l = l.
Proof.
  unfold qlist_copy, qlist_iter, qlist_append_obj.
  assert (G : forall d, foldl (fun s o => s ++ [o]) d l = d ++ l).
  { induction l as [|o l IH]; intros d; cbn [foldl]; [by rewrite app_nil_r|].
    by rewrite IH, <- app_assoc. }
  apply (G []).
Qed.

(** ** Typed look-ups in a dictionary; [None] when an assertion fails *)

Definition qdict_get_int (d : QDict.qdict QObject) (k : list Z) : option Z :=
  match QDict.qdict_get d k with Some (QInt v) => Some v | _ => None end.

Definition qdict_get_str (d : QDict.qdict QObject) (k : list Z) : option (list Z) :=
  match QDict.qdict_get d k with Some (QString s) => Some s | _ => None end.

Definition qdict_get_bool (d : QDict.qdict QObject) (k : list Z) : option Z :=
  match QDict.qdict_get d k with Some (QBool b) => Some b | _ => None end.

Definition qdict_get_qlist (d : QDict.qdict QObject) (k : list Z) : option (list QObject) :=
  match QDict.qdict_get d k with Some (QList l) => Some l | _ => None end.

Definition qdict_get_qdict (d : QDict.qdict QObject) (k : list Z) : option (QDict.qdict QObject) :=
  match QDict.qdict_get d k with Some (QDict e) => Some e | _ => None end.

Definition qdict_get_try_int (d : QDict.qdict QObject) (k : list Z) (def_value : Z) : Z :=
  match QDict.qdict_get d k with Some (QInt v) => v | _ => def_value end.

Definition qdict_get_try_bool (d : QDict.qdict QObject) (k : list Z) (def_value : Z) : Z :=
  match QDict.qdict_get d k with Some (QBool b) => b | _ => def_value end.

Definition qdict_get_try_str (d : QDict.qdict QObject) (k : list Z) : option (list Z) :=
  match QDict.qdict_get d k with Some (QString s) => Some s | _ => None end.

(** ** Induction *)

(** Induction on values, through lists and the buckets of dictionaries. *)
Definition qobject_ind (P : QObject -> Prop)
    (HI : forall z, P (QInt z)) (HS : forall s, P (QString s))
    (HD : forall d, Forall (Forall (fun e => P e.2)) (QDict.table d) -> P (QDict d))
    (HL : forall l, Forall P l -> P (QList l)) (HF : forall z, P (QFloat z))
    (HB : forall z, P (QBool z)) (HE : P QError) : forall o, P o :=
  fix F (o : QObject) : P o :=
    match o with
    | QInt z => HI z
    | QString s => HS s
    | QDict d =>
        HD d (match d with
              | QDict.mkQDict _ t =>
                  (fix H (t : list (list (list Z * QObject))) : Forall (Forall (fun e => P e.2)) t :=
                     match t with
                     | [] => Forall_nil_2 _
                     | b :: t' =>
                         Forall_cons_2 _ b t'
                           ((fix B (b : list (list Z * QObject)) : Forall (fun e => P e.2) b :=
                               match b with
                               | [] => Forall_nil_2 _
                               | e :: b' => Forall_cons_2 (fun e => P e.2) e b'
                                   (match e with (k, v) => F v end) (B b')
                               end) b) (H t')
                     end) t
              end)
    | QList l =>
        HL l ((fix G (l : list QObject) : Forall P l :=
                 match l with
                 | [] => Forall_nil_2 _
                 | x :: l' => Forall_cons_2 P x l' (F x) (G l')
                 end) l)
    | QFloat z => HF z
    | QBool z => HB z
    | QError => HE
    end.

(** Equality of values: dictionaries are compared as the finite maps they
    are, whatever the order of entries inside a bucket. *)
Unset Elimination Schemes.

Inductive qeq : QObject -> QObject -> Prop :=
| qeq_int z : qeq (QInt z) (QInt z)
| qeq_string s : qeq (QString s) (QString s)
| qeq_float z : qeq (QFloat z) (QFloat z)
| qeq_bool z : qeq (QBool z) (QBool z)
| qeq_error : qeq QError QError
| qeq_list l l' : Forall2 qeq l l' -> qeq (QList l) (QList l')
| qeq_dict d d' :
    QDict.size d = QDict.size d' ->
    (forall k, QDict.qdict_get d k = None <-> QDict.qdict_get d' k = None) ->
    (forall k v v', QDict.qdict_get d k = Some v -> QDict.qdict_get d' k = Some v' -> qeq v v') ->
    qeq (QDict d) (QDict d').

Set Elimination Schemes.

End QObject.

(** ** The buffer of a string (src/qemu/qstring.c) *)

Module QStringBuf.

(** [memory] is the block of [capacity + 1] bytes that [string] points to. *)
Record QString := mkQString { length : Z; capacity : Z; memory : list Z }.

(** [memcpy] to offset [o]; [None] when it leaves the block. *)
Definition copy_to (o : Z) (bytes : list Z) (m : list Z) : option (list Z) :=
  if (0 <=? o) && (o + Z.of_nat (List.length bytes) <=? Z.of_nat (List.length m)) then
    Some (take (Z.to_nat o) m ++ bytes ++ drop (Z.to_nat o + List.length bytes) m)
  else None.

(** [qemu_realloc] keeps the contents; [fill] is the content of new memory. *)
Definition realloc (fill : Z -> Z) (n : Z) (m : list Z) : list Z :=
  take (Z.to_nat n) m ++ (fill <$> seqZ (Z.of_nat (List.length m)) (n - Z.of_nat (List.length m))).

Section Buffer.
Context (fill : Z -> Z).

(** [str] is the memory that the argument points to; [None] also when the
    copy reads outside it. *)
Definition qstring_from_substr (str : list Z) (start end_ : Z) : option QString :=
  let len := end_ - start + 1 in
  if (0 <=? start) && (0 <=? len) && (start + len <=? Z.of_nat (List.length str)) then
    let m := fill <$> seqZ 0 (len + 1) in
    m ← copy_to 0 (take (Z.to_nat len) (drop (Z.to_nat start) str)) m;
    m ← copy_to len [0] m;
    Some (mkQString len len m)
  else None.

(** The argument is the C string [str], with its final 0. *)
Definition qstring_from_str (str : list Z) : option QString :=
  qstring_from_substr (str ++ [0]) 0 (Z.of_nat (List.length str) - 1).

Definition qstring_new : option QString := qstring_from_str [].

Definition capacity_increase (len : Z) (q : QString) : QString :=
  if capacity q <? length q + len then
    let c := (capacity q + len) * 2 in
    mkQString (length q) c (realloc fill (c + 1) (memory q))
  else q.

Definition qstring_append (str : list Z) (q : QString) : option QString :=
  let len := Z.of_nat (List.length str) in
  let q := capacity_increase len q in
  m ← copy_to (length q) str (memory q);
  let l := length q + len in
  m ← copy_to l [0] m;
  Some (mkQString l (capacity q) m).

Definition qstring_append_chr (c : Z) (q : QString) : option QString :=
  let q := capacity_increase 1 q in
  m ← copy_to (length q) [c] (memory q);
  let l := length q + 1 in
  m ← copy_to l [0] m;
  Some (mkQString l (capacity q) m).

(** The text of [snprintf] with [PRId64]. *)
Definition qstring_append_int (value : Z) (q : QString) : option QString :=
  qstring_append (decimal value) q.

(** The buffer holds the string [s] and its final 0. *)
Record holds (q : QString) (s : list Z) : Prop := {
  h_len : length q = Z.of_nat (List.length s);
  h_cap : length q <= capacity q;
  h_mem : Z.of_nat (List.length (memory q)) = capacity q + 1;
  h_text : take (S (List.length s)) (memory q) = s ++ [0]
}.

Lemma copy_to_ok o bytes m : 0 <= o -> o + Z.of_nat (List.length bytes) <= Z.of_nat (List.length m) ->
  copy_to o bytes m = Some (take (Z.to_nat o) m ++ bytes ++ drop (Z.to_nat o + List.length bytes) m) /\
  List.length (take (Z.to_nat o) m ++ bytes ++ drop (Z.to_nat o + List.length bytes) m) = List.length m.
Proof.
  intros H1 H2. unfold copy_to. destruct (Z.leb_spec 0 o); [|lia].
  destruct (Z.leb_spec (o + Z.of_nat (List.length bytes)) (Z.of_nat (List.length m))); [|lia].
  split; [done|]. rewrite !length_app, length_take, length_drop. lia.
Qed.

(** Text [s] at the start, [str] copied after it, then the final 0. *)
Lemma extend_ok m s str : (List.length s + List.length str < List.length m)%nat ->
  take (List.length s) m = s -> exists m1 m2,
  copy_to (Z.of_nat (List.length s)) str m = Some m1 /\
  copy_to (Z.of_nat (List.length s) + Z.of_nat (List.length str)) [0] m1 = Some m2 /\
  List.length m2 = List.length m /\
  take (S (List.length (s ++ str))) m2 = (s ++ str) ++ [0].
Proof.
  intros Hl Ht. destruct (copy_to_ok (Z.of_nat (List.length s)) str m) as [E1 L1]; [lia|lia|].
  rewrite Nat2Z.id, Ht in E1, L1. set (m1 := s ++ str ++ drop _ m) in *.
  destruct (copy_to_ok (Z.of_nat (List.length s) + Z.of_nat (List.length str)) [0] m1) as [E2 L2];
    [lia|cbn; lia|].
  eexists m1, _. split; [done|]. split; [done|]. split; [lia|].
  replace (Z.to_nat (Z.of_nat (List.length s) + Z.of_nat (List.length str)))
    with (List.length (s ++ str)) by (rewrite length_app; lia).
  unfold m1 at 1. rewrite (app_assoc s str), take_app_length.
  rewrite (app_assoc (s ++ str)), take_app_le by (rewrite !length_app; cbn; lia).
  apply take_ge. rewrite !length_app. cbn. lia.
Qed.

Lemma increase_ok q s len : holds q s -> 0 <= len ->
  let q' := capacity_increase len q in
  length q' = length q /\ length q + len <= capacity q' /\
  Z.of_nat (List.length (memory q')) = capacity q' + 1 /\ take (List.length s) (memory q') = s.
Proof.
  intros [H1 H2 H3 H4] Hl. unfold capacity_increase. cbv zeta.
  assert (Ht : take (List.length s) (memory q) = s).
  { transitivity (take (List.length s) (take (S (List.length s)) (memory q))).
    - rewrite take_take. f_equal. lia.
    - rewrite H4. apply take_app_length. }
  destruct (Z.ltb_spec (capacity q) (length q + len)); cbn [length capacity memory]; [|split_and!; done || lia].
  unfold realloc. split; [done|]. split; [lia|]. split.
  - rewrite length_app, length_take, length_fmap, length_seqZ. lia.
  - rewrite take_app_le by (rewrite length_take; lia). rewrite take_take. rewrite Nat.min_l by lia. exact Ht.
Qed.

Lemma append_ok str q s : holds q s -> exists q1, qstring_append str q = Some q1 /\ holds q1 (s ++ str).
Proof.
  intros H. unfold qstring_append. cbv zeta.
  destruct (increase_ok q s (Z.of_nat (List.length str)) H) as (E1 & E2 & E3 & E4); [lia|].
  set (q' := capacity_increase _ q) in *. pose proof (h_len _ _ H) as Hl.
  destruct (extend_ok (memory q') s str) as (m1 & m2 & F1 & F2 & F3 & F4); [lia|done|].
  rewrite E1, Hl, F1. cbn [mbind option_bind]. rewrite F2. cbn [mbind option_bind]. eexists. split; [done|].
  constructor; cbn [length capacity memory]; [rewrite length_app; lia|lia|rewrite F3; lia|exact F4].
Qed.

Lemma from_str_ok str : exists q, qstring_from_str str = Some q /\ holds q str.
Proof.
  unfold qstring_from_str, qstring_from_substr. cbv zeta. rewrite length_app. cbn [List.length].
  replace (Z.of_nat (List.length str) - 1 - 0 + 1) with (Z.of_nat (List.length str)) by lia.
  destruct (Z.leb_spec 0 (Z.of_nat (List.length str))); [|lia].
  destruct (Z.leb_spec (0 + Z.of_nat (List.length str)) (Z.of_nat (List.length str + 1))); [|lia].
  change (Z.to_nat 0) with 0%nat. cbn [andb Z.leb Z.compare]. rewrite drop_0, Nat2Z.id, take_app_length.
  destruct (extend_ok (fill <$> seqZ 0 (Z.of_nat (List.length str) + 1)) [] str) as (m1 & m2 & F1 & F2 & F3 & F4).
  - rewrite length_fmap, length_seqZ. cbn [List.length]. lia.
  - done.
  - cbn [List.length app] in *. change (Z.of_nat 0) with 0 in *. rewrite Z.add_0_l in F2.
    rewrite F1. cbn [mbind option_bind]. rewrite F2. cbn [mbind option_bind]. eexists. split; [done|].
    rewrite length_fmap, length_seqZ in F3.
    constructor; cbn [length capacity memory]; [done|lia|lia|exact F4].
Qed.

(** Strings are built and grow safely.  [qstring_from_str] gives a buffer
    that holds the argument; appending a string, a number or a character to a
    buffer that holds [s] always succeeds (no byte is written outside the
    memory that was allocated, the final 0 included) and the buffer then holds
    the concatenation. *)
Theorem qstring_append_in_bounds q s str c value : holds q s ->
  (exists q0, qstring_from_str str = Some q0 /\ holds q0 str) /\
  (exists q1, qstring_append str q = Some q1 /\ holds q1 (s ++ str)) /\
  (exists q2, qstring_append_chr c q = Some q2 /\ holds q2 (s ++ [c])) /\
  (exists q3, qstring_append_int value q = Some q3 /\ holds q3 (s ++ decimal value)).
Proof.
  intros H. split; [apply from_str_ok|]. split; [by apply append_ok|]. split; [|by apply append_ok].
  destruct (append_ok [c] q s H) as (q1 & E & H1). exists q1. by split.
Qed.

End Buffer.

Lemma qstring_append_in_bounds_witness : let fill := fun a => a mod 7 in exists q, qstring_new fill = Some q /\
  exists q1, qstring_append fill [104; 105] q = Some q1 /\ holds q1 [104; 105].
Proof.
  intros fill. eexists. split; [reflexivity|].
  refine (proj1 (proj2 (qstring_append_in_bounds fill _ [] [104; 105] 0 0 _))). by constructor.
Defined.

Example decimal_text : decimal (-9223372036854775808) = 45 :: [57;50;50;51;51;55;50;48;51;54;56;53;52;55;55;53;56;48;56] /\
  decimal 0 = [48].
Proof. by vm_compute. Qed.

End QStringBuf.
