(* ===== verification/JsonLexer.v ===== *)
(** * The lexer and the message splitter of the management protocol
    (src/qemu/json-lexer.c, json-lexer.h, json-streamer.c, json-streamer.h)

    The lexer is a table of 256 columns for each state.  A row is written as
    the source writes it, as a list of designators [(first, last, value)] of
    which the last one that covers a character counts; everything else is 0,
    the state [ERROR].  A character that ends a token without belonging to it
    is looked at again in the state [IN_START]: this is the only reason for
    the loop of [json_lexer_feed_char] to run twice.

    The callback [emit] of the lexer is a parameter that works on a state of
    its own.  The message splitter is such a callback: it turns every token
    into a dictionary, collects the dictionaries, counts braces and brackets
    and hands the list to its own callback when both counts are 0.  Counters
    of type [int] wrap around at 32 bits. *)
From S2P Require Import Prelude QDict QObject.
From Stdlib Require Import String Ascii.
From stdpp Require Import list sets.

#[local] Open Scope Z_scope.
#[local] Open Scope c_scope.

(** Characters and string literals of the source. *)
Definition ch (a : ascii) : Z := Z.of_nat (nat_of_ascii a).
Arguments ch a%_char_scope.
Definition str (s : string) : list Z := ch <$> list_ascii_of_string s.
Arguments str s%_string_scope.
Definition QUOTE : Z := 34.
Definition NEWLINE : Z := 10.
Definition TAB : Z := 9.
Definition RETURN : Z := 13.

Module JsonLexer.

(** ** The table *)

Definition ERROR : Z := 0.
Definition IN_DQ_UCODE3 : Z := 1.
Definition IN_DQ_UCODE2 : Z := 2.
Definition IN_DQ_UCODE1 : Z := 3.
Definition IN_DQ_UCODE0 : Z := 4.
Definition IN_DQ_STRING_ESCAPE : Z := 5.
Definition IN_DQ_STRING : Z := 6.
Definition IN_SQ_UCODE3 : Z := 7.
Definition IN_SQ_UCODE2 : Z := 8.
Definition IN_SQ_UCODE1 : Z := 9.
Definition IN_SQ_UCODE0 : Z := 10.
Definition IN_SQ_STRING_ESCAPE : Z := 11.
Definition IN_SQ_STRING : Z := 12.
Definition IN_ZERO : Z := 13.
Definition IN_DIGITS : Z := 14.
Definition IN_DIGIT : Z := 15.
Definition IN_EXP_E : Z := 16.
Definition IN_MANTISSA : Z := 17.
Definition IN_MANTISSA_DIGITS : Z := 18.
Definition IN_NONZERO_NUMBER : Z := 19.
Definition IN_NEG_NONZERO_NUMBER : Z := 20.
Definition IN_KEYWORD : Z := 21.
Definition IN_ESCAPE : Z := 22.
Definition IN_ESCAPE_L : Z := 23.
Definition IN_ESCAPE_LL : Z := 24.
Definition IN_ESCAPE_I : Z := 25.
Definition IN_ESCAPE_I6 : Z := 26.
Definition IN_ESCAPE_I64 : Z := 27.
Definition IN_WHITESPACE : Z := 28.
Definition IN_START : Z := 29.

Definition JSON_OPERATOR : Z := 100.
Definition JSON_INTEGER : Z := 101.
Definition JSON_FLOAT : Z := 102.
Definition JSON_KEYWORD : Z := 103.
Definition JSON_STRING : Z := 104.
Definition JSON_ESCAPE : Z := 105.
Definition JSON_SKIP : Z := 106.

(** The designators [[first ... last] = value] and [[c] = value]. *)
Definition range (first last value : Z) : Z * Z * Z := (first, last, value).
Definition at_ (c value : Z) : Z * Z * Z := (c, c, value).
Definition TERMINAL (state : Z) : Z * Z * Z := range 0 0x7F state.

Definition hex_digits (state : Z) : list (Z * Z * Z) :=
  [range (ch "0") (ch "9") state; range (ch "a") (ch "f") state; range (ch "A") (ch "F") state].

Definition spaces : list (Z * Z * Z) :=
  [at_ (ch " ") IN_WHITESPACE; at_ TAB IN_WHITESPACE; at_ RETURN IN_WHITESPACE; at_ NEWLINE IN_WHITESPACE].

Definition json_lexer_row (state : Z) : list (Z * Z * Z) :=
  (* double quote string *)
  if state =? IN_DQ_UCODE3 then hex_digits IN_DQ_STRING
  else if state =? IN_DQ_UCODE2 then hex_digits IN_DQ_UCODE3
  else if state =? IN_DQ_UCODE1 then hex_digits IN_DQ_UCODE2
  else if state =? IN_DQ_UCODE0 then hex_digits IN_DQ_UCODE1
  else if state =? IN_DQ_STRING_ESCAPE then
    [at_ (ch "b") IN_DQ_STRING; at_ (ch "f") IN_DQ_STRING; at_ (ch "n") IN_DQ_STRING;
     at_ (ch "r") IN_DQ_STRING; at_ (ch "t") IN_DQ_STRING; at_ (ch "/") IN_DQ_STRING;
     at_ (ch "\") IN_DQ_STRING; at_ (ch "'") IN_DQ_STRING; at_ QUOTE IN_DQ_STRING;
     at_ (ch "u") IN_DQ_UCODE0]
  else if state =? IN_DQ_STRING then
    [range 1 0xFF IN_DQ_STRING; at_ (ch "\") IN_DQ_STRING_ESCAPE; at_ QUOTE JSON_STRING]
  (* single quote string *)
  else if state =? IN_SQ_UCODE3 then hex_digits IN_SQ_STRING
  else if state =? IN_SQ_UCODE2 then hex_digits IN_SQ_UCODE3
  else if state =? IN_SQ_UCODE1 then hex_digits IN_SQ_UCODE2
  else if state =? IN_SQ_UCODE0 then hex_digits IN_SQ_UCODE1
  else if state =? IN_SQ_STRING_ESCAPE then
    [at_ (ch "b") IN_SQ_STRING; at_ (ch "f") IN_SQ_STRING; at_ (ch "n") IN_SQ_STRING;
     at_ (ch "r") IN_SQ_STRING; at_ (ch "t") IN_SQ_STRING; at_ (ch "/") IN_DQ_STRING;
     at_ (ch "\") IN_DQ_STRING; at_ (ch "'") IN_SQ_STRING; at_ QUOTE IN_SQ_STRING;
     at_ (ch "u") IN_SQ_UCODE0]
  else if state =? IN_SQ_STRING then
    [range 1 0xFF IN_SQ_STRING; at_ (ch "\") IN_SQ_STRING_ESCAPE; at_ (ch "'") JSON_STRING]
  (* zero *)
  else if state =? IN_ZERO then
    [TERMINAL JSON_INTEGER; range (ch "0") (ch "9") ERROR; at_ (ch ".") IN_MANTISSA]
  (* float *)
  else if state =? IN_DIGITS then [TERMINAL JSON_FLOAT; range (ch "0") (ch "9") IN_DIGITS]
  else if state =? IN_DIGIT then [range (ch "0") (ch "9") IN_DIGITS]
  else if state =? IN_EXP_E then
    [at_ (ch "-") IN_DIGIT; at_ (ch "+") IN_DIGIT; range (ch "0") (ch "9") IN_DIGITS]
  else if state =? IN_MANTISSA_DIGITS then
    [TERMINAL JSON_FLOAT; range (ch "0") (ch "9") IN_MANTISSA_DIGITS; at_ (ch "e") IN_EXP_E;
     at_ (ch "E") IN_EXP_E]
  else if state =? IN_MANTISSA then [range (ch "0") (ch "9") IN_MANTISSA_DIGITS]
  (* number *)
  else if state =? IN_NONZERO_NUMBER then
    [TERMINAL JSON_INTEGER; range (ch "0") (ch "9") IN_NONZERO_NUMBER; at_ (ch "e") IN_EXP_E;
     at_ (ch "E") IN_EXP_E; at_ (ch ".") IN_MANTISSA]
  else if state =? IN_NEG_NONZERO_NUMBER then
    [at_ (ch "0") IN_ZERO; range (ch "1") (ch "9") IN_NONZERO_NUMBER]
  (* keywords *)
  else if state =? IN_KEYWORD then [TERMINAL JSON_KEYWORD; range (ch "a") (ch "z") IN_KEYWORD]
  (* whitespace *)
  else if state =? IN_WHITESPACE then TERMINAL JSON_SKIP :: spaces
  (* escape *)
  else if state =? IN_ESCAPE_LL then [at_ (ch "d") JSON_ESCAPE]
  else if state =? IN_ESCAPE_L then [at_ (ch "d") JSON_ESCAPE; at_ (ch "l") IN_ESCAPE_LL]
  else if state =? IN_ESCAPE_I64 then [at_ (ch "d") JSON_ESCAPE]
  else if state =? IN_ESCAPE_I6 then [at_ (ch "4") IN_ESCAPE_I64]
  else if state =? IN_ESCAPE_I then [at_ (ch "6") IN_ESCAPE_I6]
  else if state =? IN_ESCAPE then
    [at_ (ch "d") JSON_ESCAPE; at_ (ch "i") JSON_ESCAPE; at_ (ch "p") JSON_ESCAPE;
     at_ (ch "s") JSON_ESCAPE; at_ (ch "f") JSON_ESCAPE; at_ (ch "l") IN_ESCAPE_L;
     at_ (ch "I") IN_ESCAPE_I]
  (* top level rule *)
  else if state =? IN_START then
    [at_ QUOTE IN_DQ_STRING; at_ (ch "'") IN_SQ_STRING; at_ (ch "0") IN_ZERO;
     range (ch "1") (ch "9") IN_NONZERO_NUMBER; at_ (ch "-") IN_NEG_NONZERO_NUMBER;
     at_ (ch "{") JSON_OPERATOR; at_ (ch "}") JSON_OPERATOR; at_ (ch "[") JSON_OPERATOR;
     at_ (ch "]") JSON_OPERATOR; at_ (ch ",") JSON_OPERATOR; at_ (ch ":") JSON_OPERATOR;
     range (ch "a") (ch "z") IN_KEYWORD; at_ (ch "%") IN_ESCAPE] ++ spaces
  else [].

(** The entry of a row for the character [c]. *)
Definition in_row (row : list (Z * Z * Z)) (c : Z) : Z :=
  foldl (fun v d => if (d.1.1 <=? c) && (c <=? d.1.2) then d.2 else v) 0 row.

Definition json_lexer (state c : Z) : Z := in_row (json_lexer_row state) c.

Definition TERMINAL_NEEDED_LOOKAHEAD (old_state terminal : Z) : bool :=
  json_lexer old_state 0 =? terminal.

(** ** The lexer *)

Record JSONLexer := mkLexer { state : Z; token : list Z; x : Z; y : Z }.

Definition json_lexer_init : JSONLexer := mkLexer IN_START [] 0 0.

Definition EINVAL : Z := 22.

Section Lexer.

(** [emit token type x y], on a state [S]. *)
Context {S : Type} (emit : list Z -> Z -> Z -> Z -> S -> S).

(** What the switch does with a new state other than [ERROR]. *)
Definition switch_state (new_state : Z) (tok : list Z) (l : JSONLexer) (s : S) : JSONLexer * S :=
  if (new_state =? JSON_OPERATOR) || (new_state =? JSON_ESCAPE) || (new_state =? JSON_INTEGER) ||
     (new_state =? JSON_FLOAT) || (new_state =? JSON_KEYWORD) || (new_state =? JSON_STRING) then
    (mkLexer IN_START [] (x l) (y l), emit tok new_state (x l) (y l) s)
  else if new_state =? JSON_SKIP then (mkLexer IN_START [] (x l) (y l), s)
  else (mkLexer new_state tok (x l) (y l), s).

(** The do-while loop, at most [n] times. *)
Fixpoint feed_loop (n : nat) (c : Z) (l : JSONLexer) (s : S) : Z * JSONLexer * S :=
  match n with
  | O => (0, l, s)
  | Datatypes.S n' =>
      let new_state := json_lexer (state l) c in
      let char_consumed := negb (TERMINAL_NEEDED_LOOKAHEAD (state l) new_state) in
      let tok := if char_consumed then token l ++ [c] else token l in
      if new_state =? ERROR then (- EINVAL, mkLexer (state l) tok (x l) (y l), s)
      else
        let '(l, s) := switch_state new_state tok l s in
        if char_consumed then (0, l, s) else feed_loop n' c l s
  end.

Definition json_lexer_feed_char (c : Z) (l : JSONLexer) (s : S) : Z * JSONLexer * S :=
  let l := mkLexer (state l) (token l) (s32 (x l + 1)) (y l) in
  let l := if c =? NEWLINE then mkLexer (state l) (token l) 0 (s32 (y l + 1)) else l in
  feed_loop 2 c l s.

Fixpoint json_lexer_feed (buffer : list Z) (l : JSONLexer) (s : S) : Z * JSONLexer * S :=
  match buffer with
  | [] => (0, l, s)
  | c :: buffer' =>
      let '(err, l, s) := json_lexer_feed_char c l s in
      if err <? 0 then (err, l, s) else json_lexer_feed buffer' l s
  end.

Definition json_lexer_flush (l : JSONLexer) (s : S) : Z * JSONLexer * S :=
  if state l =? IN_START then (0, l, s) else json_lexer_feed_char 0 l s.

End Lexer.

(** ** What the table holds *)

Definition is_operator (c : Z) : bool :=
  (c =? ch "{") || (c =? ch "}") || (c =? ch "[") || (c =? ch "]") || (c =? ch ",") || (c =? ch ":").

Definition is_space (c : Z) : bool := (c =? ch " ") || (c =? TAB) || (c =? RETURN) || (c =? NEWLINE).

(** The four kinds of transition: an error, a character that continues a
    token, one that completes it, and one that follows it. *)
Inductive transition (st c : Z) : Prop :=
| t_error : json_lexer st c = ERROR ->
    (c = 0 -> TERMINAL_NEEDED_LOOKAHEAD st ERROR = true) -> transition st c
| t_more : TERMINAL_NEEDED_LOOKAHEAD st (json_lexer st c) = false -> c <> 0 ->
    1 <= json_lexer st c <= 28 ->
    (json_lexer st c = IN_WHITESPACE -> is_space c = true /\ (st = IN_WHITESPACE \/ st = IN_START)) ->
    transition st c
| t_last : TERMINAL_NEEDED_LOOKAHEAD st (json_lexer st c) = false -> c <> 0 ->
    (json_lexer st c = JSON_OPERATOR /\ st = IN_START /\ is_operator c = true) \/
    json_lexer st c = JSON_STRING \/ json_lexer st c = JSON_ESCAPE -> transition st c
| t_after : TERMINAL_NEEDED_LOOKAHEAD st (json_lexer st c) = true -> st <> IN_START ->
    json_lexer st c ∈ [JSON_INTEGER; JSON_FLOAT; JSON_KEYWORD; JSON_SKIP] ->
    (json_lexer st c = JSON_SKIP -> st = IN_WHITESPACE) -> transition st c.

Definition check_transition (st c : Z) : bool :=
  let n := json_lexer st c in
  let look := TERMINAL_NEEDED_LOOKAHEAD st n in
  (n =? ERROR) && (negb (c =? 0) || look) ||
  negb look && negb (c =? 0) &&
    ((1 <=? n) && (n <=? 28) &&
       (negb (n =? IN_WHITESPACE) || is_space c && ((st =? IN_WHITESPACE) || (st =? IN_START))) || (n =? JSON_OPERATOR) && (st =? IN_START) && is_operator c ||
     (n =? JSON_STRING) || (n =? JSON_ESCAPE)) ||
  look && negb (st =? IN_START) && bool_decide (n ∈ [JSON_INTEGER; JSON_FLOAT; JSON_KEYWORD; JSON_SKIP]) &&
    (negb (n =? JSON_SKIP) || (st =? IN_WHITESPACE)).

Lemma forallb_seqZ (f : Z -> bool) a n : forallb f (seqZ a n) = true -> forall i, a <= i < a + n -> f i = true.
Proof. intros H i Hi. rewrite forallb_forall in H. apply H, list_elem_of_In, elem_of_seqZ. lia. Qed.

Lemma check_all : forallb (fun st => forallb (check_transition st) (seqZ 0 256)) (seqZ 1 29) = true.
Proof. by vm_compute. Qed.

Lemma transition_of st c : 1 <= st <= 29 -> 0 <= c < 256 -> transition st c.
Proof.
  intros Hst Hc. assert (Hst' : 1 <= st < 1 + 29) by lia. assert (Hc' : 0 <= c < 0 + 256) by lia.
  pose proof (forallb_seqZ _ _ _ (forallb_seqZ _ _ _ check_all st Hst') c Hc') as H.
  unfold check_transition in H. cbv zeta in H.
  apply orb_prop in H as [[H|H]%orb_prop|H]; rewrite ?andb_true_iff, ?orb_true_iff, ?negb_true_iff, ?Z.eqb_eq, ?Z.eqb_neq in H.
  - destruct H as [E H]. apply t_error; [done|]. intros ->. rewrite <- E. by destruct H.
  - destruct H as [[H1 H2] [[[H|H]|H]|H]].
    + rewrite !andb_true_iff, !orb_true_iff, negb_true_iff, andb_true_iff, orb_true_iff, Z.eqb_neq, !Z.eqb_eq in H.
      destruct H as [Hr Hw]. apply t_more; [done|done|lia|]. intros E. by destruct Hw as [Hw|Hw].
    + rewrite !andb_true_iff, !Z.eqb_eq in H. apply t_last; tauto.
    + apply t_last; tauto.
    + apply t_last; tauto.
  - destruct H as [[[H1 H2] H3%bool_decide_eq_true] H4]. apply t_after; [done|done|done|].
    intros E. by destruct H4.
Qed.

(** ** The tokens emitted *)

(** A call of [emit]. *)
Record event := mkEvent { e_token : list Z; e_type : Z; e_x : Z; e_y : Z }.

Definition log_emit (token : list Z) (type x y : Z) (log : list event) : list event :=
  log ++ [mkEvent token type x y].

Definition replay {S} (emit : list Z -> Z -> Z -> Z -> S -> S) (log : list event) (s : S) : S :=
  foldl (fun s e => emit (e_token e) (e_type e) (e_x e) (e_y e) s) s log.

(** The log determines what any other callback does. *)
Lemma feed_loop_log {S} (emit : list Z -> Z -> Z -> Z -> S -> S) n c : forall l s log,
  feed_loop emit n c l (replay emit log s) =
  let '(err, l', log') := feed_loop log_emit n c l log in (err, l', replay emit log' s).
Proof.
  induction n as [|n IH]; intros l s log; cbn [feed_loop]; [done|]. cbv zeta.
  destruct (json_lexer (state l) c =? ERROR); [done|]. unfold switch_state.
  destruct (_ || _ || _ || _ || _ || _).
  - change (emit ?t ?n (x l) (y l) (replay emit log s))
      with (foldl (fun s e => emit (e_token e) (e_type e) (e_x e) (e_y e) s) (replay emit log s) [mkEvent t n (x l) (y l)]).
    unfold replay. rewrite <- foldl_app. destruct (negb _); [done|]. apply IH.
  - destruct (_ =? JSON_SKIP); destruct (negb _); done || apply IH.
Qed.

Lemma feed_char_log {S} (emit : list Z -> Z -> Z -> Z -> S -> S) c l s log :
  json_lexer_feed_char emit c l (replay emit log s) =
  let '(err, l', log') := json_lexer_feed_char log_emit c l log in (err, l', replay emit log' s).
Proof. apply feed_loop_log. Qed.

Lemma feed_log {S} (emit : list Z -> Z -> Z -> Z -> S -> S) buffer : forall l s log,
  json_lexer_feed emit buffer l (replay emit log s) =
  let '(err, l', log') := json_lexer_feed log_emit buffer l log in (err, l', replay emit log' s).
Proof.
  induction buffer as [|c buffer IH]; intros l s log; cbn [json_lexer_feed]; [done|].
  rewrite feed_char_log. destruct (json_lexer_feed_char log_emit c l log) as [[err l'] log'].
  destruct (err <? 0); [done|]. apply IH.
Qed.

Lemma flush_log {S} (emit : list Z -> Z -> Z -> Z -> S -> S) l s log :
  json_lexer_flush emit l (replay emit log s) =
  let '(err, l', log') := json_lexer_flush log_emit l log in (err, l', replay emit log' s).
Proof. unfold json_lexer_flush. destruct (state l =? IN_START); [done|]. apply feed_char_log. Qed.

(** ** The invariant *)

(** The token is empty exactly at the top level and contains no 0. *)
Record lexer_ok (l : JSONLexer) : Prop := {
  l_state : 1 <= state l <= 29;
  l_empty : state l = IN_START <-> token l = [];
  l_bytes : Forall (fun c => 1 <= c < 256) (token l)
}.

(** What is about to be skipped is white space.  (After an error it may not
    be: the character in error is kept.) *)
Definition clean (l : JSONLexer) : Prop :=
  state l = IN_WHITESPACE -> Forall (fun c => is_space c = true) (token l).

(** A token as the parser expects it. *)
Record event_ok (e : event) : Prop := {
  e_known : JSON_OPERATOR <= e_type e <= JSON_ESCAPE;
  e_text : e_token e <> [];
  e_bytes : Forall (fun c => 1 <= c < 256) (e_token e);
  e_single : e_type e = JSON_OPERATOR -> exists c, e_token e = [c] /\ is_operator c = true
}.

Lemma lexer_init_ok : lexer_ok json_lexer_init.
Proof. constructor; cbn; [unfold IN_START; lia|done|apply Forall_nil_2]. Qed.

(** One character from the state [l]: the lexer stays well formed, the events
    are, and unless there is an error the texts of the events and of the
    skipped white space, followed by the token in progress, are the old token
    and the character. *)
Definition pieces_of (log : list event) (pieces : list (bool * list Z)) : Prop :=
  (filter (fun p : bool * list Z => Is_true p.1) pieces).*2 = e_token <$> log /\
  Forall (fun p : bool * list Z => p.1 = false -> Forall (fun c => is_space c = true) p.2) pieces.

Record fed (text : list Z) (cl : Prop) (err : Z) (l' : JSONLexer) (log : list event) : Prop := {
  f_ok : lexer_ok l';
  f_events : Forall event_ok log;
  f_text : 0 <= err -> cl -> clean l' /\ exists pieces, pieces_of log pieces /\ text = concat pieces.*2 ++ token l'
}.

Lemma start_ok x y : lexer_ok (mkLexer IN_START [] x y).
Proof. constructor; cbn; [unfold IN_START; lia|done|apply Forall_nil_2]. Qed.

Lemma start_clean x y : clean (mkLexer IN_START [] x y).
Proof. done. Qed.

(** ** One round of the loop *)

Section Rounds.

Context {S : Type} (emit : list Z -> Z -> Z -> Z -> S -> S) (n : nat) (c : Z) (l : JSONLexer) (s : S).

Lemma round_error : json_lexer (state l) c = ERROR ->
  feed_loop emit (Datatypes.S n) c l s =
  (- EINVAL, mkLexer (state l) (if TERMINAL_NEEDED_LOOKAHEAD (state l) ERROR then token l else token l ++ [c])
               (x l) (y l), s).
Proof. intros E. cbn [feed_loop]. rewrite E. cbn -[TERMINAL_NEEDED_LOOKAHEAD EINVAL]. by destruct (TERMINAL_NEEDED_LOOKAHEAD _ _). Qed.

Lemma round_more k : json_lexer (state l) c = k -> TERMINAL_NEEDED_LOOKAHEAD (state l) k = false ->
  1 <= k <= 28 -> feed_loop emit (Datatypes.S n) c l s = (0, mkLexer k (token l ++ [c]) (x l) (y l), s).
Proof.
  intros E L H. cbn [feed_loop]. cbv zeta. rewrite E, L. cbn [negb].
  destruct (Z.eqb_spec k ERROR) as [->|_]; [unfold ERROR in H; lia|]. unfold switch_state.
  assert (N : forall m, 100 <= m -> (k =? m) = false) by (intros; apply Z.eqb_neq; lia).
  by rewrite !N by done.
Qed.

Lemma round_last k : json_lexer (state l) c = k -> TERMINAL_NEEDED_LOOKAHEAD (state l) k = false ->
  k ∈ [JSON_OPERATOR; JSON_STRING; JSON_ESCAPE] ->
  feed_loop emit (Datatypes.S n) c l s =
  (0, mkLexer IN_START [] (x l) (y l), emit (token l ++ [c]) k (x l) (y l) s).
Proof. intros E L H. cbn [feed_loop]. cbv zeta. rewrite E, L. cbn [negb]. by set_unfold; destruct H as [->|[->|[->|[]]]]. Qed.

Lemma round_after k : json_lexer (state l) c = k -> TERMINAL_NEEDED_LOOKAHEAD (state l) k = true ->
  k ∈ [JSON_INTEGER; JSON_FLOAT; JSON_KEYWORD] ->
  feed_loop emit (Datatypes.S n) c l s =
  feed_loop emit n c (mkLexer IN_START [] (x l) (y l)) (emit (token l) k (x l) (y l) s).
Proof.
  intros E L H. transitivity (let '(l, s) := switch_state emit k (token l) l s in feed_loop emit n c l s).
  - cbn [feed_loop]. cbv zeta. rewrite E, L. cbn [negb]. by set_unfold; destruct H as [->|[->|[->|[]]]].
  - by set_unfold; destruct H as [->|[->|[->|[]]]].
Qed.

Lemma round_skip : json_lexer (state l) c = JSON_SKIP ->
  TERMINAL_NEEDED_LOOKAHEAD (state l) JSON_SKIP = true ->
  feed_loop emit (Datatypes.S n) c l s = feed_loop emit n c (mkLexer IN_START [] (x l) (y l)) s.
Proof.
  intros E L. transitivity (let '(l, s) := switch_state emit JSON_SKIP (token l) l s in feed_loop emit n c l s).
  - cbn [feed_loop]. cbv zeta. by rewrite E, L.
  - done.
Qed.

End Rounds.

Lemma ok_bytes l c : lexer_ok l -> 0 <= c < 256 -> c <> 0 -> Forall (fun c => 1 <= c < 256) (token l ++ [c]).
Proof. intros H Hc Hz. apply Forall_app. split; [apply H|]. apply Forall_singleton. lia. Qed.

Lemma app_one_not_nil (l : list Z) c : l ++ [c] <> [].
Proof. by destruct l. Qed.

Lemma fed_error text cl l' : lexer_ok l' -> fed text cl (- EINVAL) l' [].
Proof. intros H. constructor; [done|apply Forall_nil_2|]. unfold EINVAL. lia. Qed.

(** A round that does not look ahead. *)
Lemma round_fed n c l log : lexer_ok l -> 0 <= c < 256 ->
  ~ (TERMINAL_NEEDED_LOOKAHEAD (state l) (json_lexer (state l) c) = true /\ state l <> IN_START /\
     json_lexer (state l) c ∈ [JSON_INTEGER; JSON_FLOAT; JSON_KEYWORD; JSON_SKIP]) ->
  exists err l' new, feed_loop log_emit (S n) c l log = (err, l', log ++ new) /\ fed (token l ++ [c]) (clean l) err l' new.
Proof.
  intros H Hc Hn. destruct (transition_of (state l) c (l_state l H) Hc) as [E1 E2|E1 E2 E3 E4|E1 E2 E3|E1 E2 E3 E4].
  - rewrite round_error by done. exists (- EINVAL). eexists _, []. rewrite app_nil_r. split; [done|]. apply fed_error.
    destruct (TERMINAL_NEEDED_LOOKAHEAD (state l) ERROR) eqn:L; [by destruct l|].
    constructor; cbn [state token]; [apply H| |].
    + split; intros G; exfalso; [|by apply app_one_not_nil in G].
      rewrite G in L. by vm_compute in L.
    + apply ok_bytes; [done|done|]. intros Z0. by specialize (E2 Z0).
  - erewrite round_more by eauto. eexists 0, _, []. rewrite app_nil_r. split; [done|]. constructor; cbn [state token].
    + constructor; cbn [state token]; [lia| |by apply ok_bytes].
      split; intros G; exfalso; [unfold IN_START in G; lia|by apply app_one_not_nil in G].
    + apply Forall_nil_2.
    + intros _ Cl. split; [|exists []; by split].
      intros G. destruct (E4 G) as [Gc Gs]. apply Forall_app. split; [|by apply Forall_singleton].
      destruct Gs as [Gs|Gs]; [by apply Cl|]. by rewrite (proj1 (l_empty l H) Gs).
  - assert (K : json_lexer (state l) c ∈ [JSON_OPERATOR; JSON_STRING; JSON_ESCAPE])
      by (set_unfold; destruct E3 as [(-> & _)|[->| ->]]; tauto).
    erewrite round_last by eauto. eexists 0, _, [_]. split; [done|]. constructor.
    + apply start_ok.
    + apply Forall_singleton. constructor; cbn [e_type e_token].
      * set_unfold. unfold JSON_OPERATOR, JSON_STRING, JSON_ESCAPE in *. lia.
      * apply app_one_not_nil.
      * by apply ok_bytes.
      * intros G. destruct E3 as [(_ & Hs & Ho)|[E| E]]; [|by rewrite E in G|by rewrite E in G].
        rewrite (proj1 (l_empty l H) Hs). by exists c.
    + intros _ _. split; [done|]. exists [(true, token l ++ [c])]. split; [by split; [|apply Forall_singleton]|]. cbn. by rewrite !app_nil_r.
  - destruct Hn. by split.
Qed.

(** The loop ends after at most two rounds. *)
Lemma feed_loop_fed n c l log : lexer_ok l -> 0 <= c < 256 ->
  exists err l' new, feed_loop log_emit (S (S n)) c l log = (err, l', log ++ new) /\ fed (token l ++ [c]) (clean l) err l' new.
Proof.
  intros H Hc. destruct (transition_of (state l) c (l_state l H) Hc) as [E1 E2|E1 E2 E3 E4|E1 E2 E3|E1 E2 E3 E4];
    [apply (round_fed (S n)); [done|done|]; intros (G1 & G2 & G3)..|].
  - rewrite E1 in G3. set_unfold in G3. unfold ERROR, JSON_INTEGER, JSON_FLOAT, JSON_KEYWORD, JSON_SKIP in G3. lia.
  - congruence.
  - congruence.
  - assert (St : forall x y log, exists err l' new, feed_loop log_emit (S n) c (mkLexer IN_START [] x y) log =
      (err, l', log ++ new) /\ fed [c] (clean (mkLexer IN_START [] x y)) err l' new).
    { intros x0 y0 log0. apply (round_fed n c (mkLexer IN_START [] x0 y0)); [apply start_ok|done|]. by intros (_ & [] & _). }
    set_unfold in E3. destruct (decide (json_lexer (state l) c = JSON_SKIP)) as [K|K].
    + rewrite round_skip by congruence. destruct (St (x l) (y l) log) as (err & l' & new & E & [F1 F2 F3]).
      eexists _, _, _. split; [exact E|]. constructor; [done|done|]. intros He Cl. destruct (F3 He (start_clean _ _)) as (C' & ps & P & T). split; [done|].
      exists ((false, token l) :: ps). split; [destruct P; split; [done|constructor; [|done]]; intros _; by apply Cl, E4|]. cbn. rewrite <- app_assoc. by rewrite <- T.
    + erewrite round_after; [|done|done|set_unfold; tauto]. set (e := mkEvent (token l) (json_lexer (state l) c) (x l) (y l)).
      change (log_emit (token l) (json_lexer (state l) c) (x l) (y l) log) with (log ++ [e]).
      destruct (St (x l) (y l) (log ++ [e])) as (err & l' & new & E & [F1 F2 F3]).
      eexists err, l', (e :: new). rewrite E, <- app_assoc. split; [done|]. constructor; [done| |].
      * constructor; [|done]. constructor; cbn [e_type e_token e].
        -- unfold JSON_INTEGER, JSON_FLOAT, JSON_KEYWORD, JSON_OPERATOR, JSON_ESCAPE in *. lia.
        -- intros G. apply E2. by apply H.
        -- apply H.
        -- unfold JSON_INTEGER, JSON_FLOAT, JSON_KEYWORD, JSON_OPERATOR in *. lia.
      * intros He Cl. destruct (F3 He (start_clean _ _)) as (C' & ps & P & T). split; [done|]. exists ((true, token l) :: ps).
        split; [destruct P as [P Q]; split; [rewrite filter_cons_True by done; cbn; by f_equal|by constructor]|]. cbn. rewrite <- app_assoc. by rewrite <- T.
Qed.

(** From the top level one round is enough. *)
Lemma feed_loop_start {S} (emit : list Z -> Z -> Z -> Z -> S -> S) n c x y s : 0 <= c < 256 ->
  feed_loop emit (Datatypes.S n) c (mkLexer IN_START [] x y) s = feed_loop emit 1 c (mkLexer IN_START [] x y) s.
Proof.
  intros Hc. set (l0 := mkLexer IN_START [] x y).
  destruct (transition_of IN_START c) as [F1 F2|F1 F2 F3 F4|F1 F2 F3|F1 F2 F3 F4]; [done|done| | | |done].
  - by rewrite !round_error.
  - by rewrite !(round_more _ _ _ l0 _ _ eq_refl F1 F3).
  - assert (K : json_lexer IN_START c ∈ [JSON_OPERATOR; JSON_STRING; JSON_ESCAPE]) by (set_unfold; tauto).
    by rewrite !(round_last _ _ _ l0 _ _ eq_refl F1 K).
Qed.

(** The fuel of the loop is enough. *)
Lemma feed_loop_two {S} (emit : list Z -> Z -> Z -> Z -> S -> S) n c l s : lexer_ok l -> 0 <= c < 256 ->
  feed_loop emit (Datatypes.S (Datatypes.S n)) c l s = feed_loop emit 2 c l s.
Proof.
  intros H Hc. destruct (transition_of (state l) c (l_state l H) Hc) as [E1 E2|E1 E2 E3 E4|E1 E2 E3|E1 E2 E3 E4].
  - by rewrite !round_error.
  - by rewrite !(round_more _ _ _ _ _ _ eq_refl E1 E3).
  - assert (K : json_lexer (state l) c ∈ [JSON_OPERATOR; JSON_STRING; JSON_ESCAPE]) by (set_unfold; tauto).
    by rewrite !(round_last _ _ _ _ _ _ eq_refl E1 K).
  - set (l0 := mkLexer IN_START [] (x l) (y l)).
    assert (St : forall s, feed_loop emit (Datatypes.S n) c l0 s = feed_loop emit 1 c l0 s)
      by (intros; by apply feed_loop_start).
    destruct (decide (json_lexer (state l) c = JSON_SKIP)) as [K|K].
    + rewrite K in E1. rewrite (round_skip _ (Datatypes.S n)), (round_skip _ 1) by done. apply St.
    + assert (K' : json_lexer (state l) c ∈ [JSON_INTEGER; JSON_FLOAT; JSON_KEYWORD]) by (set_unfold; tauto).
      rewrite (round_after _ (Datatypes.S n) _ _ _ _ eq_refl E1 K'), (round_after _ 1 _ _ _ _ eq_refl E1 K'). apply St.
Qed.

(** ** Whole buffers *)

Lemma feed_char_fed c l log : lexer_ok l -> 0 <= c < 256 ->
  exists err l' new, json_lexer_feed_char log_emit c l log = (err, l', log ++ new) /\
    (err = 0 \/ err = - EINVAL) /\ fed (token l ++ [c]) (clean l) err l' new.
Proof.
  intros H Hc. unfold json_lexer_feed_char. set (l0 := if c =? NEWLINE then _ else _).
  assert (E : state l0 = state l /\ token l0 = token l) by (unfold l0; by destruct (c =? NEWLINE)).
  destruct E as [E1 E2]. assert (H0 : lexer_ok l0) by (constructor; rewrite ?E1, ?E2; apply H).
  destruct (feed_loop_fed 0 c l0 log H0 Hc) as (err & l' & new & E & F). exists err, l', new.
  split; [done|]. rewrite <- E2. assert (C : clean l0 <-> clean l) by (unfold clean; by rewrite E1, E2).
  split; [|destruct F as [F1 F2 F3]; constructor; [done|done|]; intros He Cl; by apply F3, C].
  clear - E. revert E. assert (G : forall n l s, (feed_loop log_emit n c l s).1.1 = 0 \/
    (feed_loop log_emit n c l s).1.1 = - EINVAL).
  { induction n as [|n IH]; intros l1 s; cbn [feed_loop]; [by left|]. cbv zeta.
    destruct (_ =? ERROR); [by right|]. destruct (switch_state _ _ _ _ _) as [l2 s2].
    destruct (negb _); [by left|apply IH]. }
  intros E. specialize (G 2%nat l0 log). by rewrite E in G.
Qed.

Lemma pieces_app log1 log2 p1 p2 : pieces_of log1 p1 -> pieces_of log2 p2 -> pieces_of (log1 ++ log2) (p1 ++ p2).
Proof.
  intros [A1 B1] [A2 B2]. split; [|by apply Forall_app].
  by rewrite filter_app, !fmap_app, A1, A2.
Qed.

Lemma feed_fed buffer : forall l log, lexer_ok l -> Forall (fun c => 0 <= c < 256) buffer ->
  exists err l' new, json_lexer_feed log_emit buffer l log = (err, l', log ++ new) /\
    (err = 0 \/ err = - EINVAL) /\ fed (token l ++ buffer) (clean l) err l' new.
Proof.
  induction buffer as [|c buffer IH]; intros l log H Hb; cbn [json_lexer_feed].
  - exists 0, l, []. rewrite !app_nil_r. split; [done|]. split; [by left|].
    constructor; [done|apply Forall_nil_2|]. intros _ Cl. split; [done|]. by exists [].
  - apply Forall_cons in Hb as [Hc Hb].
    destruct (feed_char_fed c l log H Hc) as (err & l1 & new & E & He & [F1 F2 F3]). rewrite E.
    destruct He as [->| ->]; [cbn [Z.ltb Z.compare]|exists (- EINVAL), l1, new; split; [done|]; split; [by right|];
      constructor; [done|done|unfold EINVAL; lia]].
    destruct (IH l1 (log ++ new) F1 Hb) as (err & l2 & new2 & -> & He & [G1 G2 G3]).
    exists err, l2, (new ++ new2). rewrite <- app_assoc. split; [done|]. split; [done|].
    constructor; [done|by apply Forall_app|]. intros Hr Cl. destruct (F3 (Z.le_refl 0) Cl) as (Cl1 & p1 & P1 & T1).
    destruct (G3 Hr Cl1) as (Cl2 & p2 & P2 & T2). split; [done|]. exists (p1 ++ p2).
    split; [by apply pieces_app|].
    rewrite (cons_middle c), app_assoc, T1, <- app_assoc, T2. by rewrite fmap_app, concat_app, <- app_assoc.
Qed.

Lemma flush_fed l log : lexer_ok l ->
  exists err l' new, json_lexer_flush log_emit l log = (err, l', log ++ new) /\ lexer_ok l' /\ Forall event_ok new.
Proof.
  intros H. unfold json_lexer_flush. destruct (state l =? IN_START).
  - exists 0, l, []. rewrite app_nil_r. split; [done|]. split; [done|apply Forall_nil_2].
  - destruct (feed_char_fed 0 l log H) as (err & l' & new & E & _ & F); [lia|]. exists err, l', new.
    split; [done|]. split; apply F.
Qed.

(** The tokens partition the text.  Lexing a buffer from the initial state
    returns 0 or [-EINVAL] and no character needs more than two rounds of the
    loop; every token emitted has a known type, is not empty and has no zero
    byte, and operators are single characters.  When there is no error, the
    buffer is the concatenation of the tokens emitted, in order, with white
    space between them, and of the token in progress. *)
Theorem json_lexer_partitions (buffer : list Z) : Forall (fun c => 0 <= c < 256) buffer ->
  let '(err, l, log) := json_lexer_feed log_emit buffer json_lexer_init [] in
  (err = 0 \/ err = - EINVAL) /\ lexer_ok l /\ Forall event_ok log /\
  (forall n c, 0 <= c < 256 -> feed_loop log_emit (2 + n) c l log = feed_loop log_emit 2 c l log) /\
  (err = 0 -> exists pieces, pieces_of log pieces /\ buffer = concat pieces.*2 ++ token l).
Proof.
  intros Hb. destruct (feed_fed buffer json_lexer_init [] lexer_init_ok Hb) as (err & l & new & -> & He & [F1 F2 F3]).
  cbn [app]. split; [done|]. split; [done|]. split; [done|]. split.
  - intros n c Hc. by apply feed_loop_two.
  - intros ->. by destruct (F3 (Z.le_refl 0) (start_clean 0 0)) as (_ & ps & P & T); [exists ps].
Qed.

Lemma json_lexer_partitions_witness :
  let '(err, l, log) := json_lexer_feed log_emit (str "[1, true]") json_lexer_init [] in
  err = 0 /\ exists pieces, pieces_of log pieces /\ str "[1, true]" = concat pieces.*2 ++ token l.
Proof.
  pose proof (json_lexer_partitions (str "[1, true]")) as H.
  destruct (json_lexer_feed log_emit (str "[1, true]") json_lexer_init []) as [[err l] log] eqn:E.
  assert (E0 : err = 0) by (vm_compute in E; congruence). split; [exact E0|].
  apply H; [|exact E0]. repeat constructor; vm_compute; congruence.
Defined.

End JsonLexer.

(** ** The message splitter (json-streamer.c) *)

Module JsonStreamer.
Import JsonLexer.

Record JSONMessageParser := mkParser { brace_count : Z; bracket_count : Z; tokens : list QObject.QObject }.

Section Streamer.

(** [emit tokens], on a state [T]. *)
Context {T : Type} (emit : list QObject.QObject -> T -> T).

(** The dictionary that describes a token. *)
Definition token_dict (token : list Z) (type x y : Z) : QObject.QObject :=
  let dict := QDict.qdict_new in
  let dict := QDict.qdict_put_obj dict (str "type") (QObject.QInt type) in
  let dict := QDict.qdict_put_obj dict (str "token") (QObject.QString token) in
  let dict := QDict.qdict_put_obj dict (str "x") (QObject.QInt x) in
  let dict := QDict.qdict_put_obj dict (str "y") (QObject.QInt y) in
  QObject.QDict dict.

(** The counters after a token, by the first character of an operator. *)
Definition count_token (token : list Z) (type brace bracket : Z) : Z * Z :=
  if type =? JSON_OPERATOR then
    let c := default 0 (head token) in
    if c =? ch "{" then (s32 (brace + 1), bracket)
    else if c =? ch "}" then (s32 (brace - 1), bracket)
    else if c =? ch "[" then (brace, s32 (bracket + 1))
    else if c =? ch "]" then (brace, s32 (bracket - 1))
    else (brace, bracket)
  else (brace, bracket).

Definition json_message_process_token (token : list Z) (type x y : Z)
    (s : JSONMessageParser * T) : JSONMessageParser * T :=
  let '(parser, t) := s in
  let '(brace, bracket) := count_token token type (brace_count parser) (bracket_count parser) in
  let toks := QObject.qlist_append_obj (tokens parser) (token_dict token type x y) in
  if (brace =? 0) && (bracket =? 0) then (mkParser brace bracket [], emit toks t)
  else (mkParser brace bracket toks, t).

Definition json_message_parser_init : JSONLexer * JSONMessageParser :=
  (json_lexer_init, mkParser 0 0 []).

Definition json_message_parser_feed (buffer : list Z) (l : JSONLexer) (s : JSONMessageParser * T) :
    Z * JSONLexer * (JSONMessageParser * T) :=
  json_lexer_feed json_message_process_token buffer l s.

Definition json_message_parser_flush (l : JSONLexer) (s : JSONMessageParser * T) :
    Z * JSONLexer * (JSONMessageParser * T) :=
  json_lexer_flush json_message_process_token l s.

End Streamer.

(** ** The messages handed over *)

(** The calls that a connection makes. *)
Inductive call := Feed (buffer : list Z) | Flush.

Definition run_call {T} (emit : list QObject.QObject -> T -> T) (k : call)
    (w : JSONLexer * (JSONMessageParser * T)) : JSONLexer * (JSONMessageParser * T) :=
  let '(_, l, s) :=
    match k with
    | Feed buffer => json_message_parser_feed emit buffer w.1 w.2
    | Flush => json_message_parser_flush emit w.1 w.2
    end in (l, s).

Definition run {T} (emit : list QObject.QObject -> T -> T) (calls : list call) (t : T) :
    JSONLexer * (JSONMessageParser * T) :=
  foldl (fun w k => run_call emit k w)
    (json_message_parser_init.1, (json_message_parser_init.2, t)) calls.

Definition log_message (toks : list QObject.QObject) (out : list (list QObject.QObject)) :
    list (list QObject.QObject) := out ++ [toks].

(** The lists of tokens handed to the callback over all the calls. *)
Definition messages (calls : list call) : list (list QObject.QObject) := (run log_message calls []).2.2.

Definition dict_of (e : event) : QObject.QObject := token_dict (e_token e) (e_type e) (e_x e) (e_y e).

(** What a token adds to the number of open braces and of open brackets. *)
Definition opens (open close : Z) (e : event) : Z :=
  if e_type e =? JSON_OPERATOR then
    if default 0 (head (e_token e)) =? open then 1
    else if default 0 (head (e_token e)) =? close then -1 else 0
  else 0.

Definition braces (es : list event) : Z := foldr Z.add 0 (opens (ch "{") (ch "}") <$> es).
Definition brackets (es : list event) : Z := foldr Z.add 0 (opens (ch "[") (ch "]") <$> es).

(** A list of tokens that is handed over. *)
Record message_ok (toks : list QObject.QObject) (es : list event) : Prop := {
  m_tokens : toks = dict_of <$> es;
  m_some : es <> [];
  m_events : Forall event_ok es;
  m_braces : s32 (braces es) = 0;
  m_brackets : s32 (brackets es) = 0
}.

Record streamer_ok (p : JSONMessageParser) (out : list (list QObject.QObject)) : Prop := {
  s_pending : exists es, tokens p = dict_of <$> es /\ Forall event_ok es /\
    brace_count p = s32 (braces es) /\ bracket_count p = s32 (brackets es);
  s_out : Forall (fun toks => exists es, message_ok toks es) out
}.

Lemma sum_snoc (l : list Z) a : foldr Z.add 0 (l ++ [a]) = foldr Z.add 0 l + a.
Proof. induction l as [|b l IH]; cbn; lia. Qed.

Lemma braces_snoc es e : braces (es ++ [e]) = braces es + opens (ch "{") (ch "}") e.
Proof. unfold braces. by rewrite fmap_app, <- sum_snoc. Qed.

Lemma brackets_snoc es e : brackets (es ++ [e]) = brackets es + opens (ch "[") (ch "]") e.
Proof. unfold brackets. by rewrite fmap_app, <- sum_snoc. Qed.

Lemma s32_shift a b : s32 (s32 a + b) = s32 (a + b).
Proof.
  unfold swrap. f_equal.
  replace ((a + 2 ^ (32 - 1)) mod 2 ^ 32 - 2 ^ (32 - 1) + b + 2 ^ (32 - 1))
    with ((a + 2 ^ (32 - 1)) mod 2 ^ 32 + b) by lia.
  rewrite Zplus_mod_idemp_l. f_equal. lia.
Qed.

Lemma count_token_balance e es :
  count_token (e_token e) (e_type e) (s32 (braces es)) (s32 (brackets es)) =
  (s32 (braces (es ++ [e])), s32 (brackets (es ++ [e]))).
Proof.
  rewrite braces_snoc, brackets_snoc. unfold count_token, opens.
  destruct (e_type e =? JSON_OPERATOR); [|by rewrite !Z.add_0_r].
  set (c := default 0 (head (e_token e))). clearbody c.
  destruct (Z.eqb_spec c (ch "{")) as [->|_]; [by rewrite s32_shift, Z.add_0_r|].
  destruct (Z.eqb_spec c (ch "}")) as [->|_]; [rewrite <- !Z.add_opp_r; by rewrite s32_shift, Z.add_0_r|].
  destruct (Z.eqb_spec c (ch "[")) as [->|_]; [by rewrite s32_shift, Z.add_0_r|].
  destruct (Z.eqb_spec c (ch "]")) as [->|_]; [rewrite <- !Z.add_opp_r; by rewrite s32_shift, Z.add_0_r|].
  by rewrite !Z.add_0_r.
Qed.

Lemma process_ok e p out : event_ok e -> streamer_ok p out ->
  let '(p', out') := json_message_process_token log_message (e_token e) (e_type e) (e_x e) (e_y e) (p, out) in
  streamer_ok p' out'.
Proof.
  intros He [(es & E1 & E2 & E3 & E4) Ho]. unfold json_message_process_token.
  rewrite E3, E4, count_token_balance, E1. unfold QObject.qlist_append_obj. cbv zeta.
  assert (F : Forall event_ok (es ++ [e])) by (apply Forall_app; split; [done|by apply Forall_singleton]).
  change ((dict_of <$> es) ++ [token_dict (e_token e) (e_type e) (e_x e) (e_y e)])
    with ((dict_of <$> es) ++ (dict_of <$> [e])). rewrite <- fmap_app.
  destruct (Z.eqb_spec (s32 (braces (es ++ [e]))) 0) as [B|B];
    [destruct (Z.eqb_spec (s32 (brackets (es ++ [e]))) 0) as [K|K]|]; cbn [andb].
  - constructor; cbn [tokens brace_count bracket_count]; [exists []; split; [done|]; split; [apply Forall_nil_2|done]|].
    apply Forall_app. split; [done|]. apply Forall_singleton. exists (es ++ [e]). constructor; try done.
    by destruct es.
  - constructor; [by exists (es ++ [e])|done].
  - constructor; [by exists (es ++ [e])|done].
Qed.

Lemma replay_ok log : Forall event_ok log -> forall p out, streamer_ok p out ->
  let '(p', out') := replay (json_message_process_token log_message) log (p, out) in streamer_ok p' out'.
Proof.
  induction 1 as [|e log He Hl IH]; intros p out H; [done|]. unfold replay in *. cbn [foldl].
  pose proof (process_ok e p out He H) as G.
  destruct (json_message_process_token log_message _ _ _ _ (p, out)) as [p1 out1]. by apply IH.
Qed.

Definition bytes_of (k : call) : list Z := match k with Feed buffer => buffer | Flush => [] end.

(** Whatever is fed, every message handed over is a balanced list of well
    formed tokens. *)
Lemma messages_ok calls : Forall (fun k => Forall (fun c => 0 <= c < 256) (bytes_of k)) calls ->
  Forall (fun toks => exists es, message_ok toks es) (messages calls).
Proof.
  intros H. unfold messages, run.
  assert (G : forall w, lexer_ok w.1 -> streamer_ok w.2.1 w.2.2 ->
    let w' := foldl (fun w k => run_call log_message k w) w calls in lexer_ok w'.1 /\ streamer_ok w'.2.1 w'.2.2).
  { induction H as [|k calls Hk Hc IH]; intros [l [p out]] Hl Hs; [done|]. cbn [foldl]. cbn [fst snd] in Hl, Hs.
    assert (E : exists log, Forall event_ok log /\ lexer_ok (run_call log_message k (l, (p, out))).1 /\
      (run_call log_message k (l, (p, out))).2 = replay (json_message_process_token log_message) log (p, out)).
    { unfold run_call, json_message_parser_feed, json_message_parser_flush. cbn [fst snd].
      change (p, out) with (replay (json_message_process_token log_message) [] (p, out)). destruct k as [buffer|].
      - rewrite feed_log. destruct (feed_fed buffer l [] Hl Hk) as (err & l' & new & -> & _ & [F1 F2 _]).
        by exists new.
      - rewrite flush_log. destruct (flush_fed l [] Hl) as (err & l' & new & -> & F1 & F2). by exists new. }
    destruct E as (log & L1 & L2 & L3). apply IH; [done|]. rewrite L3.
    pose proof (replay_ok log L1 p out Hs). by destruct (replay _ _ _). }
  apply G; [apply lexer_init_ok|]. constructor; [exists []; split; [done|]; split; [apply Forall_nil_2|done]|apply Forall_nil_2].
Qed.

End JsonStreamer.
