(* ===== verification/JsonParser.v ===== *)
(** * The JSON parser of the management protocol (src/qemu/json-parser.c)

    Recursive descent over the list of token dictionaries.  A routine returns
    [Ret] of its result and of the tokens and variadic arguments that are
    left, or [Crash] where the code would read through a null pointer, fail an
    assertion or take a variadic argument of the wrong type.  The null pointer
    is [None].  [NoFuel] is the end of the fuel of a recursion; a theorem
    shows that the fuel [json_parser_parse] starts with is enough.

    [parse_error] only prints its message and is left out.  [strtoll] and
    [strtod] are the functions of the C library on decimal text. *)
From S2P Require Import Prelude QDict QObject JsonLexer.
From Stdlib Require Import String Ascii.
From stdpp Require Import list sets.

#[local] Open Scope Z_scope.
#[local] Open Scope c_scope.

Inductive M (A : Type) := Crash | NoFuel | Ret (a : A).
Arguments Crash {A}.
Arguments NoFuel {A}.
Arguments Ret {A} a.

#[export] Instance M_bind : MBind M := fun A B f m =>
  match m with
  | Crash => Crash
  | NoFuel => NoFuel
  | Ret a => f a
  end.

(** [x], or a crash. *)
Definition need {A} (x : option A) : M A := match x with Some a => Ret a | None => Crash end.

(** ** Numbers from text (the C library) *)

Definition is_digit (c : Z) : bool := (ch "0" <=? c) && (c <=? ch "9").

(** The digits at the start of a text: their value on top of [v], their
    number, and the rest. *)
Fixpoint scan_digits (v k : Z) (s : list Z) : Z * Z * list Z :=
  match s with
  | c :: s' => if is_digit c then scan_digits (10 * v + (c - ch "0")) (k + 1) s' else (v, k, s)
  | [] => (v, k, [])
  end.

Fixpoint skip_spaces (s : list Z) : list Z :=
  match s with
  | c :: s' => if (c =? 32) || ((9 <=? c) && (c <=? 13)) then skip_spaces s' else s
  | [] => []
  end.

Definition scan_sign (s : list Z) : bool * list Z :=
  match s with
  | c :: s' => if c =? ch "-" then (true, s') else if c =? ch "+" then (false, s') else (false, s)
  | [] => (false, [])
  end.

(** Base 10; out of range values are clamped. *)
Definition strtoll (s : list Z) : Z :=
  let '(neg, s) := scan_sign (skip_spaces s) in
  let '(v, _, _) := scan_digits 0 0 s in
  let v := if neg then - v else v in
  Z.max (- 2 ^ 63) (Z.min (2 ^ 63 - 1) v).

(** The integer nearest to [num / den], ties to even. *)
Definition round_even (num den : Z) : Z :=
  let q := num / den in
  let r := 2 * (num mod den) in
  if (r <? den) || ((r =? den) && Z.even q) then q else q + 1.

(** The bits of the double nearest to [num / den], [num >= 0]. *)
Definition to_double (neg : bool) (num den : Z) : Z :=
  let sign := if neg then 2 ^ 63 else 0 in
  if num =? 0 then sign
  else
    let e := Z.log2 num - Z.log2 den in
    let e := if num * 2 ^ Z.max 0 (- e) <? den * 2 ^ Z.max 0 e then e - 1 else e in
    let k := Z.max (e - 52) (-1074) in
    let q := round_even (num * 2 ^ Z.max 0 (- k)) (den * 2 ^ Z.max 0 k) in
    let bits := if q <? 2 ^ 52 then q else (k + 1075) * 2 ^ 52 + (q - 2 ^ 52) in
    sign + Z.min bits (0x7FF * 2 ^ 52).

Definition strtod (s : list Z) : Z :=
  let '(neg, s) := scan_sign (skip_spaces s) in
  let '(v, _, s) := scan_digits 0 0 s in
  let '(v, k, s) :=
    match s with
    | c :: s' => if c =? ch "." then scan_digits v 0 s' else (v, 0, s)
    | [] => (v, 0, [])
    end in
  let e :=
    match s with
    | c :: s' =>
        if (c =? ch "e") || (c =? ch "E") then
          let '(eneg, s') := scan_sign s' in
          let '(e, _, _) := scan_digits 0 0 s' in
          if eneg then - e else e
        else 0
    | [] => 0
    end in
  let e := e - k in
  to_double neg (v * 10 ^ Z.max 0 e) (10 ^ Z.max 0 (- e)).

Module JsonParser.
Import JsonLexer.

(** ** Token manipulators *)

Definition token_get_value (obj : option QObject.QObject) : M (list Z) :=
  match obj with
  | Some (QObject.QDict d) => need (QObject.qdict_get_str d (str "token"))
  | _ => Crash
  end.

Definition token_get_type (obj : option QObject.QObject) : M Z :=
  match obj with
  | Some (QObject.QDict d) => need (QObject.qdict_get_int d (str "type"))
  | _ => Crash
  end.

Definition token_is_operator (obj : option QObject.QObject) (op : Z) : M bool :=
  type ← token_get_type obj;
  if negb (type =? JSON_OPERATOR) then Ret false
  else
    val ← token_get_value obj;
    Ret ((default 0 (val !! 0%nat) =? op) && (default 0 (val !! 1%nat) =? 0)).

Definition token_is_keyword (obj : option QObject.QObject) (value : list Z) : M bool :=
  type ← token_get_type obj;
  if negb (type =? JSON_KEYWORD) then Ret false
  else val ← token_get_value obj; Ret (bool_decide (val = value)).

Definition token_is_escape (obj : option QObject.QObject) (value : list Z) : M bool :=
  type ← token_get_type obj;
  if negb (type =? JSON_ESCAPE) then Ret false
  else val ← token_get_value obj; Ret (bool_decide (val = value)).

(** ** String helpers *)

(** The contents of [buffer], with the final 0. *)
Definition wchar_to_utf8 (wchar buffer_length : Z) : M (list Z) :=
  if wchar <=? 0x007F then
    if buffer_length <? 2 then Crash else Ret [wchar &. 0x7F; 0]
  else if wchar <=? 0x07FF then
    if buffer_length <? 3 then Crash
    else Ret [0xC0 |. ((wchar >>. 6) &. 0x1F); 0x80 |. (wchar &. 0x3F); 0]
  else
    if buffer_length <? 4 then Crash
    else Ret [0xE0 |. ((wchar >>. 12) &. 0x0F); 0x80 |. ((wchar >>. 6) &. 0x3F); 0x80 |. (wchar &. 0x3F); 0].

Definition hex2decimal (c : Z) : Z :=
  if (ch "0" <=? c) && (c <=? ch "9") then c - ch "0"
  else if (ch "a" <=? c) && (c <=? ch "f") then 10 + (c - ch "a")
  else if (ch "A" <=? c) && (c <=? ch "F") then 10 + (c - ch "A")
  else -1.

Definition qemu_isxdigit (c : Z) : bool :=
  is_digit c || ((ch "a" <=? c) && (c <=? ch "f")) || ((ch "A" <=? c) && (c <=? ch "F")).

(** The string at [buffer], up to its first 0. *)
Fixpoint c_string (buffer : list Z) : list Z :=
  match buffer with
  | [] => []
  | c :: buffer' => if c =? 0 then [] else c :: c_string buffer'
  end.

(** [unicode_char] after the four digits. *)
Definition unicode_of (digits : list Z) : Z :=
  fst (foldl (fun acc c => (u16 (acc.1 |. (hex2decimal c <<. ((3 - acc.2) * 4))), acc.2 + 1)) (0, 0) digits).

(** What a one-character escape stands for. *)
Definition escape_of (c : Z) : option Z :=
  if c =? QUOTE then Some QUOTE
  else if c =? ch "'" then Some (ch "'")
  else if c =? ch "\" then Some (ch "\")
  else if c =? ch "/" then Some (ch "/")
  else if c =? ch "b" then Some 8
  else if c =? ch "f" then Some 12
  else if c =? ch "n" then Some NEWLINE
  else if c =? ch "r" then Some RETURN
  else if c =? ch "t" then Some TAB
  else None.

(** The loop; [str] is the result so far.  [Ret None] is the exit [out]. *)
Fixpoint unescape (double_quote : bool) (ptr str : list Z) : M (option (list Z)) :=
  match ptr with
  | [] => Ret (Some str)
  | c :: ptr1 =>
      if (c =? 0) || negb ((double_quote && negb (c =? QUOTE)) || (negb double_quote && negb (c =? ch "'")))
      then Ret (Some str)
      else if c =? ch "\" then
        match ptr1 with
        | [] => Ret None
        | e :: ptr2 =>
            match escape_of e with
            | Some r => unescape double_quote ptr2 (str ++ [r])
            | None =>
                if e =? ch "u" then
                  match ptr2 with
                  | h0 :: h1 :: h2 :: h3 :: ptr3 =>
                      if qemu_isxdigit h0 && qemu_isxdigit h1 && qemu_isxdigit h2 && qemu_isxdigit h3 then
                        utf8_char ← wchar_to_utf8 (unicode_of [h0; h1; h2; h3]) 4;
                        unescape double_quote ptr3 (str ++ c_string utf8_char)
                      else Ret None
                  | _ => Ret None
                  end
                else Ret None
            end
        end
      else unescape double_quote ptr1 (str ++ [c])
  end.

Definition qstring_from_escaped_str (token : option QObject.QObject) : M (option (list Z)) :=
  ptr ← token_get_value token;
  match ptr with
  | [] => Crash
  | c :: ptr => if c =? 0 then Crash else unescape (c =? QUOTE) ptr []
  end.

(** ** Parsing rules *)

(** A variadic argument, with its type. *)
Inductive va :=
| va_object (o : option QObject.QObject)
| va_int (v : Z)
| va_long (v : Z)
| va_long_long (v : Z)
| va_string (s : list Z)
| va_double (v : Z).

Abbreviation va_list := (option (list va)).
Abbreviation toks := (list QObject.QObject).

Definition va_arg {A} (get : va -> option A) (ap : list va) : M (A * list va) :=
  match ap with
  | [] => Crash
  | a :: ap' => x ← need (get a); Ret (x, ap')
  end.

Section Rules.

Context (parse_value : toks -> va_list -> M (option QObject.QObject * toks * va_list)).

(** Returns 0 or -1, the dictionary and what is left. *)
Definition parse_pair (dict : QDict.qdict QObject.QObject) (tokens : toks) (ap : va_list) :
    M (Z * QDict.qdict QObject.QObject * toks * va_list) :=
  let working := QObject.qlist_copy tokens in
  '(key, working, ap) ← parse_value working ap;
  match key with
  | Some (QObject.QString k) =>
      let '(token, working) := QObject.qlist_pop working in
      colon ← token_is_operator token (ch ":");
      if negb colon then Ret (-1, dict, tokens, ap)
      else
        '(value, working, ap) ← parse_value working ap;
        match value with
        | None => Ret (-1, dict, tokens, ap)
        | Some v => Ret (0, QDict.qdict_put_obj dict k v, working, ap)
        end
  | _ => Ret (-1, dict, tokens, ap)
  end.

(** The loop of [parse_object]; [None] is the exit [out]. *)
Fixpoint object_loop (n : nat) (token : option QObject.QObject) (dict : QDict.qdict QObject.QObject)
    (working : toks) (ap : va_list) : M (option (QDict.qdict QObject.QObject) * toks * va_list) :=
  match n with
  | O => NoFuel
  | S n' =>
      closed ← token_is_operator token (ch "}");
      if closed : bool then Ret (Some dict, working, ap)
      else
        comma ← token_is_operator token (ch ",");
        if negb comma then Ret (None, working, ap)
        else
          '(rc, dict, working, ap) ← parse_pair dict working ap;
          if rc =? -1 then Ret (None, working, ap)
          else
            let '(token, working) := QObject.qlist_pop working in
            object_loop n' token dict working ap
  end.

Definition parse_object (n : nat) (tokens : toks) (ap : va_list) :
    M (option QObject.QObject * toks * va_list) :=
  let working := QObject.qlist_copy tokens in
  let '(token, working) := QObject.qlist_pop working in
  open ← token_is_operator token (ch "{");
  if negb open then Ret (None, tokens, ap)
  else
    let dict := QDict.qdict_new in
    let peek := QObject.qlist_peek working in
    closed ← token_is_operator peek (ch "}");
    if closed : bool then Ret (Some (QObject.QDict dict), snd (QObject.qlist_pop working), ap)
    else
      '(rc, dict, working, ap) ← parse_pair dict working ap;
      if rc =? -1 then Ret (None, tokens, ap)
      else
        let '(token, working) := QObject.qlist_pop working in
        '(d, working, ap) ← object_loop n token dict working ap;
        match d with
        | None => Ret (None, tokens, ap)
        | Some dict => Ret (Some (QObject.QDict dict), working, ap)
        end.

Fixpoint array_loop (n : nat) (token : option QObject.QObject) (l : list QObject.QObject)
    (working : toks) (ap : va_list) : M (option (list QObject.QObject) * toks * va_list) :=
  match n with
  | O => NoFuel
  | S n' =>
      closed ← token_is_operator token (ch "]");
      if closed : bool then Ret (Some l, working, ap)
      else
        comma ← token_is_operator token (ch ",");
        if negb comma then Ret (None, working, ap)
        else
          '(obj, working, ap) ← parse_value working ap;
          match obj with
          | None => Ret (None, working, ap)
          | Some obj =>
              let l := QObject.qlist_append_obj l obj in
              let '(token, working) := QObject.qlist_pop working in
              array_loop n' token l working ap
          end
  end.

Definition parse_array (n : nat) (tokens : toks) (ap : va_list) :
    M (option QObject.QObject * toks * va_list) :=
  let working := QObject.qlist_copy tokens in
  let '(token, working) := QObject.qlist_pop working in
  open ← token_is_operator token (ch "[");
  if negb open then Ret (None, tokens, ap)
  else
    let peek := QObject.qlist_peek working in
    closed ← token_is_operator peek (ch "]");
    if closed : bool then Ret (Some (QObject.QList []), snd (QObject.qlist_pop working), ap)
    else
      '(obj, working, ap) ← parse_value working ap;
      match obj with
      | None => Ret (None, tokens, ap)
      | Some obj =>
          let l := QObject.qlist_append_obj [] obj in
          let '(token, working) := QObject.qlist_pop working in
          '(l, working, ap) ← array_loop n token l working ap;
          match l with
          | None => Ret (None, tokens, ap)
          | Some l => Ret (Some (QObject.QList l), working, ap)
          end
      end.

End Rules.

Definition parse_keyword (tokens : toks) : M (option QObject.QObject * toks) :=
  let working := QObject.qlist_copy tokens in
  let '(token, working) := QObject.qlist_pop working in
  type ← token_get_type token;
  if negb (type =? JSON_KEYWORD) then Ret (None, tokens)
  else
    is_true ← token_is_keyword token (str "true");
    if is_true : bool then Ret (Some (QObject.QBool 1), working)
    else
      is_false ← token_is_keyword token (str "false");
      if is_false : bool then Ret (Some (QObject.QBool 0), working)
      else _ ← token_get_value token; Ret (None, tokens).

(** The conversions that an escape asks for, in the order of the tests. *)
Definition escapes : list (list Z * (va -> option (option QObject.QObject))) :=
  [(str "%p", fun a => match a with va_object o => Some o | _ => None end);
   (str "%i", fun a => match a with va_int v => Some (Some (QObject.QBool v)) | _ => None end);
   (str "%d", fun a => match a with va_int v => Some (Some (QObject.QInt v)) | _ => None end);
   (str "%ld", fun a => match a with va_long v => Some (Some (QObject.QInt v)) | _ => None end);
   (str "%lld", fun a => match a with va_long_long v => Some (Some (QObject.QInt v)) | _ => None end);
   (str "%I64d", fun a => match a with va_long_long v => Some (Some (QObject.QInt v)) | _ => None end);
   (str "%s", fun a => match a with va_string s => Some (Some (QObject.QString s)) | _ => None end);
   (str "%f", fun a => match a with va_double v => Some (Some (QObject.QFloat v)) | _ => None end)].

(** The first conversion whose text the token has. *)
Fixpoint find_escape (token : option QObject.QObject)
    (l : list (list Z * (va -> option (option QObject.QObject)))) :
    M (option (va -> option (option QObject.QObject))) :=
  match l with
  | [] => Ret None
  | (text, get) :: l' =>
      same ← token_is_escape token text;
      if same : bool then Ret (Some get) else find_escape token l'
  end.

Definition parse_escape (tokens : toks) (ap : va_list) : M (option QObject.QObject * toks * va_list) :=
  match ap with
  | None => Ret (None, tokens, ap)
  | Some args =>
      let working := QObject.qlist_copy tokens in
      let '(token, working) := QObject.qlist_pop working in
      get ← find_escape token escapes;
      match get with
      | None => Ret (None, tokens, ap)
      | Some get => '(obj, args) ← va_arg get args; Ret (obj, working, Some args)
      end
  end.

(** A string that cannot be unescaped gives no value, but its token is used. *)
Definition parse_literal (tokens : toks) : M (option QObject.QObject * toks) :=
  let working := QObject.qlist_copy tokens in
  let '(token, working) := QObject.qlist_pop working in
  type ← token_get_type token;
  if type =? JSON_STRING then
    s ← qstring_from_escaped_str token; Ret (option_map QObject.QString s, working)
  else if type =? JSON_INTEGER then
    v ← token_get_value token; Ret (Some (QObject.QInt (strtoll v)), working)
  else if type =? JSON_FLOAT then
    v ← token_get_value token; Ret (Some (QObject.QFloat (strtod v)), working)
  else Ret (None, tokens).

Fixpoint parse_value (n : nat) (tokens : toks) (ap : va_list) : M (option QObject.QObject * toks * va_list) :=
  match n with
  | O => NoFuel
  | S n' =>
      '(obj, tokens, ap) ← parse_object (parse_value n') n tokens ap;
      '(obj, tokens, ap) ←
        match obj with Some _ => Ret (obj, tokens, ap) | None => parse_array (parse_value n') n tokens ap end;
      '(obj, tokens, ap) ←
        match obj with Some _ => Ret (obj, tokens, ap) | None => parse_escape tokens ap end;
      '(obj, tokens) ←
        match obj with Some _ => Ret (obj, tokens) | None => parse_keyword tokens end;
      '(obj, tokens) ←
        match obj with Some _ => Ret (obj, tokens) | None => parse_literal tokens end;
      Ret (obj, tokens, ap)
  end.

(** The result, and the variadic arguments that [*ap] has left. *)
Definition json_parser_parse (tokens : toks) (ap : va_list) : M (option QObject.QObject * va_list) :=
  let working := QObject.qlist_copy tokens in
  '(result, _, ap) ← parse_value (S (length tokens)) working ap; Ret (result, ap).

(** ** Tokens made by the message splitter *)

Import JsonStreamer.

Lemma dict_type e : token_get_type (Some (dict_of e)) = Ret (e_type e).
Proof.
  unfold token_get_type, dict_of, token_dict, QObject.qdict_get_int.
  rewrite !QDict.get_put by (repeat apply QDict.put_wf; apply QDict.qdict_new_wf).
  by rewrite !bool_decide_eq_false_2, bool_decide_eq_true_2 by done.
Qed.

Lemma dict_value e : token_get_value (Some (dict_of e)) = Ret (e_token e).
Proof.
  unfold token_get_value, dict_of, token_dict, QObject.qdict_get_str.
  rewrite !QDict.get_put by (repeat apply QDict.put_wf; apply QDict.qdict_new_wf).
  by rewrite !bool_decide_eq_false_2, bool_decide_eq_true_2 by done.
Qed.

(** The operator that a token is. *)
Definition is_op (e : event) (op : Z) : bool := (e_type e =? JSON_OPERATOR) && bool_decide (e_token e = [op]).

Lemma dict_operator e op : event_ok e -> op <> 0 -> token_is_operator (Some (dict_of e)) op = Ret (is_op e op).
Proof.
  intros [_ _ _ H] Hop. unfold token_is_operator, is_op. rewrite dict_type. cbn [mbind M_bind].
  destruct (Z.eqb_spec (e_type e) JSON_OPERATOR) as [E|E]; cbn [negb andb]; [|done].
  rewrite dict_value. cbn [mbind M_bind]. destruct (H E) as (c & -> & _). cbn. rewrite andb_true_r. f_equal.
  destruct (Z.eqb_spec c op) as [->|]; [by rewrite bool_decide_eq_true_2|].
  rewrite bool_decide_eq_false_2; [done|congruence].
Qed.

Lemma null_operator op : token_is_operator None op = Crash.
Proof. done. Qed.

Lemma pop_dicts es : QObject.qlist_pop (dict_of <$> es) = (dict_of <$> head es, dict_of <$> tail es).
Proof. by destruct es. Qed.

(** ** Safety *)

(** [m] ends; [C] holds if it crashes and [Q] of its result otherwise. *)
Definition ends {A} (m : M A) (C : Prop) (Q : A -> Prop) : Prop :=
  match m with Crash => C | NoFuel => False | Ret a => Q a end.

Lemma ends_bind {A B} (m : M A) (f : A -> M B) C Q :
  ends m C (fun a => ends (f a) C Q) -> ends (m ≫= f) C Q.
Proof. by destruct m. Qed.

Lemma ends_mono {A} (m : M A) (C C' : Prop) (Q Q' : A -> Prop) :
  ends m C Q -> (C -> C') -> (forall a, Q a -> Q' a) -> ends m C' Q'.
Proof. destruct m; cbn; auto. Qed.

(** What a list of tokens leaves open. *)
Definition bal (es : list event) : Z := braces es + brackets es.

Definition weight (e : event) : Z := opens (ch "{") (ch "}") e + opens (ch "[") (ch "]") e.

Lemma bal_cons e es : bal (e :: es) = weight e + bal es.
Proof. unfold bal, weight, braces, brackets. cbn. lia. Qed.

Lemma bal_nil : bal [] = 0.
Proof. done. Qed.

Lemma bal_app es1 es2 : bal (es1 ++ es2) = bal es1 + bal es2.
Proof. induction es1 as [|e es1 IH]; [done|]. rewrite <- app_comm_cons, !bal_cons. lia. Qed.

Lemma op_weight e op : is_op e op = true ->
  weight e = if (op =? ch "{") || (op =? ch "[") then 1 else if (op =? ch "}") || (op =? ch "]") then -1 else 0.
Proof.
  unfold is_op. intros [E1 E2%bool_decide_eq_true]%andb_prop. unfold weight, opens. rewrite E1, E2.
  change (default 0 (head [op])) with op.
  destruct (Z.eqb_spec op (ch "{")) as [->|]; [done|]. destruct (Z.eqb_spec op (ch "}")) as [->|]; [done|].
  destruct (Z.eqb_spec op (ch "[")) as [->|]; [done|]. by destruct (Z.eqb_spec op (ch "]")) as [->|].
Qed.

(** The result leaves [rest] of the tokens [es], and what was used has the
    balance [b] if there is a result. *)
Definition leaves {A} (b : Z) (es : list event) (r : option A * toks * va_list) : Prop :=
  r.2 = None /\ (r.1.1 <> None -> exists used rest,
    es = used ++ rest /\ r.1.2 = dict_of <$> rest /\ used <> [] /\ bal used = b).

Definition value_safe (n : nat) (pv : toks -> va_list -> M (option QObject.QObject * toks * va_list)) : Prop :=
  forall es, (length es < n)%nat -> Forall event_ok es ->
    ends (pv (dict_of <$> es) None) (es = [] \/ 0 < bal es) (leaves 0 es).

Lemma leaves_none {A} b es tk : @leaves A b es (None, tk, None).
Proof. split; [done|]. by intros []. Qed.

Section Safety.

Context (n : nat) (pv : toks -> va_list -> M (option QObject.QObject * toks * va_list)).
Context (Hpv : value_safe n pv).

Definition pair_leaves {D} (es : list event) (r : Z * D * toks * va_list) : Prop :=
  r.2 = None /\ (r.1.1.1 = 0 \/ r.1.1.1 = -1) /\ (r.1.1.1 = 0 -> exists used rest,
    es = used ++ rest /\ r.1.2 = dict_of <$> rest /\ bal used = 0).

Lemma pair_fails {D} es (d : D) tk : pair_leaves es (-1, d, tk, None).
Proof. split; [done|]. split; [by right|done]. Qed.

Lemma pair_safe dict es : (length es < n)%nat -> Forall event_ok es ->
  ends (parse_pair pv dict (dict_of <$> es) None) (0 <= bal es) (pair_leaves es).
Proof.
  intros Hl Ho. unfold parse_pair. rewrite QObject.qlist_copy_id. apply ends_bind.
  eapply ends_mono; [by apply Hpv|intros [->|]; [rewrite bal_nil; lia|lia]|]. intros [[key tk] ap] [Hap Hk]. cbn in Hap, Hk. subst ap.
  destruct key as [[]|]; try apply pair_fails. destruct Hk as (used & rest & -> & -> & _ & Hb); [done|].
  apply Forall_app in Ho as [_ Ho]. rewrite length_app in Hl. rewrite pop_dicts, bal_app, Hb.
  destruct rest as [|e rest]; [cbn -[bal]; rewrite bal_nil; lia|]. apply Forall_cons in Ho as [He Ho]. cbn [head tail fmap option_fmap option_map].
  rewrite dict_operator by done. cbn [mbind M_bind]. destruct (is_op e (ch ":")) eqn:Ec; cbn [negb]; [|apply pair_fails].
  assert (Ew : weight e = 0) by exact (op_weight e _ Ec). apply ends_bind. cbn [length] in Hl. rewrite bal_cons, Ew.
  eapply ends_mono; [apply Hpv; [lia|done]|intros [->|]; [rewrite bal_nil; lia|lia]|]. intros [[v tk] ap] [Hap Hk]. cbn in Hap, Hk. subst ap.
  destruct v as [v|]; [|apply pair_fails]. destruct Hk as (used2 & rest2 & -> & -> & _ & Hb2); [done|].
  split; [done|]. split; [by left|]. intros _. exists (used ++ e :: used2), rest2. rewrite <- app_assoc. split; [done|].
  split; [done|]. rewrite bal_app, bal_cons. lia.
Qed.

(** The loops, from the token that [qlist_pop] takes of [es]. *)
Lemma object_loop_safe m : forall dict es, (length es < m)%nat -> (length es <= n)%nat -> Forall event_ok es ->
  ends (object_loop pv m (dict_of <$> head es) dict (dict_of <$> tail es) None) (0 <= bal es) (leaves (-1) es).
Proof.
  induction m as [|m IH]; intros dict es Hm Hl Ho; [lia|]. cbn [object_loop].
  destruct es as [|e es]; [cbn -[bal]; rewrite bal_nil; lia|]. cbn [head tail fmap option_fmap option_map]. apply Forall_cons in Ho as [He Ho].
  cbn [length] in Hm, Hl. rewrite bal_cons, (dict_operator e (ch "}")) by done. cbn [mbind M_bind].
  destruct (is_op e (ch "}")) eqn:Ec.
  { assert (Ew : weight e = -1) by exact (op_weight e _ Ec). cbn [ends].
    split; [done|]. intros _. exists [e], es. split; [done|]. split; [done|].
    split; [done|]. rewrite bal_cons, bal_nil. lia. }
  rewrite dict_operator by done. cbn [mbind M_bind]. destruct (is_op e (ch ",")) eqn:Ek; cbn [negb]; [|apply leaves_none].
  assert (Ew : weight e = 0) by exact (op_weight e _ Ek). apply ends_bind.
  eapply ends_mono; [apply pair_safe; [lia|done]|lia|]. intros [[[rc d] tk] ap] (Hap & Hrc & Hk). cbn in Hap, Hrc, Hk.
  subst ap. destruct Hrc as [->| ->]; [|apply leaves_none]. cbn [Z.eqb]. destruct Hk as (used & rest & -> & -> & Hb); [done|].
  rewrite pop_dicts, bal_app, Hb. apply Forall_app in Ho as [_ Ho]. rewrite length_app in Hm, Hl.
  eapply ends_mono; [apply IH; [lia|lia|done]|lia|]. intros [[d' tk'] ap'] [Hap' Hk']. split; [done|]. intros Hd.
  destruct (Hk' Hd) as (used2 & rest2 & -> & E & _ & Hb2). exists (e :: used ++ used2), rest2.
  split; [by rewrite <- app_comm_cons, <- app_assoc|]. split; [done|]. split; [done|]. rewrite bal_cons, bal_app. lia.
Qed.

Lemma array_loop_safe m : forall l es, (length es < m)%nat -> (length es <= n)%nat -> Forall event_ok es ->
  ends (array_loop pv m (dict_of <$> head es) l (dict_of <$> tail es) None) (0 <= bal es) (leaves (-1) es).
Proof.
  induction m as [|m IH]; intros l es Hm Hl Ho; [lia|]. cbn [array_loop].
  destruct es as [|e es]; [cbn -[bal]; rewrite bal_nil; lia|]. cbn [head tail fmap option_fmap option_map]. apply Forall_cons in Ho as [He Ho].
  cbn [length] in Hm, Hl. rewrite bal_cons, (dict_operator e (ch "]")) by done. cbn [mbind M_bind].
  destruct (is_op e (ch "]")) eqn:Ec.
  { assert (Ew : weight e = -1) by exact (op_weight e _ Ec). cbn [ends].
    split; [done|]. intros _. exists [e], es. split; [done|]. split; [done|].
    split; [done|]. rewrite bal_cons, bal_nil. lia. }
  rewrite dict_operator by done. cbn [mbind M_bind]. destruct (is_op e (ch ",")) eqn:Ek; cbn [negb]; [|apply leaves_none].
  assert (Ew : weight e = 0) by exact (op_weight e _ Ek). apply ends_bind.
  eapply ends_mono; [apply Hpv; [lia|done]|intros [->|]; [rewrite bal_nil; lia|lia]|]. intros [[obj tk] ap] [Hap Hk]. cbn in Hap, Hk.
  subst ap. destruct obj as [obj|]; [|apply leaves_none]. destruct Hk as (used & rest & -> & -> & _ & Hb); [done|].
  rewrite pop_dicts, bal_app, Hb. apply Forall_app in Ho as [_ Ho]. rewrite length_app in Hm, Hl.
  eapply ends_mono; [apply IH; [lia|lia|done]|lia|]. intros [[d' tk'] ap'] [Hap' Hk']. split; [done|]. intros Hd.
  destruct (Hk' Hd) as (used2 & rest2 & -> & E & _ & Hb2). exists (e :: used ++ used2), rest2.
  split; [by rewrite <- app_comm_cons, <- app_assoc|]. split; [done|]. split; [done|]. rewrite bal_cons, bal_app. lia.
Qed.

(** The two compound values, from a first token that [parse_object] or
    [parse_array] look at. *)
Lemma object_safe m e es : (length es < n)%nat -> (length es < m)%nat -> event_ok e -> Forall event_ok es ->
  ends (parse_object pv m (dict_of <$> e :: es) None) (0 < bal (e :: es))
    (fun r => r.2 = None /\ (r.1.1 = None -> r.1.2 = dict_of <$> e :: es) /\ leaves 0 (e :: es) r).
Proof.
  intros Hl Hm He Ho. unfold parse_object. rewrite QObject.qlist_copy_id, pop_dicts.
  cbn [head tail fmap option_fmap option_map]. fold (dict_of <$> es).
  assert (N : forall ap, ap = None -> let r := (None, dict_of e :: (dict_of <$> es), ap) in
    r.2 = None /\ (r.1.1 = None -> r.1.2 = dict_of <$> e :: es) /\ @leaves QObject.QObject 0 (e :: es) r)
    by (intros ? ->; split; [done|]; split; [done|apply leaves_none]).
  rewrite (dict_operator e (ch "{")) by done. cbn [mbind M_bind]. destruct (is_op e (ch "{")) eqn:Eo; cbn [negb]; [|by apply N].
  assert (Ew : weight e = 1) by exact (op_weight e _ Eo). rewrite bal_cons, Ew.
  destruct es as [|e1 es]; [cbn -[bal]; rewrite bal_nil; lia|]. pose proof Ho as [He1 Ho1]%Forall_cons.
  unfold QObject.qlist_peek. cbn [fmap list_fmap head].
  rewrite (dict_operator e1 (ch "}")) by done. cbn [mbind M_bind]. destruct (is_op e1 (ch "}")) eqn:Ec.
  { assert (Ew1 : weight e1 = -1) by exact (op_weight e1 _ Ec). split; [done|]. split; [done|]. split; [done|]. intros _.
    exists [e; e1], es. split; [done|]. split; [done|]. split; [done|]. rewrite !bal_cons, bal_nil. lia. }
  apply ends_bind.
  eapply ends_mono; [by apply (pair_safe _ (e1 :: es))|lia|]. intros [[[rc d] tk] ap] (Hap & Hrc & Hk). cbn in Hap, Hrc, Hk. subst ap.
  destruct Hrc as [->| ->]; [|by apply N]. cbn [Z.eqb]. destruct Hk as (used & rest & E & -> & Hb); [done|].
  rewrite E, pop_dicts, bal_app, Hb. rewrite E in Ho. apply Forall_app in Ho as [_ Ho]. rewrite E, length_app in Hl, Hm.
  apply ends_bind. eapply ends_mono; [apply object_loop_safe; [lia|lia|done]|lia|].
  intros [[d' tk'] ap'] [Hap' Hk']. cbn in Hap', Hk'. subst ap'. destruct d' as [d'|]; [|by rewrite <- E; apply N].
  split; [done|]. split; [done|]. split; [done|]. intros _. destruct Hk' as (used2 & rest2 & -> & -> & _ & Hb2); [done|].
  exists (e :: used ++ used2), rest2. split; [by rewrite <- app_comm_cons, <- app_assoc|]. split; [done|].
  split; [done|]. rewrite bal_cons, bal_app. lia.
Qed.

Lemma array_safe m e es : (length es < n)%nat -> (length es < m)%nat -> event_ok e -> Forall event_ok es ->
  ends (parse_array pv m (dict_of <$> e :: es) None) (0 < bal (e :: es))
    (fun r => r.2 = None /\ (r.1.1 = None -> r.1.2 = dict_of <$> e :: es) /\ leaves 0 (e :: es) r).
Proof.
  intros Hl Hm He Ho. unfold parse_array. rewrite QObject.qlist_copy_id, pop_dicts.
  cbn [head tail fmap option_fmap option_map]. fold (dict_of <$> es).
  assert (N : forall ap, ap = None -> let r := (None, dict_of e :: (dict_of <$> es), ap) in
    r.2 = None /\ (r.1.1 = None -> r.1.2 = dict_of <$> e :: es) /\ @leaves QObject.QObject 0 (e :: es) r)
    by (intros ? ->; split; [done|]; split; [done|apply leaves_none]).
  rewrite (dict_operator e (ch "[")) by done. cbn [mbind M_bind]. destruct (is_op e (ch "[")) eqn:Eo; cbn [negb]; [|by apply N].
  assert (Ew : weight e = 1) by exact (op_weight e _ Eo). rewrite bal_cons, Ew.
  destruct es as [|e1 es]; [cbn -[bal]; rewrite bal_nil; lia|]. pose proof Ho as [He1 Ho1]%Forall_cons.
  unfold QObject.qlist_peek. cbn [fmap list_fmap head].
  rewrite (dict_operator e1 (ch "]")) by done. cbn [mbind M_bind]. destruct (is_op e1 (ch "]")) eqn:Ec.
  { assert (Ew1 : weight e1 = -1) by exact (op_weight e1 _ Ec). split; [done|]. split; [done|]. split; [done|]. intros _.
    exists [e; e1], es. split; [done|]. split; [done|]. split; [done|]. rewrite !bal_cons, bal_nil. lia. }
  apply ends_bind.
  eapply ends_mono; [by apply (Hpv (e1 :: es))|intros [|]; [done|lia]|]. intros [[obj tk] ap] [Hap Hk]. cbn in Hap, Hk. subst ap.
  destruct obj as [obj|]; [|by apply N]. destruct Hk as (used & rest & E & -> & _ & Hb); [done|].
  rewrite E, pop_dicts, bal_app, Hb. rewrite E in Ho. apply Forall_app in Ho as [_ Ho]. rewrite E, length_app in Hl, Hm.
  apply ends_bind. eapply ends_mono; [apply array_loop_safe; [lia|lia|done]|lia|].
  intros [[d' tk'] ap'] [Hap' Hk']. cbn in Hap', Hk'. subst ap'. destruct d' as [d'|]; [|by rewrite <- E; apply N].
  split; [done|]. split; [done|]. split; [done|]. intros _. destruct Hk' as (used2 & rest2 & -> & -> & _ & Hb2); [done|].
  exists (e :: used ++ used2), rest2. split; [by rewrite <- app_comm_cons, <- app_assoc|]. split; [done|].
  split; [done|]. rewrite bal_cons, bal_app. lia.
Qed.

End Safety.

Lemma other_weight e : e_type e <> JSON_OPERATOR -> weight e = 0.
Proof. intros H. unfold weight, opens. by rewrite (proj2 (Z.eqb_neq _ _) H). Qed.

(** Unescaping ends without a crash. *)
Lemma unescape_ends dq : forall ptr str, ends (unescape dq ptr str) False (fun _ => True).
Proof.
  intros ptr. induction ptr as [ptr IH] using (induction_ltof1 _ (@length Z)). unfold ltof in IH. intros str.
  destruct ptr as [|c ptr]; [done|]. cbn [unescape]. destruct (_ || _); [done|]. destruct (c =? _).
  - destruct ptr as [|e ptr]; [done|]. destruct (escape_of e); [apply IH; cbn; lia|]. destruct (e =? _); [|done].
    destruct ptr as [|h0 [|h1 [|h2 [|h3 ptr]]]]; try done. destruct (_ && _); [|done]. apply ends_bind.
    unfold wchar_to_utf8. destruct (_ <=? _); [apply IH; cbn; lia|]. destruct (_ <=? _); apply IH; cbn; lia.
  - apply IH. cbn. lia.
Qed.

Definition scalar_leaves (e : event) (es : list event) (r : option QObject.QObject * toks) : Prop :=
  (r.1 <> None -> r.2 = dict_of <$> es /\ weight e = 0).

Lemma keyword_safe e es : event_ok e -> ends (parse_keyword (dict_of <$> e :: es)) False
  (fun r => (r.1 = None -> r.2 = dict_of <$> e :: es) /\ scalar_leaves e es r).
Proof.
  intros He. unfold parse_keyword. rewrite QObject.qlist_copy_id, pop_dicts. cbn [head tail fmap option_fmap option_map].
  unfold token_is_keyword. rewrite dict_type, dict_value. cbn [mbind M_bind].
  destruct (Z.eqb_spec (e_type e) JSON_KEYWORD) as [E|E]; cbn [negb]; [|split; [done|]; by intros []].
  pose proof (other_weight e ltac:(rewrite E; done)). cbn [mbind M_bind].
  destruct (bool_decide (e_token e = str "true")); [split; [done|]; by intros _|].
  destruct (bool_decide (e_token e = str "false")); split; done || by intros [].
Qed.

Lemma literal_safe e es : event_ok e -> ends (parse_literal (dict_of <$> e :: es)) False (scalar_leaves e es).
Proof.
  intros He. unfold parse_literal. rewrite QObject.qlist_copy_id, pop_dicts. cbn [head tail fmap option_fmap option_map].
  unfold qstring_from_escaped_str. rewrite dict_type, dict_value. cbn [mbind M_bind].
  destruct (Z.eqb_spec (e_type e) JSON_STRING) as [E|E].
  { pose proof (other_weight e ltac:(rewrite E; done)). destruct He as [_ Ht Hb _].
    destruct (e_token e) as [|c ptr]; [done|]. apply Forall_cons in Hb as [Hc _].
    destruct (Z.eqb_spec c 0); [lia|]. apply ends_bind. eapply ends_mono; [apply unescape_ends|done|].
    intros s _. by split. }
  destruct (Z.eqb_spec (e_type e) JSON_INTEGER) as [E1|E1]; [pose proof (other_weight e ltac:(rewrite E1; done)); by split|].
  destruct (Z.eqb_spec (e_type e) JSON_FLOAT) as [E2|E2]; [pose proof (other_weight e ltac:(rewrite E2; done)); by split|].
  by intros [].
Qed.

Lemma parse_value_safe n : value_safe n (parse_value n).
Proof.
  induction n as [|n IH]; intros es Hl Ho; [lia|]. cbn [parse_value]. destruct es as [|e es]; [by left|].
  apply Forall_cons in Ho as [He Ho]. cbn [length] in Hl.
  apply ends_bind. eapply ends_mono; [apply (object_safe n _ IH)|by right|]; [lia|lia|done|done|].
  intros [[o tk] ap] (Hap & Hn & Hk). cbn [fst snd] in *. subst ap. apply ends_bind.
  destruct o as [o|]; [cbn; by split; [|apply Hk]|]. rewrite Hn by done.
  eapply ends_mono; [apply (array_safe n _ IH)|by right|]; [lia|lia|done|done|].
  clear tk Hn Hk. intros [[o tk] ap] (Hap & Hn & Hk). cbn [fst snd] in *. subst ap.
  destruct o as [o|]; [cbn; by split; [|apply Hk]|]. rewrite Hn by done. cbn [parse_escape mbind M_bind].
  assert (L : forall (o : option QObject.QObject) tk, scalar_leaves e es (o, tk) -> leaves 0 (e :: es) (o, tk, None)).
  { intros o tk' S. split; [done|]. intros Hs. destruct (S Hs) as [E W]. exists [e], es.
    split; [done|]. split; [done|]. split; [done|]. rewrite bal_cons, bal_nil. lia. }
  apply ends_bind. eapply ends_mono; [by apply keyword_safe|done|]. clear tk Hn Hk. intros [o tk] [Hn Hk].
  destruct o as [o|]; [by apply L|]. cbn [fst snd] in Hn. rewrite Hn by done.
  apply ends_bind. eapply ends_mono; [by apply literal_safe|done|]. clear tk Hn Hk. intros [o tk] Hk. by apply L.
Qed.

Lemma sum_bound (f : event -> Z) es : (forall e, -1 <= f e <= 1) ->
  - Z.of_nat (length es) <= foldr Z.add 0 (f <$> es) <= Z.of_nat (length es).
Proof. intros H. induction es as [|e es IH]; cbn; [lia|]. specialize (H e). cbn in IH. lia. Qed.

Lemma opens_bound o c e : -1 <= opens o c e <= 1.
Proof. unfold opens. destruct (_ =? JSON_OPERATOR); [|lia]. destruct (_ =? _); [lia|]. destruct (_ =? _); lia. Qed.

Lemma s32_zero z : - 2 ^ 31 < z < 2 ^ 31 -> s32 z = 0 -> z = 0.
Proof. intros H. unfold swrap. rewrite Z.mod_small by lia. lia. Qed.

(** C7: the parser is safe on anything that arrives.  Whatever bytes are fed in
    whatever pieces, with flushes in between, each list of tokens that the
    message splitter hands over and that has fewer than 2^31 tokens (so that
    the counters did not wrap around) is parsed to the end without a crash. *)
Theorem json_never_crashes (calls : list call) :
  Forall (fun k => Forall (fun c => 0 <= c < 256) (bytes_of k)) calls ->
  forall toks, toks ∈ messages calls -> Z.of_nat (length toks) < 2 ^ 31 ->
  exists result, json_parser_parse toks None = Ret result.
Proof.
  intros Hb tk Hin Hlen. pose proof (messages_ok calls Hb) as H. rewrite Forall_forall in H.
  destruct (H tk Hin) as (es & [-> Hs He H1 H2]). rewrite length_fmap in Hlen.
  pose proof (sum_bound _ es (opens_bound (ch "{") (ch "}"))) as B1.
  pose proof (sum_bound _ es (opens_bound (ch "[") (ch "]"))) as B2.
  apply s32_zero in H1; [|unfold braces; lia]. apply s32_zero in H2; [|unfold brackets; lia].
  unfold json_parser_parse. rewrite QObject.qlist_copy_id, length_fmap.
  pose proof (parse_value_safe (S (length es)) es (Nat.lt_succ_diag_r _) He) as S.
  destruct (parse_value _ _ None) as [| |[[r tk] ap]]; [|done|by exists (r, ap)].
  destruct S as [S|S]; [done|]. unfold bal in S. lia.
Qed.

Lemma json_never_crashes_witness :
  messages [Feed (str "{'a'"); Feed (str "]}["); Feed (str "[1] 2"); Flush] <> [] /\
  Forall (fun toks => exists result, json_parser_parse toks None = Ret result)
    (messages [Feed (str "{'a'"); Feed (str "]}["); Feed (str "[1] 2"); Flush]).
Proof.
  split; [intros E; assert (L : length (messages [Feed (str "{'a'"); Feed (str "]}["); Feed (str "[1] 2"); Flush]) = 3%nat)
    by (vm_compute; reflexivity); rewrite E in L; discriminate|]. apply Forall_forall. intros toks Hin.
  apply (json_never_crashes [Feed (str "{'a'"); Feed (str "]}["); Feed (str "[1] 2"); Flush]).
  - repeat constructor; vm_compute; congruence.
  - exact Hin.
  - assert (F : forallb (fun toks : list QObject.QObject => Z.of_nat (length toks) <? 2 ^ 31)
      (messages [Feed (str "{'a'"); Feed (str "]}["); Feed (str "[1] 2"); Flush]) = true) by (vm_compute; reflexivity).
    apply list_elem_of_In in Hin. apply Z.ltb_lt. exact (proj1 (forallb_forall _ _) F toks Hin).
Defined.

End JsonParser.
