(* ===== verification/QJsonCorrect.v ===== *)
(** * Printed values are read back (src/qemu/qjson.c, with the lexer, the
    message splitter and the parser)

    [scan] is the lexer on a whole text without the positions of tokens; the
    texts that [to_json] prints are followed through it.  [printable] says for
    which values the round trip holds: 64-bit integers, truth values, strings
    that are UTF-8 of characters up to U+FFFF other than 0, and lists and
    dictionaries of such values.  Floats are printed with six decimals, and
    strings with longer sequences lose them, so that they are left out. *)
From S2P Require Import Prelude QDict QObject JsonLexer JsonParser QJson.
From Stdlib Require Import String Ascii.
From stdpp Require Import list sets.

#[local] Open Scope Z_scope.
#[local] Open Scope c_scope.

Module QJsonCorrect.
Import JsonLexer JsonStreamer JsonParser QJson.

(** ** The lexer without positions *)

(** The type and the text of a token. *)
Abbreviation token_kind := (Z * list Z)%type.

Definition kind (e : event) : token_kind := (e_type e, e_token e).

Definition kind_emit (token : list Z) (type x y : Z) (ks : list token_kind) : list token_kind :=
  ks ++ [(type, token)].

(** [ks] before the tokens of a result. *)
Definition before (ks : list token_kind) (r : option (list token_kind * Z * list Z)) :
    option (list token_kind * Z * list Z) :=
  match r with Some (ks', st, tok) => Some (ks ++ ks', st, tok) | None => None end.

(** The tokens, the state and the token in progress after a text. *)
Fixpoint scan (text : list Z) (st : Z) (tok : list Z) : option (list token_kind * Z * list Z) :=
  match text with
  | [] => Some ([], st, tok)
  | c :: text' =>
      let '(err, l, ks) := feed_loop kind_emit 2 c (mkLexer st tok 0 0) [] in
      if err <? 0 then None else before ks (scan text' (state l) (token l))
  end.

Lemma before_before ks1 ks2 r : before ks1 (before ks2 r) = before (ks1 ++ ks2) r.
Proof. destruct r as [[[ks st] tok]|]; [|done]. cbn. by rewrite app_assoc. Qed.

Lemma before_nil r : before [] r = r.
Proof. by destruct r as [[[ks st] tok]|]. Qed.

Lemma scan_app t1 t2 : forall st tok, scan (t1 ++ t2) st tok =
  match scan t1 st tok with Some (ks, st', tok') => before ks (scan t2 st' tok') | None => None end.
Proof.
  induction t1 as [|c t1 IH]; intros st tok; cbn [scan app]; [by rewrite before_nil|].
  destruct (feed_loop _ _ _ _ _) as [[err l] ks]. destruct (err <? 0); [done|]. rewrite IH.
  destruct (scan t1 _ _) as [[[ks1 st1] tok1]|]; [|done]. cbn. by rewrite before_before.
Qed.

(** Positions do not influence the tokens. *)
Lemma loop_kinds n c : forall st tok x y x0 y0 log ks,
  let '(err, l, new) := feed_loop log_emit n c (mkLexer st tok x y) log in
  let '(err', l', ks') := feed_loop kind_emit n c (mkLexer st tok x0 y0) ks in
  err = err' /\ state l = state l' /\ token l = token l' /\ JsonLexer.x l = x /\ JsonLexer.y l = y /\
  exists new', new = log ++ new' /\ ks' = ks ++ (kind <$> new').
Proof.
  induction n as [|n IH]; intros st tok x y x0 y0 log ks; cbn [feed_loop].
  - do 5 (split; [done|]). exists []. by rewrite !app_nil_r.
  - cbn [state token]. cbv zeta. destruct (json_lexer st c =? ERROR).
    { do 5 (split; [done|]). exists []. by rewrite !app_nil_r. }
    unfold switch_state. cbn [JsonLexer.x JsonLexer.y].
    set (tok' := if negb _ then _ else _). destruct (_ || _ || _ || _ || _ || _).
    + destruct (negb _).
      * do 5 (split; [done|]). by eexists [_].
      * specialize (IH IN_START [] x y x0 y0 (log_emit tok' (json_lexer st c) x y log)
          (kind_emit tok' (json_lexer st c) x0 y0 ks)).
        destruct (feed_loop log_emit _ _ _ _) as [[err l] new]. destruct (feed_loop kind_emit _ _ _ _) as [[err' l'] ks'].
        destruct IH as (E1 & E2 & E3 & E4 & E5 & new' & -> & ->). do 5 (split; [done|]).
        eexists (_ :: new'). unfold log_emit, kind_emit. rewrite <- !app_assoc. by split.
    + destruct (_ =? JSON_SKIP); (destruct (negb _); [do 5 (split; [done|]); exists []; by rewrite !app_nil_r|]); apply IH.
Qed.

Lemma scan_feed text : forall st tok ks st' tok' x y log, scan text st tok = Some (ks, st', tok') ->
  exists x' y' new, json_lexer_feed log_emit text (mkLexer st tok x y) log = (0, mkLexer st' tok' x' y', log ++ new) /\
    kind <$> new = ks.
Proof.
  induction text as [|c text IH]; intros st tok ks st' tok' x y log; cbn [scan json_lexer_feed].
  - intros [= <- <- <-]. exists x, y, []. by rewrite app_nil_r.
  - unfold json_lexer_feed_char. cbn [state token JsonLexer.x JsonLexer.y].
    set (l0 := if c =? NEWLINE then _ else _).
    assert (E0 : l0 = mkLexer st tok (JsonLexer.x l0) (JsonLexer.y l0)) by (unfold l0; by destruct (c =? NEWLINE)).
    rewrite E0. pose proof (loop_kinds 2 c st tok (JsonLexer.x l0) (JsonLexer.y l0) 0 0 log []) as H.
    destruct (feed_loop log_emit _ _ _ _) as [[err l] new]. destruct (feed_loop kind_emit _ _ _ _) as [[err' l'] ks'].
    destruct H as (-> & E2 & E3 & E4 & E5 & new' & -> & ->). destruct (err' <? 0); [done|].
    destruct (scan text (state l') (token l')) as [[[ks1 st1] tok1]|] eqn:Es; [|done]. cbn. intros [= <- <- <-].
    destruct l as [s1 t1 x1 y1]. cbn in E2, E3. subst s1 t1.
    destruct (IH _ _ _ _ _ x1 y1 (log ++ new') Es) as (x' & y' & new & -> & <-).
    exists x', y', (new' ++ new). by rewrite <- app_assoc, fmap_app.
Qed.

(** ** Pieces of text *)

(** Characters that only continue the token in progress. *)
Fixpoint advance (text : list Z) (st : Z) : option Z :=
  match text with
  | [] => Some st
  | c :: text' =>
      let k := json_lexer st c in
      if negb (TERMINAL_NEEDED_LOOKAHEAD st k) && (1 <=? k) && (k <=? 28) then advance text' k else None
  end.

Lemma advance_scan text : forall st st' tok, advance text st = Some st' -> scan text st tok = Some ([], st', tok ++ text).
Proof.
  induction text as [|c text IH]; intros st st' tok; cbn [advance scan]; [intros [= ->]; by rewrite app_nil_r|]. cbv zeta.
  destruct (TERMINAL_NEEDED_LOOKAHEAD st (json_lexer st c)) eqn:L; [done|]. cbn [negb andb].
  destruct (Z.leb_spec 1 (json_lexer st c)); [|done]. destruct (Z.leb_spec (json_lexer st c) 28); [|done]. cbn [andb].
  intros A. rewrite (round_more _ _ _ (mkLexer st tok 0 0) _ _ eq_refl L) by (cbn [state]; lia).
  cbn [state token Z.ltb Z.compare]. rewrite (IH _ _ _ A), before_nil. by rewrite <- app_assoc.
Qed.

Lemma advance_app t1 t2 : forall st, advance (t1 ++ t2) st = advance t1 st ≫= advance t2.
Proof.
  induction t1 as [|c t1 IH]; intros st; cbn [advance app]; [done|]. cbv zeta.
  destruct (_ && _ && _); [apply IH|done].
Qed.

Lemma advance_cons c t st : advance (c :: t) st = advance [c] st ≫= advance t.
Proof. exact (advance_app [c] t st). Qed.

Lemma scan_op c r : is_operator c = true -> scan (c :: r) IN_START [] = before [(JSON_OPERATOR, [c])] (scan r IN_START []).
Proof.
  unfold is_operator. rewrite !orb_true_iff, !Z.eqb_eq.
  by intros [[[[[->| ->]| ->]| ->]| ->]| ->].
Qed.

(** A character that is not white space, in ASCII. *)
Definition visible (c : Z) : bool := (33 <=? c) && (c <=? 126).

Lemma visible_skips c : visible c = true -> json_lexer IN_WHITESPACE c = JSON_SKIP.
Proof.
  unfold visible. intros [H1 H2]%andb_prop.
  assert (A : forallb (fun c => json_lexer IN_WHITESPACE c =? JSON_SKIP) (seqZ 33 94) = true) by (vm_compute; reflexivity).
  apply Z.eqb_eq. refine (forallb_seqZ _ 33 94 A c _). lia.
Qed.

Lemma scan_skip c r w : visible c = true -> scan (c :: r) IN_WHITESPACE w = scan (c :: r) IN_START [].
Proof.
  intros V. cbn [scan]. rewrite round_skip by (by apply visible_skips || vm_compute). cbn [JsonLexer.x JsonLexer.y].
  rewrite (feed_loop_start _ 1) by (unfold visible in V; lia). done.
Qed.

Lemma advance_spaces ws : Forall (fun c => is_space c = true) ws -> advance ws IN_WHITESPACE = Some IN_WHITESPACE.
Proof.
  induction 1 as [|c ws Hc _ IH]; [done|]. unfold is_space in Hc. rewrite !orb_true_iff, !Z.eqb_eq in Hc.
  by destruct Hc as [[[->| ->]| ->]| ->].
Qed.

Lemma scan_spaces ws c r : Forall (fun c => is_space c = true) ws -> visible c = true ->
  scan (ws ++ c :: r) IN_START [] = scan (c :: r) IN_START [].
Proof.
  intros Hw Hc. destruct ws as [|w ws]; [done|]. rewrite scan_app.
  assert (A : advance (w :: ws) IN_START = Some IN_WHITESPACE).
  { apply Forall_cons in Hw as [Hw Hws]. apply advance_spaces in Hws. unfold is_space in Hw.
    rewrite !orb_true_iff, !Z.eqb_eq in Hw. by destruct Hw as [[[->| ->]| ->]| ->]. }
  rewrite (advance_scan _ _ _ _ A), before_nil. by apply scan_skip.
Qed.

(** A token that ends where the next begins. *)
Definition waits (st ty : Z) : Prop :=
  (st = IN_ZERO /\ ty = JSON_INTEGER) \/ (st = IN_NONZERO_NUMBER /\ ty = JSON_INTEGER) \/
  (st = IN_KEYWORD /\ ty = JSON_KEYWORD).

(** What follows a value in a text. *)
Definition delim (c : Z) : Prop := c = ch "," \/ c = ch "]" \/ c = ch "}" \/ c = NEWLINE.

Lemma wait_after st ty c : waits st ty -> delim c \/ c = 0 ->
  json_lexer st c = ty /\ TERMINAL_NEEDED_LOOKAHEAD st ty = true /\ ty ∈ [JSON_INTEGER; JSON_FLOAT; JSON_KEYWORD].
Proof.
  intros [[-> ->]|[[-> ->]|[-> ->]]] [[->|[->|[->| ->]]]| ->]; (split; [done|]; split; [done|]); set_solver.
Qed.

Lemma scan_wait st ty tok c r : waits st ty -> delim c ->
  scan (c :: r) st tok = before [(ty, tok)] (scan (c :: r) IN_START []).
Proof.
  intros W D. destruct (wait_after st ty c W (or_introl D)) as (E1 & E2 & E3). cbn [scan].
  rewrite (round_after _ _ _ (mkLexer st tok 0 0) _ ty E1 E2 E3). cbn [JsonLexer.x JsonLexer.y token].
  unfold kind_emit at 2. cbn [app].
  generalize (scan r). intros f. destruct D as [->|[->|[->| ->]]]; vm_compute;
    match goal with |- context [match ?o with Some _ => _ | None => _ end] => by destruct o as [[[? ?] ?]|] end.
Qed.

(** ** Strings *)

(** The UTF-8 encoding of a character below U+10000. *)
Definition utf8 (w : Z) : list Z :=
  if w <=? 0x7F then [w]
  else if w <=? 0x7FF then [0xC0 |. (w >>. 6); 0x80 |. (w &. 0x3F)]
  else [0xE0 |. (w >>. 12); 0x80 |. ((w >>. 6) &. 0x3F); 0x80 |. (w &. 0x3F)].

Definition is_char (w : Z) : Prop := 1 <= w <= 0xFFFF.

(** How [to_json] prints a character. *)
Definition print_char (w : Z) : list Z := if w <=? 0x7F then char_text w else escape_text w.

Lemma check_below (P : Z -> bool) n : forallb P (seqZ 0 n) = true -> forall d, 0 <= d < n -> P d = true.
Proof. intros H d Hd. refine (forallb_seqZ P 0 n H d _). lia. Qed.

Lemma lead2_bits a : 0 <= a < 32 ->
  (((0xC0 |. a) &. 0xE0) =? 0xE0) = false /\ (((0xC0 |. a) &. 0xE0) =? 0xC0) = true /\ (0xC0 |. a) &. 0x1F = a.
Proof.
  intros H. assert (A : forallb (fun a => negb (((0xC0 |. a) &. 0xE0) =? 0xE0) && (((0xC0 |. a) &. 0xE0) =? 0xC0) &&
    ((0xC0 |. a) &. 0x1F =? a)) (seqZ 0 32) = true) by (vm_compute; reflexivity).
  apply (check_below _ 32 A) in H. rewrite !andb_true_iff, negb_true_iff, !Z.eqb_eq in H. rewrite Z.eqb_eq. tauto.
Qed.

Lemma lead3_bits a : 0 <= a < 16 -> (((0xE0 |. a) &. 0xE0) =? 0xE0) = true /\ (0xE0 |. a) &. 0x0F = a.
Proof.
  intros H. assert (A : forallb (fun a => (((0xE0 |. a) &. 0xE0) =? 0xE0) && ((0xE0 |. a) &. 0x0F =? a)) (seqZ 0 16) = true)
    by (vm_compute; reflexivity).
  apply (check_below _ 16 A) in H. rewrite !andb_true_iff, !Z.eqb_eq in H. rewrite Z.eqb_eq. tauto.
Qed.

Lemma cont_bits a : 0 <= a < 64 -> truthy ((0x80 |. a) &. 0x80) = true /\ (0x80 |. a) &. 0x3F = a /\ 0x80 |. a <> 0.
Proof.
  intros H. assert (A : forallb (fun a => truthy ((0x80 |. a) &. 0x80) && ((0x80 |. a) &. 0x3F =? a) &&
    negb (0x80 |. a =? 0)) (seqZ 0 64) = true) by (vm_compute; reflexivity).
  apply (check_below _ 64 A) in H. rewrite !andb_true_iff, negb_true_iff, Z.eqb_eq, Z.eqb_neq in H. tauto.
Qed.

Lemma ascii_bits c : 0 <= c < 128 -> ((c &. 0xE0) =? 0xE0) = false /\ ((c &. 0xE0) =? 0xC0) = false.
Proof.
  intros H. assert (A : forallb (fun c => negb ((c &. 0xE0) =? 0xE0) && negb ((c &. 0xE0) =? 0xC0)) (seqZ 0 128) = true)
    by (vm_compute; reflexivity).
  apply (check_below _ 128 A) in H. rewrite !andb_true_iff, !negb_true_iff in H. tauto.
Qed.

(** Fields of a character. *)
Lemma shiftr_div w n : 0 <= n -> w >>. n = w / 2 ^ n.
Proof. intros. by apply Z.shiftr_div_pow2. Qed.

Lemma land_3F w : w &. 0x3F = w mod 64.
Proof. exact (Z.land_ones w 6 ltac:(lia)). Qed.

Lemma land_low w n : 0 <= n -> 0 <= w < 2 ^ n -> w &. Z.ones n = w.
Proof. intros. rewrite Z.land_ones by done. by apply Z.mod_small. Qed.

Lemma join2 a b : 0 <= a < 1024 -> 0 <= b < 64 -> u16 (u16 (a <<. 6) |. b) = a * 64 + b.
Proof.
  intros Ha Hb. assert (E : a <<. 6 = a * 64) by (by rewrite Z.shiftl_mul_pow2).
  rewrite (wrap_small 16 (a <<. 6)) by (unfold is_uint; lia).
  rewrite shiftl_lor_add by (unfold is_uint; lia). apply wrap_small. unfold is_uint. lia.
Qed.

Lemma join3 a b c : 0 <= a < 16 -> 0 <= b < 64 -> 0 <= c < 64 ->
  u16 (u16 (u16 (a <<. 12) |. (b <<. 6)) |. c) = a * 4096 + b * 64 + c.
Proof.
  intros Ha Hb Hc. assert (E : a <<. 12 = a * 4096) by (by rewrite Z.shiftl_mul_pow2).
  assert (E' : b <<. 6 = b * 64) by (by rewrite Z.shiftl_mul_pow2).
  rewrite (wrap_small 16 (a <<. 12)) by (unfold is_uint; lia).
  rewrite (shiftl_lor_add 12) by (unfold is_uint; lia). rewrite E'.
  replace (a * 2 ^ 12 + b * 64) with ((a * 64 + b) <<. 6) by (rewrite Z.shiftl_mul_pow2; lia).
  rewrite join2 by lia. lia.
Qed.

Lemma print_char_loop w r s : is_char w -> string_loop (utf8 w ++ r) s = string_loop r (s ++ print_char w).
Proof.
  unfold is_char, utf8, print_char. intros H. destruct (Z.leb_spec w 0x7F).
  - cbn [app string_loop]. destruct (ascii_bits w) as [-> ->]; [lia|done].
  - rewrite land_3F, !shiftr_div by lia. pose proof (Z.mod_pos_bound w 64 ltac:(lia)) as Hm. destruct (Z.leb_spec w 0x7FF).
    + cbn [app string_loop]. destruct (lead2_bits (w / 2 ^ 6)) as (-> & -> & ->); [dlia|]. cbn [andb lookup list_lookup default].
      cbn [from_option id]. destruct (cont_bits (w mod 64)) as (-> & -> & _); [lia|]. cbn [andb].
      rewrite join2 by dlia. do 3 f_equal. dlia.
    + rewrite land_3F. pose proof (Z.mod_pos_bound (w / 2 ^ 6) 64 ltac:(lia)) as Hm2.
      cbn [app string_loop]. destruct (lead3_bits (w / 2 ^ 12)) as (-> & ->); [dlia|]. cbn [andb lookup list_lookup default].
      cbn [from_option id]. destruct (cont_bits (w mod 64)) as (-> & -> & _); [lia|].
      destruct (cont_bits (w / 2 ^ 6 mod 64)) as (-> & -> & _); [lia|]. cbn [andb].
      rewrite join3 by dlia. do 3 f_equal. dlia.
Qed.

(** Hexadecimal digits. *)
Lemma hex_digit_ok d : 0 <= d < 16 ->
  qemu_isxdigit (hex_digit d) = true /\ hex2decimal (hex_digit d) = d /\
  advance [hex_digit d] IN_DQ_UCODE0 = Some IN_DQ_UCODE1 /\ advance [hex_digit d] IN_DQ_UCODE1 = Some IN_DQ_UCODE2 /\
  advance [hex_digit d] IN_DQ_UCODE2 = Some IN_DQ_UCODE3 /\ advance [hex_digit d] IN_DQ_UCODE3 = Some IN_DQ_STRING.
Proof.
  intros H. assert (A : forallb (fun d => qemu_isxdigit (hex_digit d) && (hex2decimal (hex_digit d) =? d) &&
    bool_decide (advance [hex_digit d] IN_DQ_UCODE0 = Some IN_DQ_UCODE1) &&
    bool_decide (advance [hex_digit d] IN_DQ_UCODE1 = Some IN_DQ_UCODE2) &&
    bool_decide (advance [hex_digit d] IN_DQ_UCODE2 = Some IN_DQ_UCODE3) &&
    bool_decide (advance [hex_digit d] IN_DQ_UCODE3 = Some IN_DQ_STRING)) (seqZ 0 16) = true) by (vm_compute; reflexivity).
  apply (check_below _ 16 A) in H. rewrite !andb_true_iff, Z.eqb_eq, !bool_decide_eq_true in H. tauto.
Qed.

Lemma escape_text_char w : 0 <= w <= 0xFFFF ->
  escape_text w = [ch "\"; ch "u"; hex_digit (w / 4096 mod 16); hex_digit (w / 256 mod 16);
                   hex_digit (w / 16 mod 16); hex_digit (w mod 16)].
Proof.
  intros H. unfold escape_text. cbv zeta. rewrite wrap_small by (unfold is_uint; lia).
  assert (L : Z.log2 w < 16).
  { destruct (Z.eq_dec w 0) as [->|]; [by vm_compute|]. apply Z.log2_lt_pow2; lia. }
  pose proof (Z.log2_nonneg w). replace (Z.max 4 (Z.log2 w / 4 + 1)) with 4 by dlia.
  change (Z.to_nat 4) with 4%nat. cbn [hex_digits_of]. rewrite !Z.div_div by lia. done.
Qed.

Lemma unicode_of_digits w : 0 <= w <= 0xFFFF ->
  unicode_of [hex_digit (w / 4096 mod 16); hex_digit (w / 256 mod 16); hex_digit (w / 16 mod 16); hex_digit (w mod 16)] = w.
Proof.
  intros H. unfold unicode_of. cbn [foldl fst snd].
  assert (B : forall v, 0 <= v mod 16 < 16) by (intros; apply Z.mod_pos_bound; lia).
  rewrite !(fun v => proj1 (proj2 (hex_digit_ok _ (B v)))).
  set (a := w / 4096 mod 16). set (b := w / 256 mod 16). set (c := w / 16 mod 16). set (d := w mod 16).
  assert (Ha : 0 <= a < 16) by apply B. assert (Hb : 0 <= b < 16) by apply B.
  assert (Hc : 0 <= c < 16) by apply B. assert (Hd : 0 <= d < 16) by apply B.
  assert (E : w = a * 4096 + b * 256 + c * 16 + d) by (unfold a, b, c, d; dlia).
  rewrite Z.lor_0_l. change ((3 - 0) * 4) with 12. change ((3 - (0 + 1)) * 4) with 8.
  change ((3 - (0 + 1 + 1)) * 4) with 4. change ((3 - (0 + 1 + 1 + 1)) * 4) with 0.
  rewrite Z.shiftl_0_r.
  assert (S : forall v n, 0 <= n -> v <<. n = v * 2 ^ n) by (intros; by apply Z.shiftl_mul_pow2).
  rewrite (wrap_small 16 (a <<. 12)) by (unfold is_uint; rewrite S; lia).
  rewrite (shiftl_lor_add 12) by (unfold is_uint; rewrite ?S; lia). rewrite (S b 8) by lia.
  rewrite (wrap_small 16 (_ + _)) by (unfold is_uint; lia).
  replace (a * 2 ^ 12 + b * 2 ^ 8) with ((a * 16 + b) <<. 8) by (rewrite S; lia).
  rewrite (shiftl_lor_add 8) by (unfold is_uint; rewrite ?S; lia). rewrite (S c 4) by lia.
  rewrite (wrap_small 16 (_ + _)) by (unfold is_uint; lia).
  replace ((a * 16 + b) * 2 ^ 8 + c * 2 ^ 4) with ((a * 256 + b * 16 + c) <<. 4) by (rewrite S; lia).
  rewrite (shiftl_lor_add 4) by (unfold is_uint; lia).
  rewrite wrap_small by (unfold is_uint; lia). lia.
Qed.

Lemma wchar_utf8 w : 1 <= w <= 0xFFFF -> exists b, wchar_to_utf8 w 4 = Ret b /\ c_string b = utf8 w.
Proof.
  intros H. unfold wchar_to_utf8, utf8. destruct (Z.leb_spec w 0x7F).
  - eexists. split; [reflexivity|]. cbn [c_string]. rewrite (land_low w 7 ltac:(lia) ltac:(lia) : w &. 0x7F = w).
    destruct (Z.eqb_spec w 0); [lia|done].
  - rewrite land_3F, !shiftr_div by lia. destruct (cont_bits (w mod 64)) as (_ & _ & N1); [dlia|].
    destruct (Z.leb_spec w 0x7FF); (eexists; split; [reflexivity|]); cbn [c_string].
    + rewrite (land_low (w / 2 ^ 6) 5 ltac:(lia) ltac:(dlia) : w / 2 ^ 6 &. 0x1F = _).
      assert (N : 0xC0 |. w / 2 ^ 6 <> 0) by (intros [E _]%Z.lor_eq_0_iff; done).
      by rewrite !(proj2 (Z.eqb_neq _ _)) by done.
    + rewrite (land_low (w / 2 ^ 12) 4 ltac:(lia) ltac:(dlia) : w / 2 ^ 12 &. 0x0F = _).
      assert (N : 0xE0 |. w / 2 ^ 12 <> 0) by (intros [E _]%Z.lor_eq_0_iff; done).
      rewrite land_3F. destruct (cont_bits (w / 2 ^ 6 mod 64)) as (_ & _ & N2); [dlia|].
      by rewrite !(proj2 (Z.eqb_neq _ _)) by done.
Qed.

Lemma print_char_advance w : is_char w -> advance (print_char w) IN_DQ_STRING = Some IN_DQ_STRING.
Proof.
  unfold is_char, print_char. intros H. destruct (Z.leb_spec w 0x7F).
  - assert (A : forallb (fun w => bool_decide (advance (char_text w) IN_DQ_STRING = Some IN_DQ_STRING)) (seqZ 1 127) = true)
      by (vm_compute; reflexivity).
    refine (proj1 (bool_decide_eq_true _) (forallb_seqZ _ 1 127 A w _)). lia.
  - rewrite escape_text_char by lia. assert (B : forall v, 0 <= v mod 16 < 16) by (intros; apply Z.mod_pos_bound; lia).
    set (h0 := hex_digit _). set (h1 := hex_digit _). set (h2 := hex_digit _). set (h3 := hex_digit _).
    change (advance ([ch "\"; ch "u"] ++ [h0] ++ [h1] ++ [h2] ++ [h3]) IN_DQ_STRING = Some IN_DQ_STRING).
    rewrite advance_app. change (advance [ch "\"; ch "u"] IN_DQ_STRING) with (Some IN_DQ_UCODE0). cbn [mbind option_bind].
    rewrite advance_app. unfold h0. rewrite (proj1 (proj2 (proj2 (hex_digit_ok _ (B _))))). cbn [mbind option_bind].
    rewrite advance_app. unfold h1. rewrite (proj1 (proj2 (proj2 (proj2 (hex_digit_ok _ (B _)))))). cbn [mbind option_bind].
    rewrite advance_app. unfold h2. rewrite (proj1 (proj2 (proj2 (proj2 (proj2 (hex_digit_ok _ (B _))))))). cbn [mbind option_bind].
    unfold h3. exact (proj2 (proj2 (proj2 (proj2 (proj2 (hex_digit_ok _ (B _))))))).
Qed.

Lemma escape_unescape w r acc : is_char w ->
  unescape true (escape_text w ++ r) acc = unescape true r (acc ++ utf8 w).
Proof.
  intros H. rewrite escape_text_char by (unfold is_char in H; lia). cbn [app unescape].
  change ((ch "\" =? 0) || negb (true && negb (ch "\" =? QUOTE) || negb true && negb (ch "\" =? ch "'"))) with false.
  change (ch "\" =? ch "\") with true. change (escape_of (ch "u")) with (@None Z). change (ch "u" =? ch "u") with true. cbv iota.
  assert (B : forall v, 0 <= v mod 16 < 16) by (intros; apply Z.mod_pos_bound; lia).
  rewrite !(fun v => proj1 (hex_digit_ok _ (B v))). cbn [andb].
  rewrite unicode_of_digits by (unfold is_char in H; lia). destruct (wchar_utf8 w H) as (b & -> & <-). done.
Qed.

Lemma print_char_unescape w r acc : is_char w ->
  unescape true (print_char w ++ r) acc = unescape true r (acc ++ utf8 w).
Proof.
  intros H. unfold print_char. destruct (Z.leb_spec w 0x7F); [|by apply escape_unescape].
  assert (U : utf8 w = [w]) by (unfold utf8; destruct (Z.leb_spec w 0x7F); [done|lia]). rewrite U. unfold char_text.
  destruct (Z.eqb_spec w QUOTE) as [->|N1]; [done|]. destruct (Z.eqb_spec w (ch "\")) as [->|N2]; [done|].
  destruct (Z.eqb_spec w 8) as [->|]; [done|]. destruct (Z.eqb_spec w 12) as [->|]; [done|].
  destruct (Z.eqb_spec w NEWLINE) as [->|]; [done|]. destruct (Z.eqb_spec w RETURN) as [->|]; [done|].
  destruct (Z.eqb_spec w TAB) as [->|]; [done|]. unfold signed_char. destruct (Z.ltb_spec w 128); [|lia].
  destruct (Z.leb_spec w 0x1F); [rewrite <- U; by apply escape_unescape|]. cbn [app unescape].
  unfold is_char in H. destruct (Z.eqb_spec w 0); [lia|]. rewrite (proj2 (Z.eqb_neq w QUOTE) N1). cbn [orb andb negb].
  by rewrite (proj2 (Z.eqb_neq w (ch "\")) N2).
Qed.

(** A string of characters, its bytes and its text. *)
Definition encode (ws : list Z) : list Z := concat (utf8 <$> ws).
Definition print_body (ws : list Z) : list Z := concat (print_char <$> ws).
Definition print_string (ws : list Z) : list Z := QUOTE :: print_body ws ++ [QUOTE].

Lemma string_text ws s : Forall is_char ws -> to_json_qstring (encode ws) s = s ++ print_string ws.
Proof.
  intros H. unfold to_json_qstring, print_string.
  assert (G : forall s, string_loop (encode ws) s = s ++ print_body ws).
  { induction H as [|w ws Hw _ IH]; intros s0; [by rewrite app_nil_r|].
    unfold encode, print_body in *. cbn [fmap list_fmap concat]. rewrite print_char_loop by done. by rewrite IH, <- app_assoc. }
  rewrite G, <- !app_assoc. done.
Qed.

Lemma body_advance ws : Forall is_char ws -> advance (print_body ws) IN_DQ_STRING = Some IN_DQ_STRING.
Proof.
  induction 1 as [|w ws Hw _ IH]; [done|]. unfold print_body in *. cbn [fmap list_fmap concat].
  rewrite advance_app, print_char_advance by done. exact IH.
Qed.

Lemma scan_string ws : Forall is_char ws ->
  scan (print_string ws) IN_START [] = Some ([(JSON_STRING, print_string ws)], IN_START, []).
Proof.
  intros H. unfold print_string. rewrite app_comm_cons, scan_app.
  rewrite (advance_scan (QUOTE :: print_body ws) IN_START IN_DQ_STRING) by exact (body_advance ws H). cbn [app].
  set (t := QUOTE :: print_body ws). rewrite before_nil. cbn [scan].
  by rewrite (round_last _ _ _ (mkLexer IN_DQ_STRING t 0 0) _ JSON_STRING) by (done || set_solver).
Qed.

Lemma body_unescape ws r acc : Forall is_char ws -> unescape true (print_body ws ++ r) acc = unescape true r (acc ++ encode ws).
Proof.
  intros H. revert acc. induction H as [|w ws Hw _ IH]; intros acc; [by rewrite app_nil_r|].
  unfold print_body, encode in *. cbn [fmap list_fmap concat]. rewrite <- app_assoc, print_char_unescape by done.
  by rewrite IH, <- app_assoc.
Qed.

Lemma string_unescape ws e : Forall is_char ws -> kind e = (JSON_STRING, print_string ws) ->
  qstring_from_escaped_str (Some (dict_of e)) = Ret (Some (encode ws)).
Proof.
  intros H [= E1 E2]. unfold qstring_from_escaped_str. rewrite dict_value, E2. unfold print_string. cbn [mbind M_bind].
  change (QUOTE =? 0) with false. change (QUOTE =? QUOTE) with true. cbv iota. by rewrite body_unescape.
Qed.

(** ** Numbers *)

(** The digits of [v]. *)
Record digits_for (v : Z) (ds : list Z) : Prop := {
  d_digit : Forall (fun c => is_digit c = true) ds;
  d_head : exists c ds', ds = c :: ds' /\ (0 < v -> c <> ch "0") /\ (v = 0 -> ds = [ch "0"]);
  d_value : forall w k rest, scan_digits w k (ds ++ rest) =
    scan_digits (w * 10 ^ Z.of_nat (length ds) + v) (k + Z.of_nat (length ds)) rest
}.

Lemma digit_mod v : 0 <= v -> is_digit (48 + v mod 10) = true /\ 48 + v mod 10 - ch "0" = v mod 10.
Proof.
  intros H. pose proof (Z.mod_pos_bound v 10 ltac:(lia)). unfold is_digit. change (ch "0") with 48. change (ch "9") with 57. lia.
Qed.

Lemma digits_of_ok n : forall v, 0 <= v < 2 ^ Z.of_nat (S n) -> exists ds, digits_for v ds /\
  forall acc, digits_of (S n) v acc = ds ++ acc.
Proof.
  induction n as [|n IH]; intros v Hv; destruct (digit_mod v) as [D1 D2]; try lia; cbn [digits_of].
  - exists [48 + v mod 10]. assert (E : v / 10 = 0) by (change (2 ^ Z.of_nat 1) with 2 in Hv; dlia). rewrite E.
    split; [|done]. constructor; [by apply Forall_singleton| |].
    + exists (48 + v mod 10), []. split; [done|]. change (ch "0") with 48. change (2 ^ Z.of_nat 1) with 2 in Hv. split; [dlia|].
      by intros ->.
    + intros w k rest. cbn [app scan_digits length]. rewrite D1, D2. f_equal. dlia.
  - rewrite Nat2Z.inj_succ, Z.pow_succ_r in Hv by lia. destruct (Z.eqb_spec (v / 10) 0) as [E|E].
    + exists [48 + v mod 10]. split; [|done]. constructor; [by apply Forall_singleton| |].
      * exists (48 + v mod 10), []. split; [done|]. change (ch "0") with 48. split; [dlia|]. by intros ->.
      * intros w k rest. cbn [app scan_digits length]. rewrite D1, D2. f_equal. dlia.
    + destruct (IH (v / 10)) as (ds & [H1 H2 H3] & H4); [dlia|]. exists (ds ++ [48 + v mod 10]). split.
      * constructor; [by apply Forall_app; split; [|apply Forall_singleton]| |].
        -- destruct H2 as (c & ds' & -> & Hc & _). exists c, (ds' ++ [48 + v mod 10]). split; [done|]. split; [|dlia].
           intros _. apply Hc. dlia.
        -- intros w k rest. rewrite <- app_assoc, H3. cbn [app scan_digits]. rewrite D1, D2, length_app. cbn [length].
           rewrite Nat2Z.inj_add, Z.pow_add_r by lia. f_equal; [|lia]. change (10 ^ Z.of_nat 1) with 10. dlia.
      * intros acc. rewrite <- app_assoc. apply H4.
Qed.

Lemma decimal_digits v : 0 <= v -> exists ds, digits_for v ds /\ digits_of (S (Z.to_nat (Z.log2 v))) v [] = ds.
Proof.
  intros H. pose proof (Z.log2_nonneg v). destruct (digits_of_ok (Z.to_nat (Z.log2 v)) v) as (ds & D & E).
  - split; [done|]. rewrite Nat2Z.inj_succ, Z2Nat.id by lia.
    destruct (Z.eq_dec v 0) as [->|]; [by vm_compute|]. apply Z.log2_spec. lia.
  - exists ds. split; [done|]. by rewrite E, app_nil_r.
Qed.

Lemma digit_cases c : is_digit c = true -> 48 <= c <= 57.
Proof. unfold is_digit. change (ch "0") with 48. change (ch "9") with 57. lia. Qed.

Lemma digits_advance ds : Forall (fun c => is_digit c = true) ds ->
  advance ds IN_NONZERO_NUMBER = Some IN_NONZERO_NUMBER.
Proof.
  induction 1 as [|c ds Hc _ IH]; [done|]. apply digit_cases in Hc. rewrite (advance_cons c ds).
  assert (A : forallb (fun c => bool_decide (advance [c] IN_NONZERO_NUMBER = Some IN_NONZERO_NUMBER)) (seqZ 48 10) = true)
    by (vm_compute; reflexivity).
  rewrite (proj1 (bool_decide_eq_true _) (forallb_seqZ _ 48 10 A c ltac:(lia))). exact IH.
Qed.

Lemma first_digit c : 49 <= c <= 57 -> advance [c] IN_START = Some IN_NONZERO_NUMBER /\
  advance [c] IN_NEG_NONZERO_NUMBER = Some IN_NONZERO_NUMBER.
Proof.
  intros H. assert (A : forallb (fun c => bool_decide (advance [c] IN_START = Some IN_NONZERO_NUMBER) &&
    bool_decide (advance [c] IN_NEG_NONZERO_NUMBER = Some IN_NONZERO_NUMBER)) (seqZ 49 9) = true) by (vm_compute; reflexivity).
  pose proof (forallb_seqZ _ 49 9 A c ltac:(lia)) as G. rewrite andb_true_iff, !bool_decide_eq_true in G. exact G.
Qed.

Lemma positive_advance v ds : 0 < v -> digits_for v ds ->
  advance ds IN_START = Some IN_NONZERO_NUMBER /\ advance ds IN_NEG_NONZERO_NUMBER = Some IN_NONZERO_NUMBER.
Proof.
  intros Hv [H1 (c & ds' & -> & Hc & _) _]. apply Forall_cons in H1 as [H1 H2]. apply digit_cases in H1.
  specialize (Hc Hv). change (ch "0") with 48 in Hc. destruct (first_digit c) as [F1 F2]; [lia|].
  rewrite !(advance_cons c ds'), F1, F2. split; by apply digits_advance.
Qed.

(** The text of an integer. *)
Lemma decimal_ok v : - 2 ^ 63 <= v < 2 ^ 63 ->
  (exists st, advance (decimal v) IN_START = Some st /\ waits st JSON_INTEGER) /\
  (exists c t, decimal v = c :: t /\ visible c = true) /\ strtoll (decimal v) = v.
Proof.
  intros Hv. unfold decimal. destruct (Z.ltb_spec v 0).
  - destruct (decimal_digits (- v)) as (ds & D & ->); [lia|]. split.
    + exists IN_NONZERO_NUMBER. split; [|right; by left]. rewrite (advance_cons 45 ds).
      change (advance [45] IN_START) with (Some IN_NEG_NONZERO_NUMBER). apply (positive_advance (- v)); [lia|done].
    + split; [by exists 45, ds|]. unfold strtoll. cbn [skip_spaces scan_sign]. change ((45 =? 32) || ((9 <=? 45) && (45 <=? 13))) with false.
      cbv iota. cbn [scan_sign]. change (45 =? ch "-") with true. cbv iota.
      pose proof (d_value _ _ D 0 0 []) as E. rewrite app_nil_r in E. rewrite E. cbn [scan_digits]. lia.
  - destruct (decimal_digits v) as (ds & D & ->); [lia|]. pose proof D as [D1 (c & ds' & -> & Hc & Hz) _].
    pose proof D1 as [D2 _]%Forall_cons. apply digit_cases in D2. split; [|split].
    + destruct (Z.eq_dec v 0) as [E|E].
      * exists IN_ZERO. rewrite (Hz E). split; [done|by left].
      * exists IN_NONZERO_NUMBER. split; [|right; by left]. apply (positive_advance v); [lia|done].
    + exists c, ds'. split; [done|]. unfold visible. lia.
    + unfold strtoll. cbn [skip_spaces]. destruct ((c =? 32) || ((9 <=? c) && (c <=? 13))) eqn:S; [lia|]. cbn [scan_sign].
      change (ch "-") with 45. change (ch "+") with 43. destruct (Z.eqb_spec c 45); [lia|]. destruct (Z.eqb_spec c 43); [lia|].
      pose proof (d_value _ _ D 0 0 []) as E. rewrite app_nil_r in E. rewrite E. cbn [scan_digits]. lia.
Qed.

(** ** Texts of values *)

(** The text [t] scans to the tokens [ks], the last of which may wait for the
    character that follows. *)
Record value_text (t : list Z) (ks : list token_kind) : Prop := {
  v_first : exists c t', t = c :: t' /\ visible c = true;
  v_scan : exists ks0 st tok, scan t IN_START [] = Some (ks0, st, tok) /\
    ((st = IN_START /\ tok = [] /\ ks = ks0) \/ exists ty, waits st ty /\ ks = ks0 ++ [(ty, tok)]);
  v_length : (length ks <= length t)%nat
}.

Lemma value_then t ks c r : value_text t ks -> delim c ->
  scan (t ++ c :: r) IN_START [] = before ks (scan (c :: r) IN_START []).
Proof.
  intros [_ (ks0 & st & tok & E & H) _] D. rewrite scan_app, E.
  destruct H as [(-> & -> & ->)|(ty & W & ->)]; [done|]. by rewrite (scan_wait st ty), before_before.
Qed.

Definition op (c : Z) : token_kind := (JSON_OPERATOR, [c]).

Definition new_line (pretty indent : Z) : list Z := if truthy pretty then NEWLINE :: indentation indent else [].

(** Elements with what is printed before each of them. *)
Fixpoint join (pretty indent : Z) (first : bool) (ts : list (list Z)) : list Z :=
  match ts with
  | [] => []
  | t :: ts' => (if first then [] else str ", ") ++ new_line pretty indent ++ t ++ join pretty indent false ts'
  end.

Fixpoint kjoin (first : bool) (kss : list (list token_kind)) : list token_kind :=
  match kss with
  | [] => []
  | ks :: kss' => (if first then [] else [op (ch ",")]) ++ ks ++ kjoin false kss'
  end.

Lemma indentation_spaces n : Forall (fun c => is_space c = true) (indentation n).
Proof.
  unfold indentation. induction (Z.to_nat n) as [|k IH]; [apply Forall_nil_2|]. cbn [replicate mjoin list_join].
  apply Forall_app. split; [by repeat constructor|exact IH].
Qed.

Lemma new_line_spaces p i : Forall (fun c => is_space c = true) (new_line p i).
Proof. unfold new_line. destruct (truthy p); [|apply Forall_nil_2]. constructor; [done|apply indentation_spaces]. Qed.

Lemma scan_separator p i (first : bool) c r : visible c = true ->
  scan ((if first then [] else str ", ") ++ new_line p i ++ c :: r) IN_START [] =
  before (if first then [] else [op (ch ",")]) (scan (c :: r) IN_START []).
Proof.
  intros V. destruct first; cbn [app]; [rewrite before_nil; apply scan_spaces; [apply new_line_spaces|done]|].
  change (str ", ") with [ch ","; ch " "]. cbn [app]. rewrite scan_op by done. f_equal.
  apply (scan_spaces (ch " " :: new_line p i)); [|done]. constructor; [done|apply new_line_spaces].
Qed.

Lemma join_starts p i ts c r : delim c -> exists c' r', join p i false ts ++ c :: r = c' :: r' /\ delim c'.
Proof. intros D. destruct ts as [|t ts]; [by exists c, r|]. eexists (ch ","), _. split; [reflexivity|by left]. Qed.

Lemma scan_join p i ts kss c r : Forall2 value_text ts kss -> delim c -> forall first,
  scan (join p i first ts ++ c :: r) IN_START [] = before (kjoin first kss) (scan (c :: r) IN_START []).
Proof.
  intros H D. induction H as [|t ks ts kss Ht _ IH]; intros first; cbn [join kjoin app]; [by rewrite before_nil|].
  rewrite <- !app_assoc. destruct (v_first _ _ Ht) as (c0 & t0 & Et & Vc).
  destruct (join_starts p i ts c r D) as (c' & r' & Ej & Dc).
  rewrite Et. cbn [app]. rewrite scan_separator by done. rewrite Ej.
  pose proof (value_then t ks c' r' Ht Dc) as S. rewrite Et in S. cbn [app] in S. rewrite S, <- Ej, IH.
  by rewrite !before_before, <- !app_assoc.
Qed.

Lemma scan_closing p i b : b = ch "]" \/ b = ch "}" -> exists c r, new_line p i ++ [b] = c :: r /\ delim c /\
  scan (new_line p i ++ [b]) IN_START [] = Some ([op b], IN_START, []).
Proof.
  intros Hb. assert (Hs : scan (new_line p i ++ [b]) IN_START [] = Some ([op b], IN_START, [])).
  { rewrite (scan_spaces _ b []) by (apply new_line_spaces || by destruct Hb as [->| ->]). by destruct Hb as [->| ->]. }
  unfold new_line in *. destruct (truthy p).
  - eexists NEWLINE, _. split; [reflexivity|]. split; [right; right; by right|exact Hs].
  - exists b, []. split; [done|]. split; [destruct Hb; [right; by left|right; right; by left]|exact Hs].
Qed.

Lemma join_length p i ts kss : Forall2 value_text ts kss -> forall first,
  (length (kjoin first kss) <= length (join p i first ts))%nat.
Proof.
  induction 1 as [|t ks ts kss Ht _ IH]; intros first; [done|]. cbn [kjoin join]. rewrite !length_app.
  pose proof (v_length _ _ Ht). specialize (IH false). destruct first; cbn [length]; [lia|].
  change (length (str ", ")) with 2%nat. lia.
Qed.

(** Lists and dictionaries. *)
Lemma compound_text p i (a b : Z) ts kss : a = ch "[" /\ b = ch "]" \/ a = ch "{" /\ b = ch "}" -> Forall2 value_text ts kss ->
  value_text ([a] ++ join p (i + 1) true ts ++ new_line p i ++ [b]) (op a :: kjoin true kss ++ [op b]).
Proof.
  intros Hab H. assert (Ha : is_operator a = true /\ visible a = true) by (by destruct Hab as [[-> _]|[-> _]]).
  assert (Hb : b = ch "]" \/ b = ch "}") by tauto. destruct (scan_closing p i b Hb) as (c & r & E & D & S).
  constructor.
  - eexists a, _. split; [reflexivity|apply Ha].
  - eexists _, IN_START, []. split; [|by left]. cbn [app]. rewrite scan_op by apply Ha. rewrite E, (scan_join p (i + 1) ts kss c r H D).
    rewrite <- E, S. cbn [before app]. reflexivity.
  - pose proof (join_length p (i + 1) ts kss H true). rewrite !length_app. cbn [length]. rewrite !length_app. cbn [length]. lia.
Qed.

(** A key and its value. *)
Lemma pair_text ws t ks : Forall is_char ws -> value_text t ks ->
  value_text (print_string ws ++ str ": " ++ t) ((JSON_STRING, print_string ws) :: op (ch ":") :: ks).
Proof.
  intros Hw [(c & t' & Et & Vc) (ks0 & st & tok & S & H) Hl]. constructor.
  - by eexists QUOTE, _.
  - exists ((JSON_STRING, print_string ws) :: op (ch ":") :: ks0), st, tok. split.
    + rewrite scan_app, scan_string by done. change (str ": ") with [ch ":"; ch " "]. cbn [app]. rewrite scan_op by done.
      pose proof (scan_spaces [ch " "] c t' ltac:(by repeat constructor) Vc) as E. cbn [app] in E.
      rewrite Et, E, <- Et, S. done.
    + destruct H as [(-> & -> & ->)|(ty & W & ->)]; [by left|right; exists ty; by split].
  - rewrite !length_app. cbn [length]. change (length (str ": ")) with 2%nat. lia.
Qed.

(** ** Braces and brackets *)

Definition kopens (open close : Z) (k : token_kind) : Z := opens open close (mkEvent k.2 k.1 0 0).
Definition kbraces (ks : list token_kind) : Z := foldr Z.add 0 (kopens (ch "{") (ch "}") <$> ks).
Definition kbrackets (ks : list token_kind) : Z := foldr Z.add 0 (kopens (ch "[") (ch "]") <$> ks).
Definition kbal (ks : list token_kind) : Z := kbraces ks + kbrackets ks.

Lemma braces_kinds es : braces es = kbraces (kind <$> es) /\ brackets es = kbrackets (kind <$> es).
Proof. unfold braces, kbraces, brackets, kbrackets. by rewrite <- !list_fmap_compose. Qed.

Lemma sum_app (l1 l2 : list Z) : foldr Z.add 0 (l1 ++ l2) = foldr Z.add 0 l1 + foldr Z.add 0 l2.
Proof. induction l1 as [|a l1 IH]; cbn; lia. Qed.

Lemma kbraces_app k1 k2 : kbraces (k1 ++ k2) = kbraces k1 + kbraces k2.
Proof. unfold kbraces. by rewrite fmap_app, sum_app. Qed.

Lemma kbrackets_app k1 k2 : kbrackets (k1 ++ k2) = kbrackets k1 + kbrackets k2.
Proof. unfold kbrackets. by rewrite fmap_app, sum_app. Qed.

Lemma kbal_app k1 k2 : kbal (k1 ++ k2) = kbal k1 + kbal k2.
Proof. unfold kbal. rewrite kbraces_app, kbrackets_app. lia. Qed.

(** Nothing is closed that was not opened. *)
Record level (ks : list token_kind) : Prop := {
  l_braces : kbraces ks = 0;
  l_brackets : kbrackets ks = 0;
  l_inside : forall j, 0 <= kbal (take j ks)
}.

(** A single value: it ends only with its last token. *)
Record balanced (ks : list token_kind) : Prop := {
  b_braces : kbraces ks = 0;
  b_brackets : kbrackets ks = 0;
  b_inside : forall j, (0 < j < length ks)%nat -> 0 < kbal (take j ks)
}.

Lemma balanced_level ks : balanced ks -> level ks.
Proof.
  intros [H1 H2 H3]. constructor; [done|done|]. intros [|j]; [done|].
  destruct (decide (S j < length ks)%nat) as [L|L]; [specialize (H3 (S j) ltac:(lia)); lia|].
  rewrite take_ge by lia. unfold kbal. lia.
Qed.

Lemma level_app k1 k2 : level k1 -> level k2 -> level (k1 ++ k2).
Proof.
  intros [A1 A2 A3] [B1 B2 B3]. constructor; [rewrite kbraces_app; lia|rewrite kbrackets_app; lia|].
  intros j. rewrite take_app, kbal_app. specialize (A3 j). specialize (B3 (j - length k1)%nat). lia.
Qed.

Lemma level_nil : level [].
Proof. constructor; [done|done|]. by intros []. Qed.

Lemma level_neutral k : kopens (ch "{") (ch "}") k = 0 -> kopens (ch "[") (ch "]") k = 0 -> level [k].
Proof.
  intros H1 H2. constructor; [cbn; lia|cbn; lia|]. intros [|j]; [done|]. cbn [take firstn]. rewrite take_nil.
  unfold kbal. cbn. lia.
Qed.

Lemma kjoin_level kss : Forall level kss -> forall first, level (kjoin first kss).
Proof.
  induction 1 as [|ks kss Hk _ IH]; intros first; cbn [kjoin]; [apply level_nil|].
  apply level_app; [destruct first; [apply level_nil|by apply level_neutral]|]. by apply level_app.
Qed.

Lemma compound_balanced a b ks : a = ch "[" /\ b = ch "]" \/ a = ch "{" /\ b = ch "}" -> level ks ->
  balanced (op a :: ks ++ [op b]).
Proof.
  intros Hab [H1 H2 H3].
  assert (W : kbraces [op a] + kbraces [op b] = 0 /\ kbrackets [op a] + kbrackets [op b] = 0 /\ kbal [op a] = 1)
    by (by destruct Hab as [[-> ->]|[-> ->]]).
  change (op a :: ks ++ [op b]) with ([op a] ++ ks ++ [op b]). constructor.
  - rewrite !kbraces_app. lia.
  - rewrite !kbrackets_app. lia.
  - intros [|j]; [lia|]. rewrite !length_app. cbn [length]. intros L. rewrite take_app, kbal_app.
    cbn [length]. rewrite take_ge by (cbn; lia). replace (S j - 1)%nat with j by lia.
    rewrite take_app_le by lia. specialize (H3 j). lia.
Qed.

Lemma scalar_balanced ty tx : ty <> JSON_OPERATOR -> balanced [(ty, tx)].
Proof.
  intros H. assert (W : forall o c, kopens o c (ty, tx) = 0).
  { intros. unfold kopens, opens. cbn [e_type fst]. by rewrite (proj2 (Z.eqb_neq _ _) H). }
  constructor; [cbn; by rewrite W|cbn; by rewrite W|cbn; lia].
Qed.

Lemma pair_level s ks : level ks -> level ((JSON_STRING, s) :: op (ch ":") :: ks).
Proof.
  intros H. apply (level_app [(JSON_STRING, s)]); [by apply level_neutral|].
  apply (level_app [op (ch ":")]); [by apply level_neutral|done].
Qed.

(** A list of tokens that makes one message. *)
Lemma one_message {T} (emit : toks -> T -> T) es t : es <> [] -> balanced (kind <$> es) ->
  Z.of_nat (length es) < 2 ^ 31 ->
  replay (json_message_process_token emit) es (mkParser 0 0 [], t) = (mkParser 0 0 [], emit (dict_of <$> es) t).
Proof.
  intros Hne [B1 B2 B3] Hl.
  assert (G : forall post pre, es = pre ++ post -> post <> [] ->
    replay (json_message_process_token emit) post
      (mkParser (s32 (braces pre)) (s32 (brackets pre)) (dict_of <$> pre), t) = (mkParser 0 0 [], emit (dict_of <$> es) t)).
  { induction post as [|e post IH]; intros pre E Hp; [done|]. unfold replay in *. cbn [foldl].
    unfold json_message_process_token at 2. cbn [brace_count bracket_count tokens]. rewrite count_token_balance.
    unfold QObject.qlist_append_obj.
    change ((dict_of <$> pre) ++ [token_dict (e_token e) (e_type e) (e_x e) (e_y e)])
      with ((dict_of <$> pre) ++ (dict_of <$> [e])). rewrite <- fmap_app.
    destruct post as [|e' post].
    - rewrite <- E. destruct (braces_kinds es) as [-> ->]. by rewrite B1, B2.
    - pose proof (sum_bound _ (pre ++ [e]) (opens_bound (ch "{") (ch "}"))) as N1.
      pose proof (sum_bound _ (pre ++ [e]) (opens_bound (ch "[") (ch "]"))) as N2.
      fold (braces (pre ++ [e])) in N1. fold (brackets (pre ++ [e])) in N2.
      assert (Len : (length es = length (pre ++ [e]) + S (length post))%nat) by (rewrite E, !length_app; cbn; lia).
      specialize (B3 (length (pre ++ [e]))). destruct (braces_kinds (pre ++ [e])) as [E1 E2].
      assert (Tk : take (length (pre ++ [e])) (kind <$> es) = kind <$> pre ++ [e]).
      { assert (E' : es = (pre ++ [e]) ++ e' :: post) by (by rewrite E, <- app_assoc).
        rewrite E', <- fmap_take. f_equal. apply take_app_length. }
      rewrite Tk, length_fmap in B3. unfold kbal in B3. rewrite <- E1, <- E2 in B3.
      assert (P : 0 < braces (pre ++ [e]) + brackets (pre ++ [e])) by (apply B3; rewrite length_app in *; cbn in *; lia).
      destruct ((s32 (braces (pre ++ [e])) =? 0) && (s32 (brackets (pre ++ [e])) =? 0)) eqn:Z0.
      { apply andb_prop in Z0 as [Z1%Z.eqb_eq Z2%Z.eqb_eq]. apply s32_zero in Z1; [|lia]. apply s32_zero in Z2; [|lia]. lia. }
      apply IH; [by rewrite <- app_assoc|done]. }
  exact (G es [] eq_refl Hne).
Qed.

(** ** Parsing the tokens of a value *)

Lemma kind_operator e c : token_is_operator (Some (dict_of e)) c =
  Ret ((e_type e =? JSON_OPERATOR) && ((default 0 (e_token e !! 0%nat) =? c) && (default 0 (e_token e !! 1%nat) =? 0))).
Proof.
  unfold token_is_operator. rewrite dict_type. cbn [mbind M_bind].
  destruct (e_type e =? JSON_OPERATOR); cbn [negb andb]; [|done]. by rewrite dict_value.
Qed.

Lemma op_operator e a c : kind e = op a -> token_is_operator (Some (dict_of e)) c = Ret (a =? c).
Proof. intros [= E1 E2]. rewrite kind_operator, E1, E2. cbn. by rewrite andb_true_r. Qed.

(** The tokens [ks] are parsed to a value equal to [v]. *)
Definition parses (ks : list token_kind) (v : QObject.QObject) : Prop :=
  forall n es rest, kind <$> es = ks -> (length es < n)%nat ->
  exists v', QObject.qeq v v' /\
    parse_value n (dict_of <$> es ++ rest) None = Ret (Some v', dict_of <$> rest, None).

(** A value that starts with another token. *)
Lemma no_object pv n e rest : token_is_operator (Some (dict_of e)) (ch "{") = Ret false ->
  parse_object pv n (dict_of <$> e :: rest) None = Ret (None, dict_of <$> e :: rest, None).
Proof.
  intros H. unfold parse_object. rewrite QObject.qlist_copy_id, pop_dicts. cbn [head tail fmap option_fmap option_map].
  by rewrite H.
Qed.

Lemma no_array pv n e rest : token_is_operator (Some (dict_of e)) (ch "[") = Ret false ->
  parse_array pv n (dict_of <$> e :: rest) None = Ret (None, dict_of <$> e :: rest, None).
Proof.
  intros H. unfold parse_array. rewrite QObject.qlist_copy_id, pop_dicts. cbn [head tail fmap option_fmap option_map].
  by rewrite H.
Qed.

(** A token that is no operator. *)
Lemma parse_scalar n e rest : e_type e <> JSON_OPERATOR ->
  parse_value (S n) (dict_of <$> e :: rest) None =
  ('(obj, tokens) ← parse_keyword (dict_of <$> e :: rest);
   '(obj, tokens) ← match obj with Some _ => Ret (obj, tokens) | None => parse_literal tokens end;
   Ret (obj, tokens, None)).
Proof.
  intros H. cbn [parse_value].
  assert (E : forall c, token_is_operator (Some (dict_of e)) c = Ret false)
    by (intros; by rewrite kind_operator, (proj2 (Z.eqb_neq _ _) H)).
  rewrite no_object by done. cbn [mbind M_bind]. rewrite no_array by done. done.
Qed.

Lemma keyword_false e rest : e_type e <> JSON_KEYWORD ->
  parse_keyword (dict_of <$> e :: rest) = Ret (None, dict_of <$> e :: rest).
Proof.
  intros H. unfold parse_keyword. rewrite QObject.qlist_copy_id, pop_dicts. cbn [head tail fmap option_fmap option_map].
  rewrite dict_type. cbn [mbind M_bind]. by rewrite (proj2 (Z.eqb_neq _ _) H).
Qed.

Lemma one_kind (es : list event) k : kind <$> es = [k] -> exists e, es = [e] /\ kind e = k.
Proof. destruct es as [|e [|]]; try discriminate. intros [= <-]. by exists e. Qed.

Lemma parses_int v : - 2 ^ 63 <= v < 2 ^ 63 -> parses [(JSON_INTEGER, decimal v)] (QObject.QInt v).
Proof.
  intros Hv [|n] es rest (e & -> & [= E1 E2])%one_kind Hl; [cbn in Hl; lia|]. exists (QObject.QInt v). split; [constructor|].
  cbn [app]. rewrite parse_scalar, keyword_false by (by rewrite E1). cbn [mbind M_bind].
  unfold parse_literal. rewrite QObject.qlist_copy_id, pop_dicts. cbn [head tail fmap option_fmap option_map].
  rewrite dict_type, dict_value, E1, E2. cbn. by rewrite (proj2 (proj2 (decimal_ok v Hv))).
Qed.

Lemma parses_string ws : Forall is_char ws -> parses [(JSON_STRING, print_string ws)] (QObject.QString (encode ws)).
Proof.
  intros Hw [|n] es rest (e & -> & Ek)%one_kind Hl; [cbn in Hl; lia|]. exists (QObject.QString (encode ws)).
  pose proof Ek as [= E1 E2]. split; [constructor|].
  cbn [app]. rewrite parse_scalar, keyword_false by (by rewrite E1). cbn [mbind M_bind].
  unfold parse_literal. rewrite QObject.qlist_copy_id, pop_dicts. cbn [head tail fmap option_fmap option_map].
  rewrite dict_type, (string_unescape ws e Hw Ek), E1. done.
Qed.

Lemma parses_bool v (b : bool) : v = of_bool b -> parses [(JSON_KEYWORD, if b then str "true" else str "false")] (QObject.QBool v).
Proof.
  intros -> [|n] es rest (e & -> & [= E1 E2])%one_kind Hl; [cbn in Hl; lia|]. exists (QObject.QBool (of_bool b)).
  split; [constructor|]. cbn [app]. rewrite parse_scalar by (by rewrite E1). unfold parse_keyword.
  rewrite QObject.qlist_copy_id, pop_dicts. cbn [head tail fmap option_fmap option_map]. unfold token_is_keyword.
  rewrite dict_type, dict_value, E1, E2. by destruct b.
Qed.

Lemma kinds_cons (es : list event) k ks : kind <$> es = k :: ks ->
  exists e es', es = e :: es' /\ kind e = k /\ kind <$> es' = ks.
Proof. intros (e & es' & -> & -> & ->)%fmap_cons_inv. by exists e, es'. Qed.

(** A value does not start with what closes another. *)
Lemma not_closing e es c : level (kind <$> e :: es) -> c = ch "]" \/ c = ch "}" ->
  token_is_operator (Some (dict_of e)) c = Ret false.
Proof.
  intros [_ _ L] Hc. rewrite kind_operator. f_equal. specialize (L 1%nat). cbn [fmap list_fmap take firstn] in L.
  destruct (e_type e =? JSON_OPERATOR) eqn:E; [|done]. destruct e as [[|c0 t] ty x0 y0]; cbn in E |- *;
    [by destruct Hc as [->| ->]|].
  destruct (Z.eqb_spec c0 c) as [->|]; [|done]. exfalso. revert L. unfold kbal, kbraces, kbrackets, kopens, opens. cbn.
  rewrite E. by destruct Hc as [->| ->].
Qed.

(** The rest of a list after an element. *)
Lemma array_loop_parses n l kss : Forall2 (fun v ks => parses ks v) l kss -> forall m es rest acc,
  kind <$> es = kjoin false kss ++ [op (ch "]")] -> (length es < m)%nat -> (length es <= n)%nat ->
  exists l', Forall2 QObject.qeq l l' /\
    array_loop (parse_value n) m (dict_of <$> head (es ++ rest)) acc (dict_of <$> tail (es ++ rest)) None =
    Ret (Some (acc ++ l'), dict_of <$> rest, None).
Proof.
  induction 1 as [|v ks l kss Hp _ IH]; intros [|m] es rest acc E Hm Hn; try lia; cbn [kjoin app] in E.
  - apply one_kind in E as (e & -> & Ek). exists []. split; [constructor|]. cbn [array_loop app head tail fmap option_fmap option_map].
    rewrite !(op_operator e _ _ Ek). by rewrite app_nil_r.
  - apply kinds_cons in E as (e & es0 & -> & Ek & E). rewrite <- app_assoc in E.
    apply fmap_app_inv in E as (es1 & es2 & E1 & E2 & ->). cbn [length] in Hm, Hn. rewrite length_app in Hm, Hn.
    cbn [array_loop app head tail fmap option_fmap option_map]. rewrite !(op_operator e _ _ Ek). cbn [mbind M_bind].
    change (ch "," =? ch "]") with false. change (ch "," =? ch ",") with true. cbn [negb].
    destruct (Hp n es1 (es2 ++ rest) (eq_sym E1) ltac:(lia)) as (v' & Q & Ev).
    fold (dict_of <$> (es1 ++ es2) ++ rest). rewrite <- app_assoc, Ev. cbn [mbind M_bind]. rewrite pop_dicts.
    destruct (IH m es2 rest (acc ++ [v']) (eq_sym E2)) as (l' & Q' & El); [lia|lia|]. exists (v' :: l').
    split; [by constructor|]. unfold QObject.qlist_append_obj. rewrite El, <- app_assoc. done.
Qed.

Lemma parses_list l kss : Forall2 (fun v ks => parses ks v) l kss -> Forall balanced kss -> Forall (fun ks => ks <> []) kss ->
  parses (op (ch "[") :: kjoin true kss ++ [op (ch "]")]) (QObject.QList l).
Proof.
  intros H Hb Hne [|n] es rest E Hl; [lia|]. apply kinds_cons in E as (e & es0 & -> & Ek & E). rename es0 into es.
  cbn [length] in Hl.
  assert (EA : exists l', Forall2 QObject.qeq l l' /\ parse_array (parse_value n) (S n) (dict_of <$> (e :: es) ++ rest) None =
    Ret (Some (QObject.QList l'), dict_of <$> rest, None)).
  { unfold parse_array. rewrite QObject.qlist_copy_id, pop_dicts. cbn [app head tail fmap option_fmap option_map].
    rewrite (op_operator e _ _ Ek). cbn [mbind M_bind]. change (ch "[" =? ch "[") with true. cbn [negb].
    fold (dict_of <$> es ++ rest). unfold QObject.qlist_peek.
    destruct H as [|v ks l kss Hp H]; cbn [kjoin app] in E.
    - apply one_kind in E as (e1 & -> & Ek1). exists []. split; [constructor|]. cbn [app fmap list_fmap head].
      rewrite (op_operator e1 _ _ Ek1). done.
    - apply Forall_cons in Hb as [Hb1 Hb]. apply Forall_cons in Hne as [Hne1 Hne].
      rewrite <- app_assoc in E. apply fmap_app_inv in E as (es1 & es2 & E1 & E2 & ->). rewrite length_app in Hl.
      destruct es1 as [|e1 es1]; [done|]. cbn [app fmap list_fmap head].
      rewrite (not_closing e1 es1) by (by left || (rewrite <- E1; by apply balanced_level)). cbn [mbind M_bind].
      destruct (Hp n (e1 :: es1) (es2 ++ rest) (eq_sym E1)) as (v' & Q & Ev); [lia|].
      fold (dict_of <$> (es1 ++ es2) ++ rest). change (dict_of e1 :: (dict_of <$> (es1 ++ es2) ++ rest)) with (dict_of <$> ((e1 :: es1) ++ es2) ++ rest).
      rewrite <- app_assoc, Ev. cbn [mbind M_bind]. rewrite pop_dicts.
      destruct (array_loop_parses n l kss H (S n) es2 rest [v'] (eq_sym E2)) as (l' & Q' & El); [lia|lia|]. exists (v' :: l').
      split; [by constructor|]. unfold QObject.qlist_append_obj. cbn [app]. by rewrite El. }
  destruct EA as (l' & Q & EA). exists (QObject.QList l'). split; [by constructor|]. cbn [parse_value].
  rewrite (no_object _ _ e (es ++ rest)) by (by rewrite (op_operator e _ _ Ek)). cbn [mbind M_bind].
  change (dict_of <$> e :: es ++ rest) with (dict_of <$> (e :: es) ++ rest). by rewrite EA.
Qed.

(** *** Dictionaries *)

Abbreviation entry := (list Z * QObject.QObject)%type.

Definition puts (d : QDict.qdict QObject.QObject) (l : list entry) : QDict.qdict QObject.QObject :=
  foldl (fun d e => QDict.qdict_put_obj d e.1 e.2) d l.

Definition same_entry (e e' : entry) : Prop := e'.1 = e.1 /\ QObject.qeq e.2 e'.2.

Lemma put_size (d : QDict.qdict QObject.QObject) k v : QDict.qdict_get d k = None ->
  QDict.size (QDict.qdict_put_obj d k v) = QDict.size d + 1.
Proof. unfold QDict.qdict_get, QDict.qdict_put_obj. by intros ->. Qed.

Lemma puts_ok l : forall d, QDict.wf d -> NoDup l.*1 -> (forall k, k ∈ l.*1 -> QDict.qdict_get d k = None) ->
  QDict.size (puts d l) = QDict.size d + Z.of_nat (length l) /\
  forall k, QDict.qdict_get (puts d l) k =
    match QDict.find_entry l k with Some v => Some v | None => QDict.qdict_get d k end.
Proof.
  induction l as [|[k0 v0] l IH]; intros d W N F; [split; [cbn; lia|done]|]. unfold puts in *. cbn [foldl fst snd].
  cbn [fmap list_fmap fst] in N, F. apply NoDup_cons in N as [N1 N2].
  destruct (IH (QDict.qdict_put_obj d k0 v0)) as [S G]; [by apply QDict.put_wf|done| |].
  - intros k Hk. rewrite QDict.get_put by done. rewrite bool_decide_eq_false_2 by (by intros ->). apply F. by right.
  - rewrite S, put_size by (apply F; left). split; [cbn [length]; lia|]. intros k. rewrite G, QDict.get_put by done.
    cbn [QDict.find_entry]. case_bool_decide as E; [subst k|done].
    by rewrite (proj2 (QDict.find_entry_None l k0) N1).
Qed.

Lemma get_entries (d : QDict.qdict QObject.QObject) k : QDict.wf d -> QDict.qdict_get d k = QDict.find_entry (QDict.entries d) k.
Proof.
  intros W. destruct (QDict.find_entry (QDict.entries d) k) as [v|] eqn:E.
  - by apply QDict.entries_get, QDict.find_entry_Some.
  - apply QDict.find_entry_None in E. destruct (QDict.qdict_get d k) as [v|] eqn:G; [|done].
    apply QDict.entries_get in G; [|done]. destruct E. apply list_elem_of_fmap. by exists (k, v).
Qed.

Lemma same_find l l' k : Forall2 same_entry l l' ->
  match QDict.find_entry l k, QDict.find_entry l' k with
  | Some v, Some v' => QObject.qeq v v'
  | None, None => True
  | _, _ => False
  end.
Proof.
  induction 1 as [|[k1 v1] [k2 v2] l l' [E Q] _ IH]; [done|]. cbn in E, Q. subst k2. cbn [QDict.find_entry].
  by case_bool_decide.
Qed.

Lemma same_keys l l' : Forall2 same_entry l l' -> l'.*1 = l.*1.
Proof. induction 1 as [|e e' l l' [E _] _ IH]; [done|]. cbn. by rewrite E, IH. Qed.

(** Inserting the entries of [d] one by one gives a dictionary equal to it. *)
Lemma puts_equal d l' : QDict.wf d -> Forall2 same_entry (QDict.entries d) l' ->
  QObject.qeq (QObject.QDict d) (QObject.QDict (puts QDict.qdict_new l')).
Proof.
  intros W H. destruct (puts_ok l' QDict.qdict_new QDict.qdict_new_wf) as [S G].
  - rewrite (same_keys _ _ H). by apply QDict.entries_keys.
  - intros. apply QDict.get_new.
  - assert (G' : forall k, QDict.qdict_get (puts QDict.qdict_new l') k = QDict.find_entry l' k).
    { intros k. rewrite G. destruct (QDict.find_entry l' k); [done|]. apply QDict.get_new. }
    constructor.
    + rewrite S, (QDict.wf_size d W), (Forall2_length _ _ _ H). done.
    + intros k. rewrite G', get_entries by done. pose proof (same_find _ _ k H).
      by destruct (QDict.find_entry (QDict.entries d) k), (QDict.find_entry l' k).
    + intros k v v'. rewrite G', get_entries by done. pose proof (same_find _ _ k H) as F. intros E E'. by rewrite E, E' in F.
Qed.

(** An entry, the characters of its key and the tokens of its value. *)
Record entry_parses (e : entry) (x : list Z * list token_kind) : Prop := {
  ep_chars : Forall is_char x.1;
  ep_key : e.1 = encode x.1;
  ep_value : parses x.2 e.2
}.

Definition pair_kinds (x : list Z * list token_kind) : list token_kind :=
  (JSON_STRING, print_string x.1) :: op (ch ":") :: x.2.

Lemma pair_parses n e x dict es rest : entry_parses e x -> kind <$> es = pair_kinds x -> (length es < n)%nat ->
  exists e', same_entry e e' /\ parse_pair (parse_value n) dict (dict_of <$> es ++ rest) None =
    Ret (0, QDict.qdict_put_obj dict e'.1 e'.2, dict_of <$> rest, None).
Proof.
  intros [Hw Hk Hp] E Hl. apply kinds_cons in E as (e1 & es1 & -> & Ek1 & E). apply kinds_cons in E as (e2 & es2 & -> & Ek2 & E).
  cbn [length] in Hl. unfold parse_pair. rewrite QObject.qlist_copy_id.
  assert (K1 : kind <$> [e1] = [(JSON_STRING, print_string x.1)]) by (cbn; by rewrite Ek1).
  destruct (parses_string x.1 Hw n [e1] (e2 :: es2 ++ rest) K1) as (kv & Q1 & P1); [cbn; lia|].
  inversion Q1; subst kv. cbn [app] in P1 |- *. rewrite P1. cbn [mbind M_bind]. rewrite pop_dicts.
  cbn [head tail fmap option_fmap option_map]. rewrite (op_operator e2 _ _ Ek2). cbn [mbind M_bind].
  change (ch ":" =? ch ":") with true. cbn [negb]. fold (dict_of <$> es2 ++ rest).
  destruct (Hp n es2 rest E) as (v' & Q2 & P2); [lia|]. rewrite P2. exists (e.1, v'). split; [done|]. cbn. by rewrite Hk.
Qed.

Lemma object_loop_parses n l xs : Forall2 entry_parses l xs -> forall m es rest dict,
  kind <$> es = kjoin false (pair_kinds <$> xs) ++ [op (ch "}")] -> (length es < m)%nat -> (length es <= n)%nat ->
  exists l', Forall2 same_entry l l' /\
    object_loop (parse_value n) m (dict_of <$> head (es ++ rest)) dict (dict_of <$> tail (es ++ rest)) None =
    Ret (Some (puts dict l'), dict_of <$> rest, None).
Proof.
  induction 1 as [|e0 x l xs Hp _ IH]; intros [|m] es rest dict E Hm Hn; try lia; cbn [kjoin app fmap list_fmap] in E.
  - apply one_kind in E as (e & -> & Ek). exists []. split; [constructor|]. cbn [object_loop app head tail fmap option_fmap option_map].
    by rewrite !(op_operator e _ _ Ek).
  - apply kinds_cons in E as (e & es0 & -> & Ek & E). fold (pair_kinds <$> xs) in E.
    rewrite <- app_assoc in E. apply fmap_app_inv in E as (es1 & es2 & E1 & E2 & ->).
    cbn [length] in Hm, Hn. rewrite length_app in Hm, Hn.
    cbn [object_loop app head tail fmap option_fmap option_map]. rewrite !(op_operator e _ _ Ek). cbn [mbind M_bind].
    change (ch "," =? ch "}") with false. change (ch "," =? ch ",") with true. cbn [negb].
    fold (dict_of <$> (es1 ++ es2) ++ rest). rewrite <- app_assoc.
    destruct (pair_parses n e0 x dict es1 (es2 ++ rest) Hp (eq_sym E1) ltac:(lia)) as (e' & Q & Ev).
    rewrite Ev. cbn [mbind M_bind]. change (0 =? -1) with false. cbv iota. rewrite pop_dicts.
    destruct (IH m es2 rest (QDict.qdict_put_obj dict e'.1 e'.2) (eq_sym E2)) as (l' & Q' & El); [lia|lia|].
    exists (e' :: l'). split; [by constructor|]. exact El.
Qed.

Lemma parses_dict d xs : QDict.wf d -> Forall2 entry_parses (QDict.entries d) xs ->
  parses (op (ch "{") :: kjoin true (pair_kinds <$> xs) ++ [op (ch "}")]) (QObject.QDict d).
Proof.
  intros W H [|n] es rest E Hl; [lia|]. apply kinds_cons in E as (e & es0 & -> & Ek & E). rename es0 into es.
  cbn [length] in Hl.
  assert (EO : exists l', Forall2 same_entry (QDict.entries d) l' /\
    parse_object (parse_value n) (S n) (dict_of <$> (e :: es) ++ rest) None =
    Ret (Some (QObject.QDict (puts QDict.qdict_new l')), dict_of <$> rest, None)).
  { unfold parse_object. rewrite QObject.qlist_copy_id, pop_dicts. cbn [app head tail fmap option_fmap option_map].
    rewrite (op_operator e _ _ Ek). cbn [mbind M_bind]. change (ch "{" =? ch "{") with true. cbn [negb].
    fold (dict_of <$> es ++ rest). unfold QObject.qlist_peek.
    destruct H as [|e0 x l xs Hp H]; cbn [kjoin app fmap list_fmap] in E.
    - apply one_kind in E as (e1 & -> & Ek1). exists []. split; [constructor|]. cbn [app fmap list_fmap head].
      rewrite (op_operator e1 _ _ Ek1). done.
    - fold (pair_kinds <$> xs) in E. rewrite <- app_assoc in E. apply fmap_app_inv in E as (es1 & es2 & E1 & E2 & ->).
      rewrite length_app in Hl. pose proof E1 as E1'. symmetry in E1'. apply kinds_cons in E1' as (e1 & es1' & Es1 & Ek1 & _).
      assert (Hd : token_is_operator (head (dict_of <$> (es1 ++ es2) ++ rest)) (ch "}") = Ret false).
      { rewrite Es1. cbn [app fmap list_fmap head]. rewrite kind_operator. by injection Ek1 as -> ->. }
      rewrite Hd. cbn [mbind M_bind]. rewrite <- app_assoc.
      destruct (pair_parses n e0 x QDict.qdict_new es1 (es2 ++ rest) Hp (eq_sym E1)) as (e' & Q & Ev); [lia|].
      rewrite Ev. cbn [mbind M_bind]. change (0 =? -1) with false. cbv iota. rewrite pop_dicts.
      destruct (object_loop_parses n l xs H (S n) es2 rest (QDict.qdict_put_obj QDict.qdict_new e'.1 e'.2) (eq_sym E2))
        as (l' & Q' & El); [lia|lia|].
      exists (e' :: l'). split; [by constructor|]. by rewrite El. }
  destruct EO as (l' & Q & EO). eexists. split; [by apply (puts_equal d l')|]. cbn [parse_value]. by rewrite EO.
Qed.

(** ** Printing *)

Lemma before_element_text p i n s : before_element p i (n, s) =
  s ++ (if n =? 0 then [] else str ", ") ++ new_line p i.
Proof.
  unfold before_element, new_line, truthy. cbn [fst snd].
  destruct (n =? 0); cbn [negb]; destruct (p =? 0); cbn [negb app]; rewrite <- ?app_assoc, ?app_nil_r; done.
Qed.

(** An iteration whose step appends the text of its element. *)
Lemma fold_join {X} p i (f : X -> list Z -> list Z) xs kss :
  Forall2 (fun x ks => exists t, (forall s, f x s = s ++ t) /\ value_text t ks) xs kss ->
  exists ts, Forall2 value_text ts kss /\ forall n s, 0 <= n ->
    foldl (fun a x => (a.1 + 1, f x (before_element p i a))) (n, s) xs =
    (n + Z.of_nat (length xs), s ++ join p i (n =? 0) ts).
Proof.
  induction 1 as [|x ks xs kss (t & Ht & V) _ (ts & Hts & IH)].
  - exists []. split; [constructor|]. intros n s _. cbn. by rewrite Z.add_0_r, app_nil_r.
  - exists (t :: ts). split; [by constructor|]. intros n s Hn. cbn [foldl fst]. rewrite before_element_text, Ht.
    rewrite IH by lia. f_equal; [cbn [length]; lia|].
    rewrite (proj2 (Z.eqb_neq (n + 1) 0)) by lia. cbn [join]. by rewrite <- !app_assoc.
Qed.

Lemma after_elements_text p i s : after_elements p i s = s ++ new_line p i.
Proof. unfold after_elements, new_line. destruct (truthy p); [done|by rewrite app_nil_r]. Qed.

(** Values whose text is read back. *)
Unset Elimination Schemes.

Inductive printable : QObject.QObject -> Prop :=
| p_int v : - 2 ^ 63 <= v < 2 ^ 63 -> printable (QObject.QInt v)
| p_string ws : Forall is_char ws -> printable (QObject.QString (encode ws))
| p_bool (b : bool) : printable (QObject.QBool (of_bool b))
| p_list l : Forall printable l -> printable (QObject.QList l)
| p_dict d : QDict.wf d ->
    Forall (fun e => (exists ws, Forall is_char ws /\ e.1 = encode ws) /\ printable e.2) (QDict.entries d) ->
    printable (QObject.QDict d).

Set Elimination Schemes.

(** The tokens [ks] of a value, the texts it may have and what they parse to. *)
Record prints (v : QObject.QObject) (ks : list token_kind) : Prop := {
  pr_some : ks <> [];
  pr_balanced : balanced ks;
  pr_parses : parses ks v;
  pr_text : forall p i, exists t, (forall s, to_json v p i s = s ++ t) /\ value_text t ks
}.

Lemma Forall_choose {A B} (R : A -> B -> Prop) l : Forall (fun a => exists b, R a b) l -> exists bs, Forall2 R l bs.
Proof.
  induction 1 as [|a l (b & Hb) _ (bs & IH)]; [exists []; constructor|]. exists (b :: bs). by constructor.
Qed.

Lemma scalar_prints v t ty : ty <> JSON_OPERATOR -> parses [(ty, t)] v -> (forall p i s, to_json v p i s = s ++ t) ->
  value_text t [(ty, t)] -> prints v [(ty, t)].
Proof. intros H P T V. constructor; [done|by apply scalar_balanced|done|]. intros p i. exists t. by split. Qed.

Lemma waiting_text t st ty : advance t IN_START = Some st -> waits st ty -> (exists c t', t = c :: t' /\ visible c = true) ->
  value_text t [(ty, t)].
Proof.
  intros A W F. constructor; [done| |].
  - exists [], st, t. rewrite (advance_scan _ _ _ _ A). split; [done|]. right. by exists ty.
  - destruct F as (c & t' & -> & _). cbn. lia.
Qed.

Lemma int_prints v : - 2 ^ 63 <= v < 2 ^ 63 -> prints (QObject.QInt v) [(JSON_INTEGER, decimal v)].
Proof.
  intros H. destruct (decimal_ok v H) as ((st & A & W) & F & _).
  apply scalar_prints; [done|by apply parses_int|done|by apply (waiting_text _ st)].
Qed.

Lemma string_prints ws : Forall is_char ws -> prints (QObject.QString (encode ws)) [(JSON_STRING, print_string ws)].
Proof.
  intros H. apply scalar_prints; [done|by apply parses_string|intros; by apply string_text|]. constructor.
  - by eexists QUOTE, _.
  - exists [(JSON_STRING, print_string ws)], IN_START, []. split; [by apply scan_string|by left].
  - cbn. lia.
Qed.

Lemma bool_prints (b : bool) : prints (QObject.QBool (of_bool b)) [(JSON_KEYWORD, if b then str "true" else str "false")].
Proof.
  apply scalar_prints; [done|by apply parses_bool|by destruct b|].
  apply (waiting_text _ IN_KEYWORD); [by destruct b|right; by right|]. destruct b; by eexists _, _.
Qed.

Lemma list_prints l kss : Forall2 prints l kss -> prints (QObject.QList l) (op (ch "[") :: kjoin true kss ++ [op (ch "]")]).
Proof.
  intros H.
  assert (B : Forall balanced kss) by (eapply Forall2_Forall_r; [exact H|apply Forall_true; by intros ? ? []]).
  assert (N : Forall (fun ks => ks <> []) kss) by (eapply Forall2_Forall_r; [exact H|apply Forall_true; by intros ? ? []]).
  constructor; [done| | |].
  - apply compound_balanced; [by left|]. apply kjoin_level. eapply Forall_impl; [exact B|apply balanced_level].
  - apply parses_list; [|done|done]. eapply Forall2_impl; [exact H|]. by intros ? ? [].
  - intros p i. destruct (fold_join p (i + 1) (fun v s => to_json v p (i + 1) s) l kss) as (ts & Ht & E).
    { eapply Forall2_impl; [exact H|]. intros v ks [_ _ _ T]. exact (T p (i + 1)). }
    eexists. split; [|apply compound_text; [by left|exact Ht]]. intros s. cbn [to_json].
    unfold QObject.qlist_iter, to_json_list_iter. rewrite E by lia. cbn [snd]. rewrite after_elements_text, <- !app_assoc. done.
Qed.

Lemma dict_prints d xs : QDict.wf d -> Forall2 (fun e x => entry_parses e x /\ prints e.2 x.2) (QDict.entries d) xs ->
  prints (QObject.QDict d) (op (ch "{") :: kjoin true (pair_kinds <$> xs) ++ [op (ch "}")]).
Proof.
  intros W H. constructor; [done| |apply parses_dict; [done|eapply Forall2_impl; [exact H|by intros ? ? []]]|].
  - apply compound_balanced; [by right|]. apply kjoin_level, Forall_fmap.
    eapply Forall2_Forall_r; [exact H|apply Forall_true]. intros e x [_ [_ B _ _]]. by apply pair_level, balanced_level.
  - intros p i. destruct (fold_join p (i + 1) (fun (e : entry) s => to_json e.2 p (i + 1) (to_json_qstring e.1 s ++ str ": "))
      (QDict.entries d) (pair_kinds <$> xs)) as (ts & Ht & E).
    { apply Forall2_fmap_r. eapply Forall2_impl; [exact H|].
      intros e x [[Hw Hk _] [_ _ _ T]]. destruct (T p (i + 1)) as (t & Et & V). exists (print_string x.1 ++ str ": " ++ t).
      split; [|by apply pair_text]. intros s. rewrite Et, Hk, string_text by done. by rewrite <- !app_assoc. }
    eexists. split; [|apply compound_text; [by right|exact Ht]]. intros s. cbn [to_json].
    rewrite QDict.iter_entries. unfold to_json_dict_iter. rewrite E by lia. cbn [snd].
    rewrite after_elements_text, <- !app_assoc. done.
Qed.

Lemma Forall_mp {A} (P Q : A -> Prop) l : Forall P l -> Forall (fun a => P a -> Q a) l -> Forall Q l.
Proof. rewrite !Forall_forall. eauto. Qed.

Lemma printable_prints v : printable v -> exists ks, prints v ks.
Proof.
  induction v as [z|s|d IH|l IH|z|z|] using QObject.qobject_ind; intros H; inversion H as [? H0|ws H0|b|? H0|? W H0]; subst.
  - eexists. by apply int_prints.
  - eexists. by apply string_prints.
  - assert (IH' : Forall (fun e : entry => printable e.2 -> exists ks, prints e.2 ks) (QDict.entries d)).
    { unfold QDict.entries. clear - IH. induction IH as [|b t Hb _ IHt]; [constructor|]. cbn. apply Forall_app. by split. }
    assert (G : Forall (fun e : entry => exists x, entry_parses e x /\ prints e.2 x.2) (QDict.entries d)).
    { eapply Forall_mp; [exact H0|]. eapply Forall_impl; [exact IH'|].
      intros [k v] Hv [(ws & Hw & Hk) Hp]. destruct (Hv Hp) as (ks & P). exists (ws, ks).
      split; [constructor; [done|done|apply P]|done]. }
    destruct (Forall_choose _ _ G) as (xs & Hx). eexists. by apply (dict_prints d xs).
  - destruct (Forall_choose prints l (Forall_mp _ _ _ H0 IH)) as (kss & Hk). eexists. by apply list_prints.
  - eexists. apply bool_prints.
Qed.

(** ** The round trip *)

(** A text whose tokens make one value. *)
Lemma text_parses v t ks : prints v ks -> value_text t ks -> Z.of_nat (length t) < 2 ^ 31 ->
  exists v', QObject.qeq v v' /\ qobject_from_json t = Ret (Some v').
Proof.
  intros [Hne Hb Hp _] [_ (ks0 & st & tok & Sc & H) Hl] Hlen. unfold qobject_from_json, qobject_from_jsonv, json_message_parser_feed,
    json_message_parser_flush, json_message_parser_init.
  set (s0 := (mkParser 0 0 [], Ret (None, None)) : JSONMessageParser * parsing_state).
  change s0 with (replay (json_message_process_token parse_json) [] s0).
  destruct (scan_feed t IN_START [] ks0 st tok 0 0 [] Sc) as (x' & y' & new & F & K).
  unfold json_lexer_init. rewrite feed_log, F. cbn [app]. rewrite flush_log.
  assert (Fl : exists err l' new', json_lexer_flush log_emit (mkLexer st tok x' y') new = (err, l', new') /\ kind <$> new' = ks).
  { unfold json_lexer_flush. cbn [state]. destruct H as [(-> & -> & ->)|(ty & W & ->)]; [by eexists _, _, new|].
    assert (Est : (st =? IN_START) = false) by (by destruct W as [[-> _]|[[-> _]|[-> _]]]). rewrite Est.
    destruct (wait_after st ty 0 W (or_intror eq_refl)) as (E1 & E2 & E3). unfold json_lexer_feed_char. cbn [state token JsonLexer.x JsonLexer.y].
    change (0 =? NEWLINE) with false. cbv iota. rewrite (round_after _ _ _ (mkLexer st tok (s32 (x' + 1)) y') _ ty E1 E2 E3).
    cbn [JsonLexer.x JsonLexer.y token]. rewrite round_error by done. eexists _, _, _. split; [reflexivity|]. unfold log_emit. by rewrite fmap_app, K. }
  destruct Fl as (err & l' & es & -> & Ek). unfold s0.
  assert (Les : length es = length ks) by (by rewrite <- Ek, length_fmap).
  rewrite one_message; [|by intros ->|by rewrite Ek|lia].
  destruct (Hp (S (length es)) es [] Ek (Nat.lt_succ_diag_r _)) as (v' & Q & P). exists v'. split; [done|].
  rewrite app_nil_r in P. unfold parse_json, json_parser_parse. cbn [snd mbind M_bind].
  rewrite QObject.qlist_copy_id, length_fmap, P. done.
Qed.

(** C8: what is printed is read back.  For every printable value whose text is
    shorter than 2^31 characters, the parser reads the text, in the plain and
    in the indented layout, as a value equal to the one printed. *)
Theorem json_roundtrip v : printable v ->
  (Z.of_nat (length (qobject_to_json v)) < 2 ^ 31 ->
   exists v', QObject.qeq v v' /\ qobject_from_json (qobject_to_json v) = Ret (Some v')) /\
  (Z.of_nat (length (qobject_to_json_pretty v)) < 2 ^ 31 ->
   exists v', QObject.qeq v v' /\ qobject_from_json (qobject_to_json_pretty v) = Ret (Some v')).
Proof.
  intros H. destruct (printable_prints v H) as (ks & P). unfold qobject_to_json, qobject_to_json_pretty.
  destruct (pr_text v ks P 0 0) as (t0 & E0 & V0). destruct (pr_text v ks P 1 0) as (t1 & E1 & V1).
  rewrite (E0 []), (E1 []). cbn [app]. split; intros L; by apply (text_parses v _ ks).
Qed.

(** The value [{"ké": [-1, true, "€\n"]}]. *)
Definition demo_list : QObject.QObject :=
  QObject.QList [QObject.QInt (-1); QObject.QBool (of_bool true); QObject.QString (encode [0x20AC; 10])].

Definition demo : QObject.QObject :=
  QObject.QDict (QDict.qdict_put_obj QDict.qdict_new (encode [107; 0xE9]) demo_list).

Lemma demo_printable : printable demo.
Proof.
  apply p_dict; [apply QDict.put_wf, QDict.qdict_new_wf|].
  assert (E : QDict.entries (QDict.qdict_put_obj QDict.qdict_new (encode [107; 0xE9]) demo_list) =
    [(encode [107; 0xE9], demo_list)]) by (vm_compute; reflexivity).
  rewrite E. apply Forall_singleton. cbn [fst snd]. split.
  - exists [107; 0xE9]. split; [repeat constructor; vm_compute; congruence|reflexivity].
  - apply p_list. repeat apply Forall_cons_2; [apply p_int; lia|apply p_bool| |apply Forall_nil_2].
    apply p_string. repeat constructor; vm_compute; congruence.
Qed.

Lemma json_roundtrip_witness :
  (exists v', QObject.qeq demo v' /\ qobject_from_json (qobject_to_json demo) = Ret (Some v')) /\
  (exists v', QObject.qeq demo v' /\ qobject_from_json (qobject_to_json_pretty demo) = Ret (Some v')).
Proof.
  destruct (json_roundtrip demo demo_printable) as [H1 H2].
  split; [apply H1|apply H2]; apply Z.ltb_lt; vm_compute; reflexivity.
Defined.

End QJsonCorrect.
