(* ===== verification/Serial.v ===== *)
(** * The serial port (src/qemu/hw/serial.c)

    A 16550A with its two FIFOs.  The record [SerialState] is the C structure:
    [irq] is the level of the interrupt line and a timer is the time it is
    armed for.  The character device behind the port is a state [W] with the
    operations of the class [CharDriver]: the port writes to it and passes it
    line settings, and [clock] is the virtual clock.  What the device delivers
    reaches the port through [serial_receive1] and [serial_event];
    [qemu_chr_accept_input], the last call of its handler, may lead to such
    deliveries, which then are the next steps.

    A handler returns [None] where the code would divide by zero: at a baud
    base below the divisor.  [in_service] follows any sequence of accesses,
    deliveries, timers and resets of a port as the ISA bus makes it. *)
From S2P Require Import Prelude.

Module Serial.

(** ** Registers *)

Definition UART_LCR_DLAB : Z := 0x80.
Definition UART_IER_MSI : Z := 0x08.
Definition UART_IER_RLSI : Z := 0x04.
Definition UART_IER_THRI : Z := 0x02.
Definition UART_IER_RDI : Z := 0x01.
Definition UART_IIR_NO_INT : Z := 0x01.
Definition UART_IIR_ID : Z := 0x06.
Definition UART_IIR_MSI : Z := 0x00.
Definition UART_IIR_THRI : Z := 0x02.
Definition UART_IIR_RDI : Z := 0x04.
Definition UART_IIR_RLSI : Z := 0x06.
Definition UART_IIR_CTI : Z := 0x0C.
Definition UART_IIR_FENF : Z := 0x80.
Definition UART_IIR_FE : Z := 0xC0.
Definition UART_MCR_LOOP : Z := 0x10.
Definition UART_MCR_OUT2 : Z := 0x08.
Definition UART_MCR_OUT1 : Z := 0x04.
Definition UART_MCR_RTS : Z := 0x02.
Definition UART_MCR_DTR : Z := 0x01.
Definition UART_MSR_DCD : Z := 0x80.
Definition UART_MSR_RI : Z := 0x40.
Definition UART_MSR_DSR : Z := 0x20.
Definition UART_MSR_CTS : Z := 0x10.
Definition UART_MSR_DDCD : Z := 0x08.
Definition UART_MSR_TERI : Z := 0x04.
Definition UART_MSR_DDSR : Z := 0x02.
Definition UART_MSR_DCTS : Z := 0x01.
Definition UART_MSR_ANY_DELTA : Z := 0x0F.
Definition UART_LSR_TEMT : Z := 0x40.
Definition UART_LSR_THRE : Z := 0x20.
Definition UART_LSR_BI : Z := 0x10.
Definition UART_LSR_FE : Z := 0x08.
Definition UART_LSR_PE : Z := 0x04.
Definition UART_LSR_OE : Z := 0x02.
Definition UART_LSR_DR : Z := 0x01.
Definition UART_LSR_INT_ANY : Z := 0x1E.
Definition UART_FCR_ITL_1 : Z := 0x00.
Definition UART_FCR_ITL_2 : Z := 0x40.
Definition UART_FCR_ITL_3 : Z := 0x80.
Definition UART_FCR_ITL_4 : Z := 0xC0.
Definition UART_FCR_DMS : Z := 0x08.
Definition UART_FCR_XFR : Z := 0x04.
Definition UART_FCR_RFR : Z := 0x02.
Definition UART_FCR_FE : Z := 0x01.
Definition UART_FIFO_LENGTH : Z := 16.
Definition XMIT_FIFO : Z := 0.
Definition RECV_FIFO : Z := 1.
Definition MAX_XMIT_RETRY : Z := 4.
(* qemu-char.h *)
Definition CHR_EVENT_BREAK : Z := 0.
Definition CHR_TIOCM_CTS : Z := 0x020.
Definition CHR_TIOCM_CAR : Z := 0x040.
Definition CHR_TIOCM_DSR : Z := 0x100.
Definition CHR_TIOCM_RI : Z := 0x080.
Definition CHR_TIOCM_DTR : Z := 0x002.
Definition CHR_TIOCM_RTS : Z := 0x004.
(* sysemu.h *)
Definition MAX_SERIAL_PORTS : Z := 4.

Definition ENOTSUP : Z := 95.
Definition get_ticks_per_sec : Z := 1000000000.

(** ** State *)

Record SerialFIFO := mkFIFO {
  data : list Z;
  count : Z;
  itl : Z;
  tail : Z;
  head : Z
}.

Definition set_data (v : list Z) (f : SerialFIFO) : SerialFIFO :=
  mkFIFO v (count f) (itl f) (tail f) (head f).
Definition set_count (v : Z) (f : SerialFIFO) : SerialFIFO :=
  mkFIFO (data f) v (itl f) (tail f) (head f).
Definition set_itl (v : Z) (f : SerialFIFO) : SerialFIFO :=
  mkFIFO (data f) (count f) v (tail f) (head f).
Definition set_tail (v : Z) (f : SerialFIFO) : SerialFIFO :=
  mkFIFO (data f) (count f) (itl f) v (head f).
Definition set_head (v : Z) (f : SerialFIFO) : SerialFIFO :=
  mkFIFO (data f) (count f) (itl f) (tail f) v.

Record SerialState := mkSerial {
  divider : Z;
  rbr : Z;
  thr : Z;
  tsr : Z;
  ier : Z;
  iir : Z;
  lcr : Z;
  mcr : Z;
  lsr : Z;
  msr : Z;
  scr : Z;
  fcr : Z;
  fcr_vmstate : Z;
  thr_ipending : Z;
  irq : Z;
  last_break_enable : Z;
  it_shift : Z;
  baudbase : Z;
  tsr_retry : Z;
  last_xmit_ts : Z;
  recv_fifo : SerialFIFO;
  xmit_fifo : SerialFIFO;
  fifo_timeout_timer : option Z;
  timeout_ipending : Z;
  transmit_timer : option Z;
  char_transmit_time : Z;
  poll_msl : Z;
  modem_status_poll : option Z
}.

Definition set_divider (v : Z) (s : SerialState) : SerialState :=
  mkSerial v (rbr s) (thr s) (tsr s) (ier s) (iir s) (lcr s) (mcr s) (lsr s) (msr s) (scr s)
    (fcr s) (fcr_vmstate s) (thr_ipending s) (irq s) (last_break_enable s) (it_shift s)
    (baudbase s) (tsr_retry s) (last_xmit_ts s) (recv_fifo s) (xmit_fifo s)
    (fifo_timeout_timer s) (timeout_ipending s) (transmit_timer s) (char_transmit_time s)
    (poll_msl s) (modem_status_poll s).
Definition set_rbr (v : Z) (s : SerialState) : SerialState :=
  mkSerial (divider s) v (thr s) (tsr s) (ier s) (iir s) (lcr s) (mcr s) (lsr s) (msr s)
    (scr s) (fcr s) (fcr_vmstate s) (thr_ipending s) (irq s) (last_break_enable s) (it_shift s)
    (baudbase s) (tsr_retry s) (last_xmit_ts s) (recv_fifo s) (xmit_fifo s)
    (fifo_timeout_timer s) (timeout_ipending s) (transmit_timer s) (char_transmit_time s)
    (poll_msl s) (modem_status_poll s).
Definition set_thr (v : Z) (s : SerialState) : SerialState :=
  mkSerial (divider s) (rbr s) v (tsr s) (ier s) (iir s) (lcr s) (mcr s) (lsr s) (msr s)
    (scr s) (fcr s) (fcr_vmstate s) (thr_ipending s) (irq s) (last_break_enable s) (it_shift s)
    (baudbase s) (tsr_retry s) (last_xmit_ts s) (recv_fifo s) (xmit_fifo s)
    (fifo_timeout_timer s) (timeout_ipending s) (transmit_timer s) (char_transmit_time s)
    (poll_msl s) (modem_status_poll s).
Definition set_tsr (v : Z) (s : SerialState) : SerialState :=
  mkSerial (divider s) (rbr s) (thr s) v (ier s) (iir s) (lcr s) (mcr s) (lsr s) (msr s)
    (scr s) (fcr s) (fcr_vmstate s) (thr_ipending s) (irq s) (last_break_enable s) (it_shift s)
    (baudbase s) (tsr_retry s) (last_xmit_ts s) (recv_fifo s) (xmit_fifo s)
    (fifo_timeout_timer s) (timeout_ipending s) (transmit_timer s) (char_transmit_time s)
    (poll_msl s) (modem_status_poll s).
Definition set_ier (v : Z) (s : SerialState) : SerialState :=
  mkSerial (divider s) (rbr s) (thr s) (tsr s) v (iir s) (lcr s) (mcr s) (lsr s) (msr s)
    (scr s) (fcr s) (fcr_vmstate s) (thr_ipending s) (irq s) (last_break_enable s) (it_shift s)
    (baudbase s) (tsr_retry s) (last_xmit_ts s) (recv_fifo s) (xmit_fifo s)
    (fifo_timeout_timer s) (timeout_ipending s) (transmit_timer s) (char_transmit_time s)
    (poll_msl s) (modem_status_poll s).
Definition set_iir (v : Z) (s : SerialState) : SerialState :=
  mkSerial (divider s) (rbr s) (thr s) (tsr s) (ier s) v (lcr s) (mcr s) (lsr s) (msr s)
    (scr s) (fcr s) (fcr_vmstate s) (thr_ipending s) (irq s) (last_break_enable s) (it_shift s)
    (baudbase s) (tsr_retry s) (last_xmit_ts s) (recv_fifo s) (xmit_fifo s)
    (fifo_timeout_timer s) (timeout_ipending s) (transmit_timer s) (char_transmit_time s)
    (poll_msl s) (modem_status_poll s).
Definition set_lcr (v : Z) (s : SerialState) : SerialState :=
  mkSerial (divider s) (rbr s) (thr s) (tsr s) (ier s) (iir s) v (mcr s) (lsr s) (msr s)
    (scr s) (fcr s) (fcr_vmstate s) (thr_ipending s) (irq s) (last_break_enable s) (it_shift s)
    (baudbase s) (tsr_retry s) (last_xmit_ts s) (recv_fifo s) (xmit_fifo s)
    (fifo_timeout_timer s) (timeout_ipending s) (transmit_timer s) (char_transmit_time s)
    (poll_msl s) (modem_status_poll s).
Definition set_mcr (v : Z) (s : SerialState) : SerialState :=
  mkSerial (divider s) (rbr s) (thr s) (tsr s) (ier s) (iir s) (lcr s) v (lsr s) (msr s)
    (scr s) (fcr s) (fcr_vmstate s) (thr_ipending s) (irq s) (last_break_enable s) (it_shift s)
    (baudbase s) (tsr_retry s) (last_xmit_ts s) (recv_fifo s) (xmit_fifo s)
    (fifo_timeout_timer s) (timeout_ipending s) (transmit_timer s) (char_transmit_time s)
    (poll_msl s) (modem_status_poll s).
Definition set_lsr (v : Z) (s : SerialState) : SerialState :=
  mkSerial (divider s) (rbr s) (thr s) (tsr s) (ier s) (iir s) (lcr s) (mcr s) v (msr s)
    (scr s) (fcr s) (fcr_vmstate s) (thr_ipending s) (irq s) (last_break_enable s) (it_shift s)
    (baudbase s) (tsr_retry s) (last_xmit_ts s) (recv_fifo s) (xmit_fifo s)
    (fifo_timeout_timer s) (timeout_ipending s) (transmit_timer s) (char_transmit_time s)
    (poll_msl s) (modem_status_poll s).
Definition set_msr (v : Z) (s : SerialState) : SerialState :=
  mkSerial (divider s) (rbr s) (thr s) (tsr s) (ier s) (iir s) (lcr s) (mcr s) (lsr s) v
    (scr s) (fcr s) (fcr_vmstate s) (thr_ipending s) (irq s) (last_break_enable s) (it_shift s)
    (baudbase s) (tsr_retry s) (last_xmit_ts s) (recv_fifo s) (xmit_fifo s)
    (fifo_timeout_timer s) (timeout_ipending s) (transmit_timer s) (char_transmit_time s)
    (poll_msl s) (modem_status_poll s).
Definition set_scr (v : Z) (s : SerialState) : SerialState :=
  mkSerial (divider s) (rbr s) (thr s) (tsr s) (ier s) (iir s) (lcr s) (mcr s) (lsr s) (msr s)
    v (fcr s) (fcr_vmstate s) (thr_ipending s) (irq s) (last_break_enable s) (it_shift s)
    (baudbase s) (tsr_retry s) (last_xmit_ts s) (recv_fifo s) (xmit_fifo s)
    (fifo_timeout_timer s) (timeout_ipending s) (transmit_timer s) (char_transmit_time s)
    (poll_msl s) (modem_status_poll s).
Definition set_fcr (v : Z) (s : SerialState) : SerialState :=
  mkSerial (divider s) (rbr s) (thr s) (tsr s) (ier s) (iir s) (lcr s) (mcr s) (lsr s) (msr s)
    (scr s) v (fcr_vmstate s) (thr_ipending s) (irq s) (last_break_enable s) (it_shift s)
    (baudbase s) (tsr_retry s) (last_xmit_ts s) (recv_fifo s) (xmit_fifo s)
    (fifo_timeout_timer s) (timeout_ipending s) (transmit_timer s) (char_transmit_time s)
    (poll_msl s) (modem_status_poll s).
Definition set_fcr_vmstate (v : Z) (s : SerialState) : SerialState :=
  mkSerial (divider s) (rbr s) (thr s) (tsr s) (ier s) (iir s) (lcr s) (mcr s) (lsr s) (msr s)
    (scr s) (fcr s) v (thr_ipending s) (irq s) (last_break_enable s) (it_shift s) (baudbase s)
    (tsr_retry s) (last_xmit_ts s) (recv_fifo s) (xmit_fifo s) (fifo_timeout_timer s)
    (timeout_ipending s) (transmit_timer s) (char_transmit_time s) (poll_msl s)
    (modem_status_poll s).
Definition set_thr_ipending (v : Z) (s : SerialState) : SerialState :=
  mkSerial (divider s) (rbr s) (thr s) (tsr s) (ier s) (iir s) (lcr s) (mcr s) (lsr s) (msr s)
    (scr s) (fcr s) (fcr_vmstate s) v (irq s) (last_break_enable s) (it_shift s) (baudbase s)
    (tsr_retry s) (last_xmit_ts s) (recv_fifo s) (xmit_fifo s) (fifo_timeout_timer s)
    (timeout_ipending s) (transmit_timer s) (char_transmit_time s) (poll_msl s)
    (modem_status_poll s).
Definition set_irq (v : Z) (s : SerialState) : SerialState :=
  mkSerial (divider s) (rbr s) (thr s) (tsr s) (ier s) (iir s) (lcr s) (mcr s) (lsr s) (msr s)
    (scr s) (fcr s) (fcr_vmstate s) (thr_ipending s) v (last_break_enable s) (it_shift s)
    (baudbase s) (tsr_retry s) (last_xmit_ts s) (recv_fifo s) (xmit_fifo s)
    (fifo_timeout_timer s) (timeout_ipending s) (transmit_timer s) (char_transmit_time s)
    (poll_msl s) (modem_status_poll s).
Definition set_last_break_enable (v : Z) (s : SerialState) : SerialState :=
  mkSerial (divider s) (rbr s) (thr s) (tsr s) (ier s) (iir s) (lcr s) (mcr s) (lsr s) (msr s)
    (scr s) (fcr s) (fcr_vmstate s) (thr_ipending s) (irq s) v (it_shift s) (baudbase s)
    (tsr_retry s) (last_xmit_ts s) (recv_fifo s) (xmit_fifo s) (fifo_timeout_timer s)
    (timeout_ipending s) (transmit_timer s) (char_transmit_time s) (poll_msl s)
    (modem_status_poll s).
Definition set_it_shift (v : Z) (s : SerialState) : SerialState :=
  mkSerial (divider s) (rbr s) (thr s) (tsr s) (ier s) (iir s) (lcr s) (mcr s) (lsr s) (msr s)
    (scr s) (fcr s) (fcr_vmstate s) (thr_ipending s) (irq s) (last_break_enable s) v
    (baudbase s) (tsr_retry s) (last_xmit_ts s) (recv_fifo s) (xmit_fifo s)
    (fifo_timeout_timer s) (timeout_ipending s) (transmit_timer s) (char_transmit_time s)
    (poll_msl s) (modem_status_poll s).
Definition set_baudbase (v : Z) (s : SerialState) : SerialState :=
  mkSerial (divider s) (rbr s) (thr s) (tsr s) (ier s) (iir s) (lcr s) (mcr s) (lsr s) (msr s)
    (scr s) (fcr s) (fcr_vmstate s) (thr_ipending s) (irq s) (last_break_enable s) (it_shift s)
    v (tsr_retry s) (last_xmit_ts s) (recv_fifo s) (xmit_fifo s) (fifo_timeout_timer s)
    (timeout_ipending s) (transmit_timer s) (char_transmit_time s) (poll_msl s)
    (modem_status_poll s).
Definition set_tsr_retry (v : Z) (s : SerialState) : SerialState :=
  mkSerial (divider s) (rbr s) (thr s) (tsr s) (ier s) (iir s) (lcr s) (mcr s) (lsr s) (msr s)
    (scr s) (fcr s) (fcr_vmstate s) (thr_ipending s) (irq s) (last_break_enable s) (it_shift s)
    (baudbase s) v (last_xmit_ts s) (recv_fifo s) (xmit_fifo s) (fifo_timeout_timer s)
    (timeout_ipending s) (transmit_timer s) (char_transmit_time s) (poll_msl s)
    (modem_status_poll s).
Definition set_last_xmit_ts (v : Z) (s : SerialState) : SerialState :=
  mkSerial (divider s) (rbr s) (thr s) (tsr s) (ier s) (iir s) (lcr s) (mcr s) (lsr s) (msr s)
    (scr s) (fcr s) (fcr_vmstate s) (thr_ipending s) (irq s) (last_break_enable s) (it_shift s)
    (baudbase s) (tsr_retry s) v (recv_fifo s) (xmit_fifo s) (fifo_timeout_timer s)
    (timeout_ipending s) (transmit_timer s) (char_transmit_time s) (poll_msl s)
    (modem_status_poll s).
Definition set_recv_fifo (v : SerialFIFO) (s : SerialState) : SerialState :=
  mkSerial (divider s) (rbr s) (thr s) (tsr s) (ier s) (iir s) (lcr s) (mcr s) (lsr s) (msr s)
    (scr s) (fcr s) (fcr_vmstate s) (thr_ipending s) (irq s) (last_break_enable s) (it_shift s)
    (baudbase s) (tsr_retry s) (last_xmit_ts s) v (xmit_fifo s) (fifo_timeout_timer s)
    (timeout_ipending s) (transmit_timer s) (char_transmit_time s) (poll_msl s)
    (modem_status_poll s).
Definition set_xmit_fifo (v : SerialFIFO) (s : SerialState) : SerialState :=
  mkSerial (divider s) (rbr s) (thr s) (tsr s) (ier s) (iir s) (lcr s) (mcr s) (lsr s) (msr s)
    (scr s) (fcr s) (fcr_vmstate s) (thr_ipending s) (irq s) (last_break_enable s) (it_shift s)
    (baudbase s) (tsr_retry s) (last_xmit_ts s) (recv_fifo s) v (fifo_timeout_timer s)
    (timeout_ipending s) (transmit_timer s) (char_transmit_time s) (poll_msl s)
    (modem_status_poll s).
Definition set_fifo_timeout_timer (v : option Z) (s : SerialState) : SerialState :=
  mkSerial (divider s) (rbr s) (thr s) (tsr s) (ier s) (iir s) (lcr s) (mcr s) (lsr s) (msr s)
    (scr s) (fcr s) (fcr_vmstate s) (thr_ipending s) (irq s) (last_break_enable s) (it_shift s)
    (baudbase s) (tsr_retry s) (last_xmit_ts s) (recv_fifo s) (xmit_fifo s) v
    (timeout_ipending s) (transmit_timer s) (char_transmit_time s) (poll_msl s)
    (modem_status_poll s).
Definition set_timeout_ipending (v : Z) (s : SerialState) : SerialState :=
  mkSerial (divider s) (rbr s) (thr s) (tsr s) (ier s) (iir s) (lcr s) (mcr s) (lsr s) (msr s)
    (scr s) (fcr s) (fcr_vmstate s) (thr_ipending s) (irq s) (last_break_enable s) (it_shift s)
    (baudbase s) (tsr_retry s) (last_xmit_ts s) (recv_fifo s) (xmit_fifo s)
    (fifo_timeout_timer s) v (transmit_timer s) (char_transmit_time s) (poll_msl s)
    (modem_status_poll s).
Definition set_transmit_timer (v : option Z) (s : SerialState) : SerialState :=
  mkSerial (divider s) (rbr s) (thr s) (tsr s) (ier s) (iir s) (lcr s) (mcr s) (lsr s) (msr s)
    (scr s) (fcr s) (fcr_vmstate s) (thr_ipending s) (irq s) (last_break_enable s) (it_shift s)
    (baudbase s) (tsr_retry s) (last_xmit_ts s) (recv_fifo s) (xmit_fifo s)
    (fifo_timeout_timer s) (timeout_ipending s) v (char_transmit_time s) (poll_msl s)
    (modem_status_poll s).
Definition set_char_transmit_time (v : Z) (s : SerialState) : SerialState :=
  mkSerial (divider s) (rbr s) (thr s) (tsr s) (ier s) (iir s) (lcr s) (mcr s) (lsr s) (msr s)
    (scr s) (fcr s) (fcr_vmstate s) (thr_ipending s) (irq s) (last_break_enable s) (it_shift s)
    (baudbase s) (tsr_retry s) (last_xmit_ts s) (recv_fifo s) (xmit_fifo s)
    (fifo_timeout_timer s) (timeout_ipending s) (transmit_timer s) v (poll_msl s)
    (modem_status_poll s).
Definition set_poll_msl (v : Z) (s : SerialState) : SerialState :=
  mkSerial (divider s) (rbr s) (thr s) (tsr s) (ier s) (iir s) (lcr s) (mcr s) (lsr s) (msr s)
    (scr s) (fcr s) (fcr_vmstate s) (thr_ipending s) (irq s) (last_break_enable s) (it_shift s)
    (baudbase s) (tsr_retry s) (last_xmit_ts s) (recv_fifo s) (xmit_fifo s)
    (fifo_timeout_timer s) (timeout_ipending s) (transmit_timer s) (char_transmit_time s) v
    (modem_status_poll s).
Definition set_modem_status_poll (v : option Z) (s : SerialState) : SerialState :=
  mkSerial (divider s) (rbr s) (thr s) (tsr s) (ier s) (iir s) (lcr s) (mcr s) (lsr s) (msr s)
    (scr s) (fcr s) (fcr_vmstate s) (thr_ipending s) (irq s) (last_break_enable s) (it_shift s)
    (baudbase s) (tsr_retry s) (last_xmit_ts s) (recv_fifo s) (xmit_fifo s)
    (fifo_timeout_timer s) (timeout_ipending s) (transmit_timer s) (char_transmit_time s)
    (poll_msl s) v.

(** ** The FIFOs *)

(** The FIFO that the argument [fifo] selects. *)
Definition get_fifo (fifo : Z) (s : SerialState) : SerialFIFO :=
  if truthy fifo then recv_fifo s else xmit_fifo s.

Definition put_fifo (fifo : Z) (f : SerialFIFO) (s : SerialState) : SerialState :=
  if truthy fifo then set_recv_fifo f s else set_xmit_fifo f s.

Definition fifo_clear (fifo : Z) (s : SerialState) : SerialState :=
  let f := get_fifo fifo s in
  put_fifo fifo (mkFIFO (replicate (Z.to_nat UART_FIFO_LENGTH) 0) 0 (itl f) 0 0) s.

Definition fifo_put (fifo chr : Z) (s : SerialState) : SerialState :=
  let f := get_fifo fifo s in
  let f :=
    if (fifo =? XMIT_FIFO) || (count f <? UART_FIFO_LENGTH) then
      let f := set_data (aset (data f) (head f) chr) f in
      let f := set_head (u8 (head f + 1)) f in
      if head f =? UART_FIFO_LENGTH then set_head 0 f else f
    else f in
  if count f <? UART_FIFO_LENGTH then put_fifo fifo (set_count (u8 (count f + 1)) f) s
  else
    let s := put_fifo fifo f s in
    if fifo =? RECV_FIFO then set_lsr (lsr s |. UART_LSR_OE) s else s.

Definition fifo_get (fifo : Z) (s : SerialState) : Z * SerialState :=
  let f := get_fifo fifo s in
  if count f =? 0 then (0, s)
  else
    let c := aget (data f) (tail f) in
    let f := set_tail (u8 (tail f + 1)) f in
    let f := if tail f =? UART_FIFO_LENGTH then set_tail 0 f else f in
    let f := set_count (u8 (count f - 1)) f in
    (c, put_fifo fifo f s).

(** ** Interrupts *)

Definition serial_update_irq (s : SerialState) : SerialState :=
  let tmp_iir :=
    if truthy (ier s &. UART_IER_RLSI) && truthy (lsr s &. UART_LSR_INT_ANY) then UART_IIR_RLSI
    else if truthy (ier s &. UART_IER_RDI) && truthy (timeout_ipending s) then UART_IIR_CTI
    else if truthy (ier s &. UART_IER_RDI) && truthy (lsr s &. UART_LSR_DR) &&
            (negb (truthy (fcr s &. UART_FCR_FE)) || (itl (recv_fifo s) <=? count (recv_fifo s)))
         then UART_IIR_RDI
    else if truthy (ier s &. UART_IER_THRI) && truthy (thr_ipending s) then UART_IIR_THRI
    else if truthy (ier s &. UART_IER_MSI) && truthy (msr s &. UART_MSR_ANY_DELTA) then UART_IIR_MSI
    else UART_IIR_NO_INT in
  let s := set_iir (tmp_iir |. (iir s &. 0xF0)) s in
  set_irq (if negb (tmp_iir =? UART_IIR_NO_INT) then 1 else 0) s.

(** The parameters passed with [CHR_IOCTL_SERIAL_SET_PARAMS]. *)
Record QEMUSerialSetParams := mkParams { speed : Z; parity : Z; data_bits : Z; stop_bits : Z }.

(** The character device.  [chr_get_tiocm] returns the result of the call and
    the flags after it. *)
Class CharDriver (W : Type) := {
  clock : W -> Z;
  qemu_chr_write : Z -> W -> Z * W;
  chr_get_tiocm : W -> Z * Z * W;
  chr_set_tiocm : Z -> W -> W;
  chr_set_params : QEMUSerialSetParams -> W -> W;
  chr_set_break : Z -> W -> W;
  qemu_chr_accept_input : W -> W
}.

Section Port.

Context {W : Type} {chr : CharDriver W}.

(** [None]: division by zero. *)
Definition serial_update_parameters (s : SerialState) (w : W) : option (SerialState * W) :=
  if divider s =? 0 then Some (s, w)
  else
    let frame_size := 1 in
    let '(frame_size, parity) :=
      if truthy (lcr s &. 0x08) then
        (frame_size + 1, if truthy (lcr s &. 0x10) then 69 else 79)
      else (frame_size, 78) in
    let stop_bits := if truthy (lcr s &. 0x04) then 2 else 1 in
    let data_bits := (lcr s &. 0x03) + 5 in
    let frame_size := frame_size + (data_bits + stop_bits) in
    let speed := Z.quot (baudbase s) (divider s) in
    if speed =? 0 then None
    else
      let s := set_char_transmit_time (u64 (Z.quot get_ticks_per_sec speed * frame_size)) s in
      Some (s, chr_set_params (mkParams speed parity data_bits stop_bits) w).

(** One modem line: the bit [bit] of the status register follows [flag]. *)
Definition msr_line (flags flag bit : Z) (s : SerialState) : SerialState :=
  set_msr (if truthy (flags &. flag) then msr s |. bit else u8 (msr s &. ~. bit)) s.

Definition serial_update_msl (s : SerialState) (w : W) : SerialState * W :=
  let s := set_modem_status_poll None s in
  let '(rc, flags, w) := chr_get_tiocm w in
  if rc =? - ENOTSUP then (set_poll_msl (-1) s, w)
  else
    let omsr := msr s in
    let s := msr_line flags CHR_TIOCM_CTS UART_MSR_CTS s in
    let s := msr_line flags CHR_TIOCM_DSR UART_MSR_DSR s in
    let s := msr_line flags CHR_TIOCM_CAR UART_MSR_DCD s in
    let s := msr_line flags CHR_TIOCM_RI UART_MSR_RI s in
    let s :=
      if negb (msr s =? omsr) then
        let s := set_msr (u8 (msr s |. ((msr s >>. 4) ^. (omsr >>. 4)))) s in
        let s :=
          if truthy (msr s &. UART_MSR_TERI) && negb (truthy (omsr &. UART_MSR_RI))
          then set_msr (u8 (msr s &. ~. UART_MSR_TERI)) s else s in
        serial_update_irq s
      else s in
    let s :=
      if truthy (poll_msl s) then set_modem_status_poll (Some (clock w + get_ticks_per_sec / 100)) s
      else s in
    (s, w).

(** ** Reception *)

Definition serial_can_receive (s : SerialState) : Z :=
  if truthy (fcr s &. UART_FCR_FE) then
    if count (recv_fifo s) <? UART_FIFO_LENGTH then
      if count (recv_fifo s) <=? itl (recv_fifo s) then itl (recv_fifo s) - count (recv_fifo s) else 1
    else 0
  else of_bool (negb (truthy (lsr s &. UART_LSR_DR))).

Definition serial_can_receive1 (s : SerialState) : Z := serial_can_receive s.

Definition serial_receive_break (s : SerialState) : SerialState :=
  let s := set_rbr 0 s in
  let s := fifo_put RECV_FIFO 0 s in
  let s := set_lsr (lsr s |. (UART_LSR_BI |. UART_LSR_DR)) s in
  serial_update_irq s.

Definition fifo_timeout_int (s : SerialState) : SerialState :=
  if truthy (count (recv_fifo s)) then serial_update_irq (set_timeout_ipending 1 s) else s.

(** [buf] with its [size] bytes, at least one. *)
Definition serial_receive1 (buf : list Z) (s : SerialState) (w : W) : SerialState :=
  let s :=
    if truthy (fcr s &. UART_FCR_FE) then
      let s := foldl (fun s c => fifo_put RECV_FIFO c s) s buf in
      let s := set_lsr (lsr s |. UART_LSR_DR) s in
      set_fifo_timeout_timer (Some (s64 (clock w + char_transmit_time s * 4))) s
    else
      let s := if truthy (lsr s &. UART_LSR_DR) then set_lsr (lsr s |. UART_LSR_OE) s else s in
      let s := set_rbr (aget buf 0) s in
      set_lsr (lsr s |. UART_LSR_DR) s in
  serial_update_irq s.

Definition serial_event (event : Z) (s : SerialState) : SerialState :=
  if event =? CHR_EVENT_BREAK then serial_receive_break s else s.

(** ** Transmission *)

(** The byte that goes to the shift register. *)
Definition load_tsr (s : SerialState) : SerialState :=
  if tsr_retry s <=? 0 then
    if truthy (fcr s &. UART_FCR_FE) then
      let '(c, s) := fifo_get XMIT_FIFO s in
      let s := set_tsr c s in
      if negb (truthy (count (xmit_fifo s))) then set_lsr (lsr s |. UART_LSR_THRE) s else s
    else
      let s := set_tsr (thr s) s in
      set_lsr (lsr s |. UART_LSR_THRE) s
  else s.

(** What follows the attempt to send. *)
Definition xmit_done (s : SerialState) (w : W) : SerialState :=
  let s := set_last_xmit_ts (clock w) s in
  let s :=
    if negb (truthy (lsr s &. UART_LSR_THRE))
    then set_transmit_timer (Some (s64 (last_xmit_ts s + char_transmit_time s))) s else s in
  if truthy (lsr s &. UART_LSR_THRE) then
    let s := set_lsr (lsr s |. UART_LSR_TEMT) s in
    let s := set_thr_ipending 1 s in
    serial_update_irq s
  else s.

Definition serial_xmit (s : SerialState) (w : W) : SerialState * W :=
  let new_xmit_ts := clock w in
  let s := load_tsr s in
  if truthy (mcr s &. UART_MCR_LOOP) then
    let s := serial_receive1 [tsr s] s w in (xmit_done s w, w)
  else
    let '(n, w) := qemu_chr_write (tsr s) w in
    if negb (n =? 1) then
      if (0 <? tsr_retry s) && (tsr_retry s <=? MAX_XMIT_RETRY) then
        let s := set_tsr_retry (tsr_retry s + 1) s in
        (set_transmit_timer (Some (s64 (new_xmit_ts + char_transmit_time s))) s, w)
      else
        let s := if poll_msl s <? 0 then set_tsr_retry (-1) s else s in
        (xmit_done s w, w)
    else (xmit_done (set_tsr_retry 0 s) w, w).

(** ** Port handlers *)

Definition write_thr (val : Z) (s : SerialState) (w : W) : SerialState * W :=
  let s := set_thr (u8 val) s in
  let s :=
    if truthy (fcr s &. UART_FCR_FE) then
      let s := fifo_put XMIT_FIFO (thr s) s in
      let s := set_thr_ipending 0 s in
      let s := set_lsr (u8 (lsr s &. ~. UART_LSR_TEMT)) s in
      let s := set_lsr (u8 (lsr s &. ~. UART_LSR_THRE)) s in
      serial_update_irq s
    else
      let s := set_thr_ipending 0 s in
      let s := set_lsr (u8 (lsr s &. ~. UART_LSR_THRE)) s in
      serial_update_irq s in
  serial_xmit s w.

Definition write_ier (val : Z) (s : SerialState) (w : W) : SerialState * W :=
  let s := set_ier (val &. 0x0f) s in
  let '(s, w) :=
    if 0 <=? poll_msl s then
      if truthy (ier s &. UART_IER_MSI) then serial_update_msl (set_poll_msl 1 s) w
      else (set_poll_msl 0 (set_modem_status_poll None s), w)
    else (s, w) in
  if truthy (lsr s &. UART_LSR_THRE) then (serial_update_irq (set_thr_ipending 1 s), w) else (s, w).

Definition write_fcr (val : Z) (s : SerialState) : SerialState :=
  let val := val &. 0xFF in
  if fcr s =? val then s
  else
    let val := if truthy ((val ^. fcr s) &. UART_FCR_FE) then val |. (UART_FCR_XFR |. UART_FCR_RFR) else val in
    let s :=
      if truthy (val &. UART_FCR_RFR) then
        let s := set_fifo_timeout_timer None s in
        let s := set_timeout_ipending 0 s in
        fifo_clear RECV_FIFO s
      else s in
    let s := if truthy (val &. UART_FCR_XFR) then fifo_clear XMIT_FIFO s else s in
    let s :=
      if truthy (val &. UART_FCR_FE) then
        let s := set_iir (iir s |. UART_IIR_FE) s in
        let level := val &. 0xC0 in
        let itl1 :=
          if level =? UART_FCR_ITL_1 then 1
          else if level =? UART_FCR_ITL_2 then 4
          else if level =? UART_FCR_ITL_3 then 8
          else 14 in
        set_recv_fifo (set_itl itl1 (recv_fifo s)) s
      else set_iir (u8 (iir s &. ~. UART_IIR_FE)) s in
    let s := set_fcr (val &. 0xC9) s in
    serial_update_irq s.

Definition write_lcr (val : Z) (s : SerialState) (w : W) : option (SerialState * W) :=
  let s := set_lcr (u8 val) s in
  '(s, w) ← serial_update_parameters s w;
  let break_enable := (val >>. 6) &. 1 in
  if negb (break_enable =? last_break_enable s) then
    Some (set_last_break_enable break_enable s, chr_set_break break_enable w)
  else Some (s, w).

Definition write_mcr (val : Z) (s : SerialState) (w : W) : SerialState * W :=
  let old_mcr := mcr s in
  let s := set_mcr (val &. 0x1f) s in
  if truthy (val &. UART_MCR_LOOP) then (s, w)
  else if (0 <=? poll_msl s) && negb (old_mcr =? mcr s) then
    let '(_, flags, w) := chr_get_tiocm w in
    let flags := flags &. ~. (CHR_TIOCM_RTS |. CHR_TIOCM_DTR) in
    let flags := if truthy (val &. UART_MCR_RTS) then flags |. CHR_TIOCM_RTS else flags in
    let flags := if truthy (val &. UART_MCR_DTR) then flags |. CHR_TIOCM_DTR else flags in
    let w := chr_set_tiocm flags w in
    (set_modem_status_poll (Some (s64 (clock w + char_transmit_time s))) s, w)
  else (s, w).

Definition serial_ioport_write (addr val : Z) (s : SerialState) (w : W) : option (SerialState * W) :=
  let addr := addr &. 7 in
  if addr =? 1 then
    if truthy (lcr s &. UART_LCR_DLAB) then
      serial_update_parameters (set_divider (u16 ((divider s &. 0x00ff) |. (val <<. 8))) s) w
    else Some (write_ier val s w)
  else if addr =? 2 then Some (write_fcr val s, w)
  else if addr =? 3 then write_lcr val s w
  else if addr =? 4 then Some (write_mcr val s w)
  else if (addr =? 5) || (addr =? 6) then Some (s, w)
  else if addr =? 7 then Some (set_scr (u8 val) s, w)
  else
    if truthy (lcr s &. UART_LCR_DLAB) then
      serial_update_parameters (set_divider (u16 ((divider s &. 0xff00) |. val)) s) w
    else Some (write_thr val s w).

Definition read_rbr (s : SerialState) (w : W) : Z * SerialState * W :=
  let '(ret, s) :=
    if truthy (fcr s &. UART_FCR_FE) then
      let '(ret, s) := fifo_get RECV_FIFO s in
      let s :=
        if count (recv_fifo s) =? 0 then set_lsr (u8 (lsr s &. ~. (UART_LSR_DR |. UART_LSR_BI))) s
        else set_fifo_timeout_timer (Some (s64 (clock w + char_transmit_time s * 4))) s in
      (ret, set_timeout_ipending 0 s)
    else (rbr s, set_lsr (u8 (lsr s &. ~. (UART_LSR_DR |. UART_LSR_BI))) s) in
  let s := serial_update_irq s in
  (ret, s, if negb (truthy (mcr s &. UART_MCR_LOOP)) then qemu_chr_accept_input w else w).

Definition read_msr (s : SerialState) (w : W) : Z * SerialState * W :=
  if truthy (mcr s &. UART_MCR_LOOP) then
    (((mcr s &. 0x0c) <<. 4) |. ((mcr s &. 0x02) <<. 3) |. ((mcr s &. 0x01) <<. 5), s, w)
  else
    let '(s, w) := if 0 <=? poll_msl s then serial_update_msl s w else (s, w) in
    let ret := msr s in
    if truthy (msr s &. UART_MSR_ANY_DELTA) then (ret, serial_update_irq (set_msr (msr s &. 0xF0) s), w)
    else (ret, s, w).

Definition serial_ioport_read (addr : Z) (s : SerialState) (w : W) : Z * SerialState * W :=
  let addr := addr &. 7 in
  if addr =? 1 then
    if truthy (lcr s &. UART_LCR_DLAB) then ((divider s >>. 8) &. 0xff, s, w) else (ier s, s, w)
  else if addr =? 2 then
    let ret := iir s in
    if (ret &. UART_IIR_ID) =? UART_IIR_THRI then (ret, serial_update_irq (set_thr_ipending 0 s), w)
    else (ret, s, w)
  else if addr =? 3 then (lcr s, s, w)
  else if addr =? 4 then (mcr s, s, w)
  else if addr =? 5 then
    let ret := lsr s in
    if truthy (lsr s &. (UART_LSR_BI |. UART_LSR_OE)) then
      (ret, serial_update_irq (set_lsr (u8 (lsr s &. ~. (UART_LSR_BI |. UART_LSR_OE))) s), w)
    else (ret, s, w)
  else if addr =? 6 then read_msr s w
  else if addr =? 7 then (scr s, s, w)
  else
    if truthy (lcr s &. UART_LCR_DLAB) then (divider s &. 0xff, s, w) else read_rbr s w.

(** ** Reset, initialisation and saved state *)

Definition serial_pre_save (s : SerialState) : SerialState := set_fcr_vmstate (fcr s) s.

Definition serial_post_load (version_id : Z) (s : SerialState) (w : W) : option (Z * SerialState * W) :=
  let s := if version_id <? 3 then set_fcr_vmstate 0 s else s in
  '(s, w) ← serial_ioport_write 0x02 (fcr_vmstate s) s w;
  '(s, w) ← serial_update_parameters s w;
  Some (0, s, w).

Definition serial_reset (s : SerialState) (w : W) : SerialState :=
  let s := set_rbr 0 s in
  let s := set_ier 0 s in
  let s := set_iir UART_IIR_NO_INT s in
  let s := set_lcr 0 s in
  let s := set_lsr (UART_LSR_TEMT |. UART_LSR_THRE) s in
  let s := set_msr (UART_MSR_DCD |. UART_MSR_DSR |. UART_MSR_CTS) s in
  let s := set_divider 0x0C s in
  let s := set_mcr UART_MCR_OUT2 s in
  let s := set_scr 0 s in
  let s := set_tsr_retry 0 s in
  let s := set_char_transmit_time (get_ticks_per_sec / 9600 * 10) s in
  let s := set_poll_msl 0 s in
  let s := fifo_clear RECV_FIFO s in
  let s := fifo_clear XMIT_FIFO s in
  let s := set_last_xmit_ts (clock w) s in
  let s := set_thr_ipending 0 s in
  let s := set_last_break_enable 0 s in
  set_irq 0 s.

Definition serial_set_frequency (frequency : Z) (s : SerialState) (w : W) : option (SerialState * W) :=
  serial_update_parameters (set_baudbase (s32 frequency) s) w.

(** The structure as it is allocated, all zero, with the baud base. *)
Definition new_serial (baud : Z) : SerialState :=
  let f := mkFIFO (replicate (Z.to_nat UART_FIFO_LENGTH) 0) 0 0 0 0 in
  mkSerial 0 0 0 0 0 0 0 0 0 0 0 0 0 0 0 0 0 baud 0 0 f f None 0 None 0 0 None.

(** [serial_init] with its baud base; the reset handler runs before the guest. *)
Definition serial_init (baud : Z) : SerialState := new_serial baud.

(** ** The memory mapped port *)

Definition bswap16 (x : Z) : Z := u16 ((x >>. 8) |. (x <<. 8)).
Definition bswap32 (x : Z) : Z :=
  u32 (((x &. 0xff) <<. 24) |. ((x &. 0xff00) <<. 8) |. ((x >>. 8) &. 0xff00) |. ((x >>. 24) &. 0xff)).

Definition serial_mm_readb (addr : Z) (s : SerialState) (w : W) : Z * SerialState * W :=
  let '(v, s, w) := serial_ioport_read (addr >>. it_shift s) s w in (v &. 0xFF, s, w).
Definition serial_mm_writeb (addr value : Z) (s : SerialState) (w : W) : option (SerialState * W) :=
  serial_ioport_write (addr >>. it_shift s) (value &. 0xFF) s w.
Definition serial_mm_readw_be (addr : Z) (s : SerialState) (w : W) : Z * SerialState * W :=
  let '(v, s, w) := serial_ioport_read (addr >>. it_shift s) s w in (bswap16 (v &. 0xFFFF), s, w).
Definition serial_mm_readw_le (addr : Z) (s : SerialState) (w : W) : Z * SerialState * W :=
  let '(v, s, w) := serial_ioport_read (addr >>. it_shift s) s w in (v &. 0xFFFF, s, w).
Definition serial_mm_writew_be (addr value : Z) (s : SerialState) (w : W) : option (SerialState * W) :=
  serial_ioport_write (addr >>. it_shift s) (bswap16 (u16 value) &. 0xFFFF) s w.
Definition serial_mm_writew_le (addr value : Z) (s : SerialState) (w : W) : option (SerialState * W) :=
  serial_ioport_write (addr >>. it_shift s) (value &. 0xFFFF) s w.
Definition serial_mm_readl_be (addr : Z) (s : SerialState) (w : W) : Z * SerialState * W :=
  let '(v, s, w) := serial_ioport_read (addr >>. it_shift s) s w in (bswap32 v, s, w).
Definition serial_mm_readl_le (addr : Z) (s : SerialState) (w : W) : Z * SerialState * W :=
  serial_ioport_read (addr >>. it_shift s) s w.
Definition serial_mm_writel_be (addr value : Z) (s : SerialState) (w : W) : option (SerialState * W) :=
  serial_ioport_write (addr >>. it_shift s) (bswap32 value) s w.
Definition serial_mm_writel_le (addr value : Z) (s : SerialState) (w : W) : option (SerialState * W) :=
  serial_ioport_write (addr >>. it_shift s) value s w.

Definition serial_mm_init (shift baud : Z) (w : W) : SerialState * W :=
  serial_update_msl (set_it_shift shift (serial_init baud)) w.

End Port.

(** ** The ISA device *)

Definition isa_serial_io : list Z := [0x3f8; 0x2f8; 0x3e8; 0x2e8].
Definition isa_serial_irq : list Z := [4; 3; 4; 3].

Record ISASerialState := mkISA { index : Z; iobase : Z; isairq : Z; port : SerialState }.

(** [next] is the static counter [index]; the property value -1 is 2^32 - 1 in
    a [uint32_t].  Returns the result, the counter and the device. *)
Definition serial_isa_initfn (next : Z) (isa : ISASerialState) : Z * Z * ISASerialState :=
  let unset := 0xffffffff in
  let i := if index isa =? unset then u32 next else index isa in
  if MAX_SERIAL_PORTS <=? i then (-1, next, mkISA i (iobase isa) (isairq isa) (port isa))
  else
    let io := if iobase isa =? unset then aget isa_serial_io i else iobase isa in
    let line := if isairq isa =? unset then aget isa_serial_irq i else isairq isa in
    (0, next + 1, mkISA i io line (set_baudbase 115200 (port isa))).

(** ** The FIFOs as queues *)

Record fifo_ok (f : SerialFIFO) : Prop := {
  f_len : length (data f) = 16%nat;
  f_bytes : Forall (is_uint 8) (data f);
  f_tail : 0 <= tail f < 16;
  f_count : 0 <= count f <= 16;
  f_head : head f = (tail f + count f) mod 16
}.

(** The bytes waiting, oldest first. *)
Definition contents (f : SerialFIFO) : list Z := ring_contents 16 (data f) (tail f) (count f).

Lemma fifo_length f : fifo_ok f -> Z.of_nat (length (contents f)) = count f.
Proof. intros [_ _ _ H _]. unfold contents, ring_contents. rewrite length_fmap, length_seqZ. lia. Qed.

Lemma contents_nil f : fifo_ok f -> contents f = [] <-> count f = 0.
Proof.
  intros H. pose proof (fifo_length f H) as L. split; intros E; [by rewrite E in L|].
  destruct (contents f); [done|]. cbn [length] in L. lia.
Qed.

Lemma clear_ok i : fifo_ok (mkFIFO (replicate (Z.to_nat UART_FIFO_LENGTH) 0) 0 i 0 0).
Proof. constructor; cbn -[is_uint]; try done. repeat (constructor; [by apply is_uint_0|]). constructor. Qed.

Lemma itl_ok l f : fifo_ok f -> fifo_ok (set_itl l f).
Proof. intros []. by split. Qed.

(** A step of a position around the ring. *)
Lemma step16 p : 0 <= p < 16 -> (if u8 (p + 1) =? UART_FIFO_LENGTH then 0 else u8 (p + 1)) = (p + 1) mod 16.
Proof. intros H. rewrite wrap_small by (unfold is_uint; lia). unfold UART_FIFO_LENGTH. zcases; dlia. Qed.

(** The FIFO after [fifo_put] when there is room, and after [fifo_get] when
    it is not empty. *)
Definition pushed (c : Z) (f : SerialFIFO) : SerialFIFO :=
  mkFIFO (aset (data f) (head f) c) (count f + 1) (itl f) (tail f) ((head f + 1) mod 16).

Definition popped (f : SerialFIFO) : SerialFIFO :=
  mkFIFO (data f) (count f - 1) (itl f) ((tail f + 1) mod 16) (head f).

Lemma pushed_ok c f : fifo_ok f -> is_uint 8 c -> count f < 16 ->
  fifo_ok (pushed c f) /\ contents (pushed c f) = contents f ++ [c].
Proof.
  intros [H1 H2 H3 H4 H5] Hc Hl. split.
  - constructor; cbn -[aset]; [by rewrite length_aset| |done|lia|rewrite H5; dlia].
    unfold aset. by apply Forall_insert.
  - unfold contents. cbn [pushed data tail count]. rewrite H5. apply ring_push; lia.
Qed.

Lemma popped_ok f : fifo_ok f -> 0 < count f ->
  fifo_ok (popped f) /\ contents f = aget (data f) (tail f) :: contents (popped f).
Proof.
  intros [H1 H2 H3 H4 H5] Hl. split.
  - constructor; cbn; [done|done|dlia|lia|rewrite H5; dlia].
  - apply ring_pop; lia.
Qed.

Lemma put_room fifo c s : fifo_ok (get_fifo fifo s) -> count (get_fifo fifo s) < 16 ->
  fifo_put fifo c s = put_fifo fifo (pushed c (get_fifo fifo s)) s.
Proof.
  intros [H1 H2 H3 H4 H5] Hl. unfold fifo_put. cbv zeta. set (f := get_fifo fifo s) in *.
  pose proof (step16 (head f) ltac:(rewrite H5; dlia)) as St. change UART_FIFO_LENGTH with 16 in *.
  assert (E : (count f <? 16) = true) by lia. rewrite !E, !orb_true_r. cbn [head set_head set_data].
  unfold pushed. rewrite <- St.
  destruct (u8 (head f + 1) =? 16); cbn [count set_head head set_data data tail itl set_count]; rewrite E;
    rewrite (wrap_small 8 (count f + 1)) by (unfold is_uint; lia); done.
Qed.

Lemma put_full c s : fifo_ok (recv_fifo s) -> 16 <= count (recv_fifo s) ->
  fifo_put RECV_FIFO c s = set_lsr (lsr s |. UART_LSR_OE) s.
Proof.
  intros [H1 H2 H3 H4 H5] Hl. unfold fifo_put. cbv zeta. change (get_fifo RECV_FIFO s) with (recv_fifo s).
  change (RECV_FIFO =? XMIT_FIFO) with false. change UART_FIFO_LENGTH with 16.
  assert (E : (count (recv_fifo s) <? 16) = false) by lia. rewrite !E. cbn [orb]. rewrite !E. by destruct s.
Qed.

Lemma get_some fifo s : fifo_ok (get_fifo fifo s) -> 0 < count (get_fifo fifo s) ->
  fifo_get fifo s = (aget (data (get_fifo fifo s)) (tail (get_fifo fifo s)), put_fifo fifo (popped (get_fifo fifo s)) s).
Proof.
  intros [H1 H2 H3 H4 H5] Hl. unfold fifo_get. cbv zeta. set (f := get_fifo fifo s) in *.
  rewrite (proj2 (Z.eqb_neq (count f) 0)) by lia. f_equal. pose proof (step16 (tail f) H3) as St.
  cbn [head set_tail set_data data count tail itl]. unfold popped. rewrite <- St.
  destruct (u8 (tail f + 1) =? UART_FIFO_LENGTH); cbn [count set_tail head data tail itl set_count];
    rewrite (wrap_small 8 (count f - 1)) by (unfold is_uint; lia); done.
Qed.

(** ** The state of a port *)

(** Every register within its width, the FIFOs well formed, no byte waiting
    for a retry and no transmission scheduled. *)
Record regs_ok (s : SerialState) : Prop := {
  r_rbr : is_uint 8 (rbr s);
  r_thr : is_uint 8 (thr s);
  r_tsr : is_uint 8 (tsr s);
  r_ier : is_uint 8 (ier s);
  r_iir : is_uint 8 (iir s);
  r_lcr : is_uint 8 (lcr s);
  r_mcr : is_uint 8 (mcr s);
  r_lsr : is_uint 8 (lsr s);
  r_msr : is_uint 8 (msr s);
  r_scr : is_uint 8 (scr s);
  r_fcr : is_uint 8 (fcr s);
  r_div : is_uint 16 (divider s);
  r_recv : fifo_ok (recv_fifo s);
  r_itl : 0 <= itl (recv_fifo s) <= 14;
  r_xmit : fifo_ok (xmit_fifo s);
  r_retry : tsr_retry s <= 0;
  r_timer : transmit_timer s = None;
  r_baud : baudbase s = 115200
}.

(** The conditions that may interrupt, in the order of their priority. *)
Definition causes (s : SerialState) : list (bool * Z) :=
  [(Z.testbit (ier s) 2 && existsb (Z.testbit (lsr s)) [1; 2; 3; 4], UART_IIR_RLSI);
   (Z.testbit (ier s) 0 && truthy (timeout_ipending s), UART_IIR_CTI);
   (Z.testbit (ier s) 0 && Z.testbit (lsr s) 0 &&
      (negb (Z.testbit (fcr s) 0) || (itl (recv_fifo s) <=? count (recv_fifo s))), UART_IIR_RDI);
   (Z.testbit (ier s) 1 && truthy (thr_ipending s), UART_IIR_THRI);
   (Z.testbit (ier s) 3 && existsb (Z.testbit (msr s)) [0; 1; 2; 3], UART_IIR_MSI)].

(** The identification of the first of them that holds. *)
Definition cause (s : SerialState) : Z :=
  match List.find fst (causes s) with Some (_, id) => id | None => UART_IIR_NO_INT end.

(** The identification register and the interrupt line say what is pending. *)
Definition irq_ok (s : SerialState) : Prop :=
  iir s &. 0x0F = cause s /\ irq s = of_bool (negb (cause s =? UART_IIR_NO_INT)).

(** Nothing waits to be transmitted and the status register says so. *)
Definition idle (s : SerialState) : Prop :=
  count (xmit_fifo s) = 0 /\ Z.testbit (lsr s) 5 = true /\ Z.testbit (lsr s) 6 = true.

Definition serial_ok (s : SerialState) : Prop := regs_ok s /\ idle s /\ irq_ok s.

Lemma truthy_lor a b : truthy (a |. b) = truthy a || truthy b.
Proof. apply eq_true_iff_eq. unfold truthy. rewrite orb_true_iff, !negb_true_iff, !Z.eqb_neq, Z.lor_eq_0_iff. lia. Qed.

(** The test of one bit, with the mask as the constant it is. *)
Lemma bit_test m i x : 0 <= i -> m = 1 <<. i -> truthy (x &. m) = Z.testbit x i.
Proof. intros H ->. by apply truthy_land_bit. Qed.

Lemma bits_test4 i x : 0 <= i -> truthy (x &. (0x0F <<. i)) = existsb (Z.testbit x) [i; i + 1; i + 2; i + 3].
Proof.
  intros H. change 0x0F with (1 |. (1 <<. 1) |. (1 <<. 2) |. (1 <<. 3)).
  rewrite !Z.shiftl_lor, !Z.shiftl_shiftl, !Z.land_lor_distr_r, !truthy_lor by lia.
  rewrite !truthy_land_bit by lia. cbn [existsb]. rewrite (Z.add_comm 1), (Z.add_comm 2), (Z.add_comm 3). btauto.
Qed.

Lemma update_irq_eq s :
  serial_update_irq s =
    set_irq (of_bool (negb (cause s =? UART_IIR_NO_INT))) (set_iir (cause s |. (iir s &. 0xF0)) s).
Proof.
  unfold serial_update_irq, cause, causes, UART_IER_RLSI, UART_IER_RDI, UART_IER_THRI, UART_IER_MSI,
    UART_LSR_INT_ANY, UART_LSR_DR, UART_FCR_FE, UART_MSR_ANY_DELTA. cbv zeta.
  change 0x1E with (0x0F <<. 1). change (msr s &. 15) with (msr s &. (0x0F <<. 0)).
  rewrite !bits_test4, !(bit_test 4 2), !(bit_test 1 0), !(bit_test 2 1), !(bit_test 8 3) by (done || lia).
  change [1; 1 + 1; 1 + 2; 1 + 3] with [1; 2; 3; 4]. change [0; 0 + 1; 0 + 2; 0 + 3] with [0; 1; 2; 3].
  cbn [List.find fst].
  repeat match goal with
  | |- context [if ?b then _ else _] =>
      lazymatch b with negb _ => fail | context [if _ then _ else _] => fail | _ => destruct b; [reflexivity|] end
  end. reflexivity.
Qed.

Lemma cause_range s : 0 <= cause s < 16.
Proof.
  unfold cause. destruct (List.find fst (causes s)) as [[b id]|] eqn:E; [|done].
  apply find_some in E as [E _]. cbn [causes In] in E. unfold UART_IIR_RLSI, UART_IIR_CTI, UART_IIR_RDI, UART_IIR_THRI, UART_IIR_MSI in E.
  destruct E as [E|[E|[E|[E|[E|[]]]]]]; apply (f_equal snd) in E; cbn [snd] in E; lia.
Qed.

(** After [serial_update_irq] the identification and the line are right,
    whatever they were. *)
Lemma update_irq_ok s : irq_ok (serial_update_irq s).
Proof.
  rewrite update_irq_eq. split; [|done]. change (cause (set_irq _ (set_iir _ s))) with (cause s). cbn [iir set_irq set_iir].
  rewrite Z.land_lor_distr_l, <- Z.land_assoc. change (240 &. 15) with 0. rewrite Z.land_0_r, Z.lor_0_r.
  change 15 with (Z.ones 4). rewrite Z.land_ones by lia. apply Z.mod_small, cause_range.
Qed.

Lemma update_irq_regs s : regs_ok s -> regs_ok (serial_update_irq s).
Proof.
  intros []. rewrite update_irq_eq. constructor; cbn -[is_uint]; try done.
  apply is_uint_lor; [|by apply is_uint_land_l|done]. pose proof (cause_range s). unfold is_uint. lia.
Qed.

(** Only the identification and the line change. *)
Lemma update_irq_frame s : exists c d, serial_update_irq s = set_irq c (set_iir d s).
Proof. rewrite update_irq_eq. by eexists _, _. Qed.

Lemma update_irq_poll p s :
  serial_update_irq (set_modem_status_poll p s) = set_modem_status_poll p (serial_update_irq s).
Proof. by rewrite !update_irq_eq. Qed.

Lemma update_irq_idle s : idle s -> idle (serial_update_irq s).
Proof. by rewrite update_irq_eq. Qed.

(** [regs_ok] of a state built with the setters, one setter at a time. *)
Ltac regs_step H :=
  destruct H; constructor; cbn [divider rbr thr tsr ier iir lcr mcr lsr msr scr fcr recv_fifo xmit_fifo
    tsr_retry transmit_timer baudbase]; try assumption.

Ltac regs :=
  lazymatch goal with
  | |- regs_ok (serial_update_irq _) => apply update_irq_regs; regs
  | |- regs_ok (if ?b then _ else _) => destruct b eqn:?; regs
  | |- regs_ok (?f ?v ?s) =>
      first [match goal with H : regs_ok ?x |- regs_ok ?y => constr_eq x y; exact H end
            |let H := fresh "R" in
             assert (H : regs_ok s);
             [regs|let t := fresh "t" in set (t := s) in *; clearbody t; unfold f; regs_step H; auto with cint]]
  | |- regs_ok _ => assumption
  end.

(** [idle] of a state built with the setters. *)
Ltac idle :=
  repeat match goal with
  | H : idle ?s |- _ => destruct H as (?H & ?H & ?H)
  | |- idle (serial_update_irq _) => apply update_irq_idle
  end;
  unfold idle, UART_LSR_OE, UART_LSR_DR, UART_LSR_BI, UART_LSR_THRE, UART_LSR_TEMT in *; cbn -[Z.lor Z.land Z.lnot wrap Z.testbit];
  rewrite ?wrap_testbit, ?Z.lor_spec, ?Z.land_spec, ?Z.lnot_spec by lia; constbits; split_and?; try assumption;
  try (rewrite ?orb_true_r, ?andb_true_r, ?orb_false_r; cbn [negb]; assumption || reflexivity || btauto).

Definition good (s : SerialState) : Prop := regs_ok s /\ idle s.

Lemma ok_update s : good s -> serial_ok (serial_update_irq s).
Proof.
  intros [H1 H2]. split_and!; [by apply update_irq_regs|by apply update_irq_idle|apply update_irq_ok].
Qed.

Lemma ok_good s : serial_ok s -> good s.
Proof. by intros (H1 & H2 & _). Qed.

Lemma good_put c s : is_uint 8 c -> good s -> good (fifo_put RECV_FIFO c s).
Proof.
  intros Hc [R I]. destruct (Z.lt_ge_cases (count (recv_fifo s)) 16) as [L|L].
  - rewrite put_room by (done || apply R). unfold put_fifo. cbn [truthy negb Z.eqb RECV_FIFO].
    change (get_fifo RECV_FIFO s) with (recv_fifo s). split; [|done].
    destruct (pushed_ok c (recv_fifo s) (r_recv s R) Hc L) as [F _]. destruct R. by constructor.
  - rewrite put_full by (done || apply R). split; [|idle]. regs. by apply is_uint_lor.
Qed.

Lemma good_lsr_or c s : is_uint 8 c -> good s -> good (set_lsr (lsr s |. c) s).
Proof.
  intros Hc [R (I1 & I2 & I3)]. split; [regs|unfold idle; cbn [xmit_fifo lsr set_lsr]].
  by rewrite !Z.lor_spec, I2, I3.
Qed.

(** Clearing status bits other than those of the transmitter. *)
Lemma good_lsr_clear c s : Z.testbit c 5 = false -> Z.testbit c 6 = false ->
  good s -> good (set_lsr (u8 (lsr s &. ~. c)) s).
Proof.
  intros H5 H6 [R (I1 & I2 & I3)]. split; [regs|unfold idle; cbn [xmit_fifo lsr set_lsr]].
  by rewrite !wrap_testbit, !Z.land_spec, !Z.lnot_spec, I2, I3, H5, H6 by lia.
Qed.

(** ** Received bytes *)

Definition fifo_on (s : SerialState) : bool := truthy (fcr s &. UART_FCR_FE).

(** The bytes received and not yet read, oldest first. *)
Definition pending (s : SerialState) : list Z :=
  if fifo_on s then contents (recv_fifo s) else if Z.testbit (lsr s) 0 then [rbr s] else [].

(** The receiver of two states is the same. *)
Record same_rx (s t : SerialState) : Prop := {
  x_fcr : fcr t = fcr s;
  x_recv : recv_fifo t = recv_fifo s;
  x_rbr : rbr t = rbr s;
  x_dr : Z.testbit (lsr t) 0 = Z.testbit (lsr s) 0;
  x_oe : Z.testbit (lsr t) 1 = true -> Z.testbit (lsr s) 1 = true
}.

#[global] Instance same_rx_po : PreOrder same_rx.
Proof.
  split; [intros s; by split|]. intros s t u [] []. split; try congruence. auto.
Qed.

Lemma same_pending s t : same_rx s t -> pending t = pending s.
Proof. intros [H1 H2 H3 H4 _]. unfold pending, fifo_on. by rewrite H1, H2, H3, H4. Qed.

Lemma update_irq_rx s : same_rx s (serial_update_irq s).
Proof. destruct (update_irq_frame s) as (c & d & ->). by split. Qed.

(** The status register announces data exactly when there is some. *)
Definition dr_ok (s : SerialState) : Prop := Z.testbit (lsr s) 0 = true <-> pending s <> [].

Lemma same_dr s t : same_rx s t -> dr_ok s -> dr_ok t.
Proof. intros X. unfold dr_ok. by rewrite (same_pending s t X), (x_dr s t X). Qed.

Section Invariant.

Context {W : Type} {chr : CharDriver W}.

(** Storing received bytes: the FIFO takes what fits, and the status register
    records an overrun. *)
Lemma puts_shape buf : forall s, fifo_ok (recv_fifo s) -> Forall (is_uint 8) buf ->
  exists F, foldl (fun s c => fifo_put RECV_FIFO c s) s buf =
      set_recv_fifo F (set_lsr (if 16 <? count (recv_fifo s) + Z.of_nat (length buf)
                                then lsr s |. UART_LSR_OE else lsr s) s) /\
    fifo_ok F /\ itl F = itl (recv_fifo s) /\ contents F = take 16 (contents (recv_fifo s) ++ buf).
Proof.
  induction buf as [|c buf IH]; intros s Hf Hb; cbn [foldl length].
  - exists (recv_fifo s). pose proof (f_count _ Hf). pose proof (fifo_length _ Hf).
    rewrite (proj2 (Z.ltb_ge 16 (count (recv_fifo s) + Z.of_nat 0))), app_nil_r, take_ge by lia. by destruct s.
  - destruct (Forall_cons_1 _ _ _ Hb) as [Hc Hb']. clear Hb. rename Hb' into Hb. pose proof (fifo_length _ Hf) as Hl.
    destruct (Z.lt_ge_cases (count (recv_fifo s)) 16) as [L|L].
    + destruct (pushed_ok c (recv_fifo s) Hf Hc L) as [F1 F2].
      rewrite put_room by done. change (put_fifo RECV_FIFO ?f s) with (set_recv_fifo f s).
      change (get_fifo RECV_FIFO s) with (recv_fifo s).
      destruct (IH (set_recv_fifo (pushed c (recv_fifo s)) s) F1 Hb) as (F & -> & H1 & H2 & H3). exists F.
      split; [|split_and!; [done|done|by rewrite H3; cbn [recv_fifo set_recv_fifo]; rewrite F2, <- app_assoc]].
      cbn [recv_fifo set_recv_fifo lsr pushed count].
      replace (count (recv_fifo s) + 1 + Z.of_nat (length buf)) with (count (recv_fifo s) + Z.of_nat (S (length buf))) by lia. done.
    + rewrite put_full by done.
      destruct (IH (set_lsr (lsr s |. UART_LSR_OE) s) Hf Hb) as (F & -> & H1 & H2 & H3). exists F.
      cbn [recv_fifo set_lsr lsr] in *. rewrite (proj2 (Z.ltb_lt 16 (count (recv_fifo s) + Z.of_nat (S (length buf))))) by lia.
      split; [|split_and!; [done|done|by rewrite H3, !take_app_le by lia]].
      destruct (16 <? _); [by rewrite <- Z.lor_assoc, Z.lor_diag|done].
Qed.

(** What reception makes of the port before the interrupts are updated. *)
Definition received (buf : list Z) (T : option Z) (F : SerialFIFO) (s : SerialState) : SerialState :=
  if truthy (fcr s &. UART_FCR_FE) then
    set_fifo_timeout_timer T (set_recv_fifo F (set_lsr ((if 16 <? count (recv_fifo s) + Z.of_nat (length buf)
      then lsr s |. UART_LSR_OE else lsr s) |. UART_LSR_DR) s))
  else set_lsr ((if truthy (lsr s &. UART_LSR_DR) then lsr s |. UART_LSR_OE else lsr s) |. UART_LSR_DR)
         (set_rbr (aget buf 0) s).

Lemma receive_shape buf s (w : W) : fifo_ok (recv_fifo s) -> Forall (is_uint 8) buf ->
  exists T F, serial_receive1 buf s w = serial_update_irq (received buf T F s) /\
    fifo_ok F /\ itl F = itl (recv_fifo s) /\ contents F = take 16 (contents (recv_fifo s) ++ buf).
Proof.
  intros Hf Hb. destruct (puts_shape buf s Hf Hb) as (F & E & HF). unfold serial_receive1, received. cbv zeta.
  rewrite E. clear E. eexists _, F. split; [|exact HF]. f_equal.
  destruct (truthy (fcr s &. UART_FCR_FE)); [reflexivity|]. by destruct (truthy (lsr s &. UART_LSR_DR)).
Qed.

(** Reception keeps the state well formed, and does not clear status bits. *)
Lemma received_regs buf T F s : regs_ok s -> Forall (is_uint 8) buf -> fifo_ok F -> itl F = itl (recv_fifo s) ->
  regs_ok (received buf T F s) /\ xmit_fifo (received buf T F s) = xmit_fifo s /\
  (forall i, Z.testbit (lsr s) i = true -> Z.testbit (lsr (received buf T F s)) i = true).
Proof.
  intros R Hb HF HI. assert (B : is_uint 8 (aget buf 0)) by (destruct Hb; [by apply is_uint_0|done]).
  pose proof (r_itl s R). pose proof (r_lsr s R). unfold received.
  destruct (truthy (fcr s &. UART_FCR_FE)); (split_and!; [|done|]).
  - set (L := if 16 <? _ then _ else _). assert (is_uint 8 L) by (subst L; destruct (16 <? _); [by apply is_uint_lor|done]).
    clearbody L. assert (is_uint 8 (L |. UART_LSR_DR)) by (by apply is_uint_lor).
    destruct R. constructor; cbn -[is_uint wrap Z.lor]; try done. lia.
  - intros i Hi. cbn [lsr set_fifo_timeout_timer set_recv_fifo set_lsr]. rewrite Z.lor_spec.
    destruct (16 <? _); rewrite ?Z.lor_spec, Hi; done.
  - set (L := if truthy _ then _ else _). assert (is_uint 8 L) by (subst L; destruct (truthy _); [by apply is_uint_lor|done]).
    clearbody L. assert (is_uint 8 (L |. UART_LSR_DR)) by (by apply is_uint_lor).
    destruct R. constructor; cbn -[is_uint wrap Z.lor]; done.
  - intros i Hi. cbn [lsr set_rbr set_lsr]. rewrite Z.lor_spec.
    destruct (truthy _); rewrite ?Z.lor_spec, Hi; done.
Qed.

Lemma receive_ok buf s (w : W) : Forall (is_uint 8) buf -> good s -> serial_ok (serial_receive1 buf s w).
Proof.
  intros Hb [R (I1 & I2 & I3)]. destruct (receive_shape buf s w (r_recv s R) Hb) as (T & F & -> & H1 & H2 & _).
  destruct (received_regs buf T F s R Hb H1 H2) as (R' & X & M). apply ok_update. split; [done|].
  unfold idle. rewrite X. split_and!; [done|by apply M|by apply M].
Qed.

Lemma break_ok s : good s -> serial_ok (serial_receive_break s).
Proof.
  intros [R I]. unfold serial_receive_break. cbv zeta. apply ok_update, good_lsr_or, good_put; [done|by apply is_uint_0|].
  split; [regs|done].
Qed.

Lemma timeout_ok s : serial_ok s -> serial_ok (fifo_timeout_int s).
Proof.
  intros H. unfold fifo_timeout_int. destruct (truthy _); [|done].
  apply ok_update. destruct (ok_good s H) as [R I]. split; [regs|done].
Qed.

(** Fields that no interrupt condition reads. *)
Lemma ok_fifo_timeout_timer v s : serial_ok s -> serial_ok (set_fifo_timeout_timer v s).
Proof. intros (R & I & Q). split_and!; [regs|done|done]. Qed.
Lemma ok_modem_status_poll v s : serial_ok s -> serial_ok (set_modem_status_poll v s).
Proof. intros (R & I & Q). split_and!; [regs|done|done]. Qed.
Lemma ok_poll_msl v s : serial_ok s -> serial_ok (set_poll_msl v s).
Proof. intros (R & I & Q). split_and!; [regs|done|done]. Qed.
Lemma ok_mcr v s : is_uint 8 v -> serial_ok s -> serial_ok (set_mcr v s).
Proof. intros Hv (R & I & Q). split_and!; [regs|done|done]. Qed.
Lemma ok_lcr v s : is_uint 8 v -> serial_ok s -> serial_ok (set_lcr v s).
Proof. intros Hv (R & I & Q). split_and!; [regs|done|done]. Qed.
Lemma ok_divider v s : is_uint 16 v -> serial_ok s -> serial_ok (set_divider v s).
Proof. intros Hv (R & I & Q). split_and!; [regs|done|done]. Qed.
Lemma ok_scr v s : is_uint 8 v -> serial_ok s -> serial_ok (set_scr v s).
Proof. intros Hv (R & I & Q). split_and!; [regs|done|done]. Qed.
Lemma ok_last_break_enable v s : serial_ok s -> serial_ok (set_last_break_enable v s).
Proof. intros (R & I & Q). split_and!; [regs|done|done]. Qed.
Lemma ok_char_transmit_time v s : serial_ok s -> serial_ok (set_char_transmit_time v s).
Proof. intros (R & I & Q). split_and!; [regs|done|done]. Qed.

(** With this baud base the speed is at least one baud for every divisor. *)
Lemma params_some s (w : W) : baudbase s = 115200 -> is_uint 16 (divider s) ->
  exists v w', serial_update_parameters s w = Some (set_char_transmit_time v s, w').
Proof.
  intros HB HD. unfold serial_update_parameters. destruct (Z.eqb_spec (divider s) 0) as [E|E].
  { exists (char_transmit_time s), w. by destruct s. }
  rewrite HB. assert (Q : Z.quot 115200 (divider s) <> 0).
  { unfold is_uint in HD. rewrite Z.quot_div_nonneg by lia.
    pose proof (Z.div_le_lower_bound 115200 (divider s) 1 ltac:(lia) ltac:(lia)). lia. }
  destruct (truthy (lcr s &. 0x08)); rewrite (proj2 (Z.eqb_neq _ 0) Q); by eexists _, _.
Qed.

Lemma msr_line_shape flags flag bit s : is_uint 8 (msr s) -> is_uint 8 bit ->
  exists m, is_uint 8 m /\ msr_line flags flag bit s = set_msr m s.
Proof.
  intros Hm Hb. unfold msr_line. destruct (truthy _); eexists; (split; [|reflexivity]); auto with cint.
Qed.

(** The modem lines: only the modem status, its poll and, when the status
    changed, the interrupts. *)
Lemma msl_shape s (w : W) : is_uint 8 (msr s) ->
  exists p q (b : bool) m, is_uint 8 m /\ fst (serial_update_msl s w) = set_modem_status_poll p (set_poll_msl q
    (if b then serial_update_irq (set_msr m s) else s)).
Proof.
  intros Hm. unfold serial_update_msl. cbv zeta. destruct (chr_get_tiocm w) as [[rc flags] w'].
  destruct (rc =? - ENOTSUP).
  { by exists None, (-1), false, (msr s). }
  set (t0 := set_modem_status_poll None s).
  destruct (msr_line_shape flags CHR_TIOCM_CTS UART_MSR_CTS t0) as (m1 & B1 & ->); [done|done|].
  destruct (msr_line_shape flags CHR_TIOCM_DSR UART_MSR_DSR (set_msr m1 t0)) as (m2 & B2 & ->); [done|done|].
  destruct (msr_line_shape flags CHR_TIOCM_CAR UART_MSR_DCD (set_msr m2 (set_msr m1 t0))) as (m3 & B3 & ->); [done|done|].
  destruct (msr_line_shape flags CHR_TIOCM_RI UART_MSR_RI (set_msr m3 (set_msr m2 (set_msr m1 t0)))) as (m & B & ->); [done|done|].
  change (set_msr m (set_msr m3 (set_msr m2 (set_msr m1 t0)))) with (set_msr m t0). subst t0.
  cbn [msr set_msr set_modem_status_poll]. destruct (Z.eqb_spec m (msr s)) as [E|E]; cbn [negb].
  - subst m. exists (if truthy (poll_msl s) then Some (clock w' + get_ticks_per_sec / 100) else None), (poll_msl s), false, (msr s).
    split; [done|]. cbn [poll_msl set_msr set_modem_status_poll]. destruct (truthy (poll_msl s)); by destruct s.
  - set (n := if _ && _ then _ else _).
    assert (N : exists m', is_uint 8 m' /\ n = set_modem_status_poll None (set_msr m' s)).
    { subst n. destruct (_ && _); eexists; (split; [|reflexivity]); by apply wrap_range. }
    destruct N as (m' & B' & ->). rewrite update_irq_poll. destruct (update_irq_frame (set_msr m' s)) as (c & d & F).
    exists (if truthy (poll_msl s) then Some (clock w' + get_ticks_per_sec / 100) else None), (poll_msl s), true, m'.
    split; [done|]. rewrite F. cbn [poll_msl set_modem_status_poll set_irq set_iir set_msr].
    destruct (truthy (poll_msl s)); reflexivity.
Qed.

(** *** Transmission *)

(** The port as [write_thr] hands it to [serial_xmit]. *)
Definition thr_written (val : Z) (s : SerialState) : SerialState :=
  let s := set_thr (u8 val) s in
  if truthy (fcr s &. UART_FCR_FE) then
    let s := fifo_put XMIT_FIFO (thr s) s in
    let s := set_thr_ipending 0 s in
    let s := set_lsr (u8 (lsr s &. ~. UART_LSR_TEMT)) s in
    let s := set_lsr (u8 (lsr s &. ~. UART_LSR_THRE)) s in
    serial_update_irq s
  else
    let s := set_thr_ipending 0 s in
    let s := set_lsr (u8 (lsr s &. ~. UART_LSR_THRE)) s in
    serial_update_irq s.

(** The shift register loaded with the only byte of the transmitter. *)
Record loaded (val : Z) (s t : SerialState) : Prop := {
  l_regs : regs_ok t;
  l_tsr : tsr t = val;
  l_empty : count (xmit_fifo t) = 0;
  l_thre : Z.testbit (lsr t) 5 = true;
  l_recv : recv_fifo t = recv_fifo s;
  l_fcr : fcr t = fcr s;
  l_mcr : mcr t = mcr s;
  l_rbr : rbr t = rbr s;
  l_lsr : forall i, 0 <= i < 5 -> Z.testbit (lsr t) i = Z.testbit (lsr s) i
}.

(** A status bit below those of the transmitter, through its updates. *)
Ltac low_bit Hi :=
  intros i Hi; rewrite ?Z.lor_spec, ?wrap_testbit, ?Z.land_spec, ?wrap_testbit, ?Z.land_spec by lia;
  rewrite ?Z.lnot_spec by lia; unfold UART_LSR_THRE, UART_LSR_TEMT; change 32 with (2 ^ 5); change 64 with (2 ^ 6);
  rewrite !Z.pow2_bits_false by lia; cbn [negb]; by rewrite ?andb_true_r, ?orb_false_r.

Lemma written_shape val s : fifo_ok (xmit_fifo s) -> count (xmit_fifo s) = 0 -> is_uint 8 val ->
  exists L, thr_written val s = serial_update_irq (set_lsr L (set_thr_ipending 0 (set_xmit_fifo
      (if truthy (fcr s &. UART_FCR_FE) then pushed val (xmit_fifo s) else xmit_fifo s) (set_thr val s)))) /\
    is_uint 8 L /\ (forall i, 0 <= i < 5 -> Z.testbit L i = Z.testbit (lsr s) i).
Proof.
  intros X Hx Hv. unfold thr_written. cbv zeta. rewrite (wrap_small 8 val Hv).
  cbn [fcr set_thr thr]. destruct (truthy (fcr s &. UART_FCR_FE)).
  - rewrite put_room by (cbn; rewrite ?Hx; done). eexists. split; [reflexivity|]. split; [by apply wrap_range|].
    cbn [lsr set_lsr set_thr_ipending put_fifo set_xmit_fifo truthy negb XMIT_FIFO Z.eqb set_thr]. low_bit Hi.
  - exists (u8 (lsr s &. ~. UART_LSR_THRE)). split; [by destruct s|]. split; [by apply wrap_range|]. low_bit Hi.
Qed.

Lemma load_shape u : regs_ok u -> (truthy (fcr u &. UART_FCR_FE) = true -> count (xmit_fifo u) = 1) ->
  load_tsr u = set_lsr (lsr u |. UART_LSR_THRE)
    (if truthy (fcr u &. UART_FCR_FE)
     then set_tsr (aget (data (xmit_fifo u)) (tail (xmit_fifo u))) (set_xmit_fifo (popped (xmit_fifo u)) u)
     else set_tsr (thr u) u).
Proof.
  intros R Hc. unfold load_tsr. rewrite (proj2 (Z.leb_le _ _) (r_retry u R)).
  destruct (truthy (fcr u &. UART_FCR_FE)); [|done]. specialize (Hc eq_refl).
  rewrite get_some by (change (get_fifo XMIT_FIFO u) with (xmit_fifo u); first [apply R|lia]).
  change (get_fifo XMIT_FIFO u) with (xmit_fifo u). change (put_fifo XMIT_FIFO ?f u) with (set_xmit_fifo f u).
  cbn [xmit_fifo set_tsr set_xmit_fifo popped count]. by rewrite Hc.
Qed.

Lemma load_loaded val s u : regs_ok u -> thr u = val ->
  xmit_fifo u = (if truthy (fcr s &. UART_FCR_FE) then pushed val (xmit_fifo s) else xmit_fifo s) ->
  recv_fifo u = recv_fifo s -> fcr u = fcr s -> mcr u = mcr s -> rbr u = rbr s ->
  (forall i, 0 <= i < 5 -> Z.testbit (lsr u) i = Z.testbit (lsr s) i) ->
  fifo_ok (xmit_fifo s) -> count (xmit_fifo s) = 0 -> is_uint 8 val -> loaded val s (load_tsr u).
Proof.
  intros U Ht Hu H1 H2 H3 H4 HB X Hx Hv.
  destruct (pushed_ok val (xmit_fifo s) X Hv ltac:(lia)) as [P1 P2].
  assert (PC : count (pushed val (xmit_fifo s)) = 1) by (cbn [pushed count]; lia).
  pose proof (popped_ok _ P1 ltac:(lia)) as [Q1 Q2].
  assert (V : aget (data (pushed val (xmit_fifo s))) (tail (pushed val (xmit_fifo s))) = val).
  { rewrite Q2, (proj2 (contents_nil (xmit_fifo s) X) Hx) in P2. by injection P2. }
  assert (T : is_uint 8 (lsr u |. UART_LSR_THRE)) by (apply is_uint_lor; [apply U|done|done]).
  rewrite load_shape; [|done|by rewrite Hu, H2; intros ->]. rewrite H2, Hu, Ht.
  destruct (truthy (fcr s &. UART_FCR_FE)); rewrite ?V; constructor; try assumption; try reflexivity.
  all: try (cbn [lsr set_lsr]; rewrite Z.lor_spec; constbits; by rewrite orb_true_r).
  all: try (cbn [lsr set_lsr]; intros i Hi; rewrite <- HB by lia; revert i Hi; low_bit Hi).
  - regs.
  - cbn [xmit_fifo set_lsr set_tsr set_xmit_fifo popped count]. lia.
  - regs.
  - cbn [xmit_fifo set_lsr set_tsr]. by rewrite Hu.
Qed.

Lemma loaded_ok val s : regs_ok s -> count (xmit_fifo s) = 0 -> is_uint 8 val ->
  loaded val s (load_tsr (thr_written val s)).
Proof.
  intros R Hx Hv. destruct (written_shape val s (r_xmit s R) Hx Hv) as (L & -> & HL & HB).
  destruct (pushed_ok val (xmit_fifo s) (r_xmit s R) Hv ltac:(lia)) as [P1 _].
  set (u := set_lsr L _). assert (U : regs_ok (serial_update_irq u)).
  { apply update_irq_regs. subst u. regs. destruct (truthy _); [done|apply R]. }
  destruct (update_irq_frame u) as (c & d & E). rewrite E in U |- *. clear E.
  apply load_loaded; try reflexivity; try done. apply R.
Qed.

Lemma xmit_done_shape t (w : W) : Z.testbit (lsr t) 5 = true ->
  xmit_done t w = serial_update_irq (set_thr_ipending 1 (set_lsr (lsr t |. UART_LSR_TEMT) (set_last_xmit_ts (clock w) t))).
Proof.
  intros H. rewrite <- (bit_test UART_LSR_THRE 5) in H by done. unfold xmit_done. cbv zeta.
  change (lsr (set_last_xmit_ts (clock w) t)) with (lsr t). rewrite H. cbn [negb].
  change (lsr (set_last_xmit_ts (clock w) t)) with (lsr t). by rewrite H.
Qed.

(** The end of a transmission, from a state whose transmitter is empty. *)
Lemma xmit_done_ok t (w : W) : regs_ok t -> count (xmit_fifo t) = 0 -> Z.testbit (lsr t) 5 = true ->
  serial_ok (xmit_done t w) /\ same_rx t (xmit_done t w) /\ thr_ipending (xmit_done t w) = 1.
Proof.
  intros R Hx H5. rewrite xmit_done_shape by done. split_and!.
  - apply ok_update. split.
    + assert (is_uint 8 (lsr t |. UART_LSR_TEMT)) by (apply is_uint_lor; [apply R|done|done]). regs.
    + unfold idle. cbn [xmit_fifo lsr set_lsr set_thr_ipending set_last_xmit_ts].
      rewrite !Z.lor_spec, H5. constbits. by rewrite orb_true_r.
  - etransitivity; [|apply update_irq_rx]. split; try done;
      cbn [lsr set_lsr set_thr_ipending set_last_xmit_ts]; rewrite Z.lor_spec; constbits; by rewrite orb_false_r.
  - by destruct (update_irq_frame (set_thr_ipending 1 (set_lsr (lsr t |. UART_LSR_TEMT) (set_last_xmit_ts (clock w) t)))) as (c & d & ->).
Qed.

Lemma loaded_rx val s t : loaded val s t -> same_rx s t.
Proof. intros []. split; try done; rewrite l_lsr0; [done|lia|done|lia]. Qed.

Definition loops (s : SerialState) : bool := truthy (mcr s &. UART_MCR_LOOP).

Lemma received_pending buf T F s : contents F = take 16 (contents (recv_fifo s) ++ buf) ->
  pending (received buf T F s) = if fifo_on s then take 16 (pending s ++ buf) else [aget buf 0].
Proof.
  intros HF. unfold pending, fifo_on, received. destruct (truthy (fcr s &. UART_FCR_FE)) eqn:E;
    cbn [fcr recv_fifo rbr lsr set_fifo_timeout_timer set_recv_fifo set_lsr set_rbr]; rewrite E; [done|].
  rewrite Z.lor_spec. constbits. by rewrite orb_true_r.
Qed.

Lemma write_thr_spec val s (w : W) : regs_ok s -> count (xmit_fifo s) = 0 -> is_uint 8 val ->
  exists s', write_thr val s w = (s', if loops s then w else snd (qemu_chr_write val w)) /\
    serial_ok s' /\ thr_ipending s' = 1 /\
    (if loops s then pending s' = (if fifo_on s then take 16 (pending s ++ [val]) else [val]) else same_rx s s').
Proof.
  intros R Hx Hv. change (write_thr val s w) with (serial_xmit (thr_written val s) w).
  pose proof (loaded_ok val s R Hx Hv) as L. unfold serial_xmit. cbv zeta.
  revert L. generalize (load_tsr (thr_written val s)). intros t L. pose proof (loaded_rx _ _ _ L) as X.
  destruct L as [L1 L2 L3 L4 _ L6 L7 _ _]. rewrite L2, L7. change (truthy (mcr s &. UART_MCR_LOOP)) with (loops s).
  destruct (loops s).
  - destruct (receive_shape [val] t w (r_recv t L1)) as (T & F & -> & F1 & F2 & F3); [by apply Forall_singleton|].
    destruct (received_regs [val] T F t L1) as (G1 & G2 & G3); [by apply Forall_singleton|done|done|].
    pose proof (received_pending [val] T F t F3) as P. set (v := received [val] T F t) in *. clearbody v.
    destruct (update_irq_frame v) as (c & d & E).
    destruct (xmit_done_ok (serial_update_irq v) w) as (K1 & K2 & K3).
    { by apply update_irq_regs. } { by rewrite E; cbn [xmit_fifo set_irq set_iir]; rewrite G2. }
    { rewrite E. by apply G3. }
    eexists. split; [reflexivity|]. split_and!; [done|done|].
    rewrite (same_pending _ _ K2), (same_pending _ _ (update_irq_rx v)), P, (same_pending _ _ X).
    unfold fifo_on. by rewrite L6.
  - destruct (qemu_chr_write val w) as [n w'] eqn:E. cbn [snd].
    assert (Y : forall r, r <= 0 -> exists s', (xmit_done (set_tsr_retry r t) w', w') = (s', w') /\
              serial_ok s' /\ thr_ipending s' = 1 /\ same_rx s s').
    { intros r Hr. destruct (xmit_done_ok (set_tsr_retry r t) w') as (K1 & K2 & K3); [regs|done|done|].
      eexists. split; [reflexivity|]. split_and!; [done|done|]. transitivity t; [done|]. destruct K2. by split. }
    destruct (n =? 1) eqn:N; cbn [negb]; [by apply Y|].
    pose proof (r_retry t L1). rewrite (proj2 (Z.ltb_ge 0 (tsr_retry t))) by done. cbn [andb].
    destruct (poll_msl t <? 0); [by apply Y|]. specialize (Y (tsr_retry t) ltac:(done)).
    replace (set_tsr_retry (tsr_retry t) t) with t in Y by (by destruct t). done.
Qed.

(** *** Writes *)

(** The modem lines leave the receiver alone. *)
Lemma msl_ok s (w : W) : regs_ok s ->
  (idle s -> good (fst (serial_update_msl s w))) /\ (serial_ok s -> serial_ok (fst (serial_update_msl s w))) /\
  same_rx s (fst (serial_update_msl s w)).
Proof.
  intros R. destruct (msl_shape s w (r_msr s R)) as (p & q & b & m & Hm & ->).
  assert (R' : regs_ok (if b then serial_update_irq (set_msr m s) else s)) by (destruct b; [regs|done]).
  assert (X : same_rx s (if b then serial_update_irq (set_msr m s) else s)).
  { destruct b; [|done]. destruct (update_irq_frame (set_msr m s)) as (c & d & ->). by split. }
  split_and!; [| |destruct X; by split].
  - intros I. split; [regs|]. destruct b; [by destruct (update_irq_frame (set_msr m s)) as (c & d & ->)|done].
  - intros (_ & I & Q). apply ok_modem_status_poll, ok_poll_msl. destruct b; [|by split_and!].
    apply ok_update. split; [regs|done].
Qed.

Lemma write_ier_ok val s (w : W) : good s ->
  serial_ok (fst (write_ier val s w)) /\ same_rx s (fst (write_ier val s w)).
Proof.
  intros [R I]. unfold write_ier. cbv zeta.
  assert (H : forall t, good t -> same_rx s t -> forall w' : W,
    let r := if truthy (lsr t &. UART_LSR_THRE) then (serial_update_irq (set_thr_ipending 1 t), w') else (t, w') in
    serial_ok (fst r) /\ same_rx s (fst r)).
  { intros t [Rt It] X w'. rewrite (bit_test UART_LSR_THRE 5) by done. destruct It as (I1 & I2 & I3). rewrite I2. cbn [fst].
    split; [apply ok_update; split; [regs|done]|]. etransitivity; [|apply update_irq_rx]. destruct X. by split. }
  assert (R1 : regs_ok (set_ier (val &. 0x0f) s)) by (regs; by apply is_uint_land_r).
  destruct (0 <=? poll_msl _); [|by apply H; [split|split]].
  destruct (truthy _).
  - assert (R2 : regs_ok (set_poll_msl 1 (set_ier (val &. 0x0f) s))) by regs.
    destruct (msl_ok _ w R2) as (M1 & _ & M3). destruct (serial_update_msl _ w) as [t w']. cbn [fst] in *.
    apply H; [by apply M1|]. destruct M3. by split.
  - apply H; [split; [regs|done]|by split].
Qed.

Lemma good_clear fifo s : good s -> good (fifo_clear fifo s).
Proof.
  intros [R (I1 & I2 & I3)]. unfold fifo_clear, get_fifo, put_fifo. cbv zeta. pose proof (r_itl s R).
  destruct (truthy fifo); (split; [|by split_and!]); regs; first [apply clear_ok|cbn [itl]; lia].
Qed.

Lemma write_fcr_ok val s : serial_ok s -> serial_ok (write_fcr val s).
Proof.
  intros H. unfold write_fcr. cbv zeta. destruct (fcr s =? val &. 0xFF); [done|]. apply ok_update.
  set (v := if truthy ((val &. 0xFF ^. fcr s) &. UART_FCR_FE) then _ else _). clearbody v. apply ok_good in H.
  set (a := if truthy (v &. UART_FCR_RFR) then _ else _). assert (A : good a).
  { subst a. destruct (truthy _); [|done]. apply good_clear. destruct H as [R I]. split; [regs|done]. }
  clearbody a. clear H.
  set (b := if truthy (v &. UART_FCR_XFR) then _ else _). assert (B : good b).
  { subst b. destruct (truthy _); [by apply good_clear|done]. }
  clearbody b. clear A. destruct B as [R I].
  set (l := if _ =? UART_FCR_ITL_1 then _ else _). assert (L : 0 <= l <= 14) by (subst l; repeat case_match; lia). clearbody l.
  pose proof (r_iir b R). split; [|by destruct (truthy _)].
  assert (is_uint 8 (v &. 0xC9)) by (by apply is_uint_land_r).
  destruct (truthy _); regs; first [by apply is_uint_lor|by apply itl_ok|cbn [itl set_itl]; lia].
Qed.

(** Every byte written is accepted, and writes other than to the FIFO control
    register and, with the loop closed, to the transmitter do not touch the
    receiver. *)
Lemma write_ok addr val s (w : W) : serial_ok s -> is_uint 8 val ->
  exists s' w', serial_ioport_write addr val s w = Some (s', w') /\ serial_ok s' /\
    (addr &. 7 <> 2 -> loops s = false -> same_rx s s').
Proof.
  intros H Hv. pose proof H as (R & (I1 & I2 & I3) & Q).
  assert (P : forall t, serial_ok t -> same_rx s t -> exists s' w', serial_update_parameters t w = Some (s', w') /\
      serial_ok s' /\ (addr &. 7 <> 2 -> loops s = false -> same_rx s s')).
  { intros t Ht X. destruct (params_some t w) as (v & w' & ->); [apply Ht|apply Ht|]. eexists _, _. split; [reflexivity|].
    split; [by apply ok_char_transmit_time|]. intros _ _. destruct X. by split. }
  unfold serial_ioport_write. cbv zeta. repeat (case_match; [|]).
  - apply P; [|by split]. apply ok_divider; [by apply wrap_range|done].
  - destruct (write_ier_ok val s w (ok_good s H)) as [K1 K2]. destruct (write_ier val s w) as [s' w'].
    by exists s', w'.
  - eexists _, _. split; [reflexivity|]. split; [by apply write_fcr_ok|lia].
  - unfold write_lcr. cbv zeta. destruct (params_some (set_lcr (u8 val) s) w) as (v & w' & ->); [apply R|apply R|].
    assert (K : serial_ok (set_char_transmit_time v (set_lcr (u8 val) s))).
    { apply ok_char_transmit_time, ok_lcr; [by apply wrap_range|done]. }
    cbn [mbind option_bind]. destruct (negb _); eexists _, _; (split; [reflexivity|]);
      (split; [try apply ok_last_break_enable; done|by split]).
  - unfold write_mcr. cbv zeta. assert (K : serial_ok (set_mcr (val &. 0x1f) s)) by (apply ok_mcr; [by apply is_uint_land_r|done]).
    destruct (truthy (val &. UART_MCR_LOOP)); [by eexists _, _|]. destruct (_ && _); [|by eexists _, _].
    destruct (chr_get_tiocm w) as [[rc flags] w']. eexists _, _. split; [reflexivity|].
    split; [by apply ok_modem_status_poll|by split].
  - by eexists _, _.
  - eexists _, _. split; [reflexivity|]. split; [apply ok_scr; [by apply wrap_range|done]|by split].
  - apply P; [|by split]. apply ok_divider; [by apply wrap_range|done].
  - destruct (write_thr_spec val s w R I1 Hv) as (s' & -> & K1 & _ & K3). eexists _, _. split; [reflexivity|].
    split; [done|]. intros _ L. by rewrite L in K3.
Qed.

(** *** Reads *)

Lemma contents_bytes f : fifo_ok f -> Forall (is_uint 8) (contents f).
Proof.
  intros [H1 H2 H3 H4 H5]. unfold contents, ring_contents. apply Forall_fmap, Forall_forall. intros i _. cbn [compose].
  unfold aget. apply Forall_nth; [done|]. rewrite H1. dlia.
Qed.

Lemma pending_bytes s : regs_ok s -> Forall (is_uint 8) (pending s).
Proof.
  intros R. unfold pending. destruct (fifo_on s); [apply contents_bytes, R|].
  destruct (Z.testbit _ _); [apply Forall_singleton, R|constructor].
Qed.

(** A read of the receive buffer takes the oldest byte. *)
Lemma read_rbr_ok s (w : W) : serial_ok s ->
  exists v s' w', read_rbr s w = (v, s', w') /\ serial_ok s' /\ is_uint 8 v /\
    (dr_ok s -> dr_ok s' /\ (pending s <> [] -> pending s = v :: pending s')) /\
    (Z.testbit (lsr s') 1 = true -> Z.testbit (lsr s) 1 = true).
Proof.
  intros H. unfold read_rbr. pose proof H as (R & I & Q). pose proof (pending_bytes s R) as B.
  change (truthy (fcr s &. UART_FCR_FE)) with (fifo_on s). destruct (fifo_on s) eqn:FE.
  - assert (G : exists f v, fifo_ok f /\ itl f = itl (recv_fifo s) /\ is_uint 8 v /\
        fifo_get RECV_FIFO s = (v, set_recv_fifo f s) /\ (pending s <> [] -> pending s = v :: contents f) /\
        (pending s = [] -> contents f = [])).
    { unfold pending. rewrite FE. pose proof (r_recv s R) as F. pose proof (f_count _ F).
      destruct (Z.eq_dec (count (recv_fifo s)) 0) as [E|E].
      - exists (recv_fifo s), 0. apply contents_nil in E as E'; [|done]. unfold fifo_get.
        change (get_fifo RECV_FIFO s) with (recv_fifo s). cbv zeta. rewrite (proj2 (Z.eqb_eq _ 0) E), E'.
        split_and!; [done|done|by apply is_uint_0|by destruct s|done|done].
      - destruct (popped_ok _ F ltac:(lia)) as [P1 P2]. exists (popped (recv_fifo s)), (aget (data (recv_fifo s)) (tail (recv_fifo s))).
        rewrite get_some by (change (get_fifo RECV_FIFO s) with (recv_fifo s); done || lia). unfold pending in B. rewrite FE, P2 in B.
        split_and!; [done|done|by inversion B|done|done|by rewrite P2]. }
    destruct G as (f & v & F1 & F2 & F3 & -> & F4 & F5). cbn [recv_fifo set_recv_fifo].
    assert (R' : regs_ok (set_recv_fifo f s)) by (pose proof (r_itl s R); regs; lia).
    assert (K : forall t, good t -> recv_fifo t = f -> fcr t = fcr s ->
      (Z.testbit (lsr t) 1 = true -> Z.testbit (lsr s) 1 = true) ->
      (dr_ok s -> (Z.testbit (lsr t) 0 = true <-> contents f <> [])) -> forall w' : W,
      exists v0 s' w'', (v, serial_update_irq t, w') = (v0, s', w'') /\ serial_ok s' /\ is_uint 8 v0 /\
        (dr_ok s -> dr_ok s' /\ (pending s <> [] -> pending s = v0 :: pending s')) /\
        (Z.testbit (lsr s') 1 = true -> Z.testbit (lsr s) 1 = true)).
    { intros t G T1 T2 T3 T4 w'. eexists _, _, _. split; [reflexivity|]. pose proof (update_irq_rx t) as X.
      assert (P : pending (serial_update_irq t) = contents f).
      { rewrite (same_pending _ _ X). unfold pending, fifo_on in *. by rewrite T2, FE, T1. }
      split_and!; [by apply ok_update|done| |intros L; apply T3, (x_oe _ _ X), L].
      intros D. unfold dr_ok. rewrite P, (x_dr _ _ X). split; [by apply T4|done]. }
    destruct (Z.eqb_spec (count f) 0) as [E|E].
    + apply contents_nil in E; [|done]. apply K; try done.
      * assert (G : good (set_recv_fifo f s)) by done. apply (good_lsr_clear (UART_LSR_DR |. UART_LSR_BI)) in G as [GR GI]; [|done|done].
        split; [regs|done].
      * cbn [lsr set_lsr set_timeout_ipending set_recv_fifo]. rewrite !wrap_testbit, !Z.land_spec, !Z.lnot_spec by lia.
        constbits. cbn [negb]. by rewrite andb_true_r.
      * intros _. cbn [lsr set_lsr set_timeout_ipending set_recv_fifo]. rewrite !wrap_testbit, !Z.land_spec, !Z.lnot_spec by lia.
        constbits. cbn [negb]. by rewrite andb_false_r, E.
    + rewrite <- (contents_nil f F1) in E. apply K; try done; [split; [regs|done]|].
      unfold dr_ok. cbn [lsr set_fifo_timeout_timer set_timeout_ipending set_recv_fifo]. intros ->. split; [done|].
      intros _ E'. by apply E, F5.
  - assert (G : good (set_lsr (u8 (lsr s &. ~. (UART_LSR_DR |. UART_LSR_BI))) s)) by (by apply good_lsr_clear).
    eexists _, _, _. split; [reflexivity|]. split; [by apply ok_update|].
    destruct (update_irq_frame (set_lsr (u8 (lsr s &. ~. (UART_LSR_DR |. UART_LSR_BI))) s)) as (c & d & ->).
    unfold dr_ok, pending, fifo_on. cbn [fcr rbr lsr set_irq set_iir set_lsr]. unfold fifo_on in FE. rewrite FE.
    rewrite !wrap_testbit, !Z.land_spec, !Z.lnot_spec by lia. constbits. cbn [negb]. rewrite !andb_false_r, !andb_true_r.
    split_and!; [apply R|intros _|done]. split; [by split|]. by destruct (Z.testbit (lsr s) 0).
Qed.

(** Reads other than of the receive buffer leave the receiver alone. *)
Lemma read_ok addr s (w : W) : serial_ok s ->
  exists v s' w', serial_ioport_read addr s w = (v, s', w') /\ serial_ok s' /\
    (addr &. 7 <> 0 \/ Z.testbit (lcr s) 7 = true -> same_rx s s').
Proof.
  intros H. pose proof H as (R & I & Q). unfold serial_ioport_read. cbv zeta.
  rewrite (bit_test UART_LCR_DLAB 7) by done. repeat (case_match; [|]).
  all: try (eexists _, _, _; by split_and!).
  - eexists _, _, _. split; [reflexivity|]. split; [apply ok_update; split; [regs|done]|].
    intros _. by etransitivity; [|apply update_irq_rx].
  - assert (G : good (set_lsr (u8 (lsr s &. ~. (UART_LSR_BI |. UART_LSR_OE))) s)) by (by apply good_lsr_clear).
    eexists _, _, _. split; [reflexivity|]. split; [by apply ok_update|]. intros _.
    etransitivity; [|apply update_irq_rx]. split; try done; cbn [lsr set_lsr];
      rewrite wrap_testbit, Z.land_spec, Z.lnot_spec by lia; constbits; by rewrite ?andb_true_r, ?andb_false_r.
  - unfold read_msr. destruct (truthy (mcr s &. UART_MCR_LOOP)); [by eexists _, _, _|].
    assert (M : exists t w', (if 0 <=? poll_msl s then serial_update_msl s w else (s, w)) = (t, w') /\ serial_ok t /\ same_rx s t).
    { destruct (0 <=? poll_msl s); [|by exists s, w]. destruct (msl_ok s w R) as (_ & M2 & M3).
      destruct (serial_update_msl s w) as [t w']. exists t, w'. cbn [fst] in *. split_and!; auto. }
    destruct M as (t & w' & -> & Ht & X). destruct (truthy (msr t &. UART_MSR_ANY_DELTA)); [|by eexists _, _, _].
    eexists _, _, _. split; [reflexivity|]. split.
    + destruct Ht as (Rt & It & _). apply ok_update. split; [regs|done].
    + intros _. etransitivity; [exact X|]. by etransitivity; [|apply update_irq_rx].
  - destruct (read_rbr_ok s w H) as (v & s' & w' & -> & K & _). eexists _, _, _. split; [reflexivity|]. split; [done|].
    intros [C|C]; [|congruence]. exfalso. apply C. pose proof (Z.mod_pos_bound addr 8). rewrite land_7 in *. zify. lia.
Qed.

(** *** A port in service *)

Lemma reset_ok s (w : W) : fifo_ok (recv_fifo s) -> 0 <= itl (recv_fifo s) <= 14 ->
  is_uint 8 (thr s) -> is_uint 8 (tsr s) -> is_uint 8 (fcr s) ->
  transmit_timer s = None -> baudbase s = 115200 -> serial_ok (serial_reset s w).
Proof.
  intros F I H1 H2 H3 H4 H5. split_and!; [|by split_and!|].
  - constructor; cbn -[is_uint]; try done; apply clear_ok.
  - split; reflexivity.
Qed.

(** What can happen to a port: the guest reads or writes a byte, the character
    device delivers bytes or an event, a timer expires, the machine is reset,
    or time passes and the device changes on its own. *)
Inductive step : SerialState * W -> SerialState * W -> Prop :=
| st_write addr val s w s' w' : is_uint 8 val ->
    serial_ioport_write addr val s w = Some (s', w') -> step (s, w) (s', w')
| st_read addr v s w s' w' : serial_ioport_read addr s w = (v, s', w') -> step (s, w) (s', w')
| st_receive buf s w : Forall (is_uint 8) buf -> buf <> [] -> step (s, w) (serial_receive1 buf s w, w)
| st_event e s w : step (s, w) (serial_event e s, w)
| st_timeout t s w : fifo_timeout_timer s = Some t ->
    step (s, w) (fifo_timeout_int (set_fifo_timeout_timer None s), w)
| st_transmit t s w : transmit_timer s = Some t -> step (s, w) (serial_xmit (set_transmit_timer None s) w)
| st_modem t s w : modem_status_poll s = Some t ->
    step (s, w) (serial_update_msl (set_modem_status_poll None s) w)
| st_reset s w : step (s, w) (serial_reset s w, w)
| st_world s w w' : step (s, w) (s, w').

(** The states of the ISA device from the first reset on. *)
Inductive in_service : SerialState * W -> Prop :=
| is_start w : in_service (serial_reset (serial_init 115200) w, w)
| is_step c c' : in_service c -> step c c' -> in_service c'.

Lemma step_ok c c' : step c c' -> serial_ok (fst c) -> serial_ok (fst c').
Proof.
  destruct 1 as [addr val s w s' w' Hv E|addr v s w s' w' E|buf s w Hb _|e s w|t s w E|t s w E|t s w E|s w|s w w']; cbn [fst]; intros H.
  - destruct (write_ok addr val s w H Hv) as (? & ? & E' & K & _). rewrite E' in E. by injection E as -> ->.
  - destruct (read_ok addr s w H) as (? & ? & ? & E' & K & _). rewrite E' in E. by injection E as -> -> ->.
  - by apply receive_ok, ok_good.
  - unfold serial_event. destruct (e =? CHR_EVENT_BREAK); [by apply break_ok, ok_good|done].
  - by apply timeout_ok, ok_fifo_timeout_timer.
  - destruct H as ([] & _). congruence.
  - apply msl_ok; [apply ok_modem_status_poll, H|by apply ok_modem_status_poll].
  - destruct H as ([] & _). by apply reset_ok.
  - done.
Qed.

Lemma in_service_ok c : in_service c -> serial_ok (fst c).
Proof.
  induction 1 as [w|c c' _ IH S]; [|by eapply step_ok].
  apply reset_ok; try done; try by apply is_uint_0. apply clear_ok.
Qed.

(** A serial port of the PC, from the first reset and through any
    sequence of register accesses, deliveries, breaks, timers and resets, keeps
    every register within its width and both FIFOs well formed, has nothing
    left to transmit, and its identification register and interrupt line always
    name the pending enabled condition of highest priority; and it accepts
    every byte written to every register (no divisor makes the speed zero). *)
Theorem serial_port_invariant c : in_service c ->
  serial_ok (fst c) /\
  (forall addr val, is_uint 8 val -> is_Some (serial_ioport_write addr val (fst c) (snd c))).
Proof.
  intros H. apply in_service_ok in H. split; [done|]. intros addr val Hv. destruct c as [s w].
  destruct (write_ok addr val s w H Hv) as (s' & w' & E & _). by eexists.
Qed.

(** A byte written to the transmit register of a port in service is sent
    to the character device, once and whole, and with the loop closed it
    arrives in the receiver instead and nothing is sent; either way the port is
    at once ready for the next byte. *)
Theorem serial_transmits s (w : W) val : in_service (s, w) -> is_uint 8 val -> Z.testbit (lcr s) 7 = false ->
  exists s', serial_ioport_write 0 val s w = Some (s', if loops s then w else snd (qemu_chr_write val w)) /\
    serial_ok s' /\ thr_ipending s' = 1 /\
    pending s' = if loops s then if fifo_on s then take 16 (pending s ++ [val]) else [val] else pending s.
Proof.
  intros H Hv L. apply in_service_ok in H as (R & (I1 & _) & _). cbn [fst] in *.
  destruct (write_thr_spec val s w R I1 Hv) as (s' & E & K1 & K2 & K3). exists s'.
  unfold serial_ioport_write. cbn [Z.land Z.eqb orb Pos.land]. rewrite (bit_test UART_LCR_DLAB 7), L, E by done.
  split_and!; [done|done|done|]. destruct (loops s); [done|by apply same_pending].
Qed.

(** *** Reception without loss *)

(** A driver and a device that keep to the protocol: the device delivers what
    [serial_can_receive] allows, the driver reads the receive buffer when the
    status register announces data, and meanwhile uses the other registers,
    except that the FIFO control register stays and the loop is open.  The run
    records the bytes delivered and the bytes read. *)
Inductive rx_run : SerialState * W -> list Z -> list Z -> SerialState * W -> Prop :=
| rx_done c : rx_run c [] [] c
| rx_deliver buf s w ins outs c :
    Forall (is_uint 8) buf -> buf <> [] -> Z.of_nat (length buf) <= serial_can_receive1 s ->
    rx_run (serial_receive1 buf s w, w) ins outs c -> rx_run (s, w) (buf ++ ins) outs c
| rx_fetch v s w s' w' ins outs c :
    Z.testbit (lcr s) 7 = false -> Z.testbit (lsr s) 0 = true ->
    serial_ioport_read 0 s w = (v, s', w') -> rx_run (s', w') ins outs c -> rx_run (s, w) ins (v :: outs) c
| rx_write addr val s w s' w' ins outs c :
    is_uint 8 val -> addr &. 7 <> 2 -> loops s = false ->
    serial_ioport_write addr val s w = Some (s', w') -> rx_run (s', w') ins outs c -> rx_run (s, w) ins outs c
| rx_read addr v s w s' w' ins outs c : addr &. 7 <> 0 ->
    serial_ioport_read addr s w = (v, s', w') -> rx_run (s', w') ins outs c -> rx_run (s, w) ins outs c
| rx_timeout t s w ins outs c : fifo_timeout_timer s = Some t ->
    rx_run (fifo_timeout_int (set_fifo_timeout_timer None s), w) ins outs c -> rx_run (s, w) ins outs c
| rx_modem t s w ins outs c : modem_status_poll s = Some t ->
    rx_run (serial_update_msl (set_modem_status_poll None s) w) ins outs c -> rx_run (s, w) ins outs c
| rx_world s w w' ins outs c : rx_run (s, w') ins outs c -> rx_run (s, w) ins outs c.

(** What may be delivered fits. *)
Lemma deliver_fits buf s (w : W) : serial_ok s -> dr_ok s -> Forall (is_uint 8) buf -> buf <> [] ->
  Z.of_nat (length buf) <= serial_can_receive1 s ->
  pending (serial_receive1 buf s w) = pending s ++ buf /\ dr_ok (serial_receive1 buf s w) /\
  (Z.testbit (lsr (serial_receive1 buf s w)) 1 = true -> Z.testbit (lsr s) 1 = true).
Proof.
  intros (R & _) D Hb Hn Hl. destruct (receive_shape buf s w (r_recv s R) Hb) as (T & F & -> & F1 & F2 & F3).
  pose proof (update_irq_rx (received buf T F s)) as X. pose proof (received_pending buf T F s F3) as P.
  assert (L : (0 < length buf)%nat) by (destruct buf; [done|cbn; lia]).
  assert (Q : pending (received buf T F s) = pending s ++ buf /\ Z.testbit (lsr (received buf T F s)) 0 = true /\
    (Z.testbit (lsr (received buf T F s)) 1 = true -> Z.testbit (lsr s) 1 = true)).
  { unfold serial_can_receive1, serial_can_receive, received in *. pose proof (fifo_length _ (r_recv s R)) as C.
    pose proof (r_itl s R) as IT. change (truthy (fcr s &. UART_FCR_FE)) with (fifo_on s) in *.
    destruct (fifo_on s) eqn:E.
    - assert (Fit : count (recv_fifo s) + Z.of_nat (length buf) <= 16).
      { revert Hl. change UART_FIFO_LENGTH with 16. zcases; lia. }
      rewrite P, take_ge by (rewrite length_app; unfold pending; rewrite E; lia). split; [done|].
      cbn [lsr set_fifo_timeout_timer set_recv_fifo set_lsr]. rewrite (proj2 (Z.ltb_ge 16 _) Fit), !Z.lor_spec. constbits.
      by rewrite orb_true_r, orb_false_r.
    - rewrite (bit_test UART_LSR_DR 0 (lsr s)) in Hl, P |- * by done. destruct (Z.testbit (lsr s) 0) eqn:B; cbn [of_bool negb] in Hl; [lia|]. cbn [fst] in *.
      rewrite P. unfold pending. rewrite E, B. destruct buf as [|c [|]]; cbn [length] in *; [lia| |lia].
      split; [done|]. cbn [lsr set_rbr set_lsr]. rewrite !Z.lor_spec. constbits. by rewrite orb_true_r, orb_false_r. }
  destruct Q as (Q1 & Q2 & Q3). rewrite (same_pending _ _ X). split_and!; [done| |intros K; apply Q3, (x_oe _ _ X), K].
  unfold dr_ok. rewrite (same_pending _ _ X), (x_dr _ _ X), Q1, Q2. split; [|done]. intros _ E.
  apply app_nil in E as [_ ->]. by cbn in L.
Qed.

Lemma timeout_rx s : same_rx s (fifo_timeout_int (set_fifo_timeout_timer None s)).
Proof.
  unfold fifo_timeout_int. destruct (truthy _); [|by split]. by etransitivity; [|apply update_irq_rx].
Qed.

(** C37: Bytes are neither lost, duplicated nor reordered on the way in: as
    long as the device delivers what [serial_can_receive] allows and the driver
    reads when data is announced, the bytes read are those delivered, in order,
    the rest still waiting, and no overrun is ever recorded, with the FIFOs
    enabled or not. *)
Theorem serial_receive_no_loss c ins outs c' : in_service c -> dr_ok (fst c) -> rx_run c ins outs c' ->
  pending (fst c) ++ ins = outs ++ pending (fst c') /\
  (Z.testbit (lsr (fst c')) 1 = true -> Z.testbit (lsr (fst c)) 1 = true).
Proof.
  intros H D Run. apply in_service_ok in H.
  assert (A : forall s t ins outs, same_rx s t -> pending t ++ ins = outs ++ pending (fst c') /\
    (Z.testbit (lsr (fst c')) 1 = true -> Z.testbit (lsr t) 1 = true) -> pending s ++ ins = outs ++ pending (fst c') /\
    (Z.testbit (lsr (fst c')) 1 = true -> Z.testbit (lsr s) 1 = true)).
  { intros s t ins' outs' X [A1 A2]. rewrite <- (same_pending s t X). split; [done|]. intros K. by apply (x_oe s t X), A2. }
  induction Run as [c|buf s w ins outs c Hb Hn Hl Run IH|v s w s' w' ins outs c L B E Run IH
    |addr val s w s' w' ins outs c Hv Ha Lp E Run IH|addr v s w s' w' ins outs c Ha E Run IH
    |t s w ins outs c E Run IH|t s w ins outs c E Run IH|s w w' ins outs c Run IH]; cbn [fst] in *.
  - by rewrite app_nil_r.
  - destruct (deliver_fits buf s w H D Hb Hn Hl) as (P & D' & O).
    destruct IH as [I1 I2]; [by apply receive_ok, ok_good|done|done|]. rewrite P, <- app_assoc in I1. auto.
  - revert E. unfold serial_ioport_read. cbn [Z.land Z.eqb Pos.land]. rewrite (bit_test UART_LCR_DLAB 7), L by done.
    destruct (read_rbr_ok s w H) as (v0 & s0 & w0 & -> & K & _ & K2 & K3). intros [= <- <- <-].
    destruct (K2 D) as [D' P]. destruct IH as [I1 I2]; [done|done|done|]. split; [|auto].
    rewrite (P (proj1 D B)). cbn [app]. by f_equal.
  - destruct (write_ok addr val s w H Hv) as (s0 & w0 & E' & K & X). rewrite E' in E. injection E as <- <-.
    specialize (X Ha Lp). apply (A s s0 ins outs X), IH; [done|by apply (same_dr s)|done].
  - destruct (read_ok addr s w H) as (v0 & s0 & w0 & E' & K & X). rewrite E' in E. injection E as <- <- <-.
    specialize (X (or_introl Ha)). apply (A s s0 ins outs X), IH; [done|by apply (same_dr s)|done].
  - apply (A s _ ins outs (timeout_rx s)), IH; [by apply timeout_ok, ok_fifo_timeout_timer|exact (same_dr s _ (timeout_rx s) D)|done].
  - assert (H' : serial_ok (set_modem_status_poll None s)) by (by apply ok_modem_status_poll).
    destruct (msl_ok (set_modem_status_poll None s) w (proj1 H')) as (_ & M2 & M3).
    assert (X : same_rx s (fst (serial_update_msl (set_modem_status_poll None s) w))) by (etransitivity; [|exact M3]; done).
    apply (A s _ ins outs X), IH; [by apply M2|exact (same_dr s _ X D)|done].
  - by apply IH.
Qed.

End Invariant.

(** ** Examples *)

(** A character device that records what it is sent, without modem lines. *)
Definition recorder : Type := Z * list Z.
#[export] Instance recorder_driver : CharDriver recorder := {
  clock := fst;
  qemu_chr_write c w := (1, (fst w, snd w ++ [c]));
  chr_get_tiocm w := (- ENOTSUP, 0, w);
  chr_set_tiocm _ w := w;
  chr_set_params _ w := w;
  chr_set_break _ w := w;
  qemu_chr_accept_input w := w
}.

Definition quiet : recorder := (0, []).
Definition fresh : SerialState := serial_reset (serial_init 115200) quiet.

(** The divisor at its largest and the interrupts enabled. *)
Lemma serial_port_invariant_witness :
  serial_ok fresh /\ is_Some (serial_ioport_write 1 0x0f fresh quiet).
Proof.
  destruct (serial_port_invariant (fresh, quiet) (is_start quiet)) as [H1 H2].
  split; [exact H1|]. apply (H2 1 0x0f). split; [discriminate|reflexivity].
Defined.

Lemma serial_transmits_witness :
  exists s', serial_ioport_write 0 0x41 fresh quiet = Some (s', (0, [0x41])) /\ pending s' = [].
Proof.
  destruct (serial_transmits fresh quiet 0x41 (is_start quiet)) as (s' & E & _ & _ & P);
    [split; [discriminate|reflexivity]|reflexivity|].
  exists s'. split; [exact E|exact P].
Defined.

(** Two bytes arrive one after the other and are read. *)
Definition got_a : SerialState := serial_receive1 [0x61] fresh quiet.
Definition read_a : SerialState := snd (fst (serial_ioport_read 0 got_a quiet)).

Lemma serial_receive_no_loss_witness :
  pending fresh ++ [0x61; 0x62] = [0x61] ++ pending (serial_receive1 [0x62] read_a quiet).
Proof.
  assert (B : forall c, 0 <= c < 256 -> Forall (is_uint 8) [c]).
  { intros c Hc. constructor; [exact Hc|constructor]. }
  destruct (serial_receive_no_loss (fresh, quiet) [0x61; 0x62] [0x61] (serial_receive1 [0x62] read_a quiet, quiet)) as [P _];
    [| | |exact P].
  - apply is_start.
  - split; [discriminate|]. intros H. exfalso. apply H. reflexivity.
  - apply (rx_deliver [0x61] fresh quiet [0x62]); [apply B; lia|discriminate|vm_compute; discriminate|].
    apply (rx_fetch 0x61 got_a quiet read_a quiet [0x62] []); [reflexivity|reflexivity|reflexivity|].
    apply (rx_deliver [0x62] read_a quiet []); [apply B; lia|discriminate|vm_compute; discriminate|].
    apply rx_done.
Defined.

End Serial.
