(* ===== verification/Block.v ===== *)
(** * The block layer under an image format (src/qemu/block.c)

    An image file is reached through [bdrv_pread] and [bdrv_pwrite], which
    cut a range of bytes into whole sectors and read, patch and write back the
    sectors at its ends, and through [bdrv_aio_readv] and [bdrv_aio_writev].
    Below them is the driver for plain files (src/qemu/block/raw-posix.c, without
    O_DIRECT, and the worker of src/qemu/posix-aio-compat.c), and below it the
    host: the class [HostFile] is the system calls, [RegularFile] what POSIX
    says of them for a regular file without errors.

    What an image format relies on is the class [Protocol] with the laws of
    [Reliable]: bytes written are there, no other byte of the file changes, and
    the file grows as told.  The theorems show that block.c and the raw driver
    provide it on any regular file.  A completed asynchronous request is one
    step: its result is what the callback is given.

    Not modelled here: the dirty bitmap and the statistics of a device, removable
    media, flushing (it does not change what is read). *)
From S2P Require Import Prelude.

Module Block.

(** ** The host *)

(** System calls on an open file.  A negative result is [-errno]; [os_pread]
    also returns the bytes it stored in the buffer. *)
Class HostFile (F : Type) := {
  os_pread : F -> Z -> Z -> Z * list Z;
  os_pwrite : F -> Z -> list Z -> Z * F;
  os_ftruncate : F -> Z -> Z * F;
  os_size : F -> Z
}.

Definition BDRV_SECTOR_BITS : Z := 9.
Definition BDRV_SECTOR_SIZE : Z := 1 <<. BDRV_SECTOR_BITS.

Definition EIO : Z := 5.
Definition EACCES : Z := 13.
Definition EBUSY : Z := 16.
Definition EINVAL : Z := 22.

(** The device of a protocol: an open file with its flags. *)
Record BlockDriverState (F : Type) := mkBS {
  growable : bool;
  read_only : bool;
  in_use : bool;
  total_sectors : Z;
  opaque : F
}.
Arguments mkBS {F}.
Arguments growable {F}.
Arguments read_only {F}.
Arguments in_use {F}.
Arguments total_sectors {F}.
Arguments opaque {F}.

Definition set_opaque {F} (f : F) (bs : BlockDriverState F) : BlockDriverState F :=
  mkBS (growable bs) (read_only bs) (in_use bs) (total_sectors bs) f.
Definition set_total_sectors {F} (n : Z) (bs : BlockDriverState F) : BlockDriverState F :=
  mkBS (growable bs) (read_only bs) (in_use bs) n (opaque bs).

(** The bytes [bs] stored at the start of a buffer. *)
Definition fill (bs buf : list Z) : list Z := bs ++ drop (length bs) buf.

Definition Zlength (l : list Z) : Z := Z.of_nat (length l).

Section Raw.

Context {F : Type} {host : HostFile F}.

(** What a local array holds before anything is stored in it. *)
Context (uninit : list Z).

(** ** The driver for files *)

Definition raw_getlength (bs : BlockDriverState F) : Z := os_size (opaque bs).

Definition raw_pread_aligned (bs : BlockDriverState F) (offset : Z) (buf : list Z) (count : Z) : Z * list Z :=
  let '(ret, data) := os_pread (opaque bs) offset count in
  let buf := fill data buf in
  if ret =? count then (ret, buf)
  else if (ret =? 0) && growable bs && (raw_getlength bs <=? offset) then
    (count, fill (replicate (Z.to_nat count) 0) buf)
  else (ret, buf).

Definition raw_pwrite_aligned (bs : BlockDriverState F) (offset : Z) (buf : list Z) : Z * BlockDriverState F :=
  let '(ret, f) := os_pwrite (opaque bs) offset buf in (ret, set_opaque f bs).

Definition raw_pread := raw_pread_aligned.
Definition raw_pwrite := raw_pwrite_aligned.

Definition raw_read (bs : BlockDriverState F) (sector_num : Z) (buf : list Z) (nb_sectors : Z) : Z * list Z :=
  let '(ret, buf) := raw_pread bs (sector_num * BDRV_SECTOR_SIZE) buf (nb_sectors * BDRV_SECTOR_SIZE) in
  (if ret =? nb_sectors * BDRV_SECTOR_SIZE then 0 else ret, buf).

Definition raw_write (bs : BlockDriverState F) (sector_num : Z) (buf : list Z) (nb_sectors : Z) : Z * BlockDriverState F :=
  let '(ret, bs) := raw_pwrite bs (sector_num * BDRV_SECTOR_SIZE) (take (Z.to_nat (nb_sectors * BDRV_SECTOR_SIZE)) buf) in
  (if ret =? nb_sectors * BDRV_SECTOR_SIZE then 0 else ret, bs).

Definition raw_truncate (bs : BlockDriverState F) (offset : Z) : Z * BlockDriverState F :=
  let '(ret, f) := os_ftruncate (opaque bs) offset in (ret, set_opaque f bs).

(** The worker: it reads or writes on until the request is complete, an error
    occurs or nothing more comes.  The fuel is the number of bytes left, since
    each round moves at least one. *)
Fixpoint aio_read_loop (fuel : nat) (f : F) (aio_offset : Z) (offset : Z) (buf : list Z) : Z * list Z :=
  match fuel with
  | O => (offset, buf)
  | S fuel' =>
      if offset <? Zlength buf then
        let '(len, data) := os_pread f (aio_offset + offset) (Zlength buf - offset) in
        if len <? 0 then (len, buf)
        else if len =? 0 then (offset, buf)
        else aio_read_loop fuel' f aio_offset (offset + len) (awrite buf offset data)
      else (offset, buf)
  end.

Fixpoint aio_write_loop (fuel : nat) (f : F) (aio_offset : Z) (offset : Z) (buf : list Z) : Z * F :=
  match fuel with
  | O => (offset, f)
  | S fuel' =>
      if offset <? Zlength buf then
        let '(len, f) := os_pwrite f (aio_offset + offset) (drop (Z.to_nat offset) buf) in
        if len <? 0 then (len, f)
        else if len =? 0 then (offset, f)
        else aio_write_loop fuel' f aio_offset (offset + len) buf
      else (offset, f)
  end.

(** What the callback is given. *)
Definition aio_result (ret nbytes : Z) : Z :=
  if 0 <=? ret then if ret =? nbytes then 0 else - EINVAL else ret.

Definition raw_aio_readv (bs : BlockDriverState F) (sector_num : Z) (buf : list Z) : Z * list Z :=
  let '(ret, buf') := aio_read_loop (length buf) (opaque bs) (sector_num * 512) 0 buf in
  (aio_result ret (Zlength buf), buf').

Definition raw_aio_writev (bs : BlockDriverState F) (sector_num : Z) (buf : list Z) : Z * BlockDriverState F :=
  let '(ret, f) := aio_write_loop (length buf) (opaque bs) (sector_num * 512) 0 buf in
  (aio_result ret (Zlength buf), set_opaque f bs).

(** ** block.c *)

Definition bdrv_getlength (bs : BlockDriverState F) : Z :=
  if negb (growable bs) then total_sectors bs * BDRV_SECTOR_SIZE else raw_getlength bs.

Definition bdrv_check_byte_request (bs : BlockDriverState F) (offset size : Z) : Z :=
  if growable bs then 0
  else
    let len := bdrv_getlength bs in
    if offset <? 0 then - EIO
    else if (len <? offset) || (len - offset <? size) then - EIO
    else 0.

Definition bdrv_check_request (bs : BlockDriverState F) (sector_num nb_sectors : Z) : Z :=
  bdrv_check_byte_request bs (sector_num * BDRV_SECTOR_SIZE) (nb_sectors * BDRV_SECTOR_SIZE).

Definition bdrv_read (bs : BlockDriverState F) (sector_num : Z) (buf : list Z) (nb_sectors : Z) : Z * list Z :=
  if truthy (bdrv_check_request bs sector_num nb_sectors) then (- EIO, buf)
  else raw_read bs sector_num buf nb_sectors.

Definition bdrv_write (bs : BlockDriverState F) (sector_num : Z) (buf : list Z) (nb_sectors : Z) : Z * BlockDriverState F :=
  if read_only bs then (- EACCES, bs)
  else if truthy (bdrv_check_request bs sector_num nb_sectors) then (- EIO, bs)
  else raw_write bs sector_num buf nb_sectors.

(** The number of bytes of a range before the first sector boundary. *)
Definition head_len (offset count : Z) : Z :=
  let len := (BDRV_SECTOR_SIZE - offset) &. (BDRV_SECTOR_SIZE - 1) in
  if count <? len then count else len.

(** The sectors "in place" and the last one, from position [pos] of the buffer on. *)
Definition pread_rest (bs : BlockDriverState F) (sector_num : Z) (buf : list Z) (pos count1 : Z) : Z * list Z :=
  let count := count1 - pos in
  let nb_sectors := count >>. BDRV_SECTOR_BITS in
  let len := nb_sectors <<. BDRV_SECTOR_BITS in
  let '(ret, buf) :=
    if 0 <? nb_sectors then
      let '(ret, data) := bdrv_read bs sector_num (aread buf pos (Z.to_nat len)) nb_sectors in
      (ret, awrite buf pos data)
    else (0, buf) in
  if ret <? 0 then (ret, buf)
  else
    let count := count - len in
    if 0 <? count then
      let '(ret, tmp_buf) := bdrv_read bs (sector_num + nb_sectors) uninit 1 in
      if ret <? 0 then (ret, buf) else (count1, awrite buf (pos + len) (take (Z.to_nat count) tmp_buf))
    else (count1, buf).

Definition bdrv_pread (bs : BlockDriverState F) (offset : Z) (buf : list Z) : Z * list Z :=
  let count1 := Zlength buf in
  let len := head_len offset count1 in
  let sector_num := offset >>. BDRV_SECTOR_BITS in
  if 0 <? len then
    let '(ret, tmp_buf) := bdrv_read bs sector_num uninit 1 in
    if ret <? 0 then (ret, buf)
    else
      let buf := awrite buf 0 (aread tmp_buf (offset &. (BDRV_SECTOR_SIZE - 1)) (Z.to_nat len)) in
      if count1 - len =? 0 then (count1, buf) else pread_rest bs (sector_num + 1) buf len count1
  else pread_rest bs sector_num buf 0 count1.

(** One sector read, patched at [pos] and written back. *)
Definition patch_sector (bs : BlockDriverState F) (sector_num pos : Z) (data : list Z) : Z * BlockDriverState F :=
  let '(ret, tmp_buf) := bdrv_read bs sector_num uninit 1 in
  if ret <? 0 then (ret, bs) else bdrv_write bs sector_num (awrite tmp_buf pos data) 1.

Definition pwrite_rest (bs : BlockDriverState F) (sector_num : Z) (buf : list Z) (count1 : Z) : Z * BlockDriverState F :=
  let count := Zlength buf in
  let nb_sectors := count >>. BDRV_SECTOR_BITS in
  let len := nb_sectors <<. BDRV_SECTOR_BITS in
  let '(ret, bs) := if 0 <? nb_sectors then bdrv_write bs sector_num buf nb_sectors else (0, bs) in
  if ret <? 0 then (ret, bs)
  else
    let buf := drop (Z.to_nat len) buf in
    let count := count - len in
    if 0 <? count then
      let '(ret, bs) := patch_sector bs (sector_num + nb_sectors) 0 buf in
      (if ret <? 0 then ret else count1, bs)
    else (count1, bs).

Definition bdrv_pwrite (bs : BlockDriverState F) (offset : Z) (buf : list Z) : Z * BlockDriverState F :=
  let count1 := Zlength buf in
  let len := head_len offset count1 in
  let sector_num := offset >>. BDRV_SECTOR_BITS in
  if 0 <? len then
    let '(ret, bs) := patch_sector bs sector_num (offset &. (BDRV_SECTOR_SIZE - 1)) (take (Z.to_nat len) buf) in
    if ret <? 0 then (ret, bs)
    else if count1 - len =? 0 then (count1, bs)
    else pwrite_rest bs (sector_num + 1) (drop (Z.to_nat len) buf) count1
  else pwrite_rest bs sector_num buf count1.

Definition bdrv_pwrite_sync (bs : BlockDriverState F) (offset : Z) (buf : list Z) : Z * BlockDriverState F :=
  let '(ret, bs) := bdrv_pwrite bs offset buf in (if ret <? 0 then ret else 0, bs).

Definition bdrv_write_sync (bs : BlockDriverState F) (sector_num : Z) (buf : list Z) : Z * BlockDriverState F :=
  bdrv_pwrite_sync bs (BDRV_SECTOR_SIZE * sector_num) buf.

Definition refresh_total_sectors (bs : BlockDriverState F) : Z * BlockDriverState F :=
  let length := raw_getlength bs in
  if length <? 0 then (length, bs) else (0, set_total_sectors (length >>. BDRV_SECTOR_BITS) bs).

Definition bdrv_truncate (bs : BlockDriverState F) (offset : Z) : Z * BlockDriverState F :=
  if read_only bs then (- EACCES, bs)
  else if in_use bs then (- EBUSY, bs)
  else
    let '(ret, bs) := raw_truncate bs offset in
    if ret =? 0 then refresh_total_sectors bs else (ret, bs).

(** [None]: no request was made (NULL). *)
Definition bdrv_aio_readv (bs : BlockDriverState F) (sector_num : Z) (buf : list Z) : option (Z * list Z) :=
  if truthy (bdrv_check_request bs sector_num (Zlength buf / 512)) then None
  else Some (raw_aio_readv bs sector_num buf).

Definition bdrv_aio_writev (bs : BlockDriverState F) (sector_num : Z) (buf : list Z) : option (Z * BlockDriverState F) :=
  if read_only bs then None
  else if truthy (bdrv_check_request bs sector_num (Zlength buf / 512)) then None
  else Some (raw_aio_writev bs sector_num buf).

End Raw.

(** ** Promises *)

(** What POSIX says of the calls on a regular file when nothing fails: [hlen]
    is the length and [hbyte] the contents. *)
Class RegularFile (F : Type) {host : HostFile F} := {
  hlen : F -> Z;
  hbyte : F -> Z -> Z;
  hlen_nonneg f : 0 <= hlen f;
  hbyte_u8 f i : is_uint 8 (hbyte f i);
  os_size_ok f : os_size f = hlen f;
  os_pread_ok f off n : 0 <= off -> 0 <= n ->
    os_pread f off n = (Z.max 0 (Z.min n (hlen f - off)),
                        window (hbyte f) off (Z.to_nat (Z.min n (hlen f - off))));
  os_pwrite_ok f off bs : 0 <= off -> bs <> [] -> Forall (is_uint 8) bs ->
    exists f', os_pwrite f off bs = (Zlength bs, f') /\ hlen f' = Z.max (hlen f) (off + Zlength bs) /\
      forall i, 0 <= i -> hbyte f' i = if (off <=? i) && (i <? off + Zlength bs) then aget bs (i - off)
                                      else if i <? hlen f then hbyte f i else 0;
  os_ftruncate_ok f n : 0 <= n ->
    exists f', os_ftruncate f n = (0, f') /\ hlen f' = n /\
      forall i, 0 <= i < n -> hbyte f' i = if i <? hlen f then hbyte f i else 0
}.

(** What an image format calls of the file below it. *)
Class Protocol (F : Type) := {
  file_pread : F -> Z -> list Z -> Z * list Z;
  file_pwrite : F -> Z -> list Z -> Z * F;
  file_pwrite_sync : F -> Z -> list Z -> Z * F;
  file_getlength : F -> Z;
  file_truncate : F -> Z -> Z * F;
  file_aio_readv : F -> Z -> list Z -> option (Z * list Z);
  file_aio_writev : F -> Z -> list Z -> option (Z * F)
}.

(** The bytes [bs] were stored at [off]: they are there, the other bytes of the
    file are as before, and the file is as long as it must be, up to the end of
    the last sector. *)
Record stored {F} (len : F -> Z) (byte : F -> Z -> Z) (f f' : F) (off : Z) (bs : list Z) : Prop := {
  st_new i : off <= i < off + Zlength bs -> byte f' i = aget bs (i - off);
  st_old i : 0 <= i < len f -> i < off \/ off + Zlength bs <= i -> byte f' i = byte f i;
  st_len : Z.max (len f) (off + Zlength bs) <= len f' <= Z.max (len f) (off + Zlength bs + 511)
}.

(** The laws of a file that works. *)
Class Reliable (F : Type) {proto : Protocol F} := {
  flen : F -> Z;
  fbyte : F -> Z -> Z;
  flen_nonneg f : 0 <= flen f;
  fbyte_u8 f i : is_uint 8 (fbyte f i);
  file_ok : F -> Prop;
  file_getlength_ok f : file_ok f -> file_getlength f = flen f;
  file_pread_ok f off buf : file_ok f -> 0 <= off -> off + Zlength buf <= flen f ->
    file_pread f off buf = (Zlength buf, window (fbyte f) off (length buf));
  file_pwrite_ok f off bs : file_ok f -> 0 <= off -> bs <> [] -> Forall (is_uint 8) bs ->
    exists f', file_pwrite f off bs = (Zlength bs, f') /\ file_ok f' /\ stored flen fbyte f f' off bs;
  file_pwrite_sync_ok f off bs : file_ok f -> 0 <= off -> bs <> [] -> Forall (is_uint 8) bs ->
    exists f', file_pwrite_sync f off bs = (0, f') /\ file_ok f' /\ stored flen fbyte f f' off bs;
  file_truncate_ok f n : file_ok f -> 0 <= n ->
    exists f', file_truncate f n = (0, f') /\ file_ok f' /\ flen f' = n /\
      forall i, 0 <= i < n -> fbyte f' i = if i <? flen f then fbyte f i else 0;
  file_aio_readv_ok f sector buf : file_ok f -> 0 <= sector -> sector * 512 + Zlength buf <= flen f ->
    file_aio_readv f sector buf = Some (0, window (fbyte f) (sector * 512) (length buf));
  file_aio_writev_ok f sector bs : file_ok f -> 0 <= sector -> bs <> [] -> Forall (is_uint 8) bs ->
    exists f', file_aio_writev f sector bs = Some (0, f') /\ file_ok f' /\ stored flen fbyte f f' (sector * 512) bs
}.

(** ** Sectors of a regular file *)

Lemma aget_byte l i : Forall (is_uint 8) l -> is_uint 8 (aget l i).
Proof.
  intros H. unfold aget. destruct (nth_in_or_default (Z.to_nat i) l 0) as [Hin| ->]; [|by apply is_uint_0].
  by eapply List.Forall_forall in Hin; [|exact H].
Qed.

Lemma awrite_byte data : forall buf o, Forall (is_uint 8) buf -> Forall (is_uint 8) data -> Forall (is_uint 8) (awrite buf o data).
Proof.
  induction data as [|b data IH]; intros buf o Hb Hd; [done|]. apply Forall_cons_1 in Hd as [H1 H2].
  cbn [awrite]. apply IH; [|done]. by apply Forall_insert.
Qed.

Lemma aget_fill data buf i : 0 <= i ->
  aget (fill data buf) i = if i <? Zlength data then aget data i else aget buf i.
Proof.
  intros Hi. unfold fill, aget, Zlength. destruct (Z.ltb_spec i (Z.of_nat (length data))).
  - by rewrite app_nth1 by lia.
  - rewrite app_nth2 by lia. rewrite !nth_lookup, lookup_drop. do 2 f_equal. lia.
Qed.

Lemma length_fill data buf : (length data <= length buf)%nat -> length (fill data buf) = length buf.
Proof. intros H. unfold fill. rewrite length_app, length_drop. lia. Qed.

Lemma fill_bytes data buf : Forall (is_uint 8) data -> Forall (is_uint 8) buf -> Forall (is_uint 8) (fill data buf).
Proof. intros H1 H2. apply Forall_app. split; [done|by apply Forall_drop]. Qed.

Lemma aget_app a b i : 0 <= i -> aget (a ++ b) i = if i <? Zlength a then aget a i else aget b (i - Zlength a).
Proof.
  intros Hi. unfold aget, Zlength. destruct (Z.ltb_spec i (Z.of_nat (length a))).
  - by rewrite app_nth1 by lia.
  - rewrite app_nth2 by lia. f_equal. lia.
Qed.

Lemma Zlength_app a b : Zlength (a ++ b) = Zlength a + Zlength b.
Proof. unfold Zlength. rewrite length_app. lia. Qed.

Section Stored.

Context {F : Type} (len : F -> Z) (byte : F -> Z -> Z).

(** Two pieces stored one after the other are one. *)
Lemma stored_app f f1 f2 off a b : 0 <= off ->
  stored len byte f f1 off a -> stored len byte f1 f2 (off + Zlength a) b -> stored len byte f f2 off (a ++ b).
Proof.
  intros Ho [A1 A2 A3] [B1 B2 B3]. assert (0 <= Zlength a) by (unfold Zlength; lia). assert (0 <= Zlength b) by (unfold Zlength; lia).
  constructor; rewrite ?Zlength_app.
  - intros i Hi. rewrite aget_app by lia. destruct (Z.ltb_spec (i - off) (Zlength a)).
    + rewrite B2, A1 by lia. done.
    + rewrite B1 by lia. f_equal. lia.
  - intros i Hi Hout. rewrite B2, A2 by lia. done.
  - lia.
Qed.

Lemma stored_nil f off : 0 <= off <= len f -> stored len byte f f off [].
Proof. intros Ho. constructor; unfold Zlength; cbn [length]; [lia|done|lia]. Qed.

End Stored.

Section Provided.

Context {F : Type} {host : HostFile F} {reg : RegularFile F}.
Context (uninit : list Z) (Hlen : length uninit = 512%nat) (Hbytes : Forall (is_uint 8) uninit).

(** A file opened for an image. *)
Definition opened (bs : BlockDriverState F) : Prop :=
  growable bs = true /\ read_only bs = false /\ in_use bs = false.

Definition blen (bs : BlockDriverState F) : Z := hlen (opaque bs).
Definition bbyte (bs : BlockDriverState F) (i : Z) : Z := hbyte (opaque bs) i.

(** The bytes of sectors from [s] on that lie in the file. *)
Lemma bdrv_read_ok bs s nb buf : opened bs -> 0 <= s -> 0 < nb -> Zlength buf = 512 * nb ->
  exists ret data, bdrv_read bs s buf nb = (ret, data) /\ 0 <= ret /\ Zlength data = 512 * nb /\
    (Forall (is_uint 8) buf -> Forall (is_uint 8) data) /\
    forall i, 0 <= i < 512 * nb -> s * 512 + i < blen bs -> aget data i = bbyte bs (s * 512 + i).
Proof.
  intros (G & _ & _) Hs Hn Hl. unfold bdrv_read, bdrv_check_request, bdrv_check_byte_request. rewrite G. cbn [truthy Z.eqb negb].
  unfold raw_read, raw_pread, raw_pread_aligned. change BDRV_SECTOR_SIZE with 512. rewrite os_pread_ok by lia.
  set (k := Z.min (nb * 512) (hlen (opaque bs) - s * 512)). pose proof (hlen_nonneg (opaque bs)). unfold Zlength in *.
  set (d := window (hbyte (opaque bs)) (s * 512) (Z.to_nat k)).
  assert (Ld : length d = Z.to_nat k) by apply length_window.
  assert (D : Forall (is_uint 8) d) by (apply window_Forall, hbyte_u8).
  assert (Lf : length (fill d buf) = length buf) by (apply length_fill; lia).
  assert (V : forall i, 0 <= i < 512 * nb -> s * 512 + i < blen bs -> aget (fill d buf) i = bbyte bs (s * 512 + i)).
  { intros i Hi Hin. unfold blen in Hin. rewrite aget_fill by lia. unfold Zlength.
    destruct (Z.ltb_spec i (Z.of_nat (length d))); [|lia]. subst d. by rewrite aget_window by lia. }
  pose proof (fill_bytes d buf D).
  destruct (Z.eqb_spec (Z.max 0 k) (nb * 512)) as [E|E].
  { eexists _, _. split; [reflexivity|]. split; [rewrite E, Z.eqb_refl; done|]. split_and!; [lia|done|done]. }
  rewrite G, andb_true_r. unfold raw_getlength. rewrite os_size_ok.
  destruct ((Z.max 0 k =? 0) && (hlen (opaque bs) <=? s * 512)) eqn:Z0.
  - apply andb_prop in Z0 as [_ Z0]. apply Z.leb_le in Z0. rewrite Z.eqb_refl. eexists _, _. split; [reflexivity|].
    split; [done|]. rewrite length_fill by (rewrite length_replicate; lia). split_and!; [lia| |].
    + intros Hb. apply fill_bytes; [|by apply fill_bytes]. apply Forall_replicate. by apply is_uint_0.
    + intros i Hi Hin. unfold blen in Hin. lia.
  - eexists _, _. split; [reflexivity|]. rewrite (proj2 (Z.eqb_neq _ _) E). split_and!; [lia|lia|done|done].
Qed.

Lemma bdrv_write_ok bs s nb buf : opened bs -> 0 <= s -> 0 < nb -> 512 * nb <= Zlength buf -> Forall (is_uint 8) buf ->
  exists bs', bdrv_write bs s buf nb = (0, bs') /\ opened bs' /\ blen bs' = Z.max (blen bs) (s * 512 + 512 * nb) /\
    forall i, 0 <= i -> bbyte bs' i = if (s * 512 <=? i) && (i <? s * 512 + 512 * nb) then aget buf (i - s * 512)
                                     else if i <? blen bs then bbyte bs i else 0.
Proof.
  intros (G & RO & U) Hs Hn Hl Hb. unfold bdrv_write, bdrv_check_request, bdrv_check_byte_request. rewrite RO, G.
  cbn [truthy Z.eqb negb]. unfold raw_write, raw_pwrite, raw_pwrite_aligned. change BDRV_SECTOR_SIZE with 512.
  set (d := take (Z.to_nat (nb * 512)) buf). unfold Zlength in *.
  assert (Ld : length d = Z.to_nat (512 * nb)) by (subst d; rewrite length_take; lia).
  destruct (os_pwrite_ok (opaque bs) (s * 512) d) as (f' & -> & L & V); [lia|by destruct d; cbn in Ld; [lia|]|by apply Forall_take|].
  unfold Zlength in *. rewrite Ld in *. eexists. rewrite (proj2 (Z.eqb_eq _ _)) by lia.
  split; [reflexivity|]. split; [by split_and!|]. unfold blen, bbyte. cbn [opaque set_opaque]. split; [lia|].
  intros i Hi. rewrite V by lia. subst d. zcases; rewrite ?aget_take by lia; done.
Qed.

(** Whole sectors are stored. *)
Lemma bdrv_write_stored bs s buf nb : opened bs -> 0 <= s -> 0 < nb -> 512 * nb <= Zlength buf -> Forall (is_uint 8) buf ->
  exists bs', bdrv_write bs s buf nb = (0, bs') /\ opened bs' /\
    stored blen bbyte bs bs' (s * 512) (take (Z.to_nat (512 * nb)) buf).
Proof.
  intros O Hs Hn Hl Hb. destruct (bdrv_write_ok bs s nb buf O Hs Hn Hl Hb) as (bs' & E & O' & L & V).
  exists bs'. split_and!; [done|done|]. unfold Zlength in *.
  assert (T : Z.of_nat (length (take (Z.to_nat (512 * nb)) buf)) = 512 * nb) by (rewrite length_take; lia).
  constructor; unfold Zlength; rewrite ?T.
  - intros i Hi. rewrite V by lia. zcases; by rewrite aget_take by lia.
  - intros i Hi Hout. rewrite V by lia. zcases; done.
  - lia.
Qed.

(** A range inside one sector. *)
Lemma patch_sector_ok bs s pos data : opened bs -> 0 <= s -> 0 <= pos -> data <> [] -> pos + Zlength data <= 512 ->
  Forall (is_uint 8) data ->
  exists bs', patch_sector uninit bs s pos data = (0, bs') /\ opened bs' /\ stored blen bbyte bs bs' (s * 512 + pos) data.
Proof.
  intros O Hs Hp Hd Hl Hb. unfold patch_sector.
  destruct (bdrv_read_ok bs s 1 uninit O Hs ltac:(lia)) as (ret & t & -> & R & Lt & Bt & V); [by unfold Zlength; rewrite Hlen|]. specialize (Bt Hbytes).
  rewrite (proj2 (Z.ltb_ge ret 0)) by done. unfold Zlength in *.
  assert (Bw : Forall (is_uint 8) (awrite t pos data)).
  { by apply awrite_byte. }
  destruct (bdrv_write_ok bs s 1 (awrite t pos data) O Hs) as (bs' & E & O' & L & W); [lia|unfold Zlength; rewrite length_awrite; lia|done|].
  exists bs'. split_and!; [done|done|]. assert (0 < length data)%nat by (destruct data; [done|cbn; lia]).
  constructor; unfold Zlength.
  - intros i Hi. rewrite W by lia. zcases; rewrite aget_awrite by lia; zcases; f_equal; lia.
  - intros i Hi Hout. rewrite W by lia. zcases; try done; rewrite aget_awrite by lia;
      (destruct ((pos <=? i - s * 512) && (i - s * 512 <? pos + Z.of_nat (length data))) eqn:Z0; [lia|]);
      rewrite V by lia; f_equal; lia.
  - lia.
Qed.

(** ** Ranges of bytes *)

Lemma shift_sector x : x >>. BDRV_SECTOR_BITS = x / 512.
Proof. apply (Z.shiftr_div_pow2 x 9). lia. Qed.

Lemma unshift_sector x : x <<. BDRV_SECTOR_BITS = x * 512.
Proof. apply (Z.shiftl_mul_pow2 x 9). lia. Qed.

Lemma mask_sector x : x &. (BDRV_SECTOR_SIZE - 1) = x mod 512.
Proof. apply (Z.land_ones x 9). lia. Qed.

Lemma head_len_spec off count : 0 <= off -> 0 <= count -> head_len off count = Z.min count ((512 - off) mod 512).
Proof. intros. unfold head_len. rewrite mask_sector. change BDRV_SECTOR_SIZE with 512. zcases; lia. Qed.

Lemma pwrite_rest_ok bs s buf c : opened bs -> 0 <= s -> 0 <= c -> buf <> [] -> Forall (is_uint 8) buf ->
  exists bs', pwrite_rest uninit bs s buf c = (c, bs') /\ opened bs' /\ stored blen bbyte bs bs' (s * 512) buf.
Proof.
  intros O Hs Hc Hn Hb. unfold pwrite_rest. cbv zeta. rewrite shift_sector, unshift_sector.
  assert (L : 0 < Zlength buf) by (unfold Zlength; destruct buf; [done|cbn; lia]).
  set (nb := Zlength buf / 512). assert (N : 0 <= nb /\ nb * 512 <= Zlength buf < nb * 512 + 512) by (subst nb; dlia).
  assert (W : exists bs1, (if 0 <? nb then bdrv_write bs s buf nb else (0, bs)) = (0, bs1) /\ opened bs1 /\
    (0 < nb -> stored blen bbyte bs bs1 (s * 512) (take (Z.to_nat (nb * 512)) buf)) /\ (nb = 0 -> bs1 = bs)).
  { destruct (Z.ltb_spec 0 nb); [|by exists bs; split_and!; [..|lia|]].
    destruct (bdrv_write_stored bs s buf nb) as (bs1 & E & O1 & S); [done|lia|lia|lia|done|].
    exists bs1. replace (nb * 512) with (512 * nb) by lia. split_and!; [done|done|done|lia]. }
  destruct W as (bs1 & -> & O1 & W1 & W0). cbn [Z.ltb Z.compare].
  set (tl := drop (Z.to_nat (nb * 512)) buf). assert (T : Zlength tl = Zlength buf - nb * 512).
  { subst tl. unfold Zlength in *. rewrite length_drop. lia. }
  destruct (Z.ltb_spec 0 (Zlength buf - nb * 512)).
  - destruct (patch_sector_ok bs1 (s + nb) 0 tl O1) as (bs2 & -> & O2 & S2);
      [lia|lia|intros E; rewrite E in T; unfold Zlength in *; cbn [length] in T; lia|lia|by apply Forall_drop|].
    cbn [Z.ltb Z.compare]. exists bs2. split_and!; [done|done|]. destruct (Z.eq_dec nb 0) as [E|E].
    + assert (T0 : tl = buf) by (subst tl; by rewrite E). rewrite T0, (W0 E), E in S2.
      by replace (s * 512) with ((s + 0) * 512 + 0) by lia.
    + rewrite <- (take_drop (Z.to_nat (nb * 512)) buf). eapply stored_app; [lia|apply W1; lia|].
      replace (s * 512 + Zlength (take (Z.to_nat (nb * 512)) buf)) with ((s + nb) * 512 + 0); [done|].
      unfold Zlength in *. rewrite length_take. lia.
  - exists bs1. split_and!; [done|done|]. specialize (W1 ltac:(lia)).
    rewrite take_ge in W1 by (unfold Zlength in *; lia). done.
Qed.

Lemma bdrv_pwrite_ok bs off buf : opened bs -> 0 <= off -> buf <> [] -> Forall (is_uint 8) buf ->
  exists bs', bdrv_pwrite uninit bs off buf = (Zlength buf, bs') /\ opened bs' /\ stored blen bbyte bs bs' off buf.
Proof.
  intros O Ho Hn Hb. assert (L : 0 < Zlength buf) by (unfold Zlength; destruct buf; [done|cbn; lia]).
  unfold bdrv_pwrite. cbv zeta. rewrite head_len_spec, shift_sector, mask_sector by lia.
  set (h := Z.min (Zlength buf) ((512 - off) mod 512)). assert (Hh : 0 <= h <= Zlength buf) by (subst h; dlia).
  destruct (Z.ltb_spec 0 h) as [P|P].
  - destruct (patch_sector_ok bs (off / 512) (off mod 512) (take (Z.to_nat h) buf) O) as (bs1 & -> & O1 & S1);
      [dlia|dlia| | |by apply Forall_take|].
    { intros E. apply (f_equal length) in E. rewrite length_take in E. cbn in E. unfold Zlength in *. lia. }
    { unfold Zlength at 1. rewrite length_take. unfold Zlength in *. subst h. dlia. }
    cbn [Z.ltb Z.compare]. replace (off / 512 * 512 + off mod 512) with off in S1 by dlia.
    destruct (Z.eqb_spec (Zlength buf - h) 0) as [E|E].
    + exists bs1. split_and!; [done|done|]. rewrite take_ge in S1 by (unfold Zlength in *; lia). done.
    + destruct (pwrite_rest_ok bs1 (off / 512 + 1) (drop (Z.to_nat h) buf) (Zlength buf) O1) as (bs2 & -> & O2 & S2);
        [dlia|lia| |by apply Forall_drop|].
      { intros E'. apply (f_equal length) in E'. rewrite length_drop in E'. cbn in E'. unfold Zlength in *. lia. }
      exists bs2. split_and!; [done|done|]. rewrite <- (take_drop (Z.to_nat h) buf). eapply stored_app; [lia|exact S1|].
      replace (off + Zlength (take (Z.to_nat h) buf)) with ((off / 512 + 1) * 512); [done|].
      unfold Zlength in *. rewrite length_take. subst h. dlia.
  - destruct (pwrite_rest_ok bs (off / 512) buf (Zlength buf) O) as (bs2 & -> & O2 & S2); [dlia|lia|done|done|].
    exists bs2. split_and!; [done|done|]. replace (off / 512 * 512) with off in S2; [done|]. subst h. clear - P L Ho. dlia.
Qed.

Lemma pread_rest_ok bs s buf pos : opened bs -> 0 <= s -> 0 <= pos <= Zlength buf ->
  s * 512 + (Zlength buf - pos) <= blen bs ->
  exists buf', pread_rest uninit bs s buf pos (Zlength buf) = (Zlength buf, buf') /\ Zlength buf' = Zlength buf /\
    forall i, 0 <= i < Zlength buf -> aget buf' i = if i <? pos then aget buf i else bbyte bs (s * 512 + (i - pos)).
Proof.
  intros O Hs Hp Hl. unfold pread_rest. cbv zeta. rewrite shift_sector, unshift_sector.
  set (n := Zlength buf - pos) in *. set (nb := n / 512). assert (N : 0 <= nb /\ nb * 512 <= n < nb * 512 + 512) by (subst nb; dlia).
  assert (W : exists ret b1, (if 0 <? nb then
      let '(ret, data) := bdrv_read bs s (aread buf pos (Z.to_nat (nb * 512))) nb in (ret, awrite buf pos data)
      else (0, buf)) = (ret, b1) /\ 0 <= ret /\ length b1 = length buf /\
      forall i, 0 <= i < pos + nb * 512 -> aget b1 i = if i <? pos then aget buf i else bbyte bs (s * 512 + (i - pos))).
  { destruct (Z.ltb_spec 0 nb).
    - destruct (bdrv_read_ok bs s nb (aread buf pos (Z.to_nat (nb * 512))) O) as (ret & d & -> & R & Ld & _ & V);
        [lia|lia|unfold Zlength; rewrite length_aread; lia|].
      eexists _, _. split; [reflexivity|]. split_and!; [done|by rewrite length_awrite|]. unfold Zlength in *.
      intros i Hi. rewrite aget_awrite by lia. zcases; try done. by rewrite V by lia.
    - exists 0, buf. split_and!; [done|done|done|]. intros i Hi. by zcases. }
  destruct W as (ret & b1 & -> & R & L1 & W). rewrite (proj2 (Z.ltb_ge ret 0)) by done. unfold Zlength in *.
  destruct (Z.ltb_spec 0 (n - nb * 512)).
  - destruct (bdrv_read_ok bs (s + nb) 1 uninit O) as (ret2 & t & -> & R2 & Lt & _ & V); [lia|lia|by unfold Zlength; rewrite Hlen|].
    rewrite (proj2 (Z.ltb_ge ret2 0)) by done. eexists. split; [reflexivity|]. rewrite length_awrite. split; [by rewrite L1|].
    assert (LT : Z.of_nat (length (take (Z.to_nat (n - nb * 512)) t)) = n - nb * 512).
    { rewrite length_take. unfold Zlength in Lt. lia. }
    intros i Hi. rewrite aget_awrite by lia. rewrite LT.
    destruct ((pos + nb * 512 <=? i) && (i <? pos + nb * 512 + (n - nb * 512))) eqn:C.
    + rewrite aget_take, V by lia. zcases. f_equal. lia.
    + by rewrite W by lia.
  - exists b1. split_and!; [done|by rewrite L1|]. intros i Hi. by rewrite W by lia.
Qed.

Lemma bdrv_pread_ok bs off buf : opened bs -> 0 <= off -> off + Zlength buf <= blen bs ->
  bdrv_pread uninit bs off buf = (Zlength buf, window (bbyte bs) off (length buf)).
Proof.
  intros O Ho Hl. unfold bdrv_pread. cbv zeta.
  assert (L : 0 <= Zlength buf) by (unfold Zlength; lia). rewrite head_len_spec, shift_sector, mask_sector by lia.
  set (h := Z.min (Zlength buf) ((512 - off) mod 512)). assert (Hh : 0 <= h <= Zlength buf) by (subst h; dlia).
  assert (K : forall b, length b = length buf -> (forall i, 0 <= i < Zlength buf -> aget b i = bbyte bs (off + i)) ->
    b = window (bbyte bs) off (length buf)).
  { intros b Lb V. rewrite <- Lb. apply window_eq. rewrite Lb. exact V. }
  destruct (Z.ltb_spec 0 h) as [P|P].
  - destruct (bdrv_read_ok bs (off / 512) 1 uninit O) as (ret & t & -> & R & Lt & _ & V); [dlia|lia|by unfold Zlength; rewrite Hlen|].
    rewrite (proj2 (Z.ltb_ge ret 0)) by done. unfold Zlength in *.
    set (b1 := awrite buf 0 _). assert (L1 : length b1 = length buf) by apply length_awrite.
    assert (V1 : forall i, 0 <= i < h -> aget b1 i = bbyte bs (off + i)).
    { intros i Hi. subst b1. rewrite aget_awrite by (rewrite ?length_aread; lia). rewrite length_aread. zcases.
      rewrite aget_aread by lia. rewrite V by (subst h; dlia). f_equal. dlia. }
    destruct (Z.eqb_spec (Z.of_nat (length buf) - h) 0) as [E|E].
    + f_equal. apply K; [done|]. intros i Hi. apply V1. lia.
    + clearbody b1. assert (Hd : (off / 512 + 1) * 512 = off + h) by (clear - P E Hh Ho; subst h; dlia).
      rewrite <- L1. destruct (pread_rest_ok bs (off / 512 + 1) b1 h O) as (b2 & E2 & L2 & V2);
        unfold Zlength in *; [clear - Ho; dlia|lia|lia|]. rewrite E2. f_equal. rewrite L1. apply K; [lia|].
      intros i Hi. rewrite V2 by lia. destruct (Z.ltb_spec i h); [apply V1; lia|]. f_equal. lia.
  - destruct (pread_rest_ok bs (off / 512) buf 0 O) as (b2 & E2 & L2 & V2); [dlia|lia| |].
    { unfold Zlength in *. clear - P Hl Hh Ho. subst h. dlia. }
    assert (Hd : off / 512 * 512 = off + 0 \/ Zlength buf = 0) by (unfold Zlength in *; clear - P Ho Hh; subst h; dlia).
    rewrite E2. f_equal. unfold Zlength in *. apply K; [lia|]. intros i Hi. rewrite V2 by lia. zcases. f_equal. lia.
Qed.

(** ** Asynchronous requests and the length *)

Lemma aio_read_done n f ao buf : aio_read_loop n f ao (Zlength buf) buf = (Zlength buf, buf).
Proof. destruct n; cbn [aio_read_loop]; [done|]. by rewrite Z.ltb_irrefl. Qed.

Lemma aio_write_done n f ao buf : aio_write_loop n f ao (Zlength buf) buf = (Zlength buf, f).
Proof. destruct n; cbn [aio_write_loop]; [done|]. by rewrite Z.ltb_irrefl. Qed.

Lemma bdrv_aio_readv_ok bs s buf : opened bs -> 0 <= s -> s * 512 + Zlength buf <= blen bs ->
  bdrv_aio_readv bs s buf = Some (0, window (bbyte bs) (s * 512) (length buf)).
Proof.
  intros (G & _ & _) Hs Hl. unfold bdrv_aio_readv, bdrv_check_request, bdrv_check_byte_request. rewrite G. cbn [truthy Z.eqb negb].
  unfold raw_aio_readv. destruct buf as [|b buf]; [done|]. set (l := b :: buf) in *.
  assert (L : 0 < Zlength l) by (unfold Zlength, l; cbn; lia). change (length l) with (S (length buf)) at 1. cbn [aio_read_loop].
  rewrite (proj2 (Z.ltb_lt 0 (Zlength l))) by lia. rewrite os_pread_ok by lia. rewrite Z.add_0_r, Z.sub_0_r. unfold blen in Hl.
  rewrite Z.min_l, Z.max_r by lia. rewrite (proj2 (Z.ltb_ge (Zlength l) 0)), (proj2 (Z.eqb_neq (Zlength l) 0)) by lia.
  set (d := window _ _ _). assert (Ld : length d = length l) by (unfold d, Zlength; rewrite length_window; lia).
  assert (E : awrite l 0 d = d).
  { apply aget_inj; [by rewrite length_awrite|]. intros k Hk. rewrite aget_awrite by lia. rewrite Ld.
    destruct ((0 <=? k) && (k <? 0 + Z.of_nat (length l))) eqn:C; [by rewrite Z.sub_0_r|].
    unfold aget. rewrite !nth_overflow by lia. done. }
  rewrite E, Z.add_0_l. replace (Zlength l) with (Zlength d) by (unfold Zlength; lia). rewrite aio_read_done.
  unfold aio_result. rewrite Z.eqb_refl, (proj2 (Z.leb_le 0 _)) by (unfold Zlength; lia).
  subst d. unfold Zlength. by rewrite Nat2Z.id.
Qed.

Lemma bdrv_aio_writev_ok bs s buf : opened bs -> 0 <= s -> buf <> [] -> Forall (is_uint 8) buf ->
  exists bs', bdrv_aio_writev bs s buf = Some (0, bs') /\ opened bs' /\ stored blen bbyte bs bs' (s * 512) buf.
Proof.
  intros (G & RO & U) Hs Hn Hb. unfold bdrv_aio_writev, bdrv_check_request, bdrv_check_byte_request. rewrite RO, G.
  cbn [truthy Z.eqb negb]. unfold raw_aio_writev. assert (L : 0 < Zlength buf) by (unfold Zlength; destruct buf; [done|cbn; lia]).
  destruct (length buf) as [|n] eqn:LB; [unfold Zlength in L; lia|]. cbn [aio_write_loop].
  rewrite (proj2 (Z.ltb_lt 0 (Zlength buf))), Z.add_0_r by lia. change (drop (Z.to_nat 0) buf) with buf.
  destruct (os_pwrite_ok (opaque bs) (s * 512) buf) as (f' & -> & Lf & V); [lia|done|done|].
  rewrite (proj2 (Z.ltb_ge (Zlength buf) 0)), (proj2 (Z.eqb_neq (Zlength buf) 0)), Z.add_0_l, aio_write_done by lia.
  unfold aio_result. rewrite Z.eqb_refl, (proj2 (Z.leb_le 0 _)) by lia. eexists. split; [reflexivity|].
  split; [by split_and!|]. unfold blen, bbyte. constructor; cbn [opaque set_opaque].
  - intros i Hi. rewrite V by lia. zcases; done.
  - intros i Hi Hout. rewrite V by lia. zcases; done.
  - lia.
Qed.

Lemma bdrv_truncate_ok bs n : opened bs -> 0 <= n ->
  exists bs', bdrv_truncate bs n = (0, bs') /\ opened bs' /\ blen bs' = n /\
    forall i, 0 <= i < n -> bbyte bs' i = if i <? blen bs then bbyte bs i else 0.
Proof.
  intros (G & RO & U) Hn. unfold bdrv_truncate, raw_truncate. rewrite RO, U.
  destruct (os_ftruncate_ok (opaque bs) n Hn) as (f' & -> & L & V). cbn [Z.eqb]. unfold refresh_total_sectors, raw_getlength.
  cbn [opaque set_opaque]. rewrite os_size_ok, L, (proj2 (Z.ltb_ge n 0)) by lia. eexists. split; [reflexivity|].
  split; [by split_and!|]. split; [exact L|exact V].
Qed.

Lemma bdrv_getlength_ok bs : opened bs -> bdrv_getlength bs = blen bs.
Proof. intros (G & _). unfold bdrv_getlength. rewrite G. apply os_size_ok. Qed.

Lemma bdrv_pwrite_sync_ok bs off buf : opened bs -> 0 <= off -> buf <> [] -> Forall (is_uint 8) buf ->
  exists bs', bdrv_pwrite_sync uninit bs off buf = (0, bs') /\ opened bs' /\ stored blen bbyte bs bs' off buf.
Proof.
  intros O Ho Hn Hb. unfold bdrv_pwrite_sync. destruct (bdrv_pwrite_ok bs off buf O Ho Hn Hb) as (bs' & -> & K).
  rewrite (proj2 (Z.ltb_ge (Zlength buf) 0)) by (unfold Zlength; lia). by exists bs'.
Qed.

(** A regular file through block.c is what an image format relies on. *)
#[local] Instance raw_protocol : Protocol (BlockDriverState F) := {
  file_pread := bdrv_pread uninit;
  file_pwrite := bdrv_pwrite uninit;
  file_pwrite_sync := bdrv_pwrite_sync uninit;
  file_getlength := bdrv_getlength;
  file_truncate := bdrv_truncate;
  file_aio_readv := bdrv_aio_readv;
  file_aio_writev := bdrv_aio_writev
}.

#[local] Instance raw_reliable : Reliable (BlockDriverState F) := {
  flen := blen;
  fbyte := bbyte;
  file_ok := opened;
  flen_nonneg bs := hlen_nonneg (opaque bs);
  fbyte_u8 bs := hbyte_u8 (opaque bs);
  file_getlength_ok := bdrv_getlength_ok;
  file_pread_ok := bdrv_pread_ok;
  file_pwrite_ok := bdrv_pwrite_ok;
  file_pwrite_sync_ok := bdrv_pwrite_sync_ok;
  file_truncate_ok := bdrv_truncate_ok;
  file_aio_readv_ok := bdrv_aio_readv_ok;
  file_aio_writev_ok := bdrv_aio_writev_ok
}.

(** C11: On a regular file, a range of bytes written with [bdrv_pwrite] and
    read with [bdrv_pread], at any offsets and whatever the alignment, behaves
    as in a plain array: the bytes written are read back, every other byte that
    was in the file is read as before, and both calls return the count; so the
    reading, patching and writing of the sectors at the ends is invisible. *)
Theorem bdrv_bytes_roundtrip bs off data : opened bs -> 0 <= off -> data <> [] -> Forall (is_uint 8) data ->
  exists bs', bdrv_pwrite uninit bs off data = (Zlength data, bs') /\
    forall p buf, 0 <= p -> p + Zlength buf <= Z.max (blen bs) (off + Zlength data) ->
      p + Zlength buf <= blen bs \/ off <= blen bs ->
      bdrv_pread uninit bs' p buf =
        (Zlength buf, window (fun i => if (off <=? i) && (i <? off + Zlength data) then aget data (i - off)
                                      else bbyte bs i) p (length buf)).
Proof.
  intros O Ho Hn Hb. destruct (bdrv_pwrite_ok bs off data O Ho Hn Hb) as (bs' & E & O' & [S1 S2 S3]).
  exists bs'. split; [done|]. intros p buf Hp Hl Hg. rewrite bdrv_pread_ok by (done || lia). f_equal.
  apply window_ext. intros i Hi. unfold Zlength in *. zcases; try (by apply S2; lia). apply S1. lia.
Qed.

End Provided.

(** ** Files in memory *)

Definition memfile : Type := list Z.

#[export] Instance mem_host : HostFile memfile := {
  os_pread f off n :=
    let d := u8 <$> take (Z.to_nat n) (drop (Z.to_nat off) f) in (Zlength d, d);
  os_pwrite f off bs :=
    (Zlength bs, take (Z.to_nat off) (f ++ replicate (Z.to_nat (off - Zlength f)) 0) ++ bs
                 ++ drop (Z.to_nat (off + Zlength bs)) f);
  os_ftruncate f n := (0, take (Z.to_nat n) f ++ replicate (Z.to_nat (n - Zlength f)) 0);
  os_size f := Zlength f
}.

Lemma aget_replicate0 n i : aget (replicate n 0) i = 0.
Proof.
  unfold aget. rewrite nth_lookup. destruct (replicate n 0 !! Z.to_nat i) eqn:E; [|done].
  by apply lookup_replicate in E as [-> _].
Qed.

Lemma aget_beyond l i : Zlength l <= i -> aget l i = 0.
Proof. intros H. unfold aget, Zlength in *. apply nth_overflow. lia. Qed.

Lemma aget_u8_fmap l i : aget (u8 <$> l) i = u8 (aget l i).
Proof. unfold aget. apply (map_nth u8 l 0). Qed.

Lemma mem_pread_ok (f : memfile) off n : 0 <= off -> 0 <= n ->
  os_pread f off n = (Z.max 0 (Z.min n (Zlength f - off)),
                      window (fun i => u8 (aget f i)) off (Z.to_nat (Z.min n (Zlength f - off)))).
Proof.
  intros Ho Hn. cbn [os_pread mem_host]. set (d := u8 <$> _).
  assert (L : length d = Z.to_nat (Z.min n (Zlength f - off))).
  { subst d. rewrite length_fmap, length_take, length_drop. unfold Zlength. lia. }
  f_equal; [unfold Zlength in *; lia|]. rewrite <- L. apply window_eq. intros i Hi. subst d.
  unfold Zlength in *. by rewrite aget_u8_fmap, aget_take, aget_drop, Z2Nat.id by lia.
Qed.

#[export, refine] Instance mem_regular : RegularFile memfile := {
  hlen := Zlength;
  hbyte f i := u8 (aget f i);
  hbyte_u8 f i := wrap_range 8 (aget f i) ltac:(lia);
  os_size_ok f := eq_refl;
  os_pread_ok := mem_pread_ok
}.
Proof.
  - intros f. unfold Zlength. lia.
  - intros f off bs Ho Hn Hb. eexists. split; [reflexivity|]. set (g := f ++ _).
    assert (Lg : Zlength g = Z.max (Zlength f) off) by (subst g; rewrite Zlength_app; unfold Zlength; rewrite length_replicate; lia).
    assert (Lt : Zlength (take (Z.to_nat off) g) = off) by (unfold Zlength in *; rewrite length_take; lia).
    split; [rewrite !Zlength_app, Lt; unfold Zlength in *; rewrite length_drop; lia|].
    intros i Hi. rewrite aget_app, Lt by lia. destruct (Z.ltb_spec i off).
    + rewrite aget_take by lia. subst g. rewrite aget_app by lia. zcases; try done; by rewrite aget_replicate0.
    + rewrite aget_app by lia. destruct (Z.ltb_spec (i - off) (Zlength bs)).
      * zcases; apply wrap_small; by apply aget_byte.
      * unfold Zlength in *. rewrite aget_drop by lia. replace (Z.of_nat _ + _) with i by lia.
        zcases; try done; by rewrite aget_beyond by (unfold Zlength; lia).
  - intros f n Hn. eexists. split; [reflexivity|]. assert (Lt : Zlength (take (Z.to_nat n) f) = Z.min n (Zlength f)).
    { unfold Zlength. rewrite length_take. lia. }
    split; [rewrite Zlength_app, Lt; unfold Zlength; rewrite length_replicate; lia|].
    intros i Hi. rewrite aget_app, Lt by lia. zcases; [by rewrite aget_take by lia|by rewrite aget_replicate0].
Defined.

(** A file of three bytes, written to over its end. *)
Lemma bdrv_bytes_roundtrip_witness :
  exists bs', bdrv_pwrite (replicate 512 170) (mkBS true false false 0 ([1; 2; 3] : memfile)) 2 [7; 8; 9] = (3, bs') /\
    bdrv_pread (replicate 512 170) bs' 1 [0; 0; 0; 0] = (4, [2; 7; 8; 9]).
Proof.
  destruct (bdrv_bytes_roundtrip (replicate 512 170) eq_refl ltac:(apply Forall_replicate; unfold is_uint; lia)
    (mkBS true false false 0 ([1; 2; 3] : memfile)) 2 [7; 8; 9]) as (bs' & E & H).
  - split; [reflexivity|split; reflexivity].
  - lia.
  - discriminate.
  - repeat constructor; unfold is_uint; lia.
  - exists bs'. split; [exact E|]. exact (H 1 [0; 0; 0; 0] ltac:(lia) ltac:(vm_compute; discriminate) ltac:(right; vm_compute; discriminate)).
Defined.

End Block.
