(* ===== verification/Qcow.v ===== *)
(** * QCOW images (src/qemu/block/qcow.c)

    The format keeps a disk in a file that grows: a first level table of
    second level tables of clusters, in big-endian order, with clusters that
    are absent (read from the backing image, or zero), plain, encrypted or
    compressed.  [BDRVQcowState] is the C structure with its two caches, the
    tables as the bytes that the code keeps in them; [Qcow] adds the image
    file, reached through the interface [Block.Protocol].

    Parameters: the file, the backing image (its [bdrv_aio_readv]) and zlib
    (class [Zlib]).  A request is its control block [QCowAIOCB]; the callbacks
    [qcow_aio_read_cb] and [qcow_aio_write_cb] run until they have submitted a
    request to the file, whose completion calls them again: [aio_read] and
    [aio_write] follow this to the end, one callback per unit of fuel.  [None]
    is the result of an AES function on a key it cannot use, or of a loop out of
    fuel.  QcowRead.v and QcowWrite.v prove that neither happens. *)
From S2P Require Import Prelude AES AESCbc Block.
Import Block.

Module Qcow.

Definition QCOW_MAGIC : Z := (81 <<. 24) |. (70 <<. 16) |. (73 <<. 8) |. 0xfb.
Definition QCOW_VERSION : Z := 1.
Definition QCOW_CRYPT_NONE : Z := 0.
Definition QCOW_CRYPT_AES : Z := 1.
Definition QCOW_OFLAG_COMPRESSED : Z := 1 <<. 63.
Definition L2_CACHE_SIZE : Z := 16.
Definition ENOMEM : Z := 12.

(** ** Big-endian integers in byte arrays *)

(** [be64_to_cpu] and [be32_to_cpu] of the bytes at [o], and the bytes of
    [cpu_to_be64] and [cpu_to_be32]. *)
Fixpoint be_get (n : nat) (l : list Z) (o : Z) (acc : Z) : Z :=
  match n with O => acc | S n' => be_get n' l (o + 1) ((acc <<. 8) |. aget l o) end.
Definition be64 (l : list Z) (o : Z) : Z := be_get 8 l o 0.
Definition be32 (l : list Z) (o : Z) : Z := be_get 4 l o 0.

Definition be_put (n : nat) (v : Z) : list Z := map (fun i => (v >>. (8 * Z.of_nat (n - 1 - i))) &. 0xff) (seq 0 n).
Definition cpu_to_be64 (v : Z) : list Z := be_put 8 v.
Definition cpu_to_be32 (v : Z) : list Z := be_put 4 v.

(** ** Header *)

Record QCowHeader := mkHeader {
  magic : Z;
  version : Z;
  backing_file_offset : Z;
  backing_file_size : Z;
  mtime : Z;
  size : Z;
  h_cluster_bits : Z;
  h_l2_bits : Z;
  h_crypt_method : Z;
  h_l1_table_offset : Z
}.

Definition sizeof_header : Z := 48.

(** The structure at the start of the file: two bytes of padding lie before
    [crypt_method]. *)
Definition header_of (b : list Z) : QCowHeader :=
  mkHeader (be32 b 0) (be32 b 4) (be64 b 8) (be32 b 16) (be32 b 20) (be64 b 24) (aget b 32) (aget b 33)
    (be32 b 36) (be64 b 40).

Definition header_bytes (h : QCowHeader) : list Z :=
  cpu_to_be32 (magic h) ++ cpu_to_be32 (version h) ++ cpu_to_be64 (backing_file_offset h) ++
  cpu_to_be32 (backing_file_size h) ++ cpu_to_be32 (mtime h) ++ cpu_to_be64 (size h) ++
  [h_cluster_bits h; h_l2_bits h; 0; 0] ++ cpu_to_be32 (h_crypt_method h) ++ cpu_to_be64 (h_l1_table_offset h).

Definition qcow_probe (buf : list Z) : Z :=
  if (sizeof_header <=? Zlength buf) && (be32 buf 0 =? QCOW_MAGIC) && (be32 buf 4 =? QCOW_VERSION) then 100 else 0.

(** ** State *)

Record BDRVQcowState := mkQcow {
  cluster_bits : Z;
  l2_bits : Z;
  l1_size : Z;
  l1_table_offset : Z;
  l1_table : list Z;
  l2_cache : list Z;
  l2_cache_offsets : list Z;
  l2_cache_counts : list Z;
  cluster_cache : list Z;
  cluster_data : list Z;
  cluster_cache_offset : Z;
  crypt : qcow_crypt
}.

(** Fields that [qcow_open] computes once. *)
Definition cluster_size (s : BDRVQcowState) : Z := 1 <<. cluster_bits s.
Definition cluster_sectors (s : BDRVQcowState) : Z := 1 <<. (cluster_bits s - 9).
Definition l2_size (s : BDRVQcowState) : Z := 1 <<. l2_bits s.
Definition cluster_offset_mask (s : BDRVQcowState) : Z := (1 <<. (63 - cluster_bits s)) - 1.

Definition set_l1_table v (s : BDRVQcowState) := mkQcow (cluster_bits s) (l2_bits s) (l1_size s) (l1_table_offset s) v
  (l2_cache s) (l2_cache_offsets s) (l2_cache_counts s) (cluster_cache s) (cluster_data s) (cluster_cache_offset s) (crypt s).
Definition set_l2_cache v (s : BDRVQcowState) := mkQcow (cluster_bits s) (l2_bits s) (l1_size s) (l1_table_offset s)
  (l1_table s) v (l2_cache_offsets s) (l2_cache_counts s) (cluster_cache s) (cluster_data s) (cluster_cache_offset s) (crypt s).
Definition set_l2_cache_offsets v (s : BDRVQcowState) := mkQcow (cluster_bits s) (l2_bits s) (l1_size s) (l1_table_offset s)
  (l1_table s) (l2_cache s) v (l2_cache_counts s) (cluster_cache s) (cluster_data s) (cluster_cache_offset s) (crypt s).
Definition set_l2_cache_counts v (s : BDRVQcowState) := mkQcow (cluster_bits s) (l2_bits s) (l1_size s) (l1_table_offset s)
  (l1_table s) (l2_cache s) (l2_cache_offsets s) v (cluster_cache s) (cluster_data s) (cluster_cache_offset s) (crypt s).
Definition set_cluster_cache v (s : BDRVQcowState) := mkQcow (cluster_bits s) (l2_bits s) (l1_size s) (l1_table_offset s)
  (l1_table s) (l2_cache s) (l2_cache_offsets s) (l2_cache_counts s) v (cluster_data s) (cluster_cache_offset s) (crypt s).
Definition set_cluster_data v (s : BDRVQcowState) := mkQcow (cluster_bits s) (l2_bits s) (l1_size s) (l1_table_offset s)
  (l1_table s) (l2_cache s) (l2_cache_offsets s) (l2_cache_counts s) (cluster_cache s) v (cluster_cache_offset s) (crypt s).
Definition set_cluster_cache_offset v (s : BDRVQcowState) := mkQcow (cluster_bits s) (l2_bits s) (l1_size s) (l1_table_offset s)
  (l1_table s) (l2_cache s) (l2_cache_offsets s) (l2_cache_counts s) (cluster_cache s) (cluster_data s) v (crypt s).
Definition set_crypt v (s : BDRVQcowState) := mkQcow (cluster_bits s) (l2_bits s) (l1_size s) (l1_table_offset s)
  (l1_table s) (l2_cache s) (l2_cache_offsets s) (l2_cache_counts s) (cluster_cache s) (cluster_data s) (cluster_cache_offset s) v.

(** ** zlib *)

Definition Z_OK : Z := 0.
Definition Z_STREAM_END : Z := 1.
Definition Z_BUF_ERROR : Z := -5.

(** A stream without header, given all its input and room for a number of
    bytes: the code of the call with [Z_FINISH] and the bytes it produced. *)
Class Zlib := {
  inflateInit2 : Z;
  inflate : list Z -> Z -> Z * list Z;
  deflateInit2 : Z;
  deflate : list Z -> Z -> Z * list Z
}.

(** A value returned early, or the value to go on with. *)
Inductive outcome (A : Type) : Type := Return (v : Z) | Go (a : A).
Arguments Return {A}.
Arguments Go {A}.

Section Driver.

Context {F : Type} {proto : Protocol F} {zlib : Zlib}.

(** The image: [bs->opaque] and [bs->file]. *)
Record Qcow := mkImage { st : BDRVQcowState; file : F }.

Definition with_st (s : BDRVQcowState) (q : Qcow) : Qcow := mkImage s (file q).
Definition with_file (f : F) (q : Qcow) : Qcow := mkImage (st q) f.

(** ** Opening *)

Definition SIZEOF_U64 : Z := 8.

Fixpoint be64_table (n : nat) (b : list Z) (o : Z) : list Z :=
  match n with O => [] | S n' => be64 b o :: be64_table n' b (o + 8) end.

(** The name is the result beside the image; [fresh n] is what [qemu_malloc]
    leaves in a block of [n] bytes, [zeroed] the structure as allocated. *)
Definition qcow_open (fresh : Z -> list Z) (zeroed : BDRVQcowState) (f : F) : option (Qcow * Z * list Z) :=
  let '(ret, b) := file_pread f 0 (replicate (Z.to_nat sizeof_header) 0) in
  if negb (ret =? sizeof_header) then None
  else
    let h := header_of b in
    if negb (magic h =? QCOW_MAGIC) || negb (version h =? QCOW_VERSION) then None
    else if (size h <=? 1) || (h_cluster_bits h <? 9) then None
    else if QCOW_CRYPT_AES <? h_crypt_method h then None
    else
      let shift := h_cluster_bits h + h_l2_bits h in
      let l1size := s32 (u64 (size h + (1 <<. shift) - 1) >>. shift) in
      let '(ret, t) := file_pread f (h_l1_table_offset h) (fresh (l1size * SIZEOF_U64)) in
      if negb (ret =? l1size * SIZEOF_U64) then None
      else
        let c := crypt zeroed in
        let s := mkQcow (h_cluster_bits h) (h_l2_bits h) l1size (h_l1_table_offset h)
          (be64_table (Z.to_nat l1size) t 0) (fresh ((1 <<. h_l2_bits h) * L2_CACHE_SIZE * SIZEOF_U64))
          (l2_cache_offsets zeroed) (l2_cache_counts zeroed) (fresh (1 <<. h_cluster_bits h))
          (fresh (1 <<. h_cluster_bits h)) (u64 (-1))
          {| crypt_method := crypt_method c; crypt_method_header := h_crypt_method h;
             aes_encrypt_key := aes_encrypt_key c; aes_decrypt_key := aes_decrypt_key c |} in
        let image := mkImage s f in
        if negb (backing_file_offset h =? 0) then
          let len := if 1023 <? s32 (backing_file_size h) then 1023 else s32 (backing_file_size h) in
          let '(ret, name) := file_pread f (backing_file_offset h) (replicate (Z.to_nat len) 0) in
          if negb (ret =? len) then None else Some (image, size h / 512, name)
        else Some (image, size h / 512, []).

(** ** Compressed clusters *)

Definition decompress_buffer (out_buf buf : list Z) : Z * list Z :=
  if negb (inflateInit2 =? Z_OK) then (-1, out_buf)
  else
    let '(ret, out) := inflate buf (Zlength out_buf) in
    let out_buf' := fill out out_buf in
    if (negb (ret =? Z_STREAM_END) && negb (ret =? Z_BUF_ERROR)) || negb (Zlength out =? Zlength out_buf)
    then (-1, out_buf') else (0, out_buf').

Definition decompress_cluster (cluster_offset : Z) (q : Qcow) : Z * Qcow :=
  let s := st q in
  let coffset := cluster_offset &. cluster_offset_mask s in
  if negb (cluster_cache_offset s =? coffset) then
    let csize := s32 (cluster_offset >>. (63 - cluster_bits s)) &. (cluster_size s - 1) in
    let '(ret, d) := file_pread (file q) coffset (take (Z.to_nat csize) (cluster_data s)) in
    let s := set_cluster_data (awrite (cluster_data s) 0 d) s in
    if negb (ret =? csize) then (-1, with_st s q)
    else
      let '(ret, c) := decompress_buffer (cluster_cache s) (take (Z.to_nat csize) (cluster_data s)) in
      let s := set_cluster_cache c s in
      if ret <? 0 then (-1, with_st s q) else (0, with_st (set_cluster_cache_offset coffset s) q)
  else (0, q).

(** ** Tables *)

(** [x] rounded up to the cluster size. *)
Definition round_to_cluster (s : BDRVQcowState) (x : Z) : Z := u64 (x + cluster_size s - 1) &. ~. (cluster_size s - 1).

(** The second level table of an offset and whether it is new. *)
Definition l1_lookup (offset allocate : Z) (q : Qcow) : Qcow * outcome (Z * bool) :=
  let s := st q in
  let l1_index := s32 (offset >>. (l2_bits s + cluster_bits s)) in
  let l2_offset := aget (l1_table s) l1_index in
  if l2_offset =? 0 then
    if allocate =? 0 then (q, Return 0)
    else
      let l2_offset := round_to_cluster s (u64 (file_getlength (file q))) in
      let q := with_st (set_l1_table (aset (l1_table s) l1_index l2_offset) s) q in
      let '(ret, f) := file_pwrite_sync (file q) (u64 (l1_table_offset s + l1_index * SIZEOF_U64)) (cpu_to_be64 l2_offset) in
      let q := with_file f q in
      if ret <? 0 then (q, Return 0) else (q, Go (l2_offset, true))
  else (q, Go (l2_offset, false)).

(** The place of a table in the cache. *)
Fixpoint find_slot (n : nat) (i : Z) (offsets : list Z) (l2_offset : Z) : option Z :=
  match n with
  | O => None
  | S n' => if l2_offset =? aget offsets i then Some i else find_slot n' (i + 1) offsets l2_offset
  end.

Definition count_hit (counts : list Z) (i : Z) : list Z :=
  let counts := aset counts i (u32 (aget counts i + 1)) in
  if aget counts i =? 0xffffffff then map (fun c => c >>. 1) counts else counts.

Fixpoint least_used (n : nat) (i : Z) (counts : list Z) (min_index min_count : Z) : Z :=
  match n with
  | O => min_index
  | S n' => if aget counts i <? min_count then least_used n' (i + 1) counts i (aget counts i)
            else least_used n' (i + 1) counts min_index min_count
  end.

Definition table_bytes (s : BDRVQcowState) : Z := l2_size s * SIZEOF_U64.
Definition slot_offset (s : BDRVQcowState) (i : Z) : Z := (i <<. l2_bits s) * SIZEOF_U64.

(** The slot with the table at [l2_offset]; a table that is not there is
    created or read into the slot used least. *)
Definition l2_load (l2_offset : Z) (new_l2_table : bool) (q : Qcow) : Qcow * outcome Z :=
  let s := st q in
  match find_slot (Z.to_nat L2_CACHE_SIZE) 0 (l2_cache_offsets s) l2_offset with
  | Some i => (with_st (set_l2_cache_counts (count_hit (l2_cache_counts s) i) s) q, Go i)
  | None =>
      let min_index := least_used (Z.to_nat L2_CACHE_SIZE) 0 (l2_cache_counts s) 0 0xffffffff in
      let place := slot_offset s min_index in
      let n := Z.to_nat (table_bytes s) in
      let '(ok, q) :=
        if new_l2_table then
          let q := with_st (set_l2_cache (awrite (l2_cache s) place (replicate n 0)) s) q in
          let '(ret, f) := file_pwrite_sync (file q) l2_offset (aread (l2_cache (st q)) place n) in
          (negb (ret <? 0), with_file f q)
        else
          let '(ret, t) := file_pread (file q) l2_offset (aread (l2_cache s) place n) in
          (ret =? table_bytes s, with_st (set_l2_cache (awrite (l2_cache s) place t) s) q) in
      if negb ok then (q, Return 0)
      else
        let s := st q in
        let s := set_l2_cache_offsets (aset (l2_cache_offsets s) min_index l2_offset) s in
        let s := set_l2_cache_counts (aset (l2_cache_counts s) min_index 1) s in
        (with_st s q, Go min_index)
  end.

(** In an encrypted image the sectors of a new cluster that will not be written
    are filled with the encryption of zeros. *)
Fixpoint init_sectors (n : nat) (i n_start n_end start_sect cluster_offset : Z) (q : Qcow) : option (Qcow * outcome unit) :=
  match n with
  | O => Some (q, Go tt)
  | S n' =>
      if (i <? n_start) || (n_end <=? i) then
        d ← encrypt_sectors 1 (start_sect + i) (cluster_data (st q)) 0 512 1 (aes_encrypt_key (crypt (st q)));
        let q := with_st (set_cluster_data d (st q)) q in
        let '(ret, f) := file_pwrite (file q) (u64 (cluster_offset + i * 512)) (take 512 d) in
        let q := with_file f q in
        if negb (ret =? 512) then Some (q, Return (u64 (-1)))
        else init_sectors n' (i + 1) n_start n_end start_sect cluster_offset q
      else init_sectors n' (i + 1) n_start n_end start_sect cluster_offset q
  end.

(** A new cluster in place of the table entry [entry]. *)
Definition alloc_cluster (entry offset allocate compressed_size n_start n_end : Z) (q : Qcow) : option (Qcow * outcome Z) :=
  let s := st q in
  if truthy (entry &. QCOW_OFLAG_COMPRESSED) && (n_end - n_start <? cluster_sectors s) then
    let '(ret, q) := decompress_cluster entry q in
    if ret <? 0 then Some (q, Return 0)
    else
      let cluster_offset := round_to_cluster s (u64 (file_getlength (file q))) in
      let '(ret, f) := file_pwrite (file q) cluster_offset (cluster_cache (st q)) in
      let q := with_file f q in
      if negb (ret =? cluster_size s) then Some (q, Return (u64 (-1))) else Some (q, Go cluster_offset)
  else
    let cluster_offset := u64 (file_getlength (file q)) in
    if allocate =? 1 then
      let cluster_offset := round_to_cluster s cluster_offset in
      let '(_, f) := file_truncate (file q) (s64 (cluster_offset + cluster_size s)) in
      let q := with_file f q in
      if truthy (crypt_method (crypt s)) && (n_end - n_start <? cluster_sectors s) then
        let start_sect := (offset &. ~. (cluster_size s - 1)) >>. 9 in
        let q := with_st (set_cluster_data (awrite (cluster_data s) 512 (replicate 512 0)) s) q in
        '(q, r) ← init_sectors (Z.to_nat (cluster_sectors s)) 0 n_start n_end start_sect cluster_offset q;
        match r with Return v => Some (q, Return v) | Go _ => Some (q, Go cluster_offset) end
      else Some (q, Go cluster_offset)
    else if allocate =? 2 then
      Some (q, Go (cluster_offset |. (QCOW_OFLAG_COMPRESSED |. u64 (compressed_size <<. (63 - cluster_bits s)))))
    else Some (q, Go cluster_offset).

Definition get_cluster_offset (offset allocate compressed_size n_start n_end : Z) (q : Qcow) : option (Qcow * Z) :=
  let '(q, r) := l1_lookup offset allocate q in
  match r with
  | Return v => Some (q, v)
  | Go (l2_offset, new_l2_table) =>
      let '(q, r) := l2_load l2_offset new_l2_table q in
      match r with
      | Return v => Some (q, v)
      | Go slot =>
          let s := st q in
          let l2_index := (offset >>. cluster_bits s) &. (l2_size s - 1) in
          let place := slot_offset s slot + l2_index * SIZEOF_U64 in
          let cluster_offset := be64 (l2_cache s) place in
          if (cluster_offset =? 0) || (truthy (cluster_offset &. QCOW_OFLAG_COMPRESSED) && (allocate =? 1)) then
            if allocate =? 0 then Some (q, 0)
            else
              '(q, r) ← alloc_cluster cluster_offset offset allocate compressed_size n_start n_end q;
              match r with
              | Return v => Some (q, v)
              | Go cluster_offset =>
                  let tmp := cpu_to_be64 cluster_offset in
                  let q := with_st (set_l2_cache (awrite (l2_cache (st q)) place tmp) (st q)) q in
                  let '(ret, f) := file_pwrite_sync (file q) (u64 (l2_offset + l2_index * SIZEOF_U64)) tmp in
                  let q := with_file f q in
                  if ret <? 0 then Some (q, 0) else Some (q, cluster_offset)
              end
          else Some (q, cluster_offset)
      end
  end.

Definition qcow_is_allocated (sector_num nb_sectors : Z) (q : Qcow) : option (Qcow * Z * Z) :=
  '(q, cluster_offset) ← get_cluster_offset (u64 (sector_num <<. 9)) 0 0 0 0 q;
  let index_in_cluster := sector_num &. (cluster_sectors (st q) - 1) in
  let n := cluster_sectors (st q) - index_in_cluster in
  let n := if nb_sectors <? n then nb_sectors else n in
  Some (q, of_bool (negb (cluster_offset =? 0)), n).

(** ** Requests *)

(** [buf] with the position [pos] is the pointer [acb->buf]; [acb_data] is
    [acb->cluster_data], NULL until it is needed. *)
Record QCowAIOCB := mkACB {
  sector_num : Z;
  nb_sectors : Z;
  n : Z;
  cluster_offset : Z;
  buf : list Z;
  pos : Z;
  acb_data : option (list Z)
}.

(** [recycled] is what the control block held when it came from the pool. *)
Definition qcow_aio_setup (sector : Z) (data : list Z) (nb : Z) (recycled : option (list Z)) : QCowAIOCB :=
  mkACB sector nb 0 0 data 0 recycled.

(** How a callback ends: with the result for the caller, or with a request to
    the file or to the backing image, or, without waiting, at its beginning. *)
Inductive wait := Done (ret : Z) | FileRequest (sector : Z) | BackingRequest (sector : Z) | Redo.

(** The sectors transferred are behind. *)
Definition advance (acb : QCowAIOCB) : QCowAIOCB :=
  mkACB (sector_num acb + n acb) (nb_sectors acb - n acb) (n acb) (cluster_offset acb) (buf acb)
    (pos acb + n acb * 512) (acb_data acb).

Definition set_n (v : Z) (acb : QCowAIOCB) : QCowAIOCB :=
  mkACB (sector_num acb) (nb_sectors acb) v (cluster_offset acb) (buf acb) (pos acb) (acb_data acb).
Definition set_cluster_offset (v : Z) (acb : QCowAIOCB) : QCowAIOCB :=
  mkACB (sector_num acb) (nb_sectors acb) (n acb) v (buf acb) (pos acb) (acb_data acb).
Definition set_buf (v : list Z) (acb : QCowAIOCB) : QCowAIOCB :=
  mkACB (sector_num acb) (nb_sectors acb) (n acb) (cluster_offset acb) v (pos acb) (acb_data acb).
Definition set_acb_data (v : option (list Z)) (acb : QCowAIOCB) : QCowAIOCB :=
  mkACB (sector_num acb) (nb_sectors acb) (n acb) (cluster_offset acb) (buf acb) (pos acb) v.

(** The bytes of the transfer in the buffer. *)
Definition chunk (acb : QCowAIOCB) : list Z := aread (buf acb) (pos acb) (Z.to_nat (n acb * 512)).

Definition clamp_n (s : BDRVQcowState) (index_in_cluster : Z) (acb : QCowAIOCB) : QCowAIOCB :=
  let k := cluster_sectors s - index_in_cluster in
  set_n (if nb_sectors acb <? k then nb_sectors acb else k) acb.

(** The post processing of what was read. *)
Definition read_post (q : Qcow) (acb : QCowAIOCB) : option QCowAIOCB :=
  if cluster_offset acb =? 0 then Some acb
  else if truthy (cluster_offset acb &. QCOW_OFLAG_COMPRESSED) then Some acb
  else if truthy (crypt_method (crypt (st q))) then
    b ← encrypt_sectors (Z.to_nat (n acb)) (sector_num acb) (buf acb) (pos acb) (pos acb) 0
          (aes_decrypt_key (crypt (st q)));
    Some (set_buf b acb)
  else Some acb.

(** [has_backing]: [bs->backing_hd] is not NULL.  [ret] is not negative here. *)
Definition read_next (has_backing : bool) (ret : Z) (q : Qcow) (acb : QCowAIOCB) : option (Qcow * QCowAIOCB * wait) :=
  '(q, co) ← get_cluster_offset (u64 (sector_num acb <<. 9)) 0 0 0 0 q;
  let acb := set_cluster_offset co acb in
  let index_in_cluster := sector_num acb &. (cluster_sectors (st q) - 1) in
  let acb := clamp_n (st q) index_in_cluster acb in
  if co =? 0 then
    if has_backing then Some (q, acb, BackingRequest (sector_num acb))
    else Some (q, set_buf (awrite (buf acb) (pos acb) (replicate (Z.to_nat (512 * n acb)) 0)) acb, Redo)
  else if truthy (co &. QCOW_OFLAG_COMPRESSED) then
    let '(r, q) := decompress_cluster co q in
    if r <? 0 then Some (q, acb, Done ret)
    else Some (q, set_buf (awrite (buf acb) (pos acb)
                 (aread (cluster_cache (st q)) (index_in_cluster * 512) (Z.to_nat (512 * n acb)))) acb, Redo)
  else if negb (co &. 511 =? 0) then Some (q, acb, Done (- EIO))
  else Some (q, acb, FileRequest ((co >>. 9) + index_in_cluster)).

Definition qcow_aio_read_cb (has_backing : bool) (ret : Z) (q : Qcow) (acb : QCowAIOCB) : option (Qcow * QCowAIOCB * wait) :=
  if ret <? 0 then Some (q, acb, Done ret)
  else
    acb ← read_post q acb;
    let acb := advance acb in
    if nb_sectors acb =? 0 then Some (q, acb, Done 0) else read_next has_backing ret q acb.

(** The backing image: [bdrv_aio_readv] on it, [None] if it is refused. *)
Definition backing_hd : Type := option (Z -> list Z -> option (Z * list Z)).

(** A request to the end: the buffer and the result. *)
Fixpoint aio_read (fuel : nat) (backing : backing_hd) (ret : Z) (q : Qcow) (acb : QCowAIOCB) : option (Qcow * list Z * Z) :=
  match fuel with
  | O => None
  | S fuel' =>
      '(q, acb, w) ← qcow_aio_read_cb (bool_decide (is_Some backing)) ret q acb;
      match w with
      | Done ret => Some (q, buf acb, ret)
      | Redo => aio_read fuel' backing ret q acb
      | FileRequest sector =>
          match file_aio_readv (file q) sector (chunk acb) with
          | None => Some (q, buf acb, ret)
          | Some (r, d) => aio_read fuel' backing r q (set_buf (awrite (buf acb) (pos acb) d) acb)
          end
      | BackingRequest sector =>
          match backing ≫= fun b => b sector (chunk acb) with
          | None => Some (q, buf acb, ret)
          | Some (r, d) => aio_read fuel' backing r q (set_buf (awrite (buf acb) (pos acb) d) acb)
          end
      end
  end.

Definition qcow_aio_readv (backing : backing_hd) (sector : Z) (data : list Z) (nb : Z) (recycled : option (list Z)) (q : Qcow) :
    option (Qcow * list Z * Z) :=
  aio_read (S (S (Z.to_nat nb))) backing 0 q (qcow_aio_setup sector data nb recycled).

(** The write callback; the bytes to write are the result beside the request. *)
Definition qcow_aio_write_cb (ret : Z) (q : Qcow) (acb : QCowAIOCB) : option (Qcow * QCowAIOCB * wait * list Z) :=
  if ret <? 0 then Some (q, acb, Done ret, [])
  else
    let acb := advance acb in
    if nb_sectors acb =? 0 then Some (q, acb, Done 0, [])
    else
      let s := st q in
      let index_in_cluster := sector_num acb &. (cluster_sectors s - 1) in
      let acb := clamp_n s index_in_cluster acb in
      '(q, co) ← get_cluster_offset (u64 (sector_num acb <<. 9)) 1 0 index_in_cluster (index_in_cluster + n acb) q;
      if (co =? 0) || negb (co &. 511 =? 0) then Some (q, acb, Done (- EIO), [])
      else
        let sector := (co >>. 9) + index_in_cluster in
        if truthy (crypt_method (crypt (st q))) then
          let d := default (replicate (Z.to_nat (cluster_size s)) 0) (acb_data acb) in
          m ← encrypt_sectors (Z.to_nat (n acb)) (sector_num acb) (d ++ chunk acb) 0 (Zlength d) 1
                (aes_encrypt_key (crypt (st q)));
          let d := take (length d) m in
          Some (q, set_acb_data (Some d) acb, FileRequest sector, take (Z.to_nat (n acb * 512)) d)
        else Some (q, acb, FileRequest sector, chunk acb).

Fixpoint aio_write (fuel : nat) (ret : Z) (q : Qcow) (acb : QCowAIOCB) : option (Qcow * Z) :=
  match fuel with
  | O => None
  | S fuel' =>
      '(q, acb, w, data) ← qcow_aio_write_cb ret q acb;
      match w with
      | Done ret => Some (q, ret)
      | FileRequest sector =>
          match file_aio_writev (file q) sector data with
          | None => Some (q, ret)
          | Some (r, f) => aio_write fuel' r (with_file f q) acb
          end
      | BackingRequest _ | Redo => None
      end
  end.

Definition qcow_aio_writev (sector : Z) (data : list Z) (nb : Z) (recycled : option (list Z)) (q : Qcow) : option (Qcow * Z) :=
  let q := with_st (set_cluster_cache_offset (u64 (-1)) (st q)) q in
  aio_write (S (S (Z.to_nat nb))) 0 q (qcow_aio_setup sector data nb recycled).

(** ** Other operations *)

(** The file that [qcow_create] writes; [total] is in sectors. *)
Definition qcow_create (total : Z) (backing_file : option (list Z)) (encrypt : bool) : list Z :=
  let '(name, boff, bsize, cb, lb) :=
    match backing_file with
    | Some f =>
        let cb := 9 in let lb := 12 in
        if negb (bool_decide (f = [102; 97; 116; 58])) then (f, sizeof_header, Zlength f, cb, lb)
        else ([], 0, 0, cb, lb)
    | None => ([], 0, 0, 12, 9)
    end in
  let header_size := (sizeof_header + Zlength name + 7) &. ~. 7 in
  let shift := cb + lb in
  let l1size := s32 ((total * 512 + (1 <<. shift) - 1) >>. shift) in
  let h := mkHeader QCOW_MAGIC QCOW_VERSION boff bsize 0 (total * 512) cb lb
             (if encrypt then QCOW_CRYPT_AES else QCOW_CRYPT_NONE) header_size in
  let written := header_bytes h ++ name in
  if 0 <? l1size then
    written ++ replicate (Z.to_nat (header_size - Zlength written)) 0 ++ replicate (Z.to_nat (l1size * SIZEOF_U64)) 0
  else written.

Definition qcow_make_empty (q : Qcow) : Qcow * Z :=
  let s := st q in
  let l1_length := u32 (l1_size s * SIZEOF_U64) in
  let s := set_l1_table (replicate (Z.to_nat (l1_size s)) 0) s in
  let q := with_st s q in
  let '(ret, f) := file_pwrite_sync (file q) (l1_table_offset s) (replicate (Z.to_nat l1_length) 0) in
  let q := with_file f q in
  if ret <? 0 then (q, -1)
  else
    let '(ret, f) := file_truncate (file q) (s64 (l1_table_offset s + l1_length)) in
    let q := with_file f q in
    if ret <? 0 then (q, ret)
    else
      let s := set_l2_cache (replicate (Z.to_nat (l2_size s * L2_CACHE_SIZE * SIZEOF_U64)) 0) s in
      let s := set_l2_cache_offsets (replicate (Z.to_nat L2_CACHE_SIZE) 0) s in
      let s := set_l2_cache_counts (replicate (Z.to_nat L2_CACHE_SIZE) 0) s in
      (with_st s q, 0).

(** A cluster that cannot be compressed is written as usual: [bdrv_write] on
    the image is [qcow_aio_writev], waited for. *)
Definition qcow_write_compressed (sector : Z) (data : list Z) (nb : Z) (recycled : option (list Z)) (q : Qcow) : option (Qcow * Z) :=
  let s := st q in
  if negb (nb =? cluster_sectors s) then Some (q, - EINVAL)
  else if negb (deflateInit2 =? 0) then Some (q, -1)
  else
    let '(ret, out_buf) := deflate data (cluster_size s) in
    if negb (ret =? Z_STREAM_END) && negb (ret =? Z_OK) then Some (q, -1)
    else
      let out_len := Zlength out_buf in
      if negb (ret =? Z_STREAM_END) || (cluster_size s <=? out_len) then
        '(q, _) ← qcow_aio_writev sector data (cluster_sectors s) recycled q;
        Some (q, 0)
      else
        '(q, co) ← get_cluster_offset (u64 (sector <<. 9)) 2 out_len 0 0 q;
        let co := co &. cluster_offset_mask s in
        let '(ret, f) := file_pwrite (file q) co out_buf in
        let q := with_file f q in
        if negb (ret =? out_len) then Some (q, -1) else Some (q, 0).

End Driver.

End Qcow.
