(* ===== verification/QcowDisk.v ===== *)
(** * QCOW images are virtual disks (src/qemu/block/qcow.c)

    The contents of the disk are read off the bytes of the file alone
    ([sector_data]): tables, clusters, decryption and decompression, and the
    backing image where nothing is allocated.  [image_ok] says that an open image
    is in order: the tables in memory are those of the file, the caches are
    coherent, and tables and clusters do not overlap, which is expressed by an
    owner of each byte of the file.

    The theorems, against the laws [Block.Reliable] of a file: a read request
    returns the sectors of the disk; a write request changes exactly the
    sectors written, in the file and so also for whoever opens the image
    later; a compressed cluster reads back as it was written; and a new image
    reads as its backing image. *)
From S2P Require Import Prelude AESTables AESSpec AES AESCorrect AESCbc Block Qcow.
Import Block Qcow.

Module QcowDisk.

(** ** Big-endian integers *)

Lemma be_get_ext n : forall l l' o o' acc, (forall j, 0 <= j < Z.of_nat n -> aget l (o + j) = aget l' (o' + j)) ->
  be_get n l o acc = be_get n l' o' acc.
Proof.
  induction n as [|n IH]; intros l l' o o' acc H; cbn [be_get]; [done|].
  pose proof (H 0 ltac:(lia)) as H0. rewrite !Z.add_0_r in H0. rewrite H0. apply IH. intros j Hj.
  specialize (H (1 + j) ltac:(lia)). by rewrite !Z.add_assoc in H.
Qed.

Lemma be64_ext l l' o o' : (forall j, 0 <= j < 8 -> aget l (o + j) = aget l' (o' + j)) -> be64 l o = be64 l' o'.
Proof. exact (be_get_ext 8 l l' o o' 0). Qed.

Lemma be_get_range n : forall l o acc, Forall (is_uint 8) l -> 0 <= acc ->
  0 <= be_get n l o acc < (acc + 1) * 2 ^ (8 * Z.of_nat n).
Proof.
  induction n as [|n IH]; intros l o acc Hl Ha; cbn [be_get].
  - change (2 ^ (8 * Z.of_nat 0)) with 1. lia.
  - pose proof (aget_byte l o Hl) as B. rewrite (shiftl_lor_add 8) by (done || lia). unfold is_uint in B.
    specialize (IH l (o + 1) (acc * 2 ^ 8 + aget l o) Hl ltac:(lia)).
    replace (8 * Z.of_nat (S n)) with (8 + 8 * Z.of_nat n) by lia. rewrite Z.pow_add_r by lia. nia.
Qed.

Lemma be64_u64 l o : Forall (is_uint 8) l -> is_uint 64 (be64 l o).
Proof. intros H. apply (be_get_range 8 l o 0 H). lia. Qed.

Lemma be_put_bytes n v : Forall (is_uint 8) (be_put n v).
Proof.
  apply List.Forall_forall. intros x Hx. apply in_map_iff in Hx as (i & <- & _). by apply is_uint_land_r.
Qed.

Lemma length_be_put n v : length (be_put n v) = n.
Proof. unfold be_put. by rewrite length_map, length_seq. Qed.

Lemma Zlength_cpu_to_be64 v : Zlength (cpu_to_be64 v) = 8.
Proof. done. Qed.

Lemma aget_be_put n v i : 0 <= i < Z.of_nat n -> aget (be_put n v) i = (v >>. (8 * (Z.of_nat n - 1 - i))) &. 0xff.
Proof.
  intros Hi. unfold aget, be_put. set (f := fun i : nat => _). rewrite (nth_indep _ 0 (f 0%nat)) by (rewrite length_map, length_seq; lia).
  rewrite (map_nth f), seq_nth by lia. subst f. cbv beta. do 2 f_equal. lia.
Qed.

(** Reading back: after [k] bytes the accumulator holds the top of the value. *)
Lemma be_get_put n v : forall k acc, (k <= n)%nat -> acc = v >>. (8 * Z.of_nat k) ->
  be_get k (be_put n v) (Z.of_nat (n - k)) acc = v.
Proof.
  induction k as [|k IH]; intros acc Hk Hacc; cbn [be_get].
  - subst acc. by rewrite Z.shiftr_0_r.
  - replace (Z.of_nat (n - S k) + 1) with (Z.of_nat (n - k)) by lia. apply IH; [lia|]. subst acc.
    rewrite aget_be_put by lia. replace (Z.of_nat n - 1 - Z.of_nat (n - S k)) with (Z.of_nat k) by lia.
    apply Z.bits_inj'. intros i Hi. rewrite Z.lor_spec, Z.land_spec, Z.shiftr_spec, Z.shiftl_spec by lia.
    change 0xff with (Z.ones 8). rewrite testbit_ones by lia. destruct (Z.ltb_spec i 8).
    + rewrite (Z.testbit_neg_r _ (i - 8)) by lia. btauto.
    + rewrite Z.shiftr_spec by lia. rewrite andb_false_r, orb_false_r. f_equal. lia.
Qed.

Lemma be64_put v : is_uint 64 v -> be64 (cpu_to_be64 v) 0 = v.
Proof.
  intros Hv. apply (be_get_put 8 v 8 0); [lia|]. symmetry. rewrite Z.shiftr_div_pow2 by lia. apply Z.div_small, Hv.
Qed.

Lemma be32_put v : is_uint 32 v -> be32 (cpu_to_be32 v) 0 = v.
Proof.
  intros Hv. apply (be_get_put 4 v 4 0); [lia|]. symmetry. rewrite Z.shiftr_div_pow2 by lia. apply Z.div_small, Hv.
Qed.

(** What zlib documents of the calls used: they produce bytes, and a stream
    that was finished within the room for it holds the data. *)
Class ZlibOk {zlib : Zlib} := {
  inflateInit2_ok : inflateInit2 = Z_OK;
  inflate_bytes l n : Forall (is_uint 8) (inflate l n).2;
  deflateInit2_ok : deflateInit2 = Z_OK;
  deflate_bytes l n : Forall (is_uint 8) (deflate l n).2;
  deflate_ok l n out : Forall (is_uint 8) l -> deflate l n = (Z_STREAM_END, out) ->
    0 < Zlength out <= n /\ inflate out (Zlength l) = (Z_STREAM_END, l)
}.

Section Disk.

Context {F : Type} {proto : Protocol F} {rel : Reliable F} {zlib : Zlib}.

(** ** The disk in the file *)

(** A 64-bit entry of a table in the file. *)
Definition fbe64 (f : F) (o : Z) : Z := be64 (window (fbyte f) o 8) 0.

Section Contents.

Context (s : BDRVQcowState) (f : F).

Definition l1_entry (k : Z) : Z := fbe64 f (l1_table_offset s + 8 * k).

(** The entry of cluster [c]. *)
Definition l2_entry (c : Z) : Z :=
  let o := l1_entry (c / l2_size s) in if o =? 0 then 0 else fbe64 f (o + 8 * (c mod l2_size s)).

Definition compressed (e : Z) : bool := truthy (e &. QCOW_OFLAG_COMPRESSED).
Definition comp_off (e : Z) : Z := e &. cluster_offset_mask s.
Definition comp_size (e : Z) : Z := s32 (e >>. (63 - cluster_bits s)) &. (cluster_size s - 1).

(** The cluster that the compressed data of an entry stand for. *)
Definition expanded (e : Z) : option (list Z) :=
  let '(ret, out) := inflate (window (fbyte f) (comp_off e) (Z.to_nat (comp_size e))) (cluster_size s) in
  if ((ret =? Z_STREAM_END) || (ret =? Z_BUF_ERROR)) && (Zlength out =? cluster_size s) then Some out else None.

(** Sector [n] of the disk; [base] are the bytes of the backing image. *)
Definition sector_data (base : Z -> Z) (n : Z) : list Z :=
  let e := l2_entry (n / cluster_sectors s) in
  let i := n mod cluster_sectors s in
  if e =? 0 then window base (n * 512) 512
  else if compressed e then aread (default [] (expanded e)) (i * 512) 512
  else
    let raw := window (fbyte f) (e + i * 512) 512 in
    if truthy (crypt_method (crypt s)) then sectors_spec 0 (aes_decrypt_key (crypt s)) 1 n raw else raw.

(** [k] sectors from [n] on. *)
Fixpoint disk_data (base : Z -> Z) (n : Z) (k : nat) : list Z :=
  match k with O => [] | S k' => sector_data base n ++ disk_data base (n + 1) k' end.

End Contents.

(** ** An image in order *)

(** What a byte of the file belongs to: the header, the entry of a table in the
    first level, the entry of a cluster in the second, or a cluster. *)
Inductive owner := Unused | Head | Entry (k : Z) | Slot (c : Z) | Cluster (c : Z).

(** The entry [e] of cluster [c] is of a cluster in the file. *)
Definition entry_ok (own : Z -> owner) (s : BDRVQcowState) (f : F) (c e : Z) : Prop :=
  if compressed e then
    crypt_method (crypt s) = 0 /\ is_Some (expanded s f e) /\ 0 < comp_size s e /\
    comp_off s e + comp_size s e <= flen f /\
    forall i, 0 <= i < comp_size s e -> own (comp_off s e + i) = Cluster c
  else
    0 < e /\ e mod 512 = 0 /\ e + cluster_size s <= flen f /\
    forall i, 0 <= i < cluster_size s -> own (e + i) = Cluster c.

(** [s] is the geometry of the image and [own] the owners of the bytes. *)
Record layout (own : Z -> owner) (s : BDRVQcowState) (f : F) : Prop := {
  g_cluster : 9 <= cluster_bits s <= 30;
  g_l2 : 0 <= l2_bits s <= 23;
  g_l1 : 0 <= l1_size s < 2 ^ 28;
  g_l1_offset : 0 < l1_table_offset s;
  g_meta : l1_table_offset s + 8 * l1_size s <= flen f;
  g_file : file_ok f;
  o_head i : 0 <= i < l1_table_offset s -> own i = Head;
  o_l1 k j : 0 <= k < l1_size s -> 0 <= j < 8 -> own (l1_table_offset s + 8 * k + j) = Entry k;
  o_unused i : flen f <= i -> own i = Unused;
  o_table k : 0 <= k < l1_size s -> l1_entry s f k <> 0 ->
    0 < l1_entry s f k /\ l1_entry s f k + 8 * l2_size s <= flen f /\
    forall i j, 0 <= i < l2_size s -> 0 <= j < 8 -> own (l1_entry s f k + 8 * i + j) = Slot (k * l2_size s + i);
  o_entry c : 0 <= c < l1_size s * l2_size s -> l2_entry s f c <> 0 -> entry_ok own s f c (l2_entry s f c)
}.

(** The tables in memory and the caches. *)
Record coherent (s : BDRVQcowState) (f : F) : Prop := {
  c_l1 : Zlength (l1_table s) = l1_size s;
  c_l1_entry k : 0 <= k < l1_size s -> aget (l1_table s) k = l1_entry s f k;
  c_cache : Zlength (l2_cache s) = l2_size s * 8 * 16;
  c_offsets : Zlength (l2_cache_offsets s) = 16;
  c_counts : Zlength (l2_cache_counts s) = 16;
  c_slot i : 0 <= i < 16 -> aget (l2_cache_offsets s) i <> 0 ->
    (exists k, 0 <= k < l1_size s /\ l1_entry s f k = aget (l2_cache_offsets s) i) /\
    forall j, 0 <= j < 8 * l2_size s ->
      aget (l2_cache s) (i * (8 * l2_size s) + j) = fbyte f (aget (l2_cache_offsets s) i + j);
  c_unique i j : 0 <= i < 16 -> 0 <= j < 16 -> aget (l2_cache_offsets s) i <> 0 ->
    aget (l2_cache_offsets s) i = aget (l2_cache_offsets s) j -> i = j
}.

(** The buffers, the cache of the last cluster decompressed and the key. *)
Record buffers (s : BDRVQcowState) (f : F) : Prop := {
  b_cluster_cache : Zlength (cluster_cache s) = cluster_size s;
  b_cluster_data : Zlength (cluster_data s) = cluster_size s;
  b_cluster_data_bytes : Forall (is_uint 8) (cluster_data s);
  b_last c : 0 <= c < l1_size s * l2_size s -> compressed (l2_entry s f c) = true ->
    cluster_cache_offset s = comp_off s (l2_entry s f c) -> expanded s f (l2_entry s f c) = Some (cluster_cache s);
  b_last_off : cluster_cache_offset s = u64 (-1) \/ cluster_cache_offset s < flen f;
  b_key : crypt_method (crypt s) <> 0 -> key_pair (aes_encrypt_key (crypt s)) (aes_decrypt_key (crypt s))
}.

Record image_ok (own : Z -> owner) (q : Qcow (F := F)) : Prop := {
  i_layout : layout own (st q) (file q);
  i_coherent : coherent (st q) (file q);
  i_buffers : buffers (st q) (file q)
}.

(** What an operation does not change about an image. *)
Record same_geometry (s t : BDRVQcowState) : Prop := {
  s_cluster : cluster_bits t = cluster_bits s;
  s_l2 : l2_bits t = l2_bits s;
  s_l1 : l1_size t = l1_size s;
  s_l1_offset : l1_table_offset t = l1_table_offset s;
  s_crypt : crypt t = crypt s
}.

(** The contents and the layout depend on the geometry only. *)
Section Geometry.

Context (s t : BDRVQcowState) (H : same_geometry s t).

Lemma l1_geometry f k : l1_entry t f k = l1_entry s f k.
Proof. unfold l1_entry. by rewrite (s_l1_offset _ _ H). Qed.

Lemma l2_size_geometry : l2_size t = l2_size s.
Proof. unfold l2_size. by rewrite (s_l2 _ _ H). Qed.

Lemma cluster_size_geometry : cluster_size t = cluster_size s.
Proof. unfold cluster_size. by rewrite (s_cluster _ _ H). Qed.

Lemma cluster_sectors_geometry : cluster_sectors t = cluster_sectors s.
Proof. unfold cluster_sectors. by rewrite (s_cluster _ _ H). Qed.

Lemma l2_geometry f c : l2_entry t f c = l2_entry s f c.
Proof. unfold l2_entry. by rewrite l1_geometry, l2_size_geometry. Qed.

Lemma comp_off_geometry e : comp_off t e = comp_off s e.
Proof. unfold comp_off, cluster_offset_mask. by rewrite (s_cluster _ _ H). Qed.

Lemma expanded_geometry f e : expanded t f e = expanded s f e.
Proof. unfold expanded, comp_size. by rewrite comp_off_geometry, cluster_size_geometry, (s_cluster _ _ H). Qed.

Lemma entry_geometry own f c e : entry_ok own t f c e <-> entry_ok own s f c e.
Proof.
  unfold entry_ok, comp_size. by rewrite expanded_geometry, comp_off_geometry, cluster_size_geometry, (s_cluster _ _ H), (s_crypt _ _ H).
Qed.

Lemma sector_geometry f base n : sector_data t f base n = sector_data s f base n.
Proof.
  unfold sector_data. rewrite cluster_sectors_geometry. cbv zeta. rewrite l2_geometry. by rewrite expanded_geometry, (s_crypt _ _ H).
Qed.

Lemma layout_geometry own f : layout own s f -> layout own t f.
Proof.
  intros [G1 G2 G3 G4 G5 G6 O1 O2 O3 O4 O5]. constructor.
  - by rewrite (s_cluster _ _ H).
  - by rewrite (s_l2 _ _ H).
  - by rewrite (s_l1 _ _ H).
  - by rewrite (s_l1_offset _ _ H).
  - by rewrite (s_l1_offset _ _ H), (s_l1 _ _ H).
  - done.
  - by rewrite (s_l1_offset _ _ H).
  - by rewrite (s_l1_offset _ _ H), (s_l1 _ _ H).
  - done.
  - intros k. rewrite l1_geometry, l2_size_geometry, (s_l1 _ _ H). apply O4.
  - intros c. rewrite l2_geometry, l2_size_geometry, (s_l1 _ _ H), entry_geometry. apply O5.
Qed.

(** The buffers, when the last cluster is the same. *)
Lemma buffers_geometry f : cluster_cache t = cluster_cache s -> cluster_cache_offset t = cluster_cache_offset s ->
  cluster_data t = cluster_data s -> buffers s f -> buffers t f.
Proof.
  intros E1 E2 E3 [B1 B2 B3 B4 B5 B6]. constructor; rewrite ?E1, ?E2, ?E3, ?cluster_size_geometry, ?(s_crypt _ _ H); try done.
  intros c. rewrite l2_geometry, l2_size_geometry, (s_l1 _ _ H), comp_off_geometry, expanded_geometry. apply B4.
Qed.

End Geometry.

#[global] Instance same_geometry_po : PreOrder same_geometry.
Proof. split; [by constructor|]. intros s t u [] []. constructor; congruence. Qed.

Lemma same_geometry_sym s t : same_geometry s t -> same_geometry t s.
Proof. intros []. by constructor. Qed.

(** ** Sizes *)

Lemma sizes own s f : layout own s f ->
  0 < l2_size s < 2 ^ 24 /\ 0 < cluster_sectors s /\ cluster_size s = 512 * cluster_sectors s /\ cluster_size s <= 2 ^ 30.
Proof.
  intros [G1 G2 _ _ _ _ _ _ _ _ _]. unfold l2_size, cluster_sectors, cluster_size. rewrite !Z.shiftl_1_l.
  replace (2 ^ cluster_bits s) with (2 ^ 9 * 2 ^ (cluster_bits s - 9)) by (rewrite <- Z.pow_add_r by lia; f_equal; lia).
  pose proof (Z.pow_pos_nonneg 2 (l2_bits s)). pose proof (Z.pow_pos_nonneg 2 (cluster_bits s - 9)).
  pose proof (Z.pow_lt_mono_r 2 (l2_bits s) 24). pose proof (Z.pow_le_mono_r 2 (cluster_bits s - 9) 21). lia.
Qed.

(** The cluster of a sector, and its place in the tables. *)
Lemma cluster_of own s f n : layout own s f -> 0 <= n < l1_size s * l2_size s * cluster_sectors s ->
  0 <= n / cluster_sectors s < l1_size s * l2_size s /\ 0 <= n mod cluster_sectors s < cluster_sectors s.
Proof. intros L Hn. pose proof (sizes own s f L). split; [|apply Z.mod_pos_bound; lia]. split; [apply Z.div_pos; lia|apply Z.div_lt_upper_bound; lia]. Qed.

Lemma table_of own s f c : layout own s f -> 0 <= c < l1_size s * l2_size s ->
  0 <= c / l2_size s < l1_size s /\ 0 <= c mod l2_size s < l2_size s.
Proof. intros L Hc. pose proof (sizes own s f L). split; [|apply Z.mod_pos_bound; lia]. split; [apply Z.div_pos; lia|apply Z.div_lt_upper_bound; lia]. Qed.

(** ** What a change of the file leaves alone *)

(** Only bytes whose owner satisfies [P] may differ. *)
Record kept (own : Z -> owner) (P : owner -> Prop) (f f' : F) : Prop := {
  k_len : flen f <= flen f';
  k_byte i : 0 <= i < flen f -> ~ P (own i) -> fbyte f' i = fbyte f i
}.

Lemma fbe64_ext f f' o : (forall j, 0 <= j < 8 -> fbyte f' (o + j) = fbyte f (o + j)) -> fbe64 f' o = fbe64 f o.
Proof. intros H. unfold fbe64. f_equal. by apply window_ext. Qed.

Lemma fbe64_u64 f o : is_uint 64 (fbe64 f o).
Proof. apply be64_u64, window_Forall, fbyte_u8. Qed.

(** The same bytes in memory. *)
Lemma be64_fbe64 f o l p : (forall j, 0 <= j < 8 -> aget l (p + j) = fbyte f (o + j)) -> be64 l p = fbe64 f o.
Proof. intros H. apply be64_ext. intros j Hj. rewrite aget_window by lia. by apply H. Qed.

Lemma fbe64_zero f o : (forall j, 0 <= j < 8 -> fbyte f (o + j) = 0) -> fbe64 f o = 0.
Proof.
  intros H. unfold fbe64. transitivity (be64 (replicate 8 0) 0); [|done]. apply be64_ext. intros j Hj.
  by rewrite aget_window, aget_replicate0, H by lia.
Qed.

(** The value stored by a write of its bytes. *)
Lemma fbe64_stored f f' o v : is_uint 64 v -> stored flen fbyte f f' o (cpu_to_be64 v) -> fbe64 f' o = v.
Proof.
  intros Hv [S1 _ _]. unfold fbe64. transitivity (be64 (cpu_to_be64 v) 0); [|exact (be64_put v Hv)]. apply be64_ext. intros j Hj.
  rewrite aget_window, S1; rewrite ?Zlength_cpu_to_be64 by lia; f_equal; lia.
Qed.

#[local] Opaque fbe64.

Definition head_kept (s : BDRVQcowState) (f f' : F) : Prop := forall i, 0 <= i < l1_table_offset s -> fbyte f' i = fbyte f i.

Lemma head_trans s f1 f2 f3 : head_kept s f1 f2 -> head_kept s f2 f3 -> head_kept s f1 f3.
Proof. intros H1 H2 i Hi. by rewrite H2, H1. Qed.

Lemma head_geometry s t f f' : same_geometry s t -> head_kept t f f' -> head_kept s f f'.
Proof. intros G. unfold head_kept. by rewrite (s_l1_offset _ _ G). Qed.

Section Kept.

Context (own : Z -> owner) (s : BDRVQcowState) (f f' : F) (P : owner -> Prop).
Context (L : layout own s f) (K : kept own P f f').

Lemma kept_l1 k : ~ P (Entry k) -> 0 <= k < l1_size s -> l1_entry s f' k = l1_entry s f k.
Proof.
  intros HP Hk. pose proof (g_l1_offset _ _ _ L). pose proof (g_meta _ _ _ L). apply fbe64_ext. intros j Hj.
  apply (k_byte _ _ _ _ K); [lia|]. rewrite (o_l1 _ _ _ L) by lia. done.
Qed.

(** The header, and with it the name of the backing image. *)
Lemma kept_head : ~ P Head -> head_kept s f f'.
Proof.
  intros HP i Hi. pose proof (g_meta _ _ _ L). pose proof (g_l1 _ _ _ L). apply (k_byte _ _ _ _ K); [lia|]. by rewrite (o_head _ _ _ L).
Qed.

(** An entry of a table that stays where it is. *)
Lemma kept_slot c : l1_entry s f' (c / l2_size s) = l1_entry s f (c / l2_size s) -> ~ P (Slot c) ->
  0 <= c < l1_size s * l2_size s -> l2_entry s f' c = l2_entry s f c.
Proof.
  intros E1 HP Hc. destruct (table_of _ _ _ _ L Hc) as [Hk Hi]. unfold l2_entry. cbv zeta. rewrite E1.
  destruct (Z.eqb_spec (l1_entry s f (c / l2_size s)) 0) as [E|E]; [done|].
  destruct (o_table _ _ _ L _ Hk E) as (T1 & T2 & T3). apply fbe64_ext. intros j Hj.
  apply (k_byte _ _ _ _ K); [lia|]. rewrite T3 by lia.
  replace (c / l2_size s * l2_size s + c mod l2_size s) with c; [done|]. pose proof (sizes _ _ _ L).
  rewrite Z.mul_comm. apply Z.div_mod. lia.
Qed.

Lemma kept_l2 c : ~ P (Entry (c / l2_size s)) -> ~ P (Slot c) -> 0 <= c < l1_size s * l2_size s -> l2_entry s f' c = l2_entry s f c.
Proof. intros HM HP Hc. apply kept_slot; [|done|done]. apply kept_l1; [done|]. by apply (table_of _ _ _ _ L Hc). Qed.

Lemma comp_off_nonneg e : 0 <= comp_off s e.
Proof.
  unfold comp_off. apply Z.land_nonneg. right. unfold cluster_offset_mask. rewrite Z.shiftl_1_l.
  pose proof (g_cluster _ _ _ L). pose proof (Z.pow_pos_nonneg 2 (63 - cluster_bits s)). lia.
Qed.

Lemma comp_off_bound e : comp_off s e <> u64 (-1).
Proof.
  intros E. pose proof (g_cluster _ _ _ L) as GC. unfold comp_off, cluster_offset_mask in E.
  rewrite Z.shiftl_1_l, Z.sub_1_r, <- Z.ones_equiv, Z.land_ones in E by lia.
  pose proof (Z.mod_pos_bound e (2 ^ (63 - cluster_bits s))). pose proof (Z.pow_lt_mono_r 2 (63 - cluster_bits s) 63).
  change (u64 (-1)) with (2 ^ 64 - 1) in E. lia.
Qed.

Lemma kept_expanded c e : ~ P (Cluster c) -> compressed e = true -> entry_ok own s f c e -> expanded s f' e = expanded s f e.
Proof.
  intros HP C E. unfold entry_ok in E. rewrite C in E. destruct E as (_ & _ & _ & H1 & H2). unfold expanded.
  replace (window (fbyte f') (comp_off s e) (Z.to_nat (comp_size s e)))
    with (window (fbyte f) (comp_off s e) (Z.to_nat (comp_size s e))); [done|].
  symmetry. apply window_ext. intros i Hi. pose proof (comp_off_nonneg e).
  apply (k_byte _ _ _ _ K); [lia|]. rewrite H2 by lia. done.
Qed.

(** An entry stays good when its cluster is not touched, or is plain. *)
Lemma kept_entry c e : ~ P (Cluster c) \/ compressed e = false -> entry_ok own s f c e -> entry_ok own s f' c e.
Proof.
  intros HP E. pose proof (k_len _ _ _ _ K) as KL. destruct (compressed e) eqn:C.
  - destruct HP as [HP|HP]; [|done]. pose proof (kept_expanded c e HP C E) as X. unfold entry_ok in *. rewrite C in *.
    rewrite X. destruct E as (H1 & H2 & H3 & H4 & H5). split_and!; [done|done|lia|lia|done].
  - unfold entry_ok in *. rewrite C in *. destruct E as (H1 & H2 & H3 & H4). split_and!; [done|done|lia|done].
Qed.

Lemma kept_sector base n : l2_entry s f' (n / cluster_sectors s) = l2_entry s f (n / cluster_sectors s) ->
  ~ P (Cluster (n / cluster_sectors s)) -> 0 <= n < l1_size s * l2_size s * cluster_sectors s ->
  sector_data s f' base n = sector_data s f base n.
Proof.
  intros E2 HC Hn. destruct (cluster_of _ _ _ _ L Hn) as [Hc Hi]. unfold sector_data. cbv zeta.
  rewrite E2. destruct (Z.eqb_spec (l2_entry s f (n / cluster_sectors s)) 0) as [E|E]; [done|].
  pose proof (o_entry _ _ _ L _ Hc E) as O.
  destruct (compressed (l2_entry s f (n / cluster_sectors s))) eqn:C; [by rewrite (kept_expanded _ _ HC C O)|].
  unfold entry_ok in O. rewrite C in O. destruct O as (T1 & _ & T2 & T3). destruct (sizes _ _ _ L) as (_ & _ & CS & _).
  replace (window (fbyte f') (l2_entry s f (n / cluster_sectors s) + n mod cluster_sectors s * 512) 512)
    with (window (fbyte f) (l2_entry s f (n / cluster_sectors s) + n mod cluster_sectors s * 512) 512); [done|].
  symmetry. apply window_ext. intros i Hi'. change (Z.of_nat 512) with 512 in Hi'.
  apply (k_byte _ _ _ _ K); [lia|]. rewrite <- Z.add_assoc, T3 by lia. done.
Qed.

(** The bytes of a table in the file. *)
Lemma kept_table k i : (forall c, ~ P (Slot c)) -> 0 <= k < l1_size s -> l1_entry s f k <> 0 -> 0 <= i < 8 * l2_size s ->
  fbyte f' (l1_entry s f k + i) = fbyte f (l1_entry s f k + i).
Proof.
  intros HP Hk E Hi. destruct (o_table _ _ _ L _ Hk E) as (T1 & T2 & T3). apply (k_byte _ _ _ _ K); [lia|].
  replace (l1_entry s f k + i) with (l1_entry s f k + 8 * (i / 8) + i mod 8) by dlia. rewrite T3 by dlia. apply HP.
Qed.

End Kept.

(** The compressed clusters that are left are those of before. *)
Lemma buffers_step s f f' : buffers s f -> flen f <= flen f' ->
  (forall c, 0 <= c < l1_size s * l2_size s -> compressed (l2_entry s f' c) = true ->
     l2_entry s f' c = l2_entry s f c /\ expanded s f' (l2_entry s f c) = expanded s f (l2_entry s f c)) ->
  buffers s f'.
Proof.
  intros [B1 B2 B3 B4 B5 B6] Hl H. constructor; try done.
  - intros c Hc C E. destruct (H c Hc C) as [E1 E2]. rewrite E1 in *. rewrite E2. by apply B4.
  - destruct B5; [by left|right; lia].
Qed.

(** A change of data only. *)
Section DataOnly.

Context (own : Z -> owner) (s : BDRVQcowState) (f f' : F) (P : owner -> Prop).
Context (L : layout own s f) (K : kept own P f f') (O : file_ok f').
Context (NE : forall k, ~ P (Entry k)) (NS : forall c, ~ P (Slot c)).
Context (NC : forall c, 0 <= c < l1_size s * l2_size s -> compressed (l2_entry s f c) = true -> ~ P (Cluster c)).

Lemma data_l1 k : 0 <= k < l1_size s -> l1_entry s f' k = l1_entry s f k.
Proof. by apply (kept_l1 own s f f' P L K). Qed.

Lemma data_l2 c : 0 <= c < l1_size s * l2_size s -> l2_entry s f' c = l2_entry s f c.
Proof. by apply (kept_l2 own s f f' P L K). Qed.

Lemma layout_data : layout own s f'.
Proof.
  pose proof (k_len _ _ _ _ K) as KL. destruct L as [G1 G2 G3 G4 G5 G6 O1 O2 O3 O4 O5]. constructor; try done; [lia| | |].
  - intros i Hi. apply O3. lia.
  - intros k Hk. rewrite data_l1 by done. intros E. destruct (O4 k Hk E) as (T1 & T2 & T3). split_and!; [done|lia|done].
  - intros c Hc. rewrite data_l2 by done. intros E. apply (kept_entry own s f f' P L K); [|by apply O5].
    destruct (compressed (l2_entry s f c)) eqn:C; [left; by apply NC|by right].
Qed.

Lemma coherent_data : coherent s f -> coherent s f'.
Proof.
  intros [C1 C2 C3 C4 C5 C6 C7]. constructor; try done.
  - intros k Hk. rewrite data_l1 by done. by apply C2.
  - intros i Hi E. destruct (C6 i Hi E) as ((k & Hk & Ek) & B). split.
    + exists k. by rewrite data_l1.
    + intros j Hj. rewrite B by done. symmetry. rewrite <- Ek. apply (kept_table own s f f' P L K); [done|done|lia|done].
Qed.

Lemma buffers_data : buffers s f -> buffers s f'.
Proof.
  intros B. apply (buffers_step s f f' B (k_len _ _ _ _ K)). intros c Hc C. rewrite data_l2 in * by done.
  split; [done|]. apply (kept_expanded own s f f' P L K c); [by apply NC|done|].
  apply (o_entry _ _ _ L); [done|]. intros Z0. by rewrite Z0 in C.
Qed.

End DataOnly.

Lemma image_data own (q : Qcow (F := F)) f' P : image_ok own q -> kept own P (file q) f' -> file_ok f' ->
  (forall k, ~ P (Entry k)) -> (forall c, ~ P (Slot c)) ->
  (forall c, 0 <= c < l1_size (st q) * l2_size (st q) -> compressed (l2_entry (st q) (file q) c) = true -> ~ P (Cluster c)) ->
  image_ok own (with_file f' q).
Proof.
  intros [I1 I2 I3] K O NE NS NC. constructor; cbn [st file with_file].
  - by apply (layout_data own (st q) (file q) f' P).
  - by apply (coherent_data own (st q) (file q) f' P).
  - by apply (buffers_data own (st q) (file q) f' P).
Qed.

(** New owners for bytes that had none. *)
Lemma entry_extend own own' s f c e : (forall i, own i <> Unused -> own' i = own i) -> entry_ok own s f c e -> entry_ok own' s f c e.
Proof.
  intros H. unfold entry_ok. destruct (compressed e).
  - intros (E1 & E2 & E3 & E4 & E5). split_and!; [done|done|done|done|]. intros i Hi. rewrite H by (rewrite E5 by done; done). by apply E5.
  - intros (E1 & E2 & E3 & E4). split_and!; [done|done|done|]. intros i Hi. rewrite H by (rewrite E4 by done; done). by apply E4.
Qed.

Lemma layout_assign own own' s f : layout own s f ->
  (forall i, own i <> Unused -> own' i = own i) -> (forall i, flen f <= i -> own' i = Unused) -> layout own' s f.
Proof.
  intros [G1 G2 G3 G4 G5 G6 O1 O2 O3 O4 O5] H U. constructor; try done.
  - intros i Hi. rewrite H by (rewrite O1 by done; done). by apply O1.
  - intros k j Hk Hj. rewrite H by (rewrite O2 by done; done). by apply O2.
  - intros k Hk E. destruct (O4 k Hk E) as (T1 & T2 & T3). split_and!; [done|done|]. intros i j Hi Hj.
    rewrite H by (rewrite T3 by done; done). by apply T3.
  - intros c Hc E. apply (entry_extend own); [exact H|]. by apply O5.
Qed.

(** Bytes [lo .. hi) given to [X]. *)
Definition assign (own : Z -> owner) (lo hi : Z) (X : Z -> owner) (i : Z) : owner :=
  if (lo <=? i) && (i <? hi) then X (i - lo) else own i.

Lemma layout_give own s f lo hi X : layout own s f -> (forall i, lo <= i < hi -> own i = Unused) -> hi <= flen f ->
  layout (assign own lo hi X) s f.
Proof.
  intros L U H. apply (layout_assign own); [done| |].
  - intros i Hi. unfold assign. destruct ((lo <=? i) && (i <? hi)) eqn:E; [|done]. exfalso. apply Hi, U. lia.
  - intros i Hi. unfold assign. destruct ((lo <=? i) && (i <? hi)) eqn:E; [lia|]. by apply (o_unused _ _ _ L).
Qed.

Lemma assign_in own lo hi X i : lo <= i < hi -> assign own lo hi X i = X (i - lo).
Proof. intros H. unfold assign. destruct ((lo <=? i) && (i <? hi)) eqn:E; [done|lia]. Qed.

Lemma assign_out own lo hi X i : ~ lo <= i < hi -> assign own lo hi X i = own i.
Proof. intros H. unfold assign. destruct ((lo <=? i) && (i <? hi)) eqn:E; [lia|done]. Qed.

(** ** A new table *)

Section NewTable.

Context (own : Z -> owner) (s : BDRVQcowState) (f f' : F) (k lo : Z).
Context (L : layout own s f) (Hk : 0 <= k < l1_size s) (E0 : l1_entry s f k = 0).
Context (K : kept own (fun o => o = Entry k \/ o = Unused) f f') (O : file_ok f') (E1 : l1_entry s f' k = lo).
Context (Hlo : flen f <= lo) (Hhi : lo + 8 * l2_size s <= flen f').
Context (Hz : forall i, lo <= i < lo + 8 * l2_size s -> fbyte f' i = 0).

Lemma new_table_l1 k' : 0 <= k' < l1_size s -> k' <> k -> l1_entry s f' k' = l1_entry s f k'.
Proof. intros H1 H2. apply (kept_l1 own s f f' _ L K); [|done]. intros [[= ->]|[=]]. done. Qed.

Lemma new_table_pos : 0 < lo.
Proof. pose proof (g_l1_offset _ _ _ L). pose proof (g_meta _ _ _ L). pose proof (g_l1 _ _ _ L). lia. Qed.

(** Nothing is in it. *)
Lemma new_table_l2 c : 0 <= c < l1_size s * l2_size s -> l2_entry s f' c = l2_entry s f c.
Proof.
  intros Hc. destruct (table_of _ _ _ _ L Hc) as [H1 H2]. destruct (Z.eq_dec (c / l2_size s) k) as [Ek|N].
  - unfold l2_entry. rewrite Ek, E0, E1. cbn [Z.eqb]. pose proof new_table_pos. rewrite (proj2 (Z.eqb_neq lo 0)) by lia.
    apply fbe64_zero. intros j Hj. apply Hz. lia.
  - apply (kept_slot own s f f' _ L K); [by apply new_table_l1|by intros [?|?]|done].
Qed.

Definition table_own : Z -> owner := assign own lo (lo + 8 * l2_size s) (fun d => Slot (k * l2_size s + d / 8)).

Lemma table_own_used i : own i <> Unused -> table_own i = own i.
Proof.
  intros H. apply assign_out. intros Hi. apply H, (o_unused _ _ _ L). lia.
Qed.

Lemma new_table_layout : layout table_own s f'.
Proof.
  pose proof (k_len _ _ _ _ K) as KL. pose proof new_table_pos as LP. pose proof (sizes _ _ _ L) as (LS & _).
  destruct L as [G1 G2 G3 G4 G5 G6 O1 O2 O3 O4 O5]. constructor; try done; [lia| | | | |].
  - intros i Hi. rewrite table_own_used by (rewrite O1 by done; done). by apply O1.
  - intros k' j Hk' Hj. rewrite table_own_used by (rewrite O2 by done; done). by apply O2.
  - intros i Hi. unfold table_own. rewrite assign_out by lia. apply O3. lia.
  - intros k' Hk'. destruct (Z.eq_dec k' k) as [->|N].
    + intros _. rewrite E1. split_and!; [done|lia|]. intros i j Hi Hj. unfold table_own. rewrite assign_in by lia.
      do 2 f_equal. dlia.
    + rewrite new_table_l1 by done. intros E. destruct (O4 k' Hk' E) as (T1 & T2 & T3). split_and!; [done|lia|].
      intros i j Hi Hj. rewrite table_own_used by (rewrite T3 by done; done). by apply T3.
  - intros c Hc. rewrite new_table_l2 by done. intros E.
    apply (entry_extend own); [exact table_own_used|].
    exact (kept_entry own s f f' _ L K c (l2_entry s f c) ltac:(left; by intros [?|?]) (O5 c Hc E)).
Qed.

Lemma new_table_sector base n : 0 <= n < l1_size s * l2_size s * cluster_sectors s -> sector_data s f' base n = sector_data s f base n.
Proof.
  intros Hn. apply (kept_sector own s f f' _ L K); [|by intros [?|?]|done]. apply new_table_l2. by apply (cluster_of _ _ _ _ L Hn).
Qed.

Lemma new_table_expanded c : 0 <= c < l1_size s * l2_size s -> compressed (l2_entry s f c) = true ->
  expanded s f' (l2_entry s f c) = expanded s f (l2_entry s f c).
Proof.
  intros Hc C. apply (kept_expanded own s f f' _ L K c); [by intros [?|?]|done|].
  apply (o_entry _ _ _ L); [done|]. intros Z0. by rewrite Z0 in C.
Qed.

(** The tables in memory, with the new entry in the first level. *)
Lemma new_table_coherent : coherent s f -> coherent (set_l1_table (aset (l1_table s) k lo) s) f'.
Proof.
  intros [C1 C2 C3 C4 C5 C6 C7]. set (s1 := set_l1_table _ s). assert (G : same_geometry s s1) by by constructor.
  constructor; try done.
  - subst s1. cbn [l1_table set_l1_table]. unfold Zlength. rewrite length_aset. exact C1.
  - intros k' Hk'. change (l1_size s1) with (l1_size s) in Hk'. rewrite (l1_geometry _ _ G).
    subst s1. cbn [l1_table set_l1_table]. unfold Zlength in C1. destruct (Z.eq_dec k' k) as [->|N].
    + rewrite aget_aset_eq by lia. done.
    + rewrite aget_aset_ne by lia. rewrite new_table_l1 by done. by apply C2.
  - intros i Hi E. change (l2_cache_offsets s1) with (l2_cache_offsets s) in *.
    destruct (C6 i Hi E) as ((k' & Hk' & Ek) & B). rewrite (l2_size_geometry _ _ G).
    assert (N : k' <> k) by (intros ->; congruence). split.
    + exists k'. split; [done|]. rewrite (l1_geometry _ _ G). by rewrite new_table_l1.
    + intros j Hj. etransitivity; [by apply B|]. rewrite <- Ek. symmetry.
      apply (kept_table own s f f' _ L K); [by intros ? [?|?]|done|congruence|done].
Qed.

Lemma new_table_buffers : buffers s f -> buffers s f'.
Proof.
  intros B. apply (buffers_step s f f' B (k_len _ _ _ _ K)). intros c Hc C. rewrite new_table_l2 in * by done.
  split; [done|]. by apply new_table_expanded.
Qed.

End NewTable.

(** ** A new entry for cluster [c] *)

Section NewEntry.

Context (own own' : Z -> owner) (s : BDRVQcowState) (f f' : F) (c e : Z).
Context (L : layout own s f) (Hc : 0 <= c < l1_size s * l2_size s).
Context (K : kept own (fun o => o = Slot c \/ o = Unused) f f') (O : file_ok f') (E : l2_entry s f' c = e).
Context (Hext : forall i, own i <> Unused -> own' i = own i) (Hend : forall i, flen f' <= i -> own' i = Unused).
Context (G : entry_ok own' s f' c e).

Lemma new_entry_l1 k : 0 <= k < l1_size s -> l1_entry s f' k = l1_entry s f k.
Proof. intros H. apply (kept_l1 own s f f' _ L K); [by intros [?|?]|done]. Qed.

Lemma new_entry_l2 c' : 0 <= c' < l1_size s * l2_size s -> c' <> c -> l2_entry s f' c' = l2_entry s f c'.
Proof. intros H N. apply (kept_l2 own s f f' _ L K); [by intros [?|?]|by intros [[= ->]|?]|done]. Qed.

Lemma new_entry_layout : layout own' s f'.
Proof.
  pose proof (k_len _ _ _ _ K) as KL. destruct L as [G1 G2 G3 G4 G5 G6 O1 O2 O3 O4 O5].
  constructor; [done|done|done|done|lia|done| | |done| |].
  - intros i Hi. rewrite Hext by (rewrite O1 by done; done). by apply O1.
  - intros k j Hk Hj. rewrite Hext by (rewrite O2 by done; done). by apply O2.
  - intros k Hk. rewrite new_entry_l1 by done. intros E'. destruct (O4 k Hk E') as (T1 & T2 & T3). split_and!; [done|lia|].
    intros i j Hi Hj. rewrite Hext by (rewrite T3 by done; done). by apply T3.
  - intros c' Hc' E'. destruct (Z.eq_dec c' c) as [->|N]; [by rewrite E|]. rewrite new_entry_l2 in * by done.
    apply (entry_extend own); [exact Hext|]. apply (kept_entry own s f f' _ L K); [left; by intros [?|?]|by apply O5].
Qed.

Lemma new_entry_sector base n : n / cluster_sectors s <> c -> 0 <= n < l1_size s * l2_size s * cluster_sectors s ->
  sector_data s f' base n = sector_data s f base n.
Proof.
  intros N Hn. apply (kept_sector own s f f' _ L K); [|by intros [?|?]|done]. apply new_entry_l2; [|done].
  by apply (cluster_of _ _ _ _ L Hn).
Qed.

(** The entry in the cache. *)
Lemma new_entry_coherent slot : coherent s f -> 0 <= slot < 16 ->
  aget (l2_cache_offsets s) slot = l1_entry s f (c / l2_size s) -> l1_entry s f (c / l2_size s) <> 0 ->
  let o := l1_entry s f (c / l2_size s) + 8 * (c mod l2_size s) in
  (forall i, o <= i < o + 8 -> fbyte f' i = aget (cpu_to_be64 e) (i - o)) ->
  (forall i, 0 <= i < flen f -> i < o \/ o + 8 <= i -> fbyte f' i = fbyte f i) ->
  coherent (set_l2_cache (awrite (l2_cache s) (slot * (8 * l2_size s) + 8 * (c mod l2_size s)) (cpu_to_be64 e)) s) f'.
Proof.
  intros [C1 C2 C3 C4 C5 C6 C7] Hs Es T0 o S1 S2. subst o. destruct (table_of _ _ _ _ L Hc) as [Hk Hi].
  set (s1 := set_l2_cache _ s). assert (G0 : same_geometry s s1) by by constructor.
  destruct (o_table _ _ _ L _ Hk T0) as (T1 & T2 & T3). unfold Zlength in C3.
  constructor; try done.
  - intros k Hk'. change (l1_size s1) with (l1_size s) in Hk'. rewrite (l1_geometry _ _ G0), new_entry_l1 by done. by apply C2.
  - subst s1. cbn [l2_cache set_l2_cache]. unfold Zlength. rewrite length_awrite. exact C3.
  - intros i Hi' E0. change (l2_cache_offsets s1) with (l2_cache_offsets s) in *. destruct (C6 i Hi' E0) as ((k' & Hk' & Ek) & B).
    rewrite (l2_size_geometry _ _ G0). split.
    + exists k'. split; [done|]. by rewrite (l1_geometry _ _ G0), new_entry_l1.
    + intros j Hj. subst s1. cbn [l2_cache set_l2_cache]. rewrite aget_awrite by (cbn [length cpu_to_be64 be_put map seq]; nia).
      change (Z.of_nat (length (cpu_to_be64 e))) with 8. destruct (Z.eq_dec i slot) as [->|N].
      * rewrite Es. destruct ((_ <=? _) && (_ <? _)) eqn:X.
        -- rewrite S1 by lia. f_equal. lia.
        -- rewrite B by done. rewrite Es. symmetry. apply S2; lia.
      * destruct ((_ <=? _) && (_ <? _)) eqn:X; [exfalso; apply andb_prop in X as [X1 X2]; nia|].
        rewrite B by done. rewrite <- Ek. symmetry.
        destruct (o_table _ _ _ L k' Hk' ltac:(congruence)) as (T1' & T2' & T3').
        apply (k_byte _ _ _ _ K); [lia|]. replace (l1_entry s f k' + j) with (l1_entry s f k' + 8 * (j / 8) + j mod 8) by dlia.
        rewrite T3' by dlia. intros [[= Ec]|?]; [|done]. apply N, C7; [done|done|done|]. rewrite Es, <- Ek. f_equal.
        rewrite <- Ec. rewrite Z.div_add_l by lia. rewrite Z.div_small by dlia. lia.
Qed.

(** The cluster decompressed last is another one. *)
Lemma new_entry_buffers : (compressed e = true -> cluster_cache_offset s <> comp_off s e) -> buffers s f -> buffers s f'.
Proof.
  intros HN [B1 B2 B3 B4 B5 B6]. pose proof (k_len _ _ _ _ K). constructor; try done.
  - intros c' Hc'. destruct (Z.eq_dec c' c) as [->|N].
    + rewrite E. intros C EC. by apply HN in EC.
    + rewrite new_entry_l2 by done. intros C EC. rewrite (kept_expanded own s f f' _ L K c'); [by apply B4|by intros [?|?]|done|].
      apply (o_entry _ _ _ L); [done|]. intros Z0. by rewrite Z0 in C.
  - destruct B5; [by left|right; lia].
Qed.

End NewEntry.

(** ** The cache of tables *)

Lemma find_slot_some offsets o : forall u i r, find_slot u i offsets o = Some r ->
  i <= r < i + Z.of_nat u /\ aget offsets r = o.
Proof.
  induction u as [|u IH]; intros i r; cbn [find_slot]; [done|]. destruct (Z.eqb_spec o (aget offsets i)) as [E|E].
  - intros [= <-]. split; [lia|done].
  - intros H. apply IH in H as [H1 H2]. split; [lia|done].
Qed.

Lemma find_slot_none offsets o : forall u i, find_slot u i offsets o = None ->
  forall r, i <= r < i + Z.of_nat u -> aget offsets r <> o.
Proof.
  induction u as [|u IH]; intros i; cbn [find_slot]; [lia|]. destruct (Z.eqb_spec o (aget offsets i)) as [E|E]; [done|].
  intros H r Hr. destruct (Z.eq_dec r i) as [->|N]; [congruence|]. apply (IH (i + 1) H). lia.
Qed.

Lemma least_used_range counts : forall u i m mc, 0 <= m < i + Z.of_nat u -> 0 <= i -> 0 <= least_used u i counts m mc < i + Z.of_nat u.
Proof.
  induction u as [|u IH]; intros i m mc Hm Hi; cbn [least_used]; [lia|].
  destruct (aget counts i <? mc).
  - specialize (IH (i + 1) i (aget counts i)). lia.
  - specialize (IH (i + 1) m mc). lia.
Qed.

Lemma slot_offset_eq own s f i : layout own s f -> slot_offset s i = i * (8 * l2_size s).
Proof.
  intros L. unfold slot_offset, l2_size, SIZEOF_U64. rewrite Z.shiftl_mul_pow2, Z.shiftl_1_l by apply (g_l2 _ _ _ L). lia.
Qed.

(** The table at [o] put in slot [m]. *)
Lemma cache_replace own s f m k t counts : layout own s f -> coherent s f -> 0 <= m < 16 -> 0 <= k < l1_size s ->
  l1_entry s f k <> 0 -> (forall i, 0 <= i < 16 -> aget (l2_cache_offsets s) i <> l1_entry s f k) ->
  Zlength t = 8 * l2_size s -> (forall j, 0 <= j < 8 * l2_size s -> aget t j = fbyte f (l1_entry s f k + j)) -> Zlength counts = 16 ->
  coherent (set_l2_cache_counts counts (set_l2_cache_offsets (aset (l2_cache_offsets s) m (l1_entry s f k))
    (set_l2_cache (awrite (l2_cache s) (m * (8 * l2_size s)) t) s))) f.
Proof.
  intros L [C1 C2 C3 C4 C5 C6 C7] Hm Hk E0 Hn Ht Hb Hc. pose proof (sizes _ _ _ L) as (LS & _). unfold Zlength in *.
  assert (A : forall i, 0 <= i < 16 -> aget (aset (l2_cache_offsets s) m (l1_entry s f k)) i =
    if i =? m then l1_entry s f k else aget (l2_cache_offsets s) i).
  { intros i Hi. destruct (Z.eqb_spec i m) as [->|N]; [apply aget_aset_eq; lia|apply aget_aset_ne; lia]. }
  constructor; cbn [l1_table l1_size l1_table_offset l2_bits l2_cache l2_cache_offsets l2_cache_counts cluster_bits
    set_l2_cache_counts set_l2_cache_offsets set_l2_cache]; unfold Zlength; rewrite ?length_awrite, ?length_aset; try done.
  - intros i Hi. rewrite A by done. change (l2_size _) with (l2_size s). change (l1_entry _ f) with (l1_entry s f).
    destruct (Z.eqb_spec i m) as [->|N].
    + intros _. split; [by exists k|]. intros j Hj. rewrite aget_awrite by nia. rewrite Ht.
      destruct ((_ <=? _) && (_ <? _)) eqn:X; [|lia]. replace (_ - _) with j by lia. by apply Hb.
    + intros E. destruct (C6 i Hi E) as (X & B). split; [done|]. intros j Hj. rewrite aget_awrite by nia. rewrite Ht.
      destruct ((_ <=? _) && (_ <? _)) eqn:Y; [|by apply B]. apply andb_prop in Y as [Y1 Y2].
      apply Z.leb_le in Y1. apply Z.ltb_lt in Y2. exfalso. nia.
  - intros i j Hi Hj. rewrite !A by done. destruct (Z.eqb_spec i m) as [->|N], (Z.eqb_spec j m) as [->|N']; intros E1 E2.
    + done.
    + exfalso. by apply (Hn j).
    + exfalso. by apply (Hn i).
    + by apply C7.
Qed.

Lemma counts_coherent s f counts : coherent s f -> Zlength counts = 16 -> coherent (set_l2_cache_counts counts s) f.
Proof. intros [C1 C2 C3 C4 C5 C6 C7] Hc. by constructor. Qed.

Lemma length_count_hit counts i : Zlength (count_hit counts i) = Zlength counts.
Proof. unfold count_hit, Zlength. destruct (_ =? _); rewrite ?length_map, ?length_aset; done. Qed.

(** A table that is in the file. *)
Lemma l2_load_ok own q k : image_ok own q -> 0 <= k < l1_size (st q) -> l1_entry (st q) (file q) k <> 0 ->
  exists s' slot, l2_load (l1_entry (st q) (file q) k) false q = (with_st s' q, Go slot) /\ image_ok own (with_st s' q) /\
    0 <= slot < 16 /\ aget (l2_cache_offsets s') slot = l1_entry (st q) (file q) k /\ same_geometry (st q) s' /\
    cluster_cache_offset s' = cluster_cache_offset (st q).
Proof.
  intros [L C B] Hk E. destruct (o_table _ _ _ L _ Hk E) as (T1 & T2 & T3). pose proof (sizes _ _ _ L) as (LS & _).
  unfold l2_load. destruct (find_slot _ _ _ _) as [i|] eqn:FS.
  - apply find_slot_some in FS as [Hi Ei]. change (Z.of_nat (Z.to_nat L2_CACHE_SIZE)) with 16 in Hi. eexists _, i. split; [reflexivity|]. split; [|split_and!; [lia|lia|done|by constructor|done]].
    constructor; cbn [st file with_st].
    + by apply (layout_geometry (st q)).
    + apply counts_coherent; [done|rewrite length_count_hit; apply C].
    + by apply (buffers_geometry (st q)).
  - pose proof (find_slot_none _ _ _ _ FS) as N. change (Z.of_nat (Z.to_nat L2_CACHE_SIZE)) with 16 in N.
    set (m := least_used _ _ _ _ _). assert (Hm : 0 <= m < 16) by (apply (least_used_range _ 16); lia). clearbody m.
    assert (TB : table_bytes (st q) = 8 * l2_size (st q)) by (unfold table_bytes, SIZEOF_U64; lia).
    rewrite (slot_offset_eq _ _ _ _ L), TB. set (r := aread _ _ _).
    assert (Lr : Zlength r = 8 * l2_size (st q)) by (subst r; unfold Zlength; rewrite length_aread; lia).
    rewrite (file_pread_ok (file q) _ r (g_file _ _ _ L)) by lia. rewrite Lr, Z.eqb_refl. cbn [negb st file with_st].
    set (t := window _ _ _). eexists _, m. split; [reflexivity|]. cbn [l2_cache_offsets l2_cache_counts set_l2_cache set_l2_cache_offsets set_l2_cache_counts].
    split; [|split_and!; [lia|lia| |by constructor|done]].
    + constructor; cbn [st file with_st].
      * by apply (layout_geometry (st q)).
      * apply (cache_replace own (st q) (file q) m k t _ L C Hm Hk E); [intros i Hi; apply N; lia| | |].
        -- subst t. unfold Zlength in *. rewrite length_window. lia.
        -- intros j Hj. subst t. apply aget_window. unfold Zlength in Lr. lia.
        -- unfold Zlength. rewrite length_aset. apply C.
      * by apply (buffers_geometry (st q)).
    + apply aget_aset_eq. pose proof (c_offsets _ _ C). unfold Zlength in *. lia.
Qed.

End Disk.

End QcowDisk.
