(* ===== verification/QcowRead.v ===== *)
(** * Reading a QCOW image (src/qemu/block/qcow.c)

    The lookup of a cluster through the cached tables, the expansion of a
    compressed cluster and the callbacks of a read request, against the contents
    of the disk of QcowDisk.v: a request returns the sectors of the disk and
    leaves the file alone. *)
From S2P Require Import Prelude AESTables AESSpec AES AESCorrect AESCbc Block Qcow QcowDisk.
Import Block Qcow QcowDisk.

Module QcowRead.

#[local] Opaque fbe64.

(** A sector of the disk; its offset in bytes is a signed 64-bit number. *)
Definition sector_ok (s : BDRVQcowState) (n : Z) : Prop :=
  0 <= n < l1_size s * l2_size s * cluster_sectors s /\ n * 512 < 2 ^ 63.

Section Operations.

Context {F : Type} {proto : Protocol F} {rel : Reliable F} {zlib : Zlib} {zok : ZlibOk}.

(** ** The place of a sector in the tables *)

Section Index.

Context (own : Z -> owner) (s : BDRVQcowState) (f : F) (n : Z) (L : layout own s f) (Hn : sector_ok s n).

Lemma offset_eq : u64 (n <<. 9) = n * 512.
Proof. destruct Hn. rewrite Z.shiftl_mul_pow2 by lia. apply wrap_small. unfold is_uint. lia. Qed.

Lemma cluster_index_eq : (n * 512) >>. cluster_bits s = n / cluster_sectors s.
Proof.
  pose proof (g_cluster _ _ _ L). unfold cluster_sectors. rewrite Z.shiftl_1_l, Z.shiftr_div_pow2 by lia.
  replace (2 ^ cluster_bits s) with (2 ^ (cluster_bits s - 9) * 2 ^ 9) by (rewrite <- Z.pow_add_r by lia; f_equal; lia).
  apply Z.div_mul_cancel_r; [|done]. apply Z.pow_nonzero; lia.
Qed.

Lemma l1_index_eq : s32 ((n * 512) >>. (l2_bits s + cluster_bits s)) = n / cluster_sectors s / l2_size s.
Proof.
  pose proof (g_cluster _ _ _ L). pose proof (g_l2 _ _ _ L). pose proof (g_l1 _ _ _ L) as G1.
  rewrite Z.add_comm, <- Z.shiftr_shiftr, cluster_index_eq by lia. rewrite Z.shiftr_div_pow2 by lia.
  rewrite <- Z.shiftl_1_l. apply swrap_small; [|done]. change (1 <<. l2_bits s) with (l2_size s). change (2 ^ (32 - 1)) with (2 ^ 31).
  destruct (cluster_of _ _ _ _ L (proj1 Hn)) as [Hc _]. pose proof (table_of _ _ _ _ L Hc). lia.
Qed.

Lemma l2_index_eq : ((n * 512) >>. cluster_bits s) &. (l2_size s - 1) = (n / cluster_sectors s) mod l2_size s.
Proof.
  rewrite cluster_index_eq. unfold l2_size. rewrite Z.shiftl_1_l. rewrite Z.sub_1_r, <- Z.ones_equiv. apply Z.land_ones, (g_l2 _ _ _ L).
Qed.

Lemma in_cluster_eq : n &. (cluster_sectors s - 1) = n mod cluster_sectors s.
Proof.
  pose proof (g_cluster _ _ _ L). unfold cluster_sectors. rewrite Z.shiftl_1_l. rewrite Z.sub_1_r, <- Z.ones_equiv. apply Z.land_ones. lia.
Qed.

Lemma cluster_ok : 0 <= n / cluster_sectors s < l1_size s * l2_size s.
Proof. apply (cluster_of _ _ _ _ L (proj1 Hn)). Qed.

Lemma table_ok : 0 <= n / cluster_sectors s / l2_size s < l1_size s.
Proof. apply (table_of _ _ _ _ L cluster_ok). Qed.

End Index.

Lemma image_state own (q : Qcow (F := F)) s' : image_ok own q -> same_geometry (st q) s' -> coherent s' (file q) -> buffers s' (file q) ->
  image_ok own (with_st s' q).
Proof. intros [I1 _ _] G C B. constructor; [|exact C|exact B]. exact (layout_geometry (st q) s' G own (file q) I1). Qed.

(** The entry of cluster [c] in a slot that holds its table. *)
Lemma cached_entry own s (f : F) slot c : layout own s f -> coherent s f -> 0 <= slot < 16 -> 0 <= c < l1_size s * l2_size s ->
  aget (l2_cache_offsets s) slot = l1_entry s f (c / l2_size s) -> l1_entry s f (c / l2_size s) <> 0 ->
  be64 (l2_cache s) (slot_offset s slot + c mod l2_size s * SIZEOF_U64) = l2_entry s f c.
Proof.
  intros L C Hs Hc E T. destruct (table_of _ _ _ _ L Hc) as [_ Hi]. unfold l2_entry. cbv zeta. rewrite (proj2 (Z.eqb_neq _ 0) T).
  destruct (c_slot _ _ C slot Hs ltac:(congruence)) as [_ B]. apply be64_fbe64. intros j Hj.
  rewrite (slot_offset_eq _ _ _ _ L), <- E. unfold SIZEOF_U64. rewrite <- !Z.add_assoc. rewrite B by lia. f_equal. lia.
Qed.

(** Looking up a cluster does not change the file. *)
Lemma get_cluster_read own (q : Qcow (F := F)) n : image_ok own q -> sector_ok (st q) n ->
  exists s', get_cluster_offset (u64 (n <<. 9)) 0 0 0 0 q
               = Some (with_st s' q, l2_entry (st q) (file q) (n / cluster_sectors (st q))) /\
    image_ok own (with_st s' q) /\ same_geometry (st q) s'.
Proof.
  intros I Hn. pose proof (i_layout _ _ I) as L. pose proof (table_ok _ _ _ _ L Hn) as Hk. pose proof (cluster_ok _ _ _ _ L Hn) as Hc.
  rewrite (offset_eq _ _ Hn). unfold get_cluster_offset, l1_lookup. cbv zeta. rewrite (l1_index_eq _ _ _ _ L Hn).
  rewrite (c_l1_entry _ _ (i_coherent _ _ I)) by done. set (c := n / cluster_sectors (st q)) in *.
  destruct (Z.eqb_spec (l1_entry (st q) (file q) (c / l2_size (st q))) 0) as [E|E].
  - cbn [Z.eqb]. exists (st q). split_and!; [|by destruct q|done]. unfold l2_entry. rewrite E. by destruct q.
  - destruct (l2_load_ok own q _ I Hk E) as (s' & slot & -> & I' & Hs & Es & G & _). cbn [st file with_st].
    pose proof (cached_entry own s' (file q) slot c (i_layout _ _ I') (i_coherent _ _ I') Hs) as CE.
    rewrite (s_cluster _ _ G), (l2_size_geometry _ _ G), (l2_index_eq _ _ _ _ L). change (n / cluster_sectors (st q)) with c.
    rewrite (l2_size_geometry _ _ G), (s_l1 _ _ G), (l1_geometry _ _ G), (l2_geometry _ _ G) in CE. rewrite (CE Hc Es E). cbn [Z.eqb].
    rewrite andb_false_r, orb_false_r. exists s'. split_and!; [|done|done].
    destruct (Z.eqb_spec (l2_entry (st q) (file q) c) 0) as [->|]; done.
Qed.

(** ** Compressed clusters *)

Lemma expanded_some s (f : F) e out : expanded s f e = Some out ->
  exists ret, inflate (window (fbyte f) (comp_off s e) (Z.to_nat (comp_size s e))) (cluster_size s) = (ret, out) /\
    (ret =? Z_STREAM_END) || (ret =? Z_BUF_ERROR) = true /\ Zlength out = cluster_size s.
Proof.
  unfold expanded. destruct (inflate _ _) as [ret o]. destruct (_ || _) eqn:R; cbn [andb]; [|done].
  destruct (Z.eqb_spec (Zlength o) (cluster_size s)); [|done]. intros [= <-]. by exists ret.
Qed.

Lemma expanded_bytes s (f : F) e out : expanded s f e = Some out -> Forall (is_uint 8) out.
Proof. intros H. destruct (expanded_some _ _ _ _ H) as (ret & E & _). pose proof (inflate_bytes (window (fbyte f) (comp_off s e) (Z.to_nat (comp_size s e))) (cluster_size s)) as B. by rewrite E in B. Qed.

Lemma comp_size_range own s (f : F) e : layout own s f -> 0 <= comp_size s e < cluster_size s.
Proof.
  intros L. pose proof (g_cluster _ _ _ L). unfold comp_size, cluster_size. rewrite Z.shiftl_1_l, Z.sub_1_r, <- Z.ones_equiv.
  rewrite Z.land_ones by lia. apply Z.mod_pos_bound. lia.
Qed.

Lemma decompress_buffer_ok buf inp out ret : inflate inp (Zlength buf) = (ret, out) ->
  (ret =? Z_STREAM_END) || (ret =? Z_BUF_ERROR) = true -> Zlength out = Zlength buf -> decompress_buffer buf inp = (0, out).
Proof.
  intros E R Hl. unfold decompress_buffer. rewrite inflateInit2_ok, E. cbn [Z.eqb Z_OK negb]. rewrite <- negb_orb, R, Hl, Z.eqb_refl.
  cbn [negb orb]. f_equal. unfold fill. unfold Zlength in Hl. rewrite drop_ge by lia. apply app_nil_r.
Qed.

Lemma take_aread l k : (k <= length l)%nat -> take k l = aread l 0 k.
Proof.
  intros H. rewrite <- (aread_all l) at 1. replace (length l) with (k + (length l - k))%nat by lia.
  rewrite aread_add. apply take_app_length'. by rewrite length_aread.
Qed.

(** Compressed clusters of the same place are the same. *)
Lemma comp_unique own s (f : F) c c' : layout own s f -> 0 <= c < l1_size s * l2_size s -> 0 <= c' < l1_size s * l2_size s ->
  compressed (l2_entry s f c) = true -> compressed (l2_entry s f c') = true ->
  comp_off s (l2_entry s f c) = comp_off s (l2_entry s f c') -> c = c'.
Proof.
  intros L Hc Hc' C C' E. assert (Z0 : l2_entry s f c <> 0) by (intros Z0; by rewrite Z0 in C).
  assert (Z1 : l2_entry s f c' <> 0) by (intros Z1; by rewrite Z1 in C').
  pose proof (o_entry _ _ _ L c Hc Z0) as O. pose proof (o_entry _ _ _ L c' Hc' Z1) as O'. unfold entry_ok in *. rewrite C in O. rewrite C' in O'.
  destruct O as (_ & _ & H1 & _ & H2), O' as (_ & _ & H1' & _ & H2'). specialize (H2 0 ltac:(lia)). specialize (H2' 0 ltac:(lia)).
  rewrite Z.add_0_r in *. rewrite E in H2. rewrite H2 in H2'. by injection H2'.
Qed.

Lemma decompress_ok own (q : Qcow (F := F)) c : image_ok own q -> 0 <= c < l1_size (st q) * l2_size (st q) ->
  compressed (l2_entry (st q) (file q) c) = true ->
  exists s' out, decompress_cluster (l2_entry (st q) (file q) c) q = (0, with_st s' q) /\ cluster_cache s' = out /\
    expanded (st q) (file q) (l2_entry (st q) (file q) c) = Some out /\ image_ok own (with_st s' q) /\
    same_geometry (st q) s' /\ l2_cache s' = l2_cache (st q) /\ l2_cache_offsets s' = l2_cache_offsets (st q).
Proof.
  intros I Hc C. pose proof (i_layout _ _ I) as L. pose proof (i_buffers _ _ I) as B. set (e := l2_entry (st q) (file q) c) in *.
  assert (Z0 : e <> 0) by (intros Z0; by rewrite Z0 in C). pose proof (o_entry _ _ _ L c Hc Z0) as O. fold e in O.
  unfold entry_ok in O. rewrite C in O. destruct O as (_ & [out X] & H1 & H2 & H3).
  unfold decompress_cluster. fold (comp_off (st q) e). fold (comp_size (st q) e). cbv zeta.
  destruct (Z.eqb_spec (cluster_cache_offset (st q)) (comp_off (st q) e)) as [E|N]; cbn [negb].
  - exists (st q), (cluster_cache (st q)). split_and!; try done; [by destruct q|by apply (b_last _ _ B)|by destruct q].
  - pose proof (comp_off_nonneg own (st q) (file q) L e) as CO. pose proof (comp_size_range own (st q) (file q) e L) as CS.
    pose proof (b_cluster_data _ _ B) as BD. unfold Zlength in BD. set (r := take _ _).
    assert (Lr : Zlength r = comp_size (st q) e) by (subst r; unfold Zlength; rewrite length_take; lia).
    rewrite (file_pread_ok (file q) _ r (g_file _ _ _ L)) by lia. rewrite Lr, Z.eqb_refl. cbn [negb].
    set (d := window _ _ _). assert (Ld : length d = length r) by apply length_window. unfold Zlength in Lr.
    set (data := awrite (cluster_data (st q)) 0 d). assert (LD : length data = length (cluster_data (st q))) by apply length_awrite.
    cbn [cluster_cache cluster_data set_cluster_data].
    assert (Td : take (Z.to_nat (comp_size (st q) e)) data = d).
    { rewrite take_aread by lia. apply aread_awrite_eq; lia. }
    destruct (expanded_some _ _ _ _ X) as (ret & IE & R & Lo).
    assert (IE' : inflate d (Zlength (cluster_cache (st q))) = (ret, out)).
    { subst d. rewrite (b_cluster_cache _ _ B). replace (length r) with (Z.to_nat (comp_size (st q) e)) by lia. exact IE. }
    rewrite Td. rewrite (decompress_buffer_ok _ _ _ _ IE' R) by (rewrite Lo, (b_cluster_cache _ _ B); done). cbn [Z.ltb Z.compare].
    set (s' := set_cluster_cache_offset _ _). assert (G : same_geometry (st q) s') by by constructor.
    exists s', out. split_and!; try done. apply image_state; [done|done| |].
    + destruct (i_coherent _ _ I). by constructor.
    + constructor; [exact Lo| | | | |].
      * subst s'. cbn [cluster_data set_cluster_cache_offset set_cluster_cache set_cluster_data]. unfold Zlength. rewrite LD. exact BD.
      * apply awrite_byte; [exact (b_cluster_data_bytes _ _ B)|]. apply window_Forall, fbyte_u8.
      * intros c' Hc'. rewrite (l2_geometry _ _ G), (comp_off_geometry _ _ G), (expanded_geometry _ _ G).
        intros C' E'. change (cluster_cache s') with out. replace c' with c; [done|].
        apply (comp_unique own (st q) (file q)); [done|done|done|done|done|exact E'].
      * right. change (cluster_cache_offset s') with (comp_off (st q) e). lia.
      * exact (b_key _ _ B).
Qed.

(** ** The sectors of a request *)

Lemma awrite_app a : forall buf o b, awrite (awrite buf o a) (o + Z.of_nat (length a)) b = awrite buf o (a ++ b).
Proof.
  induction a as [|x a IH]; intros buf o b; cbn [awrite app length]; [by rewrite Z.add_0_r|].
  rewrite <- IH. f_equal; lia.
Qed.

Lemma awrite_whole buf d : length d = length buf -> awrite buf 0 d = d.
Proof.
  intros H. rewrite <- (aread_all (awrite buf 0 d)), length_awrite. apply aread_awrite_eq; [lia|rewrite H; lia|done].
Qed.

(** Encryption in place. *)
Lemma encrypt_in_place enc key k sector buf o raw : good_key key -> Forall (is_uint 8) buf -> Forall (is_uint 8) raw ->
  length raw = (512 * k)%nat -> 0 <= o -> o + 512 * Z.of_nat k <= Zlength buf ->
  encrypt_sectors k sector (awrite buf o raw) o o enc key = Some (awrite buf o (sectors_spec enc key k sector raw)) /\
  length (sectors_spec enc key k sector raw) = (512 * k)%nat /\ Forall (is_uint 8) (sectors_spec enc key k sector raw).
Proof.
  intros G Hb Hr Hl Ho Hlen. unfold Zlength in Hlen.
  destruct (encrypt_sectors_spec enc key G k sector (awrite buf o raw) o o) as (mem & E & R & [Fl Ff] & B);
    [by apply awrite_byte|lia|lia|rewrite length_awrite; lia|rewrite length_awrite; lia|by left|].
  rewrite aread_awrite_eq in R by lia. assert (L : length (sectors_spec enc key k sector raw) = (512 * k)%nat) by (rewrite <- R; apply length_aread).
  split_and!; [|done|rewrite <- R; by apply aread_bytes]. rewrite E. f_equal. rewrite length_awrite in Fl.
  apply aget_inj; [by rewrite length_awrite|]. intros i Hi. rewrite aget_awrite by lia.
  rewrite L. replace (Z.of_nat (512 * k)) with (512 * Z.of_nat k) by lia.
  destruct ((o <=? i) && (i <? o + 512 * Z.of_nat k)) eqn:X.
  - rewrite <- R, aget_aread by lia. f_equal. lia.
  - rewrite Ff, aget_awrite by lia. rewrite Hl. replace (Z.of_nat (512 * k)) with (512 * Z.of_nat k) by lia. by rewrite X.
Qed.

Section Sectors.

Context (own : Z -> owner) (s : BDRVQcowState) (f : F) (base : Z -> Z).
Context (L : layout own s f) (Hbase : forall i, is_uint 8 (base i)).
Context (Hkey : crypt_method (crypt s) <> 0 -> key_pair (aes_encrypt_key (crypt s)) (aes_decrypt_key (crypt s))).

(** [k] sectors of one cluster: what they hold in its three cases. *)
Definition cluster_data_of (e n : Z) (k : nat) : list Z :=
  let i := n mod cluster_sectors s in
  if e =? 0 then window base (n * 512) (512 * k)
  else if compressed e then aread (default [] (expanded s f e)) (i * 512) (512 * k)
  else
    let raw := window (fbyte f) (e + i * 512) (512 * k) in
    if truthy (crypt_method (crypt s)) then sectors_spec 0 (aes_decrypt_key (crypt s)) k n raw else raw.

Lemma same_cluster n j : 0 <= j -> n mod cluster_sectors s + j < cluster_sectors s ->
  (n + j) / cluster_sectors s = n / cluster_sectors s /\ (n + j) mod cluster_sectors s = n mod cluster_sectors s + j.
Proof.
  intros Hj H. destruct (sizes _ _ _ L) as (_ & C & _). pose proof (Z.mod_pos_bound n (cluster_sectors s) C).
  assert (E : n + j = (n mod cluster_sectors s + j) + n / cluster_sectors s * cluster_sectors s).
  { pose proof (Z.div_mod n (cluster_sectors s)). lia. }
  rewrite E, Z.div_add, Z.mod_add, Z.div_small, Z.mod_small by lia. lia.
Qed.

Lemma disk_chunk : forall k n, n mod cluster_sectors s + Z.of_nat k <= cluster_sectors s ->
  disk_data s f base n k = cluster_data_of (l2_entry s f (n / cluster_sectors s)) n k.
Proof.
  induction k as [|k IH]; intros n H.
  - unfold cluster_data_of. cbn. by repeat case_match.
  - cbn [disk_data]. destruct k as [|k].
    + cbn [disk_data]. rewrite app_nil_r. unfold sector_data, cluster_data_of. done.
    + destruct (same_cluster n 1) as [E1 E2]; [lia|lia|]. rewrite IH by lia. rewrite E1.
      unfold sector_data, cluster_data_of. cbv zeta. set (e := l2_entry s f (n / cluster_sectors s)).
      rewrite E2. replace (512 * S (S k))%nat with (512 + 512 * S k)%nat by lia. destruct (e =? 0).
      { rewrite window_add. do 2 f_equal. lia. }
      destruct (compressed e).
      { rewrite aread_add. do 2 f_equal. lia. }
      replace (e + (n mod cluster_sectors s + 1) * 512) with (e + n mod cluster_sectors s * 512 + Z.of_nat 512) by lia.
      destruct (truthy (crypt_method (crypt s))); [|by rewrite window_add].
      rewrite window_add. cbn [sectors_spec]. rewrite take_app_length', drop_app_length' by (by rewrite length_window).
      rewrite take_ge by (rewrite length_window; done). by rewrite app_nil_r.
Qed.

Lemma cluster_data_ok k n c : 0 <= c < l1_size s * l2_size s -> Forall (is_uint 8) (cluster_data_of (l2_entry s f c) n k) /\
  length (cluster_data_of (l2_entry s f c) n k) = (512 * k)%nat.
Proof.
  intros Hc. unfold cluster_data_of. destruct (Z.eqb_spec (l2_entry s f c) 0) as [E|E].
  { split; [by apply window_Forall|apply length_window]. }
  pose proof (o_entry _ _ _ L c Hc E) as O. unfold entry_ok in O. destruct (compressed (l2_entry s f c)).
  - destruct O as (_ & [out X] & _). rewrite X. cbn [default]. split; [|apply length_aread]. apply aread_bytes. by apply expanded_bytes in X.
  - set (raw := window _ _ _). assert (R : Forall (is_uint 8) raw) by apply window_Forall, fbyte_u8.
    assert (RL : length raw = (512 * k)%nat) by apply length_window.
    destruct (truthy (crypt_method (crypt s))) eqn:T; [|done]. assert (M : crypt_method (crypt s) <> 0) by (unfold truthy in T; lia).
    destruct (Hkey M) as (_ & Gd & _). destruct (encrypt_in_place 0 _ k n raw 0 raw Gd R R RL) as (_ & H1 & H2);
      [lia|unfold Zlength; lia|]. done.
Qed.

Lemma disk_data_ok : forall k n, (forall j, 0 <= j < Z.of_nat k -> sector_ok s (n + j)) ->
  Forall (is_uint 8) (disk_data s f base n k) /\ length (disk_data s f base n k) = (512 * k)%nat.
Proof.
  induction k as [|k IH]; intros n H; [done|]. cbn [disk_data]. destruct (IH (n + 1)) as [H1 H2].
  { intros j Hj. rewrite <- Z.add_assoc. apply H. lia. }
  specialize (H 0 ltac:(lia)). rewrite Z.add_0_r in H. destruct (cluster_data_ok 1 n _ (cluster_ok _ _ _ _ L H)) as [H3 H4].
  rewrite <- disk_chunk in H3, H4 by (pose proof (cluster_of _ _ _ _ L (proj1 H)); lia). cbn [disk_data] in H3, H4. rewrite app_nil_r in *.
  split; [by apply Forall_app|]. rewrite length_app, H2, H4. lia.
Qed.

Lemma disk_data_app : forall a b n, disk_data s f base n (a + b) = disk_data s f base n a ++ disk_data s f base (n + Z.of_nat a) b.
Proof.
  induction a as [|a IH]; intros b n; cbn [disk_data Nat.add app]; [by rewrite Z.add_0_r|].
  rewrite IH, app_assoc. do 2 f_equal. lia.
Qed.

End Sectors.

(** ** Reading *)

(** The backing image holds [base] and reads of it succeed; without one, the
    disk is zero where nothing was written. *)
Definition backing_ok (s : BDRVQcowState) (backing : backing_hd) (base : Z -> Z) : Prop :=
  (forall i, is_uint 8 (base i)) /\
  match backing with
  | None => forall i, base i = 0
  | Some b => forall sector buf, 0 <= sector -> sector * 512 + Zlength buf <= l1_size s * l2_size s * cluster_size s ->
      b sector buf = Some (0, window base (sector * 512) (length buf))
  end.

Lemma entry_sector e : e mod 512 = 0 -> e &. 511 = 0 /\ (e >>. 9) * 512 = e.
Proof. intros H. change 511 with (Z.ones 9). rewrite Z.land_ones, Z.shiftr_div_pow2 by lia. change (2 ^ 9) with 512. dlia. Qed.

(** The request that [read_next] sets up: [k] sectors at the present place. *)
Definition next_chunk (acb : QCowAIOCB) (co k : Z) (b : list Z) : QCowAIOCB :=
  mkACB (sector_num acb) (nb_sectors acb) k co b (pos acb) (acb_data acb).

(** How many sectors it covers. *)
Definition chunk_sectors (s : BDRVQcowState) (sector left : Z) : Z := Z.min left (cluster_sectors s - sector mod cluster_sectors s).

Lemma clamp_chunk s co index acb : clamp_n s index (set_cluster_offset co acb) =
  next_chunk acb co (Z.min (nb_sectors acb) (cluster_sectors s - index)) (buf acb).
Proof.
  unfold clamp_n, next_chunk, set_n, set_cluster_offset. cbn. f_equal. destruct (Z.ltb_spec (nb_sectors acb) (cluster_sectors s - index)); lia.
Qed.

Lemma aread_window0 base o k : (forall i, base i = 0) -> window base o k = replicate k 0.
Proof.
  intros H. symmetry. rewrite <- (length_replicate k 0) at 2. apply window_eq. intros i Hi. by rewrite aget_replicate0, H.
Qed.

Lemma sector_ok_geometry s t m : same_geometry s t -> sector_ok s m -> sector_ok t m.
Proof. intros G. unfold sector_ok. by rewrite (s_l1 _ _ G), (l2_size_geometry _ _ G), (cluster_sectors_geometry _ _ G). Qed.

Lemma backing_ok_geometry s t backing base : same_geometry s t -> backing_ok s backing base -> backing_ok t backing base.
Proof.
  intros G [H1 H2]. split; [done|]. destruct backing as [b|]; [|done].
  by rewrite (s_l1 _ _ G), (l2_size_geometry _ _ G), (cluster_size_geometry _ _ G).
Qed.

Lemma disk_geometry s t (f : F) base : same_geometry s t -> forall k m, disk_data t f base m k = disk_data s f base m k.
Proof. intros G. induction k as [|k IH]; intros m; cbn [disk_data]; [done|]. by rewrite (sector_geometry _ _ G), IH. Qed.

Section Read.

Context (own : Z -> owner) (backing : backing_hd) (base : Z -> Z).

(** One round: the chunk before it is processed, and after it the next one
    holds the sectors of the disk, to be processed. *)
Lemma read_round (q : Qcow (F := F)) acb0 acb1 fuel : let acb := advance acb1 in
  image_ok own q -> backing_ok (st q) backing base -> read_post q acb0 = Some acb1 -> 0 < nb_sectors acb ->
  (forall j, 0 <= j < nb_sectors acb -> sector_ok (st q) (sector_num acb + j)) -> Forall (is_uint 8) (buf acb) ->
  0 <= pos acb -> pos acb + nb_sectors acb * 512 <= Zlength (buf acb) ->
  let k := chunk_sectors (st q) (sector_num acb) (nb_sectors acb) in
  let e := l2_entry (st q) (file q) (sector_num acb / cluster_sectors (st q)) in
  exists s' b', image_ok own (with_st s' q) /\ same_geometry (st q) s' /\
    aio_read (S fuel) backing 0 q acb0 = aio_read fuel backing 0 (with_st s' q) (next_chunk acb e k b') /\
    read_post (with_st s' q) (next_chunk acb e k b') =
       Some (next_chunk acb e k (awrite (buf acb) (pos acb) (disk_data (st q) (file q) base (sector_num acb) (Z.to_nat k)))).
Proof.
  intros acb I [HB1 HB2] RP Hnb Hs Hbytes Hp Hlen k. pose proof (i_layout _ _ I) as L.
  assert (H0 : sector_ok (st q) (sector_num acb)) by (rewrite <- (Z.add_0_r (sector_num acb)); apply Hs; lia).
  pose proof (cluster_ok _ _ _ _ L H0) as Hc. destruct (cluster_of _ _ _ _ L (proj1 H0)) as [_ Hi].
  destruct (sizes _ _ _ L) as (_ & CS & CZ & _).
  assert (Hk : 0 < k <= nb_sectors acb /\ sector_num acb mod cluster_sectors (st q) + k <= cluster_sectors (st q))
    by (subst k; unfold chunk_sectors; lia).
  rewrite (disk_chunk own (st q) (file q) base L (Z.to_nat k)) by lia.
  cbn [aio_read]. unfold qcow_aio_read_cb. cbn [Z.ltb Z.compare]. rewrite RP. cbn [mbind option_bind].
  fold acb. rewrite (proj2 (Z.eqb_neq (nb_sectors acb) 0)) by lia. clearbody acb. clear RP acb0 acb1.
  destruct (get_cluster_read own q (sector_num acb) I H0) as (s' & E & I' & G).
  unfold read_next. rewrite E. cbn [mbind option_bind st file with_st]. rewrite (cluster_sectors_geometry _ _ G).
  set (e := l2_entry (st q) (file q) (sector_num acb / cluster_sectors (st q))) in *.
  change (sector_num (set_cluster_offset e acb)) with (sector_num acb).
  rewrite (in_cluster_eq own (st q) (file q) (sector_num acb) L), clamp_chunk, (cluster_sectors_geometry _ _ G).
  fold (chunk_sectors (st q) (sector_num acb) (nb_sectors acb)). fold k. unfold cluster_data_of.
  set (i := sector_num acb mod cluster_sectors (st q)) in *.
  replace (512 * Z.to_nat k)%nat with (Z.to_nat (512 * k)) by lia.
  destruct (Z.eqb_spec e 0) as [E0|E0].
  - destruct backing as [bk|].
    + eexists s', _. split; [exact I'|]. split; [exact G|]. cbn -[aio_read].
      rewrite (HB2 (sector_num acb)) by (unfold chunk, Zlength; rewrite ?length_aread; cbn; nia).
      unfold chunk. rewrite length_aread. split; [reflexivity|]. unfold read_post. cbn. rewrite E0. cbn [Z.eqb].
      by replace (Z.to_nat (k * 512)) with (Z.to_nat (512 * k)) by lia.
    + eexists s', _. split_and!; [exact I'|exact G|reflexivity|]. unfold read_post.
      change (cluster_offset (next_chunk acb e k _)) with e. rewrite E0. cbn [Z.eqb]. by rewrite (aread_window0 base).
  - pose proof (o_entry _ _ _ L _ Hc E0) as O. fold e in O. unfold entry_ok in O. destruct (compressed e) eqn:C.
    + destruct (decompress_ok own (with_st s' q) (sector_num acb / cluster_sectors (st q)) I') as (s2 & out & DE & DO & DX & I2 & G2 & _);
        cbn [st file with_st] in *; rewrite ?(l2_geometry _ _ G), ?(l2_size_geometry _ _ G), ?(s_l1 _ _ G), ?(expanded_geometry _ _ G) in *; [done|done|].
      fold e in DE, DX. change (truthy (e &. QCOW_OFLAG_COMPRESSED)) with (compressed e). rewrite C, DE. cbn [Z.ltb Z.compare].
      eexists s2, _. split_and!; [exact I2|by transitivity s'|reflexivity|]. unfold read_post.
      change (cluster_offset (next_chunk acb e k _)) with e. rewrite (proj2 (Z.eqb_neq e 0) E0).
      change (truthy (e &. QCOW_OFLAG_COMPRESSED)) with (compressed e). rewrite C, DX. cbn [st with_st]. by rewrite DO.
    + destruct O as (O1 & O2 & O3 & O4). destruct (entry_sector e O2) as [M1 M2].
      change (truthy (e &. QCOW_OFLAG_COMPRESSED)) with (compressed e). rewrite C, M1. cbn [negb Z.eqb st file with_st mbind option_bind].
      set (ch := chunk (next_chunk acb e k (buf acb))). assert (Lch : length ch = Z.to_nat (512 * k)) by (subst ch; unfold chunk; rewrite length_aread; cbn; lia).
      rewrite (file_aio_readv_ok (file q) _ ch (g_file _ _ _ L)) by (unfold Zlength; lia).
      eexists s', _. split_and!; [exact I'|exact G|reflexivity|]. unfold read_post.
      change (cluster_offset (next_chunk acb e k _)) with e. rewrite (proj2 (Z.eqb_neq e 0) E0).
      change (truthy (e &. QCOW_OFLAG_COMPRESSED)) with (compressed e). rewrite C. cbn [st with_st]. rewrite (s_crypt _ _ G), Lch.
      replace (((e >>. 9) + i) * 512) with (e + i * 512) by lia.
      destruct (truthy (crypt_method (crypt (st q)))) eqn:T; [|done]. cbn [buf pos sector_num next_chunk n].
      assert (M : crypt_method (crypt (st q)) <> 0) by (unfold truthy in T; lia).
      destruct (b_key _ _ (i_buffers _ _ I) M) as (_ & Gd & _).
      destruct (encrypt_in_place 0 _ (Z.to_nat k) (sector_num acb) (buf acb) (pos acb) (window (fbyte (file q)) (e + i * 512) (Z.to_nat (512 * k))) Gd Hbytes) as (EE & _);
        [apply window_Forall, fbyte_u8|rewrite length_window; lia|lia|lia|]. by rewrite EE.
Qed.

Lemma aio_read_ok : forall (m fuel : nat) (q : Qcow (F := F)) acb0 acb1, (m < fuel)%nat -> image_ok own q ->
  backing_ok (st q) backing base -> read_post q acb0 = Some acb1 -> let acb := advance acb1 in nb_sectors acb = Z.of_nat m ->
  (forall j, 0 <= j < Z.of_nat m -> sector_ok (st q) (sector_num acb + j)) -> Forall (is_uint 8) (buf acb) ->
  0 <= pos acb -> pos acb + Z.of_nat m * 512 <= Zlength (buf acb) ->
  exists s', aio_read fuel backing 0 q acb0 =
      Some (with_st s' q, awrite (buf acb) (pos acb) (disk_data (st q) (file q) base (sector_num acb) m), 0) /\
    image_ok own (with_st s' q) /\ same_geometry (st q) s'.
Proof.
  intros m. induction m as [m IH] using (well_founded_induction lt_wf). intros fuel q acb0 acb1 Hf I HB RP acb Hm Hs Hb Hp Hl.
  destruct fuel as [|fuel]; [lia|]. destruct m as [|m].
  - exists (st q). cbn [aio_read]. unfold qcow_aio_read_cb. cbn [Z.ltb Z.compare]. rewrite RP. cbn [mbind option_bind].
    fold acb. rewrite Hm. cbn [Z.of_nat Z.eqb disk_data awrite]. by destruct q.
  - pose proof (i_layout _ _ I) as L.
    destruct (read_round q acb0 acb1 fuel I HB RP) as (s' & b' & I' & G & E & RP'); [fold acb; lia|fold acb; by rewrite Hm|done|done|fold acb; by rewrite Hm|].
    fold acb in E, RP'. set (k := chunk_sectors _ _ _) in *. set (e := l2_entry _ _ _) in *.
    assert (H0 : sector_ok (st q) (sector_num acb)) by (rewrite <- (Z.add_0_r (sector_num acb)); apply Hs; lia).
    destruct (cluster_of _ _ _ _ L (proj1 H0)) as [_ Hi].
    assert (Hk : 0 < k <= Z.of_nat (S m)) by (subst k; unfold chunk_sectors; rewrite Hm; lia).
    destruct (disk_data_ok own (st q) (file q) base L (proj1 HB) (b_key _ _ (i_buffers _ _ I)) (Z.to_nat k) (sector_num acb)) as [D1 D2].
    { intros j Hj. apply Hs. lia. }
    rewrite E. clear E. destruct (IH (S m - Z.to_nat k)%nat ltac:(lia) fuel (with_st s' q) _ _ ltac:(lia) I' (backing_ok_geometry _ _ _ _ G HB) RP')
      as (s2 & E2 & I2 & G2); cbn [advance next_chunk nb_sectors n sector_num buf pos st file with_st].
    + lia.
    + intros j Hj. apply (sector_ok_geometry _ _ _ G). rewrite <- Z.add_assoc. apply Hs. lia.
    + by apply awrite_byte.
    + lia.
    + unfold Zlength in *. rewrite length_awrite. lia.
    + exists s2. split_and!; [|exact I2|by transitivity s']. rewrite E2. do 3 f_equal. cbn [advance next_chunk nb_sectors n sector_num buf pos st file with_st].
      replace (S m) with (Z.to_nat k + (S m - Z.to_nat k))%nat at 2 by lia.
      rewrite (disk_geometry _ _ _ _ G), disk_data_app, <- awrite_app. rewrite D2. do 2 f_equal; lia.
Qed.

End Read.

(** A whole request. *)
Lemma read_request_ok own (q : Qcow (F := F)) backing base n data nb recycled :
  image_ok own q -> backing_ok (st q) backing base -> 0 <= nb -> (forall j, 0 <= j < nb -> sector_ok (st q) (n + j)) ->
  Zlength data = nb * 512 -> Forall (is_uint 8) data ->
  exists s', qcow_aio_readv backing n data nb recycled q =
      Some (with_st s' q, disk_data (st q) (file q) base n (Z.to_nat nb), 0) /\
    image_ok own (with_st s' q) /\ same_geometry (st q) s'.
Proof.
  intros I HB Hnb Hs Hl Hb. set (acb := qcow_aio_setup n data nb recycled).
  destruct (aio_read_ok own backing base (Z.to_nat nb) (S (S (Z.to_nat nb))) q acb acb) as (s' & E & K);
    try done; cbn [advance qcow_aio_setup nb_sectors Qcow.n sector_num pos buf acb]; try lia.
  { intros j Hj. rewrite Z.add_0_r. apply Hs. lia. }
  exists s'. split; [|exact K]. unfold qcow_aio_readv. fold acb. rewrite E. cbn [advance qcow_aio_setup nb_sectors Qcow.n sector_num pos buf acb].
  rewrite !Z.add_0_r. do 3 f_equal. apply awrite_whole.
  destruct (disk_data_ok own (st q) (file q) base (i_layout _ _ I) (proj1 HB) (b_key _ _ (i_buffers _ _ I)) (Z.to_nat nb) n) as [_ D].
  { intros j Hj. apply Hs. lia. }
  rewrite D. unfold Zlength in Hl. lia.
Qed.

End Operations.

End QcowRead.
