(* ===== verification/QcowWrite.v ===== *)
(** * Writing a QCOW image (src/qemu/block/qcow.c)

    Allocation of tables and clusters and the callbacks of a write request,
    against the contents of the disk of QcowDisk.v: a request changes exactly the
    sectors it writes. *)
From S2P Require Import Prelude AESTables AESSpec AES AESCorrect AESCbc Block Qcow QcowDisk QcowRead.
Import Block Qcow QcowDisk QcowRead.

Module QcowWrite.

#[local] Opaque fbe64.

Section Operations.

Context {F : Type} {proto : Protocol F} {rel : Reliable F} {zlib : Zlib} {zok : ZlibOk}.

(** ** Allocation *)

Lemma round_ok own s (f : F) x : layout own s f -> 0 <= x < 2 ^ 62 ->
  x <= round_to_cluster s x < x + cluster_size s /\ round_to_cluster s x mod cluster_size s = 0.
Proof.
  intros L Hx. destruct (sizes _ _ _ L) as (_ & CS & CZ & CM). pose proof (g_cluster _ _ _ L). unfold round_to_cluster.
  rewrite (wrap_small 64) by (unfold is_uint; lia). rewrite <- Z.ldiff_land. unfold cluster_size in *. rewrite Z.shiftl_1_l in *.
  rewrite (Z.sub_1_r (2 ^ cluster_bits s)), <- Z.ones_equiv, Z.ldiff_ones_r, Z.shiftl_mul_pow2, Z.shiftr_div_pow2 by lia.
  rewrite Z.mod_mul by lia. split; [|done]. set (p := 2 ^ cluster_bits s) in *.
  pose proof (Z.div_mod (x + p - 1) p). pose proof (Z.mod_pos_bound (x + p - 1) p). lia.
Qed.

(** The new table of index [k]. *)
Section MakeTable.

Context (own : Z -> owner) (q : Qcow (F := F)) (k : Z).
Context (I : image_ok own q) (Hk : 0 <= k < l1_size (st q)) (E0 : l1_entry (st q) (file q) k = 0).
Context (Hroom : flen (file q) < 2 ^ 62).

#[local] Abbreviation s := (st q).
#[local] Abbreviation f := (file q).
#[local] Abbreviation lo := (round_to_cluster s (u64 (file_getlength f))).

Lemma lo_ok : flen f <= lo < flen f + cluster_size s /\ is_uint 64 lo.
Proof.
  pose proof (i_layout _ _ I) as L. pose proof (flen_nonneg f). rewrite (file_getlength_ok f (g_file _ _ _ L)).
  rewrite wrap_small by (unfold is_uint; lia). destruct (round_ok own s f (flen f) L) as [R _]; [lia|].
  destruct (sizes _ _ _ L) as (_ & _ & _ & CM). unfold is_uint. lia.
Qed.

Lemma make_table f1 f2 : stored flen fbyte f f1 (l1_table_offset s + 8 * k) (cpu_to_be64 lo) ->
  stored flen fbyte f1 f2 lo (replicate (Z.to_nat (8 * l2_size s)) 0) ->
  kept own (fun o => o = Entry k \/ o = Unused) f f2 /\ l1_entry s f2 k = lo /\ lo + 8 * l2_size s <= flen f2 /\
  (forall i, lo <= i < lo + 8 * l2_size s -> fbyte f2 i = 0) /\ flen f2 <= lo + 8 * l2_size s + 1024.
Proof.
  intros S1 [N2 K2 L2]. pose proof S1 as [N1 K1 L1]. pose proof (i_layout _ _ I) as L. destruct lo_ok as [Hlo U]. revert Hlo U N1 K1 L1 S1 N2 K2 L2. generalize lo. intros lo Hlo U N1 K1 L1 S1 N2 K2 L2.
  assert (Z8 : Zlength (replicate (Z.to_nat (8 * l2_size s)) 0) = 8 * l2_size s).
  { destruct (sizes _ _ _ L). unfold Zlength. rewrite length_replicate. lia. }
  rewrite Z8, Zlength_cpu_to_be64 in *. pose proof (g_meta _ _ _ L) as GM. pose proof (g_l1_offset _ _ _ L) as GO.
  destruct (sizes _ _ _ L) as (LS & _).
  split_and!.
  - constructor; [lia|]. intros i Hi HP. rewrite K2 by lia. apply K1; [lia|].
    destruct (decide (i < l1_table_offset s + 8 * k \/ l1_table_offset s + 8 * k + 8 <= i)) as [|N]; [done|].
    exfalso. apply HP. left. replace i with (l1_table_offset s + 8 * k + (i - (l1_table_offset s + 8 * k))) by lia. apply (o_l1 _ _ _ L); [done|lia].
  - rewrite <- (fbe64_stored f f1 _ lo U S1). apply fbe64_ext. intros j Hj. apply K2; lia.
  - lia.
  - intros i Hi. rewrite N2 by lia. apply aget_replicate0.
  - lia.
Qed.

(** A place beyond the end is of no table in the cache. *)
Lemma not_cached o : flen f <= o -> find_slot (Z.to_nat L2_CACHE_SIZE) 0 (l2_cache_offsets s) o = None.
Proof.
  intros Ho. pose proof (i_layout _ _ I) as L. destruct (find_slot _ _ _ _) as [i|] eqn:FS; [|done]. exfalso.
  apply find_slot_some in FS as [Hi Ei]. change (Z.of_nat (Z.to_nat L2_CACHE_SIZE)) with 16 in Hi.
  pose proof (g_meta _ _ _ L). pose proof (g_l1_offset _ _ _ L). destruct (sizes _ _ _ L) as (LS & _).
  destruct (c_slot _ _ (i_coherent _ _ I) i) as [(k' & Hk' & Ek') _]; [lia|lia|].
  destruct (o_table _ _ _ L k' Hk' ltac:(lia)) as (T1 & T2 & _). lia.
Qed.

(** It is put in the cache. *)
Lemma load_new_table f1 : file_ok f1 -> stored flen fbyte f f1 (l1_table_offset s + 8 * k) (cpu_to_be64 lo) ->
  let q1 := mkImage (set_l1_table (aset (l1_table s) k lo) s) f1 in
  exists q' slot, l2_load lo true q1 = (q', Go slot) /\ image_ok (table_own own s k lo) q' /\ same_geometry s (st q') /\ 0 <= slot < 16 /\
    aget (l2_cache_offsets (st q')) slot = lo /\ exists f2, file q' = f2 /\ file_ok f2 /\
    stored flen fbyte f1 f2 lo (replicate (Z.to_nat (8 * l2_size s)) 0).
Proof.
  intros O1 S1 q1. pose proof (i_layout _ _ I) as L. pose proof (i_coherent _ _ I) as C. pose proof lo_ok as [Hlo U].
  destruct (sizes _ _ _ L) as (LS & _). pose proof (g_meta _ _ _ L) as GM. pose proof (g_l1_offset _ _ _ L) as GO.
  revert Hlo U S1 q1. pose proof make_table as MT. revert MT. generalize lo. intros lo MT Hlo U S1 q1.
  set (s1 := set_l1_table (aset (l1_table s) k lo) s) in *. assert (G1 : same_geometry s s1) by by constructor.
  subst q1. unfold l2_load. cbn [st file]. change (l2_cache_offsets s1) with (l2_cache_offsets s).
  pose proof (not_cached lo ltac:(lia)) as FS. rewrite FS.
  pose proof (find_slot_none _ _ _ _ FS) as N. change (Z.of_nat (Z.to_nat L2_CACHE_SIZE)) with 16 in N.
  set (m := least_used _ _ _ _ _). assert (Hm : 0 <= m < 16) by (apply (least_used_range _ 16); lia). clearbody m.
  assert (TB : table_bytes s1 = 8 * l2_size s) by (unfold table_bytes, SIZEOF_U64; rewrite (l2_size_geometry _ _ G1); lia).
  assert (L1 : slot_offset s1 m = m * (8 * l2_size s)).
  { rewrite (slot_offset_eq own s1 f m (layout_geometry _ _ G1 _ _ L)). by rewrite (l2_size_geometry _ _ G1). }
  rewrite L1, TB. cbn [l2_cache set_l2_cache with_st st file]. change (l2_cache s1) with (l2_cache s).
  pose proof (c_cache _ _ C) as CC. unfold Zlength in CC. set (z := replicate (Z.to_nat (8 * l2_size s)) 0).
  assert (LZ : length z = Z.to_nat (8 * l2_size s)) by apply length_replicate.
  rewrite aread_awrite_eq by (rewrite ?LZ; nia).
  destruct (file_pwrite_sync_ok f1 lo z O1) as (f2 & -> & O2 & S2); [lia| |by apply Forall_replicate|].
  { intros Z0. rewrite Z0 in LZ. cbn in LZ. lia. }
  destruct (MT f1 f2 S1 S2) as (K & E1 & T1 & T2 & T3).
  pose proof (new_table_layout own s f f2 k lo L Hk E0 K O2 E1 ltac:(lia) T1 T2) as L2.
  pose proof (new_table_coherent own s f f2 k lo L Hk E0 K E1 C) as C2.
  pose proof (new_table_buffers own s f f2 k lo L Hk E0 K E1 ltac:(lia) T2 (i_buffers _ _ I)) as B2.
  cbn [Z.ltb Z.compare negb]. eexists _, m. split; [reflexivity|]. cbn [st file with_st with_file].
  split; [|split_and!; [by constructor|lia|lia| |by exists f2]].
  - constructor; cbn [st file].
    + by apply (layout_geometry s).
    + pose proof (cache_replace (table_own own s k lo) s1 f2 m k z (aset (l2_cache_counts s) m 1)
        (layout_geometry _ _ G1 _ _ L2) C2 Hm Hk) as CR. rewrite (l1_geometry _ _ G1), E1, (l2_size_geometry _ _ G1) in CR.
      apply CR; [lia|intros i Hi; apply N; lia|unfold Zlength; lia| |unfold Zlength; rewrite length_aset; apply C].
      intros j Hj. rewrite T2 by lia. apply aget_replicate0.
    + by apply (buffers_geometry s).
  - apply aget_aset_eq. pose proof (c_offsets _ _ C) as CO. unfold Zlength in CO. cbn [l2_cache_offsets set_l2_cache s1 set_l1_table]. lia.
Qed.

End MakeTable.

(** The table of a sector, made when it is not there: no sector changes. *)
Lemma find_table own (q : Qcow (F := F)) m a : image_ok own q -> sector_ok (st q) m -> a <> 0 -> flen (file q) < 2 ^ 62 ->
  let k := m / cluster_sectors (st q) / l2_size (st q) in
  exists own' q1 q' o new slot, l1_lookup (m * 512) a q = (q1, Go (o, new)) /\ l2_load o new q1 = (q', Go slot) /\
    image_ok own' q' /\ same_geometry (st q) (st q') /\ l1_entry (st q) (file q') k = o /\ o <> 0 /\ 0 <= slot < 16 /\
    aget (l2_cache_offsets (st q')) slot = o /\
    (forall c, 0 <= c < l1_size (st q) * l2_size (st q) -> l2_entry (st q) (file q') c = l2_entry (st q) (file q) c) /\
    (forall base x, sector_ok (st q) x -> sector_data (st q) (file q') base x = sector_data (st q) (file q) base x) /\
    flen (file q) <= flen (file q') <= flen (file q) + cluster_size (st q) + 8 * l2_size (st q) + 1024 /\
    head_kept (st q) (file q) (file q').
Proof.
  intros I Hm Ha Hr k. pose proof (i_layout _ _ I) as L. pose proof (table_ok _ _ _ _ L Hm) as Hk. fold k in Hk.
  destruct (sizes _ _ _ L) as (LS & CS & CZ & _). unfold l1_lookup. cbv zeta. rewrite (l1_index_eq _ _ _ _ L Hm).
  fold k. rewrite (c_l1_entry _ _ (i_coherent _ _ I)) by done.
  destruct (Z.eqb_spec (l1_entry (st q) (file q) k) 0) as [E|E].
  - set (lo := round_to_cluster _ _). rewrite (proj2 (Z.eqb_neq a 0) Ha). cbn [file with_st].
    pose proof (g_meta _ _ _ L). pose proof (g_l1_offset _ _ _ L). unfold SIZEOF_U64.
    rewrite (wrap_small 64) by (unfold is_uint; lia). rewrite (Z.mul_comm k 8).
    destruct (file_pwrite_sync_ok (file q) (l1_table_offset (st q) + 8 * k) (cpu_to_be64 lo) (g_file _ _ _ L)) as (f1 & -> & O1 & S1);
      [lia|done|apply be_put_bytes|]. cbn [Z.ltb Z.compare].
    destruct (load_new_table own q k I Hk E Hr f1 O1 S1) as (q' & slot & E2 & I' & G & Hs & Es & f2 & Ef & O2 & S2).
    destruct (make_table own q k I Hk Hr f1 f2 S1 S2) as (K & E1 & T1 & T2 & T3). destruct (lo_ok own q k I Hk Hr) as [Hlo _]. fold lo in Hlo, E2, Es, E1, T1, T2, T3, I'.
    eexists _, _, q', lo, true, slot. split; [reflexivity|]. rewrite Ef. pose proof (flen_nonneg (file q)).
    split_and!; [done|exact I'|exact G|exact E1|lia|lia|lia|done| | |lia|lia|].
    + exact (new_table_l2 own (st q) (file q) f2 k lo L Hk E K E1 ltac:(lia) T2).
    + intros base x Hx. exact (new_table_sector own (st q) (file q) f2 k lo L Hk E K E1 ltac:(lia) T2 base x (proj1 Hx)).
    + apply (kept_head own (st q) (file q) f2 _ L K). by intros [?|?].
  - destruct (l2_load_ok own q _ I Hk E) as (s' & slot & E2 & I' & Hs & Es & G & _).
    exists own, q, (with_st s' q), (l1_entry (st q) (file q) k), false, slot. split_and!; try done; cbn [file with_st]; lia.
Qed.

(** ** A new cluster *)

(** Sector [x] when its cluster is at [e] in the file. *)
Definition plain_sector (s : BDRVQcowState) (f : F) (e x : Z) : list Z :=
  let raw := window (fbyte f) (e + x mod cluster_sectors s * 512) 512 in
  if truthy (crypt_method (crypt s)) then sectors_spec 0 (aes_decrypt_key (crypt s)) 1 x raw else raw.

Lemma sector_plain s f base x e : l2_entry s f (x / cluster_sectors s) = e -> e <> 0 -> compressed e = false ->
  sector_data s f base x = plain_sector s f e x.
Proof. intros E H C. unfold sector_data. cbv zeta. rewrite E, C. by rewrite (proj2 (Z.eqb_neq e 0) H). Qed.

(** An entry below 2^63 is not marked as compressed. *)
Lemma plain_entry e : 0 <= e < 2 ^ 63 -> compressed e = false.
Proof.
  intros H. unfold compressed, truthy, QCOW_OFLAG_COMPRESSED. apply negb_false_iff, Z.eqb_eq. rewrite Z.shiftl_1_l.
  apply Z.bits_inj'. intros i Hi. rewrite Z.land_spec, Z.bits_0. destruct (Z.eq_dec i 63) as [->|N].
  - rewrite Z.testbit_odd, Z.shiftr_div_pow2, Z.div_small by lia. done.
  - rewrite Z.pow2_bits_false by lia. apply andb_false_r.
Qed.

Section Append.

Context (own : Z -> owner) (q : Qcow (F := F)) (f' : F) (c co : Z).
Context (I : image_ok own q) (K : kept own (fun o => o = Unused) (file q) f') (O : file_ok f').
Context (Hlo : flen (file q) <= co) (Hhi : co + cluster_size (st q) <= flen f').

(** The bytes of the new cluster are its own. *)
Definition cluster_own : Z -> owner := assign own co (co + cluster_size (st q)) (fun _ => Cluster c).

Lemma append_image : image_ok cluster_own (with_file f' q).
Proof.
  pose proof (image_data own q f' _ I K O) as D. destruct D as [L C B]; [done|done|done|]. constructor; [|exact C|exact B].
  cbn [st file with_file] in *. apply layout_give; [exact L| |done]. intros i Hi. apply (o_unused _ _ _ (i_layout _ _ I)). lia.
Qed.

Lemma append_l1 k : 0 <= k < l1_size (st q) -> l1_entry (st q) f' k = l1_entry (st q) (file q) k.
Proof. intros H. by apply (kept_l1 own (st q) (file q) f' _ (i_layout _ _ I) K). Qed.

Lemma append_l2 x : 0 <= x < l1_size (st q) * l2_size (st q) -> l2_entry (st q) f' x = l2_entry (st q) (file q) x.
Proof. intros H. by apply (kept_l2 own (st q) (file q) f' _ (i_layout _ _ I) K). Qed.

Lemma append_sector base x : sector_ok (st q) x -> sector_data (st q) f' base x = sector_data (st q) (file q) base x.
Proof.
  intros Hx. pose proof (i_layout _ _ I) as L. apply (kept_sector own (st q) (file q) f' _ L K); [|done|apply Hx].
  apply append_l2, (cluster_ok _ _ _ _ L Hx).
Qed.

Lemma append_entry : co < 2 ^ 63 -> co mod 512 = 0 -> entry_ok cluster_own (st q) f' c co /\ co <> 0 /\ compressed co = false.
Proof.
  intros H M. pose proof (i_layout _ _ I) as L. pose proof (g_meta _ _ _ L). pose proof (g_l1_offset _ _ _ L). pose proof (g_l1 _ _ _ L).
  assert (C : compressed co = false) by (apply plain_entry; lia). split_and!; [|lia|done]. unfold entry_ok. rewrite C.
  split_and!; [lia|done|done|]. intros i Hi. unfold cluster_own. by rewrite assign_in by lia.
Qed.

End Append.

(** ** The sectors of an encrypted cluster that are not written *)

Lemma start_sector_eq own s (f : F) m : layout own s f -> 0 <= m ->
  (m * 512 &. ~. (cluster_size s - 1)) >>. 9 = m / cluster_sectors s * cluster_sectors s.
Proof.
  intros L Hm. pose proof (g_cluster _ _ _ L). destruct (sizes _ _ _ L) as (_ & CS & CZ & _). rewrite <- Z.ldiff_land.
  unfold cluster_size in *. rewrite Z.shiftl_1_l in *.
  rewrite Z.sub_1_r, <- Z.ones_equiv, Z.ldiff_ones_r, Z.shiftl_mul_pow2 by lia. rewrite (cluster_index_eq own s f m L).
  rewrite CZ, Z.shiftr_div_pow2 by lia. change (2 ^ 9) with 512.
  replace (m / cluster_sectors s * (512 * cluster_sectors s)) with (m / cluster_sectors s * cluster_sectors s * 512) by lia.
  apply Z.div_mul. lia.
Qed.

Lemma zero_block (d : list Z) : (forall i, 512 <= i < 1024 -> aget d i = 0) -> aread d 512 512 = replicate 512 0.
Proof.
  intros H. transitivity (aread (replicate 512 0) 0 512); [|apply (aread_all (replicate 512 0))].
  apply aread_ext. intros i Hi. rewrite H by lia. by rewrite aget_replicate0.
Qed.

Section InitSectors.

Context (s : BDRVQcowState) (ns ne first co : Z).
Context (Gk : good_key (aes_encrypt_key (crypt s))) (Hco : 0 <= co) (Hend : co + cluster_size s < 2 ^ 62).
Context (CZ : cluster_size s = 512 * cluster_sectors s).

(** The buffer that [init_sectors] encrypts in: zeros in its second sector. *)
Definition scratch (d : list Z) : Prop :=
  Zlength d = cluster_size s /\ Forall (is_uint 8) d /\ forall i, 512 <= i < 1024 -> aget d i = 0.

(** The encryption of a zero sector. *)
Definition zero_sector (t : Z) : list Z := sectors_spec 1 (aes_encrypt_key (crypt s)) 1 (first + t) (replicate 512 0).

Lemma encrypt_zero d t : scratch d -> 1024 <= cluster_size s ->
  exists d', encrypt_sectors 1 (first + t) d 0 512 1 (aes_encrypt_key (crypt s)) = Some d' /\ scratch d' /\
    take 512 d' = zero_sector t /\ Zlength (zero_sector t) = 512 /\ Forall (is_uint 8) (zero_sector t).
Proof.
  intros (H1 & H2 & H3) Hs. unfold Zlength in H1.
  destruct (encrypt_sectors_spec 1 _ Gk 1 (first + t) d 0 512) as (d' & E & R & [Fl Ff] & B); [done|lia|lia|lia|lia|right; right; lia|].
  change (512 * 1)%nat with 512%nat in R. rewrite (zero_block d H3) in R. fold (zero_sector t) in R.
  exists d'. split; [done|]. split; [|split_and!].
  - unfold scratch, Zlength. rewrite Fl. split_and!; [done|done|]. intros i Hi. rewrite Ff by lia. by apply H3.
  - rewrite take_aread by lia. exact R.
  - rewrite <- R. unfold Zlength. by rewrite length_aread.
  - rewrite <- R. by apply aread_bytes.
Qed.

Lemma init_sectors_ok : 1024 <= cluster_size s -> forall (j : nat) i (q : Qcow (F := F)), 0 <= i -> i + Z.of_nat j = cluster_sectors s ->
  crypt (st q) = crypt s -> scratch (cluster_data (st q)) -> file_ok (file q) ->
  co + cluster_size s <= flen (file q) <= co + cluster_size s + 511 ->
  exists d f', init_sectors j i ns ne first co q = Some (mkImage (set_cluster_data d (st q)) f', Go tt) /\ scratch d /\ file_ok f' /\
    co + cluster_size s <= flen f' <= co + cluster_size s + 511 /\
    (forall b, 0 <= b < co + i * 512 -> fbyte f' b = fbyte (file q) b) /\
    (forall t, i <= t < cluster_sectors s -> t < ns \/ ne <= t -> window (fbyte f') (co + t * 512) 512 = zero_sector t).
Proof.
  intros Hs. induction j as [|j IH]; intros i q Hi Hij HC Hd Ho Hl.
  - exists (cluster_data (st q)), (file q). split_and!; try done; [|lia|lia|lia]. destruct q as [[] ?]. done.
  - cbn [init_sectors]. destruct ((i <? ns) || (ne <=? i)) eqn:X.
    + rewrite HC. destruct (encrypt_zero _ i Hd Hs) as (d & -> & Hd' & T & ZL & ZB). cbn [mbind option_bind st file with_st]. rewrite T.
      rewrite (wrap_small 64) by (unfold is_uint; nia).
      destruct (file_pwrite_ok (file q) (co + i * 512) (zero_sector i) Ho) as (f1 & -> & O1 & [S1 S2 S3]); [lia| |done|].
      { intros Z0. rewrite Z0 in ZL. done. }
      rewrite ZL in *. cbn [Z.eqb negb Pos.eqb].
      destruct (IH (i + 1) (with_file f1 (with_st (set_cluster_data d (st q)) q))) as (d2 & f2 & E & D2 & O2 & L2 & B2 & W2);
        [lia|lia|done|done|done|cbn [file with_file]; lia|]. cbn [file with_file] in *.
      exists d2, f2. split_and!; [exact E|done|done|lia|lia| |].
      * intros b Hb. rewrite B2 by lia. apply S2; lia.
      * intros t Ht Ho'. destruct (Z.eq_dec t i) as [->|N]; [|apply W2; lia].
        assert (LZ : length (zero_sector i) = 512%nat) by (unfold Zlength in ZL; lia). rewrite <- LZ. symmetry.
        apply window_eq. intros b Hb. rewrite B2 by lia. rewrite S1 by lia. f_equal. lia.
    + destruct (IH (i + 1) q) as (d2 & f2 & E & D2 & O2 & L2 & B2 & W2); [lia|lia|done|done|done|done|].
      exists d2, f2. split_and!; [exact E|done|done|lia|lia| |].
      * intros b Hb. apply B2. lia.
      * intros t Ht Ho'. apply W2; lia.
Qed.

End InitSectors.

(** ** The allocation of a cluster *)

(** [q'] is [q] with room at [co] for cluster [c], not yet in the table. *)
Record allocated (q q' : Qcow (F := F)) (c co : Z) : Prop := {
  a_image : exists own, image_ok own q' /\ entry_ok own (st q) (file q') c co;
  a_geometry : same_geometry (st q) (st q');
  a_cache : l2_cache (st q') = l2_cache (st q);
  a_offsets : l2_cache_offsets (st q') = l2_cache_offsets (st q);
  a_l1 k : 0 <= k < l1_size (st q) -> l1_entry (st q) (file q') k = l1_entry (st q) (file q) k;
  a_l2 x : 0 <= x < l1_size (st q) * l2_size (st q) -> l2_entry (st q) (file q') x = l2_entry (st q) (file q) x;
  a_sector base x : sector_ok (st q) x -> sector_data (st q) (file q') base x = sector_data (st q) (file q) base x;
  a_plain : co <> 0 /\ compressed co = false;
  a_range : 0 <= co < 2 ^ 62;
  a_head : head_kept (st q) (file q) (file q');
  a_len : flen (file q) <= flen (file q') <= flen (file q) + 2 * cluster_size (st q) + 511
}.

Lemma append_allocated own (q q1 : Qcow (F := F)) f' c co : image_ok own q1 -> file q1 = file q -> same_geometry (st q) (st q1) ->
  l2_cache (st q1) = l2_cache (st q) -> l2_cache_offsets (st q1) = l2_cache_offsets (st q) ->
  (forall i, 0 <= i < flen (file q) -> fbyte f' i = fbyte (file q) i) -> file_ok f' ->
  flen (file q) <= co < flen (file q) + cluster_size (st q) -> co mod 512 = 0 -> co < 2 ^ 62 ->
  co + cluster_size (st q) <= flen f' <= co + cluster_size (st q) + 511 ->
  allocated q (with_file f' q1) c co.
Proof.
  intros I Ef G E1 E2 V O Hco M H62 Hl. pose proof (flen_nonneg (file q)). destruct (sizes _ _ _ (i_layout _ _ I)) as (_ & CS & CZ & _).
  rewrite (cluster_size_geometry _ _ G), (cluster_sectors_geometry _ _ G) in *.
  assert (K : kept own (fun o => o = Unused) (file q1) f') by (constructor; rewrite Ef; [lia|]; intros i Hi _; by apply V).
  pose proof (cluster_size_geometry _ _ G) as CG.
  assert (H1 : flen (file q1) <= co) by (rewrite Ef; lia). assert (H2 : co + cluster_size (st q1) <= flen f') by (rewrite CG; lia).
  destruct (append_entry own q1 f' c co I H1 H2 ltac:(lia) M) as (A1 & A2 & A3).
  constructor; cbn [st file with_file].
  - exists (cluster_own own q1 c co). split; [exact (append_image own q1 f' c co I K O H1 H2)|]. by apply (entry_geometry _ _ G).
  - exact G.
  - exact E1.
  - exact E2.
  - intros k Hk. pose proof (append_l1 own q1 f' I K k) as A. rewrite !(l1_geometry _ _ G), (s_l1 _ _ G), Ef in A. by apply A.
  - intros x Hx. pose proof (append_l2 own q1 f' I K x) as A.
    rewrite !(l2_geometry _ _ G), (s_l1 _ _ G), (l2_size_geometry _ _ G), Ef in A. by apply A.
  - intros base x Hx. pose proof (append_sector own q1 f' I K base x (sector_ok_geometry _ _ _ G Hx)) as A.
    by rewrite !(sector_geometry _ _ G), Ef in A.
  - done.
  - lia.
  - pose proof (kept_head own (st q1) (file q1) f' _ (i_layout _ _ I) K) as KH. rewrite Ef in KH. apply (head_geometry _ _ _ _ G). by apply KH.
  - lia.
Qed.

Lemma image_scratch own (q : Qcow (F := F)) d : image_ok own q -> Zlength d = cluster_size (st q) -> Forall (is_uint 8) d ->
  image_ok own (with_st (set_cluster_data d (st q)) q).
Proof.
  intros I H1 H2. pose proof (i_coherent _ _ I) as [C1 C2 C3 C4 C5 C6 C7]. pose proof (i_buffers _ _ I) as [B1 B2 B3 B4 B5 B6].
  apply image_state; [exact I|by constructor|by constructor|]. by constructor.
Qed.

Section Alloc.

Context (own : Z -> owner) (q : Qcow (F := F)) (m k : Z) (base : Z -> Z).
Context (I : image_ok own q) (Hm : sector_ok (st q) m) (Hk : 0 < k).
Context (Hroom : flen (file q) + 2 * cluster_size (st q) + 1024 < 2 ^ 62).

#[local] Abbreviation s := (st q).
#[local] Abbreviation cs := (cluster_sectors (st q)).
#[local] Abbreviation c := (m / cs).
#[local] Abbreviation ns := (m mod cs).
#[local] Abbreviation e := (l2_entry (st q) (file q) c).

Context (Hin : ns + k <= cs) (Hnew : e = 0 \/ compressed e = true).
Context (Hbase : (forall i, base i = 0) \/ cs = 1).

(** The sectors of the cluster that are not written keep their contents. *)
Definition others_kept (f' : F) (co : Z) : Prop :=
  forall x, sector_ok s x -> x / cs = c -> x mod cs < ns \/ ns + k <= x mod cs ->
    plain_sector s f' co x = sector_data s (file q) base x.

Lemma place_ok : exists co, round_to_cluster s (u64 (file_getlength (file q))) = co /\
  flen (file q) <= co < flen (file q) + cluster_size s /\ co mod 512 = 0 /\ co < 2 ^ 62.
Proof.
  pose proof (i_layout _ _ I) as L. pose proof (flen_nonneg (file q)). destruct (sizes _ _ _ L) as (_ & CS & CZ & CM).
  rewrite (file_getlength_ok _ (g_file _ _ _ L)), (wrap_small 64) by (unfold is_uint; lia).
  destruct (round_ok own s (file q) (flen (file q)) L ltac:(lia)) as [R M]. eexists. split; [reflexivity|].
  split_and!; [lia|lia| |lia]. apply Z.mod_divide; [lia|]. apply Z.mod_divide in M; [|lia]. etransitivity; [|exact M].
  rewrite CZ. apply Z.divide_factor_l.
Qed.

Lemma other_zero x : e = 0 -> x mod cs < ns \/ ns + k <= x mod cs -> sector_ok s x -> x / cs = c ->
  sector_data s (file q) base x = replicate 512 0.
Proof.
  intros E Hx Hs Ec. pose proof (i_layout _ _ I) as L. destruct (cluster_of _ _ _ _ L (proj1 Hs)) as [_ Hxi].
  destruct (cluster_of _ _ _ _ L (proj1 Hm)) as [_ Hmi]. unfold sector_data. rewrite Ec, E. cbn [Z.eqb].
  apply aread_window0. destruct Hbase as [|C1]; [done|]. lia.
Qed.

(** A compressed cluster is expanded into the new one. *)
Lemma alloc_expanded : compressed e = true -> k < cs ->
  exists q' co, alloc_cluster e (m * 512) 1 0 ns (ns + k) q = Some (q', Go co) /\ allocated q q' c co /\ others_kept (file q') co.
Proof.
  intros C Hp. pose proof (i_layout _ _ I) as L. pose proof (cluster_ok _ _ _ _ L Hm) as Hc.
  destruct (sizes _ _ _ L) as (_ & CS & CZ & CM). destruct place_ok as (co & Eco & Hco & M & H62).
  destruct (decompress_ok own q c I Hc C) as (s' & out & ED & EO & EX & I' & G & G1 & G2).
  unfold alloc_cluster. cbv zeta. change (truthy (e &. QCOW_OFLAG_COMPRESSED)) with (compressed e). rewrite C.
  rewrite (proj2 (Z.ltb_lt (ns + k - ns) cs)) by lia. cbn [andb]. rewrite ED. cbn [Z.ltb Z.compare st file with_st]. rewrite Eco, EO.
  destruct (expanded_some _ _ _ _ EX) as (_ & _ & _ & LO). pose proof (expanded_bytes _ _ _ _ EX) as BO. pose proof (flen_nonneg (file q)).
  destruct (file_pwrite_ok (file q) co out (g_file _ _ _ L)) as (f' & -> & O' & [S1 S2 S3]); [lia| |done|].
  { intros Z0. rewrite Z0 in LO. change (Zlength []) with 0 in LO. lia. }
  rewrite LO in *. rewrite Z.eqb_refl. cbn [negb]. eexists _, co. split; [reflexivity|]. split.
  - apply (append_allocated own q (with_st s' q) f' c co I' eq_refl G G1 G2); [|exact O'|exact Hco|exact M|exact H62|lia].
    intros i Hi. apply S2; lia.
  - intros x Hx Ec Ho. destruct (cluster_of _ _ _ _ L (proj1 Hx)) as [_ Hxi]. assert (E0 : e <> 0) by (intros Z0; by rewrite Z0 in C).
    pose proof (o_entry _ _ _ L c Hc E0) as OE. unfold entry_ok in OE. rewrite C in OE. destruct OE as (CM0 & _).
    unfold plain_sector, sector_data. cbv zeta. rewrite Ec, CM0, C, (proj2 (Z.eqb_neq e 0) E0), EX. cbn [truthy Z.eqb negb default file with_file].
    apply (window_ext (fbyte f') (aget out)). intros i Hi. change (Z.of_nat 512) with 512 in Hi. rewrite S1 by lia. f_equal. lia.
Qed.

(** The file is made longer for the others. *)
Lemma lengthen_ok co : flen (file q) <= co < flen (file q) + cluster_size s -> co < 2 ^ 62 ->
  exists f1, file_truncate (file q) (s64 (co + cluster_size s)) = (0, f1) /\ file_ok f1 /\ flen f1 = co + cluster_size s /\
    (forall i, 0 <= i < flen (file q) -> fbyte f1 i = fbyte (file q) i) /\
    (forall i, co <= i < co + cluster_size s -> fbyte f1 i = 0).
Proof.
  intros Hco H62. pose proof (i_layout _ _ I) as L. pose proof (flen_nonneg (file q)). destruct (sizes _ _ _ L) as (_ & CS & CZ & CM).
  rewrite swrap_small by (change (2 ^ (64 - 1)) with (2 ^ 63); lia).
  destruct (file_truncate_ok (file q) (co + cluster_size s) (g_file _ _ _ L)) as (f1 & E & O & Lf & V); [lia|].
  exists f1. split_and!; [done|done|done| |]; intros i Hi; rewrite V by lia; zcases; done.
Qed.

(** Nothing is left to do for it when it is written whole or not encrypted. *)
Lemma alloc_extended : (compressed e = false \/ k = cs) -> (crypt_method (crypt s) = 0 \/ k = cs) ->
  exists q' co, alloc_cluster e (m * 512) 1 0 ns (ns + k) q = Some (q', Go co) /\ allocated q q' c co /\ others_kept (file q') co.
Proof.
  intros C Hc0. pose proof (i_layout _ _ I) as L. destruct (sizes _ _ _ L) as (_ & CS & CZ & CM).
  destruct (cluster_of _ _ _ _ L (proj1 Hm)) as [_ Hmi]. destruct place_ok as (co & Eco & Hco & M & H62).
  destruct (lengthen_ok co Hco H62) as (f1 & ET & O1 & L1 & V1 & Z1).
  unfold alloc_cluster. cbv zeta. change (truthy (e &. QCOW_OFLAG_COMPRESSED)) with (compressed e).
  replace (compressed e && (ns + k - ns <? cs)) with false by (destruct C as [->|]; [done|]; symmetry; apply andb_false_intro2; lia).
  cbn [Z.eqb Pos.eqb]. rewrite Eco, ET. cbn [file with_file].
  replace (truthy (crypt_method (crypt s)) && (ns + k - ns <? cs)) with false
    by (destruct Hc0 as [->|]; [done|]; symmetry; apply andb_false_intro2; lia).
  eexists _, co. split; [reflexivity|]. split.
  - apply (append_allocated own q q f1 c co I eq_refl ltac:(reflexivity) eq_refl eq_refl V1 O1 Hco M H62). lia.
  - intros x Hx Ec Ho. destruct (cluster_of _ _ _ _ L (proj1 Hx)) as [_ Hxi].
    assert (Hp : k <> cs) by lia. destruct C as [C|]; [|done]. destruct Hc0 as [C0|]; [|done].
    destruct Hnew as [E0|]; [|congruence]. rewrite (other_zero x E0 Ho Hx Ec). unfold plain_sector. rewrite C0. cbn [truthy Z.eqb negb file with_file].
    rewrite <- (aread_window0 (fun _ => 0) 0 512) by done. apply window_ext. intros i Hi. change (Z.of_nat 512) with 512 in Hi. apply Z1. lia.
Qed.

(** In an encrypted image the rest of the cluster is written as zeros. *)
Lemma alloc_encrypted : e = 0 -> crypt_method (crypt s) <> 0 -> k < cs ->
  exists q' co, alloc_cluster e (m * 512) 1 0 ns (ns + k) q = Some (q', Go co) /\ allocated q q' c co /\ others_kept (file q') co.
Proof.
  intros E0 C0 Hp. pose proof (i_layout _ _ I) as L. pose proof (i_buffers _ _ I) as B. destruct (sizes _ _ _ L) as (_ & CS & CZ & CM).
  destruct (cluster_of _ _ _ _ L (proj1 Hm)) as [_ Hmi]. destruct place_ok as (co & Eco & Hco & M & H62).
  destruct (lengthen_ok co Hco H62) as (f1 & ET & O1 & L1 & V1 & Z1). pose proof (flen_nonneg (file q)).
  unfold alloc_cluster. cbv zeta. rewrite E0. change (truthy (0 &. QCOW_OFLAG_COMPRESSED)) with false.
  assert (T : truthy (crypt_method (crypt s)) = true) by (unfold truthy; lia).
  cbn [andb Z.eqb Pos.eqb]. rewrite Eco, ET. cbn [file with_file st]. rewrite T, (proj2 (Z.ltb_lt (ns + k - ns) cs)) by lia. cbn [andb negb].
  rewrite (start_sector_eq own s (file q) m L (proj1 (proj1 Hm))).
  set (d0 := awrite (cluster_data s) 512 (replicate 512 0)).
  assert (D0 : scratch s d0).
  { pose proof (b_cluster_data _ _ B) as BD. unfold Zlength in BD. subst d0. split_and!.
    - unfold Zlength. by rewrite length_awrite.
    - apply awrite_byte; [exact (b_cluster_data_bytes _ _ B)|by apply Forall_replicate].
    - intros i Hi. rewrite aget_awrite by (rewrite ?length_replicate; lia). rewrite length_replicate. zcases. by rewrite aget_replicate0. }
  destruct (b_key _ _ B C0) as (Ge & Gd & Gp).
  destruct (init_sectors_ok s ns (ns + k) (c * cs) co Ge ltac:(lia) ltac:(lia) CZ ltac:(lia) (Z.to_nat cs) 0 (with_st (set_cluster_data d0 s) (with_file f1 q)))
    as (d & f2 & -> & D & O2 & L2 & V2 & W2); [lia|lia|done|done|done|cbn [file with_file with_st]; lia|]. cbn [mbind option_bind].
  destruct D as (D1 & D2 & _). eexists _, co. split; [reflexivity|]. cbn [file with_st with_file] in *. split.
  - pose proof (image_scratch own q d I D1 D2) as I1.
    apply (append_allocated own q (with_st (set_cluster_data d s) q) f2 c co I1 eq_refl ltac:(by constructor) eq_refl eq_refl); [|done|done|done|done|lia].
    intros i Hi. rewrite V2 by lia. by apply V1.
  - intros x Hx Ec Ho. destruct (cluster_of _ _ _ _ L (proj1 Hx)) as [_ Hxi]. rewrite (other_zero x E0 Ho Hx Ec). unfold plain_sector.
    rewrite T, W2 by lia. unfold zero_sector.
    replace (c * cs + x mod cs) with x by (rewrite <- Ec, (Z.mul_comm _ cs); apply Z.div_mod; lia).
    apply sectors_spec_cancel; [by split_and!|by apply Forall_replicate|done].
Qed.

(** The three cases together. *)
Lemma alloc_ok :
  exists q' co, alloc_cluster e (m * 512) 1 0 ns (ns + k) q = Some (q', Go co) /\ allocated q q' c co /\ others_kept (file q') co.
Proof.
  pose proof (i_layout _ _ I) as L. destruct (cluster_of _ _ _ _ L (proj1 Hm)) as [Hc Hmi]. destruct (Z.eq_dec k cs) as [E|N].
  - apply alloc_extended; by right.
  - destruct Hnew as [E0|C]; [|apply alloc_expanded; [done|lia]]. destruct (Z.eq_dec (crypt_method (crypt s)) 0) as [C0|C0].
    + apply alloc_extended; [left; by rewrite E0|by left].
    + apply alloc_encrypted; [done|done|lia].
Qed.

End Alloc.

(** ** The entry in its table *)

Lemma put_entry own (q : Qcow (F := F)) c e slot o : image_ok own q -> 0 <= c < l1_size (st q) * l2_size (st q) ->
  l1_entry (st q) (file q) (c / l2_size (st q)) = o -> o <> 0 -> 0 <= slot < 16 -> aget (l2_cache_offsets (st q)) slot = o ->
  entry_ok own (st q) (file q) c e -> is_uint 64 e -> (compressed e = true -> cluster_cache_offset (st q) <> comp_off (st q) e) ->
  flen (file q) < 2 ^ 63 ->
  exists f', file_pwrite_sync (file q) (u64 (o + c mod l2_size (st q) * SIZEOF_U64)) (cpu_to_be64 e) = (0, f') /\
    image_ok own (mkImage (set_l2_cache (awrite (l2_cache (st q))
      (slot_offset (st q) slot + c mod l2_size (st q) * SIZEOF_U64) (cpu_to_be64 e)) (st q)) f') /\
    kept own (fun w => w = Slot c) (file q) f' /\ l2_entry (st q) f' c = e /\ flen f' <= flen (file q) + 511.
Proof.
  intros I Hc Eo O0 Hs Es He U Hcomp Hl. pose proof (i_layout _ _ I) as L. destruct (table_of _ _ _ _ L Hc) as [Hk Hi].
  destruct (o_table _ _ _ L _ Hk ltac:(congruence)) as (T1 & T2 & T3). rewrite Eo in *. unfold SIZEOF_U64.
  rewrite (Z.mul_comm _ 8), (wrap_small 64) by (unfold is_uint; lia). rewrite (slot_offset_eq own _ _ _ L).
  destruct (file_pwrite_sync_ok (file q) (o + 8 * (c mod l2_size (st q))) (cpu_to_be64 e) (g_file _ _ _ L)) as (f' & E & O & S);
    [lia|done|apply be_put_bytes|]. pose proof S as [S1 S2 S3]. rewrite Zlength_cpu_to_be64 in *.
  assert (K : kept own (fun w => w = Slot c) (file q) f').
  { constructor; [lia|]. intros i Hi' HP. apply S2; [done|].
    destruct (decide (i < o + 8 * (c mod l2_size (st q)) \/ o + 8 * (c mod l2_size (st q)) + 8 <= i)) as [|N]; [done|]. exfalso. apply HP.
    replace i with (o + 8 * (c mod l2_size (st q)) + (i - (o + 8 * (c mod l2_size (st q))))) by lia. rewrite T3 by lia. f_equal.
    rewrite Z.mul_comm. symmetry. apply Z.div_mod. pose proof (sizes _ _ _ L). lia. }
  assert (K' : kept own (fun w => w = Slot c \/ w = Unused) (file q) f') by (constructor; [apply K|]; intros i Hi' HP; apply K; tauto).
  assert (EE : l2_entry (st q) f' c = e).
  { unfold l2_entry. cbv zeta. rewrite (kept_l1 own _ _ f' _ L K) by done. rewrite Eo, (proj2 (Z.eqb_neq o 0) O0).
    by apply (fbe64_stored (file q)). }
  exists f'. split_and!; [done| |done|done|lia].
  set (s' := set_l2_cache _ _). assert (G : same_geometry (st q) s') by by constructor. constructor; cbn [st file].
  - apply (layout_geometry _ _ G). apply (new_entry_layout own own (st q) (file q) f' c e L Hc K' O EE); [done| |].
    + intros i Hi'. apply (o_unused _ _ _ L). lia.
    + apply (kept_entry own (st q) (file q) f' _ L K); [by left|exact He].
  - pose proof (new_entry_coherent own (st q) (file q) f' c e L Hc K' slot (i_coherent _ _ I) Hs) as NC. rewrite Eo in NC. by apply NC.
  - apply (buffers_geometry _ _ G); [done|done|done|]. exact (new_entry_buffers own (st q) (file q) f' c e L Hc K' EE Hcomp (i_buffers _ _ I)).
Qed.

(** The cluster that holds sector [x], when it is not touched. *)
Lemma kept_plain own s (f f' : F) c e x : layout own s f -> kept own (fun w => w = Slot c) f f' -> entry_ok own s f c e -> compressed e = false ->
  0 <= x -> plain_sector s f' e x = plain_sector s f e x.
Proof.
  intros L K He C Hx. unfold entry_ok in He. rewrite C in He. destruct He as (H1 & _ & H2 & H3). destruct (sizes _ _ _ L) as (_ & CS & CZ & _).
  pose proof (Z.mod_pos_bound x (cluster_sectors s) CS). unfold plain_sector.
  replace (window (fbyte f') (e + x mod cluster_sectors s * 512) 512) with (window (fbyte f) (e + x mod cluster_sectors s * 512) 512); [done|].
  symmetry. apply window_ext. intros i Hi. change (Z.of_nat 512) with 512 in Hi. apply (k_byte _ _ _ _ K); [lia|].
  rewrite <- Z.add_assoc, H3 by lia. done.
Qed.

(** ** A cluster to write to *)

(** How much longer one cluster makes the file at most. *)
Definition room (s : BDRVQcowState) : Z := 3 * cluster_size s + 8 * l2_size s + 4096.

(** Sector [x] is not one of [k] sectors from [m] on, which are of one cluster. *)
Definition elsewhere (s : BDRVQcowState) (m k x : Z) : Prop :=
  x / cluster_sectors s <> m / cluster_sectors s \/
  x mod cluster_sectors s < m mod cluster_sectors s \/ m mod cluster_sectors s + k <= x mod cluster_sectors s.

Lemma room_geometry s t : same_geometry s t -> room t = room s.
Proof. intros G. unfold room. by rewrite (cluster_size_geometry _ _ G), (l2_size_geometry _ _ G). Qed.

(** The end of [get_cluster_offset], when the cluster is new. *)
Lemma fill_entry own (q : Qcow (F := F)) m k base o slot : image_ok own q -> sector_ok (st q) m -> 0 < k ->
  flen (file q) + 2 * cluster_size (st q) + 2048 < 2 ^ 62 ->
  m mod cluster_sectors (st q) + k <= cluster_sectors (st q) -> (forall i, base i = 0) \/ cluster_sectors (st q) = 1 ->
  let c := m / cluster_sectors (st q) in
  let e := l2_entry (st q) (file q) c in
  e = 0 \/ compressed e = true -> l1_entry (st q) (file q) (c / l2_size (st q)) = o -> o <> 0 -> 0 <= slot < 16 ->
  aget (l2_cache_offsets (st q)) slot = o ->
  exists own' q1 q' co f', alloc_cluster e (m * 512) 1 0 (m mod cluster_sectors (st q)) (m mod cluster_sectors (st q) + k) q = Some (q1, Go co) /\
    file_pwrite_sync (file q1) (u64 (o + c mod l2_size (st q) * SIZEOF_U64)) (cpu_to_be64 co) = (0, f') /\
    q' = mkImage (set_l2_cache (awrite (l2_cache (st q1))
      (slot_offset (st q) slot + c mod l2_size (st q) * SIZEOF_U64) (cpu_to_be64 co)) (st q1)) f' /\
    image_ok own' q' /\ same_geometry (st q) (st q') /\ l2_entry (st q) (file q') c = co /\ co <> 0 /\ compressed co = false /\
    flen (file q') <= flen (file q) + 2 * cluster_size (st q) + 1022 /\ head_kept (st q) (file q) (file q') /\
    (forall x, sector_ok (st q) x -> elsewhere (st q) m k x -> sector_data (st q) (file q') base x = sector_data (st q) (file q) base x).
Proof.
  intros I Hm Hk Hr Hin Hb c e Hn Eo O0 Hs Es. pose proof (i_layout _ _ I) as L. pose proof (cluster_ok _ _ _ _ L Hm) as Hc. fold c in Hc.
  pose proof (sizes _ _ _ L) as (_ & CS & CZ & CM).
  destruct (alloc_ok own q m k base I Hm Hk ltac:(lia) Hin Hn Hb) as (q1 & co & EA & [(own' & I1 & He) G A1 A2 AL1 AL2 AS [P1 P2] AR AH ALen] & OK).
  fold c in He, OK. pose proof (table_ok _ _ _ _ L Hm) as Hk'. fold c in Hk'.
  pose proof (put_entry own' q1 c co slot o I1) as PE.
  rewrite (s_l1 _ _ G), (l2_size_geometry _ _ G), (l1_geometry _ _ G), (comp_off_geometry _ _ G), (entry_geometry _ _ G), A2 in PE.
  destruct PE as (f' & EW & I2 & K & EE & Lf); [done|by rewrite AL1|done|done|done|done|unfold is_uint; lia|congruence|lia|]. rewrite (l2_geometry _ _ G) in EE.
  assert (SO : slot_offset (st q1) slot = slot_offset (st q) slot) by (unfold slot_offset; by rewrite (s_l2 _ _ G)). rewrite SO in I2.
  eexists own', q1, _, co, f'. split; [exact EA|]. split; [exact EW|]. split; [reflexivity|]. split; [exact I2|]. cbn [st file].
  assert (G2 : same_geometry (st q) (set_l2_cache (awrite (l2_cache (st q1))
    (slot_offset (st q) slot + c mod l2_size (st q) * SIZEOF_U64) (cpu_to_be64 co)) (st q1))) by (destruct G; by constructor).
  assert (L1 : layout own' (st q) (file q1)).
  { apply (layout_geometry (st q1) (st q)); [|exact (i_layout _ _ I1)]. destruct G. by constructor. }
  split; [exact G2|]. split_and!; [exact EE|done|done|lia|exact (head_trans _ _ _ _ AH (kept_head own' (st q) (file q1) f' _ L1 K ltac:(done)))|].
  intros x Hx Hel.
  destruct (Z.eq_dec (x / cluster_sectors (st q)) c) as [Ec|N].
  - rewrite (sector_plain _ _ base x co) by (rewrite ?Ec; done).
    rewrite (kept_plain own' (st q) (file q1) f' c co x L1 K He P2) by apply Hx.
    apply OK; [done|done|]. destruct Hel as [|]; done.
  - assert (K' : kept own' (fun w => w = Slot c \/ w = Unused) (file q1) f') by (constructor; [apply K|]; intros i Hi' HP; apply K; tauto).
    rewrite (new_entry_sector own' (st q) (file q1) f' c L1 K' base x N (proj1 Hx)). by apply AS.
Qed.

Lemma get_cluster_write own (q : Qcow (F := F)) m k base : image_ok own q -> sector_ok (st q) m -> 0 < k ->
  flen (file q) + room (st q) < 2 ^ 62 -> m mod cluster_sectors (st q) + k <= cluster_sectors (st q) ->
  (forall i, base i = 0) \/ cluster_sectors (st q) = 1 ->
  exists own' q' e, get_cluster_offset (u64 (m <<. 9)) 1 0 (m mod cluster_sectors (st q)) (m mod cluster_sectors (st q) + k) q = Some (q', e) /\
    image_ok own' q' /\ same_geometry (st q) (st q') /\ l2_entry (st q) (file q') (m / cluster_sectors (st q)) = e /\ e <> 0 /\
    compressed e = false /\ flen (file q') <= flen (file q) + room (st q) - 512 /\ head_kept (st q) (file q) (file q') /\
    (forall x, sector_ok (st q) x -> elsewhere (st q) m k x -> sector_data (st q) (file q') base x = sector_data (st q) (file q) base x).
Proof.
  intros I Hm Hk Hr Hin Hb. unfold room in *. pose proof (i_layout _ _ I) as L. pose proof (cluster_ok _ _ _ _ L Hm) as Hc.
  pose proof (sizes _ _ _ L) as (LS & CS & CZ & CM).
  destruct (find_table own q m 1 I Hm ltac:(lia) ltac:(lia)) as (own2 & q1 & q2 & o & new & slot & E1 & E2 & I2 & G & EO & O0 & Hs & Es & F1 & F2 & F3 & F4).
  rewrite (offset_eq _ _ Hm). unfold get_cluster_offset. rewrite E1, E2. cbv zeta.
  set (c := m / cluster_sectors (st q)) in *.
  rewrite (s_cluster _ _ G), (l2_size_geometry _ _ G), (l2_index_eq _ _ _ _ L). fold c.
  pose proof (cached_entry own2 (st q2) (file q2) slot c (i_layout _ _ I2) (i_coherent _ _ I2) Hs) as CE.
  rewrite (l2_size_geometry _ _ G), (s_l1 _ _ G), (l1_geometry _ _ G), (l2_geometry _ _ G) in CE.
  rewrite CE by (done || congruence). clear CE. rewrite (F1 c Hc). set (e := l2_entry (st q) (file q) c).
  change (truthy (e &. QCOW_OFLAG_COMPRESSED)) with (compressed e). cbn [Z.eqb Pos.eqb]. rewrite andb_true_r.
  destruct ((e =? 0) || compressed e) eqn:X.
  - assert (Hn : e = 0 \/ compressed e = true) by (destruct (Z.eqb_spec e 0); [by left|by right]).
    pose proof (fill_entry own2 q2 m k base o slot I2 (sector_ok_geometry _ _ _ G Hm) Hk) as FE. cbv zeta in FE.
    rewrite !(cluster_sectors_geometry _ _ G), !(l2_geometry _ _ G), !(l2_size_geometry _ _ G), !(cluster_size_geometry _ _ G), !(l1_geometry _ _ G) in FE.
    fold c in FE. rewrite (F1 c Hc) in FE. fold e in FE.
    destruct FE as (own' & q3 & q' & co & f' & EA & EW & Eq & I' & G' & EE & P1 & P2 & Lf & HK & V); [lia|done|done|exact Hn|done|done|done|done|].
    rewrite (l2_geometry _ _ G) in EE. rewrite EA. cbn [mbind option_bind st file with_st with_file]. rewrite EW. cbn [Z.ltb Z.compare].
    exists own', q', co. rewrite Eq in *. cbn [st file] in *. split_and!; [done|done|by transitivity (st q2)|done|done|done|lia| |].
    { exact (head_trans _ _ _ _ F4 (head_geometry _ _ _ _ G HK)). }
    intros x Hx Hel. pose proof (V x (sector_ok_geometry _ _ _ G Hx)) as V'. unfold elsewhere in *. rewrite !(cluster_sectors_geometry _ _ G) in V'.
    specialize (V' Hel). rewrite !(sector_geometry _ _ G) in V'. rewrite V'. by apply F2.
  - apply orb_false_elim in X as [X1 X2]. apply Z.eqb_neq in X1. exists own2, q2, e. split_and!; [done|exact I2|exact G|by apply F1|done|done|lia|exact F4|].
    intros x Hx _. by apply F2.
Qed.

(** ** A write request *)

(** The buffer that a control block brings along. *)
Definition data_ok (s : BDRVQcowState) (d : option (list Z)) : Prop :=
  match d with None => True | Some d => Zlength d = cluster_size s /\ Forall (is_uint 8) d end.

Lemma data_ok_geometry s t d : same_geometry s t -> data_ok s d -> data_ok t d.
Proof. intros G. unfold data_ok. by rewrite (cluster_size_geometry _ _ G). Qed.

Lemma disk_data_ext s (f f' : F) base : forall k m,
  (forall x, m <= x < m + Z.of_nat k -> sector_data s f' base x = sector_data s f base x) -> disk_data s f' base m k = disk_data s f base m k.
Proof.
  induction k as [|k IH]; intros m H; cbn [disk_data]; [done|]. rewrite (H m) by lia. f_equal. apply IH. intros x Hx. apply H. lia.
Qed.

(** The bytes for the file: encrypted in the buffer of the control block. *)
Lemma encrypt_chunk own (q : Qcow (F := F)) d ch k m : image_ok own q -> crypt_method (crypt (st q)) <> 0 -> data_ok (st q) d ->
  Forall (is_uint 8) ch -> length ch = (512 * k)%nat -> 512 * Z.of_nat k <= cluster_size (st q) ->
  let d := default (replicate (Z.to_nat (cluster_size (st q))) 0) d in
  exists mem, encrypt_sectors k m (d ++ ch) 0 (Zlength d) 1 (aes_encrypt_key (crypt (st q))) = Some mem /\
    data_ok (st q) (Some (take (length d) mem)) /\
    take (512 * k) (take (length d) mem) = sectors_spec 1 (aes_encrypt_key (crypt (st q))) k m ch.
Proof.
  intros I C Hd Hb Hl Hk d0. destruct (b_key _ _ (i_buffers _ _ I) C) as (Ge & _).
  assert (D : Zlength d0 = cluster_size (st q) /\ Forall (is_uint 8) d0).
  { subst d0. destruct d as [d|]; [exact Hd|]. split; [unfold Zlength; cbn [default]; rewrite length_replicate; lia|by apply Forall_replicate]. }
  destruct D as [D1 D2]. clearbody d0. unfold Zlength in *.
  destruct (encrypt_sectors_spec 1 _ Ge k m (d0 ++ ch) 0 (Z.of_nat (length d0))) as (mem & E & R & [Fl _] & B);
    [by apply Forall_app|lia|lia|rewrite length_app; lia|rewrite length_app; lia|right; right; lia|]. rewrite length_app in Fl.
  exists mem. split_and!; [exact E| |].
  - split; [unfold Zlength; rewrite length_take; lia|by apply Forall_take].
  - rewrite take_take, Nat.min_l by lia. rewrite take_aread by lia. rewrite R. f_equal. rewrite <- (aread_all ch) at 2. rewrite Hl.
    apply aread_ext. intros i Hi. rewrite aget_app by lia. unfold Zlength. zcases. f_equal. lia.
Qed.

(** The sectors written read back. *)
Lemma written_chunk own s (f f' : F) base e m ch k : layout own s f' ->
  (crypt_method (crypt s) <> 0 -> key_pair (aes_encrypt_key (crypt s)) (aes_decrypt_key (crypt s))) ->
  m mod cluster_sectors s + Z.of_nat k <= cluster_sectors s -> l2_entry s f' (m / cluster_sectors s) = e -> e <> 0 -> compressed e = false ->
  Forall (is_uint 8) ch -> length ch = (512 * k)%nat ->
  window (fbyte f') (e + m mod cluster_sectors s * 512) (512 * k) =
    (if truthy (crypt_method (crypt s)) then sectors_spec 1 (aes_encrypt_key (crypt s)) k m ch else ch) ->
  disk_data s f' base m k = ch.
Proof.
  intros L Hkey Hin E E0 C Hb Hl W. rewrite (disk_chunk own s f' base L k m Hin), E. unfold cluster_data_of.
  rewrite (proj2 (Z.eqb_neq e 0) E0), C, W. destruct (truthy (crypt_method (crypt s))) eqn:T; [|done].
  apply sectors_spec_cancel; [apply Hkey; unfold truthy in T; lia|done|done].
Qed.

(** The data of a chunk in the file. *)
Lemma store_chunk own (q : Qcow (F := F)) m k base ch data e : image_ok own q -> sector_ok (st q) m -> (0 < k)%nat ->
  m mod cluster_sectors (st q) + Z.of_nat k <= cluster_sectors (st q) ->
  l2_entry (st q) (file q) (m / cluster_sectors (st q)) = e -> e <> 0 -> compressed e = false ->
  Forall (is_uint 8) ch -> length ch = (512 * k)%nat -> Forall (is_uint 8) data -> length data = (512 * k)%nat ->
  data = (if truthy (crypt_method (crypt (st q))) then sectors_spec 1 (aes_encrypt_key (crypt (st q))) k m ch else ch) ->
  exists f', file_aio_writev (file q) ((e >>. 9) + m mod cluster_sectors (st q)) data = Some (0, f') /\ image_ok own (with_file f' q) /\
    disk_data (st q) f' base m k = ch /\ flen f' <= flen (file q) + 511 /\ head_kept (st q) (file q) f' /\
    (forall x, sector_ok (st q) x -> elsewhere (st q) m (Z.of_nat k) x -> sector_data (st q) f' base x = sector_data (st q) (file q) base x).
Proof.
  intros I Hm Hk Hin E E0 C Hb Hl Hdb Hdl ED. pose proof (i_layout _ _ I) as L. pose proof (cluster_ok _ _ _ _ L Hm) as Hc.
  set (c := m / cluster_sectors (st q)) in *. pose proof (o_entry _ _ _ L c Hc ltac:(congruence)) as He. rewrite E in He.
  unfold entry_ok in He. rewrite C in He. destruct He as (H1 & H2 & H3 & H4). destruct (entry_sector e H2) as [M1 M2].
  destruct (sizes _ _ _ L) as (_ & CS & CZ & _). pose proof (Z.mod_pos_bound m (cluster_sectors (st q)) CS) as Hi.
  destruct (file_aio_writev_ok (file q) ((e >>. 9) + m mod cluster_sectors (st q)) data (g_file _ _ _ L)) as (f' & EW & O' & [S1 S2 S3]);
    [lia|intros Z0; rewrite Z0 in Hdl; cbn [length] in Hdl; lia|done|].
  replace (((e >>. 9) + m mod cluster_sectors (st q)) * 512) with (e + m mod cluster_sectors (st q) * 512) in S1, S2, S3 by lia.
  assert (ZD : Zlength data = 512 * Z.of_nat k) by (unfold Zlength; lia). rewrite ZD in *.
  assert (K : kept own (fun w => w = Cluster c) (file q) f').
  { constructor; [lia|]. intros i Hi' HP. apply S2; [done|].
    destruct (decide (e <= i < e + cluster_size (st q))) as [R|R]; [|lia]. exfalso. apply HP.
    replace i with (e + (i - e)) by lia. apply H4. lia. }
  pose proof (image_data own q f' _ I K O') as ID. assert (I' : image_ok own (with_file f' q)).
  { apply ID; [done|done|]. intros c' Hc' C' [= ->]. congruence. }
  assert (E' : l2_entry (st q) f' c = e) by (rewrite (kept_l2 own (st q) (file q) f' _ L K); done).
  exists f'. split; [exact EW|]. split; [exact I'|]. split_and!; [|lia|by apply (kept_head own (st q) (file q) f' _ L K)|].
  - apply (written_chunk own (st q) (file q) f' base e); try done; [exact (i_layout _ _ I')|exact (b_key _ _ (i_buffers _ _ I))|].
    rewrite <- ED, <- Hdl. symmetry. apply window_eq. intros i Hi'. rewrite S1 by lia. f_equal. lia.
  - intros x Hx Hel. destruct (Z.eq_dec (x / cluster_sectors (st q)) c) as [Ec|N].
    + rewrite (sector_plain _ f' base x e), (sector_plain _ (file q) base x e) by (rewrite ?Ec; done). unfold plain_sector.
      pose proof (Z.mod_pos_bound x (cluster_sectors (st q)) CS).
      replace (window (fbyte f') (e + x mod cluster_sectors (st q) * 512) 512)
        with (window (fbyte (file q)) (e + x mod cluster_sectors (st q) * 512) 512); [done|].
      symmetry. apply window_ext. intros i Hi'. change (Z.of_nat 512) with 512 in Hi'. unfold elsewhere in Hel. apply S2; lia.
    + apply (kept_sector own (st q) (file q) f' _ L K); [|by intros [= ?]|apply Hx].
      apply (kept_l2 own (st q) (file q) f' _ L K); [done|done|apply (cluster_ok _ _ _ _ L Hx)].
Qed.

(** What a callback has for the file. *)
Lemma request_bytes own (q q1 : Qcow (F := F)) acb k m sector : image_ok own q -> data_ok (st q) (acb_data acb) -> n acb = k ->
  Forall (is_uint 8) (buf acb) -> 0 < k -> 512 * k <= cluster_size (st q) ->
  exists d' data,
    (if truthy (crypt_method (crypt (st q))) then
       let d := default (replicate (Z.to_nat (cluster_size (st q))) 0) (acb_data acb) in
       mem ← encrypt_sectors (Z.to_nat k) m (d ++ chunk acb) 0 (Zlength d) 1 (aes_encrypt_key (crypt (st q)));
       Some (q1, set_acb_data (Some (take (length d) mem)) acb, FileRequest sector, take (Z.to_nat (k * 512)) (take (length d) mem))
     else Some (q1, acb, FileRequest sector, chunk acb)) = Some (q1, set_acb_data d' acb, FileRequest sector, data) /\
    data_ok (st q) d' /\ Forall (is_uint 8) data /\ length data = (512 * Z.to_nat k)%nat /\
    data = (if truthy (crypt_method (crypt (st q))) then sectors_spec 1 (aes_encrypt_key (crypt (st q))) (Z.to_nat k) m (chunk acb) else chunk acb).
Proof.
  intros I Hd Ek Hb Hk Hc. assert (CB : Forall (is_uint 8) (chunk acb)) by by apply aread_bytes.
  assert (CL : length (chunk acb) = (512 * Z.to_nat k)%nat) by (unfold chunk; rewrite length_aread, Ek; lia).
  cbv zeta. destruct (truthy (crypt_method (crypt (st q)))) eqn:T.
  - assert (C0 : crypt_method (crypt (st q)) <> 0) by (unfold truthy in T; lia). destruct (b_key _ _ (i_buffers _ _ I) C0) as (Ge & _).
    destruct (encrypt_chunk own q (acb_data acb) (chunk acb) (Z.to_nat k) m I C0 Hd CB CL ltac:(lia)) as (mem & -> & D & W).
    destruct (encrypt_in_place 1 _ (Z.to_nat k) m (chunk acb) 0 (chunk acb) Ge CB CB CL ltac:(lia) ltac:(unfold Zlength; lia)) as (_ & L1 & B1).
    cbn [mbind option_bind]. eexists _, _. split; [reflexivity|]. replace (Z.to_nat (k * 512)) with (512 * Z.to_nat k)%nat by lia.
    split; [exact D|]. rewrite W. done.
  - exists (acb_data acb), (chunk acb). split; [by destruct acb|done].
Qed.

Lemma not_elsewhere own s (f : F) m k x : layout own s f -> 0 < k -> m mod cluster_sectors s + k <= cluster_sectors s ->
  ~ m <= x < m + k -> elsewhere s m k x.
Proof.
  intros L Hk Hin Hx. destruct (sizes _ _ _ L) as (_ & CS & _). unfold elsewhere.
  destruct (Z.eq_dec (x / cluster_sectors s) (m / cluster_sectors s)) as [E|N]; [right|by left].
  pose proof (Z.div_mod x (cluster_sectors s)) as D1. pose proof (Z.div_mod m (cluster_sectors s)) as D2. rewrite E in D1. lia.
Qed.

Section Write.

Context (base : Z -> Z).

(** One round: the next chunk is in the file. *)
Lemma write_round own (q : Qcow (F := F)) acb0 fuel : let acb := advance acb0 in let s := st q in
  image_ok own q -> (forall i, base i = 0) \/ cluster_sectors s = 1 -> 0 < nb_sectors acb ->
  (forall j, 0 <= j < nb_sectors acb -> sector_ok s (sector_num acb + j)) -> Forall (is_uint 8) (buf acb) ->
  0 <= pos acb -> pos acb + nb_sectors acb * 512 <= Zlength (buf acb) -> data_ok s (acb_data acb) -> flen (file q) + room s < 2 ^ 62 ->
  let m := sector_num acb in
  let k := chunk_sectors s m (nb_sectors acb) in
  exists own' q' d', aio_write (S fuel) 0 q acb0 =
      aio_write fuel 0 q' (mkACB m (nb_sectors acb) k (cluster_offset acb) (buf acb) (pos acb) d') /\
    image_ok own' q' /\ same_geometry s (st q') /\ data_ok s d' /\ flen (file q') <= flen (file q) + room s /\ head_kept s (file q) (file q') /\
    disk_data s (file q') base m (Z.to_nat k) = aread (buf acb) (pos acb) (512 * Z.to_nat k) /\
    (forall x, sector_ok s x -> ~ m <= x < m + k -> sector_data s (file q') base x = sector_data s (file q) base x).
Proof.
  intros acb s I HB Hnb Hs Hb Hp Hlen Hd Hroom m k. pose proof (i_layout _ _ I) as L. unfold s in *. clear s.
  assert (H0 : sector_ok (st q) m) by (rewrite <- (Z.add_0_r m); apply Hs; lia).
  destruct (cluster_of _ _ _ _ L (proj1 H0)) as [_ Hi]. destruct (sizes _ _ _ L) as (_ & CS & CZ & _).
  assert (Hk : 0 < k <= nb_sectors acb /\ m mod cluster_sectors (st q) + k <= cluster_sectors (st q)) by (subst k; unfold chunk_sectors; lia).
  cbn [aio_write]. unfold qcow_aio_write_cb. cbn [Z.ltb Z.compare]. fold acb. rewrite (proj2 (Z.eqb_neq (nb_sectors acb) 0)) by lia.
  cbv zeta. rewrite (in_cluster_eq own (st q) (file q) (sector_num acb) L). fold m.
  assert (CL : clamp_n (st q) (m mod cluster_sectors (st q)) acb = set_n k acb).
  { unfold clamp_n, set_n. f_equal. unfold k, chunk_sectors. zcases; lia. }
  rewrite CL. change (n (set_n k acb)) with k. change (sector_num (set_n k acb)) with m. change (acb_data (set_n k acb)) with (acb_data acb).
  destruct (get_cluster_write own q m k base I H0 ltac:(lia) Hroom ltac:(lia) HB) as (own1 & q1 & e & -> & I1 & G & E & E0 & C & L1 & HK & V).
  cbn [mbind option_bind]. rewrite (proj2 (Z.eqb_neq e 0) E0). pose proof (i_layout _ _ I1) as LL.
  assert (HC1 : 0 <= m / cluster_sectors (st q) < l1_size (st q1) * l2_size (st q1)).
  { rewrite (s_l1 _ _ G), (l2_size_geometry _ _ G). apply (cluster_ok _ _ _ _ L H0). }
  pose proof (o_entry _ _ _ LL _ HC1) as OE. rewrite (l2_geometry _ _ G), E in OE. specialize (OE E0). unfold entry_ok in OE. rewrite C in OE.
  destruct OE as (_ & M & _). destruct (entry_sector e M) as [M1 _]. rewrite M1. cbn [Z.eqb negb orb]. rewrite (s_crypt _ _ G).
  pose proof (request_bytes own1 q1 q1 (set_n k acb) k m ((e >>. 9) + m mod cluster_sectors (st q)) I1) as RB. cbv zeta in RB.
  change (acb_data (set_n k acb)) with (acb_data acb) in RB. rewrite (cluster_size_geometry _ _ G), (s_crypt _ _ G) in RB.
  destruct RB as (d' & data & -> & D & DB & DL & DE); [by apply (data_ok_geometry (st q))|done|done|lia|lia|].
  cbn [mbind option_bind]. set (ch := chunk (set_n k acb)) in *.
  assert (CE : ch = aread (buf acb) (pos acb) (512 * Z.to_nat k)) by (subst ch; unfold chunk; cbn [n buf pos set_n]; f_equal; lia).
  pose proof (store_chunk own1 q1 m (Z.to_nat k) base ch data e I1 (sector_ok_geometry _ _ _ G H0)) as SC.
  rewrite !(cluster_sectors_geometry _ _ G), !(l2_geometry _ _ G), !(s_crypt _ _ G) in SC.
  destruct SC as (f' & -> & I2 & DD & L2 & HK2 & V2); [lia|lia|done|done|done| | |done|done|done|].
  { subst ch. by apply aread_bytes. }
  { rewrite CE. apply length_aread. }
  eexists own1, (with_file f' q1), d'. split; [reflexivity|]. cbn [st file with_file] in *. rewrite (disk_geometry _ _ _ _ G) in DD.
  split_and!; [exact I2|exact G| |lia|exact (head_trans _ _ _ _ HK (head_geometry _ _ _ _ G HK2))|by rewrite DD|].
  - apply (data_ok_geometry (st q1)); [destruct G; by constructor|done].
  - intros x Hx Hout. pose proof (not_elsewhere own (st q) (file q) m k x L ltac:(lia) ltac:(lia) Hout) as Hel.
    rewrite <- (V x Hx Hel). rewrite <- !(sector_geometry _ _ G). apply V2; [by apply (sector_ok_geometry (st q))|].
    rewrite Z2Nat.id by lia. unfold elsewhere in *. by rewrite !(cluster_sectors_geometry _ _ G).
Qed.

Lemma aio_write_ok : forall (m fuel : nat) own (q : Qcow (F := F)) acb0, (m < fuel)%nat -> image_ok own q ->
  (forall i, base i = 0) \/ cluster_sectors (st q) = 1 -> let acb := advance acb0 in nb_sectors acb = Z.of_nat m ->
  (forall j, 0 <= j < Z.of_nat m -> sector_ok (st q) (sector_num acb + j)) -> Forall (is_uint 8) (buf acb) ->
  0 <= pos acb -> pos acb + Z.of_nat m * 512 <= Zlength (buf acb) -> data_ok (st q) (acb_data acb) ->
  flen (file q) + Z.of_nat m * room (st q) < 2 ^ 62 ->
  exists own' q', aio_write fuel 0 q acb0 = Some (q', 0) /\ image_ok own' q' /\ same_geometry (st q) (st q') /\ head_kept (st q) (file q) (file q') /\
    disk_data (st q) (file q') base (sector_num acb) m = aread (buf acb) (pos acb) (512 * m) /\
    (forall x, sector_ok (st q) x -> ~ sector_num acb <= x < sector_num acb + Z.of_nat m ->
       sector_data (st q) (file q') base x = sector_data (st q) (file q) base x).
Proof.
  intros m. induction m as [m IH] using (well_founded_induction lt_wf). intros fuel own q acb0 Hf I HB acb Hm Hs Hb Hp Hl Hd Hr.
  destruct fuel as [|fuel]; [lia|]. destruct m as [|m].
  - exists own, q. cbn [aio_write]. unfold qcow_aio_write_cb. cbn [Z.ltb Z.compare]. fold acb. rewrite Hm. done.
  - pose proof (i_layout _ _ I) as L. destruct (sizes _ _ _ L) as (LS & CS & CZ & _).
    assert (R0 : 0 < room (st q)) by (unfold room; lia).
    destruct (write_round own q acb0 fuel I HB) as (own1 & q1 & d1 & E & I1 & G & D1 & L1 & HK1 & W1 & V1); fold acb; try done; [lia|by rewrite Hm|by rewrite Hm|nia|].
    fold acb in E, W1, V1. set (k := chunk_sectors _ _ _) in *.
    assert (H0 : sector_ok (st q) (sector_num acb)) by (rewrite <- (Z.add_0_r (sector_num acb)); apply Hs; lia).
    destruct (cluster_of _ _ _ _ L (proj1 H0)) as [_ Hi].
    assert (Hk : 0 < k <= Z.of_nat (S m)) by (subst k; unfold chunk_sectors; rewrite Hm; lia).
    rewrite E. clear E. destruct (IH (S m - Z.to_nat k)%nat ltac:(lia) fuel own1 q1
      (mkACB (sector_num acb) (nb_sectors acb) k (cluster_offset acb) (buf acb) (pos acb) d1) ltac:(lia) I1
      ltac:(rewrite (cluster_sectors_geometry _ _ G); exact HB)) as (own2 & q2 & E2 & I2 & G2 & HK2 & W2 & V2);
      cbn [advance nb_sectors n sector_num buf pos acb_data] in *.
    + lia.
    + intros j Hj. apply (sector_ok_geometry _ _ _ G). rewrite <- Z.add_assoc. apply Hs. lia.
    + done.
    + lia.
    + lia.
    + by apply (data_ok_geometry (st q)).
    + rewrite (room_geometry _ _ G). nia.
    + exists own2, q2. split; [exact E2|]. split; [exact I2|]. split; [by transitivity (st q1)|].
      split; [exact (head_trans _ _ _ _ HK1 (head_geometry _ _ _ _ G HK2))|]. rewrite (disk_geometry _ _ _ _ G) in W2.
      assert (V3 : forall x, sector_ok (st q) x -> ~ sector_num acb + k <= x < sector_num acb + k + Z.of_nat (S m - Z.to_nat k) ->
        sector_data (st q) (file q2) base x = sector_data (st q) (file q1) base x).
      { intros x Hx Hout. rewrite <- !(sector_geometry _ _ G). apply V2; [by apply (sector_ok_geometry (st q))|done]. }
      split.
      * replace (S m) with (Z.to_nat k + (S m - Z.to_nat k))%nat by lia. rewrite disk_data_app, Nat.mul_add_distr_l, aread_add.
        rewrite <- W1. f_equal; [|rewrite Z2Nat.id by lia; rewrite W2; f_equal; lia].
        apply disk_data_ext. intros x Hx. apply V3; [|lia]. replace x with (sector_num acb + (x - sector_num acb)) by lia. apply Hs. lia.
      * intros x Hx Hout. rewrite V3 by (done || lia). apply V1; [done|lia].
Qed.

End Write.

Lemma image_reset own (q : Qcow (F := F)) : image_ok own q -> image_ok own (with_st (set_cluster_cache_offset (u64 (-1)) (st q)) q).
Proof.
  intros I. pose proof (i_coherent _ _ I) as [C1 C2 C3 C4 C5 C6 C7]. pose proof (i_buffers _ _ I) as [B1 B2 B3 B4 B5 B6].
  apply image_state; [exact I|by constructor|by constructor|]. constructor; try done; [|by left]. intros c Hc C E. exfalso.
  symmetry in E. exact (comp_off_bound own (st q) (file q) (i_layout _ _ I) _ E).
Qed.

(** A whole request. *)
Lemma write_request_ok own (q : Qcow (F := F)) base n data nb recycled :
  image_ok own q -> (forall i, base i = 0) \/ cluster_sectors (st q) = 1 -> 0 <= nb ->
  (forall j, 0 <= j < nb -> sector_ok (st q) (n + j)) -> Zlength data = nb * 512 -> Forall (is_uint 8) data ->
  data_ok (st q) recycled -> flen (file q) + nb * room (st q) < 2 ^ 62 ->
  exists own' q', qcow_aio_writev n data nb recycled q = Some (q', 0) /\ image_ok own' q' /\ same_geometry (st q) (st q') /\ head_kept (st q) (file q) (file q') /\
    disk_data (st q) (file q') base n (Z.to_nat nb) = data /\
    (forall x, sector_ok (st q) x -> ~ n <= x < n + nb -> sector_data (st q) (file q') base x = sector_data (st q) (file q) base x).
Proof.
  intros I HB Hnb Hs Hl Hb Hd Hr. set (acb := qcow_aio_setup n data nb recycled). set (s1 := set_cluster_cache_offset (u64 (-1)) (st q)).
  assert (G : same_geometry (st q) s1) by by constructor.
  destruct (aio_write_ok base (Z.to_nat nb) (S (S (Z.to_nat nb))) own (with_st s1 q) acb) as (own' & q' & E & I' & G' & HK & W & V).
  - lia.
  - by apply image_reset.
  - cbn [st with_st]. by rewrite (cluster_sectors_geometry _ _ G).
  - cbn. lia.
  - intros j Hj. apply (sector_ok_geometry (st q)); [done|]. cbn. rewrite Z.add_0_r. apply Hs. lia.
  - exact Hb.
  - done.
  - cbn [advance qcow_aio_setup pos buf Qcow.n acb]. lia.
  - by apply (data_ok_geometry (st q)).
  - cbn [st file with_st]. rewrite (room_geometry _ _ G), Z2Nat.id by lia. exact Hr.
  - cbn [advance qcow_aio_setup sector_num buf pos Qcow.n acb st file with_st] in W, V. rewrite Z.add_0_r in W, V.
    exists own', q'. split; [exact E|]. split; [exact I'|]. split; [by transitivity s1|]. split; [exact (head_geometry _ _ _ _ G HK)|]. rewrite (disk_geometry _ _ _ _ G) in W. split.
    + rewrite W. unfold Zlength in Hl. replace (512 * Z.to_nat nb)%nat with (length data) by lia. apply aread_all.
    + intros x Hx Hout. rewrite <- !(sector_geometry _ _ G). apply V; [by apply (sector_ok_geometry (st q))|lia].
Qed.

End Operations.

End QcowWrite.
