(* ===== verification/QcowOpen.v ===== *)
(** * Images on disk (src/qemu/block/qcow.c)

    Opening and creating images and the theorems on whole requests: a new image
    reads as its backing image, and what a write request stored is read from the
    file by a later user of it. *)
From S2P Require Import Prelude AESTables AESSpec AES AESCorrect AESCbc Block Qcow QcowDisk QcowRead QcowWrite.
Import Block Qcow QcowDisk QcowRead QcowWrite.

Module QcowOpen.

#[local] Opaque fbe64.

(** ** The header *)

(** An integer after the bytes [a]. *)
Lemma be_get_skip k a l o acc : Zlength a <= o -> be_get k (a ++ l) o acc = be_get k l (o - Zlength a) acc.
Proof.
  intros H. apply be_get_ext. intros j Hj. rewrite aget_app by (unfold Zlength in *; lia).
  rewrite (proj2 (Z.ltb_ge _ _)) by lia. f_equal. lia.
Qed.

Lemma be_get_here k v l acc : be_get k (be_put k v ++ l) 0 acc = be_get k (be_put k v) 0 acc.
Proof.
  apply be_get_ext. intros j Hj. rewrite aget_app by lia. unfold Zlength. rewrite length_be_put.
  by rewrite (proj2 (Z.ltb_lt _ _)) by lia.
Qed.

(** The fields fit their widths. *)
Record header_ok (h : QCowHeader) : Prop := {
  hd_magic : is_uint 32 (magic h);
  hd_version : is_uint 32 (version h);
  hd_boff : is_uint 64 (backing_file_offset h);
  hd_bsize : is_uint 32 (backing_file_size h);
  hd_mtime : is_uint 32 (mtime h);
  hd_size : is_uint 64 (size h);
  hd_crypt : is_uint 32 (h_crypt_method h);
  hd_l1 : is_uint 64 (h_l1_table_offset h)
}.

Lemma be32_here v l : is_uint 32 v -> be32 (cpu_to_be32 v ++ l) 0 = v.
Proof. intros H. unfold be32, cpu_to_be32. rewrite be_get_here. exact (be32_put v H). Qed.

Lemma be64_here v l : is_uint 64 v -> be64 (cpu_to_be64 v ++ l) 0 = v.
Proof. intros H. unfold be64, cpu_to_be64. rewrite be_get_here. exact (be64_put v H). Qed.

Lemma be32_skip a l o : Zlength a <= o -> be32 (a ++ l) o = be32 l (o - Zlength a).
Proof. exact (be_get_skip 4 a l o 0). Qed.

Lemma be64_skip a l o : Zlength a <= o -> be64 (a ++ l) o = be64 l (o - Zlength a).
Proof. exact (be_get_skip 8 a l o 0). Qed.

Lemma header_roundtrip h rest : header_ok h -> header_of (header_bytes h ++ rest) = h.
Proof.
  intros [H1 H2 H3 H4 H5 H6 H7 H8]. unfold header_of, header_bytes. rewrite <- !app_assoc. destruct h. cbn [magic version
    backing_file_offset backing_file_size mtime size h_cluster_bits h_l2_bits h_crypt_method h_l1_table_offset] in *.
  f_equal.
  - by apply be32_here.
  - do 1 rewrite be32_skip by done. by apply be32_here.
  - do 2 rewrite be64_skip by done. by apply be64_here.
  - do 3 rewrite be32_skip by done. by apply be32_here.
  - do 4 rewrite be32_skip by done. by apply be32_here.
  - do 5 rewrite be64_skip by done. by apply be64_here.
  - do 7 rewrite be32_skip by done. by apply be32_here.
  - do 8 rewrite be64_skip by done. by apply be64_here.
Qed.

Section Images.

Context {F : Type} {proto : Protocol F} {rel : Reliable F} {zlib : Zlib} {zok : ZlibOk}.

(** ** Opening *)

(** What [qemu_malloc] and [qemu_mallocz] give. *)
Definition fresh_ok (fresh : Z -> list Z) : Prop := forall k, length (fresh k) = Z.to_nat k /\ Forall (is_uint 8) (fresh k).
Definition zeroed_ok (z : BDRVQcowState) : Prop :=
  l2_cache_offsets z = replicate 16 0 /\ l2_cache_counts z = replicate 16 0 /\ crypt_method (crypt z) = 0.

(** The name of the backing image that a header tells. *)
Definition backing_name (f : F) (h : QCowHeader) : list Z :=
  if backing_file_offset h =? 0 then [] else window (fbyte f) (backing_file_offset h) (Z.to_nat (backing_file_size h)).

(** The header of the file is [h], and it tells the geometry [s]. *)
Record described (f : F) (s : BDRVQcowState) (h : QCowHeader) : Prop := {
  d_header : header_of (window (fbyte f) 0 48) = h;
  d_magic : magic h = QCOW_MAGIC /\ version h = QCOW_VERSION;
  d_size : 1 < size h < 2 ^ 62;
  d_bits : h_cluster_bits h = cluster_bits s /\ h_l2_bits h = l2_bits s;
  d_crypt : h_crypt_method h <= 1;
  d_l1 : h_l1_table_offset h = l1_table_offset s /\ 48 <= l1_table_offset s;
  d_l1_size : l1_size s = (size h + 2 ^ (cluster_bits s + l2_bits s) - 1) / 2 ^ (cluster_bits s + l2_bits s);
  d_name : backing_file_offset h <> 0 -> 0 <= backing_file_offset h /\ 0 <= backing_file_size h <= 1023 /\
    backing_file_offset h + backing_file_size h <= l1_table_offset s
}.

Lemma described_kept f f' s h : described f s h -> head_kept s f f' -> described f' s h /\ backing_name f' h = backing_name f h.
Proof.
  intros [D1 D2 D3 D4 D5 [D6 D6'] D7 D8] K. split.
  - constructor; try done. rewrite <- D1. f_equal. apply window_ext. intros i Hi. change (Z.of_nat 48) with 48 in Hi. apply K. lia.
  - unfold backing_name. destruct (Z.eqb_spec (backing_file_offset h) 0) as [|N]; [done|]. destruct (D8 N) as (E1 & E2 & E3).
    apply window_ext. intros i Hi. apply K. lia.
Qed.

Lemma be64_table_ok f o : forall k b p i, (forall j, 0 <= j < 8 * Z.of_nat k -> aget b (p + j) = fbyte f (o + j)) -> 0 <= i < Z.of_nat k ->
  aget (be64_table k b p) i = fbe64 f (o + 8 * i).
Proof.
  intros k. revert o. induction k as [|k IH]; intros o b p i H Hi; [lia|]. cbn [be64_table]. destruct (Z.eq_dec i 0) as [->|N].
  - change (be64 b p = fbe64 f (o + 8 * 0)). apply be64_fbe64. intros j Hj. rewrite Z.mul_0_r, Z.add_0_r. apply H. lia.
  - replace (aget (be64 b p :: be64_table k b (p + 8)) i) with (aget (be64_table k b (p + 8)) (i - 1)).
    + rewrite (IH (o + 8)); [f_equal; lia| |lia]. intros j Hj. rewrite <- !Z.add_assoc. apply H. lia.
    + unfold aget. replace (Z.to_nat i) with (S (Z.to_nat (i - 1))) by lia. done.
Qed.

Lemma length_be64_table k : forall b o, length (be64_table k b o) = k.
Proof. induction k as [|k IH]; intros b o; cbn [be64_table length]; [done|]. by rewrite IH. Qed.

(** The state that [qcow_open] makes. *)
Definition opened_state (fresh : Z -> list Z) (z s : BDRVQcowState) (f : F) (h : QCowHeader) : BDRVQcowState :=
  mkQcow (cluster_bits s) (l2_bits s) (l1_size s) (l1_table_offset s)
    (be64_table (Z.to_nat (l1_size s)) (window (fbyte f) (l1_table_offset s) (Z.to_nat (l1_size s * 8))) 0)
    (fresh (l2_size s * L2_CACHE_SIZE * SIZEOF_U64)) (l2_cache_offsets z) (l2_cache_counts z) (fresh (cluster_size s)) (fresh (cluster_size s)) (u64 (-1))
    {| crypt_method := crypt_method (crypt z); crypt_method_header := h_crypt_method h;
       aes_encrypt_key := aes_encrypt_key (crypt z); aes_decrypt_key := aes_decrypt_key (crypt z) |}.

Lemma open_ok own s f h fresh z : layout own s f -> described f s h -> fresh_ok fresh ->
  qcow_open fresh z f = Some (mkImage (opened_state fresh z s f h) f, size h / 512, backing_name f h).
Proof.
  intros L [D1 [D2 D2'] D3 [D4 D4'] D5 [D6 D6'] D7 D8] HF. pose proof (g_meta _ _ _ L) as GM. pose proof (g_l1 _ _ _ L) as GL.
  pose proof (g_cluster _ _ _ L). pose proof (g_l2 _ _ _ L). pose proof (g_file _ _ _ L) as OK.
  assert (Z48 : Zlength (replicate (Z.to_nat sizeof_header) 0) = 48) by done.
  unfold qcow_open. rewrite (file_pread_ok f 0 _ OK) by (rewrite ?Z48; lia).
  change (length (replicate (Z.to_nat sizeof_header) 0)) with 48%nat. rewrite D1.
  rewrite Z48. cbn [Z.eqb sizeof_header Pos.eqb negb].
  rewrite D2, D2', !Z.eqb_refl. cbn [negb orb]. rewrite (proj2 (Z.leb_gt (size h) 1)), (proj2 (Z.ltb_ge (h_cluster_bits h) 9)) by lia.
  cbn [orb]. rewrite (proj2 (Z.ltb_ge QCOW_CRYPT_AES (h_crypt_method h))) by (unfold QCOW_CRYPT_AES; lia). cbv zeta. rewrite D4, D4', D6.
  assert (P : 0 < 2 ^ (cluster_bits s + l2_bits s) <= 2 ^ 53) by (split; [apply Z.pow_pos_nonneg; lia|apply Z.pow_le_mono_r; lia]).
  assert (SZ : s32 (u64 (size h + (1 <<. (cluster_bits s + l2_bits s)) - 1) >>. (cluster_bits s + l2_bits s)) = l1_size s).
  { rewrite Z.shiftl_1_l, (wrap_small 64) by (unfold is_uint; lia). rewrite Z.shiftr_div_pow2 by lia. rewrite <- D7.
    apply swrap_small; [change (2 ^ (32 - 1)) with (2 ^ 31); lia|done]. }
  rewrite SZ. destruct (HF (l1_size s * SIZEOF_U64)) as [FL _]. unfold SIZEOF_U64 in *.
  rewrite (file_pread_ok f (l1_table_offset s) _ OK) by (unfold Zlength; lia).
  assert (ZL : Zlength (fresh (l1_size s * 8)) = l1_size s * 8) by (unfold Zlength; lia). rewrite ZL, Z.eqb_refl, FL. cbn [negb].
  fold (cluster_size s). fold (l2_size s). unfold backing_name.
  destruct (Z.eqb_spec (backing_file_offset h) 0) as [B0|B0]; cbn [negb]; [done|]. destruct (D8 B0) as (E1 & E2 & E3).
  rewrite (swrap_small 32) by (change (2 ^ (32 - 1)) with (2 ^ 31); lia). rewrite (proj2 (Z.ltb_ge 1023 (backing_file_size h))) by lia.
  assert (ZN : Zlength (replicate (Z.to_nat (backing_file_size h)) 0) = backing_file_size h) by (unfold Zlength; rewrite length_replicate; lia).
  rewrite (file_pread_ok f (backing_file_offset h) _ OK) by (rewrite ?ZN; lia). by rewrite ZN, Z.eqb_refl, length_replicate.
Qed.

(** The image opened, with the key of [s] in place. *)
Lemma image_opened own s f h fresh z : layout own s f -> fresh_ok fresh -> zeroed_ok z ->
  (crypt_method (crypt s) <> 0 -> key_pair (aes_encrypt_key (crypt s)) (aes_decrypt_key (crypt s))) ->
  let s' := set_crypt (crypt s) (opened_state fresh z s f h) in image_ok own (mkImage s' f) /\ same_geometry s s'.
Proof.
  intros L HF (Z1 & Z2 & _) HK s'. assert (G : same_geometry s s') by by constructor. split; [|exact G].
  pose proof (g_l1 _ _ _ L) as GL. destruct (sizes _ _ _ L) as (LS & CS & CZ & _).
  assert (A0 : forall i, aget (l2_cache_offsets s') i = 0) by (intros i; cbn [s' l2_cache_offsets set_crypt opened_state]; rewrite Z1; apply aget_replicate0).
  constructor; cbn [st file].
  - exact (layout_geometry s s' G own f L).
  - constructor; try (rewrite ?(s_l1 _ _ G), ?(l2_size_geometry _ _ G)).
    + unfold Zlength. cbn [s' l1_table set_crypt opened_state]. rewrite length_be64_table. lia.
    + intros k Hk. rewrite (l1_geometry _ _ G). unfold l1_entry. cbn [s' l1_table set_crypt opened_state]. apply be64_table_ok; [|lia].
      intros j Hj. rewrite Z.add_0_l. apply aget_window. lia.
    + unfold Zlength. cbn [s' l2_cache set_crypt opened_state]. destruct (HF (l2_size s * L2_CACHE_SIZE * SIZEOF_U64)) as [-> _].
      unfold L2_CACHE_SIZE, SIZEOF_U64. lia.
    + unfold Zlength. cbn [s' l2_cache_offsets set_crypt opened_state]. by rewrite Z1.
    + unfold Zlength. cbn [s' l2_cache_counts set_crypt opened_state]. by rewrite Z2.
    + intros i Hi N. by rewrite A0 in N.
    + intros i j Hi Hj N. by rewrite A0 in N.
  - destruct (HF (cluster_size s)) as [F1 F2]. constructor; rewrite ?(cluster_size_geometry _ _ G).
    + unfold Zlength. cbn [s' cluster_cache set_crypt opened_state]. lia.
    + unfold Zlength. cbn [s' cluster_data set_crypt opened_state]. lia.
    + exact F2.
    + intros c _ _ E. symmetry in E. rewrite (comp_off_geometry _ _ G) in E. by apply (comp_off_bound own s f) in E.
    + by left.
    + exact HK.
Qed.

(** ** Requests *)

(** C6: A read request of [nb] sectors from [n] on an image in order succeeds and
    fills the buffer with the sectors of the disk, whether they are absent (and so
    taken from the backing image, or zero), compressed, encrypted or plain, and
    over however many clusters they are spread; the file is not changed, and the
    image is in order for the next request.  The fuel of the loop of callbacks
    is enough. *)
Theorem qcow_read_request own (q : Qcow (F := F)) backing base n data nb recycled :
  image_ok own q -> backing_ok (st q) backing base -> 0 <= nb -> (forall j, 0 <= j < nb -> sector_ok (st q) (n + j)) ->
  Zlength data = nb * 512 -> Forall (is_uint 8) data ->
  exists s', qcow_aio_readv backing n data nb recycled q =
      Some (with_st s' q, disk_data (st q) (file q) base n (Z.to_nat nb), 0) /\
    image_ok own (with_st s' q) /\ same_geometry (st q) s'.
Proof. exact (read_request_ok own q backing base n data nb recycled). Qed.

(** C2: On an image in order, without backing contents or with clusters of one
    sector, a write request of [nb] sectors from [n] succeeds, and then, in the
    bytes of the file and so for whoever opens it later, the sectors written hold
    the data and every other sector of the disk is as before (the header too),
    whether clusters were absent, compressed or encrypted; the image is in order
    for the next request.  A new cluster of more than a sector takes its other
    sectors from zeros, whatever the backing image has there, so that case is
    excluded.  The file stays below 2^62 bytes.  The fuel of the loop of
    callbacks is enough. *)
Theorem qcow_write_request own (q : Qcow (F := F)) base n data nb recycled :
  image_ok own q -> (forall i, base i = 0) \/ cluster_sectors (st q) = 1 -> 0 <= nb ->
  (forall j, 0 <= j < nb -> sector_ok (st q) (n + j)) -> Zlength data = nb * 512 -> Forall (is_uint 8) data ->
  data_ok (st q) recycled -> flen (file q) + nb * room (st q) < 2 ^ 62 ->
  exists own' q', qcow_aio_writev n data nb recycled q = Some (q', 0) /\ image_ok own' q' /\ same_geometry (st q) (st q') /\ head_kept (st q) (file q) (file q') /\
    disk_data (st q) (file q') base n (Z.to_nat nb) = data /\
    (forall x, sector_ok (st q) x -> ~ n <= x < n + nb -> sector_data (st q) (file q') base x = sector_data (st q) (file q) base x).
Proof. exact (write_request_ok own q base n data nb recycled). Qed.

(** One sector of several. *)
Lemma disk_data_at own s (f : F) base : layout own s f -> (forall i, is_uint 8 (base i)) ->
  (crypt_method (crypt s) <> 0 -> key_pair (aes_encrypt_key (crypt s)) (aes_decrypt_key (crypt s))) ->
  forall k m j, (forall i, 0 <= i < Z.of_nat k -> sector_ok s (m + i)) -> 0 <= j < Z.of_nat k ->
  aread (disk_data s f base m k) (j * 512) 512 = sector_data s f base (m + j).
Proof.
  intros L HB HK k m j Hs Hj. replace k with (Z.to_nat j + (1 + (k - Z.to_nat j - 1)))%nat by lia. rewrite !disk_data_app.
  cbn [disk_data]. rewrite app_nil_r, Z2Nat.id by lia.
  destruct (disk_data_ok own s f base L HB HK (Z.to_nat j) m) as [_ L1]; [intros i Hi; apply Hs; lia|].
  destruct (disk_data_ok own s f base L HB HK 1 (m + j)) as [_ L2]; [intros i Hi; rewrite <- Z.add_assoc; apply Hs; lia|].
  cbn [disk_data] in L2. rewrite app_nil_r in L2. change (512 * 1)%nat with 512%nat in L2.
  transitivity (aread (sector_data s f base (m + j)) 0 512); [|rewrite <- L2; apply aread_all].
  apply aread_ext. intros i Hi. change (Z.of_nat 512) with 512 in Hi. rewrite aget_app by lia. unfold Zlength. rewrite L1.
  rewrite (proj2 (Z.ltb_ge _ _)) by lia. rewrite aget_app by lia. unfold Zlength. rewrite L2. rewrite (proj2 (Z.ltb_lt _ _)) by lia. f_equal. lia.
Qed.

(** C1: What was written is on the disk for a later user of the file.  An image
    in order that its header describes, without a backing image or with clusters
    of one sector, is written to; the file is opened anew, with empty caches, and
    given the same key: [qcow_open] succeeds with the same size and name of the
    backing image, and a read request for any sectors gets the data written where
    they overlap the write, and elsewhere what the disk held before.  Images that
    [qcow_create] makes have no backing image or clusters of one sector; in a
    larger cluster over a backing image the other sectors of a new cluster are
    overwritten with zeros.  The file stays below 2^62 bytes. *)
Theorem qcow_write_reopen_read own (q : Qcow (F := F)) backing base n data nb recycled h fresh z :
  image_ok own q -> described (file q) (st q) h -> fresh_ok fresh -> zeroed_ok z -> backing_ok (st q) backing base ->
  backing = None \/ cluster_sectors (st q) = 1 -> 0 <= nb ->
  (forall j, 0 <= j < nb -> sector_ok (st q) (n + j)) -> Zlength data = nb * 512 -> Forall (is_uint 8) data ->
  data_ok (st q) recycled -> flen (file q) + nb * room (st q) < 2 ^ 62 ->
  exists q1 q2, qcow_aio_writev n data nb recycled q = Some (q1, 0) /\
    qcow_open fresh z (file q1) = Some (q2, size h / 512, backing_name (file q) h) /\
    let q3 := with_st (set_crypt (crypt (st q)) (st q2)) q2 in
    forall m buf k rec, 0 <= k -> (forall j, 0 <= j < k -> sector_ok (st q) (m + j)) -> Zlength buf = k * 512 -> Forall (is_uint 8) buf ->
    exists q4 buf', qcow_aio_readv backing m buf k rec q3 = Some (q4, buf', 0) /\ Zlength buf' = k * 512 /\
      forall j, 0 <= j < k -> aread buf' (j * 512) 512 =
        if (n <=? m + j) && (m + j <? n + nb) then aread data ((m + j - n) * 512) 512
        else sector_data (st q) (file q) base (m + j).
Proof.
  intros I HD HF HZ HB HB1 Hnb Hs Hl Hb Hd Hr.
  assert (HB0 : (forall i, base i = 0) \/ cluster_sectors (st q) = 1).
  { destruct HB1 as [->|]; [left; apply HB|by right]. }
  destruct (write_request_ok own q base n data nb recycled I HB0 Hnb Hs Hl Hb Hd Hr) as (own' & q' & E & I' & G & HK & W & V).
  destruct (described_kept _ _ _ _ HD HK) as [HD' HN].
  pose proof (layout_geometry (st q') (st q) (same_geometry_sym _ _ G) own' (file q') (i_layout _ _ I')) as L'.
  exists q', (mkImage (opened_state fresh z (st q) (file q') h) (file q')). split; [exact E|]. rewrite <- HN.
  split; [exact (open_ok own' (st q) (file q') h fresh z L' HD' HF)|]. intros q3 m buf k rec Hk Hs' Hl' Hb'.
  pose proof (b_key _ _ (i_buffers _ _ I)) as KP.
  destruct (image_opened own' (st q) (file q') h fresh z L' HF HZ KP) as [I3 G3].
  destruct (read_request_ok own' q3 backing base m buf k rec I3 (backing_ok_geometry _ _ _ _ G3 HB) Hk) as (s4 & E4 & _);
    [intros j Hj; by apply (sector_ok_geometry _ _ _ G3), Hs'|done|done|].
  subst q3. cbn [st file with_st] in *. rewrite (disk_geometry _ _ _ _ G3) in E4.
  destruct (disk_data_ok own' (st q) (file q') base L' (proj1 HB) KP (Z.to_nat k) m) as [_ DL]; [intros j Hj; apply Hs'; lia|].
  eexists _, _. split; [exact E4|]. split; [unfold Zlength; lia|]. intros j Hj.
  rewrite (disk_data_at own' (st q) (file q') base L' (proj1 HB) KP) by (lia || (intros i Hi; apply Hs'; lia)).
  destruct ((n <=? m + j) && (m + j <? n + nb)) eqn:X.
  - rewrite <- W. rewrite (disk_data_at own' (st q) (file q') base L' (proj1 HB) KP) by (lia || (intros i Hi; apply Hs; lia)). f_equal. lia.
  - apply V; [by apply Hs'|]. intros Hin. lia.
Qed.

(** ** New images *)

(** The file holds exactly the bytes [l]. *)
Definition holds (f : F) (l : list Z) : Prop := flen f = Zlength l /\ forall i, 0 <= i < Zlength l -> fbyte f i = aget l i.

(** Who owns the bytes of a new image with the tables at [hs]. *)
Definition new_own (hs l1 : Z) (i : Z) : owner :=
  if i <? hs then Head else if i <? hs + 8 * l1 then Entry ((i - hs) / 8) else Unused.

(** A first level without entries. *)
Lemma empty_layout s (f : F) : 9 <= cluster_bits s <= 30 -> 0 <= l2_bits s <= 23 -> 0 <= l1_size s < 2 ^ 28 -> 0 < l1_table_offset s ->
  flen f = l1_table_offset s + 8 * l1_size s -> file_ok f ->
  (forall i, l1_table_offset s <= i < flen f -> fbyte f i = 0) ->
  layout (new_own (l1_table_offset s) (l1_size s)) s f /\ forall c, 0 <= c < l1_size s * l2_size s -> l2_entry s f c = 0.
Proof.
  intros H1 H2 H3 H4 H5 H6 H7.
  assert (E1 : forall k, 0 <= k < l1_size s -> l1_entry s f k = 0) by (intros k Hk; apply fbe64_zero; intros j Hj; apply H7; lia).
  assert (LS : 0 < l2_size s) by (unfold l2_size; rewrite Z.shiftl_1_l; apply Z.pow_pos_nonneg; lia).
  assert (E2 : forall c, 0 <= c < l1_size s * l2_size s -> l2_entry s f c = 0).
  { intros c Hc. unfold l2_entry. rewrite E1; [done|]. split; [apply Z.div_pos; lia|apply Z.div_lt_upper_bound; lia]. }
  split; [|exact E2]. constructor; [done|done|done|done|lia|done| | | | |].
  - intros i Hi. unfold new_own. by rewrite (proj2 (Z.ltb_lt i _)) by lia.
  - intros k j Hk Hj. unfold new_own. rewrite (proj2 (Z.ltb_ge _ _)), (proj2 (Z.ltb_lt _ _)) by lia. f_equal. dlia.
  - intros i Hi. unfold new_own. by rewrite !(proj2 (Z.ltb_ge _ _)) by lia.
  - intros k Hk N. by rewrite E1 in N.
  - intros c Hc N. by rewrite E2 in N.
Qed.

Lemma round8 x : 0 <= x -> x <= (x + 7) &. ~. 7 < x + 8.
Proof.
  intros H. rewrite <- Z.ldiff_land. change 7 with (Z.ones 3). rewrite Z.ldiff_ones_r, Z.shiftl_mul_pow2, Z.shiftr_div_pow2 by lia.
  change (Z.ones 3) with 7. change (2 ^ 3) with 8. dlia.
Qed.

(** The fields that depend on the backing file: cluster and table bits. *)
Definition new_bits (backing_file : option (list Z)) : Z * Z := match backing_file with Some _ => (9, 12) | None => (12, 9) end.

(** The name in the header, and its offset. *)
Definition new_name (backing_file : option (list Z)) : option (list Z) :=
  f ← backing_file; if bool_decide (f = [102; 97; 116; 58]) then None else Some f.

Definition new_header (total : Z) (backing_file : option (list Z)) (encrypt : bool) : QCowHeader :=
  let name := default [] (new_name backing_file) in
  mkHeader QCOW_MAGIC QCOW_VERSION (match new_name backing_file with Some _ => 48 | None => 0 end) (Zlength name) 0 (total * 512)
    (new_bits backing_file).1 (new_bits backing_file).2 (if encrypt then 1 else 0) ((48 + Zlength name + 7) &. ~. 7).

Lemma create_bytes total backing_file encrypt : 0 < total < 2 ^ 38 ->
  let name := default [] (new_name backing_file) in
  let h := new_header total backing_file encrypt in
  let l1 := (total * 512 + 2 ^ 21 - 1) / 2 ^ 21 in
  qcow_create total backing_file encrypt = (header_bytes h ++ name) ++
    replicate (Z.to_nat (h_l1_table_offset h - Zlength (header_bytes h ++ name))) 0 ++ replicate (Z.to_nat (l1 * 8)) 0 /\ 0 < l1 < 2 ^ 28.
Proof.
  intros Ht name h l1. assert (B : 0 < l1 < 2 ^ 28).
  { subst l1. split; [apply Z.div_str_pos; lia|apply Z.div_lt_upper_bound; lia]. }
  split; [|exact B]. assert (S : s32 ((total * 512 + (1 <<. 21) - 1) >>. 21) = l1).
  { rewrite Z.shiftr_div_pow2 by lia. change (1 <<. 21) with (2 ^ 21). apply swrap_small; [change (2 ^ (32 - 1)) with (2 ^ 31); subst l1; lia|done]. }
  subst h name. unfold qcow_create, new_header, new_bits, new_name.
  destruct backing_file as [fn|]; cbn [mbind option_bind]; [destruct (bool_decide (fn = [102; 97; 116; 58])) eqn:X|];
    cbn [negb default fst snd]; cbv zeta; try change (9 + 12) with 21; try change (12 + 9) with 21; rewrite S, (proj2 (Z.ltb_lt 0 l1)) by lia; destruct encrypt; reflexivity.
Qed.

Section Created.

Context (total : Z) (backing_file : option (list Z)) (encrypt : bool) (f : F) (crypt0 : qcow_crypt).
Context (Ht : 0 < total < 2 ^ 38) (Hname : Zlength (default [] (new_name backing_file)) <= 1023).
Context (Hf : holds f (qcow_create total backing_file encrypt)) (Hok : file_ok f).

#[local] Abbreviation name := (default [] (new_name backing_file)).
#[local] Abbreviation h := (new_header total backing_file encrypt).
#[local] Abbreviation l1 := ((total * 512 + 2 ^ 21 - 1) / 2 ^ 21).

(** The geometry of the new image. *)
Definition new_state : BDRVQcowState :=
  mkQcow (h_cluster_bits h) (h_l2_bits h) l1 (h_l1_table_offset h) [] [] [] [] [] [] 0 crypt0.

Lemma new_header_ok : header_ok h.
Proof.
  assert (N : 0 <= Zlength name) by (unfold Zlength; lia). pose proof (round8 (48 + Zlength name) ltac:(lia)) as R.
  constructor; cbn [new_header magic version backing_file_offset backing_file_size mtime size h_crypt_method h_l1_table_offset]; unfold is_uint.
  - by vm_compute.
  - by vm_compute.
  - destruct (new_name backing_file); lia.
  - lia.
  - lia.
  - lia.
  - destruct encrypt; lia.
  - lia.
Qed.

(** Where the parts of the file are. *)
Lemma new_parts : flen f = h_l1_table_offset h + 8 * l1 /\ 48 + Zlength name <= h_l1_table_offset h /\
  window (fbyte f) 0 48 = header_bytes h /\ window (fbyte f) 48 (length name) = name /\
  (forall i, 48 + Zlength name <= i < flen f -> fbyte f i = 0).
Proof.
  destruct (create_bytes total backing_file encrypt Ht) as [E B]. destruct Hf as [FL FB]. rewrite E in *.
  assert (N : 0 <= Zlength name) by (unfold Zlength; lia).
  assert (R : 48 + Zlength name <= h_l1_table_offset h) by (pose proof (round8 (48 + Zlength name)); cbn [new_header h_l1_table_offset]; lia).
  assert (H48 : Zlength (header_bytes h) = 48) by done. set (hs := h_l1_table_offset h) in *. clearbody hs.
  set (hb := header_bytes h) in *. clearbody hb. rewrite <- replicate_add in FL, FB.
  set (k := (Z.to_nat (hs - Zlength (hb ++ name)) + Z.to_nat (l1 * 8))%nat) in *. set (z := replicate k 0) in *.
  assert (ZL : Zlength z = hs - 48 - Zlength name + l1 * 8).
  { unfold Zlength at 1. subst z. rewrite length_replicate. subst k. rewrite Zlength_app, H48. lia. }
  assert (AZ : forall i, aget z i = 0) by (intros i; apply aget_replicate0). clearbody z. clear k.
  rewrite !Zlength_app, H48 in FL, FB. assert (FLN : flen f = hs + 8 * l1) by lia.
  assert (L48 : length hb = 48%nat) by (unfold Zlength in H48; lia).
  split_and!; [done|done| | |].
  - rewrite <- L48. symmetry. apply window_eq. intros i Hi. rewrite L48 in Hi. rewrite Z.add_0_l, FB by lia.
    rewrite !aget_app by lia. rewrite Zlength_app, H48. by rewrite !(proj2 (Z.ltb_lt _ _)) by lia.
  - symmetry. apply window_eq. intros i Hi. fold (Zlength name) in Hi. rewrite FB by lia. rewrite !aget_app by lia. rewrite Zlength_app, H48.
    rewrite (proj2 (Z.ltb_lt (48 + i) _)), (proj2 (Z.ltb_ge (48 + i) _)) by lia. f_equal. lia.
  - intros i Hi. rewrite FB by lia. rewrite aget_app by lia. rewrite Zlength_app, H48. rewrite (proj2 (Z.ltb_ge i _)) by lia. apply AZ.
Qed.

Lemma new_layout : layout (new_own (h_l1_table_offset h) l1) new_state f /\
  (forall c, 0 <= c < l1 * l2_size new_state -> l2_entry new_state f c = 0) /\ described f new_state h /\ backing_name f h = name.
Proof.
  destruct (create_bytes total backing_file encrypt Ht) as [_ B]. destruct new_parts as (P1 & P2 & P3 & P4 & P5).
  assert (N : 0 <= Zlength name) by (unfold Zlength; lia).
  assert (CB : (h_cluster_bits h = 9 /\ h_l2_bits h = 12) \/ (h_cluster_bits h = 12 /\ h_l2_bits h = 9)).
  { cbn [new_header h_cluster_bits h_l2_bits]. unfold new_bits. destruct backing_file; [by left|by right]. }
  destruct (empty_layout new_state f) as [L E]; cbn [new_state cluster_bits l2_bits l1_size l1_table_offset]; [lia|lia|lia|lia|lia|done|intros i Hi; apply P5; lia|].
  split; [exact L|]. split; [exact E|]. split.
  - constructor; cbn [new_state cluster_bits l2_bits l1_size l1_table_offset].
    + rewrite P3. rewrite <- (app_nil_r (header_bytes h)). apply header_roundtrip, new_header_ok.
    + done.
    + cbn [new_header size]. lia.
    + done.
    + cbn [new_header h_crypt_method]. destruct encrypt; lia.
    + split; [done|lia].
    + replace (h_cluster_bits h + h_l2_bits h) with 21 by lia. done.
    + cbn [new_header backing_file_offset backing_file_size]. destruct (new_name backing_file); [|done]. lia.
  - unfold backing_name. cbn [new_header backing_file_offset backing_file_size]. unfold Zlength. rewrite Nat2Z.id.
    destruct (new_name backing_file) as [nm|]; [|done]. exact P4.
Qed.

End Created.

Lemma described_geometry f s t h : same_geometry s t -> described f s h -> described f t h.
Proof.
  intros G [D1 D2 D3 D4 D5 D6 D7 D8]. constructor; rewrite ?(s_cluster _ _ G), ?(s_l2 _ _ G), ?(s_l1 _ _ G), ?(s_l1_offset _ _ G); done.
Qed.

(** C9: A file with the bytes that [qcow_create] writes, for at least one and
    less than 2^38 sectors, a backing file name of at most 1023 bytes or none,
    and with or without encryption, is opened by [qcow_open] with that number of sectors and that name; the
    image is in order, all its sectors are on the disk, and each of them reads as
    the backing image (as zeros when there is none).  A new image with a
    backing file has clusters of one sector, so that a write request
    never needs the backing image. *)
Theorem qcow_create_open total backing_file encrypt (f : F) fresh z :
  0 < total < 2 ^ 38 -> Zlength (default [] (new_name backing_file)) <= 1023 -> holds f (qcow_create total backing_file encrypt) ->
  file_ok f -> fresh_ok fresh -> zeroed_ok z ->
  exists own q, qcow_open fresh z f = Some (q, total, default [] (new_name backing_file)) /\ file q = f /\ image_ok own q /\
    described f (st q) (new_header total backing_file encrypt) /\ crypt_method_header (crypt (st q)) = of_bool encrypt /\
    (is_Some backing_file -> cluster_sectors (st q) = 1) /\ (forall x, 0 <= x < total -> sector_ok (st q) x) /\
    (forall base x, sector_ok (st q) x -> sector_data (st q) f base x = window base (x * 512) 512).
Proof.
  intros Ht Hn Hf Hok HF HZ.
  set (c0 := {| crypt_method := crypt_method (crypt z); crypt_method_header := h_crypt_method (new_header total backing_file encrypt);
       aes_encrypt_key := aes_encrypt_key (crypt z); aes_decrypt_key := aes_decrypt_key (crypt z) |}).
  destruct (new_layout total backing_file encrypt f c0 Ht Hn Hf Hok) as (L & E & D & EN). set (s := new_state _ _ _ _) in *.
  destruct (image_opened _ s f (new_header total backing_file encrypt) fresh z L HF HZ) as [I G].
  { intros C0. destruct HZ as (_ & _ & C1). by rewrite <- C1 in C0. }
  change (set_crypt (crypt s) ?t) with t in I, G. pose proof (open_ok _ s f _ fresh z L D HF) as OE.
  set (t := opened_state _ _ _ _ _) in *. assert (HC : crypt_method_header (crypt t) = of_bool encrypt) by by destruct encrypt.
  clearbody t. eexists _, (mkImage t f). cbn [st file]. rewrite OE, EN.
  split; [do 3 f_equal; cbn [new_header size]; apply Z.div_mul; lia|]. split; [done|]. split; [exact I|].
  split; [by apply (described_geometry f s t)|]. split; [exact HC|].
  assert (CS : forall bf, backing_file = bf -> cluster_sectors s * l2_size s = 2 ^ 12 /\ (is_Some bf -> cluster_sectors s = 1)).
  { intros bf Eb. subst s. unfold cluster_sectors, l2_size. cbn [new_state cluster_bits l2_bits new_header h_cluster_bits h_l2_bits].
    unfold new_bits. rewrite Eb. destruct bf; [done|]. split; [done|]. by intros [? [=]]. }
  destruct (CS backing_file eq_refl) as [C1 C2]. rewrite (cluster_sectors_geometry _ _ G). split; [exact C2|]. split.
  - intros x Hx. apply (sector_ok_geometry s t x G). split; [|lia].
    change (l1_size s) with ((total * 512 + 2 ^ 21 - 1) / 2 ^ 21). rewrite <- Z.mul_assoc, (Z.mul_comm (l2_size s)), C1. dlia.
  - intros base x Hx. rewrite (sector_geometry _ _ G). apply (sector_ok_geometry _ _ _ (same_geometry_sym _ _ G)) in Hx.
    unfold sector_data. cbv zeta. by rewrite E by exact (cluster_ok _ _ _ _ L Hx).
Qed.

End Images.

(** ** An example: a small image in a file in memory *)

(** A toy in place of zlib, which deflates what is all one byte. *)
#[export] Instance toy_zlib : Zlib := {
  inflateInit2 := Z_OK;
  inflate l k := match l with [b] => (Z_STREAM_END, replicate (Z.to_nat k) (u8 b)) | _ => (Z_BUF_ERROR, []) end;
  deflateInit2 := Z_OK;
  deflate l k :=
    match l with
    | b :: _ => if bool_decide (l = replicate (length l) b) && (1 <=? k) then (Z_STREAM_END, [u8 b]) else (Z_OK, [])
    | [] => (Z_OK, [])
    end
}.

#[export] Instance toy_zlib_ok : ZlibOk.
Proof.
  constructor.
  - done.
  - intros l k. cbn [inflate toy_zlib]. destruct l as [|b [|]]; try done. apply Forall_replicate. apply wrap_range. lia.
  - done.
  - intros l k. cbn [deflate toy_zlib]. destruct l as [|b l]; [done|]. destruct (_ && _); [|done].
    constructor; [apply wrap_range; lia|done].
  - intros l k out Hb. cbn [deflate toy_zlib]. destruct l as [|b l]; [done|]. destruct (bool_decide_reflect (b :: l = replicate (length (b :: l)) b)) as [E|]; [|done].
    destruct (Z.leb_spec 1 k); [|done]. cbn [andb]. intros [= <-]. split; [unfold Zlength; cbn; lia|]. cbn [inflate toy_zlib].
    assert (B : is_uint 8 b) by by inversion Hb. rewrite !(wrap_small 8 b B). unfold Zlength. rewrite Nat2Z.id. by rewrite <- E.
Qed.

Definition demo_uninit : list Z := replicate 512 170.

Lemma demo_uninit_bytes : Forall (is_uint 8) demo_uninit.
Proof. apply Forall_replicate. unfold is_uint. lia. Qed.

#[export] Instance demo_protocol : Protocol (BlockDriverState memfile) := raw_protocol demo_uninit.
#[export] Instance demo_reliable : Reliable (BlockDriverState memfile) := raw_reliable demo_uninit eq_refl demo_uninit_bytes.

(** Eight sectors, without a backing file. *)
Definition demo_file : BlockDriverState memfile := mkBS true false false 0 (qcow_create 8 None false).
Definition demo_fresh (k : Z) : list Z := replicate (Z.to_nat k) 0.
Definition demo_zeroed : BDRVQcowState :=
  mkQcow 0 0 0 0 [] [] (replicate 16 0) (replicate 16 0) [] [] 0
    {| crypt_method := 0; crypt_method_header := 0; aes_encrypt_key := blank_key; aes_decrypt_key := blank_key |}.

Definition demo_header : QCowHeader := new_header 8 None false.
Definition demo_geometry : BDRVQcowState := new_state 8 None false (crypt demo_zeroed).
Definition demo : Qcow := mkImage (set_crypt (crypt demo_geometry) (opened_state demo_fresh demo_zeroed demo_geometry demo_file demo_header)) demo_file.
Definition demo_own : Z -> owner := new_own (h_l1_table_offset demo_header) ((8 * 512 + 2 ^ 21 - 1) / 2 ^ 21).

Lemma demo_fresh_ok : fresh_ok demo_fresh.
Proof. intros k. split; [apply length_replicate|]. apply Forall_replicate. unfold is_uint. lia. Qed.

Lemma demo_zeroed_ok : zeroed_ok demo_zeroed.
Proof. done. Qed.

Lemma demo_holds : holds demo_file (qcow_create 8 None false).
Proof.
  split; [done|]. intros i _. apply wrap_small, aget_byte. apply List.Forall_forall. intros x Hx.
  assert (T : forallb (fun x => (0 <=? x) && (x <? 256)) (qcow_create 8 None false) = true) by by vm_compute.
  apply (proj1 (forallb_forall _ _) T) in Hx. unfold is_uint. lia.
Qed.

Lemma demo_ok : layout demo_own demo_geometry demo_file /\ described demo_file demo_geometry demo_header /\ image_ok demo_own demo.
Proof.
  destruct (new_layout 8 None false demo_file (crypt demo_zeroed)) as (L & _ & D & _); [lia|by vm_compute|exact demo_holds|done|].
  split; [exact L|]. split; [exact D|].
  destruct (image_opened demo_own demo_geometry demo_file demo_header demo_fresh demo_zeroed L demo_fresh_ok demo_zeroed_ok) as [I _]; [by intros []|].
  exact I.
Qed.

Lemma demo_image : image_ok demo_own demo.
Proof. apply demo_ok. Qed.

Lemma demo_described : described (file demo) (st demo) demo_header.
Proof. destruct demo_ok as (_ & D & _). apply (described_geometry demo_file demo_geometry); [by constructor|exact D]. Qed.

Lemma demo_sector x : 0 <= x < 8 -> sector_ok (st demo) x.
Proof. intros H. split; [|lia]. change (l1_size (st demo) * l2_size (st demo) * cluster_sectors (st demo)) with 4096. lia. Qed.

Lemma demo_backing : backing_ok (st demo) None (fun _ => 0).
Proof. split; [|done]. intros _. unfold is_uint. lia. Qed.

(** An empty image reads as zeros. *)
Lemma qcow_read_request_witness :
  exists s', qcow_aio_readv None 3 (replicate 1024 7) 2 None demo =
      Some (with_st s' demo, disk_data (st demo) (file demo) (fun _ => 0) 3 2, 0).
Proof.
  destruct (qcow_read_request demo_own demo None (fun _ => 0) 3 (replicate 1024 7) 2 None demo_image demo_backing) as (s' & E & _).
  - lia.
  - intros j Hj. apply demo_sector. lia.
  - reflexivity.
  - apply Forall_replicate. unfold is_uint. lia.
  - exists s'. exact E.
Defined.

(** Two sectors are written. *)
Lemma qcow_write_request_witness :
  exists q', qcow_aio_writev 3 (replicate 1024 7) 2 None demo = Some (q', 0) /\
    disk_data (st demo) (file q') (fun _ => 0) 3 2 = replicate 1024 7.
Proof.
  destruct (qcow_write_request demo_own demo (fun _ => 0) 3 (replicate 1024 7) 2 None demo_image) as (own' & q' & E & _ & _ & _ & W & _).
  - left. reflexivity.
  - lia.
  - intros j Hj. apply demo_sector. lia.
  - reflexivity.
  - apply Forall_replicate. unfold is_uint. lia.
  - exact I.
  - vm_compute. reflexivity.
  - exists q'. split; [exact E|exact W].
Defined.

(** They are read by the next user of the file. *)
Lemma qcow_write_reopen_read_witness :
  exists q1 q2, qcow_aio_writev 3 (replicate 1024 7) 2 None demo = Some (q1, 0) /\
    qcow_open demo_fresh demo_zeroed (file q1) = Some (q2, 8, []) /\
    exists q4 buf', qcow_aio_readv None 4 (replicate 512 1) 1 None (with_st (set_crypt (crypt (st demo)) (st q2)) q2) = Some (q4, buf', 0) /\
      aread buf' 0 512 = replicate 512 7.
Proof.
  destruct (qcow_write_reopen_read demo_own demo None (fun _ => 0) 3 (replicate 1024 7) 2 None demo_header demo_fresh demo_zeroed
    demo_image demo_described demo_fresh_ok demo_zeroed_ok demo_backing) as (q1 & q2 & E1 & E2 & H).
  - left. reflexivity.
  - lia.
  - intros j Hj. apply demo_sector. lia.
  - reflexivity.
  - apply Forall_replicate. unfold is_uint. lia.
  - exact I.
  - vm_compute. reflexivity.
  - exists q1, q2. split; [exact E1|]. split; [exact E2|].
    destruct (H 4 (replicate 512 1) 1 None) as (q4 & buf' & E4 & _ & V); [lia|intros j Hj; apply demo_sector; lia|reflexivity|apply Forall_replicate; unfold is_uint; lia|].
    exists q4, buf'. split; [exact E4|]. exact (V 0 ltac:(lia)).
Defined.

(** The image itself. *)
Lemma qcow_create_open_witness :
  exists q, qcow_open demo_fresh demo_zeroed demo_file = Some (q, 8, []) /\
    forall x, sector_ok (st q) x -> sector_data (st q) demo_file (fun _ => 0) x = window (fun _ => 0) (x * 512) 512.
Proof.
  destruct (qcow_create_open 8 None false demo_file demo_fresh demo_zeroed) as (own & q & E & _ & _ & _ & _ & _ & _ & V).
  - lia.
  - vm_compute. discriminate.
  - exact demo_holds.
  - split; [reflexivity|split; reflexivity].
  - exact demo_fresh_ok.
  - exact demo_zeroed_ok.
  - exists q. split; [exact E|]. exact (V (fun _ => 0)).
Defined.

End QcowOpen.
