(* ===== verification/QcowCompress.v ===== *)
(** * Compressed clusters of QCOW images (src/qemu/block/qcow.c)

    [qcow_write_compressed] puts a cluster at the end of the file, deflated, with
    its place and size in the entry of the table: the disk then holds the data. *)
From S2P Require Import Prelude AESTables AESSpec AES AESCorrect AESCbc Block Qcow QcowDisk QcowRead QcowWrite QcowOpen.
Import Block Qcow QcowDisk QcowRead QcowWrite QcowOpen.

Module QcowCompress.

#[local] Opaque fbe64.

Section Compress.

Context {F : Type} {proto : Protocol F} {rel : Reliable F} {zlib : Zlib} {zok : ZlibOk}.

(** ** The entry of a compressed cluster *)

(** The entry of a compressed cluster of [len] bytes at [o]. *)
Definition comp_entry (s : BDRVQcowState) (o len : Z) : Z := o |. (QCOW_OFLAG_COMPRESSED |. u64 (len <<. (63 - cluster_bits s))).

Lemma comp_entry_sum s o len : 9 <= cluster_bits s <= 30 -> 0 <= o < 2 ^ (63 - cluster_bits s) -> 0 <= len < cluster_size s ->
  comp_entry s o len = o + (2 ^ cluster_bits s + len) * 2 ^ (63 - cluster_bits s) /\
  2 ^ cluster_bits s * 2 ^ (63 - cluster_bits s) = 2 ^ 63.
Proof.
  intros Hb Ho Hl. unfold cluster_size in Hl. rewrite Z.shiftl_1_l in Hl. set (b := cluster_bits s) in *.
  assert (E : 2 ^ b * 2 ^ (63 - b) = 2 ^ 63) by (rewrite <- Z.pow_add_r by lia; f_equal; lia). split; [|exact E].
  unfold comp_entry, QCOW_OFLAG_COMPRESSED. fold b. rewrite Z.shiftl_1_l, Z.shiftl_mul_pow2 by lia.
  rewrite (wrap_small 64) by (unfold is_uint; change (2 ^ 64) with (2 * 2 ^ 63); nia).
  replace (2 ^ 63 |. len * 2 ^ (63 - b)) with ((2 ^ b + len) * 2 ^ (63 - b)).
  - rewrite Z.lor_comm. rewrite <- (Z.shiftl_mul_pow2 _ (63 - b)) at 1 by lia. rewrite (shiftl_lor_add (63 - b)) by (lia || exact Ho). lia.
  - rewrite <- E, <- !Z.shiftl_mul_pow2 by lia. rewrite <- Z.shiftl_lor. f_equal.
    rewrite <- (Z.mul_1_l (2 ^ b)), <- Z.shiftl_mul_pow2 by lia. symmetry. rewrite (shiftl_lor_add b 1 len) by (lia || exact Hl). rewrite Z.shiftl_mul_pow2; lia.
Qed.

Lemma comp_entry_ok own s (f : F) o len : layout own s f -> 0 <= o < 2 ^ (63 - cluster_bits s) -> 0 < len < cluster_size s ->
  let e := comp_entry s o len in is_uint 64 e /\ e <> 0 /\ compressed e = true /\ comp_off s e = o /\ comp_size s e = len.
Proof.
  intros L Ho Hl e. pose proof (g_cluster _ _ _ L) as Hb. destruct (comp_entry_sum s o len Hb Ho ltac:(lia)) as [E P]. fold e in E.
  pose proof Hl as Hl'. unfold cluster_size in Hl'. rewrite Z.shiftl_1_l in Hl'. pose proof (Z.pow_pos_nonneg 2 (63 - cluster_bits s)).
  assert (D : e >>. (63 - cluster_bits s) = 2 ^ cluster_bits s + len).
  { rewrite Z.shiftr_div_pow2 by lia. rewrite E, Z.div_add, Z.div_small by lia. lia. }
  assert (B30 : 2 ^ cluster_bits s <= 2 ^ 30) by (apply Z.pow_le_mono_r; lia).
  assert (U : is_uint 64 e) by (unfold is_uint; change (2 ^ 64) with (2 * 2 ^ 63); nia). split_and!.
  - exact U.
  - nia.
  - unfold compressed, truthy, QCOW_OFLAG_COMPRESSED. rewrite Z.shiftl_1_l. apply negb_true_iff, Z.eqb_neq. intros Z0.
    assert (T : Z.testbit (e &. 2 ^ 63) 63 = false) by by rewrite Z0, Z.bits_0.
    rewrite Z.land_spec, Z.pow2_bits_true, andb_true_r, Z.testbit_odd, Z.shiftr_div_pow2 in T by lia.
    replace (e / 2 ^ 63) with 1 in T; [done|]. apply Z.div_unique with (r := e - 2 ^ 63); nia.
  - unfold comp_off, cluster_offset_mask. rewrite Z.shiftl_1_l, Z.sub_1_r, <- Z.ones_equiv, Z.land_ones by lia.
    rewrite E, Z.mod_add by lia. by apply Z.mod_small.
  - unfold comp_size, cluster_size. rewrite D, (swrap_small 32) by (change (2 ^ (32 - 1)) with (2 ^ 31); lia).
    rewrite Z.shiftl_1_l, Z.sub_1_r, <- Z.ones_equiv, Z.land_ones by lia.
    replace (2 ^ cluster_bits s + len) with (len + 1 * 2 ^ cluster_bits s) by lia. rewrite Z.mod_add by lia. apply Z.mod_small. lia.
Qed.

(** ** Its place in the file *)

Section Put.

Context (own : Z -> owner) (q : Qcow (F := F)) (c o slot : Z) (data out : list Z).
Context (I : image_ok own q) (Hc : 0 <= c < l1_size (st q) * l2_size (st q)).
Context (Eo : l1_entry (st q) (file q) (c / l2_size (st q)) = o) (O0 : o <> 0) (Hs : 0 <= slot < 16).
Context (Es : aget (l2_cache_offsets (st q)) slot = o) (C0 : crypt_method (crypt (st q)) = 0).
Context (Hd : Zlength data = cluster_size (st q)) (Hout : 0 < Zlength out < cluster_size (st q)) (Bout : Forall (is_uint 8) out).
Context (Hinf : inflate out (cluster_size (st q)) = (Z_STREAM_END, data)).
Context (Hroom : flen (file q) < 2 ^ (63 - cluster_bits (st q))).

#[local] Abbreviation s := (st q).
#[local] Abbreviation f := (file q).
#[local] Abbreviation e := (comp_entry s (flen f) (Zlength out)).

(** The owners when the data are there. *)
Definition comp_own : Z -> owner := assign own (flen f) (flen f + Zlength out) (fun _ => Cluster c).

Lemma put_files : exists f3 f4, file_pwrite_sync f (u64 (o + c mod l2_size s * SIZEOF_U64)) (cpu_to_be64 e) = (0, f3) /\
  file_pwrite f3 (flen f) out = (Zlength out, f4) /\ file_ok f4 /\ flen f + Zlength out <= flen f4 /\
  (forall i, o + 8 * (c mod l2_size s) <= i < o + 8 * (c mod l2_size s) + 8 -> fbyte f4 i = aget (cpu_to_be64 e) (i - (o + 8 * (c mod l2_size s)))) /\
  (forall i, 0 <= i < flen f -> i < o + 8 * (c mod l2_size s) \/ o + 8 * (c mod l2_size s) + 8 <= i -> fbyte f4 i = fbyte f i) /\
  (forall i, 0 <= i < Zlength out -> fbyte f4 (flen f + i) = aget out i) /\ fbe64 f4 (o + 8 * (c mod l2_size s)) = e.
Proof.
  pose proof (i_layout _ _ I) as L. destruct (table_of _ _ _ _ L Hc) as [Hk Hi]. pose proof (flen_nonneg f).
  destruct (o_table _ _ _ L _ Hk ltac:(congruence)) as (T1 & T2 & T3). rewrite Eo in *. unfold SIZEOF_U64.
  destruct (comp_entry_ok own s f (flen f) (Zlength out) L ltac:(lia) Hout) as (U & _).
  pose proof (Z.pow_lt_mono_r 2 (63 - cluster_bits s) 63) as P63. pose proof (g_cluster _ _ _ L) as GC.
  rewrite (Z.mul_comm _ 8), (wrap_small 64) by (unfold is_uint; lia). set (p := o + 8 * (c mod l2_size s)) in *.
  destruct (file_pwrite_sync_ok f p (cpu_to_be64 e) (g_file _ _ _ L)) as (f3 & E3 & O3 & S3); [lia|done|apply be_put_bytes|].
  pose proof S3 as [A1 A2 A3]. rewrite Zlength_cpu_to_be64 in *.
  destruct (file_pwrite_ok f3 (flen f) out O3) as (f4 & E4 & O4 & [B1 B2 B3]); [lia| |done|].
  { intros Z0. rewrite Z0 in Hout. unfold Zlength in Hout. cbn in Hout. lia. }
  exists f3, f4. split_and!; [done|done|done|lia| | | |].
  - intros i Hi'. rewrite B2 by lia. by apply A1.
  - intros i Hi' Hx. rewrite B2 by lia. by apply A2.
  - intros i Hi'. rewrite B1 by lia. f_equal. lia.
  - rewrite <- (fbe64_stored f f3 p e U S3). apply fbe64_ext. intros j Hj. apply B2; lia.
Qed.

Lemma put_compressed : exists f3 f4, file_pwrite_sync f (u64 (o + c mod l2_size s * SIZEOF_U64)) (cpu_to_be64 e) = (0, f3) /\
  file_pwrite f3 (flen f) out = (Zlength out, f4) /\
  let q' := mkImage (set_l2_cache (awrite (l2_cache s) (slot_offset s slot + c mod l2_size s * SIZEOF_U64) (cpu_to_be64 e)) s) f4 in
  image_ok comp_own q' /\ l2_entry s f4 c = e /\ expanded s f4 e = Some data /\
  (forall base x, sector_ok s x -> x / cluster_sectors s <> c -> sector_data s f4 base x = sector_data s f base x).
Proof.
  pose proof (i_layout _ _ I) as L. destruct (table_of _ _ _ _ L Hc) as [Hk Hi]. pose proof (flen_nonneg f).
  destruct (o_table _ _ _ L _ Hk ltac:(congruence)) as (T1 & T2 & T3). rewrite Eo in T1, T2, T3.
  destruct (comp_entry_ok own s f (flen f) (Zlength out) L ltac:(lia) Hout) as (U & E0 & EC & EO & EZ).
  destruct put_files as (f3 & f4 & E3 & E4 & O4 & L4 & V1 & V2 & V3 & V4). exists f3, f4. split; [exact E3|]. split; [exact E4|].
  assert (K : kept own (fun w => w = Slot c \/ w = Unused) f f4).
  { constructor; [lia|]. intros i Hi' HP. apply V2; [done|].
    destruct (decide (i < o + 8 * (c mod l2_size s) \/ o + 8 * (c mod l2_size s) + 8 <= i)) as [|N]; [done|]. exfalso. apply HP. left.
    replace i with (o + 8 * (c mod l2_size s) + (i - (o + 8 * (c mod l2_size s)))) by lia. rewrite T3 by lia. f_equal.
    rewrite Z.mul_comm. symmetry. apply Z.div_mod. pose proof (sizes _ _ _ L). lia. }
  assert (EE : l2_entry s f4 c = e).
  { unfold l2_entry. cbv zeta. rewrite (kept_l1 own _ _ f4 _ L K) by (done || by intros [?|?]). by rewrite Eo, (proj2 (Z.eqb_neq o 0) O0). }
  assert (EX : expanded s f4 e = Some data).
  { unfold expanded. rewrite EO, EZ. replace (window (fbyte f4) (flen f) (Z.to_nat (Zlength out))) with out.
    - rewrite Hinf, Hd, (Z.eqb_refl (cluster_size s)). done.
    - unfold Zlength. rewrite Nat2Z.id. apply window_eq. intros i Hi'. symmetry. by apply V3. }
  assert (EK : entry_ok comp_own s f4 c e).
  { unfold entry_ok. rewrite EC, EX, EO, EZ. split_and!; [done|done|lia|lia|]. intros i Hi'. unfold comp_own. by rewrite assign_in by lia. }
  split; [|split_and!; [exact EE|exact EX|]].
  - set (s' := set_l2_cache _ _). assert (G : same_geometry s s') by by constructor. constructor; cbn [st file].
    + apply (layout_geometry _ _ G). apply (new_entry_layout own comp_own s f f4 c e L Hc K O4 EE); [| |exact EK].
      * intros i Hu. apply assign_out. intros Hin. apply Hu, (o_unused _ _ _ L). lia.
      * intros i Hi'. unfold comp_own. rewrite assign_out by lia. apply (o_unused _ _ _ L). lia.
    + pose proof (new_entry_coherent own s f f4 c e L Hc K slot (i_coherent _ _ I) Hs) as NC. rewrite Eo in NC. subst s'.
      rewrite (slot_offset_eq own _ _ _ L). unfold SIZEOF_U64. rewrite (Z.mul_comm _ 8). by apply NC.
    + apply (buffers_geometry _ _ G); [done|done|done|].
      apply (new_entry_buffers own s f f4 c e L Hc K EE); [|exact (i_buffers _ _ I)]. intros _ X. rewrite EO in X.
      destruct (b_last_off _ _ (i_buffers _ _ I)) as [B|B]; [|lia]. apply (comp_off_bound own s f L e). by rewrite EO, <- X.
  - intros base x Hx N. exact (new_entry_sector own s f f4 c L K base x N (proj1 Hx)).
Qed.

End Put.

(** ** The request *)

(** The result that the caller of [get_cluster_offset] then uses. *)
Lemma store_compressed own (q : Qcow (F := F)) m data out : image_ok own q -> sector_ok (st q) m -> m mod cluster_sectors (st q) = 0 ->
  let c := m / cluster_sectors (st q) in l2_entry (st q) (file q) c = 0 -> crypt_method (crypt (st q)) = 0 ->
  Zlength data = cluster_size (st q) -> 0 < Zlength out < cluster_size (st q) -> Forall (is_uint 8) out ->
  inflate out (cluster_size (st q)) = (Z_STREAM_END, data) ->
  flen (file q) + room (st q) < 2 ^ 62 -> flen (file q) + room (st q) < 2 ^ (63 - cluster_bits (st q)) ->
  exists own' q1 e f', get_cluster_offset (u64 (m <<. 9)) 2 (Zlength out) 0 0 q = Some (q1, e) /\
    file_pwrite (file q1) (e &. cluster_offset_mask (st q)) out = (Zlength out, f') /\ image_ok own' (with_file f' q1) /\
    same_geometry (st q) (st q1) /\ l2_entry (st q) f' c = e /\ e <> 0 /\ compressed e = true /\ expanded (st q) f' e = Some data /\
    (forall base x, sector_ok (st q) x -> x / cluster_sectors (st q) <> c -> sector_data (st q) f' base x = sector_data (st q) (file q) base x).
Proof.
  intros I Hm Hm0 c E0 C0 Hd Hout Bout Hinf Hr Hr'. unfold room in *. pose proof (i_layout _ _ I) as L. pose proof (cluster_ok _ _ _ _ L Hm) as Hc. fold c in Hc.
  pose proof (sizes _ _ _ L) as (LS & CS & CZ & CM).
  destruct (find_table own q m 2 I Hm ltac:(lia) ltac:(lia)) as (own2 & q1 & q2 & o & new & slot & E1 & E2 & I2 & G & EO & O0 & Hs & Es & F1 & F2 & F3 & _).
  fold c in EO. rewrite (offset_eq _ _ Hm). unfold get_cluster_offset. rewrite E1, E2. cbv zeta.
  rewrite (s_cluster _ _ G), (l2_size_geometry _ _ G), (l2_index_eq _ _ _ _ L). fold c.
  pose proof (cached_entry own2 (st q2) (file q2) slot c (i_layout _ _ I2) (i_coherent _ _ I2) Hs) as CE.
  rewrite (l2_size_geometry _ _ G), (s_l1 _ _ G), (l1_geometry _ _ G), (l2_geometry _ _ G) in CE.
  rewrite CE by (done || congruence). clear CE. rewrite (F1 c Hc), E0. cbn [Z.eqb orb]. unfold alloc_cluster. cbv zeta.
  change (truthy (0 &. QCOW_OFLAG_COMPRESSED)) with false. cbn [andb Z.eqb Pos.eqb mbind option_bind].
  pose proof (i_layout _ _ I2) as L2. pose proof (flen_nonneg (file q2)).
  rewrite (file_getlength_ok _ (g_file _ _ _ L2)), (wrap_small 64 (flen (file q2))) by (unfold is_uint; lia). rewrite (s_cluster _ _ G).
  replace (flen (file q2) |. (QCOW_OFLAG_COMPRESSED |. u64 (Zlength out <<. (63 - cluster_bits (st q)))))
    with (comp_entry (st q2) (flen (file q2)) (Zlength out)) by (unfold comp_entry; by rewrite (s_cluster _ _ G)).
  pose proof (put_compressed own2 q2 c o slot data out I2) as PC. pose proof (s_cluster _ _ G) as GCB.
  rewrite !(s_l1 _ _ G), !(l2_size_geometry _ _ G), !(l1_geometry _ _ G), !(cluster_size_geometry _ _ G), !(s_crypt _ _ G), GCB in PC.
  destruct PC as (f3 & f4 & EW & EP & I4 & EE & EX & V); [done|done|done|done|done|done|done|done|done|done|lia|].
  destruct (comp_entry_ok own2 (st q2) (file q2) (flen (file q2)) (Zlength out) L2) as (_ & N0 & EC & EOff & _);
    [rewrite GCB; lia|rewrite (cluster_size_geometry _ _ G); lia|].
  set (e := comp_entry (st q2) (flen (file q2)) (Zlength out)) in *. cbn [st file with_st with_file]. rewrite EW. cbn [Z.ltb Z.compare].
  assert (EM : e &. cluster_offset_mask (st q) = flen (file q2)) by (rewrite <- EOff; apply (comp_off_geometry _ _ (same_geometry_sym _ _ G))).
  eexists (comp_own own2 q2 c out), _, e, f4. split; [reflexivity|]. cbn [file with_file st]. rewrite EM. split; [exact EP|]. split; [exact I4|].
  split; [destruct G; by constructor|]. rewrite (l2_geometry _ _ G) in EE. rewrite (expanded_geometry _ _ G) in EX.
  split_and!; [exact EE|done|done|exact EX|]. intros base x Hx N.
  specialize (V base x (sector_ok_geometry _ _ _ G Hx)). rewrite (cluster_sectors_geometry _ _ G), !(sector_geometry _ _ G) in V.
  rewrite (V N). by apply F2.
Qed.

(** C10: On an image in order that is not encrypted and has no backing contents,
    or clusters of one sector, a whole cluster that is not allocated, written with
    [qcow_write_compressed], is then on the disk, provided that zlib deflates it
    or runs out of room and that an entry can express the end of the file: when
    the deflated data are shorter than a cluster they are appended and the
    entry tells their place and size, from which reading expands them to the
    data again; when not, the cluster is written as usual.  Every other sector
    is as before, and the image is in order. *)
Theorem qcow_compressed_roundtrip own (q : Qcow (F := F)) base m data recycled : let cs := cluster_sectors (st q) in
  image_ok own q -> crypt_method (crypt (st q)) = 0 -> (forall i, base i = 0) \/ cs = 1 -> m mod cs = 0 ->
  (forall j, 0 <= j < cs -> sector_ok (st q) (m + j)) -> l2_entry (st q) (file q) (m / cs) = 0 ->
  Zlength data = cluster_size (st q) -> Forall (is_uint 8) data -> data_ok (st q) recycled ->
  flen (file q) + cs * room (st q) < 2 ^ 62 -> flen (file q) + room (st q) < 2 ^ (63 - cluster_bits (st q)) ->
  (deflate data (cluster_size (st q))).1 = Z_STREAM_END \/ (deflate data (cluster_size (st q))).1 = Z_OK ->
  exists own' q', qcow_write_compressed m data cs recycled q = Some (q', 0) /\ image_ok own' q' /\ same_geometry (st q) (st q') /\
    disk_data (st q) (file q') base m (Z.to_nat cs) = data /\
    (forall x, sector_ok (st q) x -> ~ m <= x < m + cs -> sector_data (st q) (file q') base x = sector_data (st q) (file q) base x).
Proof.
  intros cs I C0 HB Hm0 Hs E0 Hl Hb Hd Hr Hr' Hret. pose proof (i_layout _ _ I) as L. pose proof (sizes _ _ _ L) as (LS & CS & CZ & CM). fold cs in CS, CZ.
  assert (Hm : sector_ok (st q) m) by (rewrite <- (Z.add_0_r m); apply Hs; lia).
  unfold qcow_write_compressed. cbv zeta. fold cs. rewrite Z.eqb_refl. cbn [negb]. rewrite deflateInit2_ok. cbn [Z_OK Z.eqb negb].
  pose proof (deflate_ok data (cluster_size (st q))) as DO. pose proof (deflate_bytes data (cluster_size (st q))) as DB.
  destruct (deflate data (cluster_size (st q))) as [ret out]. cbn [fst snd] in *.
  replace (negb (ret =? Z_STREAM_END) && negb (ret =? Z_OK)) with false by (destruct Hret as [->| ->]; done).
  destruct (negb (ret =? Z_STREAM_END) || (cluster_size (st q) <=? Zlength out)) eqn:X.
  - destruct (write_request_ok own q base m data cs recycled I HB ltac:(lia) Hs ltac:(lia) Hb Hd Hr) as (own' & q' & -> & I' & G & _ & K).
    cbn [mbind option_bind]. by exists own', q'.
  - apply orb_false_elim in X as [X1 X2]. apply negb_false_iff, Z.eqb_eq in X1. subst ret. destruct (DO out Hb eq_refl) as [D1 D2]. rewrite Hl in D2.
    assert (R0 : room (st q) <= cs * room (st q)) by (unfold room; nia).
    destruct (store_compressed own q m data out I Hm Hm0 E0 C0 Hl ltac:(lia) DB D2 ltac:(lia) Hr')
      as (own' & q1 & e & f' & -> & EW & I' & G & EE & N0 & EC & EX & V).
    cbn [mbind option_bind]. rewrite EW, Z.eqb_refl. cbn [negb]. exists own', (with_file f' q1). split; [done|]. split; [exact I'|]. split; [exact G|].
    cbn [file with_file]. pose proof (i_layout _ _ I') as L'. cbn [st file with_file] in L'.
    apply (layout_geometry _ _ (same_geometry_sym _ _ G)) in L'. split.
    + rewrite (disk_chunk own' (st q) f' base L' (Z.to_nat cs) m) by (fold cs; rewrite Hm0; lia). unfold cluster_data_of.
      rewrite EE, (proj2 (Z.eqb_neq e 0) N0), EC, EX. fold cs. rewrite Hm0. cbn [default]. unfold Zlength in Hl.
      replace (512 * Z.to_nat cs)%nat with (length data) by lia. apply aread_all.
    + intros x Hx Hout. apply V; [exact Hx|]. intros Ec. pose proof (Z.div_mod x cs) as D3. pose proof (Z.div_mod m cs) as D4.
      pose proof (Z.mod_pos_bound x cs CS). change (x / cs = m / cs) in Ec. rewrite Ec in D3. clear - D3 D4 Hm0 Hout CS H. lia.
Qed.

(** ** Emptying an image *)

(** With the cache of the last cluster empty, the image is in order afterwards
    and reads as its backing image. *)
Lemma make_empty_ok own (q : Qcow (F := F)) : image_ok own q -> cluster_cache_offset (st q) = u64 (-1) ->
  0 < l1_size (st q) -> l1_table_offset (st q) < 2 ^ 62 ->
  exists own' q', qcow_make_empty q = (q', 0) /\ image_ok own' q' /\ same_geometry (st q) (st q') /\
    forall base x, sector_ok (st q) x -> sector_data (st q) (file q') base x = window base (x * 512) 512.
Proof.
  intros I EC Hl Ho. pose proof (i_layout _ _ I) as L. pose proof (g_l1 _ _ _ L). pose proof (g_l1_offset _ _ _ L). pose proof (sizes _ _ _ L) as (LS & CS & CZ & CM).
  unfold qcow_make_empty. cbv zeta. unfold SIZEOF_U64, L2_CACHE_SIZE. rewrite (wrap_small 32) by (unfold is_uint; lia).
  cbn [l1_table_offset set_l1_table file with_st]. set (z := replicate (Z.to_nat (l1_size (st q) * 8)) 0).
  assert (ZL : Zlength z = l1_size (st q) * 8) by (unfold Zlength, z; rewrite length_replicate; lia).
  destruct (file_pwrite_sync_ok (file q) (l1_table_offset (st q)) z (g_file _ _ _ L)) as (f1 & -> & O1 & [S1 S2 S3]); [lia| |by apply Forall_replicate|].
  { intros Z0. rewrite Z0 in ZL. change (Zlength []) with 0 in ZL. lia. }
  cbn [Z.ltb Z.compare file with_file]. rewrite (swrap_small 64) by (change (2 ^ (64 - 1)) with (2 ^ 63); lia).
  destruct (file_truncate_ok f1 (l1_table_offset (st q) + l1_size (st q) * 8) O1) as (f2 & -> & O2 & L2 & V2); [lia|]. cbn [Z.ltb Z.compare].
  set (s' := set_l2_cache_counts _ _). assert (G : same_geometry (st q) s') by by constructor. rewrite ZL in *.
  destruct (empty_layout (st q) f2) as [LL E2]; [apply L|apply L|apply L|apply L|lia|done| |].
  { intros i Hi. rewrite V2 by lia. rewrite (proj2 (Z.ltb_lt _ _)) by lia. rewrite S1 by lia. apply aget_replicate0. }
  eexists _, _. split; [reflexivity|]. cbn [st file with_st with_file]. split; [|split; [exact G|]].
  - constructor; cbn [st file].
    + exact (layout_geometry _ _ G _ _ LL).
    + assert (A0 : forall i, aget (l2_cache_offsets s') i = 0) by (intros i; apply (aget_replicate0 16)).
      assert (ZR : forall k, 0 <= k -> Zlength (replicate (Z.to_nat k) 0) = k) by (intros k Hk; unfold Zlength; rewrite length_replicate; lia).
      constructor; rewrite ?(s_l1 _ _ G), ?(l2_size_geometry _ _ G).
      * apply (ZR (l1_size (st q))). lia.
      * intros k Hk. assert (0 <= k < l1_size (st q)) by exact Hk. rewrite (l1_geometry _ _ G). transitivity 0; [apply aget_replicate0|]. symmetry. apply fbe64_zero.
        intros j Hj. rewrite V2 by lia. rewrite (proj2 (Z.ltb_lt _ _)) by lia. rewrite S1 by lia. apply aget_replicate0.
      * assert (X : l2_size (st q) * 16 * 8 = l2_size (st q) * 8 * 16) by lia. etransitivity; [apply (ZR (l2_size (st q) * 16 * 8)); lia|exact X].
      * done.
      * done.
      * intros i Hi N. by rewrite A0 in N.
      * intros i j Hi Hj N. by rewrite A0 in N.
    + destruct (i_buffers _ _ I) as [B1 B2 B3 B4 B5 B6]. constructor; try done; [|by left].
      intros c Hc. rewrite (l2_geometry _ _ G), E2; [done|]. by rewrite <- (s_l1 _ _ G), <- (l2_size_geometry _ _ G).
  - intros base x Hx. unfold sector_data. cbv zeta. by rewrite E2 by exact (cluster_ok _ _ _ _ L Hx).
Qed.

End Compress.

(** A cluster of sevens in the small image. *)
Lemma qcow_compressed_roundtrip_witness :
  exists q', qcow_write_compressed 0 (replicate 4096 7) 8 None demo = Some (q', 0) /\
    disk_data (st demo) (file q') (fun _ => 0) 0 8 = replicate 4096 7.
Proof.
  destruct (qcow_compressed_roundtrip demo_own demo (fun _ => 0) 0 (replicate 4096 7) None demo_image) as (own' & q' & E & _ & _ & W & _).
  - reflexivity.
  - left. reflexivity.
  - reflexivity.
  - intros j Hj. apply demo_sector. exact Hj.
  - vm_compute. reflexivity.
  - reflexivity.
  - apply Forall_replicate. unfold is_uint. lia.
  - exact I.
  - vm_compute. reflexivity.
  - vm_compute. reflexivity.
  - left. vm_compute. reflexivity.
  - exists q'. split; [exact E|exact W].
Defined.

(** A history of the small image: a compressed cluster is written and read, the
    image is emptied, and the cluster is written again with other data. *)
Definition empty_history : option (list Z * Qcow * list Z) :=
  '(q, _) ← qcow_write_compressed 0 (replicate 4096 7) 8 None demo;
  '(q, before, _) ← qcow_aio_readv None 0 (replicate 512 1) 1 None q;
  '(q, _) ← Some (qcow_make_empty q);
  '(q, _) ← qcow_write_compressed 0 (replicate 4096 9) 8 None q;
  '(q, after, _) ← qcow_aio_readv None 0 (replicate 512 1) 1 None q;
  Some (before, q, after).

(** [qcow_make_empty] leaves the cache of the last cluster alone: after a
    compressed cluster was written and read and the image emptied, a compressed
    cluster written to the same sectors lands at the same place in the file, and
    a read returns the old data, although the new data are on the disk (which is
    why [make_empty_ok] asks for an empty cache). *)
Example qcow_make_empty_stale :
  match empty_history with
  | Some (before, q, after) => before = replicate 512 7 /\ after = replicate 512 7 /\
      sector_data (st q) (file q) (fun _ => 0) 0 = replicate 512 9
  | None => False
  end.
Proof. vm_compute. repeat split. Qed.

End QcowCompress.
