(* ===== verification/Hpet.v ===== *)
(** * The high precision event timer (src/qemu/hw/hpet.c, hpet_emul.h)

    A main counter of 10 ns ticks and up to 32 timers that compare with it.
    [HPETTimer] and [HPETState] keep the fields of the source; a timer is
    named by its index in the array [timer], so the pointer [state] needs no
    field.  [qemu_timer] is the time the timer is armed for, [None] when it is
    not.  What leaves the device is logged in [irqs], newest first: levels on
    the interrupt lines and the messages that [stl_phys] stores.  A handler
    that reads [vm_clock] takes the sequence [clk] of its readings.  The
    interval timer, which the device turns off and on, is the state of
    I8254.v.

    The loops of [hpet_timer] take fuel, since they need not end.  The
    differences of [hpet_time_after] are signed and may overflow; they are read
    as wrapping around.

    After the model come the main counter, which is the one the guest programs
    ([counted]), and the invariant of the reachable states; HpetTimers.v has
    the deadlines. *)
From S2P Require Import Prelude I8254.

Module Hpet.

Definition HPET_MSI_SUPPORT : Z := 0.
(* hpet_emul.h *)
Definition HPET_CLK_PERIOD : Z := 10000000.
Definition FS_PER_NS : Z := 1000000.
Definition HPET_MIN_TIMERS : Z := 3.
Definition HPET_MAX_TIMERS : Z := 32.
Definition HPET_NUM_IRQ_ROUTES : Z := 32.
Definition HPET_CFG_ENABLE : Z := 0x001.
Definition HPET_CFG_LEGACY : Z := 0x002.
Definition HPET_ID : Z := 0x000.
Definition HPET_PERIOD : Z := 0x004.
Definition HPET_CFG : Z := 0x010.
Definition HPET_STATUS : Z := 0x020.
Definition HPET_COUNTER : Z := 0x0f0.
Definition HPET_TN_CFG : Z := 0x000.
Definition HPET_TN_CMP : Z := 0x008.
Definition HPET_TN_ROUTE : Z := 0x010.
Definition HPET_CFG_WRITE_MASK : Z := 0x3.
Definition HPET_ID_NUM_TIM_SHIFT : Z := 8.
Definition HPET_ID_NUM_TIM_MASK : Z := 0x1f00.
Definition HPET_TN_TYPE_LEVEL : Z := 0x002.
Definition HPET_TN_ENABLE : Z := 0x004.
Definition HPET_TN_PERIODIC : Z := 0x008.
Definition HPET_TN_PERIODIC_CAP : Z := 0x010.
Definition HPET_TN_SIZE_CAP : Z := 0x020.
Definition HPET_TN_SETVAL : Z := 0x040.
Definition HPET_TN_32BIT : Z := 0x100.
Definition HPET_TN_INT_ROUTE_MASK : Z := 0x3e00.
Definition HPET_TN_FSB_ENABLE : Z := 0x4000.
Definition HPET_TN_FSB_CAP : Z := 0x8000.
Definition HPET_TN_CFG_WRITE_MASK : Z := 0x7f4e.
Definition HPET_TN_INT_ROUTE_SHIFT : Z := 9.
(* mc146818rtc.h *)
Definition RTC_ISA_IRQ : Z := 8.

(** The masks of the two halves of a register, and the largest values. *)
Definition HIGH : Z := 0xffffffff00000000.
Definition LOW : Z := 0xffffffff.
Definition ALL : Z := 0xffffffffffffffff.
Definition UINT8_MAX : Z := 255.

(** ** State *)

(** A level on line [route], or a store of [val] at the physical [addr]. *)
Inductive Event :=
  | Line (route level : Z)
  | Store (addr val : Z).

Record HPETTimer := mkTimer {
  tn : Z;
  qemu_timer : option Z;
  t_config : Z;
  cmp : Z;
  fsb : Z;
  period : Z;
  wrap_flag : Z
}.

Definition set_tn (v : Z) (t : HPETTimer) : HPETTimer :=
  mkTimer v (qemu_timer t) (t_config t) (cmp t) (fsb t) (period t) (wrap_flag t).
Definition set_qemu_timer (v : option Z) (t : HPETTimer) : HPETTimer :=
  mkTimer (tn t) v (t_config t) (cmp t) (fsb t) (period t) (wrap_flag t).
Definition set_t_config (v : Z) (t : HPETTimer) : HPETTimer :=
  mkTimer (tn t) (qemu_timer t) v (cmp t) (fsb t) (period t) (wrap_flag t).
Definition set_cmp (v : Z) (t : HPETTimer) : HPETTimer :=
  mkTimer (tn t) (qemu_timer t) (t_config t) v (fsb t) (period t) (wrap_flag t).
Definition set_fsb (v : Z) (t : HPETTimer) : HPETTimer :=
  mkTimer (tn t) (qemu_timer t) (t_config t) (cmp t) v (period t) (wrap_flag t).
Definition set_period (v : Z) (t : HPETTimer) : HPETTimer :=
  mkTimer (tn t) (qemu_timer t) (t_config t) (cmp t) (fsb t) v (wrap_flag t).
Definition set_wrap_flag (v : Z) (t : HPETTimer) : HPETTimer :=
  mkTimer (tn t) (qemu_timer t) (t_config t) (cmp t) (fsb t) (period t) v.

Record HPETState := mkHPET {
  hpet_offset : Z;
  irqs : list Event;
  flags : Z;
  rtc_irq_level : Z;
  num_timers : Z;
  timer : list HPETTimer;
  capability : Z;
  config : Z;
  isr : Z;
  hpet_counter : Z;
  hpet_id : Z
}.

Definition set_hpet_offset (v : Z) (s : HPETState) : HPETState :=
  mkHPET v (irqs s) (flags s) (rtc_irq_level s) (num_timers s) (timer s) (capability s)
    (config s) (isr s) (hpet_counter s) (hpet_id s).
Definition set_irqs (v : list Event) (s : HPETState) : HPETState :=
  mkHPET (hpet_offset s) v (flags s) (rtc_irq_level s) (num_timers s) (timer s)
    (capability s) (config s) (isr s) (hpet_counter s) (hpet_id s).
Definition set_flags (v : Z) (s : HPETState) : HPETState :=
  mkHPET (hpet_offset s) (irqs s) v (rtc_irq_level s) (num_timers s) (timer s)
    (capability s) (config s) (isr s) (hpet_counter s) (hpet_id s).
Definition set_rtc_irq_level (v : Z) (s : HPETState) : HPETState :=
  mkHPET (hpet_offset s) (irqs s) (flags s) v (num_timers s) (timer s) (capability s)
    (config s) (isr s) (hpet_counter s) (hpet_id s).
Definition set_num_timers (v : Z) (s : HPETState) : HPETState :=
  mkHPET (hpet_offset s) (irqs s) (flags s) (rtc_irq_level s) v (timer s) (capability s)
    (config s) (isr s) (hpet_counter s) (hpet_id s).
Definition set_timer (v : list HPETTimer) (s : HPETState) : HPETState :=
  mkHPET (hpet_offset s) (irqs s) (flags s) (rtc_irq_level s) (num_timers s) v
    (capability s) (config s) (isr s) (hpet_counter s) (hpet_id s).
Definition set_capability (v : Z) (s : HPETState) : HPETState :=
  mkHPET (hpet_offset s) (irqs s) (flags s) (rtc_irq_level s) (num_timers s) (timer s) v
    (config s) (isr s) (hpet_counter s) (hpet_id s).
Definition set_config (v : Z) (s : HPETState) : HPETState :=
  mkHPET (hpet_offset s) (irqs s) (flags s) (rtc_irq_level s) (num_timers s) (timer s)
    (capability s) v (isr s) (hpet_counter s) (hpet_id s).
Definition set_isr (v : Z) (s : HPETState) : HPETState :=
  mkHPET (hpet_offset s) (irqs s) (flags s) (rtc_irq_level s) (num_timers s) (timer s)
    (capability s) (config s) v (hpet_counter s) (hpet_id s).
Definition set_hpet_counter (v : Z) (s : HPETState) : HPETState :=
  mkHPET (hpet_offset s) (irqs s) (flags s) (rtc_irq_level s) (num_timers s) (timer s)
    (capability s) (config s) (isr s) v (hpet_id s).
Definition set_hpet_id (v : Z) (s : HPETState) : HPETState :=
  mkHPET (hpet_offset s) (irqs s) (flags s) (rtc_irq_level s) (num_timers s) (timer s)
    (capability s) (config s) (isr s) (hpet_counter s) v.

(** The firmware's table of devices. *)
Record hpet_fw_entry := mkEntry {
  event_timer_block_id : Z;
  address : Z;
  min_tick : Z;
  page_prot : Z
}.
Record hpet_fw_config := mkFw { count : Z; hpet : list hpet_fw_entry }.

(** [hpet_cfg] before the first device. *)
Definition hpet_cfg : hpet_fw_config := mkFw UINT8_MAX (replicate 8 (mkEntry 0 0 0 0)).

(** The timer [i] of the array, and its update. *)
Definition timer_zero : HPETTimer := mkTimer 0 None 0 0 0 0 0.
Definition tm (s : HPETState) (i : Z) : HPETTimer := nth (Z.to_nat i) (timer s) timer_zero.
Definition put_tm (i : Z) (t : HPETTimer) (s : HPETState) : HPETState :=
  set_timer (<[Z.to_nat i := t]> (timer s)) s.

(** [for (i = 0; i < n; i++)]. *)
Definition for_timers (n : Z) (f : Z -> HPETState -> HPETState) (s : HPETState) : HPETState :=
  foldl (fun s i => f i s) s (seqZ 0 n).

(** ** Fields of the registers *)

Definition hpet_in_legacy_mode (s : HPETState) : Z := config s &. HPET_CFG_LEGACY.
Definition timer_int_route (t : HPETTimer) : Z :=
  (t_config t &. HPET_TN_INT_ROUTE_MASK) >>. HPET_TN_INT_ROUTE_SHIFT.
Definition timer_fsb_route (t : HPETTimer) : Z := t_config t &. HPET_TN_FSB_ENABLE.
Definition hpet_enabled (s : HPETState) : Z := config s &. HPET_CFG_ENABLE.
Definition timer_is_periodic (t : HPETTimer) : Z := t_config t &. HPET_TN_PERIODIC.
Definition timer_enabled (t : HPETTimer) : Z := t_config t &. HPET_TN_ENABLE.

Definition hpet_time_after (a b : Z) : bool := s32 (s32 b - s32 a) <? 0.
Definition hpet_time_after64 (a b : Z) : bool := s64 (s64 b - s64 a) <? 0.

Definition ticks_to_ns (value : Z) : Z := I8254.muldiv64 value HPET_CLK_PERIOD FS_PER_NS.
Definition ns_to_ticks (value : Z) : Z := I8254.muldiv64 value FS_PER_NS HPET_CLK_PERIOD.

Definition hpet_fixup_reg (new old mask : Z) : Z := (new &. mask) |. (old &. ~. mask).
Definition activating_bit (old new mask : Z) : bool :=
  negb (truthy (old &. mask)) && truthy (new &. mask).
Definition deactivating_bit (old new mask : Z) : bool :=
  truthy (old &. mask) && negb (truthy (new &. mask)).

Definition hpet_get_ticks (now : Z) (s : HPETState) : Z := ns_to_ticks (u64 (now + hpet_offset s)).

Definition hpet_calculate_diff (t : HPETTimer) (current : Z) : Z :=
  if truthy (t_config t &. HPET_TN_32BIT) then
    let diff := u32 (u32 (cmp t) - u32 current) in
    if 0 <? s32 diff then diff else 0
  else
    let diff := u64 (cmp t - current) in
    if 0 <? s64 diff then diff else 0.

(** ** Interrupts *)

Definition qemu_set_irq (route level : Z) (s : HPETState) : HPETState :=
  set_irqs (Line route level :: irqs s) s.
Definition qemu_irq_raise (route : Z) : HPETState -> HPETState := qemu_set_irq route 1.
Definition qemu_irq_lower (route : Z) : HPETState -> HPETState := qemu_set_irq route 0.
Definition qemu_irq_pulse (route : Z) (s : HPETState) : HPETState :=
  qemu_set_irq route 0 (qemu_set_irq route 1 s).
Definition stl_phys (addr val : Z) (s : HPETState) : HPETState :=
  set_irqs (Store addr val :: irqs s) s.

(** [1 << i], an [int], as 64 bits. *)
Definition bit_mask (i : Z) : Z := u64 (s32 (1 <<. i)).

Definition irq_route (t : HPETTimer) (s : HPETState) : Z :=
  if (tn t <=? 1) && truthy (hpet_in_legacy_mode s) then
    if tn t =? 0 then 0 else RTC_ISA_IRQ
  else timer_int_route t.

Definition update_irq (i : Z) (set : bool) (s : HPETState) : HPETState :=
  let t := tm s i in
  let route := irq_route t s in
  let mask := bit_mask (tn t) in
  if negb set || negb (truthy (timer_enabled t)) || negb (truthy (hpet_enabled s)) then
    let s := set_isr (isr s &. ~. mask) s in
    if truthy (timer_fsb_route t) then s else qemu_irq_lower route s
  else if truthy (timer_fsb_route t) then stl_phys (fsb t >>. 32) (fsb t &. LOW) s
  else if truthy (t_config t &. HPET_TN_TYPE_LEVEL) then
    qemu_irq_raise route (set_isr (isr s |. mask) s)
  else qemu_irq_pulse route (set_isr (isr s &. ~. mask) s).

(** ** Timers *)

(** The two loops of [hpet_timer]: the comparator after them. *)
Fixpoint advance32 (fuel : nat) (cur_tick period cmp : Z) : option Z :=
  match fuel with
  | O => None
  | S fuel =>
      if hpet_time_after cur_tick cmp then advance32 fuel cur_tick period (u32 (u64 (cmp + period)))
      else Some cmp
  end.

Fixpoint advance64 (fuel : nat) (cur_tick period cmp : Z) : option Z :=
  match fuel with
  | O => None
  | S fuel =>
      if hpet_time_after64 cur_tick cmp then advance64 fuel cur_tick period (u64 (cmp + period))
      else Some cmp
  end.

(** [qemu_mod_timer] to [diff] ticks after the reading [now]. *)
Definition arm (now diff : Z) (t : HPETTimer) : HPETTimer :=
  set_qemu_timer (Some (s64 (now + s64 (ticks_to_ns diff)))) t.

(** The timer is off the list of active timers when its callback runs. *)
Definition hpet_timer (fuel : nat) (clk : nat -> Z) (i : Z) (s : HPETState) : option HPETState :=
  let t := set_qemu_timer None (tm s i) in
  let cur_tick := hpet_get_ticks (clk 0%nat) s in
  let is32 := truthy (t_config t &. HPET_TN_32BIT) in
  t' ←
    (if truthy (timer_is_periodic t) && negb (period t =? 0) then
       c ← (if is32 then advance32 else advance64) fuel cur_tick (period t) (cmp t);
       let t := set_cmp c t in
       Some (arm (clk 1%nat) (hpet_calculate_diff t cur_tick) t)
     else if is32 && negb (truthy (timer_is_periodic t)) then
       if truthy (wrap_flag t) then
         Some (set_wrap_flag 0 (arm (clk 1%nat) (hpet_calculate_diff t cur_tick) t))
       else Some t
     else Some t);
  Some (update_irq i true (put_tm i t' s)).

Definition hpet_set_timer (now1 now2 i : Z) (s : HPETState) : HPETState :=
  let cur_tick := hpet_get_ticks now1 s in
  let t := set_wrap_flag 0 (tm s i) in
  let diff := hpet_calculate_diff t cur_tick in
  let wrap_diff := u32 (0xffffffff - u32 cur_tick) in
  let t :=
    if truthy (t_config t &. HPET_TN_32BIT) && negb (truthy (timer_is_periodic t))
       && (wrap_diff <? u32 diff)
    then arm now2 wrap_diff (set_wrap_flag 1 t)
    else arm now2 diff t in
  put_tm i t s.

Definition hpet_del_timer (i : Z) (s : HPETState) : HPETState :=
  update_irq i false (put_tm i (set_qemu_timer None (tm s i)) s).

(** ** Registers *)

(** The timer registers lie from [0x100] to [0x3ff]. *)
Definition is_tn_reg (addr : Z) : bool := (0x100 <=? addr) && (addr <=? 0x3ff).
Definition timer_id (addr : Z) : Z := u8 ((addr - 0x100) / 0x20).

Definition read_tn (t : HPETTimer) (r : Z) : Z :=
  if r =? HPET_TN_CFG then u32 (t_config t)
  else if r =? HPET_TN_CFG + 4 then u32 (t_config t >>. 32)
  else if r =? HPET_TN_CMP then u32 (cmp t)
  else if r =? HPET_TN_CMP + 4 then u32 (cmp t >>. 32)
  else if r =? HPET_TN_ROUTE then u32 (fsb t)
  else if r =? HPET_TN_ROUTE + 4 then u32 (fsb t >>. 32)
  else 0.

(** The value of the main counter as the guest sees it. *)
Definition counter_now (now : Z) (s : HPETState) : Z :=
  if truthy (hpet_enabled s) then hpet_get_ticks now s else hpet_counter s.

Definition hpet_ram_readl (now : Z) (s : HPETState) (addr : Z) : Z :=
  if is_tn_reg addr then
    let id := timer_id addr in
    if num_timers s <? id then 0 else read_tn (tm s id) ((addr - 0x100) mod 0x20)
  else if addr =? HPET_ID then u32 (capability s)
  else if addr =? HPET_PERIOD then u32 (capability s >>. 32)
  else if addr =? HPET_CFG then u32 (config s)
  else if addr =? HPET_CFG + 4 then 0
  else if addr =? HPET_COUNTER then u32 (counter_now now s)
  else if addr =? HPET_COUNTER + 4 then u32 (counter_now now s >>. 32)
  else if addr =? HPET_STATUS then u32 (isr s)
  else 0.

Definition write_tn_cfg (clk : nat -> Z) (i old_val new_val : Z) (s : HPETState) : HPETState :=
  let s := if activating_bit old_val new_val HPET_TN_FSB_ENABLE then update_irq i false s else s in
  let t := tm s i in
  let val := hpet_fixup_reg new_val old_val HPET_TN_CFG_WRITE_MASK in
  let t := set_t_config ((t_config t &. HIGH) |. val) t in
  let t :=
    if truthy (new_val &. HPET_TN_32BIT) then set_period (u32 (period t)) (set_cmp (u32 (cmp t)) t)
    else t in
  let s := put_tm i t s in
  if activating_bit old_val new_val HPET_TN_ENABLE then hpet_set_timer (clk 1%nat) (clk 2%nat) i s
  else if deactivating_bit old_val new_val HPET_TN_ENABLE then hpet_del_timer i s
  else s.

(** The largest period: [(timer->config & HPET_TN_32BIT ? ~0u : ~0ull) >> 1]. *)
Definition period_mask (t : HPETTimer) : Z :=
  (if truthy (t_config t &. HPET_TN_32BIT) then LOW else ALL) >>. 1.

(** The end of both comparator writes. *)
Definition cmp_written (clk : nat -> Z) (i : Z) (t : HPETTimer) (s : HPETState) : HPETState :=
  let s := put_tm i (set_t_config (t_config t &. ~. HPET_TN_SETVAL) t) s in
  if truthy (hpet_enabled s) then hpet_set_timer (clk 1%nat) (clk 2%nat) i s else s.

Definition write_tn_cmp (clk : nat -> Z) (i new_val : Z) (s : HPETState) : HPETState :=
  let t := tm s i in
  let new_val := if truthy (t_config t &. HPET_TN_32BIT) then u32 new_val else new_val in
  let t :=
    if negb (truthy (timer_is_periodic t)) || truthy (t_config t &. HPET_TN_SETVAL) then
      set_cmp ((cmp t &. HIGH) |. new_val) t
    else t in
  let t :=
    if truthy (timer_is_periodic t) then
      set_period ((period t &. HIGH) |. (new_val &. period_mask t)) t
    else t in
  cmp_written clk i t s.

Definition write_tn_cmp_high (clk : nat -> Z) (i new_val : Z) (s : HPETState) : HPETState :=
  let t := tm s i in
  let t :=
    if negb (truthy (timer_is_periodic t)) || truthy (t_config t &. HPET_TN_SETVAL) then
      set_cmp ((cmp t &. LOW) |. u64 (new_val <<. 32)) t
    else
      set_period ((period t &. LOW) |. u64 ((new_val &. period_mask t) <<. 32)) t in
  cmp_written clk i t s.

Definition write_tn (clk : nat -> Z) (i r old_val new_val : Z) (s : HPETState) : HPETState :=
  let t := tm s i in
  if r =? HPET_TN_CFG then write_tn_cfg clk i old_val new_val s
  else if r =? HPET_TN_CFG + 4 then s
  else if r =? HPET_TN_CMP then write_tn_cmp clk i new_val s
  else if r =? HPET_TN_CMP + 4 then write_tn_cmp_high clk i new_val s
  else if r =? HPET_TN_ROUTE then put_tm i (set_fsb ((fsb t &. HIGH) |. new_val) t) s
  else if r =? HPET_TN_ROUTE + 4 then
    put_tm i (set_fsb (u64 (new_val <<. 32) |. (fsb t &. LOW)) t) s
  else s.

(** Starting and halting the main counter. *)
Definition start_counter (clk : nat -> Z) (s : HPETState) : HPETState :=
  let s := set_hpet_offset (u64 (ticks_to_ns (hpet_counter s) - clk 1%nat)) s in
  for_timers (num_timers s) (fun i s =>
    if cmp (tm s i) =? ALL then s
    else hpet_set_timer (clk (2 + 2 * Z.to_nat i)%nat) (clk (3 + 2 * Z.to_nat i)%nat) i s) s.

Definition halt_counter (clk : nat -> Z) (s : HPETState) : HPETState :=
  let s := set_hpet_counter (hpet_get_ticks (clk 1%nat) s) s in
  for_timers (num_timers s) hpet_del_timer s.

(** The interval timer's last reading of the clock comes after all others. *)
Definition last_reading (clk : nat -> Z) (s : HPETState) : Z :=
  clk (2 + 2 * Z.to_nat (num_timers s))%nat.

Definition write_cfg (clk : nat -> Z) (old_val new_val : Z) (s : HPETState) (pit : I8254.PITState)
    : option (HPETState * I8254.PITState) :=
  let val := hpet_fixup_reg new_val old_val HPET_CFG_WRITE_MASK in
  let s := set_config ((config s &. HIGH) |. val) s in
  let s :=
    if activating_bit old_val new_val HPET_CFG_ENABLE then start_counter clk s
    else if deactivating_bit old_val new_val HPET_CFG_ENABLE then halt_counter clk s
    else s in
  if activating_bit old_val new_val HPET_CFG_LEGACY then
    pit ← I8254.hpet_pit_disable pit;
    Some (qemu_irq_lower RTC_ISA_IRQ s, pit)
  else if deactivating_bit old_val new_val HPET_CFG_LEGACY then
    pit ← I8254.hpet_pit_enable (last_reading clk s) pit;
    Some (qemu_set_irq RTC_ISA_IRQ (rtc_irq_level s) s, pit)
  else Some (s, pit).

Definition write_status (new_val : Z) (s : HPETState) : HPETState :=
  let val := new_val &. isr s in
  for_timers (num_timers s) (fun i s =>
    if truthy (val &. bit_mask i) then update_irq i false s else s) s.

Definition hpet_ram_writel (clk : nat -> Z) (s : HPETState) (pit : I8254.PITState) (addr value : Z)
    : option (HPETState * I8254.PITState) :=
  let old_val := hpet_ram_readl (clk 0%nat) s addr in
  let new_val := value in
  if is_tn_reg addr then
    let id := timer_id addr in
    if num_timers s <? id then Some (s, pit)
    else Some (write_tn clk id ((addr - 0x100) mod 0x20) old_val new_val s, pit)
  else if addr =? HPET_ID then Some (s, pit)
  else if addr =? HPET_CFG then write_cfg clk old_val new_val s pit
  else if addr =? HPET_CFG + 4 then Some (s, pit)
  else if addr =? HPET_STATUS then Some (write_status new_val s, pit)
  else if addr =? HPET_COUNTER then
    Some (set_hpet_counter ((hpet_counter s &. HIGH) |. value) s, pit)
  else if addr =? HPET_COUNTER + 4 then
    Some (set_hpet_counter ((hpet_counter s &. LOW) |. (value <<. 32)) s, pit)
  else Some (s, pit).

(** ** Reset, initialisation and the clock's line *)

Definition reset_timer (i : Z) (s : HPETState) : HPETState :=
  let s := hpet_del_timer i s in
  let t := set_cmp ALL (tm s i) in
  let t := set_t_config (HPET_TN_PERIODIC_CAP |. HPET_TN_SIZE_CAP) t in
  let t :=
    if truthy (flags s &. (1 <<. HPET_MSI_SUPPORT)) then
      set_t_config (t_config t |. HPET_TN_FSB_CAP) t
    else t in
  let t := set_t_config (t_config t |. (0x00000004 <<. 32)) t in
  put_tm i (set_wrap_flag 0 (set_period 0 t)) s.

(** [hpet_cfg.hpet[id].event_timer_block_id] and its [address]. *)
Definition set_block_id (id v : Z) (fw : hpet_fw_config) : hpet_fw_config :=
  mkFw (count fw) (alter (fun e => mkEntry v (address e) (min_tick e) (page_prot e))
                         (Z.to_nat id) (hpet fw)).
Definition set_address (id v : Z) (fw : hpet_fw_config) : hpet_fw_config :=
  mkFw (count fw) (alter (fun e => mkEntry (event_timer_block_id e) v (min_tick e) (page_prot e))
                         (Z.to_nat id) (hpet fw)).

(** [calls] is the static [count]; [mmio] the address the device is mapped
    at. *)
Definition hpet_reset (now mmio calls : Z) (s : HPETState) (pit : I8254.PITState)
    (fw : hpet_fw_config) : option (HPETState * I8254.PITState * hpet_fw_config * Z) :=
  let s := for_timers (num_timers s) reset_timer s in
  let s := set_config 0 (set_hpet_offset 0 (set_hpet_counter 0 s)) in
  pit ← (if 0 <? calls then I8254.hpet_pit_enable now pit else Some pit);
  let fw := set_block_id (hpet_id s) (u32 (capability s)) fw in
  let fw := set_address (hpet_id s) mmio fw in
  Some (s, pit, fw, 1).

Definition hpet_handle_rtc_irq (level : Z) (s : HPETState) : HPETState :=
  let s := set_rtc_irq_level (u8 level) s in
  if truthy (hpet_in_legacy_mode s) then s else qemu_set_irq RTC_ISA_IRQ level s.

(** A device before [hpet_init]: zeroed memory and its two properties. *)
Definition hpet_new (timers msi : Z) : HPETState :=
  mkHPET 0 [] (msi <<. HPET_MSI_SUPPORT) 0 timers
    (replicate (Z.to_nat HPET_MAX_TIMERS) timer_zero) 0 0 0 0 0.

Definition clamp_timers (n : Z) : Z :=
  if n <? HPET_MIN_TIMERS then HPET_MIN_TIMERS
  else if HPET_MAX_TIMERS <? n then HPET_MAX_TIMERS else n.

(** The result is the error code and the state. *)
Definition hpet_init (s : HPETState) (fw : hpet_fw_config) : Z * HPETState * hpet_fw_config :=
  let fw := if count fw =? UINT8_MAX then mkFw 0 (hpet fw) else fw in
  if count fw =? 8 then (-1, s, fw)
  else
    let s := set_hpet_id (count fw) s in
    let fw := mkFw (u8 (count fw + 1)) (hpet fw) in
    let s := set_num_timers (clamp_timers (num_timers s)) s in
    let s := for_timers HPET_MAX_TIMERS (fun i s =>
      put_tm i (set_tn i (set_qemu_timer None (tm s i))) s) s in
    let s := set_capability 0x8086a001 s in
    let s := set_capability (capability s |. ((num_timers s - 1) <<. HPET_ID_NUM_TIM_SHIFT)) s in
    let s := set_capability (capability s |. (HPET_CLK_PERIOD <<. 32)) s in
    (0, s, fw).

(** ** Saving and loading *)

Definition hpet_pre_save (now : Z) (s : HPETState) : HPETState :=
  set_hpet_counter (hpet_get_ticks now s) s.

Definition hpet_pre_load (s : HPETState) : HPETState := set_num_timers HPET_MIN_TIMERS s.

Definition hpet_post_load (now : Z) (s : HPETState) (fw : hpet_fw_config)
    : HPETState * hpet_fw_config :=
  let s := set_hpet_offset (u64 (ticks_to_ns (hpet_counter s) - now)) s in
  let s := set_capability (capability s &. ~. HPET_ID_NUM_TIM_MASK) s in
  let s := set_capability
    (capability s |. u64 ((num_timers s - 1) <<. HPET_ID_NUM_TIM_SHIFT)) s in
  let fw := set_block_id (hpet_id s) (u32 (capability s)) fw in
  let s := set_flags (flags s &. u32 (~. (1 <<. HPET_MSI_SUPPORT))) s in
  let s :=
    if truthy (t_config (tm s 0) &. HPET_TN_FSB_CAP) then
      set_flags (flags s |. (1 <<. HPET_MSI_SUPPORT)) s
    else s in
  (s, fw).

(** The fields of [vmstate_hpet], version 2, from the saved device [src]:
    every field of a timer, for the first [num_timers]. *)
Definition vmstate_hpet (src dst : HPETState) : HPETState :=
  let dst := set_config (config src) dst in
  let dst := set_isr (isr src) dst in
  let dst := set_hpet_counter (hpet_counter src) dst in
  let dst := set_num_timers (num_timers src) dst in
  for_timers (num_timers dst) (fun i dst => put_tm i (tm src i) dst) dst.

(** Saving [src] at time [t1] and loading it into [dst] at [t2]. *)
Definition migrate (t1 t2 : Z) (src dst : HPETState) (fw : hpet_fw_config)
    : HPETState * hpet_fw_config :=
  hpet_post_load t2 (vmstate_hpet (hpet_pre_save t1 src) (hpet_pre_load dst)) fw.

(** ** Arithmetic and single bits *)

Lemma ticks_to_ns_eq v : is_u64 v -> ticks_to_ns v = u64 (10 * v).
Proof.
  intros H. unfold ticks_to_ns, HPET_CLK_PERIOD, FS_PER_NS.
  rewrite I8254.muldiv64_quotient by (done || unfold is_uint; lia).
  f_equal. replace (v * 10000000) with (10 * v * 1000000) by ring. by apply Z.div_mul.
Qed.

Lemma ns_to_ticks_eq v : is_u64 v -> ns_to_ticks v = v / 10.
Proof.
  intros H. unfold ns_to_ticks, HPET_CLK_PERIOD, FS_PER_NS.
  rewrite I8254.muldiv64_quotient by (done || unfold is_uint; lia).
  unfold is_uint in H. rewrite wrap_small by (unfold is_uint; dlia). dlia.
Qed.

Lemma get_ticks_eq now s : hpet_get_ticks now s = u64 (now + hpet_offset s) / 10.
Proof. unfold hpet_get_ticks. apply ns_to_ticks_eq, wrap_range. lia. Qed.

Lemma get_ticks_range now s : is_u64 (hpet_get_ticks now s).
Proof.
  rewrite get_ticks_eq. pose proof (wrap_range 64 (now + hpet_offset s) ltac:(lia)).
  unfold is_uint in *. dlia.
Qed.

(** The flags of the registers as bits. *)
Lemma flag_bit x k m : 0 <= k -> m = 1 <<. k -> truthy (x &. m) = Z.testbit x k.
Proof. intros Hk ->. by apply truthy_land_bit. Qed.

Lemma enabled_bit s : truthy (hpet_enabled s) = Z.testbit (config s) 0.
Proof. by apply flag_bit. Qed.
Lemma legacy_bit s : truthy (hpet_in_legacy_mode s) = Z.testbit (config s) 1.
Proof. by apply flag_bit. Qed.
Lemma timer_enabled_bit t : truthy (timer_enabled t) = Z.testbit (t_config t) 2.
Proof. by apply flag_bit. Qed.
Lemma periodic_bit t : truthy (timer_is_periodic t) = Z.testbit (t_config t) 3.
Proof. by apply flag_bit. Qed.
Lemma fsb_bit t : truthy (timer_fsb_route t) = Z.testbit (t_config t) 14.
Proof. by apply flag_bit. Qed.
Lemma size32_bit x : truthy (x &. HPET_TN_32BIT) = Z.testbit x 8.
Proof. by apply flag_bit. Qed.

Lemma activating old new k m : 0 <= k -> m = 1 <<. k ->
  activating_bit old new m = negb (Z.testbit old k) && Z.testbit new k.
Proof. intros. unfold activating_bit. by rewrite !(flag_bit _ k). Qed.

Lemma deactivating old new k m : 0 <= k -> m = 1 <<. k ->
  deactivating_bit old new m = Z.testbit old k && negb (Z.testbit new k).
Proof. intros. unfold deactivating_bit. by rewrite !(flag_bit _ k). Qed.

(** A register whose low half is written under a mask. *)
Lemma fixup_bit m old new k : 0 <= k < 32 ->
  Z.testbit ((old &. HIGH) |. hpet_fixup_reg new (u32 old) m) k =
  if Z.testbit m k then Z.testbit new k else Z.testbit old k.
Proof.
  intros Hk. unfold hpet_fixup_reg. autorewrite with cbits.
  rewrite wrap_testbit by lia.
  replace (Z.testbit HIGH k) with false; [destruct (Z.testbit m k); btauto|].
  symmetry. apply negb_true_iff.
  apply (below_spec 32 (fun k => negb (Z.testbit HIGH k))); [by vm_compute|lia].
Qed.

(** ** What most operations leave alone *)

Record quiet (s s' : HPETState) : Prop := {
  q_offset : hpet_offset s' = hpet_offset s;
  q_flags : flags s' = flags s;
  q_rtc : rtc_irq_level s' = rtc_irq_level s;
  q_num : num_timers s' = num_timers s;
  q_length : length (timer s') = length (timer s);
  q_capability : capability s' = capability s;
  q_config : config s' = config s;
  q_counter : hpet_counter s' = hpet_counter s;
  q_id : hpet_id s' = hpet_id s
}.

#[global] Instance quiet_preorder : PreOrder quiet.
Proof. split; [by intros s|]. intros s1 s2 s3 [] []. constructor; congruence. Qed.

Lemma quiet_put_tm i t s : quiet s (put_tm i t s).
Proof. constructor; try done. apply length_insert. Qed.
Lemma quiet_set_irq r l s : quiet s (qemu_set_irq r l s).
Proof. by constructor. Qed.
Lemma quiet_stl a v s : quiet s (stl_phys a v s).
Proof. by constructor. Qed.
Lemma quiet_set_isr v s : quiet s (set_isr v s).
Proof. by constructor. Qed.
Create HintDb hpet discriminated.
#[export] Hint Resolve quiet_put_tm quiet_set_irq quiet_stl quiet_set_isr : hpet.

Lemma quiet_update_irq i b s : quiet s (update_irq i b s).
Proof.
  unfold update_irq, qemu_irq_lower, qemu_irq_raise, qemu_irq_pulse.
  repeat case_match; repeat (etransitivity; [|apply quiet_set_irq]); eauto with hpet; reflexivity.
Qed.

Lemma quiet_set_timer n1 n2 i s : quiet s (hpet_set_timer n1 n2 i s).
Proof. apply quiet_put_tm. Qed.

Lemma quiet_del_timer i s : quiet s (hpet_del_timer i s).
Proof. etransitivity; [apply quiet_put_tm|apply quiet_update_irq]. Qed.
#[export] Hint Resolve quiet_update_irq quiet_set_timer quiet_del_timer : hpet.

Lemma for_timers_rel (R : HPETState -> HPETState -> Prop) `{!PreOrder R} n f s :
  (forall i s, 0 <= i < n -> R s (f i s)) -> R s (for_timers n f s).
Proof.
  intros H. unfold for_timers.
  assert (F : Forall (fun i => 0 <= i < n) (seqZ 0 n)).
  { apply List.Forall_forall. intros i Hi. apply list_elem_of_In, elem_of_seqZ in Hi. lia. }
  revert s. induction F as [|i l Hi F IH]; intros s; cbn [foldl]; [reflexivity|].
  etransitivity; [by apply (H i)|apply IH].
Qed.

Lemma quiet_cmp_written clk i t s : quiet s (cmp_written clk i t s).
Proof.
  unfold cmp_written. case_match; [|apply quiet_put_tm].
  etransitivity; [apply quiet_put_tm|apply quiet_set_timer].
Qed.

Lemma quiet_write_tn_cfg clk i o n s : quiet s (write_tn_cfg clk i o n s).
Proof.
  unfold write_tn_cfg. set (s1 := if activating_bit o n HPET_TN_FSB_ENABLE then _ else _).
  transitivity s1; [unfold s1; case_match; eauto with hpet; reflexivity|].
  set (t := if truthy (n &. HPET_TN_32BIT) then _ else _).
  transitivity (put_tm i t s1); [apply quiet_put_tm|]. repeat case_match; eauto with hpet; reflexivity.
Qed.

Lemma quiet_write_tn clk i r o n s : quiet s (write_tn clk i r o n s).
Proof.
  unfold write_tn, write_tn_cmp, write_tn_cmp_high.
  repeat case_match; eauto using quiet_write_tn_cfg, quiet_cmp_written with hpet; reflexivity.
Qed.

Lemma quiet_write_status v s : quiet s (write_status v s).
Proof. apply (for_timers_rel quiet). intros. case_match; eauto with hpet; reflexivity. Qed.

Lemma quiet_timer fuel clk i s s' : hpet_timer fuel clk i s = Some s' -> quiet s s'.
Proof.
  unfold hpet_timer. intros H. apply bind_Some in H as (t' & _ & [= <-]).
  etransitivity; [apply quiet_put_tm|apply quiet_update_irq].
Qed.

(** ** The main counter *)

(** The counter a guest programs: halted at [c], or set to run from [c] at
    time [t0], a tick every 10 ns. *)
Inductive Counter :=
  | Halted (c : Z)
  | Running (c t0 : Z).

Definition value (a : Counter) (t : Z) : Z :=
  match a with
  | Halted c => c
  | Running c t0 => c + (t - t0) / 10
  end.

(** The code counts in nanoseconds modulo [2^64]: what it makes of the counter,
    and the times at which its nanoseconds fit. *)
Definition wrapped (a : Counter) (t : Z) : Z :=
  match a with
  | Halted c => c
  | Running c t0 => (10 * c + (t - t0)) mod 2 ^ 64 / 10
  end.

Definition fits (a : Counter) (t : Z) : Prop :=
  match a with
  | Halted _ => True
  | Running c t0 => 0 <= 10 * c + (t - t0) < 2 ^ 64
  end.

Lemma wrapped_fits a t : fits a t -> wrapped a t = value a t.
Proof.
  destruct a as [c|c t0]; cbn [fits wrapped value]; [done|]. intros H. rewrite Z.mod_small by lia.
  replace (10 * c + (t - t0)) with (c * 10 + (t - t0)) by ring. by rewrite Z.div_add_l by lia.
Qed.

(** A write at time [t]: the enable bit starts and halts the counter, and its
    two halves are only written while it is halted. *)
Definition counter_write (t addr v : Z) (a : Counter) : Counter :=
  if addr =? HPET_CFG then
    match a, Z.testbit v 0 with
    | Halted c, true => Running c t
    | Running _ _, false => Halted (value a t)
    | _, _ => a
    end
  else match a with
  | Halted c =>
      if addr =? HPET_COUNTER then Halted (c / 2 ^ 32 * 2 ^ 32 + v)
      else if addr =? HPET_COUNTER + 4 then Halted (v * 2 ^ 32 + c mod 2 ^ 32)
      else a
  | Running _ _ => a
  end.

(** Any sequence of resets, guest writes, timer callbacks and levels of the
    clock's line, and the counter the guest has programmed with it.  A counter
    is halted while its nanoseconds fit. *)
Inductive counted : HPETState -> I8254.PITState -> Counter -> Prop :=
  | counted_reset now mmio calls s0 pit0 fw0 s pit fw n :
      hpet_reset now mmio calls s0 pit0 fw0 = Some (s, pit, fw, n) -> counted s pit (Halted 0)
  | counted_write clk addr v s pit a s' pit' :
      counted s pit a -> is_u32 v ->
      (addr = HPET_CFG -> Z.testbit v 0 = false -> fits a (clk 1%nat)) ->
      hpet_ram_writel clk s pit addr v = Some (s', pit') ->
      counted s' pit' (counter_write (clk 1%nat) addr v a)
  | counted_fire fuel clk i s pit a s' :
      counted s pit a -> hpet_timer fuel clk i s = Some s' -> counted s' pit a
  | counted_rtc level s pit a :
      counted s pit a -> counted (hpet_handle_rtc_irq level s) pit a.

(** What the registers keep of it. *)
Definition counts (s : HPETState) (a : Counter) : Prop :=
  is_u64 (hpet_counter s) /\
  match a with
  | Halted c => Z.testbit (config s) 0 = false /\ hpet_counter s = c
  | Running c t0 => Z.testbit (config s) 0 = true /\ hpet_offset s = u64 (10 * c - t0)
  end.

Lemma counts_quiet s s' a : quiet s s' -> counts s a -> counts s' a.
Proof. intros Q. unfold counts. by rewrite (q_counter _ _ Q), (q_config _ _ Q), (q_offset _ _ Q). Qed.

Lemma counts_value s a now : counts s a -> counter_now now s = wrapped a now.
Proof.
  intros [_ H]. unfold counter_now. rewrite enabled_bit. destruct a as [c|c t0]; destruct H as [-> H].
  - done.
  - rewrite get_ticks_eq, H. cbn [wrapped]. unfold wrap. rewrite Zplus_mod_idemp_r. do 2 f_equal. ring.
Qed.

Lemma low_half v : v &. LOW = v mod 2 ^ 32.
Proof. apply (Z.land_ones v 32). lia. Qed.

Lemma high_half v : is_u64 v -> v &. HIGH = (v / 2 ^ 32) <<. 32.
Proof.
  intros Hv. rewrite <- Z.shiftr_div_pow2 by lia. apply Z.bits_inj'. intros k Hk.
  autorewrite with cbits. destruct (Z.lt_ge_cases k 64).
  - replace (Z.testbit HIGH k) with (32 <=? k).
    + destruct (Z.leb_spec 32 k); [rewrite Z.shiftr_spec by lia|rewrite (Z.testbit_neg_r _ (k - 32)) by lia].
      * rewrite andb_true_r. f_equal. lia.
      * apply andb_false_r.
    + apply eqb_prop. apply (below_spec 64 (fun k => eqb (32 <=? k) (Z.testbit HIGH k))); [by vm_compute|lia].
  - rewrite (testbit_uint 64 v), Z.shiftr_spec, (testbit_uint 64 v) by (done || lia). done.
Qed.

(** Writing the low or the high half of a register. *)
Lemma write_low x v : is_u64 x -> is_u32 v -> (x &. HIGH) |. v = x / 2 ^ 32 * 2 ^ 32 + v.
Proof. intros Hx Hv. rewrite high_half by done. apply shiftl_lor_add; [lia|done]. Qed.

Lemma write_high x v : (x &. LOW) |. (v <<. 32) = v * 2 ^ 32 + x mod 2 ^ 32.
Proof.
  rewrite low_half, Z.lor_comm. apply shiftl_lor_add; [lia|]. apply (wrap_range 32). lia.
Qed.

Lemma quiet_start clk s : quiet (set_hpet_offset (u64 (ticks_to_ns (hpet_counter s) - clk 1%nat)) s) (start_counter clk s).
Proof. apply (for_timers_rel quiet). intros. case_match; eauto with hpet; reflexivity. Qed.

Lemma quiet_halt clk s : quiet (set_hpet_counter (hpet_get_ticks (clk 1%nat) s) s) (halt_counter clk s).
Proof. apply (for_timers_rel quiet). eauto with hpet. Qed.

(** The configuration register after a write, and what follows it but for
    the interval timer. *)
Definition cfg_switched (clk : nat -> Z) (new : Z) (s : HPETState) : HPETState :=
  let old := u32 (config s) in
  let s := set_config ((config s &. HIGH) |. hpet_fixup_reg new old HPET_CFG_WRITE_MASK) s in
  if activating_bit old new HPET_CFG_ENABLE then start_counter clk s
  else if deactivating_bit old new HPET_CFG_ENABLE then halt_counter clk s
  else s.

Lemma write_cfg_quiet clk new s pit s' pit' :
  write_cfg clk (u32 (config s)) new s pit = Some (s', pit') -> quiet (cfg_switched clk new s) s'.
Proof.
  unfold write_cfg. fold (cfg_switched clk new s). cbv zeta. intros H.
  case_match; [|case_match].
  - apply bind_Some in H as (p & _ & [= <- <-]). apply quiet_set_irq.
  - apply bind_Some in H as (p & _ & [= <- <-]). apply quiet_set_irq.
  - injection H as <- <-. reflexivity.
Qed.

Lemma cfg_switched_counts clk new s a : counts s a -> (Z.testbit new 0 = false -> fits a (clk 1%nat)) ->
  counts (cfg_switched clk new s) (counter_write (clk 1%nat) HPET_CFG new a).
Proof.
  intros H Hf. pose proof (counts_value s a (clk 1%nat) H) as V. destruct H as [Hc H].
  unfold cfg_switched. rewrite (activating _ _ 0), (deactivating _ _ 0) by done.
  rewrite wrap_testbit by lia. unfold counter_write. rewrite Z.eqb_refl.
  set (s1 := set_config _ s).
  assert (B : Z.testbit (config s1) 0 = Z.testbit new 0) by (by apply (fixup_bit HPET_CFG_WRITE_MASK)).
  destruct a as [c|c t0]; destruct H as [E H]; rewrite E; destruct (Z.testbit new 0) eqn:En; cbn [negb andb].
  - eapply counts_quiet; [apply quiet_start|]. split; [done|]. split; [done|]. cbn -[wrap].
    rewrite ticks_to_ns_eq by done. rewrite H. unfold wrap. by rewrite Zminus_mod_idemp_l.
  - by split.
  - by split.
  - eapply counts_quiet; [apply quiet_halt|]. split; [apply get_ticks_range|]. split; [done|].
    cbn -[value]. rewrite <- (wrapped_fits _ _ (Hf eq_refl)), <- V. unfold counter_now. by rewrite enabled_bit, E.
Qed.

Lemma writel_counts clk s pit addr v s' pit' a : counts s a -> is_u32 v ->
  (addr = HPET_CFG -> Z.testbit v 0 = false -> fits a (clk 1%nat)) ->
  hpet_ram_writel clk s pit addr v = Some (s', pit') ->
  counts s' (counter_write (clk 1%nat) addr v a).
Proof.
  intros H Hv Hf E. unfold hpet_ram_writel in E. destruct (is_tn_reg addr) eqn:R.
  - replace (counter_write (clk 1%nat) addr v a) with a.
    + case_match; simplify_eq; [done|]. eapply counts_quiet; [apply quiet_write_tn|done].
    + unfold is_tn_reg in R. unfold counter_write, HPET_CFG, HPET_COUNTER. destruct a; zcases; done.
  - unfold hpet_ram_readl in E. rewrite R in E. unfold counter_write.
    destruct (Z.eqb_spec addr HPET_CFG) as [->|N].
    { cbn -[write_cfg wrap] in E. apply write_cfg_quiet in E. eapply counts_quiet; [done|].
      apply cfg_switched_counts; [done|by apply Hf]. }
    assert (A : forall c t, a = Running c t -> counts (set_hpet_counter (Z.land 0 0) s) a).
    { intros c t ->. destruct H as [_ H]. split; [by apply is_uint_0|done]. }
    repeat (case_match; simplify_eq; try done).
    all: eauto using counts_quiet, quiet_write_status.
    all: try (rewrite Z.eqb_eq in *; unfold HPET_STATUS, HPET_COUNTER, HPET_ID, HPET_CFG in *; lia).
    all: destruct H as [Hc H]; split; cbn; rewrite ?write_low, ?write_high by done; try done.
    all: unfold is_uint in *; try dlia. all: destruct H as [H <-]; split; done.
Qed.

Lemma counted_counts s pit a : counted s pit a -> counts s a.
Proof.
  induction 1 as [now mmio calls s0 pit0 fw0 s pit fw n E|clk addr v s pit a s' pit' _ IH Hv Hf E
                 |fuel clk i s pit a s' _ IH E|level s pit a _ IH].
  - unfold hpet_reset in E. apply bind_Some in E as (p & _ & [= <- <- <- <-]).
    split; [by apply is_uint_0|]. split; [apply Z.bits_0|done].
  - by eapply writel_counts.
  - eapply counts_quiet; [by eapply quiet_timer|done].
  - unfold hpet_handle_rtc_irq. case_match; apply IH.
Qed.

(** C18: The main counter is the counter that the guest programs: through any
    sequence of resets, register writes, timer callbacks and levels of the
    clock's line its two halves read, at any time, the value at which it was
    halted, or the value it was started with and one more for every 10 ns since
    then, as long as ten times the value and the elapsed nanoseconds are below
    [2^64].  From there on, so also for a counter that is started above
    [2^64 / 10], it reads the tenth of that sum modulo [2^64] instead. *)
Theorem hpet_main_counter s pit a now :
  counted s pit a ->
  (fits a now ->
     hpet_ram_readl now s HPET_COUNTER = value a now mod 2 ^ 32 /\
     hpet_ram_readl now s (HPET_COUNTER + 4) = value a now / 2 ^ 32) /\
  (forall c t0, a = Running c t0 ->
     let ticks := (10 * c + (now - t0)) mod 2 ^ 64 / 10 in
     hpet_ram_readl now s HPET_COUNTER = ticks mod 2 ^ 32 /\
     hpet_ram_readl now s (HPET_COUNTER + 4) = ticks / 2 ^ 32).
Proof.
  intros H. apply counted_counts in H. pose proof (counts_value _ _ now H) as V.
  assert (R : is_u64 (wrapped a now)).
  { destruct H as [Hc H]. destruct a as [c|c t0]; [by destruct H as [_ <-]|].
    cbn [wrapped]. unfold is_uint. dlia. }
  assert (G : hpet_ram_readl now s HPET_COUNTER = wrapped a now mod 2 ^ 32 /\
              hpet_ram_readl now s (HPET_COUNTER + 4) = wrapped a now / 2 ^ 32).
  { split; [change (u32 (counter_now now s) = wrapped a now mod 2 ^ 32); by rewrite V|].
    change (u32 (counter_now now s >>. 32) = wrapped a now / 2 ^ 32).
    rewrite V, Z.shiftr_div_pow2 by lia. apply wrap_small. unfold is_uint in *. dlia. }
  split; [intros F; by rewrite <- (wrapped_fits a now F)|]. by intros c t0 ->.
Qed.

(** ** The registers in every reachable state *)

Lemma tm_put_eq i t s : 0 <= i < Z.of_nat (length (timer s)) -> tm (put_tm i t s) i = t.
Proof. intros. unfold tm, put_tm. apply nth_lookup_Some, list_lookup_insert_eq. lia. Qed.

Lemma tm_put_ne i j t s : 0 <= i -> 0 <= j -> i <> j -> tm (put_tm i t s) j = tm s j.
Proof. intros. unfold tm, put_tm. cbn. by rewrite !nth_lookup, list_lookup_insert_ne by lia. Qed.

Lemma tm_update_irq i b s j : tm (update_irq i b s) j = tm s j.
Proof. unfold update_irq, qemu_irq_lower, qemu_irq_raise, qemu_irq_pulse. by repeat case_match. Qed.

Lemma bit_mask_bit i k : 0 <= i < 32 -> 0 <= k < 32 -> Z.testbit (bit_mask i) k = (i =? k).
Proof.
  intros Hi Hk. apply eqb_prop.
  apply (below_spec 32 (fun k => eqb (Z.testbit (bit_mask i) k) (i =? k))); [|lia].
  apply (below_spec 32 (fun i => below 32 (fun k => eqb (Z.testbit (bit_mask i) k) (i =? k)))); [|lia].
  by vm_compute.
Qed.

Lemma is_u64_bit_mask i : is_u64 (bit_mask i).
Proof. apply wrap_range. lia. Qed.

(** The status bits after [update_irq]. *)
Lemma update_irq_status i b s k : 0 <= tn (tm s i) < 32 -> 0 <= k < 32 ->
  Z.testbit (isr (update_irq i b s)) k =
  if tn (tm s i) =? k then
    if b && Z.testbit (t_config (tm s i)) 2 && Z.testbit (config s) 0 then
      if Z.testbit (t_config (tm s i)) 14 then Z.testbit (isr s) k
      else Z.testbit (t_config (tm s i)) 1
    else false
  else Z.testbit (isr s) k.
Proof.
  intros Ht Hk. unfold update_irq.
  rewrite timer_enabled_bit, enabled_bit, fsb_bit, (flag_bit _ 1) by done.
  set (t := tm s i) in *. pose proof (bit_mask_bit (tn t) k Ht Hk) as M.
  destruct b, (Z.testbit (t_config t) 2), (Z.testbit (config s) 0), (Z.testbit (t_config t) 14),
    (Z.testbit (t_config t) 1); cbn [negb orb andb isr set_isr set_irqs qemu_irq_lower qemu_irq_raise
      qemu_irq_pulse qemu_set_irq stl_phys];
    rewrite ?Z.land_spec, ?Z.lor_spec, ?Z.lnot_spec, ?M by lia; destruct (tn t =? k); cbn; try btauto.
Qed.

Lemma update_irq_u64 i b s : is_u64 (isr s) -> is_u64 (isr (update_irq i b s)).
Proof.
  intros. unfold update_irq. pose proof (is_u64_bit_mask (tn (tm s i))).
  repeat case_match; cbn; eauto with cint.
Qed.

(** The capabilities a timer announces: the bits of its configuration that
    the guest cannot write. *)
Definition caps (fl : Z) : Z :=
  HPET_TN_PERIODIC_CAP |. HPET_TN_SIZE_CAP |. (if Z.testbit fl 0 then HPET_TN_FSB_CAP else 0)
    |. (0x00000004 <<. 32).

(** The identification register of a device with [n] timers. *)
Definition capability_of (n : Z) : Z :=
  0x8086a001 |. ((n - 1) <<. HPET_ID_NUM_TIM_SHIFT) |. (HPET_CLK_PERIOD <<. 32).

Record timer_ok (i : Z) (t : HPETTimer) : Prop := {
  t_tn : tn t = i;
  t_config_ok : is_u64 (t_config t);
  t_cmp_ok : is_u64 (cmp t);
  t_fsb_ok : is_u64 (fsb t);
  t_period_ok : is_u64 (period t);
  t_wrap_ok : is_uint 1 (wrap_flag t)
}.

(** A pending status bit belongs to a timer that may interrupt. *)
Definition status_ok (i : Z) (s : HPETState) : Prop :=
  Z.testbit (isr s) i = true ->
  Z.testbit (config s) 0 = true /\ Z.testbit (t_config (tm s i)) 2 = true /\
  Z.testbit (t_config (tm s i)) 14 = false.

Definition caps_ok (i : Z) (s : HPETState) : Prop :=
  t_config (tm s i) &. ~. HPET_TN_CFG_WRITE_MASK = caps (flags s).

(** The device is in order, for the status and the capabilities of the timers
    in [P]. *)
Record ok_on (P : Z -> Prop) (s : HPETState) : Prop := {
  ok_length : length (timer s) = 32%nat;
  ok_num : 3 <= num_timers s <= 32;
  ok_config : is_uint 2 (config s);
  ok_isr : is_u64 (isr s);
  ok_counter : is_u64 (hpet_counter s);
  ok_offset : is_u64 (hpet_offset s);
  ok_capability : capability s = capability_of (num_timers s);
  ok_timer i : 0 <= i < 32 -> timer_ok i (tm s i);
  ok_some i : P i -> 0 <= i < num_timers s -> status_ok i s /\ caps_ok i s
}.
Abbreviation ok := (ok_on (fun _ => True)).

Lemma ok_mono (P Q : Z -> Prop) s :
  (forall i, 0 <= i < num_timers s -> Q i -> P i) -> ok_on P s -> ok_on Q s.
Proof. intros H O. split; try apply O. intros. apply (ok_some P s O); auto. Qed.

Lemma ok_tn P s i : ok_on P s -> 0 <= i < 32 -> tn (tm s i) = i.
Proof. intros O Hi. apply (ok_timer P s O i Hi). Qed.

(** Replacing a timer by one with the same configuration. *)
Lemma ok_put P i t s : ok_on P s -> 0 <= i < 32 -> timer_ok i t ->
  (P i -> i < num_timers s -> status_ok i (put_tm i t s) /\ caps_ok i (put_tm i t s)) ->
  ok_on P (put_tm i t s).
Proof.
  intros O Hi Ht H. pose proof (ok_length P s O) as L. split; try apply O.
  - cbn. rewrite length_insert. apply L.
  - intros j Hj. destruct (decide (i = j)) as [<-|N].
    + by rewrite tm_put_eq by lia.
    + rewrite tm_put_ne by lia. by apply (ok_timer P).
  - intros j Pj Hj. cbn in Hj. destruct (decide (i = j)) as [<-|N]; [apply H; [done|lia]|].
    unfold status_ok, caps_ok. rewrite tm_put_ne by lia. exact (ok_some P s O j Pj Hj).
Qed.

Lemma ok_put_same P i t s : ok_on P s -> 0 <= i < 32 -> timer_ok i t ->
  t_config t = t_config (tm s i) -> ok_on P (put_tm i t s).
Proof.
  intros O Hi Ht E. apply ok_put; try done. intros Pi Hn.
  unfold status_ok, caps_ok. rewrite tm_put_eq by (rewrite (ok_length P s O); lia).
  rewrite E. by apply (ok_some P s O); [|lia].
Qed.

Lemma ok_update_irq P i b s : ok_on P s -> 0 <= i < 32 -> ok_on P (update_irq i b s).
Proof.
  intros O Hi. pose proof (quiet_update_irq i b s) as [].
  assert (T : tn (tm s i) = i) by (by apply (ok_tn P)).
  split; rewrite ?q_offset0, ?q_num0, ?q_length0, ?q_capability0, ?q_config0, ?q_counter0; try apply O.
  - apply update_irq_u64, O.
  - intros j Hj. rewrite tm_update_irq. by apply (ok_timer P).
  - intros j Pj Hj. unfold status_ok, caps_ok. rewrite tm_update_irq, q_config0, q_flags0.
    pose proof (ok_num P s O). rewrite update_irq_status, T by (rewrite ?T; lia).
    destruct (ok_some P s O j Pj Hj) as [Hs Hc]. split; [|done].
    destruct (Z.eqb_spec i j) as [<-|]; [|done]. revert Hs. unfold status_ok.
    destruct b, (Z.testbit (t_config (tm s i)) 2), (Z.testbit (config s) 0), (Z.testbit (t_config (tm s i)) 14);
      cbn; intuition congruence.
Qed.

Lemma ok_irqs P v s : ok_on P s -> ok_on P (set_irqs v s).
Proof. intros O. split; apply O. Qed.
Lemma ok_rtc P v s : ok_on P s -> ok_on P (set_rtc_irq_level v s).
Proof. intros O. split; apply O. Qed.

(** Clearing [i] makes its status right. *)
Lemma ok_clear_irq (P : Z -> Prop) i s : ok_on P s -> 0 <= i < 32 ->
  Z.testbit (isr (update_irq i false s)) i = false.
Proof.
  intros O Hi. rewrite update_irq_status by (rewrite ?(ok_tn P s i O Hi); lia).
  by rewrite (ok_tn P s i O Hi), Z.eqb_refl.
Qed.

Lemma timer_ok_arm i now d t : timer_ok i t -> timer_ok i (arm now d t).
Proof. by intros []. Qed.
Lemma timer_ok_flag i v t : is_uint 1 v -> timer_ok i t -> timer_ok i (set_wrap_flag v t).
Proof. intros ? []. by split. Qed.
Lemma timer_ok_stop i v t : timer_ok i t -> timer_ok i (set_qemu_timer v t).
Proof. by intros []. Qed.
Lemma timer_ok_cmp i v t : is_u64 v -> timer_ok i t -> timer_ok i (set_cmp v t).
Proof. intros ? []. by split. Qed.
Lemma timer_ok_period i v t : is_u64 v -> timer_ok i t -> timer_ok i (set_period v t).
Proof. intros ? []. by split. Qed.
Lemma timer_ok_fsb i v t : is_u64 v -> timer_ok i t -> timer_ok i (set_fsb v t).
Proof. intros ? []. by split. Qed.
Lemma timer_ok_config i v t : is_u64 v -> timer_ok i t -> timer_ok i (set_t_config v t).
Proof. intros ? []. by split. Qed.
Lemma is_uint_1_01 : is_uint 1 0 /\ is_uint 1 1.
Proof. unfold is_uint. lia. Qed.
#[export] Hint Resolve timer_ok_arm timer_ok_stop timer_ok_cmp timer_ok_period timer_ok_fsb timer_ok_config
  ok_update_irq ok_irqs ok_rtc : hpet.
#[export] Hint Extern 2 (timer_ok _ (set_wrap_flag _ _)) => apply timer_ok_flag; [apply is_uint_1_01|] : hpet.
#[export] Hint Extern 2 (timer_ok _ (tm _ _)) => eapply ok_timer; [eassumption|lia] : hpet.

Lemma ok_set_timer P n1 n2 i s : ok_on P s -> 0 <= i < 32 -> ok_on P (hpet_set_timer n1 n2 i s).
Proof.
  intros O Hi. unfold hpet_set_timer. case_match; apply ok_put_same; eauto with hpet.
Qed.

Lemma del_timer_tm i s : 0 <= i < Z.of_nat (length (timer s)) ->
  tm (hpet_del_timer i s) i = set_qemu_timer None (tm s i).
Proof. intros. unfold hpet_del_timer. by rewrite tm_update_irq, tm_put_eq. Qed.

Lemma ok_del_timer P i s : ok_on P s -> 0 <= i < 32 ->
  ok_on P (hpet_del_timer i s) /\ Z.testbit (isr (hpet_del_timer i s)) i = false.
Proof.
  intros O Hi. unfold hpet_del_timer. set (t := set_qemu_timer None (tm s i)).
  assert (O' : ok_on P (put_tm i t s)) by (unfold t; apply ok_put_same; eauto with hpet).
  split; [by apply ok_update_irq|by eapply ok_clear_irq].
Qed.

(** Loops over the timers. *)
Lemma for_timers_inv (I : Z -> HPETState -> Prop) n f s : 0 <= n ->
  I 0 s -> (forall i s, 0 <= i < n -> I i s -> I (i + 1) (f i s)) -> I n (for_timers n f s).
Proof.
  intros Hn H0 Hs. unfold for_timers.
  assert (G : forall k : nat, Z.of_nat k <= n -> I (Z.of_nat k) (foldl (fun s i => f i s) s (seqZ 0 (Z.of_nat k)))).
  { induction k as [|k IH]; intros Hk; [done|].
    replace (Z.of_nat (S k)) with (Z.of_nat k + 1) by lia.
    rewrite seqZ_app, foldl_app by lia. rewrite (seqZ_cons (0 + Z.of_nat k)) by lia. cbn [foldl].
    apply Hs; [lia|]. apply IH. lia. }
  specialize (G (Z.to_nat n)). rewrite Z2Nat.id in G by lia. apply G. lia.
Qed.

Lemma ok_for_timers P n f s : 0 <= n -> ok_on P s ->
  (forall i s, 0 <= i < n -> ok_on P s -> ok_on P (f i s)) -> ok_on P (for_timers n f s).
Proof. intros Hn O H. by apply (for_timers_inv (fun _ => ok_on P)). Qed.

(** *** Writes to a timer *)

Lemma cfg_write_u64 old new m : is_u64 old -> is_u32 new -> is_u64 ((old &. HIGH) |. hpet_fixup_reg new (u32 old) m).
Proof.
  intros Ho Hn. unfold hpet_fixup_reg.
  assert (is_u64 new) by (eapply (is_uint_mono 32); [lia|done]).
  assert (is_u64 (u32 old)) by (eapply (is_uint_mono 32); [lia|apply wrap_range; lia]).
  eauto 6 with cint.
Qed.

(** The bits outside of the mask survive. *)
Lemma cfg_write_caps old new : is_u64 old -> is_u32 new ->
  ((old &. HIGH) |. hpet_fixup_reg new (u32 old) HPET_TN_CFG_WRITE_MASK) &. ~. HPET_TN_CFG_WRITE_MASK
    = old &. ~. HPET_TN_CFG_WRITE_MASK.
Proof.
  intros Ho Hn. apply Z.bits_inj'. intros k Hk. rewrite !(Z.land_spec _ (~. _)), !Z.lnot_spec by lia.
  destruct (Z.testbit HPET_TN_CFG_WRITE_MASK k) eqn:M; [by rewrite !andb_false_r|]. rewrite !andb_true_r.
  destruct (Z.lt_ge_cases k 32); [rewrite fixup_bit by lia; by rewrite M|].
  unfold hpet_fixup_reg. autorewrite with cbits. rewrite M.
  rewrite (testbit_uint 32 (u32 old)) by (apply wrap_range || lia; lia).
  rewrite (testbit_uint 32 new) by (done || lia). cbn [andb]. rewrite !orb_false_r.
  destruct (Z.lt_ge_cases k 64); [|by rewrite (testbit_uint 64 old) by (done || lia)].
  replace (Z.testbit HIGH k) with true; [by rewrite andb_true_r|]. symmetry. apply eqb_prop.
  pose proof (below_spec 64 (fun k => eqb (Z.testbit HIGH k) (32 <=? k)) k ltac:(by vm_compute) ltac:(lia)) as B.
  apply eqb_prop in B. rewrite B. by destruct (Z.leb_spec 32 k); [|lia].
Qed.

Lemma ok_write_tn_cfg P clk i new s : ok_on P s -> 0 <= i < 32 -> is_u32 new ->
  ok_on P (write_tn_cfg clk i (u32 (t_config (tm s i))) new s).
Proof.
  intros O Hi Hn. unfold write_tn_cfg. set (c := t_config (tm s i)).
  rewrite (activating _ _ 14 HPET_TN_FSB_ENABLE), (activating _ _ 2 HPET_TN_ENABLE),
    (deactivating _ _ 2 HPET_TN_ENABLE) by done.
  rewrite !wrap_testbit by lia. set (s1 := if negb (Z.testbit c 14) && _ then _ else s).
  assert (O1 : ok_on P s1 /\ tm s1 i = tm s i /\ num_timers s1 = num_timers s /\
    (Z.testbit c 14 = false -> Z.testbit new 14 = true -> Z.testbit (isr s1) i = false)).
  { unfold s1. destruct (Z.testbit c 14), (Z.testbit new 14); cbn [negb andb]; try done.
    split; [by apply ok_update_irq|]. split; [apply tm_update_irq|].
    split; [apply quiet_update_irq|]. intros _ _. by eapply ok_clear_irq. }
  destruct O1 as (O1 & T1 & N1 & F1). clearbody s1. rewrite T1. fold c.
  set (c' := (c &. HIGH) |. _).
  set (t := if truthy (new &. HPET_TN_32BIT) then _ else _).
  assert (Hc : is_u64 c) by apply (ok_timer P s O i Hi).
  assert (Et : t_config t = c') by (unfold t; by case_match).
  assert (Ht : timer_ok i t).
  { assert (is_u64 c') by (by apply cfg_write_u64). unfold t.
    assert (W : forall z, is_u64 (u32 z)) by (intros; eapply (is_uint_mono 32); [lia|apply wrap_range; lia]).
    case_match; eauto 6 with hpet. }
  assert (B : forall k, 0 <= k < 32 -> Z.testbit c' k = if Z.testbit HPET_TN_CFG_WRITE_MASK k then Z.testbit new k else Z.testbit c k)
    by (intros; by apply fixup_bit).
  assert (L : 0 <= i < Z.of_nat (length (timer s1))) by (rewrite (ok_length P s1 O1); lia).
  assert (C : P i -> i < num_timers s -> caps_ok i (put_tm i t s1)).
  { intros Pi Hi'. unfold caps_ok. rewrite tm_put_eq by done. rewrite Et. unfold c'.
    rewrite cfg_write_caps by done. destruct (ok_some P s1 O1 i Pi ltac:(lia)) as [_ E]. unfold caps_ok in E.
    rewrite T1 in E. exact E. }
  assert (E2 : Z.testbit (t_config t) 2 = Z.testbit new 2) by (rewrite Et; apply B; lia).
  assert (E14 : Z.testbit (t_config t) 14 = Z.testbit new 14) by (rewrite Et; apply B; lia).
  (* unless the timer is being disabled its status stays right *)
  assert (K : (Z.testbit c 2 = true -> Z.testbit new 2 = true) -> ok_on P (put_tm i t s1)).
  { intros H2. apply ok_put; try done. intros Pi Hi'. split; [|apply C; [done|lia]].
    intros Hs. rewrite tm_put_eq by done. rewrite E2, E14. change (Z.testbit (isr s1) i = true) in Hs.
    destruct (ok_some P s1 O1 i Pi ltac:(lia)) as [S1 _]. specialize (S1 Hs). rewrite T1 in S1.
    destruct S1 as (S0 & S2 & S14). split; [exact S0|]. split; [by apply H2|].
    destruct (Z.testbit new 14) eqn:N14; [|done]. rewrite F1 in Hs by done. done. }
  destruct (Z.testbit c 2) eqn:C2, (Z.testbit new 2) eqn:N2; cbn [negb andb].
  - by apply K.
  - (* the timer is stopped and its status cleared *)
    assert (O2 : ok_on (fun j => P j /\ j <> i) (put_tm i t s1)).
    { apply ok_put; try done; [|by intros []]. eapply ok_mono; [|exact O1]. by intros j _ []. }
    destruct (ok_del_timer _ i _ O2 Hi) as [O3 Z3]. split; try apply O3. intros j Pj Hj.
    destruct (decide (j = i)) as [->|N]; [|by apply (ok_some _ _ O3)]. split.
    + intros Hs. by rewrite Z3 in Hs.
    + unfold caps_ok. rewrite del_timer_tm, tm_put_eq by (rewrite ?length_insert; cbn; rewrite ?length_insert; done).
      specialize (C Pj). unfold caps_ok in C. rewrite tm_put_eq in C by done.
      destruct (quiet_del_timer i (put_tm i t s1)). rewrite q_num0 in Hj. cbn in Hj.
      rewrite q_flags0. apply C. lia.
  - apply ok_set_timer; [by apply K|done].
  - by apply K.
Qed.

Lemma ok_cmp_written P clk i t s : ok_on P s -> 0 <= i < 32 -> timer_ok i t ->
  t_config t = t_config (tm s i) -> ok_on P (cmp_written clk i t s).
Proof.
  intros O Hi Ht E. unfold cmp_written. set (t' := set_t_config _ t).
  assert (L : 0 <= i < Z.of_nat (length (timer s))) by (rewrite (ok_length P s O); lia).
  assert (O' : ok_on P (put_tm i t' s)).
  { apply ok_put; try done.
    - apply timer_ok_config; [|done]. apply is_uint_land_l; [apply Ht|lia].
    - intros Pi Hn. destruct (ok_some P s O i Pi ltac:(lia)) as [S C]. split.
      + intros Hs. rewrite tm_put_eq by done. cbn [t' t_config set_t_config].
        rewrite E, !Z.land_spec.
        change (Z.testbit (~. HPET_TN_SETVAL) 2) with true. change (Z.testbit (~. HPET_TN_SETVAL) 14) with true. rewrite !andb_true_r. exact (S Hs).
      + unfold caps_ok. rewrite tm_put_eq by done. cbn [t' t_config set_t_config]. rewrite E, <- Z.land_assoc.
        exact C. }
  case_match; [by apply ok_set_timer|done].
Qed.

Lemma half_writes x v : is_u64 x -> is_u32 v ->
  is_u64 ((x &. HIGH) |. v) /\ is_u64 ((x &. LOW) |. u64 (v <<. 32)) /\ is_u64 (u64 (v <<. 32) |. (x &. LOW)).
Proof.
  intros Hx Hv. assert (is_u64 v) by (eapply (is_uint_mono 32); [lia|done]).
  assert (is_u64 (u64 (v <<. 32))) by (apply wrap_range; lia). auto 8 with cint.
Qed.

Lemma ok_write_tn P clk i r new s : ok_on P s -> 0 <= i < 32 -> is_u32 new ->
  ok_on P (write_tn clk i r (read_tn (tm s i) r) new s).
Proof.
  intros O Hi Hn. pose proof (ok_timer P s O i Hi) as Ht. unfold write_tn.
  assert (W : forall x, is_u64 x -> is_u64 ((x &. HIGH) |. new)) by (intros; by apply half_writes).
  assert (M : is_u32 (new &. period_mask (tm s i))) by (apply is_uint_land_l; [done|lia]).
  destruct (Z.eqb_spec r HPET_TN_CFG) as [->|].
  { by apply ok_write_tn_cfg. }
  case_match; [done|]. case_match; [|case_match; [|case_match; [|case_match; [|done]]]].
  - unfold write_tn_cmp. rewrite (wrap_small 32 new) by done.
    replace (if truthy _ then new else new) with new by (by case_match).
    set (t1 := if negb _ || _ then _ else _).
    assert (T1 : timer_ok i t1 /\ t_config t1 = t_config (tm s i) /\ period t1 = period (tm s i)).
    { unfold t1. case_match; [|done]. split; [|done]. apply timer_ok_cmp; [apply W, Ht|done]. }
    destruct T1 as (T1 & C1 & P1). unfold period_mask. rewrite C1. fold (period_mask (tm s i)).
    apply ok_cmp_written; try done; case_match; try done.
    apply timer_ok_period; [|done]. rewrite P1. apply half_writes; [apply Ht|done].
  - unfold write_tn_cmp_high. apply ok_cmp_written; try done; case_match; try done.
    + apply timer_ok_cmp; [|done]. by apply half_writes; [apply Ht|].
    + apply timer_ok_period; [|done]. by apply half_writes; [apply Ht|].
  - apply ok_put_same; try done. apply timer_ok_fsb; [apply W, Ht|done].
  - apply ok_put_same; try done. apply timer_ok_fsb; [|done]. by apply half_writes; [apply Ht|].
Qed.

(** *** The other handlers *)

Lemma advance_u64 fuel cur p : forall c c', is_u64 c ->
  advance32 fuel cur p c = Some c' \/ advance64 fuel cur p c = Some c' -> is_u64 c'.
Proof.
  induction fuel as [|fuel IH]; intros c c' Hc H; [by destruct H|]. cbn [advance32 advance64] in H.
  destruct H as [H|H]; case_match; simplify_eq; try done.
  - eapply IH; [|by left]. eapply (is_uint_mono 32); [lia|apply wrap_range; lia].
  - eapply IH; [|by right]. apply wrap_range. lia.
Qed.

Lemma ok_hpet_timer P fuel clk i s s' : ok_on P s -> 0 <= i < 32 ->
  hpet_timer fuel clk i s = Some s' -> ok_on P s'.
Proof.
  intros O Hi H. unfold hpet_timer in H. apply bind_Some in H as (t' & Ht' & [= <-]).
  apply ok_update_irq; [|done]. pose proof (ok_timer P s O i Hi) as Ht.
  case_match.
  - apply bind_Some in Ht' as (c & Hc & [= <-]).
    assert (is_u64 c).
    { eapply advance_u64; [exact (t_cmp_ok _ _ Ht)|]. case_match; [left|right]; exact Hc. }
    apply ok_put_same; eauto 6 with hpet.
  - repeat case_match; simplify_eq; apply ok_put_same; eauto with hpet.
Qed.

Lemma ok_extend (P : Z -> Prop) i s : ok_on P s -> Z.testbit (isr s) i = false -> caps_ok i s ->
  ok_on (fun j => P j \/ j = i) s.
Proof.
  intros O Hi Hc. split; try apply O. intros j [Pj| ->] Hj; [by apply (ok_some P s O)|].
  split; [|done]. intros Hs. by rewrite Hi in Hs.
Qed.

Lemma del_timer_keeps P i s j : ok_on P s -> 0 <= i < 32 -> 0 <= j < 32 ->
  t_config (tm (hpet_del_timer i s) j) = t_config (tm s j) /\
  (Z.testbit (isr s) j = false -> Z.testbit (isr (hpet_del_timer i s)) j = false).
Proof.
  intros O Hi Hj. assert (L : 0 <= i < Z.of_nat (length (timer s))) by (rewrite (ok_length P s O); lia).
  unfold hpet_del_timer. rewrite tm_update_irq. split.
  - destruct (decide (i = j)) as [<-|]; [by rewrite tm_put_eq|by rewrite tm_put_ne by lia].
  - intros H. rewrite update_irq_status; rewrite ?tm_put_eq by done; cbn [tn set_qemu_timer]; try lia.
    + case_match; done.
    + by rewrite (ok_tn P s i O Hi).
Qed.

(** Stopping every timer clears every status bit. *)
Lemma ok_del_all s : ok_on (fun _ => False) s -> (forall j, 0 <= j < num_timers s -> caps_ok j s) ->
  ok (for_timers (num_timers s) hpet_del_timer s).
Proof.
  intros O C. pose proof (ok_num _ s O) as N. set (n := num_timers s) in *.
  assert (G : quiet s (for_timers n hpet_del_timer s) /\ ok_on (fun j => j < n) (for_timers n hpet_del_timer s) /\
    forall j, 0 <= j < n -> caps_ok j (for_timers n hpet_del_timer s)).
  { apply (for_timers_inv (fun i s' => quiet s s' /\ ok_on (fun j => j < i) s' /\ forall j, 0 <= j < n -> caps_ok j s'));
      [lia| |].
    - split; [reflexivity|]. split; [|done]. eapply ok_mono; [|exact O]. cbn. lia.
    - intros i s' Hi (Q & O' & C'). destruct (ok_del_timer _ i s' O' ltac:(lia)) as [O'' Z0].
      assert (C'' : forall j, 0 <= j < n -> caps_ok j (hpet_del_timer i s')).
      { intros j Hj. unfold caps_ok. destruct (del_timer_keeps _ i s' j O' ltac:(lia) ltac:(lia)) as [-> _].
        rewrite (q_flags _ _ (quiet_del_timer i s')). by apply C'. }
      split; [etransitivity; [exact Q|apply quiet_del_timer]|]. split; [|done].
      eapply ok_mono; [|apply (ok_extend _ i _ O'' Z0 (C'' i Hi))]. cbn. lia. }
  destruct G as (Q & O' & _). eapply ok_mono; [|exact O']. intros i Hi _. rewrite (q_num _ _ Q) in Hi. cbn. lia.
Qed.

Lemma cfg_value c new : is_uint 2 c -> (c &. HIGH) |. hpet_fixup_reg new (u32 c) HPET_CFG_WRITE_MASK = new &. 3.
Proof.
  intros H. unfold is_uint in H. unfold hpet_fixup_reg, HPET_CFG_WRITE_MASK.
  assert (E : c = 0 \/ c = 1 \/ c = 2 \/ c = 3) by lia.
  destruct E as [->|[->|[->| ->]]]; cbn -[Z.land Z.lor]; change (Z.land 0 _) with 0;
    rewrite ?Z.lor_0_l; apply Z.lor_0_r.
Qed.

Lemma ok_set_config P v s : ok_on P s -> is_uint 2 v ->
  (Z.testbit (config s) 0 = true -> Z.testbit v 0 = true) -> ok_on P (set_config v s).
Proof.
  intros O Hv H. split; try apply O; [done|]. intros i Pi Hi. destruct (ok_some P s O i Pi Hi) as [S C].
  split; [|exact C]. intros Hs. destruct (S Hs) as (S0 & S2). split; [by apply H|exact S2].
Qed.

Lemma ok_offset_set P v s : ok_on P s -> is_u64 v -> ok_on P (set_hpet_offset v s).
Proof. intros O Hv. split; try apply O. done. Qed.
Lemma ok_counter_set P v s : ok_on P s -> is_u64 v -> ok_on P (set_hpet_counter v s).
Proof. intros O Hv. split; try apply O. done. Qed.

Lemma ok_cfg_switched clk new s : ok s -> is_u32 new -> ok (cfg_switched clk new s).
Proof.
  intros O Hn. unfold cfg_switched. rewrite cfg_value by apply O.
  assert (H3 : is_uint 2 (new &. 3)) by (apply is_uint_land_r; [unfold is_uint|]; lia).
  assert (B : Z.testbit (new &. 3) 0 = Z.testbit new 0).
  { rewrite Z.land_spec. change (Z.testbit 3 0) with true. apply andb_true_r. }
  rewrite (activating _ _ 0), (deactivating _ _ 0) by done. rewrite wrap_testbit by lia.
  destruct (Z.testbit (config s) 0) eqn:E, (Z.testbit new 0) eqn:En; cbn [negb andb].
  - apply ok_set_config; [done..|]. by rewrite B.
  - unfold halt_counter. apply (ok_del_all (set_hpet_counter _ (set_config _ s))).
    + apply ok_counter_set; [|apply get_ticks_range].
      split; try apply O; [done|]. by intros i [].
    + intros j Hj. by apply (ok_some _ s O).
  - unfold start_counter.
    assert (O1 : ok (set_hpet_offset (u64 (ticks_to_ns (hpet_counter s) - clk 1%nat)) (set_config (new &. 3) s))).
    { apply ok_offset_set; [|apply wrap_range; lia]. apply ok_set_config; [done..|]. by rewrite E. }
    apply ok_for_timers; [pose proof (ok_num _ s O); cbn; lia|exact O1|].
    intros i s' Hi O'. pose proof (ok_num _ s O). cbn in Hi. case_match; [done|]. apply ok_set_timer; [done|lia].
  - apply ok_set_config; [done..|]. by rewrite E.
Qed.

Lemma ok_write_cfg clk new s pit s' pit' : ok s -> is_u32 new ->
  write_cfg clk (u32 (config s)) new s pit = Some (s', pit') -> ok s'.
Proof.
  intros O Hn. unfold write_cfg. fold (cfg_switched clk new s). cbv zeta.
  pose proof (ok_cfg_switched clk new s O Hn) as O'. intros H. case_match; [|case_match].
  - apply bind_Some in H as (p & _ & [= <- <-]). by apply ok_irqs.
  - apply bind_Some in H as (p & _ & [= <- <-]). by apply ok_irqs.
  - by injection H as <- <-.
Qed.

Lemma timer_id_range addr : is_tn_reg addr = true -> 0 <= timer_id addr < 24.
Proof.
  unfold is_tn_reg, timer_id. intros H. apply andb_true_iff in H as [H1 H2].
  rewrite Z.leb_le in H1, H2. rewrite wrap_small by (unfold is_uint; dlia). dlia.
Qed.

Lemma ok_writel clk s pit addr v s' pit' : ok s -> is_u32 v ->
  hpet_ram_writel clk s pit addr v = Some (s', pit') -> ok s'.
Proof.
  intros O Hv E. unfold hpet_ram_writel in E. unfold hpet_ram_readl in E.
  destruct (is_tn_reg addr) eqn:R.
  - apply timer_id_range in R. case_match; simplify_eq; [done|]. apply ok_write_tn; [done|lia|done].
  - case_match; simplify_eq; [done|]. destruct (Z.eqb_spec addr HPET_CFG) as [->|N].
    { cbn -[write_cfg wrap] in E. by eapply ok_write_cfg. }
    repeat (case_match; simplify_eq; try done).
    + apply ok_for_timers; [pose proof (ok_num _ s O); lia|done|].
      intros i s' Hi O'. pose proof (ok_num _ s O). case_match; [|done]. apply ok_update_irq; [done|lia].
    + apply ok_counter_set; [done|]. apply half_writes; [apply O|done].
    + apply ok_counter_set; [done|]. rewrite <- (wrap_small 64 (v <<. 32)); [apply half_writes; [apply O|done]|].
      rewrite Z.shiftl_mul_pow2 by lia. unfold is_uint in *. lia.
Qed.

(** *** Reset, initialisation and loading *)

Lemma reset_timer_ok (P : Z -> Prop) i s : ok_on P s -> 0 <= i < 32 -> ~ P i ->
  let s' := reset_timer i s in
  quiet s s' /\ ok_on (fun j => P j \/ j = i) s' /\ Z.testbit (isr s') i = false /\
  (forall j, 0 <= j < 32 -> Z.testbit (isr s) j = false -> Z.testbit (isr s') j = false).
Proof.
  intros O Hi NP. unfold reset_timer. destruct (ok_del_timer P i s O Hi) as [O1 Z1].
  pose proof (quiet_del_timer i s) as Q1. pose proof (fun j Hj => proj2 (del_timer_keeps P i s j O Hi Hj)) as K1.
  set (s1 := hpet_del_timer i s) in *. clearbody s1. cbv zeta.
  set (t1 := if truthy _ then _ else _). set (t := set_wrap_flag 0 _).
  assert (Ec : t_config t = caps (flags s1)).
  { unfold t, t1, caps. cbn [t_config set_wrap_flag set_period set_t_config].
    rewrite (flag_bit _ 0) by done. by destruct (Z.testbit (flags s1) 0). }
  assert (Ht : timer_ok i t).
  { assert (H2 : forall c, is_u64 c -> is_u64 (c |. (0x00000004 <<. 32))).
    { intros. apply is_uint_lor; [done| |lia]. by vm_compute. }
    assert (T : timer_ok i (set_t_config (HPET_TN_PERIODIC_CAP |. HPET_TN_SIZE_CAP) (set_cmp ALL (tm s1 i)))).
    { apply timer_ok_config; [by vm_compute|].
      apply timer_ok_cmp; [by vm_compute|]. by apply (ok_timer P). }
    assert (T1 : timer_ok i t1).
    { unfold t1. case_match; [|exact T]. apply timer_ok_config; [|exact T]. by vm_compute. }
    unfold t. apply timer_ok_flag; [apply is_uint_1_01|]. apply timer_ok_period; [by vm_compute|].
    apply timer_ok_config; [apply H2, T1|exact T1]. }
  assert (L : 0 <= i < Z.of_nat (length (timer s1))) by (rewrite (ok_length P s1 O1); lia).
  assert (O2 : ok_on P (put_tm i t s1)) by (by apply ok_put).
  split; [etransitivity; [exact Q1|apply quiet_put_tm]|]. split; [|split; [exact Z1|exact K1]].
  apply ok_extend; [done|exact Z1|]. unfold caps_ok. rewrite tm_put_eq by done. rewrite Ec. cbn [flags put_tm set_timer].
  unfold caps. by destruct (Z.testbit (flags s1) 0).
Qed.

Lemma ok_reset now mmio calls s pit fw s' pit' fw' n : ok_on (fun _ => False) s ->
  hpet_reset now mmio calls s pit fw = Some (s', pit', fw', n) -> ok s'.
Proof.
  intros O H. unfold hpet_reset in H. apply bind_Some in H as (p & _ & [= <- <- <- <-]).
  pose proof (ok_num _ s O) as N. set (m := num_timers s) in *.
  assert (G : let r := for_timers m reset_timer s in
    quiet s r /\ ok_on (fun j => j < m) r /\ forall j, 0 <= j < m -> Z.testbit (isr r) j = false).
  { apply (for_timers_inv (fun i r => quiet s r /\ ok_on (fun j => j < i) r /\
      forall j, 0 <= j < i -> Z.testbit (isr r) j = false)); [lia| |].
    - split; [reflexivity|]. split; [|lia]. eapply ok_mono; [|exact O]. cbn. lia.
    - intros i r Hi (Q & O' & Z'). destruct (reset_timer_ok _ i r O' ltac:(lia) ltac:(cbn; lia)) as (Q' & O'' & Zi & K).
      split; [by etransitivity|]. split; [eapply ok_mono; [|exact O'']; cbn; lia|].
      intros j Hj. destruct (decide (j = i)) as [->|]; [done|]. apply K; [lia|]. apply Z'. lia. }
  cbv zeta in G. destruct G as (Q & O' & Z'). pose proof (q_num _ _ Q) as Qn. fold m in Qn.
  split; try apply O'; try (unfold is_uint; cbn; lia).
  intros i _ Hi. cbn in Hi. rewrite Qn in Hi. split; [intros Hs; by rewrite Z' in Hs|].
  apply (ok_some _ _ O'); lia.
Qed.

Lemma ok_init timers msi fw s fw' : is_u8 timers ->
  hpet_init (hpet_new timers msi) fw = (0, s, fw') -> ok_on (fun _ => False) s.
Proof.
  intros Ht H. unfold hpet_init in H. set (f1 := if count fw =? UINT8_MAX then _ else _) in H.
  clearbody f1. case_match; [done|]. apply (f_equal (fun x => snd (fst x))) in H. cbn [fst snd] in H.
  rewrite <- H. clear H.
  set (s0 := set_num_timers _ _). set (s1 := for_timers HPET_MAX_TIMERS _ s0).
  assert (G : quiet s0 s1 /\ isr s1 = 0 /\ forall j, 0 <= j < 32 -> timer_ok j (tm s1 j)).
  { assert (I : quiet s0 s1 /\ isr s1 = 0 /\ (forall j, 0 <= j < 32 -> timer_ok j (tm s1 j)) /\
                (forall j, 32 <= j < 32 -> tm s1 j = timer_zero)); [|tauto].
    apply (for_timers_inv (fun i r => quiet s0 r /\ isr r = 0 /\ (forall j, 0 <= j < i -> timer_ok j (tm r j)) /\
      forall j, i <= j < 32 -> tm r j = timer_zero)); [done| |].
    - split; [reflexivity|]. split; [done|]. split; [lia|]. intros j Hj. unfold tm.
      cbn [timer s0 set_num_timers set_hpet_id hpet_new].
      by rewrite nth_lookup, lookup_replicate_2 by (unfold HPET_MAX_TIMERS; lia).
    - intros i r Hi (Q & Z' & A & B).
      assert (L : 0 <= i < Z.of_nat (length (timer r))) by (rewrite (q_length _ _ Q); exact Hi).
      split; [etransitivity; [exact Q|apply quiet_put_tm]|]. split; [done|]. split; intros j Hj.
      + destruct (decide (i = j)) as [<-|]; [|rewrite tm_put_ne by lia; apply A; lia].
        rewrite tm_put_eq by done. rewrite B by lia. split; cbn; unfold is_uint; lia.
      + rewrite tm_put_ne by lia. apply B. lia. }
  destruct G as (Q & Zi & T). clearbody s1.
  assert (N : num_timers s1 = clamp_timers timers) by (rewrite (q_num _ _ Q); done).
  split; cbn [length timer num_timers config isr hpet_counter hpet_offset capability set_capability].
  - by rewrite (q_length _ _ Q).
  - rewrite N. unfold clamp_timers, HPET_MIN_TIMERS, HPET_MAX_TIMERS. unfold is_uint in Ht. zcases; lia.
  - rewrite (q_config _ _ Q). unfold is_uint. cbn. lia.
  - rewrite Zi. unfold is_uint. lia.
  - rewrite (q_counter _ _ Q). unfold is_uint. cbn. lia.
  - rewrite (q_offset _ _ Q). unfold is_uint. cbn. lia.
  - done.
  - exact T.
  - by intros i [].
Qed.

Lemma capability_reload n m : 3 <= n <= 32 -> 3 <= m <= 32 ->
  (capability_of n &. ~. HPET_ID_NUM_TIM_MASK) |. u64 ((m - 1) <<. HPET_ID_NUM_TIM_SHIFT) = capability_of m.
Proof.
  intros Hn Hm. apply Z.eqb_eq.
  set (f := fun n m => (capability_of (n + 3) &. ~. HPET_ID_NUM_TIM_MASK) |. u64 ((m + 3 - 1) <<. HPET_ID_NUM_TIM_SHIFT)
    =? capability_of (m + 3)).
  pose proof (below_spec 30 (fun n => below 30 (f n)) (n - 3) ltac:(by vm_compute) ltac:(lia)) as B.
  pose proof (below_spec 30 _ (m - 3) B ltac:(lia)) as B'. unfold f in B'.
  by replace (n - 3 + 3) with n in B' by lia; replace (m - 3 + 3) with m in B' by lia.
Qed.

(** The copy of the saved fields. *)
Lemma vmstate_spec src dst : 0 <= num_timers src <= 32 -> length (timer dst) = 32%nat ->
  let r := vmstate_hpet src dst in
  hpet_offset r = hpet_offset dst /\ flags r = flags dst /\ num_timers r = num_timers src /\
  length (timer r) = 32%nat /\ capability r = capability dst /\ config r = config src /\
  isr r = isr src /\ hpet_counter r = hpet_counter src /\ hpet_id r = hpet_id dst /\
  forall j, 0 <= j < 32 -> tm r j = if j <? num_timers src then tm src j else tm dst j.
Proof.
  intros Hn Hl. unfold vmstate_hpet. cbv zeta.
  set (d0 := set_num_timers _ _). change (num_timers d0) with (num_timers src).
  assert (G : let r := for_timers (num_timers src) (fun i d => put_tm i (tm src i) d) d0 in
    quiet d0 r /\ isr r = isr src /\ forall j, 0 <= j < 32 -> tm r j = if j <? num_timers src then tm src j else tm dst j).
  { apply (for_timers_inv (fun i r => quiet d0 r /\ isr r = isr src /\
      forall j, 0 <= j < 32 -> tm r j = if j <? i then tm src j else tm dst j)); [lia| |].
    - split; [reflexivity|]. split; [done|]. intros j Hj. by destruct (Z.ltb_spec j 0); [lia|].
    - intros i r Hi (Q & Z' & A). split; [etransitivity; [exact Q|apply quiet_put_tm]|]. split; [done|].
      intros j Hj. assert (L : 0 <= i < Z.of_nat (length (timer r))) by (rewrite (q_length _ _ Q); cbn; lia).
      destruct (decide (i = j)) as [<-|].
      + rewrite tm_put_eq by done. by destruct (Z.ltb_spec i (i + 1)); [|lia].
      + rewrite tm_put_ne, A by lia. destruct (Z.ltb_spec j i), (Z.ltb_spec j (i + 1)); done || lia. }
  cbv zeta in G. destruct G as (Q & Zi & T). set (r := for_timers _ _ _) in *. clearbody r.
  split_and!; [apply Q..| |apply Q|apply Q|exact Zi|apply Q|apply Q|exact T].
  rewrite (q_length _ _ Q). exact Hl.
Qed.

Lemma post_load_spec now s fw :
  let r := fst (hpet_post_load now s fw) in
  hpet_offset r = u64 (ticks_to_ns (hpet_counter s) - now) /\ num_timers r = num_timers s /\
  timer r = timer s /\ config r = config s /\ isr r = isr s /\ hpet_counter r = hpet_counter s /\
  capability r = (capability s &. ~. HPET_ID_NUM_TIM_MASK) |.
                 u64 ((num_timers s - 1) <<. HPET_ID_NUM_TIM_SHIFT) /\
  Z.testbit (flags r) 0 = Z.testbit (t_config (tm s 0)) 15.
Proof.
  unfold hpet_post_load. cbv zeta. cbn [fst]. rewrite (flag_bit _ 15) by done.
  set (s1 := set_flags _ _). change (tm s1 0) with (tm s 0).
  assert (F : Z.testbit (flags s1) 0 = false).
  { cbn [s1 flags set_flags]. rewrite Z.land_spec.
    change (Z.testbit (u32 (~. (1 <<. HPET_MSI_SUPPORT))) 0) with false. apply andb_false_r. }
  destruct (Z.testbit (t_config (tm s 0)) 15).
  - repeat (split; [reflexivity|]). cbn [flags set_flags]. rewrite Z.lor_spec. apply orb_true_r.
  - repeat (split; [reflexivity|]). exact F.
Qed.

(** Bit 15 of a timer is the capability to send messages. *)
Lemma caps_fsb s i : caps_ok i s -> Z.testbit (t_config (tm s i)) 15 = Z.testbit (flags s) 0.
Proof.
  unfold caps_ok. intros C.
  transitivity (Z.testbit (t_config (tm s i) &. ~. HPET_TN_CFG_WRITE_MASK) 15).
  - rewrite Z.land_spec. change (Z.testbit (~. HPET_TN_CFG_WRITE_MASK) 15) with true. by rewrite andb_true_r.
  - rewrite C. unfold caps. by destruct (Z.testbit (flags s) 0).
Qed.

(** What the loaded device [r] has of the saved one. *)
Record loaded (t1 t2 : Z) (src dst r : HPETState) : Prop := {
  l_offset : hpet_offset r = u64 (10 * hpet_get_ticks t1 src - t2);
  l_num : num_timers r = num_timers src;
  l_length : length (timer r) = 32%nat;
  l_config : config r = config src;
  l_isr : isr r = isr src;
  l_counter : hpet_counter r = hpet_get_ticks t1 src;
  l_capability : capability r = capability_of (num_timers src);
  l_flags : Z.testbit (flags r) 0 = Z.testbit (flags src) 0;
  l_tm j : 0 <= j < 32 -> tm r j = if j <? num_timers src then tm src j else tm dst j
}.

Lemma migrate_loaded t1 t2 src dst fw : ok src -> ok dst ->
  loaded t1 t2 src dst (fst (migrate t1 t2 src dst fw)).
Proof.
  intros Os Od. unfold migrate. pose proof (ok_num _ src Os) as N.
  destruct (vmstate_spec (hpet_pre_save t1 src) (hpet_pre_load dst) ltac:(cbn; lia) (ok_length _ dst Od))
    as (_ & _ & R3 & R4 & R5 & R6 & R7 & R8 & _ & R9).
  set (v := vmstate_hpet _ _) in *. clearbody v.
  destruct (post_load_spec t2 v fw) as (L1 & L2 & L3 & L4 & L5 & L6 & L7 & L8).
  set (r := fst (hpet_post_load t2 v fw)) in *. clearbody r.
  assert (T : forall j, tm r j = tm v j) by (intros; unfold tm; by rewrite L3).
  pose proof (ticks_to_ns_eq _ (get_ticks_range t1 src)) as E.
  split; [|by rewrite L2, R3|by rewrite L3, R4|by rewrite L4, R6|by rewrite L5, R7|by rewrite L6, R8| | | ].
  - rewrite L1, R8. cbn [hpet_counter hpet_pre_save set_hpet_counter]. rewrite E. unfold wrap. by rewrite Zminus_mod_idemp_l.
  - rewrite L7, R5, R3. cbn [hpet_pre_load capability set_num_timers hpet_pre_save num_timers set_hpet_counter].
    rewrite (ok_capability _ dst Od). apply capability_reload; [apply Od|done].
  - rewrite L8, R9 by lia. cbn [num_timers hpet_pre_save set_hpet_counter].
    destruct (Z.ltb_spec 0 (num_timers src)); [|lia].
    change (tm (hpet_pre_save t1 src) 0) with (tm src 0). apply caps_fsb, (ok_some _ src Os); [done|lia].
  - intros j Hj. rewrite T. by apply R9.
Qed.

Lemma hpet_loaded_ok t1 t2 src dst r : loaded t1 t2 src dst r -> ok src -> ok dst -> ok r.
Proof.
  intros L Os Od. pose proof (ok_num _ src Os) as N.
  split; rewrite ?(l_offset _ _ _ _ _ L), ?(l_num _ _ _ _ _ L), ?(l_length _ _ _ _ _ L), ?(l_config _ _ _ _ _ L),
    ?(l_isr _ _ _ _ _ L), ?(l_counter _ _ _ _ _ L); try apply Os; try done.
  - apply get_ticks_range.
  - apply wrap_range. lia.
  - exact (l_capability _ _ _ _ _ L).
  - intros i Hi. rewrite (l_tm _ _ _ _ _ L) by done. case_match; by eapply ok_timer.
  - intros i _ Hi. destruct (ok_some _ src Os i I Hi) as [S C]. unfold status_ok, caps_ok, caps in *.
    rewrite (l_isr _ _ _ _ _ L), (l_config _ _ _ _ _ L), (l_flags _ _ _ _ _ L), (l_tm _ _ _ _ _ L) by lia.
    by destruct (Z.ltb_spec i (num_timers src)); [|lia].
Qed.

(** *** Reachable states *)

(** A device is initialised and reset; then the guest writes, timers expire,
    the clock drives its line, the machine is reset, and states are saved and
    loaded into other devices.  The interval timer may change in between. *)
Inductive reachable : HPETState -> I8254.PITState -> Prop :=
  | reach_init timers msi fw s0 fw0 now mmio calls pit0 s pit fw' n :
      is_u8 timers -> length (I8254.channels pit0) = 3%nat ->
      hpet_init (hpet_new timers msi) fw = (0, s0, fw0) ->
      hpet_reset now mmio calls s0 pit0 fw0 = Some (s, pit, fw', n) -> reachable s pit
  | reach_reset now mmio calls fw s pit s' pit' fw' n :
      reachable s pit -> hpet_reset now mmio calls s pit fw = Some (s', pit', fw', n) ->
      reachable s' pit'
  | reach_write clk addr v s pit s' pit' :
      reachable s pit -> is_u32 v -> hpet_ram_writel clk s pit addr v = Some (s', pit') ->
      reachable s' pit'
  | reach_fire fuel clk i t s pit s' :
      reachable s pit -> 0 <= i < 32 -> qemu_timer (tm s i) = Some t -> t <= clk 0%nat ->
      hpet_timer fuel clk i s = Some s' -> reachable s' pit
  | reach_rtc level s pit :
      reachable s pit -> reachable (hpet_handle_rtc_irq level s) pit
  | reach_pit s pit pit' :
      reachable s pit -> length (I8254.channels pit') = 3%nat -> reachable s pit'
  | reach_load t1 t2 src pit0 dst pit fw :
      reachable src pit0 -> reachable dst pit -> reachable (fst (migrate t1 t2 src dst fw)) pit.

Lemma on_channel_0 f pit : length (I8254.channels pit) = 3%nat ->
  exists pit', I8254.on_channel 0 f pit = Some pit' /\ length (I8254.channels pit') = 3%nat.
Proof.
  intros H. unfold I8254.on_channel. destruct (lookup_lt_is_Some_2 (I8254.channels pit) 0) as [c E]; [lia|].
  change (Z.to_nat 0) with 0%nat. rewrite E. cbn. eexists. split; [done|]. cbn. by rewrite length_insert.
Qed.

(** A write always succeeds. *)
Lemma writel_total clk s pit addr v : length (I8254.channels pit) = 3%nat ->
  exists s' pit', hpet_ram_writel clk s pit addr v = Some (s', pit') /\ length (I8254.channels pit') = 3%nat.
Proof.
  intros H. unfold hpet_ram_writel. repeat case_match; eauto.
  unfold write_cfg. cbv zeta. set (s1 := if activating_bit _ _ HPET_CFG_ENABLE then _ else _). clearbody s1.
  case_match; [|case_match; [|eauto]].
  - destruct (on_channel_0 I8254.hpet_disable1 pit H) as (p & E & L). unfold I8254.hpet_pit_disable. rewrite E. cbn. eauto.
  - destruct (on_channel_0 (I8254.hpet_enable1 (last_reading clk s1)) pit H) as (p & E & L).
    unfold I8254.hpet_pit_enable. rewrite E. cbn. eauto.
Qed.

Lemma reset_pit now mmio calls s pit fw s' pit' fw' n : length (I8254.channels pit) = 3%nat ->
  hpet_reset now mmio calls s pit fw = Some (s', pit', fw', n) -> length (I8254.channels pit') = 3%nat.
Proof.
  intros H E. unfold hpet_reset in E. apply bind_Some in E as (p & Ep & [= <- <- <- <-]).
  case_match; [|by simplify_eq]. destruct (on_channel_0 (I8254.hpet_enable1 now) pit H) as (q & Eq & L).
  unfold I8254.hpet_pit_enable in Ep. rewrite Eq in Ep. by simplify_eq.
Qed.

Lemma reachable_ok s pit : reachable s pit -> ok s /\ length (I8254.channels pit) = 3%nat.
Proof.
  induction 1 as [timers msi fw s0 fw0 now mmio calls pit0 s pit fw' n Ht Hp Hi Hr
    |now mmio calls fw s pit s' pit' fw' n _ [IH IHp] Hr|clk addr v s pit s' pit' _ [IH IHp] Hv Hw
    |fuel clk i t s pit s' _ [IH IHp] Hi _ _ Hf|level s pit _ [IH IHp]|s pit pit' _ [IH _] Hp
    |t1 t2 src pit0 dst pit fw _ [IHs _] _ [IHd IHp]].
  - split; [|by eapply reset_pit]. eapply ok_reset; [|exact Hr]. by eapply ok_init.
  - split; [|by eapply reset_pit]. eapply ok_reset; [|exact Hr]. eapply ok_mono; [|exact IH]. done.
  - split; [by eapply ok_writel|].
    destruct (writel_total clk s pit addr v IHp) as (s1 & p1 & E & L). rewrite E in Hw. by simplify_eq.
  - split; [by eapply ok_hpet_timer|done].
  - split; [|done]. unfold hpet_handle_rtc_irq. case_match; eauto with hpet.
  - done.
  - split; [|done]. eapply hpet_loaded_ok; [by apply migrate_loaded|done..].
Qed.

(** C21: In every reachable state, whatever the guest writes, the timers do and
    is saved and loaded: the device has 32 timers of which 3 to 32 are offered,
    and announces their number.  Of each timer that is offered, below
    [num_timers]: its status bit is set only while the device and that timer are
    enabled and the timer does not send messages, it keeps the capabilities it
    announces, and its interrupt goes to one of the 32 lines.  (The timer one past
    them, which the guest can use too, keeps its status bit when the device is
    disabled.)  No register address selects a timer outside of the array, and
    every write to a register is carried out. *)
Theorem hpet_reachable_ok s pit : reachable s pit ->
  length (timer s) = 32%nat /\ 3 <= num_timers s <= 32 /\ capability s = capability_of (num_timers s) /\
  (forall i, 0 <= i < num_timers s ->
     status_ok i s /\ caps_ok i s /\ 0 <= irq_route (tm s i) s < HPET_NUM_IRQ_ROUTES) /\
  (forall addr, is_tn_reg addr = true -> 0 <= timer_id addr < Z.of_nat (length (timer s))) /\
  (forall clk addr v, exists s' pit', hpet_ram_writel clk s pit addr v = Some (s', pit')).
Proof.
  intros H. apply reachable_ok in H as [O L]. pose proof (ok_num _ s O) as N.
  split; [apply O|]. split; [done|]. split; [apply O|]. split; [|split].
  - intros i Hi. destruct (ok_some _ s O i I Hi) as [S C]. split; [done|]. split; [done|].
    unfold irq_route, HPET_NUM_IRQ_ROUTES, RTC_ISA_IRQ. repeat case_match; try lia.
    unfold timer_int_route. apply (is_uint_shiftr 5 9); [|lia..].
    apply is_uint_land_r; [by vm_compute|lia].
  - intros addr Ha. apply timer_id_range in Ha. rewrite (ok_length _ s O). lia.
  - intros clk addr v. destruct (writel_total clk s pit addr v L) as (s' & p' & E & _). eauto.
Qed.

(** ** Examples *)

(** The machine after its first reset, with the interval timer. *)
Definition demo_reset : option (HPETState * I8254.PITState * hpet_fw_config * Z) :=
  let '(_, s0, fw) := hpet_init (hpet_new HPET_MIN_TIMERS 0) hpet_cfg in
  hpet_reset 0 0xfed00000 0 s0 I8254.pit_state fw.

(** The state after a list of writes, all at the time [t]. *)
Fixpoint writes (t : Z) (ws : list (Z * Z)) (s : HPETState) (pit : I8254.PITState)
    : option (HPETState * I8254.PITState) :=
  match ws with
  | [] => Some (s, pit)
  | (addr, v) :: ws =>
      '(s, pit) ← hpet_ram_writel (fun _ => t) s pit addr v; writes t ws s pit
  end.

Definition demo (t : Z) (ws : list (Z * Z)) : option (HPETState * I8254.PITState) :=
  '(s, pit, _, _) ← demo_reset; writes t ws s pit.

Lemma writes_reachable t ws : forall s pit s' pit', reachable s pit -> Forall (fun w => is_u32 (snd w)) ws ->
  writes t ws s pit = Some (s', pit') -> reachable s' pit'.
Proof.
  induction ws as [|[addr v] ws IH]; intros s pit s' pit' R F E; cbn [writes] in E; [by simplify_eq|].
  apply Forall_cons_1 in F as [Fv F]. apply bind_Some in E as ([s1 p1] & E1 & E). eapply IH; [|exact F|exact E].
  by eapply reach_write.
Qed.

Lemma demo_reachable t ws s pit : Forall (fun w => is_u32 (snd w)) ws -> demo t ws = Some (s, pit) -> reachable s pit.
Proof.
  intros F E. unfold demo in E. apply bind_Some in E as ([[[s1 p1] fw1] n1] & E1 & E).
  eapply writes_reachable; [|exact F|exact E]. unfold demo_reset in E1.
  destruct (hpet_init (hpet_new HPET_MIN_TIMERS 0) hpet_cfg) as [[z s0] fw0] eqn:Ei.
  assert (z = 0) as ->.
  { apply (f_equal (fun x => fst (fst x))) in Ei. cbn [fst] in Ei. rewrite <- Ei. by vm_compute. }
  eapply reach_init; [| |exact Ei|exact E1]; by vm_compute.
Qed.

Definition demo_state (t : Z) (ws : list (Z * Z)) : HPETState :=
  match demo t ws with Some (s, _) => s | None => hpet_new 0 0 end.
Definition demo_pit (t : Z) (ws : list (Z * Z)) : I8254.PITState :=
  match demo t ws with Some (_, pit) => pit | None => I8254.pit_state end.

Lemma demo_state_reachable t ws : Forall (fun w => is_u32 (snd w)) ws -> is_Some (demo t ws) ->
  reachable (demo_state t ws) (demo_pit t ws).
Proof.
  intros F [[s pit] E]. unfold demo_state, demo_pit. rewrite E. by eapply demo_reachable.
Qed.

Lemma demo_state_counted t ws :
  Forall (fun w => is_u32 (snd w) /\ (fst w = HPET_CFG -> Z.testbit (snd w) 0 = true)) ws -> is_Some (demo t ws) ->
  counted (demo_state t ws) (demo_pit t ws)
    (foldl (fun a w => counter_write t (fst w) (snd w) a) (Halted 0) ws).
Proof.
  intros F [[s pit] E]. unfold demo_state, demo_pit. rewrite E. unfold demo in E.
  apply bind_Some in E as ([[[s1 p1] fw1] n1] & E1 & E). unfold demo_reset in E1.
  destruct (hpet_init (hpet_new HPET_MIN_TIMERS 0) hpet_cfg) as [[z s0] fw0].
  assert (C : counted s1 p1 (Halted 0)) by (by eapply counted_reset). clear E1.
  revert s1 p1 C E. generalize (Halted 0).
  induction F as [|[addr v] ws Fv F IH]; intros a s1 p1 C E; cbn [writes] in E; [by simplify_eq|].
  apply bind_Some in E as ([s2 p2] & E1 & E). cbn [foldl fst snd]. eapply IH; [|exact E].
  destruct Fv as [Fv Fb]. eapply (counted_write (fun _ => t)); [exact C|exact Fv| |exact E1].
  intros Ha Hb. cbn [fst snd] in *. rewrite (Fb Ha) in Hb. done.
Qed.

(** The counter is set to 4096 and started at 1000 ns. *)
Lemma hpet_main_counter_witness :
  hpet_ram_readl 3345 (demo_state 1000 [(0xf0, 4096); (0x10, 1)]) HPET_COUNTER = 4096 + 234.
Proof.
  destruct (hpet_main_counter (demo_state 1000 [(0xf0, 4096); (0x10, 1)]) (demo_pit 1000 [(0xf0, 4096); (0x10, 1)])
    (Running 4096 1000) 3345) as [H _].
  - apply (demo_state_counted 1000 [(0xf0, 4096); (0x10, 1)]); [repeat constructor; by vm_compute|].
    eexists. vm_compute. reflexivity.
  - destruct H as [H _]; [by vm_compute|]. rewrite H. vm_compute. reflexivity.
Defined.

(** A level-triggered timer that is enabled with the device. *)
Lemma hpet_reachable_ok_witness :
  let s := demo_state 0 [(0x100, 0x6); (0x10, 1)] in
  num_timers s = 3 /\ capability s = capability_of 3 /\ status_ok 0 s.
Proof.
  destruct (hpet_reachable_ok (demo_state 0 [(0x100, 0x6); (0x10, 1)]) (demo_pit 0 [(0x100, 0x6); (0x10, 1)]))
    as (_ & _ & H & K & _).
  - apply demo_state_reachable; [repeat constructor; by vm_compute|]. eexists. vm_compute. reflexivity.
  - assert (N : num_timers (demo_state 0 [(0x100, 0x6); (0x10, 1)]) = 3) by (vm_compute; reflexivity).
    rewrite N in H, K. split; [exact N|]. split; [exact H|]. exact (proj1 (K 0 ltac:(lia))).
Defined.

End Hpet.
