(* ===== verification/HpetTimers.v ===== *)
(** * Deadlines of the high precision event timer (src/qemu/hw/hpet.c)

    The callbacks of periodic and one-shot timers run when the counter of
    Hpet.v reaches the comparator; saving and loading; the replacement of the
    interval timer of I8254.v and of the real time clock's line; and a guest
    whose timer callback never returns.  Clocks and deadlines are below [2^63]
    ns, where no sum overflows. *)
From S2P Require Import Prelude I8254 Hpet.

Module HpetTimers.
Import Hpet.

(** ** Deadlines *)

(** The width of a timer's comparator. *)
Definition width (t : HPETTimer) : Z := if truthy (t_config t &. HPET_TN_32BIT) then 32 else 64.

Lemma width_cases t : width t = 32 \/ width t = 64.
Proof. unfold width. case_match; auto. Qed.

(** Ticks from the counter value [cur] to the comparator, and back. *)
Definition ahead (t : HPETTimer) (cur : Z) : Z := (cmp t - cur) mod 2 ^ width t.
Definition behind (t : HPETTimer) (cur : Z) : Z := (cur - cmp t) mod 2 ^ width t.

(** What an expired timer sends while it and the device are enabled. *)
Definition asserted (t : HPETTimer) (s : HPETState) : list Event :=
  if truthy (timer_fsb_route t) then [Store (fsb t >>. 32) (fsb t &. LOW)]
  else if truthy (t_config t &. HPET_TN_TYPE_LEVEL) then [Line (irq_route t s) 1]
  else [Line (irq_route t s) 0; Line (irq_route t s) 1].

Definition may_interrupt (i : Z) (s : HPETState) : Prop :=
  Z.testbit (config s) 0 = true /\ Z.testbit (t_config (tm s i)) 2 = true.

Lemma update_irq_asserts i s : may_interrupt i s ->
  irqs (update_irq i true s) = asserted (tm s i) s ++ irqs s.
Proof.
  intros [H0 H2]. unfold update_irq, asserted. rewrite timer_enabled_bit, enabled_bit, H0, H2.
  cbn [negb orb]. repeat case_match; done.
Qed.

Lemma sub_swrap w a b : w = 32 \/ w = 64 -> swrap w (swrap w a - swrap w b) = swrap w (a - b).
Proof.
  intros Hw. unfold swrap. f_equal. set (h := 2 ^ (w - 1)). set (m := 2 ^ w).
  assert (M : 0 < m) by (destruct Hw as [-> | ->]; unfold m; lia).
  replace ((a + h) mod m - h - ((b + h) mod m - h) + h) with ((a + h) mod m - (b + h) mod m + h) by ring.
  rewrite <- Zplus_mod_idemp_l, <- Zminus_mod, Zplus_mod_idemp_l. f_equal. ring.
Qed.

(** A signed difference that is small is read as it is. *)
Lemma swrap_diff w x e : w = 32 \/ w = 64 -> x mod 2 ^ w = e mod 2 ^ w ->
  - 2 ^ (w - 1) <= e < 2 ^ (w - 1) -> swrap w x = e.
Proof.
  intros Hw Hx He. unfold swrap. rewrite <- Zplus_mod_idemp_l, Hx, Zplus_mod_idemp_l.
  apply (swrap_small w e); [done|]. destruct Hw; lia.
Qed.

(** Both loops of [hpet_timer], by width. *)
Fixpoint advance (w : Z) (fuel : nat) (cur p c : Z) : option Z :=
  match fuel with
  | O => None
  | S fuel =>
      if swrap w (swrap w c - swrap w cur) <? 0 then advance w fuel cur p (wrap w (c + p)) else Some c
  end.

Lemma advance32_eq fuel cur p : forall c, advance32 fuel cur p c = advance 32 fuel cur p c.
Proof.
  induction fuel as [|fuel IH]; intros c; [done|]. cbn [advance32 advance]. unfold hpet_time_after.
  rewrite IH. replace (u32 (u64 (c + p))) with (u32 (c + p)); [done|].
  unfold wrap. symmetry. apply Z.mod_mod_divide. exists (2 ^ 32). done.
Qed.

Lemma advance64_eq fuel cur p : forall c, advance64 fuel cur p c = advance 64 fuel cur p c.
Proof. induction fuel as [|fuel IH]; intros c; [done|]. cbn [advance64 advance]. by rewrite IH. Qed.

(** The loop ends after the fewest periods that bring a comparator that is
    [e] behind to the counter or past it. *)
Lemma advance_ends w cur p : w = 32 \/ w = 64 -> 0 < p < 2 ^ (w - 1) ->
  forall (k fuel : nat) c e, (k < fuel)%nat -> c mod 2 ^ w = (cur - e) mod 2 ^ w ->
  - 2 ^ (w - 1) < e <= 2 ^ (w - 1) -> e <= Z.of_nat k * p -> ((0 < k)%nat -> (Z.of_nat k - 1) * p < e) ->
  exists c', advance w fuel cur p c = Some c' /\ c' mod 2 ^ w = (c + Z.of_nat k * p) mod 2 ^ w.
Proof.
  intros Hw Hp. set (m := 2 ^ w). assert (M : 0 < m) by (destruct Hw as [-> | ->]; unfold m; lia).
  induction k as [|k IH]; intros fuel c e Hf Hc He H1 H2; (destruct fuel as [|fuel]; [lia|]); cbn [advance].
  all: rewrite sub_swrap by done; rewrite (swrap_diff w (c - cur) (- e)); [|done| |lia].
  all: try (fold m; rewrite Zminus_mod, Hc, <- Zminus_mod; f_equal; lia).
  - destruct (Z.ltb_spec (- e) 0); [lia|]. exists c. split; [done|]. f_equal. lia.
  - specialize (H2 ltac:(lia)).
    assert (Hk : 0 <= Z.of_nat k * p) by nia.
    replace (Z.of_nat (S k) - 1) with (Z.of_nat k) in H2 by lia.
    replace (Z.of_nat (S k) * p) with (Z.of_nat k * p + p) in * by lia.
    destruct (Z.ltb_spec (- e) 0); [|lia].
    destruct (IH fuel (wrap w (c + p)) (e - p)) as (c' & E & C).
    + lia.
    + unfold wrap. fold m. rewrite Z.mod_mod by lia. rewrite <- Zplus_mod_idemp_l, Hc, Zplus_mod_idemp_l. f_equal. lia.
    + lia.
    + lia.
    + intros. nia.
    + exists c'. split; [done|]. rewrite C. unfold wrap. fold m. rewrite Zplus_mod_idemp_l. f_equal. lia.
Qed.

Lemma diff_ahead t cur : ahead t cur < 2 ^ (width t - 1) -> hpet_calculate_diff t cur = ahead t cur.
Proof.
  unfold ahead, hpet_calculate_diff, width. case_match; intros Hs.
  - assert (E : u32 (u32 (cmp t) - u32 cur) = (cmp t - cur) mod 2 ^ 32) by (unfold wrap; by rewrite <- Zminus_mod).
    rewrite E. set (d := (cmp t - cur) mod 2 ^ 32) in *. assert (0 <= d) by (unfold d; dlia).
    rewrite (swrap_small 32) by lia. destruct (Z.ltb_spec 0 d); lia.
  - unfold wrap. set (d := (cmp t - cur) mod 2 ^ 64) in *. assert (0 <= d) by (unfold d; dlia).
    rewrite (swrap_small 64) by lia. destruct (Z.ltb_spec 0 d); lia.
Qed.

Lemma ahead_range t cur : 0 <= ahead t cur < 2 ^ width t.
Proof. unfold ahead. apply Z.mod_pos_bound. destruct (width_cases t) as [-> | ->]; lia. Qed.

(** Times and counts below 2^63. *)
Lemma arm_eq now d t : 0 <= now -> 0 <= d -> now + 10 * d < 2 ^ 63 ->
  arm now d t = set_qemu_timer (Some (now + 10 * d)) t.
Proof.
  intros. unfold arm. rewrite ticks_to_ns_eq by (unfold is_uint; lia).
  rewrite (wrap_small 64 (10 * d)) by (unfold is_uint; lia). by rewrite (swrap_small 64 (10 * d)), swrap_small by lia.
Qed.

(** The counter [d] ticks later, as long as it does not start over. *)
Lemma get_ticks_later now d s : 0 <= d -> u64 (now + hpet_offset s) + 10 * d < 2 ^ 64 ->
  hpet_get_ticks (now + 10 * d) s = hpet_get_ticks now s + d.
Proof.
  intros Hd H. rewrite !get_ticks_eq.
  pose proof (wrap_range 64 (now + hpet_offset s) ltac:(lia)) as R. unfold is_uint in R.
  replace (u64 (now + 10 * d + hpet_offset s)) with (u64 (now + hpet_offset s) + d * 10).
  - by rewrite Z.div_add by lia.
  - rewrite <- (wrap_small 64 (u64 (now + hpet_offset s) + d * 10)) by (unfold is_uint; lia).
    unfold wrap. rewrite Zplus_mod_idemp_l. f_equal. ring.
Qed.

Lemma get_ticks_offset now s s' : hpet_offset s' = hpet_offset s -> hpet_get_ticks now s' = hpet_get_ticks now s.
Proof. intros E. by rewrite !get_ticks_eq, E. Qed.

Lemma asserted_same t t' s s' : config s' = config s -> tn t' = tn t -> t_config t' = t_config t -> fsb t' = fsb t ->
  asserted t' s' = asserted t s.
Proof.
  intros E1 E2 E3 E4. unfold asserted, irq_route, timer_fsb_route, timer_int_route, hpet_in_legacy_mode.
  by rewrite E1, E2, E3, E4.
Qed.

(** The end of a callback: the timer is replaced and the interrupt sent. *)
Lemma callback_end i t s : 0 <= i < Z.of_nat (length (timer s)) ->
  tn t = tn (tm s i) -> t_config t = t_config (tm s i) -> fsb t = fsb (tm s i) ->
  tm (update_irq i true (put_tm i t s)) i = t /\
  (may_interrupt i s -> irqs (update_irq i true (put_tm i t s)) = asserted (tm s i) s ++ irqs s).
Proof.
  intros Hi E1 E2 E3. rewrite tm_update_irq, tm_put_eq by done. split; [done|]. intros M.
  rewrite update_irq_asserts.
  - rewrite tm_put_eq by done. by rewrite (asserted_same (tm s i) t s (put_tm i t s)).
  - unfold may_interrupt in *. rewrite tm_put_eq by done. by rewrite E2.
Qed.

(** The callback of a periodic timer. *)
Lemma hpet_timer_periodic fuel clk i s :
  let t := tm s i in
  let cur := hpet_get_ticks (clk 0%nat) s in
  Z.testbit (t_config t) 3 = true -> period t <> 0 ->
  hpet_timer fuel clk i s =
  (c ← advance (width t) fuel cur (period t) (cmp t);
   let tc := set_cmp c (set_qemu_timer None t) in
   Some (update_irq i true (put_tm i (arm (clk 1%nat) (hpet_calculate_diff tc cur) tc) s))).
Proof.
  intros t cur H3 Hp. unfold hpet_timer. fold cur t.
  rewrite periodic_bit. change (t_config (set_qemu_timer None t)) with (t_config t). rewrite H3.
  change (period (set_qemu_timer None t)) with (period t).
  destruct (Z.eqb_spec (period t) 0); [done|]. cbn [negb andb].
  replace ((if truthy (t_config t &. HPET_TN_32BIT) then advance32 else advance64) fuel cur (period t)
    (cmp (set_qemu_timer None t))) with (advance (width t) fuel cur (period t) (cmp t)).
  - by destruct (advance _ _ _ _ _).
  - unfold width. case_match; symmetry; [apply advance32_eq|apply advance64_eq].
Qed.

(** The fewest periods [p] that make up for [b] ticks. *)
Lemma fewest_periods b p : 0 <= b -> 0 < p ->
  let k := (b + p - 1) / p in 0 <= k /\ b <= k * p < b + p.
Proof.
  intros Hb Hp k. unfold k. split; [apply Z.div_pos; lia|].
  pose proof (Z.div_mod (b + p - 1) p). pose proof (Z.mod_pos_bound (b + p - 1) p). lia.
Qed.

(** C19: The callback of a periodic timer whose period is positive and below half
    of the counter's range ends and keeps to its grid: whenever it runs, up to
    half of the range late and before 2^63 ns, it ends within as many rounds as
    periods it is late by and one more ([hpet_period_hangs] shows a period
    outside of these bounds for which it never does); it moves the comparator by
    the fewest whole periods that bring it to the counter or past it, so to
    less than one period ahead, arms the timer for the moment at which the
    counter reaches it, and sends the timer's interrupt once. *)
Theorem hpet_periodic_grid fuel clk i s pit :
  reachable s pit -> 0 <= i < 32 ->
  let t := tm s i in
  let cur := hpet_get_ticks (clk 0%nat) s in
  let k := (behind t cur + period t - 1) / period t in
  Z.testbit (t_config t) 3 = true -> 0 < period t < 2 ^ (width t - 1) ->
  behind t cur <= 2 ^ (width t - 1) -> k < Z.of_nat fuel ->
  0 <= clk 1%nat -> clk 1%nat + 10 * period t < 2 ^ 63 ->
  exists s', hpet_timer fuel clk i s = Some s' /\
    let t' := tm s' i in
    cmp t' mod 2 ^ width t = (cmp t + k * period t) mod 2 ^ width t /\
    ahead t' cur < period t /\
    qemu_timer t' = Some (clk 1%nat + 10 * ahead t' cur) /\
    (u64 (clk 1%nat + hpet_offset s) + 10 * period t < 2 ^ 64 -> clk 0%nat = clk 1%nat ->
     hpet_get_ticks (clk 1%nat + 10 * ahead t' cur) s' mod 2 ^ width t = cmp t' mod 2 ^ width t) /\
    (may_interrupt i s -> irqs s' = asserted t s ++ irqs s).
Proof.
  intros R Hi t cur k H3 Hp Hb Hk Hc0 Hc1. apply reachable_ok in R as [O _].
  assert (L : 0 <= i < Z.of_nat (length (timer s))) by (rewrite (ok_length _ s O); lia).
  set (w := width t) in *. assert (Hw : w = 32 \/ w = 64) by apply width_cases.
  assert (M : 0 < 2 ^ (w - 1) /\ 2 ^ w = 2 * 2 ^ (w - 1)) by (destruct Hw as [-> | ->]; lia).
  assert (B0 : 0 <= behind t cur) by (unfold behind; apply Z.mod_pos_bound; fold w; lia).
  destruct (fewest_periods (behind t cur) (period t) B0 ltac:(lia)) as (K0 & K2 & K1). fold k in K0, K1, K2. clearbody k.
  destruct (advance_ends w cur (period t) Hw Hp (Z.to_nat k) fuel (cmp t) (behind t cur)) as (c' & E & C).
  - lia.
  - unfold behind. fold w. rewrite Zminus_mod_idemp_r. f_equal. lia.
  - lia.
  - rewrite Z2Nat.id by lia. done.
  - intros. rewrite Z2Nat.id by lia. lia.
  - rewrite Z2Nat.id in C by lia.
    rewrite hpet_timer_periodic by (done || fold t; lia). fold t cur w. rewrite E. cbn [mbind option_bind].
    set (tc := set_cmp c' (set_qemu_timer None t)).
    assert (A : ahead tc cur = k * period t - behind t cur).
    { unfold ahead. change (width tc) with w. change (cmp tc) with c'.
      rewrite <- Zminus_mod_idemp_l, C, Zminus_mod_idemp_l.
      rewrite <- (Z.mod_small (k * period t - behind t cur) (2 ^ w)) by lia.
      unfold behind. fold w. rewrite Zminus_mod_idemp_r. f_equal. lia. }
    rewrite diff_ahead by (change (width tc) with w; lia). rewrite A.
    rewrite arm_eq by lia. set (t' := set_qemu_timer _ tc).
    exists (update_irq i true (put_tm i t' s)). split; [done|]. cbv zeta.
    destruct (callback_end i t' s L eq_refl eq_refl eq_refl) as [T I]. rewrite T.
    change (ahead t' cur) with (ahead tc cur). rewrite A.
    split; [done|]. split; [lia|]. split; [done|]. split; [|done].
    intros Hn Ec. rewrite (get_ticks_offset _ s) by (destruct (quiet_update_irq i true (put_tm i t' s)); done).
    rewrite get_ticks_later by lia. rewrite <- Ec. fold cur. rewrite <- A. unfold ahead.
    change (width tc) with w. change (cmp tc) with c'. change (cmp t') with c'.
    rewrite Zplus_mod_idemp_r. f_equal. ring.
Qed.

(** *** One-shot timers *)

(** [n] callbacks of timer [i], each at the time it is armed for: their times
    and the state after them. *)
Fixpoint expirations (n : nat) (i : Z) (s : HPETState) : list Z * HPETState :=
  match n, qemu_timer (tm s i) with
  | S n, Some t =>
      match hpet_timer 0 (fun _ => t) i s with
      | Some s' => let '(ts, s'') := expirations n i s' in (t :: ts, s'')
      | None => ([], s)
      end
  | _, _ => ([], s)
  end.

(** The callback of a one-shot timer, with its deadline passed or, for the end
    of a 32-bit count, to come. *)
Lemma hpet_timer_one_shot fuel clk i s :
  let t := tm s i in
  let cur := hpet_get_ticks (clk 0%nat) s in
  Z.testbit (t_config t) 3 = false ->
  hpet_timer fuel clk i s =
  let t0 := set_qemu_timer None t in
  let t1 :=
    if (width t =? 32) && truthy (wrap_flag t)
    then set_wrap_flag 0 (arm (clk 1%nat) (hpet_calculate_diff t0 cur) t0) else t0 in
  Some (update_irq i true (put_tm i t1 s)).
Proof.
  intros t cur H3. unfold hpet_timer. fold cur t. rewrite periodic_bit.
  change (t_config (set_qemu_timer None t)) with (t_config t).
  change (wrap_flag (set_qemu_timer None t)) with (wrap_flag t). rewrite H3. cbn [andb negb]. unfold width.
  destruct (truthy (t_config t &. HPET_TN_32BIT)); cbn [Z.eqb Pos.eqb andb]; [|done].
  by destruct (truthy (wrap_flag t)).
Qed.

(** Ticks until the low half of the counter is all ones. *)
Definition until_wrap (cur : Z) : Z := 2 ^ 32 - 1 - cur mod 2 ^ 32.

(** [hpet_set_timer] of a one-shot timer. *)
Lemma set_timer_one_shot now i s : 0 <= i < Z.of_nat (length (timer s)) ->
  let t := tm s i in
  let cur := hpet_get_ticks now s in
  let a := ahead t cur in
  let wraps := (width t =? 32) && (until_wrap cur <? a) in
  Z.testbit (t_config t) 3 = false -> a < 2 ^ (width t - 1) -> 0 <= now -> now + 10 * a < 2 ^ 63 ->
  hpet_set_timer now now i s =
  put_tm i (set_qemu_timer (Some (now + 10 * if wraps then until_wrap cur else a))
              (set_wrap_flag (of_bool wraps) t)) s.
Proof.
  intros Hi t cur a wraps H3 Ha Hn Hs. pose proof (ahead_range t cur) as Ra. fold a in Ra.
  unfold hpet_set_timer. fold cur t. rewrite periodic_bit.
  change (t_config (set_wrap_flag 0 t)) with (t_config t). rewrite H3. cbn [negb]. rewrite andb_true_r.
  replace (hpet_calculate_diff (set_wrap_flag 0 t) cur) with a
    by (symmetry; exact (diff_ahead (set_wrap_flag 0 t) cur Ha)).
  assert (E : u32 (0xffffffff - u32 cur) = until_wrap cur).
  { unfold until_wrap, wrap. rewrite Z.mod_small by dlia. done. }
  rewrite E. unfold wraps, width in *. destruct (truthy (t_config t &. HPET_TN_32BIT)); cbn [Z.eqb Pos.eqb andb].
  - rewrite (wrap_small 32 a) by (unfold is_uint; lia). destruct (Z.ltb_spec (until_wrap cur) a).
    + assert (0 <= until_wrap cur) by (unfold until_wrap; dlia). by rewrite arm_eq by lia.
    + by rewrite arm_eq by lia.
  - by rewrite arm_eq by lia.
Qed.

Lemma width_same t t' : t_config t' = t_config t -> width t' = width t.
Proof. unfold width. by intros ->. Qed.

(** The last callback: no deadline is left. *)
Lemma last_expiration n i s T : 0 <= i < Z.of_nat (length (timer s)) ->
  qemu_timer (tm s i) = Some T -> Z.testbit (t_config (tm s i)) 3 = false ->
  (width (tm s i) = 32 -> wrap_flag (tm s i) = 0) ->
  let r := expirations (S n) i s in
  fst r = [T] /\ qemu_timer (tm (snd r) i) = None /\
  (may_interrupt i s -> irqs (snd r) = asserted (tm s i) s ++ irqs s).
Proof.
  intros Hi HT H3 Hw. cbn [expirations]. rewrite HT, hpet_timer_one_shot by done. cbv zeta.
  replace ((width (tm s i) =? 32) && truthy (wrap_flag (tm s i))) with false
    by (destruct (Z.eqb_spec (width (tm s i)) 32) as [E|]; [by rewrite (Hw E)|done]).
  set (t := set_qemu_timer None (tm s i)).
  destruct (callback_end i t s Hi eq_refl eq_refl eq_refl) as [T1 I1].
  set (s1 := update_irq i true (put_tm i t s)) in *.
  assert (E : expirations n i s1 = ([], s1)) by (destruct n; cbn [expirations]; [done|by rewrite T1]).
  rewrite E. cbn [fst snd]. by rewrite T1.
Qed.

Lemma quiet_expirations n i : forall s, quiet s (snd (expirations n i s)).
Proof.
  induction n as [|n IH]; intros s; cbn [expirations]; [reflexivity|]. case_match; [|reflexivity].
  case_match eqn:E; [|reflexivity]. apply quiet_timer in E. etransitivity; [exact E|].
  specialize (IH h). by destruct (expirations n i h).
Qed.

(** The callback at the end of a 32-bit count arms the timer for the match. *)
Lemma wrap_expiration n T i s : 0 <= i < Z.of_nat (length (timer s)) ->
  let t := tm s i in
  let a := ahead t (hpet_get_ticks T s) in
  qemu_timer t = Some T -> Z.testbit (t_config t) 3 = false -> width t = 32 -> wrap_flag t = 1 ->
  a < 2 ^ 31 -> 0 <= T -> T + 10 * a < 2 ^ 63 ->
  let r := expirations (S (S n)) i s in
  fst r = [T; T + 10 * a] /\ qemu_timer (tm (snd r) i) = None /\
  (may_interrupt i s -> irqs (snd r) = asserted t s ++ asserted t s ++ irqs s).
Proof.
  intros Hi t a HT H3 Hw Hf Ha HT0 HT1 r.
  pose proof (ahead_range t (hpet_get_ticks T s)) as Ra. fold a in Ra.
  set (t1 := set_wrap_flag 0 (set_qemu_timer (Some (T + 10 * a)) (set_qemu_timer None t))).
  set (s1 := update_irq i true (put_tm i t1 s)).
  assert (E : hpet_timer 0 (fun _ => T) i s = Some s1).
  { rewrite hpet_timer_one_shot by done. cbv zeta. fold t. rewrite Hw, Hf. cbn [Z.eqb Pos.eqb andb truthy negb].
    replace (hpet_calculate_diff (set_qemu_timer None t) (hpet_get_ticks T s)) with a.
    - by rewrite arm_eq by lia.
    - symmetry. apply (diff_ahead (set_qemu_timer None t)).
      change (a < 2 ^ (width t - 1)). by rewrite Hw. }
  destruct (callback_end i t1 s Hi eq_refl eq_refl eq_refl) as [T1 I1]. fold s1 t in T1, I1.
  assert (Q : quiet s s1) by (etransitivity; [apply quiet_put_tm|apply quiet_update_irq]).
  destruct (last_expiration n i s1 (T + 10 * a)) as (F & N & I).
  { by rewrite (q_length _ _ Q). } { by rewrite T1. } { by rewrite T1. } { by rewrite T1. }
  unfold r. cbn [expirations] in F, N, I |- *. fold t. rewrite HT, E.
  destruct (match qemu_timer (tm s1 i) with Some _ => _ | None => _ end) as [ts s2]. cbn [fst snd] in *.
  split; [by rewrite F|]. split; [done|]. intros M. rewrite I.
  - rewrite T1, I1 by done. rewrite (asserted_same t t1 s s1); [done|apply Q|done..].
  - unfold may_interrupt in *. rewrite T1. by rewrite (q_config _ _ Q).
Qed.

(** C20: A one-shot timer expires when the counter reaches its comparator: after
    it is set up with the comparator less than half of the counter's range
    ahead, its callbacks run at the moment of the match, and before it for a
    32-bit timer whose counter passes the end of its range, at the moment the
    low half is all ones; then the timer is off.  Each callback sends the
    interrupt. *)
Theorem hpet_one_shot_expires n now i s pit :
  reachable s pit -> 0 <= i < 32 ->
  let t := tm s i in
  let cur := hpet_get_ticks now s in
  let a := ahead t cur in
  let wraps := (width t =? 32) && (until_wrap cur <? a) in
  Z.testbit (t_config t) 3 = false -> a < 2 ^ (width t - 1) ->
  0 <= now -> now + 10 * a < 2 ^ 63 -> u64 (now + hpet_offset s) + 10 * a < 2 ^ 64 ->
  let r := expirations (S (S n)) i (hpet_set_timer now now i s) in
  fst r = (if wraps then [now + 10 * until_wrap cur] else []) ++ [now + 10 * a] /\
  hpet_get_ticks (now + 10 * a) (snd r) mod 2 ^ width t = cmp t mod 2 ^ width t /\
  qemu_timer (tm (snd r) i) = None /\
  (may_interrupt i s ->
   irqs (snd r) = asserted t s ++ (if wraps then asserted t s else []) ++ irqs s).
Proof.
  intros R Hi t cur a wraps H3 Ha Hn Hs Hu r. apply reachable_ok in R as [O _].
  assert (L : 0 <= i < Z.of_nat (length (timer s))) by (rewrite (ok_length _ s O); lia).
  pose proof (ahead_range t cur) as Ra. fold a in Ra.
  assert (Q : quiet s (snd r)).
  { etransitivity; [apply (quiet_set_timer now now i)|apply quiet_expirations]. }
  assert (K : hpet_get_ticks (now + 10 * a) (snd r) mod 2 ^ width t = cmp t mod 2 ^ width t).
  { rewrite (get_ticks_offset _ s) by apply Q. rewrite get_ticks_later by lia. fold cur.
    unfold a, ahead. rewrite Zplus_mod_idemp_r. f_equal. ring. }
  enough (G : fst r = (if wraps then [now + 10 * until_wrap cur] else []) ++ [now + 10 * a] /\
    qemu_timer (tm (snd r) i) = None /\
    (may_interrupt i s -> irqs (snd r) = asserted t s ++ (if wraps then asserted t s else []) ++ irqs s))
    by (destruct G as (G1 & G2 & G3); done).
  clear K Q. unfold r. rewrite set_timer_one_shot by done. cbv zeta. fold t cur a wraps.
  set (t0 := set_qemu_timer _ _). set (s0 := put_tm i t0 s).
  assert (T0 : tm s0 i = t0) by (by apply tm_put_eq).
  assert (L0 : 0 <= i < Z.of_nat (length (timer s0))) by (cbn; by rewrite length_insert).
  assert (A0 : asserted t0 s0 = asserted t s) by (by apply asserted_same).
  assert (M0 : may_interrupt i s -> may_interrupt i s0) by (unfold may_interrupt; by rewrite T0).
  destruct wraps eqn:W.
  - apply andb_true_iff in W as [W1 W2]. rewrite Z.eqb_eq in W1. rewrite Z.ltb_lt in W2.
    assert (U : 0 <= until_wrap cur) by (unfold until_wrap; dlia).
    assert (A1 : ahead (tm s0 i) (hpet_get_ticks (now + 10 * until_wrap cur) s0) = a - until_wrap cur).
    { rewrite T0, (get_ticks_offset _ s) by done. rewrite get_ticks_later by lia. fold cur.
      rewrite <- (Z.mod_small (a - until_wrap cur) (2 ^ width t)) by lia.
      unfold ahead at 1. change (width t0) with (width t). change (cmp t0) with (cmp t).
      unfold a, ahead. rewrite Zminus_mod_idemp_l. f_equal. ring. }
    destruct (wrap_expiration n (now + 10 * until_wrap cur) i s0 L0) as (F & N & I);
      rewrite ?A1, ?T0; try done; try lia.
    { rewrite W1 in Ha. lia. }
    rewrite A1 in F. split; [rewrite F; cbn [app]; do 2 f_equal; lia|]. split; [done|]. intros M.
    by rewrite I, T0, A0 by auto.
  - destruct (last_expiration (S n) i s0 (now + 10 * a) L0) as (F & N & I); rewrite ?T0; try done.
    split; [done|]. split; [done|]. intros M. by rewrite I, T0, A0 by auto.
Qed.

(** ** Saving and loading *)

Lemma get_ticks_fits now s : 10 * hpet_get_ticks now s < 2 ^ 64.
Proof.
  rewrite get_ticks_eq. pose proof (wrap_range 64 (now + hpet_offset s) ltac:(lia)) as H.
  unfold is_uint in H. dlia.
Qed.

(** The counter of a loaded device. *)
Lemma loaded_counter t1 t2 src dst r now : loaded t1 t2 src dst r ->
  counter_now now r =
  if Z.testbit (config src) 0 then wrapped (Running (hpet_get_ticks t1 src) t2) now else hpet_get_ticks t1 src.
Proof.
  intros L. unfold counter_now. rewrite enabled_bit, (l_config _ _ _ _ _ L). destruct (Z.testbit (config src) 0).
  - rewrite get_ticks_eq, (l_offset _ _ _ _ _ L). cbn [wrapped]. unfold wrap. rewrite Zplus_mod_idemp_r.
    do 2 f_equal. ring.
  - apply L.
Qed.

(** A device that is saved and loaded shows the guest the registers it
    had: every register reads as before, but for those of the timer one past
    the offered ones, which is not saved, and the main counter.  A running
    counter continues from the value it had when it was saved; a halted one,
    however, reads as if it had never been halted, since the ticks of the
    clock are saved in its place. *)
Theorem hpet_save_load t1 t2 src dst fw pit pit' :
  reachable src pit -> reachable dst pit' ->
  let r := fst (migrate t1 t2 src dst fw) in
  (forall addr now, addr <> HPET_COUNTER -> addr <> HPET_COUNTER + 4 ->
     (is_tn_reg addr = true -> timer_id addr <> num_timers src) ->
     hpet_ram_readl now r addr = hpet_ram_readl t1 src addr) /\
  (forall i, 0 <= i < num_timers src -> tm r i = tm src i) /\
  (Z.testbit (config src) 0 = true ->
     counter_now t2 r = counter_now t1 src /\
     forall now, counter_now now r = wrapped (Running (counter_now t1 src) t2) now) /\
  (Z.testbit (config src) 0 = false -> forall now, counter_now now r = hpet_get_ticks t1 src).
Proof.
  intros Rs Rd r. apply reachable_ok in Rs as [Os _]. apply reachable_ok in Rd as [Od _].
  pose proof (migrate_loaded t1 t2 src dst fw Os Od) as L. fold r in L. clearbody r.
  pose proof (ok_num _ src Os) as N.
  assert (T : forall i, 0 <= i < num_timers src -> tm r i = tm src i).
  { intros i Hi. rewrite (l_tm _ _ _ _ _ L) by lia. by destruct (Z.ltb_spec i (num_timers src)); [|lia]. }
  split; [|split; [exact T|split]].
  - intros addr now N1 N2 Ht. unfold hpet_ram_readl.
    rewrite (l_num _ _ _ _ _ L), (l_config _ _ _ _ _ L), (l_isr _ _ _ _ _ L), (l_capability _ _ _ _ _ L),
      (ok_capability _ src Os).
    destruct (is_tn_reg addr) eqn:E.
    + pose proof (timer_id_range addr E). specialize (Ht eq_refl).
      destruct (Z.ltb_spec (num_timers src) (timer_id addr)); [done|]. rewrite T by lia. done.
    + apply Z.eqb_neq in N1, N2. by rewrite N1, N2.
  - intros E. assert (C : counter_now t1 src = hpet_get_ticks t1 src) by (unfold counter_now; by rewrite enabled_bit, E).
    rewrite C. split; [|intros now; by rewrite (loaded_counter t1 t2 src dst r now L), E].
    rewrite (loaded_counter t1 t2 src dst r t2 L), E. cbn [wrapped].
    pose proof (get_ticks_fits t1 src). pose proof (get_ticks_range t1 src) as G. unfold is_uint in G.
    rewrite Z.mod_small by lia. rewrite Z.sub_diag, Z.add_0_r, Z.mul_comm. by apply Z.div_mul.
  - intros E now. by rewrite (loaded_counter t1 t2 src dst r now L), E.
Qed.

(** ** Legacy replacement *)

(** A write to the configuration register. *)
Lemma writel_cfg clk s pit v : hpet_ram_writel clk s pit HPET_CFG v = write_cfg clk (u32 (config s)) v s pit.
Proof. done. Qed.

Lemma cfg_switched_fields clk v s : ok s ->
  rtc_irq_level (cfg_switched clk v s) = rtc_irq_level s /\ config (cfg_switched clk v s) = v &. 3.
Proof.
  intros O. unfold cfg_switched. rewrite cfg_value by apply O. case_match; [|case_match].
  - destruct (quiet_start clk (set_config (v &. 3) s)) as [_ _ -> _ _ _ -> _ _]. done.
  - destruct (quiet_halt clk (set_config (v &. 3) s)) as [_ _ -> _ _ _ -> _ _]. done.
  - done.
Qed.

(** In legacy mode the levels of the clock are kept and go nowhere. *)
Lemma rtc_levels_kept levels : forall s, Z.testbit (config s) 1 = true -> Forall is_u8 levels ->
  let s' := foldl (fun s l => hpet_handle_rtc_irq l s) s levels in
  s' = set_rtc_irq_level (List.last levels (rtc_irq_level s)) s.
Proof.
  induction levels as [|l levels IH] using rev_ind; intros s Hs Hl; [by destruct s|].
  apply Forall_app in Hl as [Hl H1]. rewrite Forall_singleton in H1. rewrite foldl_app. cbn [foldl].
  rewrite (IH s Hs Hl). unfold hpet_handle_rtc_irq. rewrite legacy_bit. cbn [config set_rtc_irq_level].
  rewrite Hs, wrap_small, List.last_last by done. done.
Qed.

(** In legacy mode the device stands in for the interval timer and the
    real time clock.  When the guest turns the mode on, whatever else it
    switches with the same write, the interval timer's channel 0 is stopped and
    the line of the clock is lowered; then the levels the clock drives do not
    reach the line; and when the mode is turned off the line gets the level
    the clock has by then, and channel 0 runs again as a square wave of 65536
    ticks, whatever was done to it in between. *)
Theorem hpet_legacy_mode clk clk' v v' levels s pit pit2 :
  reachable s pit -> Z.testbit (config s) 1 = false -> Z.testbit v 1 = true -> Z.testbit v' 1 = false ->
  Forall is_u8 levels -> length (I8254.channels pit2) = 3%nat ->
  exists s1 pit1 c1 s3 pit3 c3 r1 r3,
    let s2 := foldl (fun s l => hpet_handle_rtc_irq l s) s1 levels in
    hpet_ram_writel clk s pit HPET_CFG v = Some (s1, pit1) /\
    irqs s1 = Line RTC_ISA_IRQ 0 :: r1 /\
    I8254.channels pit1 !! 0%nat = Some c1 /\ (forall t, I8254.irq_timer c1 <> Some (Some t)) /\
    irqs s2 = irqs s1 /\
    hpet_ram_writel clk' s2 pit2 HPET_CFG v' = Some (s3, pit3) /\
    irqs s3 = Line RTC_ISA_IRQ (List.last levels (rtc_irq_level s)) :: r3 /\
    I8254.channels pit3 !! 0%nat = Some c3 /\
    I8254.mode c3 = 3 /\ I8254.gate c3 = 1 /\ I8254.count c3 = 0x10000.
Proof.
  intros R H1 Hv Hv' Hl H2. apply reachable_ok in R as [O L].
  destruct (lookup_lt_is_Some_2 (I8254.channels pit) 0) as [c C]; [lia|].
  destruct (lookup_lt_is_Some_2 (I8254.channels pit2) 0) as [d D]; [lia|].
  destruct (cfg_switched_fields clk v s O) as [F1 F2]. set (s0 := cfg_switched clk v s) in *.
  set (s1 := qemu_irq_lower RTC_ISA_IRQ s0).
  assert (B1 : Z.testbit (config s1) 1 = true).
  { change (config s1) with (config s0). rewrite F2, Z.land_spec, Hv. done. }
  pose proof (rtc_levels_kept levels s1 B1 Hl) as E2. cbv zeta in E2. change (rtc_irq_level s1) with (rtc_irq_level s0) in E2.
  rewrite F1 in E2. set (s2 := set_rtc_irq_level _ s1) in E2.
  set (s2' := cfg_switched clk' v' s2).
  assert (F3 : rtc_irq_level s2' = List.last levels (rtc_irq_level s)).
  { unfold s2', cfg_switched. set (x := set_config _ s2). case_match; [|case_match; [|done]].
    - by destruct (quiet_start clk' x) as [_ _ -> _ _ _ _ _ _].
    - by destruct (quiet_halt clk' x) as [_ _ -> _ _ _ _ _ _]. }
  exists s1, (I8254.mkPIT (<[0%nat := I8254.hpet_disable1 c]> (I8254.channels pit))), (I8254.hpet_disable1 c).
  exists (qemu_set_irq RTC_ISA_IRQ (rtc_irq_level s2') s2').
  exists (I8254.mkPIT (<[0%nat := I8254.hpet_enable1 (last_reading clk' s2') d]> (I8254.channels pit2))).
  exists (I8254.hpet_enable1 (last_reading clk' s2') d), (irqs s0), (irqs s2'). cbv zeta. rewrite E2.
  split; [|split; [done|split; [apply list_lookup_insert_eq; cbn; lia|split; [|split; [done|split; [|split]]]]]].
  - rewrite writel_cfg. unfold write_cfg. fold (cfg_switched clk v s). cbv zeta. fold s0.
    rewrite (activating _ _ 1 HPET_CFG_LEGACY), wrap_testbit, H1, Hv by (done || lia). cbn [negb andb].
    unfold I8254.hpet_pit_disable, I8254.on_channel. change (Z.to_nat 0) with 0%nat. by rewrite C.
  - intros t. unfold I8254.hpet_disable1. destruct (I8254.irq_timer c) eqn:E; [done|by rewrite E].
  - rewrite writel_cfg. unfold write_cfg. fold (cfg_switched clk' v' s2). cbv zeta. fold s2'.
    rewrite (activating _ _ 1 HPET_CFG_LEGACY), (deactivating _ _ 1 HPET_CFG_LEGACY), wrap_testbit by (done || lia).
    change (config s2) with (config s1). rewrite B1, Hv'. cbn [negb andb].
    unfold I8254.hpet_pit_enable, I8254.on_channel. change (Z.to_nat 0) with 0%nat. by rewrite D.
  - by rewrite <- F3.
  - split; [apply list_lookup_insert_eq; cbn; lia|].
    unfold I8254.hpet_enable1, I8254.pit_load_count, I8254.pit_irq_timer_update. repeat case_match; done.
Qed.

(** ** A guest that stops the machine *)

Lemma advance32_stuck cur p : p mod 2 ^ 32 = 0 ->
  forall fuel c, hpet_time_after cur c = true -> advance32 fuel cur p c = None.
Proof.
  intros Hp. induction fuel as [|fuel IH]; intros c Hc; [done|]. cbn [advance32]. rewrite Hc. apply IH.
  rewrite <- Hc. unfold hpet_time_after.
  assert (E : s32 (u32 (u64 (c + p))) = s32 c); [|by rewrite E].
  assert (E : u32 (u64 (c + p)) mod 2 ^ 32 = c mod 2 ^ 32).
  { unfold wrap. rewrite Z.mod_mod by lia. rewrite (Z.mod_mod_divide _ (2 ^ 64) (2 ^ 32)) by (by exists (2 ^ 32)).
    by rewrite <- Zplus_mod_idemp_r, Hp, Z.add_0_r. }
  unfold swrap. f_equal. by rewrite <- Zplus_mod_idemp_l, E, Zplus_mod_idemp_l.
Qed.

(** A 32-bit periodic timer whose high half of the period is written: the
    period is [2^32]. *)
Definition hanging_guest : list (Z * Z) := [(0x100, 0x10c); (0x10c, 1); (0x10, 1)].

(** Three register writes of the guest make the emulator loop for ever.  A
    32-bit periodic timer accepts a write to the upper half of its period; a
    period that is a multiple of [2^32] is not zero, but adding it does not
    move the comparator, so that once the counter has passed the comparator
    the timer's callback never returns. *)
Theorem hpet_period_hangs :
  exists s pit T, demo 1000 hanging_guest = Some (s, pit) /\ reachable s pit /\
    qemu_timer (tm s 0) = Some T /\ T = 1000 /\
    forall fuel clk, clk 0%nat = T -> hpet_timer fuel clk 0 s = None.
Proof.
  destruct (demo 1000 hanging_guest) as [[s pit]|] eqn:E; [|by vm_compute in E].
  assert (R : reachable s pit) by (eapply demo_reachable; [|exact E]; repeat constructor; by vm_compute).
  exists s, pit, 1000. split; [done|]. split; [done|].
  assert (F : (fun x => (qemu_timer (tm (fst x) 0), t_config (tm (fst x) 0), period (tm (fst x) 0), cmp (tm (fst x) 0),
    hpet_get_ticks 1000 (fst x))) <$> demo 1000 hanging_guest = Some (Some 1000, 0x40000013c, 2 ^ 32, 0xffffffff, 0))
    by (by vm_compute).
  rewrite E in F. cbn [fmap option_fmap option_map fst] in F. injection F as F1 F2 F3 F4 F5.
  split; [done|]. split; [done|]. intros fuel clk Hc. unfold hpet_timer.
  change (t_config (set_qemu_timer None (tm s 0))) with (t_config (tm s 0)).
  unfold timer_is_periodic.
  change (period (set_qemu_timer None (tm s 0))) with (period (tm s 0)).
  change (cmp (set_qemu_timer None (tm s 0))) with (cmp (tm s 0)).
  change (t_config (set_qemu_timer None (tm s 0))) with (t_config (tm s 0)).
  rewrite F2, F3, F4, Hc, F5.
  change (truthy (0x40000013c &. HPET_TN_PERIODIC) && negb (2 ^ 32 =? 0)) with true.
  change (truthy (0x40000013c &. HPET_TN_32BIT)) with true. cbv iota.
  rewrite advance32_stuck; [done|done|by vm_compute].
Qed.

(** ** Examples *)

(** A 64-bit timer with a period of 100 ticks: the comparator's two halves are
    written first. *)
Definition slow_tick : list (Z * Z) :=
  [(0x100, 0x4c); (0x10c, 0); (0x100, 0x4c); (0x108, 100); (0x10, 1)].

(** It is served 150 ticks late. *)
Lemma hpet_periodic_grid_witness :
  exists s', hpet_timer 5 (fun _ => 3500) 0 (demo_state 1000 slow_tick) = Some s' /\
    cmp (tm s' 0) mod 2 ^ 64 = 300.
Proof.
  destruct (hpet_periodic_grid 5 (fun _ => 3500) 0 (demo_state 1000 slow_tick)
    (demo_pit 1000 slow_tick)) as (s' & E & C & _);
    [|by vm_compute..|].
  - apply demo_state_reachable; [repeat constructor; by vm_compute|]. eexists. vm_compute. reflexivity.
  - exists s'. split; [exact E|]. etransitivity; [exact C|]. vm_compute. reflexivity.
Defined.

(** A 32-bit one-shot timer whose comparator 16 lies beyond the end of the
    count, which starts at [0xfffffff0]. *)
Lemma hpet_one_shot_expires_witness :
  fst (expirations 2 0 (hpet_set_timer 1000 1000 0
    (demo_state 1000 [(0xf0, 0xfffffff0); (0x100, 0x104); (0x108, 16); (0x10, 1)]))) = [1150; 1320].
Proof.
  destruct (hpet_one_shot_expires 0 1000 0
    (demo_state 1000 [(0xf0, 0xfffffff0); (0x100, 0x104); (0x108, 16); (0x10, 1)])
    (demo_pit 1000 [(0xf0, 0xfffffff0); (0x100, 0x104); (0x108, 16); (0x10, 1)])) as (H & _);
    [|by vm_compute..|].
  - apply demo_state_reachable; [repeat constructor; by vm_compute|]. eexists. vm_compute. reflexivity.
  - etransitivity; [exact H|]. vm_compute. reflexivity.
Defined.

(** A running counter is saved at 5000 ns and loaded at 70000 ns. *)
Lemma hpet_save_load_witness :
  counter_now 70000 (fst (migrate 5000 70000 (demo_state 1000 [(0x10, 1)]) (demo_state 0 []) hpet_cfg)) = 400.
Proof.
  destruct (hpet_save_load 5000 70000 (demo_state 1000 [(0x10, 1)]) (demo_state 0 []) hpet_cfg
    (demo_pit 1000 [(0x10, 1)]) (demo_pit 0 [])) as (_ & _ & H & _).
  - apply demo_state_reachable; [repeat constructor; by vm_compute|]. eexists. vm_compute. reflexivity.
  - apply demo_state_reachable; [constructor|]. eexists. vm_compute. reflexivity.
  - destruct H as [H _]; [by vm_compute|]. etransitivity; [exact H|]. vm_compute. reflexivity.
Defined.

(** The clock raises its line in legacy mode. *)
Lemma hpet_legacy_mode_witness :
  exists s1 pit1 s3 pit3 r3,
    hpet_ram_writel (fun _ => 10) (demo_state 0 []) (demo_pit 0 []) HPET_CFG 3 = Some (s1, pit1) /\
    hpet_ram_writel (fun _ => 99) (hpet_handle_rtc_irq 1 s1) I8254.pit_state HPET_CFG 1 = Some (s3, pit3) /\
    irqs s3 = Line RTC_ISA_IRQ 1 :: r3.
Proof.
  destruct (hpet_legacy_mode (fun _ => 10) (fun _ => 99) 3 1 [1] (demo_state 0 []) (demo_pit 0 []) I8254.pit_state)
    as (s1 & pit1 & c1 & s3 & pit3 & c3 & r1 & r3 & H1 & _ & _ & _ & _ & H2 & H3 & _).
  - apply demo_state_reachable; [constructor|]. eexists. vm_compute. reflexivity.
  - by vm_compute.
  - by vm_compute.
  - by vm_compute.
  - repeat constructor; by vm_compute.
  - reflexivity.
  - exists s1, pit1, s3, pit3, r3. split; [exact H1|]. split; [exact H2|exact H3].
Defined.

End HpetTimers.
