(* ===== verification/Timer.v ===== *)
(** * Clocks and timers of the emulator (src/qemu/qemu-timer.c, qemu-timer.h)

    What the devices know of time: the guest's cycle counter and virtual clock
    with their stop and restart and their replacement by the simulator's cycle
    count, and the three lists of active timers.

    A timer is a cell of [heap], with the pointer [next] of its list; a list is
    reached from its head in [active_timers] through pointers to pointers
    ([slot]), as in the source, and an access to a cell that is not allocated
    is [None].  The pair [cb], [opaque] of a timer is found by its address: the
    callbacks are a parameter, [script], that says which timers a callback arms
    and stops.  Calls of [t->rearm], [qemu_notify_event] and of the callbacks
    are logged in [calls], newest first.  What the code reads of its
    surroundings is the record [Env].

    The loops over lists have one unit of fuel more than there are timers, and
    never use it up; that of [qemu_run_timers], which callbacks can prolong,
    takes its fuel as an argument. *)
From Stdlib Require Import SpecFloat.
From Stdlib Require Sorted.
From S2P Require Import Prelude.
From stdpp Require Import list gmap.

#[local] Open Scope Z_scope.
#[local] Open Scope c_scope.

Module Timer.

(** ** Surroundings *)

Definition QEMU_CLOCK_REALTIME : Z := 0.
Definition QEMU_CLOCK_VIRTUAL : Z := 1.
Definition QEMU_CLOCK_HOST : Z := 2.
Definition QEMU_NUM_CLOCKS : Z := 3.
Definition MIN_TIMER_REARM_NS : Z := 250000.
Definition SIM_MIN_TIMER_REARM_NS : Z := MIN_TIMER_REARM_NS * 4.
Definition MAX_ICOUNT_SHIFT : Z := 10.
Definition INT32_MAX : Z := 2 ^ 31 - 1.
Definition INT64_MAX : Z := 2 ^ 63 - 1.
Definition get_ticks_per_sec : Z := 1000000000.
Definition ICOUNT_WOBBLE : Z := get_ticks_per_sec / 10.

(** The host's counters, the simulator's cycle count and frequency, and the
    mode of the emulator. *)
Record Env := mkEnv {
  in_simulation : bool;
  sim_cycle : Z;
  sim_cpu_freq : Z;
  use_icount : Z;
  cpu_icount : Z;
  vm_running : bool;
  real_ticks : Z;
  host_clock : Z;
  host_realtime : Z
}.

(** ** The guest's cycle counter and virtual clock *)

Record TimersState := mkTS {
  cpu_ticks_prev : Z;
  cpu_ticks_offset : Z;
  cpu_clock_offset : Z;
  cpu_ticks_enabled : Z;
  cpu_sim_ticks_offset : Z;
  cpu_sim_clock_offset : Z
}.

Definition set_cpu_ticks_prev (v : Z) (s : TimersState) : TimersState :=
  mkTS v (cpu_ticks_offset s) (cpu_clock_offset s) (cpu_ticks_enabled s)
    (cpu_sim_ticks_offset s) (cpu_sim_clock_offset s).
Definition set_cpu_ticks_offset (v : Z) (s : TimersState) : TimersState :=
  mkTS (cpu_ticks_prev s) v (cpu_clock_offset s) (cpu_ticks_enabled s)
    (cpu_sim_ticks_offset s) (cpu_sim_clock_offset s).
Definition set_cpu_clock_offset (v : Z) (s : TimersState) : TimersState :=
  mkTS (cpu_ticks_prev s) (cpu_ticks_offset s) v (cpu_ticks_enabled s)
    (cpu_sim_ticks_offset s) (cpu_sim_clock_offset s).
Definition set_cpu_ticks_enabled (v : Z) (s : TimersState) : TimersState :=
  mkTS (cpu_ticks_prev s) (cpu_ticks_offset s) (cpu_clock_offset s) v
    (cpu_sim_ticks_offset s) (cpu_sim_clock_offset s).
Definition set_cpu_sim_ticks_offset (v : Z) (s : TimersState) : TimersState :=
  mkTS (cpu_ticks_prev s) (cpu_ticks_offset s) (cpu_clock_offset s) (cpu_ticks_enabled s)
    v (cpu_sim_clock_offset s).
Definition set_cpu_sim_clock_offset (v : Z) (s : TimersState) : TimersState :=
  mkTS (cpu_ticks_prev s) (cpu_ticks_offset s) (cpu_clock_offset s) (cpu_ticks_enabled s)
    (cpu_sim_ticks_offset s) v.

(** The static [timers_state]. *)
Definition timers_state : TimersState := mkTS 0 0 0 0 0 0.

Definition cpu_get_ticks (e : Env) (s : TimersState) : Z * TimersState :=
  if in_simulation e then (s64 (cpu_sim_ticks_offset s + sim_cycle e), s)
  else if truthy (use_icount e) then (cpu_icount e, s)
  else if truthy (cpu_ticks_enabled s) then
    let ticks := real_ticks e in
    let s :=
      if ticks <? cpu_ticks_prev s then
        set_cpu_ticks_offset (s64 (cpu_ticks_offset s + s64 (cpu_ticks_prev s - ticks))) s
      else s in
    let s := set_cpu_ticks_prev ticks s in
    (s64 (ticks + cpu_ticks_offset s), s)
  else (cpu_ticks_offset s, s).

Definition cpu_get_clock (e : Env) (s : TimersState) : Z :=
  if truthy (cpu_ticks_enabled s) then s64 (host_clock e + cpu_clock_offset s)
  else cpu_clock_offset s.

Definition qemu_icount_delta (e : Env) (s : TimersState) : Z :=
  if negb (truthy (use_icount e)) then 5000 * 1000000
  else if use_icount e =? 1 then 0
  else s64 (cpu_icount e - cpu_get_clock e s).

Definition cpu_enable_ticks (e : Env) (s : TimersState) : TimersState :=
  if truthy (cpu_ticks_enabled s) then s
  else
    let s := set_cpu_ticks_offset (s64 (cpu_ticks_offset s - real_ticks e)) s in
    let s := set_cpu_clock_offset (s64 (cpu_clock_offset s - host_clock e)) s in
    set_cpu_ticks_enabled 1 s.

Definition cpu_disable_ticks (e : Env) (s : TimersState) : TimersState :=
  if truthy (cpu_ticks_enabled s) then
    let '(ticks, s) := cpu_get_ticks e s in
    let s := set_cpu_ticks_offset ticks s in
    let s := set_cpu_clock_offset (cpu_get_clock e s) s in
    set_cpu_ticks_enabled 0 s
  else s.

(** The result has the new value of [sim_update_clock_offset]. *)
Definition cpu_set_sim_ticks (e : Env) (sim_update_clock_offset : Z) (s : TimersState)
    : Z * TimersState :=
  if sim_update_clock_offset =? 1 then
    let s :=
      if truthy (cpu_ticks_enabled s) then
        let s := set_cpu_sim_ticks_offset (s64 (cpu_ticks_offset s + real_ticks e)) s in
        set_cpu_sim_clock_offset (s64 (cpu_clock_offset s + host_clock e)) s
      else
        let s := set_cpu_sim_ticks_offset (cpu_ticks_offset s) s in
        set_cpu_sim_clock_offset (cpu_clock_offset s) s in
    (0, s)
  else (sim_update_clock_offset, s).

(** *** The simulated clock *)

(** [x / 2^k] rounded to the nearest integer, ties to even. *)
Definition round_even (x k : Z) : Z :=
  let q := x >>. k in
  let r := x - (q <<. k) in
  let half := (1 <<. k) / 2 in
  if (half <? r) || ((half =? r) && truthy (q &. 1) && (0 <? k)) then q + 1 else q.

(** The value of [(float) n] for an unsigned [n]: 24 significant bits. *)
Definition float_of (n : Z) : Z :=
  let k := Z.max 0 (Z.log2 n - 23) in
  round_even n k <<. k.

Definition double_of (n : Z) : spec_float := binary_normalize 53 1024 n 0 false.

(** Conversion to [int64_t], towards zero; other values are undefined in C. *)
Definition int64_of (f : spec_float) : option Z :=
  match f with
  | S754_zero _ => Some 0
  | S754_finite s m e =>
      let a := if 0 <=? e then Z.pos m * 2 ^ e else Z.pos m / 2 ^ (- e) in
      if a <? 2 ^ 63 then Some (if s then - a else a) else None
  | _ => None
  end.

(** [1e9 / freq]. *)
Definition freq_to_ns (freq : Z) : spec_float := SFdiv 53 1024 (double_of 1000000000) (double_of freq).

Definition cpu_get_sim_clock (e : Env) (s : TimersState) : option Z :=
  ns ← int64_of (SFmul 53 1024 (double_of (float_of (sim_cycle e))) (freq_to_ns (sim_cpu_freq e)));
  Some (s64 (cpu_sim_clock_offset s + ns)).

Definition qemu_get_clock (e : Env) (s : TimersState) (type : Z) : option Z :=
  if type =? QEMU_CLOCK_REALTIME then Some (host_clock e ÷ 1000000)
  else if type =? QEMU_CLOCK_HOST then Some (host_realtime e)
  else if in_simulation e then cpu_get_sim_clock e s
  else if truthy (use_icount e) then Some (cpu_icount e)
  else Some (cpu_get_clock e s).

Definition qemu_get_clock_ns (e : Env) (s : TimersState) (type : Z) : Z :=
  if type =? QEMU_CLOCK_REALTIME then host_clock e
  else if type =? QEMU_CLOCK_HOST then host_realtime e
  else if truthy (use_icount e) then cpu_icount e
  else cpu_get_clock e s.

(** *** Instruction counting *)

Record Icount := mkIcount {
  icount_time_shift : Z;
  qemu_icount_bias : Z;
  qemu_icount : Z;
  last_delta : Z
}.

Definition qemu_icount_round (ic : Icount) (count : Z) : Z :=
  s64 (s64 (count + s32 (1 <<. icount_time_shift ic)) - 1) >>. icount_time_shift ic.

(** [cur_time] and [cur_icount] are the two readings. *)
Definition icount_adjust (running : bool) (cur_time cur_icount : Z) (ic : Icount) : Icount :=
  if negb running then ic
  else
    let delta := s64 (cur_icount - cur_time) in
    let shift := icount_time_shift ic in
    let shift :=
      if (0 <? delta) && (s64 (last_delta ic + ICOUNT_WOBBLE) <? s64 (delta * 2)) && (0 <? shift)
      then shift - 1 else shift in
    let shift :=
      if (delta <? 0) && (s64 (delta * 2) <? s64 (last_delta ic - ICOUNT_WOBBLE))
         && (shift <? MAX_ICOUNT_SHIFT)
      then shift + 1 else shift in
    mkIcount shift (s64 (cur_icount - s64 (qemu_icount ic <<. shift))) (qemu_icount ic) delta.

(** ** Timers *)

Record QEMUTimer := mkTimer { clock : Z; expire_time : Z; next : option Z }.

Record qemu_alarm_timer := mkAlarm { rearm : bool; expired : Z; pending : Z }.

Inductive Call :=
  | Rearm
  | Notify
  | Callback (t : Z).

Record Timers := mkTimers {
  heap : gmap Z QEMUTimer;
  active_timers : list (option Z);
  alarm_timer : qemu_alarm_timer;
  calls : list Call
}.

Definition set_heap (v : gmap Z QEMUTimer) (m : Timers) : Timers :=
  mkTimers v (active_timers m) (alarm_timer m) (calls m).
Definition set_active_timers (v : list (option Z)) (m : Timers) : Timers :=
  mkTimers (heap m) v (alarm_timer m) (calls m).
Definition set_alarm_timer (v : qemu_alarm_timer) (m : Timers) : Timers :=
  mkTimers (heap m) (active_timers m) v (calls m).
Definition add_call (v : Call) (m : Timers) : Timers :=
  mkTimers (heap m) (active_timers m) (alarm_timer m) (v :: calls m).

(** No timer exists yet. *)
Definition no_timers (dynticks : bool) : Timers :=
  mkTimers ∅ (replicate (Z.to_nat QEMU_NUM_CLOCKS) None) (mkAlarm dynticks 0 1) [].

(** [&active_timers[c]] and [&t->next]. *)
Inductive slot :=
  | Head (c : nat)
  | Next (t : Z).

(** [&active_timers[type]]. *)
Definition head_of (type : Z) : slot := Head (Z.to_nat type).

Definition load (pt : slot) (m : Timers) : option (option Z) :=
  match pt with
  | Head c => active_timers m !! c
  | Next t => next <$> heap m !! t
  end.

Definition store (pt : slot) (v : option Z) (m : Timers) : option Timers :=
  match pt with
  | Head c =>
      _ ← active_timers m !! c;
      Some (set_active_timers (<[c := v]> (active_timers m)) m)
  | Next t =>
      x ← heap m !! t;
      Some (set_heap (<[t := mkTimer (clock x) (expire_time x) v]> (heap m)) m)
  end.

(** [qemu_new_timer], with the memory it gets at the address [ts]. *)
Definition qemu_new_timer (ts type : Z) (m : Timers) : Timers :=
  set_heap (<[ts := mkTimer type 0 None]> (heap m)) m.

Definition qemu_free_timer (ts : Z) (m : Timers) : Timers := set_heap (delete ts (heap m)) m.

Definition list_fuel (m : Timers) : nat := S (size (heap m)).

Fixpoint del_loop (fuel : nat) (ts : Z) (pt : slot) (m : Timers) : option Timers :=
  match fuel with
  | O => None
  | S fuel =>
      t ← load pt m;
      match t with
      | None => Some m
      | Some t =>
          if t =? ts then
            x ← heap m !! t;
            store pt (next x) m
          else del_loop fuel ts (Next t) m
      end
  end.

Definition qemu_del_timer (ts : Z) (m : Timers) : option Timers :=
  x ← heap m !! ts;
  del_loop (list_fuel m) ts (head_of (clock x)) m.

Fixpoint find_loop (fuel : nat) (expire : Z) (pt : slot) (m : Timers) : option slot :=
  match fuel with
  | O => None
  | S fuel =>
      t ← load pt m;
      match t with
      | None => Some pt
      | Some t =>
          x ← heap m !! t;
          if expire <? expire_time x then Some pt else find_loop fuel expire (Next t) m
      end
  end.

Definition qemu_rearm_alarm_timer (m : Timers) : Timers :=
  if rearm (alarm_timer m) then add_call Rearm m else m.

Definition is_head (pt : slot) : bool := match pt with Head _ => true | Next _ => false end.

(** [icount] is [use_icount]. *)
Definition qemu_mod_timer (icount ts expire : Z) (m : Timers) : option Timers :=
  m ← qemu_del_timer ts m;
  x ← heap m !! ts;
  pt ← find_loop (list_fuel m) expire (head_of (clock x)) m;
  nx ← load pt m;
  let m := set_heap (<[ts := mkTimer (clock x) expire nx]> (heap m)) m in
  m ← store pt (Some ts) m;
  if is_head pt then
    let m := if truthy (pending (alarm_timer m)) then m else qemu_rearm_alarm_timer m in
    Some (if truthy icount then add_call Notify m else m)
  else Some m.

Fixpoint pending_loop (fuel : nat) (ts : Z) (t : option Z) (m : Timers) : option Z :=
  match fuel with
  | O => None
  | S fuel =>
      match t with
      | None => Some 0
      | Some t =>
          if t =? ts then Some 1 else x ← heap m !! t; pending_loop fuel ts (next x) m
      end
  end.

Definition qemu_timer_pending (ts : Z) (m : Timers) : option Z :=
  x ← heap m !! ts;
  t ← load (head_of (clock x)) m;
  pending_loop (list_fuel m) ts t m.

Definition qemu_timer_expired (head : option Z) (current_time : Z) (m : Timers) : option Z :=
  match head with
  | None => Some 0
  | Some t => x ← heap m !! t; Some (of_bool (expire_time x <=? current_time))
  end.

(** What a callback does with timers. *)
Inductive Op :=
  | Mod (t expire : Z)
  | Del (t : Z).

Definition run_op (icount : Z) (o : Op) (m : Timers) : option Timers :=
  match o with
  | Mod t expire => qemu_mod_timer icount t expire m
  | Del t => qemu_del_timer t m
  end.

Fixpoint run_ops (icount : Z) (os : list Op) (m : Timers) : option Timers :=
  match os with
  | [] => Some m
  | o :: os => m ← run_op icount o m; run_ops icount os m
  end.

Section Callbacks.
Context {W : Type} (script : Z -> W -> list Op * W) (icount : Z).

(** [ts->cb(ts->opaque)]. *)
Definition callback (t : Z) (m : Timers) (w : W) : option (Timers * W) :=
  let '(os, w) := script t w in
  m ← run_ops icount os (add_call (Callback t) m);
  Some (m, w).

Fixpoint run_loop (fuel : nat) (type current_time : Z) (m : Timers) (w : W) : option (Timers * W) :=
  match fuel with
  | O => None
  | S fuel =>
      ts ← load (head_of type) m;
      match ts with
      | None => Some (m, w)
      | Some ts =>
          x ← heap m !! ts;
          if current_time <? expire_time x then Some (m, w)
          else
            m ← store (head_of type) (next x) m;
            m ← store (Next ts) None m;
            '(m, w) ← callback ts m w;
            run_loop fuel type current_time m w
      end
  end.

(** [enabled] is that of the clock and [now] its reading. *)
Definition qemu_run_timers (fuel : nat) (type : Z) (enabled : bool) (now : Z) (m : Timers) (w : W)
    : option (Timers * W) :=
  if enabled then run_loop fuel type now m w else Some (m, w).

(** [now type] is the reading of a clock. *)
Definition qemu_run_all_timers (fuel : nat) (running : bool) (enabled : Z -> bool) (now : Z -> Z)
    (m : Timers) (w : W) : option (Timers * W) :=
  let a := alarm_timer m in
  let m := set_alarm_timer (mkAlarm (rearm a) (expired a) 0) m in
  let m :=
    if truthy (expired a) then
      qemu_rearm_alarm_timer (set_alarm_timer (mkAlarm (rearm a) 0 0) m)
    else m in
  '(m, w) ←
    (if running then
       qemu_run_timers fuel QEMU_CLOCK_VIRTUAL (enabled QEMU_CLOCK_VIRTUAL) (now QEMU_CLOCK_VIRTUAL) m w
     else Some (m, w));
  '(m, w) ← qemu_run_timers fuel QEMU_CLOCK_REALTIME (enabled QEMU_CLOCK_REALTIME) (now QEMU_CLOCK_REALTIME) m w;
  qemu_run_timers fuel QEMU_CLOCK_HOST (enabled QEMU_CLOCK_HOST) (now QEMU_CLOCK_HOST) m w.
End Callbacks.

(** ** Saving timers *)

Definition qemu_put_timer (ts : Z) (m : Timers) : option Z :=
  p ← qemu_timer_pending ts m;
  x ← heap m !! ts;
  Some (if truthy p then u64 (expire_time x) else u64 (-1)).

Definition qemu_get_timer (icount ts v : Z) (m : Timers) : option Timers :=
  if v =? u64 (-1) then qemu_del_timer ts m else qemu_mod_timer icount ts (s64 v) m.

(** ** Deadlines *)

(** The time at which the first timer of a list expires. *)
Definition head_time (type : Z) (m : Timers) : option Z :=
  t ← load (head_of type) m;
  t ← t;
  x ← heap m !! t;
  Some (expire_time x).

Definition qemu_next_deadline (e : Env) (s : TimersState) (m : Timers) : Z :=
  let delta :=
    match head_time QEMU_CLOCK_VIRTUAL m with
    | Some t => s64 (t - qemu_get_clock_ns e s QEMU_CLOCK_VIRTUAL)
    | None => INT32_MAX
    end in
  let delta :=
    match head_time QEMU_CLOCK_HOST m with
    | Some t =>
        let hdelta := s64 (t - qemu_get_clock_ns e s QEMU_CLOCK_HOST) in
        if hdelta <? delta then hdelta else delta
    | None => delta
    end in
  if delta <? 0 then 0 else delta.

(** [vm] is the reading of [qemu_get_clock(vm_clock)]. *)
Definition qemu_next_alarm_deadline (e : Env) (s : TimersState) (vm : Z) (m : Timers) : Z :=
  let delta :=
    match (if truthy (use_icount e) then None else head_time QEMU_CLOCK_VIRTUAL m) with
    | Some t => s64 (t - vm)
    | None => INT32_MAX
    end in
  let delta :=
    match head_time QEMU_CLOCK_HOST m with
    | Some t =>
        let hdelta := s64 (t - qemu_get_clock_ns e s QEMU_CLOCK_HOST) in
        if hdelta <? delta then hdelta else delta
    | None => delta
    end in
  match head_time QEMU_CLOCK_REALTIME m with
  | Some t =>
      let rtdelta := s64 (s64 (t * 1000000) - qemu_get_clock_ns e s QEMU_CLOCK_REALTIME) in
      if rtdelta <? delta then rtdelta else delta
  | None => delta
  end.

(** The delay the host's timer is set to, [None] when it is left alone;
    [current_ns] is what it has left. *)
Definition dynticks_rearm_timer (e : Env) (s : TimersState) (vm current_ns : Z) (m : Timers) : option Z :=
  match head_time QEMU_CLOCK_REALTIME m, head_time QEMU_CLOCK_VIRTUAL m, head_time QEMU_CLOCK_HOST m with
  | None, None, None => None
  | _, _, _ =>
      let d := qemu_next_alarm_deadline e s vm m in
      let d := if d <? MIN_TIMER_REARM_NS then MIN_TIMER_REARM_NS else d in
      let d := if in_simulation e && (d <? SIM_MIN_TIMER_REARM_NS) then SIM_MIN_TIMER_REARM_NS else d in
      if truthy current_ns && (current_ns <=? d) then None else Some d
  end.

Definition host_alarm_handler (e : Env) (s : TimersState) (vm : Z) (m : Timers) : Timers :=
  let a := alarm_timer m in
  if rearm a || (qemu_next_alarm_deadline e s vm m <=? 0) then
    add_call Notify (set_alarm_timer (mkAlarm (rearm a) (of_bool (rearm a)) 1) m)
  else m.

(** Without an I/O thread; the timeout in ms and the instruction count. *)
Definition qemu_calculate_timeout (e : Env) (s : TimersState) (ic : Icount) (m : Timers) : Z * Icount :=
  if negb (vm_running e) then (5000, ic)
  else
    let delta := qemu_icount_delta e s in
    if 0 <? delta then (s32 ((delta + 999999) ÷ 1000000), ic)
    else
      let add := qemu_next_deadline e s m in
      let add := if 10000000 <? add then 10000000 else add in
      let delta := s64 (delta + add) in
      let ic := mkIcount (icount_time_shift ic) (qemu_icount_bias ic)
        (s64 (qemu_icount ic + qemu_icount_round ic add)) (last_delta ic) in
      let timeout := s32 (delta ÷ 1000000) in
      (if timeout <? 0 then 0 else timeout, ic).


(** ** The lists of timers *)

(** The lists as the rest of the emulator thinks of them: for each clock the
    pending timers with their times, in order. *)
Abbreviation queue := (list (Z * Z)).

Definition stop (ts : Z) (q : queue) : queue := filter (fun te => te.1 <> ts) q.

(** A timer goes behind all that expire no later. *)
Fixpoint insert_timer (ts expire : Z) (q : queue) : queue :=
  match q with
  | [] => [(ts, expire)]
  | (t, e) :: q' => if expire <? e then (ts, expire) :: q else (t, e) :: insert_timer ts expire q'
  end.

Definition in_order (q : queue) : Prop := Sorted.StronglySorted (fun a b => a.2 <= b.2) q.

Definition upd (A : nat -> queue) (c : nat) (q : queue) : nat -> queue :=
  fun c' => if decide (c' = c) then q else A c'.

(** The clock and the time of a cell. *)
Definition data (m : Timers) (t : Z) : option (Z * Z) :=
  (fun x => (clock x, expire_time x)) <$> heap m !! t.

(** The list from the pointer [p] on. *)
Fixpoint chain (m : Timers) (c : nat) (p : option Z) (q : queue) : Prop :=
  match q with
  | [] => p = None
  | (t, e) :: q' =>
      p = Some t /\ data m t = Some (Z.of_nat c, e) /\
      exists nx, load (Next t) m = Some nx /\ chain m c nx q'
  end.

Record represents (m : Timers) (A : nat -> queue) : Prop := {
  rep_length : length (active_timers m) = 3%nat;
  rep_clock t x : heap m !! t = Some x -> 0 <= clock x < 3;
  rep_chain c : (c < 3)%nat -> exists p, load (Head c) m = Some p /\ chain m c p (A c);
  rep_nodup c : (c < 3)%nat -> NoDup (A c).*1;
  rep_order c : (c < 3)%nat -> in_order (A c)
}.

(** [m'] is [m] but for the slots [pts]. *)
Record edited (pts : slot -> Prop) (m m' : Timers) : Prop := {
  ed_load pt : ~ pts pt -> load pt m' = load pt m;
  ed_data t : data m' t = data m t;
  ed_length : length (active_timers m') = length (active_timers m);
  ed_alarm : alarm_timer m' = alarm_timer m;
  ed_calls : calls m' = calls m
}.

Lemma edited_refl pts m : edited pts m m.
Proof. by split. Qed.

Lemma edited_mono (P Q : slot -> Prop) m m' : (forall pt, P pt -> Q pt) -> edited P m m' -> edited Q m m'.
Proof. intros H []. split; auto. Qed.

Lemma data_None m t : data m t = None <-> heap m !! t = None.
Proof. unfold data. by destruct (heap m !! t). Qed.

Lemma store_spec pt v v0 m : load pt m = Some v0 ->
  exists m', store pt v m = Some m' /\ load pt m' = Some v /\ edited (eq pt) m m'.
Proof.
  intros H. destruct pt as [c|t]; cbn in *.
  - rewrite H. cbn. eexists. split; [done|]. split.
    + cbn. apply list_lookup_insert_eq. by eapply lookup_lt_Some.
    + split; try done; [|cbn; apply length_insert]. intros [c'|t'] N; [|done]. cbn.
      apply list_lookup_insert_ne. congruence.
  - apply fmap_Some in H as (x & Hx & ->). rewrite Hx. cbn. eexists. split; [done|]. split.
    + cbn. by rewrite lookup_insert_eq.
    + split; try done.
      * intros [c'|t'] N; [done|]. cbn. rewrite lookup_insert_ne by congruence. done.
      * intros t'. unfold data. cbn. destruct (decide (t = t')) as [<-|].
        -- by rewrite lookup_insert_eq, Hx.
        -- by rewrite lookup_insert_ne.
Qed.

Lemma chain_edited pts m m' c q : forall p, edited pts m m' -> (forall t, t ∈ q.*1 -> ~ pts (Next t)) ->
  chain m c p q -> chain m' c p q.
Proof.
  induction q as [|[t e] q IH]; intros p E H; cbn [chain]; [done|]. intros (-> & D & nx & L & C).
  split; [done|]. rewrite (ed_data _ _ _ E). split; [done|]. exists nx.
  rewrite (ed_load _ _ _ E) by (apply H; cbn; left). split; [done|].
  apply IH; [done| |done]. intros t' Ht. apply H. cbn. by right.
Qed.

Lemma chain_data m c q : forall p t e, chain m c p q -> (t, e) ∈ q -> data m t = Some (Z.of_nat c, e).
Proof.
  induction q as [|[t e] q IH]; intros p t' e' C Ht; [by apply elem_of_nil in Ht|].
  destruct C as (_ & D & nx & _ & C). apply elem_of_cons in Ht as [[= -> ->]|Ht]; [done|by eapply IH].
Qed.

Lemma chain_member m c q p t : chain m c p q -> t ∈ q.*1 -> exists e, data m t = Some (Z.of_nat c, e).
Proof.
  intros C Ht. apply list_elem_of_fmap in Ht as ([t' e] & -> & H). exists e. by eapply chain_data.
Qed.

(** A list without repetitions is no longer than the heap. *)
Lemma chain_length m c p q : chain m c p q -> NoDup q.*1 -> (length q <= size (heap m))%nat.
Proof.
  intros C N. rewrite <- (length_fmap fst). rewrite <- (size_list_to_set (C := gset Z)) by done.
  rewrite <- size_dom. apply subseteq_size. intros t Ht. apply elem_of_list_to_set in Ht.
  apply (chain_member _ _ _ _ _ C) in Ht as [e D]. apply elem_of_dom. unfold data in D.
  apply fmap_Some in D as (x & -> & _). eauto.
Qed.

Lemma elem_of_stop ts q te : te ∈ stop ts q <-> te.1 <> ts /\ te ∈ q.
Proof. unfold stop. by rewrite list_elem_of_filter. Qed.

Lemma stop_absent ts q : ts ∉ q.*1 -> stop ts q = q.
Proof.
  unfold stop. induction q as [|[t e] q IH]; intros H; [done|]. rewrite filter_cons_True.
  - f_equal. apply IH. intros Hq. apply H. cbn. by right.
  - cbn. intros ->. apply H. cbn. left.
Qed.

Lemma fst_sublist (q q' : queue) : q `sublist_of` q' -> q.*1 `sublist_of` q'.*1.
Proof. induction 1; cbn; by constructor. Qed.

Lemma filter_order (P : Z * Z -> Prop) `{!forall x, Decision (P x)} q : in_order q -> in_order (filter P q).
Proof.
  induction 1 as [|x q O IH F]; [constructor|].
  rewrite filter_cons. case_decide; [|done]. constructor; [done|].
  apply List.Forall_forall. intros y Hy. apply list_elem_of_In, list_elem_of_filter in Hy as [_ Hy].
  eapply List.Forall_forall in F; [exact F|]. by apply list_elem_of_In.
Qed.

Lemma stop_order ts q : in_order q -> in_order (stop ts q).
Proof. apply filter_order. Qed.

Lemma stop_nodup ts q : NoDup q.*1 -> NoDup (stop ts q).*1.
Proof.
  intros H. eapply sublist_NoDup; [exact H|]. apply fst_sublist, sublist_filter.
Qed.

Lemma insert_perm ts e q : insert_timer ts e q ≡ₚ (ts, e) :: q.
Proof.
  induction q as [|[t e'] q IH]; cbn; [done|]. case_match; [done|].
  rewrite IH. constructor.
Qed.

Lemma insert_order ts e q : in_order q -> in_order (insert_timer ts e q).
Proof.
  induction 1 as [|[t e'] q H IH F]; cbn; [repeat constructor|].
  destruct (Z.ltb_spec e e') as [L|L].
  - constructor; [by constructor|]. constructor; [cbn; lia|].
    eapply List.Forall_impl; [|exact F]. cbn. intros. lia.
  - constructor; [exact IH|]. rewrite insert_perm. by constructor.
Qed.

Lemma insert_nodup ts e q : NoDup q.*1 -> ts ∉ q.*1 -> NoDup (insert_timer ts e q).*1.
Proof. intros H N. rewrite insert_perm. cbn. by constructor. Qed.

Lemma stop_not_in ts q : ts ∉ (stop ts q).*1.
Proof.
  intros H. apply list_elem_of_fmap in H as ([t e] & -> & H). apply elem_of_stop in H as [H _]. done.
Qed.

(** *** Stopping a timer *)

(** A slot before the list [q]. *)
Definition before (pt : slot) (q : queue) : Prop := forall t, t ∈ q.*1 -> pt <> Next t.

Lemma del_loop_spec ts m c q : forall pt p fuel, load pt m = Some p -> chain m c p q -> NoDup q.*1 ->
  before pt q -> (length q < fuel)%nat ->
  exists m' p', del_loop fuel ts pt m = Some m' /\ load pt m' = Some p' /\ chain m' c p' (stop ts q) /\
    edited (fun sl => sl = pt \/ exists t, t ∈ q.*1 /\ sl = Next t) m m' /\
    (ts ∉ q.*1 -> m' = m).
Proof.
  induction q as [|[t e] q IH]; intros pt p fuel L C N B Hf; (destruct fuel as [|fuel]; [cbn in Hf; lia|]);
    cbn [del_loop]; rewrite L; cbn [mbind option_bind].
  - cbn in C. subst. exists m, None. split; [done|]. split; [done|]. split; [done|]. split; [apply edited_refl|done].
  - destruct C as (-> & D & nx & Ln & C). cbn in N. apply NoDup_cons in N as [Nt N].
    assert (Bt : pt <> Next t) by (apply B; cbn; left).
    destruct (Z.eqb_spec t ts) as [->|Ne].
    + cbn in Ln. apply fmap_Some in Ln as (x & Hx & ->). rewrite Hx. cbn [mbind option_bind].
      destruct (store_spec pt (next x) (Some ts) m L) as (m' & E & L' & Ed). rewrite E.
      exists m', (next x). split; [done|]. split; [done|].
      assert (S : stop ts ((ts, e) :: q) = q).
      { unfold stop. rewrite filter_cons_False by (cbn; tauto). by apply stop_absent. }
      rewrite S. split; [|split].
      * eapply chain_edited; [exact Ed| |exact C]. intros t Ht ->. apply (B t); [cbn; by right|done].
      * eapply edited_mono; [|exact Ed]. intros sl <-. by left.
      * intros H. exfalso. apply H. cbn. left.
    + destruct (IH (Next t) nx fuel Ln C N) as (m' & p' & E & L' & C' & Ed & Same).
      { intros u Hu [= ->]. done. } { cbn in Hf. lia. }
      exists m', (Some t). split; [done|]. split.
      { rewrite (ed_load _ _ _ Ed); [done|]. intros [->|(u & Hu & ->)]; [done|]. apply (B u); [cbn; by right|done]. }
      split; [|split].
      * unfold stop. rewrite filter_cons_True by (cbn; congruence). cbn [chain]. split; [done|].
        rewrite (ed_data _ _ _ Ed). split; [done|]. by exists p'.
      * eapply edited_mono; [|exact Ed]. intros sl [->|(u & Hu & ->)]; right.
        -- exists t. split; [cbn; left|done].
        -- exists u. split; [cbn; by right|done].
      * intros H. apply Same. intros Hu. apply H. cbn. by right.
Qed.

Lemma rep_find m A c : represents m A -> (c < 3)%nat ->
  exists p, load (Head c) m = Some p /\ chain m c p (A c) /\ NoDup (A c).*1 /\ in_order (A c) /\
    (length (A c) < list_fuel m)%nat.
Proof.
  intros R Hc. destruct (rep_chain m A R c Hc) as (p & L & C). exists p. split; [done|]. split; [done|].
  split; [by apply R|]. split; [by apply R|]. unfold list_fuel.
  pose proof (chain_length _ _ _ _ C (rep_nodup m A R c Hc)). lia.
Qed.

Lemma upd_eq A c q : upd A c q c = q.
Proof. unfold upd. by rewrite decide_True. Qed.
Lemma upd_ne A c c' q : c' <> c -> upd A c q c' = A c'.
Proof. intros. unfold upd. by rewrite decide_False. Qed.

(** Lists of different clocks have no cell in common. *)
Lemma chain_disjoint m c c' p p' q q' t : chain m c p q -> chain m c' p' q' -> t ∈ q.*1 -> t ∈ q'.*1 -> c = c'.
Proof.
  intros C C' Ht Ht'. apply (chain_member _ _ _ _ _ C) in Ht as [e D]. apply (chain_member _ _ _ _ _ C') in Ht' as [e' D'].
  rewrite D in D'. injection D'. lia.
Qed.

(** Replacing the list of the clock [c]. *)
Lemma rep_edited m m' A c q : represents m A -> (c < 3)%nat ->
  edited (fun sl => sl = Head c \/ exists t, t ∈ (A c).*1 /\ sl = Next t) m m' ->
  (exists p, load (Head c) m' = Some p /\ chain m' c p q) -> NoDup q.*1 -> in_order q ->
  represents m' (upd A c q).
Proof.
  intros R Hc Ed Hq N O. destruct (rep_chain m A R c Hc) as (p0 & _ & C0). split.
  - rewrite (ed_length _ _ _ Ed). apply R.
  - intros t x Hx. pose proof (ed_data _ _ _ Ed t) as D. unfold data in D. rewrite Hx in D. cbn in D.
    symmetry in D. apply fmap_Some in D as (y & Hy & [= E1 _]). rewrite E1. by apply (rep_clock m A R t).
  - intros c' Hc'. destruct (decide (c' = c)) as [->|Ne]; [by rewrite upd_eq|]. rewrite upd_ne by done.
    destruct (rep_chain m A R c' Hc') as (p & L & C). exists p. split.
    + rewrite (ed_load _ _ _ Ed); [done|]. intros [[= E]|(t & _ & [=])]. by apply Ne.
    + eapply chain_edited; [exact Ed| |exact C]. intros t Ht [[=]|(u & Hu & [= <-])].
      apply Ne. by eapply (chain_disjoint m c' c).
  - intros c' Hc'. destruct (decide (c' = c)) as [->|Ne]; [by rewrite upd_eq|]. rewrite upd_ne by done. by apply R.
  - intros c' Hc'. destruct (decide (c' = c)) as [->|Ne]; [by rewrite upd_eq|]. rewrite upd_ne by done. by apply R.
Qed.

(** The clock of a timer. *)
Definition clock_of (m : Timers) (t : Z) : option nat := (fun x => Z.to_nat (clock x)) <$> heap m !! t.

Lemma rep_clock_of m A t c : represents m A -> clock_of m t = Some c ->
  exists x, heap m !! t = Some x /\ clock x = Z.of_nat c /\ (c < 3)%nat /\ head_of (clock x) = Head c.
Proof.
  intros R H. apply fmap_Some in H as (x & Hx & ->). exists x. pose proof (rep_clock m A R t x Hx).
  split; [done|]. split; [lia|]. split; [lia|]. done.
Qed.

Lemma head_before c q : before (Head c) q.
Proof. by intros t _. Qed.

Lemma del_timer_spec ts c m A : represents m A -> clock_of m ts = Some c ->
  exists m', qemu_del_timer ts m = Some m' /\ represents m' (upd A c (stop ts (A c))) /\
    (forall t, data m' t = data m t) /\ alarm_timer m' = alarm_timer m /\ calls m' = calls m.
Proof.
  intros R H. destruct (rep_clock_of m A ts c R H) as (x & Hx & Ec & Hc & Eh).
  destruct (rep_find m A c R Hc) as (p & L & C & N & O & F).
  destruct (del_loop_spec ts m c (A c) (Head c) p (list_fuel m) L C N (head_before _ _) F)
    as (m' & p' & E & L' & C' & Ed & _).
  exists m'. split.
  - unfold qemu_del_timer. rewrite Hx. cbn [mbind option_bind]. by rewrite Eh.
  - split; [|split; [apply Ed|split; apply Ed]]. eapply rep_edited; [done..|by exists p'| |].
    + by apply stop_nodup.
    + by apply stop_order.
Qed.

(** *** Arming a timer *)

(** [m2] is [m] with [ts] linked in at the slot [pt], before [nx]. *)
Record linked (m m2 : Timers) (c : nat) (ts expire : Z) (pt : slot) (nx : option Z) : Prop := {
  li_pt : load pt m2 = Some (Some ts);
  li_next : load (Next ts) m2 = Some nx;
  li_ts : data m2 ts = Some (Z.of_nat c, expire);
  li_load sl : sl <> pt -> sl <> Next ts -> load sl m2 = load sl m;
  li_data t : t <> ts -> data m2 t = data m t
}.

Lemma chain_linked m m2 c c' ts expire pt nx q : forall p, linked m m2 c ts expire pt nx -> before pt q ->
  ts ∉ q.*1 -> chain m c' p q -> chain m2 c' p q.
Proof.
  induction q as [|[t e] q IH]; intros p L B N; cbn [chain]; [done|]. intros (-> & D & nx' & Ln & C).
  assert (t <> ts) by (intros ->; apply N; cbn; left).
  split; [done|]. rewrite (li_data _ _ _ _ _ _ _ L) by done. split; [done|]. exists nx'.
  rewrite (li_load _ _ _ _ _ _ _ L); [|intros <-; by apply (B t); [cbn; left|]|congruence].
  split; [done|]. apply IH; try done.
  - intros u Hu. apply B. cbn. by right.
  - intros Hu. apply N. cbn. by right.
Qed.

Lemma find_loop_spec ts expire m c q : forall pt p fuel, load pt m = Some p -> chain m c p q -> NoDup q.*1 ->
  ts ∉ q.*1 -> before pt q -> pt <> Next ts -> (length q < fuel)%nat ->
  exists pt' nx, find_loop fuel expire pt m = Some pt' /\ load pt' m = Some nx /\
    (pt' = pt \/ exists t, t ∈ q.*1 /\ pt' = Next t) /\
    (pt' = pt <-> head (insert_timer ts expire q) = Some (ts, expire)) /\
    forall m2, linked m m2 c ts expire pt' nx ->
      exists p2, load pt m2 = Some p2 /\ chain m2 c p2 (insert_timer ts expire q).
Proof.
  induction q as [|[t e] q IH]; intros pt p fuel L C N Nt B Np Hf; (destruct fuel as [|fuel]; [cbn in Hf; lia|]);
    cbn [find_loop]; rewrite L; cbn [mbind option_bind].
  - cbn in C. subst. exists pt, None. split; [done|]. split; [done|]. split; [by left|]. split; [done|].
    intros m2 K. exists (Some ts). split; [apply K|]. cbn [insert_timer chain]. split; [done|]. split; [apply K|].
    exists None. split; [apply K|done].
  - destruct C as (-> & D & nx & Ln & C). cbn in N. apply NoDup_cons in N as [Nq N].
    assert (Bt : pt <> Next t) by (apply B; cbn; left).
    assert (Tt : t <> ts) by (intros ->; apply Nt; cbn; left).
    assert (Nt' : ts ∉ q.*1) by (intros Hu; apply Nt; cbn; by right).
    assert (Bq : before pt q) by (intros u Hu; apply B; cbn; by right).
    pose proof D as Dx. unfold data in Dx. apply fmap_Some in Dx as (x & Hx & [= _ Ee]).
    rewrite Hx. cbn [mbind option_bind]. rewrite <- Ee. cbn [insert_timer].
    destruct (Z.ltb_spec expire e) as [Lt|Ge].
    + exists pt, (Some t). split; [done|]. split; [done|]. split; [by left|]. split; [done|].
      intros m2 K. exists (Some ts). split; [apply K|]. cbn [chain]. split; [done|]. split; [apply K|].
      exists (Some t). split; [apply K|].
      change (chain m2 c (Some t) ((t, e) :: q)). eapply chain_linked; [exact K|exact B|exact Nt|].
      cbn [chain]. split; [done|]. split; [done|]. by exists nx.
    + destruct (IH (Next t) nx fuel Ln C N Nt') as (pt' & nx' & E & L' & W & Hd & K).
      { intros u Hu [= ->]. done. } { congruence. } { cbn in Hf. lia. }
      exists pt', nx'. split; [done|]. split; [done|].
      assert (Hpt : pt' <> pt).
      { destruct W as [->|(u & Hu & ->)]; [done|]. intros <-. by apply (Bq u). }
      split; [right|split; [split; [done|]|]].
      * destruct W as [->|(u & Hu & ->)]; [exists t; split; [cbn; left|done]|].
        exists u. split; [cbn; by right|done].
      * cbn. intros [= <- _]. done.
      * intros m2 K2. destruct (K m2 K2) as (p2 & L2 & C2). exists (Some t). split.
        { rewrite (li_load _ _ _ _ _ _ _ K2); [done|by apply not_eq_sym|done]. }
        cbn [chain]. split; [done|]. rewrite (li_data _ _ _ _ _ _ _ K2) by done. split; [done|]. by exists p2.
Qed.

Lemma pt_not_ts ts (q : queue) c pt : ts ∉ q.*1 -> pt = Head c \/ (exists t, t ∈ q.*1 /\ pt = Next t) -> pt <> Next ts.
Proof. intros N [->|(t & Ht & ->)]; [done|]. intros [= ->]. done. Qed.

(** The two stores of [qemu_mod_timer]. *)
Lemma link_spec m x c ts expire pt nx : heap m !! ts = Some x -> clock x = Z.of_nat c ->
  load pt m = Some nx -> pt <> Next ts ->
  exists m2, store pt (Some ts) (set_heap (<[ts := mkTimer (clock x) expire nx]> (heap m)) m) = Some m2 /\
    linked m m2 c ts expire pt nx /\ length (active_timers m2) = length (active_timers m) /\
    alarm_timer m2 = alarm_timer m /\ calls m2 = calls m.
Proof.
  intros Hx Ec L Np. set (m1 := set_heap _ m).
  assert (L1 : forall sl, sl <> Next ts -> load sl m1 = load sl m).
  { intros [c'|t] Hs; [done|]. cbn. rewrite lookup_insert_ne by congruence. done. }
  destruct (store_spec pt (Some ts) nx m1) as (m2 & E & L2 & Ed); [by rewrite L1|].
  exists m2. split; [done|]. split; [|split; [apply Ed|split; apply Ed]]. split.
  - done.
  - rewrite (ed_load _ _ _ Ed) by done. cbn. by rewrite lookup_insert_eq.
  - rewrite (ed_data _ _ _ Ed). unfold data. cbn. rewrite lookup_insert_eq. cbn. by rewrite Ec.
  - intros sl H1 H2. rewrite (ed_load _ _ _ Ed) by (by apply not_eq_sym). by apply L1.
  - intros t Ht. rewrite (ed_data _ _ _ Ed). unfold data. cbn. by rewrite lookup_insert_ne by congruence.
Qed.

(** The calls a timer makes that is the first to expire. *)
Definition head_calls (icount : Z) (a : qemu_alarm_timer) : list Call :=
  (if truthy icount then [Notify] else []) ++
  (if negb (truthy (pending a)) && rearm a then [Rearm] else []).

Definition add_calls (l : list Call) (m : Timers) : Timers :=
  mkTimers (heap m) (active_timers m) (alarm_timer m) (l ++ calls m).

Lemma represents_same m m' A : heap m' = heap m -> active_timers m' = active_timers m ->
  represents m A -> represents m' A.
Proof.
  intros Eh Ea R.
  assert (L : forall sl, load sl m' = load sl m) by (intros []; cbn; by rewrite ?Eh, ?Ea).
  assert (C : forall c q p, chain m c p q -> chain m' c p q).
  { intros c q. induction q as [|[t e] q IH]; intros p; cbn [chain]; [done|]. intros (-> & D & nx & Ln & K).
    split; [done|]. unfold data. rewrite Eh. split; [done|]. exists nx. rewrite L. auto. }
  split; try apply R.
  - rewrite Ea. apply R.
  - rewrite Eh. apply R.
  - intros c Hc. destruct (rep_chain m A R c Hc) as (p & Lp & K). exists p. rewrite L. auto.
Qed.

Lemma mod_end icount m2 pt : exists m',
  (if is_head pt then
     let m := if truthy (pending (alarm_timer m2)) then m2 else qemu_rearm_alarm_timer m2 in
     Some (if truthy icount then add_call Notify m else m)
   else Some m2) = Some m' /\
  m' = add_calls (if is_head pt then head_calls icount (alarm_timer m2) else []) m2.
Proof.
  eexists. split; [|reflexivity]. destruct m2 as [h l a cs].
  unfold head_calls, qemu_rearm_alarm_timer, add_calls. cbn.
  destruct (is_head pt), (truthy (pending a)), (rearm a), (truthy icount); reflexivity.
Qed.

Lemma mod_timer_spec icount ts expire c m A : represents m A -> clock_of m ts = Some c ->
  let q := insert_timer ts expire (stop ts (A c)) in
  exists m', qemu_mod_timer icount ts expire m = Some m' /\ represents m' (upd A c q) /\
    (forall t, data m' t = if decide (t = ts) then Some (Z.of_nat c, expire) else data m t) /\
    alarm_timer m' = alarm_timer m /\
    calls m' = (if decide (head q = Some (ts, expire)) then head_calls icount (alarm_timer m) else []) ++ calls m.
Proof.
  intros R H q. destruct (del_timer_spec ts c m A R H) as (m1 & E1 & R1 & D1 & A1 & S1).
  destruct (rep_clock_of m A ts c R H) as (x0 & Hx0 & Ec0 & Hc & _).
  assert (H1 : clock_of m1 ts = Some c).
  { specialize (D1 ts). unfold data in D1. unfold clock_of in *. rewrite Hx0 in *. cbn in D1.
    apply fmap_Some in D1 as (y & -> & [= Ey _]). cbn. f_equal. lia. }
  destruct (rep_clock_of m1 _ ts c R1 H1) as (x & Hx & Ec & _ & Eh).
  destruct (rep_find m1 _ c R1 Hc) as (p & L & C & N & O & F). rewrite upd_eq in C, N, O, F.
  pose proof (stop_not_in ts (A c)) as Nt.
  destruct (find_loop_spec ts expire m1 c (stop ts (A c)) (Head c) p (list_fuel m1) L C N Nt (head_before _ _) ltac:(done) F)
    as (pt & nx & E2 & L2 & W & Hd & K).
  pose proof (pt_not_ts ts _ c pt Nt W) as Np.
  destruct (link_spec m1 x c ts expire pt nx Hx Ec L2 Np) as (m2 & E3 & Li & Len & A2 & S2).
  destruct (mod_end icount m2 pt) as (m' & E4 & M'). exists m'. split.
  { unfold qemu_mod_timer. rewrite E1. cbn [mbind option_bind]. rewrite Hx. cbn [mbind option_bind].
    rewrite Eh, E2. cbn [mbind option_bind]. rewrite L2. cbn [mbind option_bind]. rewrite E3. exact E4. }
  assert (Dm : forall t, data m' t = data m2 t) by (intros; by rewrite M').
  split; [|split; [|split]].
  - apply (represents_same m2); [by rewrite M'..|]. split.
    + rewrite Len. apply R1.
    + intros t y Hy. destruct (decide (t = ts)) as [->|Ne].
      * pose proof (li_ts _ _ _ _ _ _ _ Li) as D. unfold data in D. rewrite Hy in D. injection D as -> _. lia.
      * pose proof (li_data _ _ _ _ _ _ _ Li t Ne) as D. unfold data in D. rewrite Hy in D. cbn in D.
        symmetry in D. apply fmap_Some in D as (z & Hz & [= -> _]). by apply (rep_clock m1 _ R1 t).
    + intros c' Hc'. destruct (decide (c' = c)) as [->|Ne]; [rewrite upd_eq; by apply K|]. rewrite upd_ne by done.
      destruct (rep_chain m1 _ R1 c' Hc') as (p' & L' & C'). rewrite upd_ne in C' by done. exists p'. split.
      * rewrite (li_load _ _ _ _ _ _ _ Li); [done| |done]. destruct W as [->|(t & _ & ->)]; congruence.
      * eapply chain_linked; [exact Li| | |exact C'].
        -- intros t Ht ->. destruct W as [[=]|(u & Hu & [= ->])]. apply Ne.
           by eapply (chain_disjoint m1 c' c).
        -- intros Ht. apply (chain_member _ _ _ _ _ C') in Ht as [e D]. unfold data in D. rewrite Hx in D. cbn in D.
           injection D as D _. lia.
    + intros c' Hc'. destruct (decide (c' = c)) as [->|Ne]; [rewrite upd_eq; by apply insert_nodup|].
      rewrite upd_ne by done. by apply R.
    + intros c' Hc'. destruct (decide (c' = c)) as [->|Ne]; [rewrite upd_eq; by apply insert_order|].
      rewrite upd_ne by done. by apply R.
  - intros t. rewrite Dm. case_decide as E; [subst; apply Li|]. rewrite (li_data _ _ _ _ _ _ _ Li) by done. apply D1.
  - rewrite M'. cbn. by rewrite A2.
  - rewrite M'. cbn. rewrite A2, A1, S2, S1. f_equal. fold q in Hd. clearbody q.
    destruct W as [->|(t & Ht & ->)].
    + rewrite decide_True by (by apply Hd). done.
    + rewrite decide_False; [done|]. intros Hq. apply Hd in Hq. done.
Qed.

(** *** Any sequence of operations *)

Lemma clock_of_data m m' t : (forall t, fst <$> data m' t = fst <$> data m t) -> clock_of m' t = clock_of m t.
Proof.
  intros H. specialize (H t). unfold data in H. unfold clock_of.
  destruct (heap m' !! t), (heap m !! t); cbn in *; congruence.
Qed.

Lemma clock_of_Some m t c : clock_of m t = Some c -> exists x, heap m !! t = Some x /\ Z.to_nat (clock x) = c.
Proof. intros H. apply fmap_Some in H as (x & Hx & ->). eauto. Qed.

Definition target (o : Op) : Z := match o with Mod t _ => t | Del t => t end.

(** What an operation means for the lists; [cl] is the clock of a timer. *)
Definition apply_op (cl : Z -> nat) (o : Op) (A : nat -> queue) : nat -> queue :=
  let c := cl (target o) in
  let q := stop (target o) (A c) in
  upd A c (match o with Mod t e => insert_timer t e q | Del _ => q end).

Definition apply_ops (cl : Z -> nat) (os : list Op) (A : nat -> queue) : nat -> queue :=
  foldl (fun A o => apply_op cl o A) A os.

(** The timers the operations name exist. *)
Definition known (m : Timers) (cl : Z -> nat) (os : list Op) : Prop :=
  Forall (fun o => clock_of m (target o) = Some (cl (target o))) os.

(** The calls an operation makes, the last one first: arming a timer re-arms
    the alarm [a], and tells the processors' loop, when the timer is then the
    first of its list; other operations make no call. *)
Definition op_calls (icount : Z) (a : qemu_alarm_timer) (cl : Z -> nat) (o : Op) (A : nat -> queue) : list Call :=
  match o with
  | Mod t e => if decide (head (apply_op cl o A (cl t)) = Some (t, e)) then head_calls icount a else []
  | Del _ => []
  end.

Fixpoint ops_calls (icount : Z) (a : qemu_alarm_timer) (cl : Z -> nat) (os : list Op) (A : nat -> queue) : list Call :=
  match os with
  | [] => []
  | o :: os => ops_calls icount a cl os (apply_op cl o A) ++ op_calls icount a cl o A
  end.

(** The callbacks that have run, the last one first. *)
Definition callbacks (m : Timers) : list Z :=
  omap (fun x => match x with Callback t => Some t | _ => None end) (calls m).

Definition ran (l : list Call) : list Z :=
  omap (fun x => match x with Callback t => Some t | _ => None end) l.

Lemma ran_app l l' : ran (l ++ l') = ran l ++ ran l'.
Proof. apply omap_app. Qed.

Lemma ops_calls_quiet icount a cl os : forall A, ran (ops_calls icount a cl os A) = [].
Proof.
  induction os as [|o os IH]; intros A; cbn [ops_calls]; [done|]. rewrite ran_app, IH. unfold op_calls, head_calls.
  by destruct o; [case_decide|]; destruct (truthy icount), (truthy (pending a)), (rearm a).
Qed.

Lemma run_op_spec icount cl o m A : represents m A -> clock_of m (target o) = Some (cl (target o)) ->
  exists m', run_op icount o m = Some m' /\ represents m' (apply_op cl o A) /\
    (forall t, clock_of m' t = clock_of m t) /\ alarm_timer m' = alarm_timer m /\
    calls m' = op_calls icount (alarm_timer m) cl o A ++ calls m.
Proof.
  intros R H. destruct o as [t e|t]; cbn [run_op target] in *.
  - destruct (mod_timer_spec icount t e _ m A R H) as (m' & E & R' & D & Al & S). exists m'. split; [done|].
    split; [done|]. split.
    + intros u. apply clock_of_data. clear u. intros u. rewrite D. destruct (decide (u = t)) as [->|]; [|reflexivity].
      unfold clock_of in H. apply fmap_Some in H as (x & Hx & Hc). unfold data. rewrite Hx. cbn. f_equal.
      pose proof (rep_clock m A R t x Hx). lia.
    + split; [done|]. rewrite S. unfold op_calls, apply_op. cbn [target]. by rewrite upd_eq.
  - destruct (del_timer_spec t _ m A R H) as (m' & E & R' & D & Al & S). exists m'. split; [done|]. split; [done|]. split.
    + intros u. apply clock_of_data. intros u'. by rewrite D.
    + by split.
Qed.

Lemma run_ops_spec icount cl os : forall m A, represents m A -> known m cl os ->
  exists m', run_ops icount os m = Some m' /\ represents m' (apply_ops cl os A) /\
    (forall t, clock_of m' t = clock_of m t) /\ alarm_timer m' = alarm_timer m /\
    calls m' = ops_calls icount (alarm_timer m) cl os A ++ calls m.
Proof.
  induction os as [|o os IH]; intros m A R K; cbn [run_ops].
  - exists m. by split.
  - apply Forall_cons in K as [Ko K]. destruct (run_op_spec icount cl o m A R Ko) as (m1 & E1 & R1 & C1 & A1 & B1).
    rewrite E1. cbn [mbind option_bind].
    destruct (IH m1 (apply_op cl o A) R1) as (m' & E & R' & C' & A' & B').
    { eapply Forall_impl; [exact K|]. intros o' Ho. by rewrite C1. }
    exists m'. split; [done|]. split; [done|]. split; [intros; by rewrite C'|]. split; [by rewrite A'|].
    cbn [ops_calls]. by rewrite B', B1, A1, app_assoc.
Qed.

Lemma run_ops_callbacks icount cl os m A m' : calls m' = ops_calls icount (alarm_timer m) cl os A ++ calls m ->
  callbacks m' = callbacks m.
Proof. intros E. unfold callbacks. rewrite E. fold (ran (ops_calls icount (alarm_timer m) cl os A ++ calls m)). by rewrite ran_app, ops_calls_quiet. Qed.

Lemma pending_loop_spec ts m c q : forall p fuel, chain m c p q -> (length q < fuel)%nat ->
  pending_loop fuel ts p m = Some (of_bool (bool_decide (ts ∈ q.*1))).
Proof.
  induction q as [|[t e] q IH]; intros p fuel C Hf; (destruct fuel as [|fuel]; [cbn in Hf; lia|]); cbn [pending_loop].
  - cbn in C. by subst.
  - destruct C as (-> & D & nx & L & C). cbn [fmap list_fmap fst].
    destruct (Z.eqb_spec t ts) as [->|Ne]; [rewrite bool_decide_eq_true_2 by left; done|].
    cbn in L. apply fmap_Some in L as (x & Hx & ->). rewrite Hx. cbn [mbind option_bind].
    rewrite (IH (next x) fuel C) by (cbn in Hf; lia). do 2 f_equal. apply bool_decide_ext.
    rewrite elem_of_cons. split; [by right|]. intros [->|H]; done.
Qed.

Lemma pending_spec t c m A : represents m A -> clock_of m t = Some c ->
  qemu_timer_pending t m = Some (of_bool (bool_decide (t ∈ (A c).*1))).
Proof.
  intros R H. destruct (rep_clock_of m A t c R H) as (x & Hx & _ & Hc & Eh).
  destruct (rep_find m A c R Hc) as (p & L & C & _ & _ & F).
  unfold qemu_timer_pending. rewrite Hx. cbn [mbind option_bind]. rewrite Eh, L. cbn [mbind option_bind].
  by eapply pending_loop_spec.
Qed.

(** C22: The linked lists of timers are priority queues.  Whatever timers are
    armed and stopped, on all three clocks and in any order, every operation
    ends and the pointers form for each clock the list of its pending timers in
    the order of their times, where a timer that is armed goes behind those
    with the same time and a timer is in its list at most once; the emulator is
    told which timers are pending, and the lists of the other clocks do not
    change.  The calls made are those of the armings after which the armed
    timer is the first of its clock's list: each re-arms the alarm, if none is
    pending and the alarm can be re-armed, and tells the processors' loop when
    instructions are counted; stopping a timer makes no call, not even when it
    was the first, and the alarm's own state does not change. *)
Theorem timer_lists_refine icount cl os m A :
  represents m A -> known m cl os ->
  exists m', run_ops icount os m = Some m' /\ represents m' (apply_ops cl os A) /\
    (forall t c, clock_of m t = Some c ->
       qemu_timer_pending t m' = Some (of_bool (bool_decide (t ∈ (apply_ops cl os A c).*1)))) /\
    (forall c, (forall o, o ∈ os -> cl (target o) <> c) -> apply_ops cl os A c = A c) /\
    alarm_timer m' = alarm_timer m /\
    calls m' = ops_calls icount (alarm_timer m) cl os A ++ calls m.
Proof.
  intros R K. destruct (run_ops_spec icount cl os m A R K) as (m' & E & R' & C & Al & Cs).
  exists m'. split; [done|]. split; [done|]. split; [|split; [|done]].
  - intros t c Hc. apply pending_spec; [done|]. by rewrite C.
  - intros c. clear. revert A. induction os as [|o os IH]; intros A H; [done|].
    change (apply_ops cl (o :: os) A) with (apply_ops cl os (apply_op cl o A)).
    rewrite IH by (intros o' Ho; apply H; by right). unfold apply_op. apply upd_ne.
    apply not_eq_sym, H. left.
Qed.

(** *** Running the timers that are due *)

Definition due (now : Z) (q : queue) : queue := filter (fun te => te.2 <= now) q.

Lemma due_insert now ts e q : now < e -> due now (insert_timer ts e q) = due now q.
Proof.
  intros H. unfold due. induction q as [|[t e'] q IH]; cbn [insert_timer].
  - by rewrite filter_cons_False by (cbn; lia).
  - case_match; [by rewrite filter_cons_False by (cbn; lia)|]. rewrite !filter_cons, IH. done.
Qed.

Lemma due_stop now ts q : due now (stop ts q) = stop ts (due now q).
Proof.
  unfold due, stop. induction q as [|[t e] q IH]; [done|].
  rewrite !(filter_cons _ (t, e)). repeat case_decide; rewrite ?filter_cons; repeat case_decide; try done; by rewrite IH.
Qed.

Lemma stop_sublist ts q : stop ts q `sublist_of` q.
Proof. apply sublist_filter. Qed.

(** No operation arms a timer of the clock [c] for a time that has come. *)
Definition later (cl : Z -> nat) (c : nat) (now : Z) (o : Op) : Prop :=
  match o with Mod t e => cl t = c -> now < e | Del _ => True end.

Lemma due_op cl c now o A : later cl c now o ->
  due now (apply_op cl o A c) = if decide (cl (target o) = c) then stop (target o) (due now (A c)) else due now (A c).
Proof.
  intros H. unfold apply_op. case_decide as E.
  - rewrite E, upd_eq. destruct o as [t e|t]; cbn [target] in *; [rewrite due_insert by (by apply H)|]; apply due_stop.
  - by rewrite upd_ne by done.
Qed.

Lemma due_ops cl c now os : forall A, Forall (later cl c now) os ->
  due now (apply_ops cl os A c) `sublist_of` due now (A c) /\
  ((forall o, o ∈ os -> target o ∉ (due now (A c)).*1) -> due now (apply_ops cl os A c) = due now (A c)).
Proof.
  induction os as [|o os IH]; intros A H; [done|]. apply Forall_cons in H as [Ho H].
  destruct (IH (apply_op cl o A) H) as [S E]. pose proof (due_op cl c now o A Ho) as D.
  change (apply_ops cl (o :: os) A) with (apply_ops cl os (apply_op cl o A)). split.
  - etransitivity; [exact S|]. rewrite D. case_decide; [apply stop_sublist|done].
  - intros N. assert (D' : due now (apply_op cl o A c) = due now (A c)).
    { rewrite D. case_decide; [|done]. apply stop_absent, N. left. }
    rewrite E; [done|]. intros o' Ho'. rewrite D'. apply N. by right.
Qed.

(** Taking the first timer off its list. *)
Lemma pop_spec m A c ts e q : represents m A -> (c < 3)%nat -> A c = (ts, e) :: q ->
  exists x m1 m2, load (Head c) m = Some (Some ts) /\ heap m !! ts = Some x /\ expire_time x = e /\
    store (Head c) (next x) m = Some m1 /\ store (Next ts) None m1 = Some m2 /\
    represents m2 (upd A c q) /\ (forall t, clock_of m2 t = clock_of m t) /\ callbacks m2 = callbacks m.
Proof.
  intros R Hc E. destruct (rep_find m A c R Hc) as (p & L & C & N & O & _). rewrite E in C, N, O.
  destruct C as (-> & D & nx & Ln & C). cbn in N. apply NoDup_cons in N as [Nt N].
  apply Sorted.StronglySorted_inv in O as [O _].
  pose proof D as Dx. unfold data in Dx. apply fmap_Some in Dx as (x & Hx & [= _ Ee]).
  cbn in Ln. rewrite Hx in Ln. injection Ln as <-.
  destruct (store_spec (Head c) (next x) _ m L) as (m1 & E1 & L1 & Ed1).
  assert (Ln1 : load (Next ts) m1 = Some (next x)).
  { rewrite (ed_load _ _ _ Ed1) by done. cbn. by rewrite Hx. }
  destruct (store_spec (Next ts) None _ m1 Ln1) as (m2 & E2 & L2 & Ed2).
  exists x, m1, m2. do 5 (split; [done|]).
  assert (Ed : edited (fun sl => sl = Head c \/ exists t, t ∈ (A c).*1 /\ sl = Next t) m m2).
  { split; [|intros; by rewrite (ed_data _ _ _ Ed2), (ed_data _ _ _ Ed1)
            |by rewrite (ed_length _ _ _ Ed2), (ed_length _ _ _ Ed1)
            |by rewrite (ed_alarm _ _ _ Ed2), (ed_alarm _ _ _ Ed1)
            |by rewrite (ed_calls _ _ _ Ed2), (ed_calls _ _ _ Ed1)].
    intros pt H. rewrite (ed_load _ _ _ Ed2), (ed_load _ _ _ Ed1); [done| |].
    - intros <-. apply H. by left.
    - intros <-. apply H. right. exists ts. rewrite E. split; [cbn; left|done]. }
  split; [|split].
  - eapply rep_edited; [done|done|exact Ed| |done|done]. exists (next x). split.
    + rewrite (ed_load _ _ _ Ed2) by done. exact L1.
    + eapply chain_edited; [exact Ed2| |]; [intros t Ht [= ->]; done|].
      eapply chain_edited; [exact Ed1|done|exact C].
  - intros t. apply clock_of_data. intros t'. by rewrite (ed_data _ _ _ Ed).
  - unfold callbacks. by rewrite (ed_calls _ _ _ Ed).
Qed.

Lemma due_head now ts e q : in_order ((ts, e) :: q) -> now < e -> due now ((ts, e) :: q) = [].
Proof.
  intros O H. apply Sorted.StronglySorted_inv in O as [_ O]. unfold due. rewrite filter_cons_False by (cbn; lia).
  induction O as [|[t e'] q He O IH]; [done|]. cbn in He. rewrite filter_cons_False by (cbn; lia). done.
Qed.

Section Run.
Context {W : Type} (script : Z -> W -> list Op * W) (icount : Z) (cl : Z -> nat) (c : nat) (now : Z).

(** The callbacks name existing timers and arm timers of this clock for later
    times only. *)
Definition well_behaved (m : Timers) : Prop :=
  forall t w, known m cl (script t w).1 /\ Forall (later cl c now) (script t w).1.

(** Callbacks that arm and stop no other timer. *)
Definition own_timers : Prop := forall t w o, o ∈ (script t w).1 -> target o = t.

Lemma callback_spec t m w A : represents m A -> well_behaved m ->
  exists m', callback script icount t m w = Some (m', (script t w).2) /\
    represents m' (apply_ops cl (script t w).1 A) /\
    (forall t, clock_of m' t = clock_of m t) /\ callbacks m' = t :: callbacks m.
Proof.
  intros R B. destruct (B t w) as [K _]. unfold callback. destruct (script t w) as [os w'] eqn:E. cbn [fst snd] in *.
  destruct (run_ops_spec icount cl os (add_call (Callback t) m) A) as (m' & Em & R' & C' & _ & B').
  { by apply (represents_same m). } { done. }
  rewrite Em. cbn. exists m'. split; [done|]. split; [done|]. split; [done|]. by apply run_ops_callbacks in B'.
Qed.

(** A run on the lists [A] from the callbacks' world [w]: as long as the first
    timer of the clock is due it is taken off, and its callback does what it
    does with the other lists; [fired] are the timers served, in order.  The
    run ends when no timer of the clock is due. *)
Inductive serves : (nat -> queue) -> W -> list Z -> (nat -> queue) -> W -> Prop :=
| serves_done A w : (forall t e, (t, e) ∈ A c -> now < e) -> serves A w [] A w
| serves_step A w ts e q fired A' w' : A c = (ts, e) :: q -> e <= now ->
    serves (apply_ops cl (script ts w).1 (upd A c q)) (script ts w).2 fired A' w' ->
    serves A w (ts :: fired) A' w'.

(** A timer that no callback arms or stops. *)
Definition untouched (t : Z) : Prop := forall u w o, o ∈ (script u w).1 -> target o <> t.

Lemma apply_ops_keep os c' t e : (forall o, o ∈ os -> target o <> t) -> forall A, (t, e) ∈ A c' -> (t, e) ∈ apply_ops cl os A c'.
Proof.
  induction os as [|o os IH]; intros N A H; [done|].
  change (apply_ops cl (o :: os) A) with (apply_ops cl os (apply_op cl o A)). apply IH; [intros o' Ho; apply N; by right|].
  unfold apply_op. destruct (decide (c' = cl (target o))) as [->|Ne]; [|by rewrite upd_ne]. rewrite upd_eq.
  assert (Hs : (t, e) ∈ stop (target o) (A (cl (target o)))).
  { apply elem_of_stop. split; [|done]. apply not_eq_sym, N. left. }
  destruct o as [u x|u]; [|done]. cbn [target] in *. rewrite insert_perm. by right.
Qed.

(** The timers that are not due, and those of other clocks, stay. *)
Lemma serves_keep A w fired A' w' : serves A w fired A' w' -> forall c' t e,
  untouched t -> (t, e) ∈ A c' -> c' <> c \/ now < e -> (t, e) ∈ A' c'.
Proof.
  intros S. induction S as [A w _|A w ts x q fired A' w' E Hx _ IH]; intros c' t e U H K; [done|].
  apply IH; [done| |done]. apply apply_ops_keep; [apply U|]. destruct (decide (c' = c)) as [->|Ne]; [|by rewrite upd_ne].
  rewrite upd_eq. rewrite E in H. apply elem_of_cons in H as [[= -> ->]|H]; [|done]. destruct K; [done|lia].
Qed.

Lemma not_due q : due now q = [] -> forall t e, (t, e) ∈ q -> now < e.
Proof.
  intros D t e H. destruct (Z.lt_ge_cases now e); [done|]. exfalso.
  assert (Hd : (t, e) ∈ due now q) by (unfold due; apply list_elem_of_filter; split; [cbn; lia|done]).
  rewrite D in Hd. by apply elem_of_nil in Hd.
Qed.

(** The state after a run from [m], which served [fired]. *)
Definition served (m : Timers) (w : W) (A : nat -> queue) (m' : Timers) (w' : W) (A' : nat -> queue) (fired : list Z) : Prop :=
  represents m' A' /\ serves A w fired A' w' /\ callbacks m' = reverse fired ++ callbacks m /\
  fired `sublist_of` (due now (A c)).*1 /\ (own_timers -> fired = (due now (A c)).*1).

Lemma served_none m w A : represents m A -> due now (A c) = [] -> served m w A m w A [].
Proof.
  intros R D. unfold served. rewrite D. split; [done|]. split; [|split; [done|split; [constructor|done]]].
  constructor. by apply not_due.
Qed.

Lemma run_loop_spec : (c < 3)%nat -> forall n m w A fuel,
  represents m A -> well_behaved m -> (length (due now (A c)) <= n)%nat -> (n < fuel)%nat ->
  exists m' w' A' fired,
    run_loop script icount fuel (Z.of_nat c) now m w = Some (m', w') /\ served m w A m' w' A' fired.
Proof.
  intros Hc. induction n as [|n IH]; intros m w A fuel R B Hn Hf; (destruct fuel as [|fuel]; [lia|]);
    cbn [run_loop]; unfold head_of; rewrite Nat2Z.id.
  all: destruct (A c) as [|[ts e] q] eqn:E;
    [destruct (rep_chain m A R c Hc) as (p & -> & C); rewrite E in C; cbn in C; subst p; cbn [mbind option_bind];
     exists m, w, A, []; split; [done|]; apply served_none; [done|by rewrite E]|].
  all: pose proof (rep_order m A R c Hc) as O; rewrite E in O;
    destruct (pop_spec m A c ts e q R Hc E) as (x & m1 & m2 & L & Hx & Ee & E1 & E2 & R2 & C2 & B2);
    rewrite L; cbn [mbind option_bind]; rewrite Hx; cbn [mbind option_bind]; rewrite Ee;
    destruct (Z.ltb_spec now e) as [Lt|Ge];
    [exists m, w, A, []; split; [done|]; apply served_none; [done|by rewrite E, (due_head now ts e q O Lt)]|].
  all: assert (Ed : due now ((ts, e) :: q) = (ts, e) :: due now q) by (unfold due; by rewrite filter_cons_True by (cbn; lia)).
  all: rewrite Ed in Hn; cbn [length] in Hn; try lia.
  rewrite E1. cbn [mbind option_bind]. rewrite E2. cbn [mbind option_bind].
  assert (Bw : forall m', (forall t, clock_of m' t = clock_of m t) -> well_behaved m').
  { intros m' H t w'. destruct (B t w') as [K F]. split; [|done]. eapply Forall_impl; [exact K|]. intros o Ho. by rewrite H. }
  destruct (callback_spec ts m2 w _ R2 (Bw m2 C2)) as (m3 & E3 & R3 & C3 & B3). rewrite E3. cbn [mbind option_bind].
  destruct (due_ops cl c now (script ts w).1 (upd A c q) (proj2 (B ts w))) as [Sub Same]. rewrite upd_eq in Sub, Same.
  destruct (IH m3 (script ts w).2 _ fuel R3) as (m' & w' & A' & fired & Er & R' & Sv & Cb & Sf & Own).
  { apply Bw. intros t. by rewrite C3. } { apply sublist_length in Sub. lia. } { lia. }
  exists m', w', A', (ts :: fired). split; [done|]. unfold served. rewrite E. split; [done|].
  split; [by apply (serves_step _ _ _ e q)|]. split; [|split].
  - rewrite Cb, B3, reverse_cons, B2, <- app_assoc. done.
  - rewrite Ed. cbn. constructor. etransitivity; [exact Sf|]. by apply fst_sublist.
  - intros H. rewrite Ed. cbn. f_equal. rewrite (Own H). f_equal. apply Same. intros o Ho. rewrite (H _ _ _ Ho).
    pose proof (rep_nodup m A R c Hc) as N. rewrite E in N. cbn in N. apply NoDup_cons in N as [Nt _].
    intros Hd. apply Nt. eapply elem_of_sublist; [exact Hd|]. apply fst_sublist, sublist_filter.
Qed.

Lemma serves_end A w fired A' w' : serves A w fired A' w' -> forall t e, (t, e) ∈ A' c -> now < e.
Proof. by induction 1. Qed.
End Run.

(** C23: A run of the timers of a clock serves exactly those that are due.  If
    the callbacks arm timers of that clock for later times only, the run ends
    within one round more than there are timers due, however the callbacks
    rearrange the lists, and the lists it leaves are those of the abstract run
    [serves]: as long as the first timer is due it is taken off its list and
    its callback arms and stops what it does.  No timer of the clock that is
    due is left; every timer that was not due, and every timer of another
    clock, is in its list as before unless a callback armed or stopped it.  The
    callbacks run in the order of the times, each timer at most once and only
    if it was due; and if callbacks arm and stop no timers but their own, every
    timer that was due is served. *)
Theorem run_timers_serves {W} (script : Z -> W -> list Op * W) icount cl c now m w A fuel :
  represents m A -> (c < 3)%nat -> well_behaved script cl c now m ->
  (length (due now (A c)) < fuel)%nat ->
  exists m' w' A' fired,
    qemu_run_timers script icount fuel (Z.of_nat c) true now m w = Some (m', w') /\
    represents m' A' /\ serves script cl c now A w fired A' w' /\
    (forall t e, (t, e) ∈ A' c -> now < e) /\
    (forall c' t e, untouched script t -> (t, e) ∈ A c' -> c' <> c \/ now < e -> (t, e) ∈ A' c') /\
    callbacks m' = reverse fired ++ callbacks m /\
    fired `sublist_of` (due now (A c)).*1 /\ in_order (due now (A c)) /\ NoDup fired /\
    (own_timers script -> fired = (due now (A c)).*1).
Proof.
  intros R Hc B Hf.
  destruct (run_loop_spec script icount cl c now Hc (length (due now (A c))) m w A fuel R B ltac:(lia) Hf)
    as (m' & w' & A' & fired & E & R' & Sv & Cb & S & Own).
  exists m', w', A', fired. do 3 (split; [done|]). split; [by eapply serves_end|]. split; [by eapply serves_keep|].
  split; [done|]. split; [done|]. split; [|split; [|done]].
  - apply filter_order, (rep_order m A R c Hc).
  - eapply sublist_NoDup; [|exact S]. eapply sublist_NoDup; [exact (rep_nodup m A R c Hc)|].
    apply fst_sublist, sublist_filter.
Qed.

(** ** Saving a timer *)

(** The time for which [t] is armed. *)
Definition time_of (t : Z) (q : queue) : option Z := snd <$> head (filter (fun te => te.1 = t) q).

Lemma time_of_spec t q : NoDup q.*1 ->
  match time_of t q with Some e => (t, e) ∈ q | None => t ∉ q.*1 end.
Proof.
  intros _. unfold time_of. destruct (filter (fun te => te.1 = t) q) as [|[t' e] l] eqn:E; cbn.
  - intros H. apply list_elem_of_fmap in H as ([t' e] & -> & H).
    assert (H' : (t', e) ∈ filter (fun te => te.1 = t') q) by (apply list_elem_of_filter; done).
    cbn in E. rewrite E in H'. by apply elem_of_nil in H'.
  - assert (H' : (t', e) ∈ filter (fun te => te.1 = t) q) by (rewrite E; left).
    apply list_elem_of_filter in H' as [<- H']. done.
Qed.

(** A timer that is saved and loaded into another machine, whatever timers
    that one has, is pending there for the time it was pending for, and stopped
    if it was not pending; the other timers keep their times.  The time -1
    stands for a stopped timer and is not available. *)
Theorem timer_save_load icount t c m A m2 A2 :
  represents m A -> represents m2 A2 -> clock_of m t = Some c -> clock_of m2 t = Some c ->
  (forall e, (t, e) ∈ A c -> - 2 ^ 63 <= e < 2 ^ 63 /\ e <> -1) ->
  exists v m', qemu_put_timer t m = Some v /\ qemu_get_timer icount t v m2 = Some m' /\
    represents m' (upd A2 c (match time_of t (A c) with
                             | Some e => insert_timer t e (stop t (A2 c))
                             | None => stop t (A2 c)
                             end)).
Proof.
  intros R R2 H H2 B. unfold qemu_put_timer. rewrite (pending_spec t c m A R H). cbn [mbind option_bind].
  destruct (rep_clock_of m A t c R H) as (x & Hx & _ & Hc & _). rewrite Hx. cbn [mbind option_bind].
  pose proof (time_of_spec t (A c) (rep_nodup m A R c Hc)) as T. destruct (time_of t (A c)) as [e|].
  - assert (Ht : t ∈ (A c).*1) by (apply list_elem_of_fmap; by exists (t, e)).
    rewrite bool_decide_eq_true_2 by done. change (truthy (of_bool true)) with true. cbv iota.
    destruct (rep_chain m A R c Hc) as (p & _ & C). pose proof (chain_data m c _ _ _ _ C T) as D.
    unfold data in D. rewrite Hx in D. injection D as _ ->. destruct (B e T) as [Be Ne].
    destruct (mod_timer_spec icount t e c m2 A2 R2 H2) as (m' & E' & R' & _).
    exists (u64 e), m'. split; [done|]. split; [|done]. unfold qemu_get_timer.
    destruct (Z.eqb_spec (u64 e) (u64 (-1))) as [E|_].
    + exfalso. apply Ne. unfold wrap in E. dlia.
    + replace (s64 (u64 e)) with e; [done|]. unfold swrap, wrap.
      rewrite Zplus_mod_idemp_l. symmetry. apply (swrap_small 64); lia.
  - rewrite bool_decide_eq_false_2 by done. change (truthy (of_bool false)) with false. cbv iota.
    destruct (del_timer_spec t c m2 A2 R2 H2) as (m' & E' & R' & _).
    exists (u64 (-1)), m'. split; [done|]. split; [|done]. unfold qemu_get_timer. by rewrite Z.eqb_refl.
Qed.

(** ** Deadlines *)

Lemma head_time_spec m A c : represents m A -> (c < 3)%nat ->
  match head_time (Z.of_nat c) m with
  | Some t => (exists x, (x, t) ∈ A c) /\ forall x e, (x, e) ∈ A c -> t <= e
  | None => A c = []
  end.
Proof.
  intros R Hc. unfold head_time, head_of. rewrite Nat2Z.id.
  destruct (rep_find m A c R Hc) as (p & L & C & _ & O & _). rewrite L. cbn [mbind option_bind].
  destruct (A c) as [|[t e] q]; [cbn in C; by subst|]. destruct C as (-> & D & _). cbn [mbind option_bind].
  unfold data in D. apply fmap_Some in D as (x & Hx & [= _ ->]). rewrite Hx. cbn [mbind option_bind].
  split; [exists t; left|]. intros y e' H. apply elem_of_cons in H as [[= -> ->]|H]; [done|].
  apply Sorted.StronglySorted_inv in O as [_ O].
  apply (proj1 (List.Forall_forall _ _) O (y, e')). by apply list_elem_of_In.
Qed.

(** *** What the main loop waits for *)

Definition small (z : Z) : Prop := - 2 ^ 62 < z < 2 ^ 62.

(** What is left until the first timer of a list. *)
Lemma remaining_spec m A c now : represents m A -> (c < 3)%nat -> small now ->
  (forall t x, (t, x) ∈ A c -> small x) ->
  match head_time (Z.of_nat c) m with
  | Some t => let r := s64 (t - now) in
      (forall t x, (t, x) ∈ A c -> now + r <= x) /\ exists t, (t, now + r) ∈ A c
  | None => forall t x, (t, x) ∉ A c
  end.
Proof.
  intros R Hc Hn Hs. pose proof (head_time_spec m A c R Hc) as H.
  destruct (head_time (Z.of_nat c) m) as [t|]; [|rewrite H; intros; apply not_elem_of_nil].
  destruct H as [(x & X) L]. pose proof (Hs _ _ X) as St. unfold small in *.
  rewrite (swrap_small 64) by lia. replace (now + (t - now)) with t by lia. eauto.
Qed.

(** Closes the cases of a deadline: the bounds of the lists and the timer that
    attains it. *)
Ltac bounded :=
  let Hx := fresh in
  intros ? ? Hx;
  match goal with
  | N : forall t x, (t, x) ∉ ?q |- _ => by destruct (N _ _ Hx)
  | L : forall t x, (t, x) ∈ ?q -> _ |- _ => specialize (L _ _ Hx); lia
  end.
Ltac deadline :=
  split; [unfold INT32_MAX in *; lia|]; split; [bounded|]; split; [bounded|]; eauto 6.

(** The deadline up to which instructions may be executed is not past the
    first timer: no timer of the virtual and of the host clock expires before
    it, and unless it is the default it is that of a timer or, for a timer that
    is overdue, now. *)
Theorem next_deadline_first e s m A :
  represents m A ->
  let vm := qemu_get_clock_ns e s QEMU_CLOCK_VIRTUAL in
  let host := qemu_get_clock_ns e s QEMU_CLOCK_HOST in
  small vm -> small host -> (forall c t x, (t, x) ∈ A c -> small x) ->
  let d := qemu_next_deadline e s m in
  0 <= d /\
  (forall t x, (t, x) ∈ A 1%nat -> vm + d <= Z.max vm x) /\
  (forall t x, (t, x) ∈ A 2%nat -> host + d <= Z.max host x) /\
  (d = 0 \/ d = INT32_MAX \/ (exists t, (t, vm + d) ∈ A 1%nat) \/ (exists t, (t, host + d) ∈ A 2%nat)).
Proof.
  intros R vm host Hv Hh Hs d.
  pose proof (remaining_spec m A 1 vm R ltac:(lia) Hv (Hs 1%nat)) as H1.
  pose proof (remaining_spec m A 2 host R ltac:(lia) Hh (Hs 2%nat)) as H2.
  unfold d, qemu_next_deadline. fold vm host.
  change (head_time QEMU_CLOCK_VIRTUAL m) with (head_time (Z.of_nat 1) m).
  change (head_time QEMU_CLOCK_HOST m) with (head_time (Z.of_nat 2) m).
  destruct (head_time (Z.of_nat 1) m) as [t1|], (head_time (Z.of_nat 2) m) as [t2|].
  - destruct H1 as (L1 & x1 & X1), H2 as (L2 & x2 & X2).
    destruct (Z.ltb_spec (s64 (t2 - host)) (s64 (t1 - vm))).
    + destruct (Z.ltb_spec (s64 (t2 - host)) 0); deadline.
    + destruct (Z.ltb_spec (s64 (t1 - vm)) 0); deadline.
  - destruct H1 as (L1 & x1 & X1). destruct (Z.ltb_spec (s64 (t1 - vm)) 0); deadline.
  - destruct H2 as (L2 & x2 & X2). destruct (Z.ltb_spec (s64 (t2 - host)) INT32_MAX).
    + destruct (Z.ltb_spec (s64 (t2 - host)) 0); deadline.
    + change (INT32_MAX <? 0) with false. cbv iota. deadline.
  - change (INT32_MAX <? 0) with false. cbv iota. deadline.
Qed.

(** ** The virtual clock *)

(** A stopwatch: it shows [v], or has run from [v] since [t0]. *)
Inductive Watch :=
  | Stopped (v : Z)
  | Going (v t0 : Z).

Definition shows (w : Watch) (t : Z) : Z :=
  match w with Stopped v => v | Going v t0 => v + (t - t0) end.

(** Any sequence of starts, stops, readings of the cycle counter and entries
    into simulation, with the stopwatch [w] and what it showed at the last
    entry into simulation, [b].  The flag [k] of [cpu_set_sim_ticks] is 1 at an
    entry. *)
Inductive watched : TimersState -> Watch -> Z -> Prop :=
  | watched_init : watched timers_state (Stopped 0) 0
  | watched_enable e s w b : watched s w b ->
      watched (cpu_enable_ticks e s) (match w with Stopped v => Going v (host_clock e) | Going _ _ => w end) b
  | watched_disable e s w b : watched s w b ->
      watched (cpu_disable_ticks e s) (Stopped (shows w (host_clock e))) b
  | watched_read e s w b : watched s w b -> watched (cpu_get_ticks e s).2 w b
  | watched_sim e k s w b : watched s w b ->
      watched (cpu_set_sim_ticks e k s).2 w (if k =? 1 then shows w (host_clock e) else b).

Lemma get_ticks_clock e s :
  cpu_clock_offset (cpu_get_ticks e s).2 = cpu_clock_offset s /\
  cpu_ticks_enabled (cpu_get_ticks e s).2 = cpu_ticks_enabled s /\
  cpu_sim_clock_offset (cpu_get_ticks e s).2 = cpu_sim_clock_offset s.
Proof. unfold cpu_get_ticks. repeat case_match; done. Qed.

Lemma set_sim_clock e k s :
  cpu_clock_offset (cpu_set_sim_ticks e k s).2 = cpu_clock_offset s /\
  cpu_ticks_enabled (cpu_set_sim_ticks e k s).2 = cpu_ticks_enabled s.
Proof. unfold cpu_set_sim_ticks. repeat case_match; done. Qed.

Definition keeps (s : TimersState) (w : Watch) : Prop :=
  match w with
  | Stopped v => cpu_ticks_enabled s = 0 /\ cpu_clock_offset s = s64 v
  | Going v t0 => cpu_ticks_enabled s = 1 /\ cpu_clock_offset s = s64 (v - t0)
  end.

Lemma s64_add_r a b : s64 (a + s64 b) = s64 (a + b).
Proof.
  unfold swrap. f_equal.
  replace (a + ((b + 2 ^ (64 - 1)) mod 2 ^ 64 - 2 ^ (64 - 1)) + 2 ^ (64 - 1))
    with (a + (b + 2 ^ (64 - 1)) mod 2 ^ 64) by ring.
  rewrite Zplus_mod_idemp_r. f_equal. ring.
Qed.

Lemma keeps_clock e s w : keeps s w -> cpu_get_clock e s = s64 (shows w (host_clock e)).
Proof.
  intros H. unfold cpu_get_clock. destruct w as [v|v t0]; destruct H as [-> H].
  - change (truthy 0) with false. cbn [shows]. done.
  - change (truthy 1) with true. cbn [shows]. rewrite H, s64_add_r. f_equal. ring.
Qed.

Lemma watched_keeps s w b : watched s w b -> keeps s w.
Proof.
  induction 1 as [|e s w b _ IH|e s w b _ IH|e s w b _ IH|e k s w b _ IH].
  - done.
  - unfold cpu_enable_ticks. destruct w as [v|v t0]; destruct IH as [E H]; rewrite E; [|by split].
    change (truthy 0) with false. split; [done|]. cbn [cpu_clock_offset set_cpu_ticks_enabled set_cpu_clock_offset].
    cbn [cpu_clock_offset set_cpu_ticks_offset]. rewrite H.
    replace (s64 v - host_clock e) with (- host_clock e + s64 v) by ring. rewrite s64_add_r. f_equal. ring.
  - unfold cpu_disable_ticks. destruct (get_ticks_clock e s) as (G1 & G2 & _).
    destruct w as [v|v t0].
    + destruct IH as [E H]. rewrite E. change (truthy 0) with false. by split.
    + assert (K : keeps (cpu_get_ticks e s).2 (Going v t0)) by (destruct IH; split; congruence).
      destruct IH as [E H]. rewrite E. change (truthy 1) with true. destruct (cpu_get_ticks e s) as [ticks s'].
      cbn [snd] in *. split; [done|]. cbn [cpu_clock_offset set_cpu_ticks_enabled set_cpu_clock_offset].
      rewrite <- (keeps_clock e s' (Going v t0) K). done.
  - destruct (get_ticks_clock e s) as (G1 & G2 & _). destruct w; destruct IH; split; congruence.
  - destruct (set_sim_clock e k s) as [G1 G2]. destruct w; destruct IH; split; congruence.
Qed.

(** The offset of the simulated clock is what the stopwatch showed at entry. *)
Lemma entry_offset e s w : keeps s w -> cpu_sim_clock_offset (cpu_set_sim_ticks e 1 s).2 = s64 (shows w (host_clock e)).
Proof.
  intros H. unfold cpu_set_sim_ticks. change (1 =? 1) with true. cbv iota. destruct w as [v|v t0]; destruct H as [-> H].
  - change (truthy 0) with false. exact H.
  - change (truthy 1) with true. cbn -[swrap]. rewrite H.
    replace (s64 (v - t0) + host_clock e) with (host_clock e + s64 (v - t0)) by ring. rewrite s64_add_r. f_equal. ring.
Qed.

Lemma watched_offset s w b : watched s w b -> cpu_sim_clock_offset s = s64 b.
Proof.
  induction 1 as [|e s w b _ IH|e s w b _ IH|e s w b _ IH|e k s w b H IH].
  - done.
  - unfold cpu_enable_ticks. by destruct (truthy _).
  - unfold cpu_disable_ticks. destruct (get_ticks_clock e s) as (_ & _ & G).
    destruct (truthy _); [|done]. destruct (cpu_get_ticks e s). cbn in *. congruence.
  - destruct (get_ticks_clock e s) as (_ & _ & G). congruence.
  - destruct (Z.eqb_spec k 1) as [->|Ne]; [by apply entry_offset, (watched_keeps _ _ b)|].
    unfold cpu_set_sim_ticks. by rewrite (proj2 (Z.eqb_neq k 1) Ne).
Qed.

(** The nanoseconds the simulator has counted. *)
Definition simulated_ns (e : Env) : option Z :=
  int64_of (SFmul 53 1024 (double_of (float_of (sim_cycle e))) (freq_to_ns (sim_cpu_freq e))).

(** C24: The virtual clock is a stopwatch: however often the guest is started,
    stopped and its cycle counter read, and whatever the host's cycle counter
    does, the clock shows the time during which the guest has been running.
    In simulation it shows, at any later time and whatever the host's clock,
    what the stopwatch showed when simulation was last entered plus the time of
    all cycles simulated so far, those of earlier simulations included, so that
    every entry but the first makes it jump. *)
Theorem vm_clock_stopwatch s w b e :
  watched s w b ->
  (in_simulation e = false -> truthy (use_icount e) = false ->
     qemu_get_clock e s QEMU_CLOCK_VIRTUAL = Some (s64 (shows w (host_clock e)))) /\
  (in_simulation e = true ->
     qemu_get_clock e s QEMU_CLOCK_VIRTUAL = (fun ns => s64 (b + ns)) <$> simulated_ns e).
Proof.
  intros H. split; [intros Hs Hi|intros Hs]; unfold qemu_get_clock;
    change (QEMU_CLOCK_VIRTUAL =? QEMU_CLOCK_REALTIME) with false;
    change (QEMU_CLOCK_VIRTUAL =? QEMU_CLOCK_HOST) with false; cbv iota; rewrite Hs.
  - rewrite Hi. by rewrite (keeps_clock e s w (watched_keeps s w b H)).
  - unfold cpu_get_sim_clock. fold (simulated_ns e). destruct (simulated_ns e) as [ns|]; [|done].
    cbn [mbind option_bind fmap option_fmap option_map]. f_equal. rewrite (watched_offset s w b H).
    replace (s64 b + ns) with (ns + s64 b) by ring. rewrite s64_add_r. f_equal. ring.
Qed.

(** *** The simulated clock *)

(** Rounding to the nearest multiple of [2^k]. *)
Lemma round_even_near q k m : 1 <= k -> Z.abs (m - q * 2 ^ k) < 2 ^ (k - 1) -> round_even m k = q.
Proof.
  intros Hk Hm. assert (P : 2 ^ k = 2 * 2 ^ (k - 1)) by (rewrite <- Z.pow_succ_r by lia; f_equal; lia).
  assert (P0 : 0 < 2 ^ (k - 1)) by (apply Z.pow_pos_nonneg; lia).
  unfold round_even. rewrite Z.shiftr_div_pow2, !Z.shiftl_mul_pow2, Z.mul_1_l by lia.
  replace (2 ^ k / 2) with (2 ^ (k - 1)) by (rewrite P, Z.mul_comm, Z.div_mul; lia).
  set (h := 2 ^ (k - 1)) in *. rewrite P in *.
  destruct (Z.le_gt_cases (q * (2 * h)) m) as [L|L].
  - assert (E : m / (2 * h) = q) by (symmetry; apply (Z.div_unique m (2 * h) q (m - q * (2 * h))); lia).
    rewrite E. destruct (Z.ltb_spec h (m - q * (2 * h))); [lia|].
    destruct (Z.eqb_spec h (m - q * (2 * h))); [lia|]. done.
  - assert (E : m / (2 * h) = q - 1) by (symmetry; apply (Z.div_unique m (2 * h) (q - 1) (m - (q - 1) * (2 * h))); lia).
    rewrite E. destruct (Z.ltb_spec h (m - (q - 1) * (2 * h))); [cbn; lia|lia].
Qed.

Lemma float_of_near q k m : 1 <= k -> 2 ^ 23 <= q < 2 ^ 24 -> 2 ^ (23 + k) <= m ->
  Z.abs (m - q * 2 ^ k) < 2 ^ (k - 1) -> float_of m = q * 2 ^ k.
Proof.
  intros Hk Hq Hm Hd. unfold float_of.
  assert (P : 2 ^ k = 2 * 2 ^ (k - 1)) by (rewrite <- Z.pow_succ_r by lia; f_equal; lia).
  assert (P0 : 0 < 2 ^ (k - 1)) by (apply Z.pow_pos_nonneg; lia).
  assert (L : Z.log2 m = 23 + k).
  { apply Z.log2_unique; [lia|]. split; [done|]. replace (Z.succ (23 + k)) with (24 + k) by lia.
    rewrite Z.pow_add_r by lia. nia. }
  rewrite L. replace (Z.max 0 (23 + k - 23)) with k by lia.
  rewrite (round_even_near q k m Hk Hd). apply Z.shiftl_mul_pow2. lia.
Qed.

(** C38: The simulated clock stands still.  The cycle count is converted to
    single precision, so from [2^24] cycles on it is rounded to a multiple of
    [2^k], where [k] grows with its length, and the clock of the guest reads
    the same during [2^k - 1] cycles around that multiple: 256 cycles after
    [2^32], and [2^16] cycles, more than 20 microseconds at 3 GHz, after
    [2^40]. *)
Theorem sim_clock_stands_still e e' s k q :
  1 <= k -> 2 ^ 23 <= q < 2 ^ 24 -> sim_cycle e = q * 2 ^ k ->
  Z.abs (sim_cycle e' - sim_cycle e) < 2 ^ (k - 1) -> 2 ^ (23 + k) <= sim_cycle e' ->
  sim_cpu_freq e' = sim_cpu_freq e ->
  cpu_get_sim_clock e' s = cpu_get_sim_clock e s.
Proof.
  intros Hk Hq He Hd Hm Hf. unfold cpu_get_sim_clock. rewrite Hf. rewrite He in Hd.
  rewrite (float_of_near q k (sim_cycle e')), (float_of_near q k (sim_cycle e)) by (lia || done ||
    (rewrite He; try (rewrite Z.sub_diag; cbn; apply Z.pow_pos_nonneg; lia);
     rewrite Z.pow_add_r by lia; pose proof (Z.pow_pos_nonneg 2 k); nia)).
  done.
Qed.

(** ** Examples *)

Lemma represents_empty m : length (active_timers m) = 3%nat -> (forall t x, heap m !! t = Some x -> 0 <= clock x < 3) ->
  (forall c, (c < 3)%nat -> load (Head c) m = Some None) -> represents m (fun _ => []).
Proof.
  intros L C H. split; [done|done| |constructor|constructor]. intros c Hc. exists None. by rewrite H.
Qed.

(** Timers 100, 200 and 300 of the virtual clock. *)
Definition demo_timers : Timers :=
  qemu_new_timer 300 1 (qemu_new_timer 200 1 (qemu_new_timer 100 1 (no_timers true))).

Lemma demo_represents : represents demo_timers (fun _ => []).
Proof.
  apply represents_empty; [done| |].
  - intros t x H. cbn in H. repeat (apply lookup_insert_Some in H as [[_ <-]|[_ H]]; [cbn; lia|]).
    by rewrite lookup_empty in H.
  - intros c Hc. destruct c as [|[|[|]]]; [done..|lia].
Qed.

Definition demo_clock (t : Z) : nat := 1.
Definition demo_ops : list Op := [Mod 100 50; Mod 200 20; Mod 300 50; Del 200; Mod 100 50].

Lemma demo_known os : Forall (fun o => target o = 100 \/ target o = 200 \/ target o = 300) os ->
  known demo_timers demo_clock os.
Proof. intros H. eapply Forall_impl; [exact H|]. intros o [->|[->| ->]]; done. Qed.

(** The same when no alarm is pending. *)
Definition demo_quiet : Timers := set_alarm_timer (mkAlarm true 0 0) demo_timers.

Lemma timer_lists_refine_witness :
  exists m', run_ops 0 demo_ops demo_quiet = Some m' /\ qemu_timer_pending 200 m' = Some 0 /\
    qemu_timer_pending 100 m' = Some 1 /\ calls m' = [Rearm; Rearm].
Proof.
  destruct (timer_lists_refine 0 demo_clock demo_ops demo_quiet (fun _ => [])) as (m' & E & _ & P & _ & _ & Cs).
  - exact (represents_same demo_timers demo_quiet _ eq_refl eq_refl demo_represents).
  - apply (demo_known demo_ops). repeat constructor; cbn; tauto.
  - exists m'. split; [exact E|]. split.
    + rewrite (P 200 1%nat) by done. done.
    + split; [rewrite (P 100 1%nat) by done; done|]. rewrite Cs. vm_compute. reflexivity.
Defined.

(** The callback of timer 100 arms it again, and the callbacks are counted. *)
Definition demo_script (t : Z) (w : Z) : list Op * Z := (if t =? 100 then [Mod 100 160] else [], w + 1).
Definition demo_armed : list Op := [Mod 100 50; Mod 200 20; Mod 300 500].

Lemma run_timers_serves_witness :
  exists m m' w', run_ops 0 demo_armed demo_timers = Some m /\
    qemu_run_timers demo_script 0 5 1 true 60 m 0 = Some (m', w') /\ callbacks m' = [100; 200] /\
    exists A', represents m' A' /\ (300, 500) ∈ A' 1%nat.
Proof.
  destruct (run_ops_spec 0 demo_clock demo_armed demo_timers (fun _ => [])) as (m & E & R & C & _ & B).
  { exact demo_represents. } { apply demo_known. repeat constructor; cbn; tauto. }
  destruct (run_timers_serves demo_script 0 demo_clock 1 60 m 0
    (apply_ops demo_clock demo_armed (fun _ => [])) 5) as (m' & w' & A' & fired & E' & R' & _ & _ & Keep & Cb & _ & _ & _ & Own).
  - exact R.
  - lia.
  - intros t w. unfold demo_script, known. cbn [fst]. destruct (t =? 100); rewrite ?Forall_singleton; [|done].
    cbn [target later]. rewrite C. split; [done|lia].
  - vm_compute. lia.
  - exists m, m', w'. split; [exact E|]. split; [exact E'|].
    assert (S : own_timers demo_script /\ untouched demo_script 300).
    { split; intros t v o; unfold demo_script; cbn [fst]; destruct (Z.eqb_spec t 100) as [->|]; intros H;
        try (by apply elem_of_nil in H); by apply list_elem_of_singleton in H as ->. }
    split; [rewrite Cb, (run_ops_callbacks _ _ _ _ _ _ B), Own; [vm_compute; reflexivity|apply S]|].
    exists A'. split; [exact R'|]. apply Keep; [apply S| |right; lia].
    change (apply_ops demo_clock demo_armed (λ _, []) 1%nat) with [(200, 20); (100, 50); (300, 500)]. rewrite !elem_of_cons. tauto.
Defined.

Lemma timer_save_load_witness :
  exists m v m', run_ops 0 demo_armed demo_timers = Some m /\ qemu_put_timer 300 m = Some v /\
    qemu_get_timer 0 300 v demo_timers = Some m' /\
    represents m' (upd (fun _ => []) 1 [(300, 500)]).
Proof.
  destruct (run_ops_spec 0 demo_clock demo_armed demo_timers (fun _ => [])) as (m & E & R & C & _ & B).
  { exact demo_represents. } { apply demo_known. repeat constructor; cbn; tauto. }
  destruct (timer_save_load 0 300 1 m _ demo_timers (fun _ => []) R demo_represents) as (v & m' & P & G & R').
  - rewrite C. done.
  - done.
  - intros e He. change (apply_ops demo_clock demo_armed (λ _, []) 1%nat) with [(200, 20); (100, 50); (300, 500)] in He.
    repeat (apply elem_of_cons in He as [He|He];
      [pose proof (f_equal fst He); pose proof (f_equal snd He); cbn in *; lia|]).
    by apply elem_of_nil in He.
  - exists m, v, m'. split; [exact E|]. split; [exact P|]. split; [exact G|exact R'].
Defined.

Definition demo_env (sim : bool) (cycles clk : Z) : Env := mkEnv sim cycles 3000000000 0 0 true 7 clk clk.

Lemma next_deadline_first_witness :
  exists m, run_ops 0 demo_armed demo_timers = Some m /\
    forall x, (x = 20 \/ x = 50 \/ x = 500) -> 10 + qemu_next_deadline (demo_env false 0 10) (mkTS 0 0 0 1 0 0) m <= Z.max 10 x.
Proof.
  destruct (run_ops_spec 0 demo_clock demo_armed demo_timers (fun _ => [])) as (m & E & R & C & _ & B).
  { exact demo_represents. } { apply demo_known. repeat constructor; cbn; tauto. }
  exists m. split; [exact E|].
  destruct (next_deadline_first (demo_env false 0 10) (mkTS 0 0 0 1 0 0) m _ R) as (_ & H & _).
  - by vm_compute.
  - by vm_compute.
  - intros c t x Hx. assert (Q : apply_ops demo_clock demo_armed (λ _, []) c = [] \/
      apply_ops demo_clock demo_armed (λ _, []) c = [(200, 20); (100, 50); (300, 500)]).
    { destruct c as [|[|c]]; [by left|by right|by left]. }
    destruct Q as [Q|Q]; rewrite Q in Hx; [by apply elem_of_nil in Hx|].
    repeat (apply elem_of_cons in Hx as [Hx|Hx]; [apply (f_equal snd) in Hx; cbn in Hx; subst x; by vm_compute|]).
    by apply elem_of_nil in Hx.
  - intros x Hx. change (qemu_get_clock_ns (demo_env false 0 10) (mkTS 0 0 0 1 0 0) QEMU_CLOCK_VIRTUAL) with 10 in H.
    destruct Hx as [->|[->| ->]]; [apply (H 200)|apply (H 100)|apply (H 300)];
      change (apply_ops demo_clock demo_armed (λ _, []) 1%nat) with [(200, 20); (100, 50); (300, 500)];
      rewrite !elem_of_cons; tauto.
Defined.

(** Started at 1000 ns and read at 5000 ns; simulated from then on, read when
    the host's clock shows 9000 ns and 3000 cycles of 3 GHz are simulated. *)
Lemma vm_clock_stopwatch_witness :
  let s := cpu_enable_ticks (demo_env false 0 1000) timers_state in
  qemu_get_clock (demo_env false 0 5000) s QEMU_CLOCK_VIRTUAL = Some 4000 /\
  qemu_get_clock (demo_env true 3000 9000) (cpu_set_sim_ticks (demo_env false 0 5000) 1 s).2 QEMU_CLOCK_VIRTUAL = Some 5000.
Proof.
  intros s. assert (W : watched s (Going 0 1000) 0).
  { apply (watched_enable (demo_env false 0 1000) timers_state (Stopped 0)). constructor. }
  destruct (vm_clock_stopwatch s (Going 0 1000) 0 (demo_env false 0 5000) W) as [H _].
  destruct (vm_clock_stopwatch _ _ _ (demo_env true 3000 9000) (watched_sim (demo_env false 0 5000) 1 _ _ _ W)) as [_ H'].
  split; [rewrite H by reflexivity; reflexivity|rewrite H' by reflexivity; vm_compute; reflexivity].
Defined.

(** 200 cycles after [2^32]. *)
Lemma sim_clock_stands_still_witness :
  cpu_get_sim_clock (demo_env true (2 ^ 32 + 200) 0) timers_state =
  cpu_get_sim_clock (demo_env true (2 ^ 32) 0) timers_state.
Proof.
  apply (sim_clock_stands_still _ _ _ 9 (2 ^ 23)); by vm_compute.
Defined.

(** The rounding of [float_of] is that of the specification of floating point
    numbers. *)
Example float_of_agrees :
  Forall (fun n => int64_of (binary_normalize 24 128 n 0 false) = Some (float_of n))
    [0; 1; 16777215; 16777216; 16777217; 16777218; 16777219; 4294967296 + 128; 4294967296 + 256;
     4294967296 + 257; 4294967296 + 768; 2 ^ 40 - 1; 2 ^ 62 + 2 ^ 38; 2 ^ 62 + 2 ^ 38 + 1].
Proof. repeat (apply Forall_cons; split; [vm_compute; reflexivity|]). constructor. Qed.

Example sim_clock_3GHz : cpu_get_sim_clock (demo_env true 3000000 0) timers_state = Some 1000000.
Proof. vm_compute. reflexivity. Qed.

End Timer.
