(* ===== verification/Iov.v ===== *)
(** * I/O vectors (src/qemu/iov.c, cutils.c)

    A vector is an array of pieces of memory, [iovec]; [QEMUIOVector] adds the
    number of entries in use, the size of the array ([nalloc], -1 for an array
    of the caller) and the number of bytes.  Guest memory is a list of bytes and
    an address an index into it; a separate buffer is a list of its own.  An
    access beyond the array of entries and a failed [assert] are [None].

    The theorems state what the bytes of a vector are: [gather] concatenates
    the pieces.  Vectors are below 2^63 bytes, where no sum of sizes wraps
    around. *)
From S2P Require Import Prelude.
From stdpp Require Import list.
#[local] Open Scope Z_scope.
#[local] Open Scope c_scope.

Module Iov.

Record iovec := mkIov { iov_base : Z; iov_len : Z }.

Record QEMUIOVector := mkQiov {
  iov : list iovec;
  niov : Z;
  nalloc : Z;
  size : Z
}.

(** The entries in use. *)
Definition used (q : QEMUIOVector) : list iovec := take (Z.to_nat (niov q)) (iov q).

(** ** Plain vectors (iov.c) *)

Fixpoint from_loop (l : list iovec) (buf : list Z) (offset size : Z) (mem : list Z) : Z * list Z :=
  match l with
  | [] => (offset, mem)
  | v :: l =>
      if offset <? size then
        let len := Z.min (iov_len v) (u64 (size - offset)) in
        let mem := awrite mem (iov_base v) (aread buf offset (Z.to_nat len)) in
        from_loop l buf (u64 (offset + len)) size mem
      else (offset, mem)
  end.

Definition iov_from_buf (l : list iovec) (buf : list Z) (size : Z) (mem : list Z) : Z * list Z :=
  from_loop l buf 0 size mem.

Fixpoint to_loop (l : list iovec) (mem : list Z) (iov_off buf_off offset size : Z) (buf : list Z)
    : Z * list Z :=
  match l with
  | [] => (buf_off, buf)
  | v :: l =>
      if size =? 0 then (buf_off, buf)
      else if offset <? u64 (iov_off + iov_len v) then
        let len := Z.min (u64 (u64 (iov_off + iov_len v) - offset)) size in
        let buf := awrite buf buf_off (aread mem (iov_base v + u64 (offset - iov_off)) (Z.to_nat len)) in
        to_loop l mem (u64 (iov_off + iov_len v)) (u64 (buf_off + len)) (u64 (offset + len))
          (u64 (size - len)) buf
      else to_loop l mem (u64 (iov_off + iov_len v)) buf_off offset size buf
  end.

Definition iov_to_buf (l : list iovec) (mem : list Z) (buf : list Z) (offset size : Z) : Z * list Z :=
  to_loop l mem 0 0 offset size buf.

Definition iov_size (l : list iovec) : Z := foldl (fun len v => u64 (len + iov_len v)) 0 l.

(** ** Vectors that grow (cutils.c) *)

(** Memory that was not written. *)
Definition junk : iovec := mkIov 0 0.

Definition qemu_iovec_init (alloc_hint : Z) : QEMUIOVector :=
  mkQiov (replicate (Z.to_nat alloc_hint) junk) 0 alloc_hint 0.

Definition qemu_iovec_init_external (l : list iovec) : QEMUIOVector :=
  mkQiov l (Z.of_nat (length l)) (-1) (iov_size l).

Definition qemu_iovec_add (q : QEMUIOVector) (base len : Z) : option QEMUIOVector :=
  if nalloc q =? -1 then None
  else
    let q :=
      if niov q =? nalloc q then
        let n := s32 (2 * nalloc q + 1) in
        mkQiov (iov q ++ replicate (Z.to_nat n - length (iov q)) junk) (niov q) n (size q)
      else q in
    _ ← iov q !! Z.to_nat (niov q);
    Some (mkQiov (<[Z.to_nat (niov q) := mkIov base len]> (iov q)) (niov q + 1) (nalloc q)
            (u64 (size q + len))).

Fixpoint copy_loop (l : list iovec) (dst : QEMUIOVector) (skip done size : Z) : option QEMUIOVector :=
  match l with
  | [] => Some dst
  | v :: l =>
      if done =? size then Some dst
      else if iov_len v <=? skip then copy_loop l dst (skip - iov_len v) done size
      else
        let base := iov_base v + skip in
        let len := u64 (iov_len v - skip) in
        if size <? u64 (done + len) then qemu_iovec_add dst base (u64 (size - done))
        else
          dst ← qemu_iovec_add dst base len;
          copy_loop l dst 0 (u64 (done + len)) size
  end.

Definition qemu_iovec_copy (dst src : QEMUIOVector) (skip size : Z) : option QEMUIOVector :=
  if nalloc dst =? -1 then None else copy_loop (used src) dst skip 0 size.

Definition qemu_iovec_concat (dst src : QEMUIOVector) (size : Z) : option QEMUIOVector :=
  qemu_iovec_copy dst src 0 size.

Definition qemu_iovec_reset (q : QEMUIOVector) : option QEMUIOVector :=
  if nalloc q =? -1 then None else Some (mkQiov (iov q) 0 (nalloc q) 0).

Fixpoint buffer_loop (l : list iovec) (mem : list Z) (p : Z) (buf : list Z) : list Z :=
  match l with
  | [] => buf
  | v :: l =>
      buffer_loop l mem (p + iov_len v) (awrite buf p (aread mem (iov_base v) (Z.to_nat (iov_len v))))
  end.

Definition qemu_iovec_to_buffer (q : QEMUIOVector) (mem buf : list Z) : list Z :=
  buffer_loop (used q) mem 0 buf.

Fixpoint scatter_loop (l : list iovec) (buf : list Z) (p count : Z) (mem : list Z) : list Z :=
  match l with
  | [] => mem
  | v :: l =>
      if count =? 0 then mem
      else
        let copy := if iov_len v <? count then iov_len v else count in
        scatter_loop l buf (p + copy) (count - copy)
          (awrite mem (iov_base v) (aread buf p (Z.to_nat copy)))
  end.

Definition qemu_iovec_from_buffer (q : QEMUIOVector) (buf : list Z) (count : Z) (mem : list Z) : list Z :=
  scatter_loop (used q) buf 0 count mem.

Definition memset (mem : list Z) (base c n : Z) : list Z :=
  awrite mem base (replicate (Z.to_nat n) (u8 c)).

Fixpoint memset_loop (l : list iovec) (c count : Z) (mem : list Z) : list Z :=
  match l with
  | [] => mem
  | v :: l =>
      if count =? 0 then mem
      else
        let n := Z.min count (iov_len v) in
        memset_loop l c (count - n) (memset mem (iov_base v) c n)
  end.

Definition qemu_iovec_memset (q : QEMUIOVector) (c count : Z) (mem : list Z) : list Z :=
  memset_loop (used q) c count mem.

Fixpoint memset_skip_loop (l : list iovec) (c done count skip : Z) (mem : list Z) : list Z :=
  match l with
  | [] => mem
  | v :: l =>
      if done =? count then mem
      else if iov_len v <=? skip then memset_skip_loop l c done count (skip - iov_len v) mem
      else
        let base := iov_base v + skip in
        let len := u64 (iov_len v - skip) in
        if count <? u64 (done + len) then memset mem base c (u64 (count - done))
        else memset_skip_loop l c (u64 (done + len)) count 0 (memset mem base c len)
  end.

Definition qemu_iovec_memset_skip (q : QEMUIOVector) (c count skip : Z) (mem : list Z) : list Z :=
  memset_skip_loop (used q) c 0 count skip mem.

(** ** The bytes of a vector *)

Definition piece (mem : list Z) (v : iovec) : list Z := aread mem (iov_base v) (Z.to_nat (iov_len v)).
Definition gather (mem : list Z) (l : list iovec) : list Z := concat (map (piece mem) l).

Fixpoint total (l : list iovec) : Z :=
  match l with
  | [] => 0
  | v :: l => iov_len v + total l
  end.

(** The pieces lie in memory and do not overlap. *)
Definition apart (v w : iovec) : Prop :=
  iov_base v + iov_len v <= iov_base w \/ iov_base w + iov_len w <= iov_base v.
Definition valid (mem : list Z) (v : iovec) : Prop :=
  0 <= iov_base v /\ 0 <= iov_len v /\ iov_base v + iov_len v <= Z.of_nat (length mem).

Fixpoint scattered (mem : list Z) (l : list iovec) : Prop :=
  match l with
  | [] => True
  | v :: l => valid mem v /\ Forall (apart v) l /\ scattered mem l
  end.

Lemma total_nonneg l : Forall (fun v => 0 <= iov_len v) l -> 0 <= total l.
Proof. induction 1 as [|v l Hv _ IH]; cbn; lia. Qed.

Lemma length_piece mem v : length (piece mem v) = Z.to_nat (iov_len v).
Proof. apply length_aread. Qed.

Lemma length_gather mem l : Forall (fun v => 0 <= iov_len v) l -> Z.of_nat (length (gather mem l)) = total l.
Proof.
  induction 1 as [|v l Hv _ IH]; [done|]. unfold gather in *. cbn [map concat total].
  rewrite length_app, length_piece. lia.
Qed.

Lemma scattered_lens mem l : scattered mem l -> Forall (fun v => 0 <= iov_len v) l.
Proof. induction l as [|v l IH]; cbn; [constructor|]. intros ([_ [H _]] & _ & S). constructor; auto. Qed.

(** ** Bytes put into a vector *)

(** The first bytes of [bs] go to the first piece, and so on. *)
Fixpoint put (l : list iovec) (bs mem : list Z) : list Z :=
  match l with
  | [] => mem
  | v :: l =>
      let n := Z.to_nat (iov_len v) in
      put l (drop n bs) (awrite mem (iov_base v) (take n bs))
  end.

Lemma put_nothing l mem : put l [] mem = mem.
Proof. induction l as [|v l IH]; cbn; [done|]. by rewrite drop_nil, take_nil. Qed.

Lemma length_put l : forall bs mem, length (put l bs mem) = length mem.
Proof. induction l as [|v l IH]; intros; cbn [put]; [done|]. by rewrite IH, length_awrite. Qed.

Lemma length_head (bs : list Z) n : 0 <= n -> Z.of_nat (length (take (Z.to_nat n) bs)) <= n.
Proof. intros. rewrite length_take. lia. Qed.

Lemma scattered_length mem mem' l : length mem' = length mem -> scattered mem l -> scattered mem' l.
Proof.
  intros E. induction l as [|x l IH]; cbn; [done|]. unfold valid. rewrite E. tauto.
Qed.

(** Memory apart from the pieces is kept. *)
Lemma put_apart l : forall bs mem a k, scattered mem l -> 0 <= a -> 0 <= k ->
  Forall (fun v => apart v (mkIov a k)) l -> aread (put l bs mem) a (Z.to_nat k) = aread mem a (Z.to_nat k).
Proof.
  induction l as [|v l IH]; intros bs mem a k S Ha Hk F; cbn [put]; [done|].
  cbn in S. destruct S as ((V1 & V2 & V3) & _ & S). apply Forall_cons in F as [Hv F].
  pose proof (length_head bs _ V2). unfold apart in Hv. cbn in Hv.
  rewrite IH; try done; [apply aread_awrite_ne; lia|]. eapply scattered_length; [|exact S]. apply length_awrite.
Qed.

Lemma gather_apart mem v l bs : valid mem v -> Forall (apart v) l -> scattered mem l ->
  Z.of_nat (length bs) <= iov_len v -> gather (awrite mem (iov_base v) bs) l = gather mem l.
Proof.
  intros (V1 & V2 & V3). induction l as [|w l IH]; intros A S L; [done|].
  cbn in S. destruct S as ((W1 & W2 & W3) & _ & S). apply Forall_cons in A as [A F].
  unfold gather. cbn [map concat]. fold (gather mem l) (gather (awrite mem (iov_base v) bs) l). f_equal; [|by apply IH].
  apply aread_awrite_ne; try lia. destruct A; lia.
Qed.

(** Overwriting the beginning of a piece. *)
Lemma piece_write mem v bs : valid mem v -> Z.of_nat (length bs) <= iov_len v ->
  piece (awrite mem (iov_base v) bs) v = bs ++ drop (length bs) (piece mem v).
Proof.
  intros (V1 & V2 & V3) L. unfold piece.
  replace (Z.to_nat (iov_len v)) with (length bs + (Z.to_nat (iov_len v) - length bs))%nat by lia.
  rewrite !aread_add, aread_awrite_eq by lia. f_equal.
  rewrite drop_app_length' by (by rewrite length_aread). apply aread_awrite_ne; lia.
Qed.

(** The bytes of a vector after [put]. *)
Lemma gather_put l : forall bs mem, scattered mem l ->
  gather (put l bs mem) l = take (Z.to_nat (total l)) bs ++ drop (length bs) (gather mem l).
Proof.
  induction l as [|v l IH]; intros bs mem S; [unfold gather; cbn; by rewrite drop_nil|].
  pose proof (total_nonneg l ltac:(eapply scattered_lens; apply S)) as T.
  cbn in S. destruct S as (V & A & S). pose proof V as (V1 & V2 & V3). pose proof (length_head bs _ V2) as L.
  cbn [put total]. set (n := Z.to_nat (iov_len v)) in *. set (mem1 := awrite mem (iov_base v) (take n bs)).
  assert (S1 : scattered mem1 l) by (eapply scattered_length; [apply length_awrite|exact S]).
  assert (P : piece (put l (drop n bs) mem1) v = piece mem1 v).
  { apply put_apart; [done|lia|lia|]. eapply Forall_impl; [exact A|]. intros w [?|?]; [right|left]; cbn; lia. }
  unfold gather at 1 2. cbn [map concat]. fold (gather (put l (drop n bs) mem1) l) (gather mem l).
  rewrite P, IH by done. unfold mem1. rewrite piece_write, gather_apart by done.
  rewrite Z2Nat.inj_add by lia. fold n. rewrite length_take, length_drop.
  destruct (Nat.le_gt_cases n (length bs)) as [Le|Gt].
  - rewrite (drop_ge (piece mem v)), app_nil_r by (rewrite length_piece; fold n; lia).
    rewrite <- take_take_drop, <- app_assoc. do 2 f_equal.
    rewrite drop_app_ge by (rewrite length_piece; fold n; lia). f_equal. rewrite length_piece. fold n. lia.
  - rewrite (drop_ge bs), take_nil by lia. rewrite !take_ge by lia. rewrite app_nil_l, <- app_assoc. f_equal.
    rewrite Nat.min_r, drop_app_le by (rewrite ?length_piece; fold n; lia). f_equal.
    replace (length bs - n)%nat with 0%nat by lia. by rewrite drop_0.
Qed.

(** ** Copying buffers *)

Lemma aread_slice buf o n : 0 <= o -> o + Z.of_nat n <= Z.of_nat (length buf) ->
  aread buf o n = take n (drop (Z.to_nat o) buf).
Proof.
  intros Ho Hn. replace o with (Z.of_nat (Z.to_nat o)) at 1 by lia.
  pose proof (aread_all buf) as E.
  replace (length buf) with (Z.to_nat o + n + (length buf - Z.to_nat o - n))%nat in E by lia.
  rewrite !aread_add in E. rewrite <- E at 2. rewrite <- app_assoc, drop_app_length' by (by rewrite length_aread).
  by rewrite take_app_length' by (by rewrite length_aread).
Qed.

(** The part of [buf] that a copy of [n] bytes has still to do at [offset]. *)
Definition rest (buf : list Z) (offset n : Z) : list Z := aread buf offset (Z.to_nat (n - offset)).

Lemma rest_split buf offset n m : 0 <= offset <= n -> 0 <= m ->
  take (Z.to_nat m) (rest buf offset n) = aread buf offset (Z.to_nat (Z.min m (n - offset))) /\
  drop (Z.to_nat m) (rest buf offset n) = rest buf (offset + Z.min m (n - offset)) n.
Proof.
  intros Ho Hm. unfold rest. set (k := Z.min m (n - offset)).
  replace (Z.to_nat (n - offset)) with (Z.to_nat k + Z.to_nat (n - (offset + k)))%nat by (unfold k; lia).
  rewrite aread_add, (Z2Nat.id k) by (unfold k; lia).
  destruct (Z.le_gt_cases m (n - offset)) as [L|L].
  - replace k with m by (unfold k; lia). rewrite take_app_length', drop_app_length' by (by rewrite length_aread). done.
  - replace k with (n - offset) by (unfold k; lia). replace (n - (offset + (n - offset))) with 0 by lia.
    rewrite take_ge, drop_ge by (rewrite length_app, !length_aread; lia). by rewrite app_nil_r.
Qed.

Lemma from_loop_put l : forall buf offset n mem, Forall (fun v => 0 <= iov_len v) l ->
  0 <= offset <= n -> n < 2 ^ 64 ->
  from_loop l buf offset n mem = (Z.min n (offset + total l), put l (rest buf offset n) mem).
Proof.
  induction l as [|v l IH]; intros buf offset n mem F Ho Hn; cbn [from_loop total put].
  { f_equal. lia. }
  apply Forall_cons in F as [Hv F]. pose proof (total_nonneg _ F).
  destruct (rest_split buf offset n (iov_len v) Ho Hv) as [-> ->].
  destruct (Z.ltb_spec offset n) as [Lt|Ge].
  - rewrite (wrap_small 64 (n - offset)) by (unfold is_uint; lia).
    rewrite (wrap_small 64 (offset + _)) by (unfold is_uint; lia). rewrite IH by (done || lia). f_equal. lia.
  - assert (offset = n) as -> by lia. replace (Z.min (iov_len v) (n - n)) with 0 by lia. cbn [awrite].
    unfold rest. rewrite Z.add_0_r, Z.sub_diag. change (aread buf n (Z.to_nat 0)) with (@nil Z).
    rewrite put_nothing. cbn [awrite]. f_equal. lia.
Qed.

(** The bytes [iov_to_buf] takes from the vector. *)
Definition slice (g : list Z) (offset n : Z) : list Z := take (Z.to_nat n) (drop (Z.to_nat offset) g).

(** A slice begins in the first piece, or lies after it. *)
Lemma slice_after (p g : list Z) offset n : Z.of_nat (length p) <= offset ->
  slice (p ++ g) offset n = slice g (offset - Z.of_nat (length p)) n.
Proof.
  intros H. unfold slice. rewrite drop_app_ge by lia. do 2 f_equal. lia.
Qed.

Lemma slice_from (p g : list Z) offset n : 0 <= offset <= Z.of_nat (length p) -> 0 <= n ->
  slice (p ++ g) offset n =
  slice p offset (Z.min (Z.of_nat (length p) - offset) n) ++ slice g 0 (n - Z.min (Z.of_nat (length p) - offset) n).
Proof.
  intros Ho Hn. unfold slice. rewrite drop_app_le by lia. change (Z.to_nat 0) with 0%nat. rewrite drop_0.
  rewrite take_app, length_drop. f_equal; [|f_equal; lia].
  destruct (Z.le_gt_cases n (Z.of_nat (length p) - offset)); [f_equal; lia|].
  rewrite !take_ge by (rewrite length_drop; lia). done.
Qed.

Lemma piece_slice mem v offset n : 0 <= offset -> 0 <= n -> offset + n <= iov_len v ->
  slice (piece mem v) offset n = aread mem (iov_base v + offset) (Z.to_nat n).
Proof.
  intros Ho Hn H. unfold slice, piece.
  replace (Z.to_nat (iov_len v)) with (Z.to_nat offset + (Z.to_nat n + Z.to_nat (iov_len v - offset - n)))%nat by lia.
  rewrite !aread_add, drop_app_length', take_app_length' by (by rewrite length_aread). f_equal. lia.
Qed.

Lemma gather_cons mem v l : gather mem (v :: l) = piece mem v ++ gather mem l.
Proof. done. Qed.

Lemma awrite_split bs : forall bs' mem o,
  awrite mem o (bs ++ bs') = awrite (awrite mem o bs) (o + Z.of_nat (length bs)) bs'.
Proof.
  induction bs as [|b bs IH]; intros; cbn [app awrite length]; [by rewrite Z.add_0_r|]. rewrite IH. f_equal. lia.
Qed.

Lemma to_loop_slice mem l : forall iov_off buf_off offset n buf,
  Forall (fun v => 0 <= iov_len v) l -> 0 <= iov_off -> iov_off + total l < 2 ^ 63 ->
  0 <= offset < 2 ^ 63 -> 0 <= n < 2 ^ 63 -> iov_off <= offset \/ n = 0 -> 0 <= buf_off <= offset ->
  let bs := slice (gather mem l) (offset - iov_off) n in
  to_loop l mem iov_off buf_off offset n buf = (buf_off + Z.of_nat (length bs), awrite buf buf_off bs).
Proof.
  induction l as [|v l IH]; intros iov_off buf_off offset n buf F Hi Ht Ho Hn C Hb bs; subst bs; cbn [to_loop total] in *.
  { unfold slice, gather. cbn [map concat]. rewrite drop_nil, take_nil, Z.add_0_r. done. }
  apply Forall_cons in F as [Hv F]. pose proof (total_nonneg _ F).
  destruct (Z.eqb_spec n 0) as [->|Hn0].
  { unfold slice. change (Z.to_nat 0) with 0%nat. by rewrite take_0, Z.add_0_r. }
  destruct C as [C|C]; [|lia]. rewrite gather_cons.
  rewrite (wrap_small 64 (iov_off + _)) by (unfold is_uint; lia).
  pose proof (length_piece mem v) as Lp. destruct (Z.ltb_spec offset (iov_off + iov_len v)) as [Lt|Ge].
  - rewrite (wrap_small 64 (iov_off + _ - _)) by (unfold is_uint; lia). set (k := Z.min _ n).
    rewrite !(wrap_small 64) by (unfold is_uint, k; lia). rewrite IH by (done || unfold k; lia).
    rewrite slice_from by lia. replace (Z.min (Z.of_nat (length (piece mem v)) - (offset - iov_off)) n) with k by (unfold k; lia).
    rewrite piece_slice by (unfold k; lia). rewrite length_app, awrite_split, length_aread.
    replace (slice (gather mem l) (offset + k - (iov_off + iov_len v)) (n - k)) with (slice (gather mem l) 0 (n - k)).
    2: { unfold k, slice. destruct (Z.le_gt_cases n (iov_off + iov_len v - offset));
         [replace (Z.to_nat _) with 0%nat at 1 by lia; replace (Z.to_nat (n - _)) with 0%nat by lia; done|].
         do 3 f_equal. lia. }
    f_equal; [lia|]. f_equal; lia.
  - rewrite IH by (done || lia). rewrite slice_after by lia.
    replace (offset - iov_off - Z.of_nat (length (piece mem v))) with (offset - (iov_off + iov_len v)) by lia. done.
Qed.

Lemma iov_size_total l : Forall (fun v => 0 <= iov_len v) l -> total l < 2 ^ 64 -> iov_size l = total l.
Proof.
  intros F H. unfold iov_size.
  enough (forall n, 0 <= n -> n + total l < 2 ^ 64 -> foldl (fun len v => u64 (len + iov_len v)) n l = n + total l) as ->; [lia|lia|lia|].
  clear H. induction F as [|v l Hv F IH]; intros n Hn H; cbn [foldl total] in *; [lia|]. pose proof (total_nonneg _ F).
  rewrite (wrap_small 64) by (unfold is_uint; lia). rewrite IH; lia.
Qed.

(** Memory outside of the pieces. *)
Definition outside (l : list iovec) (a k : Z) : Prop := 0 <= a /\ 0 <= k /\ Forall (fun v => apart v (mkIov a k)) l.

(** C30: Bytes scattered over a vector are gathered again: [iov_from_buf]
    copies as many bytes as the buffer and the vector both have and reports
    their number, changes no memory outside of the pieces and no byte of the
    vector after them, and [iov_to_buf] then returns any range of these bytes,
    wherever the bounds between the pieces are. *)
Theorem iov_buffer_roundtrip l mem buf n out offset k :
  scattered mem l -> total l < 2 ^ 63 -> 0 <= n -> n = Z.of_nat (length buf) -> n < 2 ^ 63 ->
  0 <= offset -> 0 <= k -> offset + k <= Z.min n (total l) ->
  let r := iov_from_buf l buf n mem in
  fst r = Z.min n (iov_size l) /\
  (forall a j, outside l a j -> aread (snd r) a (Z.to_nat j) = aread mem a (Z.to_nat j)) /\
  drop (length buf) (gather (snd r) l) = drop (length buf) (gather mem l) /\
  iov_to_buf l (snd r) out offset k = (k, awrite out 0 (aread buf offset (Z.to_nat k))).
Proof.
  intros S Ht Hn E Hn2 Ho Hk H. pose proof (scattered_lens _ _ S) as F. pose proof (total_nonneg _ F).
  unfold iov_from_buf. rewrite from_loop_put by (done || lia). cbn [fst snd].
  assert (R : rest buf 0 n = buf) by (unfold rest; replace (Z.to_nat (n - 0)) with (length buf) by lia; apply aread_all).
  rewrite R, iov_size_total, Z.add_0_l by (done || lia). split; [done|].
  split; [intros a j (? & ? & ?); by apply put_apart|].
  assert (G := gather_put l buf mem S). split.
  { rewrite G, drop_app, length_take, (drop_ge (take _ _)) by (rewrite length_take; lia). cbn [app].
    destruct (Nat.le_gt_cases (length buf) (Z.to_nat (total l))).
    - replace (length buf - _)%nat with 0%nat by lia. by rewrite drop_0.
    - rewrite !drop_ge; [done| |rewrite length_drop]; pose proof (length_gather mem l F); lia. }
  unfold iov_to_buf. rewrite to_loop_slice by (done || lia). rewrite Z.sub_0_r.
  assert (B : slice (gather (put l buf mem) l) offset k = aread buf offset (Z.to_nat k)).
  { rewrite aread_slice, G by lia. unfold slice. rewrite drop_app_le, take_app_le by (rewrite ?length_drop, length_take; lia).
    rewrite skipn_firstn_comm, take_take. f_equal. lia. }
  rewrite B, length_aread. f_equal. lia.
Qed.

(** ** Vectors that grow *)

(** The part of a vector from byte [skip] on, at most [n] bytes of it. *)
Fixpoint cut (l : list iovec) (skip n : Z) : list iovec :=
  match l with
  | [] => []
  | v :: l =>
      if n =? 0 then []
      else if iov_len v <=? skip then cut l (skip - iov_len v) n
      else
        let k := Z.min (iov_len v - skip) n in
        mkIov (iov_base v + skip) k :: cut l 0 (n - k)
  end.

Lemma cut_zero l skip : cut l skip 0 = [].
Proof. by destruct l. Qed.

Lemma gather_cut mem l : forall skip n, Forall (fun v => 0 <= iov_len v) l -> 0 <= skip -> 0 <= n ->
  gather mem (cut l skip n) = slice (gather mem l) skip n.
Proof.
  induction l as [|v l IH]; intros skip n F Hs Hn; cbn [cut].
  { unfold slice, gather. cbn. by rewrite drop_nil, take_nil. }
  apply Forall_cons in F as [Hv F]. pose proof (length_piece mem v) as Lp. rewrite gather_cons.
  destruct (Z.eqb_spec n 0) as [->|N0]; [unfold slice; change (Z.to_nat 0) with 0%nat; by rewrite take_0|].
  destruct (Z.leb_spec (iov_len v) skip).
  { rewrite IH, slice_after by (done || lia). f_equal. lia. }
  rewrite slice_from by lia. rewrite Lp, Z2Nat.id by lia. by rewrite piece_slice, gather_cons, IH by (done || lia).
Qed.

(** The array has [nalloc] entries, of which [niov] are in use, and there is
    room for [k] more. *)
Record fits (q : QEMUIOVector) (k : Z) : Prop := {
  fits_array : Z.of_nat (length (iov q)) = nalloc q;
  fits_used : 0 <= niov q <= nalloc q;
  fits_room : nalloc q < 2 ^ 31 /\ 2 * (niov q + k) + 1 < 2 ^ 31;
  fits_lens : Forall (fun v => 0 <= iov_len v) (used q);
  fits_size : size q = u64 (total (used q))
}.

Lemma total_app l l' : total (l ++ l') = total l + total l'.
Proof. induction l as [|v l IH]; cbn [total app]; [done|]. rewrite IH. lia. Qed.

(** The array [qemu_iovec_add] stores in: that of the vector, or a larger one. *)
Definition grown (q : QEMUIOVector) : QEMUIOVector :=
  if niov q =? nalloc q then
    let n := s32 (2 * nalloc q + 1) in
    mkQiov (iov q ++ replicate (Z.to_nat n - length (iov q)) junk) (niov q) n (size q)
  else q.

Lemma grown_fits q k : fits q (k + 1) -> 0 <= k ->
  fits (grown q) (k + 1) /\ niov (grown q) = niov q /\ used (grown q) = used q /\
  size (grown q) = size q /\ niov q < nalloc (grown q).
Proof.
  intros [A U R L S] Hk. unfold grown. destruct (Z.eqb_spec (niov q) (nalloc q)) as [E|E].
  2: { split; [by constructor|]. repeat split; lia. }
  rewrite (swrap_small 32) by lia.
  assert (Us : used (mkQiov (iov q ++ replicate (Z.to_nat (2 * nalloc q + 1) - length (iov q)) junk)
                       (niov q) (2 * nalloc q + 1) (size q)) = used q).
  { unfold used. cbn [niov iov]. apply take_app_le. lia. }
  split; [|cbn [niov size nalloc]; repeat split; try done; lia].
  constructor; cbn [iov niov nalloc size]; rewrite ?Us; try done; [|lia|lia].
  rewrite length_app, length_replicate. lia.
Qed.

Lemma iovec_add_used q k base len : fits q (k + 1) -> 0 <= k -> 0 <= len ->
  exists q', qemu_iovec_add q base len = Some q' /\ fits q' k /\ used q' = used q ++ [mkIov base len].
Proof.
  intros F Hk Hl. destruct (grown_fits q k F Hk) as ([A U R L S] & N & Us & Sz & Lt).
  unfold qemu_iovec_add. rewrite (proj2 (Z.eqb_neq _ _)) by (destruct F; lia).
  fold (grown q). set (g := grown q) in *. clearbody g.
  assert (I : (Z.to_nat (niov g) < length (iov g))%nat) by lia.
  destruct (iov g !! Z.to_nat (niov g)) as [x|] eqn:X; [|apply lookup_ge_None in X; lia].
  cbn. eexists. split; [reflexivity|].
  assert (E : forall s, used (mkQiov (<[Z.to_nat (niov g):=mkIov base len]> (iov g)) (niov g + 1) (nalloc g) s) =
              used q ++ [mkIov base len]).
  { intros s. rewrite <- Us. unfold used. cbn [niov iov]. rewrite Z2Nat.inj_add by lia. change (Z.to_nat 1) with 1%nat.
    rewrite Nat.add_1_r, (take_S_r _ _ (mkIov base len)), take_insert_ge by (by rewrite ?list_lookup_insert_eq). done. }
  split; [|apply E]. constructor; rewrite ?E; cbn [iov niov nalloc size].
  - by rewrite length_insert.
  - lia.
  - lia.
  - apply Forall_app. rewrite <- Us. split; [done|]. by constructor.
  - rewrite total_app, S, Us. cbn [total]. rewrite Z.add_0_r. unfold wrap. by rewrite Zplus_mod_idemp_l.
Qed.

Lemma copy_loop_cut l : forall dst skip d n, fits dst (Z.of_nat (length l)) ->
  Forall (fun v => 0 <= iov_len v) l -> total l < 2 ^ 63 -> 0 <= skip -> 0 <= d <= n -> n < 2 ^ 63 ->
  exists dst', copy_loop l dst skip d n = Some dst' /\ fits dst' 0 /\ used dst' = used dst ++ cut l skip (n - d).
Proof.
  induction l as [|v l IH]; intros dst skip d n Fd F Ht Hs Hd Hn; cbn [copy_loop cut total length] in *.
  { exists dst. by rewrite app_nil_r. }
  apply Forall_cons in F as [Hv F]. pose proof (total_nonneg _ F). destruct Fd as [A U R L S].
  destruct (Z.eqb_spec d n) as [->|Ne].
  { rewrite Z.sub_diag, Z.eqb_refl, app_nil_r. exists dst. split; [done|]. split; [constructor; (done || lia)|done]. }
  rewrite (proj2 (Z.eqb_neq _ _)) by lia. destruct (Z.leb_spec (iov_len v) skip).
  { apply IH; try done; try lia. constructor; (done || lia). }
  rewrite !(wrap_small 64 (iov_len v - skip)) by (unfold is_uint; lia). rewrite !(wrap_small 64) by (unfold is_uint; lia).
  assert (Fd : fits dst (Z.of_nat (length l) + 1)) by (constructor; (done || lia)).
  destruct (Z.ltb_spec n (d + (iov_len v - skip))).
  - rewrite Z.min_r, Z.sub_diag, cut_zero by lia. destruct (iovec_add_used dst _ (iov_base v + skip) (n - d) Fd) as (q & -> & [] & E); [lia|lia|].
    exists q. split; [done|]. split; [constructor; (done || lia)|exact E].
  - rewrite Z.min_l by lia.
    destruct (iovec_add_used dst _ (iov_base v + skip) (iov_len v - skip) Fd) as (q & -> & Fq & E); [lia|lia|]. cbn [mbind option_bind].
    destruct (IH q 0 (d + (iov_len v - skip)) n Fq) as (q' & -> & Fq' & E'); try done; try lia.
    exists q'. split; [done|]. split; [done|]. rewrite E', E, <- app_assoc. cbn [app]. do 3 f_equal. lia.
Qed.

(** [qemu_iovec_copy] appends the bytes of a range of the source: it
    succeeds, stays within the array of entries, which grows as needed, keeps
    the entries the destination has, and the bytes of the destination are
    those it had, then the bytes of the source from [skip] on, at most [n] of
    them; its size is their number. *)
Theorem iovec_copy_slice mem dst src skip n :
  fits dst (niov src) -> fits src 0 -> total (used src) < 2 ^ 63 -> total (used dst) < 2 ^ 63 ->
  0 <= skip -> 0 <= n < 2 ^ 63 ->
  exists dst', qemu_iovec_copy dst src skip n = Some dst' /\ fits dst' 0 /\
    used dst `prefix_of` used dst' /\
    gather mem (used dst') = gather mem (used dst) ++ slice (gather mem (used src)) skip n /\
    size dst' = Z.of_nat (length (gather mem (used dst'))).
Proof.
  intros Fd Fs Ts Td Hs Hn. pose proof (fits_lens _ _ Fs) as Ls. pose proof (fits_lens _ _ Fd) as Ld.
  assert (Len : Z.of_nat (length (used src)) = niov src).
  { destruct Fs as [A U _ _ _]. unfold used. rewrite length_take. lia. }
  unfold qemu_iovec_copy. rewrite (proj2 (Z.eqb_neq _ _)) by (destruct Fd; lia).
  destruct (copy_loop_cut (used src) dst skip 0 n) as (q & -> & Fq & E); try done; try lia; [by rewrite Len|].
  exists q. rewrite Z.sub_0_r in E.
  assert (G : gather mem (used q) = gather mem (used dst) ++ slice (gather mem (used src)) skip n).
  { rewrite E. unfold gather at 1. rewrite map_app, concat_app. f_equal. apply gather_cut; (done || lia). }
  split; [done|]. split; [done|]. split; [by exists (cut (used src) skip n)|]. split; [done|].
  rewrite (fits_size _ _ Fq), <- (length_gather mem _ (fits_lens _ _ Fq)). apply (wrap_small 64).
  rewrite G, length_app. pose proof (length_gather mem _ Ld). pose proof (length_gather mem _ Ls).
  unfold slice. rewrite length_take, length_drop. unfold is_uint. lia.
Qed.

(** The two ways to copy a whole vector agree. *)
Lemma buffer_loop_put l mem : forall p buf, Forall (fun v => 0 <= iov_len v) l ->
  buffer_loop l mem p buf = awrite buf p (gather mem l).
Proof.
  induction l as [|v l IH]; intros p buf F; cbn [buffer_loop]; [done|]. apply Forall_cons in F as [Hv F].
  rewrite IH, gather_cons, awrite_split by done. rewrite length_piece. f_equal. lia.
Qed.

Lemma scatter_loop_put l buf : forall p count mem, Forall (fun v => 0 <= iov_len v) l -> 0 <= p -> 0 <= count ->
  scatter_loop l buf p count mem = put l (rest buf p (p + count)) mem.
Proof.
  induction l as [|v l IH]; intros p count mem F Hp Hc; cbn [scatter_loop put]; [done|]. apply Forall_cons in F as [Hv F].
  destruct (rest_split buf p (p + count) (iov_len v) ltac:(lia) Hv) as [-> ->].
  destruct (Z.eqb_spec count 0) as [->|].
  - replace (Z.min _ _) with 0 by lia. unfold rest. rewrite Z.add_0_r, Z.sub_diag.
    change (aread buf p (Z.to_nat 0)) with (@nil Z). rewrite put_nothing. done.
  - replace (if iov_len v <? count then iov_len v else count) with (Z.min (iov_len v) (p + count - p)) by (zcases; lia).
    set (k := Z.min _ _). rewrite IH by (done || unfold k; lia). do 2 f_equal. lia.
Qed.

(** The helpers of cutils.c do what those of iov.c do with the whole vector:
    [qemu_iovec_from_buffer] leaves memory as [iov_from_buf], and
    [qemu_iovec_to_buffer] fills the buffer as [iov_to_buf] from offset 0 with
    the size of the vector. *)
Theorem iovec_helpers_agree q mem buf n :
  fits q 0 -> total (used q) < 2 ^ 63 -> 0 <= n < 2 ^ 63 ->
  qemu_iovec_from_buffer q buf n mem = snd (iov_from_buf (used q) buf n mem) /\
  qemu_iovec_to_buffer q mem buf = snd (iov_to_buf (used q) mem buf 0 (size q)).
Proof.
  intros Fq Ht Hn. pose proof (fits_lens _ _ Fq) as L. pose proof (total_nonneg _ L).
  unfold qemu_iovec_from_buffer, iov_from_buf, qemu_iovec_to_buffer, iov_to_buf.
  rewrite scatter_loop_put, from_loop_put, buffer_loop_put by (done || lia). split; [done|].
  rewrite (fits_size _ _ Fq), (wrap_small 64) by (unfold is_uint; lia). rewrite to_loop_slice by (done || lia).
  cbn [snd]. f_equal. unfold slice. change (Z.to_nat (0 - 0)) with 0%nat. rewrite drop_0, take_ge; [done|].
  pose proof (length_gather mem _ L). lia.
Qed.

(** ** Filling a range *)

(** [v] lies in [w]. *)
Definition inside (v w : iovec) : Prop :=
  iov_base w <= iov_base v /\ iov_base v + iov_len v <= iov_base w + iov_len w.

Lemma apart_inside v w l : inside v w -> Forall (apart w) l -> Forall (apart v) l.
Proof. intros [I1 I2] F. eapply Forall_impl; [exact F|]. unfold apart. intros x. lia. Qed.

Lemma apart_sym v l : Forall (apart v) l -> Forall (fun x => apart x v) l.
Proof. intros F. eapply Forall_impl; [exact F|]. unfold apart. intros x. lia. Qed.

Lemma cut_apart w l : forall skip n, Forall (apart w) l -> 0 <= skip -> Forall (apart w) (cut l skip n).
Proof.
  induction l as [|v l IH]; intros skip n F Hs; cbn [cut]; [done|]. apply Forall_cons in F as [A F].
  destruct (n =? 0); [done|]. destruct (Z.leb_spec (iov_len v) skip); [apply IH; (done || lia)|].
  constructor; [|by apply IH]. unfold apart in *. cbn. lia.
Qed.

Lemma cut_scattered mem l : forall skip n, scattered mem l -> 0 <= skip -> 0 <= n -> scattered mem (cut l skip n).
Proof.
  induction l as [|v l IH]; intros skip n S Hs Hn; cbn [cut scattered] in *; [done|].
  destruct S as ((V1 & V2 & V3) & A & S). destruct (n =? 0); [done|].
  destruct (Z.leb_spec (iov_len v) skip); [apply IH; (done || lia)|].
  cbn [scattered]. split; [unfold valid; cbn; lia|]. split; [|apply IH; (done || lia)].
  apply cut_apart; [|lia]. eapply apart_inside; [|exact A]. unfold inside. cbn. lia.
Qed.

Lemma cut_lens l : forall skip n, Forall (fun v => 0 <= iov_len v) l -> 0 <= skip -> 0 <= n ->
  Forall (fun v => 0 <= iov_len v) (cut l skip n).
Proof.
  induction l as [|v l IH]; intros skip n F Hs Hn; cbn [cut]; [done|]. apply Forall_cons in F as [Hv F].
  destruct (n =? 0); [done|]. destruct (Z.leb_spec (iov_len v) skip); [apply IH; (done || lia)|].
  constructor; [cbn; lia|]. apply IH; (done || lia).
Qed.

(** Overwriting a part of a piece. *)
Lemma piece_overwrite mem v o bs : valid mem v -> 0 <= o -> o + Z.of_nat (length bs) <= iov_len v ->
  piece (awrite mem (iov_base v + o) bs) v =
  take (Z.to_nat o) (piece mem v) ++ bs ++ drop (Z.to_nat o + length bs) (piece mem v).
Proof.
  intros (V1 & V2 & V3) Ho L. unfold piece.
  replace (Z.to_nat (iov_len v)) with (Z.to_nat o + (length bs + (Z.to_nat (iov_len v) - Z.to_nat o - length bs)))%nat by lia.
  rewrite !aread_add, !Z2Nat.id by lia.
  rewrite take_app_length' by (by rewrite length_aread). rewrite (aread_awrite_eq _ (iov_base v + o)) by lia.
  rewrite <- drop_drop, !drop_app_length' by (by rewrite length_aread).
  rewrite !(aread_awrite_ne mem (iov_base v + o)) by lia. done.
Qed.

(** Overwriting [bs] in [p ++ g], first in [p] and then in [g]. *)
Lemma overwrite_split (p g bs : list Z) (s k : nat) :
  (s + k <= length p)%nat -> (k <= length bs)%nat -> (s + k = length p)%nat \/ k = length bs ->
  (take s p ++ take k bs ++ drop (s + k) p) ++ drop k bs ++ drop (length bs - k) g =
  take s (p ++ g) ++ bs ++ drop (s + length bs) (p ++ g).
Proof.
  intros H Hk C. rewrite take_app_le, <- !app_assoc by lia. f_equal. rewrite <- (take_drop k bs) at 4.
  rewrite <- app_assoc. f_equal. destruct C as [C|C].
  - rewrite (drop_ge p) by lia. cbn [app]. rewrite drop_app_ge by lia. do 2 f_equal. lia.
  - rewrite (drop_ge bs), !app_nil_l, drop_app_le by lia.
    replace (length bs - k)%nat with 0%nat by lia. rewrite drop_0. do 2 f_equal. lia.
Qed.

Lemma gather_put_cut l : forall mem bs skip n, scattered mem l -> 0 <= skip -> 0 <= n ->
  Z.of_nat (length bs) = total (cut l skip n) ->
  gather (put (cut l skip n) bs mem) l =
  take (Z.to_nat skip) (gather mem l) ++ bs ++ drop (Z.to_nat skip + length bs) (gather mem l).
Proof.
  induction l as [|v l IH]; intros mem bs skip n S Hs Hn L; cbn [cut].
  { cbn [cut total] in L. destruct bs; cbn in L; [|lia]. unfold gather. cbn. by rewrite take_nil, drop_nil. }
  cbn [cut total scattered] in L, S. destruct S as (V & A & S). pose proof V as (V1 & V2 & V3). pose proof (length_piece mem v) as Lp.
  destruct (Z.eqb_spec n 0) as [->|N0].
  { destruct bs; [|cbn in L; lia]. cbn [put app length]. by rewrite Nat.add_0_r, take_drop. }
  rewrite !gather_cons. destruct (Z.leb_spec (iov_len v) skip) as [Le|Gt].
  - rewrite IH by (done || lia). unfold piece at 1. rewrite put_apart; [|by apply cut_scattered; (done || lia)|lia|lia|].
    2: { apply apart_sym, cut_apart; [|lia]. destruct v. exact A. }
    fold (piece mem v). rewrite take_app_ge, drop_app_ge by lia. rewrite <- app_assoc, Lp. do 2 f_equal; [f_equal; lia|].
    f_equal. f_equal. lia.
  - cbn [total iov_len] in L. set (k := Z.min _ _) in *. set (v' := mkIov (iov_base v + skip) k) in *.
    cbn [put iov_base iov_len]. fold v'. change (iov_len v') with k. change (iov_base v') with (iov_base v + skip).
    pose proof (scattered_lens mem _ (cut_scattered mem l 0 (n - k) S ltac:(lia) ltac:(unfold k; lia))) as Fc.
    pose proof (total_nonneg _ Fc) as Tc.
    assert (Lk : Z.of_nat (length (take (Z.to_nat k) bs)) = k) by (rewrite length_take; unfold k in *; lia).
    set (mem1 := awrite mem (iov_base v + skip) (take (Z.to_nat k) bs)).
    assert (S1 : scattered mem1 l) by (eapply scattered_length; [apply length_awrite|exact S]).
    assert (A' : Forall (apart v') l) by (eapply apart_inside; [|exact A]; unfold inside, v', k; cbn; lia).
    rewrite IH; [|done|lia|unfold k; lia|rewrite length_drop; unfold k in *; lia].
    unfold piece at 1. rewrite put_apart; [|apply cut_scattered; [done|lia|unfold k; lia]|lia|lia|].
    2: { apply apart_sym, cut_apart; [|lia]. destruct v. exact A. }
    fold (piece mem1 v). unfold mem1. rewrite piece_overwrite by (done || lia).
    change (iov_base v + skip) with (iov_base v').
    rewrite gather_apart; [|unfold valid, v', k; cbn; lia|done|done|cbn; lia].
    change (Z.to_nat 0) with 0%nat. rewrite take_0, app_nil_l, length_drop, Nat.add_0_l.
    replace (length (take (Z.to_nat k) bs)) with (Z.to_nat k) by lia.
    apply overwrite_split; [unfold k in *; lia|unfold k in *; lia|].
    destruct (Z.le_gt_cases (iov_len v - skip) n); [left; unfold k; lia|right].
    replace k with n in * by (unfold k; lia). rewrite Z.sub_diag, cut_zero in L. cbn [total] in L. lia.
Qed.

Lemma memset_skip_put l c : forall d count skip mem, Forall (fun v => 0 <= iov_len v) l -> total l < 2 ^ 63 ->
  0 <= skip -> 0 <= d <= count -> count < 2 ^ 63 ->
  let part := cut l skip (count - d) in
  memset_skip_loop l c d count skip mem = put part (replicate (Z.to_nat (total part)) (u8 c)) mem.
Proof.
  induction l as [|v l IH]; intros d count skip mem F Ht Hs Hd Hc part; subst part; cbn [memset_skip_loop cut total] in *; [done|].
  apply Forall_cons in F as [Hv F]. pose proof (total_nonneg _ F).
  destruct (Z.eqb_spec d count) as [->|Ne]; [by rewrite Z.sub_diag, Z.eqb_refl|].
  rewrite (proj2 (Z.eqb_neq _ _)) by lia. destruct (Z.leb_spec (iov_len v) skip); [apply IH; (done || lia)|].
  rewrite !(wrap_small 64 (iov_len v - skip)) by (unfold is_uint; lia). rewrite !(wrap_small 64) by (unfold is_uint; lia).
  cbn [put total iov_len iov_base]. set (k := Z.min _ _).
  assert (Fc : 0 <= total (cut l 0 (count - d - k))) by (apply total_nonneg, cut_lens; (done || unfold k; lia)).
  rewrite Z2Nat.inj_add, replicate_add by (unfold k in *; lia).
  rewrite take_app_length', drop_app_length' by (by rewrite length_replicate).
  unfold memset. destruct (Z.ltb_spec count (d + (iov_len v - skip))).
  - replace k with (count - d) by (unfold k; lia). by rewrite Z.sub_diag, cut_zero.
  - replace k with (iov_len v - skip) by (unfold k; lia). rewrite IH by (done || lia).
    by replace (count - (d + (iov_len v - skip))) with (count - d - (iov_len v - skip)) by lia.
Qed.

Lemma memset_loop_skip l c : forall d count mem, Forall (fun v => 0 <= iov_len v) l -> total l < 2 ^ 63 ->
  0 <= d <= count -> count < 2 ^ 63 -> memset_loop l c (count - d) mem = memset_skip_loop l c d count 0 mem.
Proof.
  induction l as [|v l IH]; intros d count mem F Ht Hd Hc; cbn [memset_loop memset_skip_loop total] in *; [done|].
  apply Forall_cons in F as [Hv F]. pose proof (total_nonneg _ F).
  destruct (Z.eqb_spec d count) as [->|Ne]; [by rewrite Z.sub_diag|].
  rewrite (proj2 (Z.eqb_neq _ _)) by lia. destruct (Z.leb_spec (iov_len v) 0).
  { replace (Z.min _ _) with 0 by lia. replace (0 - iov_len v) with 0 by lia. rewrite Z.sub_0_r. apply IH; (done || lia). }
  rewrite !Z.add_0_r, Z.sub_0_r, !(wrap_small 64 (iov_len v)) by (unfold is_uint; lia).
  rewrite !(wrap_small 64) by (unfold is_uint; lia). destruct (Z.ltb_spec count (d + iov_len v)).
  - rewrite Z.min_l, Z.sub_diag by lia. by destruct l.
  - rewrite Z.min_r, <- IH by (done || lia). f_equal. lia.
Qed.

Lemma total_cut l : forall skip n, Forall (fun v => 0 <= iov_len v) l -> 0 <= skip -> 0 <= n ->
  total (cut l skip n) = Z.min n (Z.max 0 (total l - skip)).
Proof.
  induction l as [|v l IH]; intros skip n F Hs Hn; cbn [cut total]; [lia|]. apply Forall_cons in F as [Hv F].
  pose proof (total_nonneg _ F). destruct (Z.eqb_spec n 0); [cbn [total]; lia|].
  destruct (Z.leb_spec (iov_len v) skip); [rewrite IH by (done || lia); lia|].
  cbn [total iov_len]. rewrite IH by (done || lia). lia.
Qed.

Lemma cut_outside l skip n a k : outside l a k -> 0 <= skip -> outside (cut l skip n) a k.
Proof.
  intros (Ha & Hk & F) Hs. split; [done|]. split; [done|]. apply apart_sym, cut_apart; [|done].
  eapply Forall_impl; [exact F|]. unfold apart. cbn. intros x. lia.
Qed.

(** [qemu_iovec_memset_skip] sets the bytes from [skip] on, at most [count] of
    them, and no other byte of the vector and of memory; [qemu_iovec_memset]
    is the same from the beginning. *)
Theorem iovec_memset_range q mem c count skip :
  fits q 0 -> scattered mem (used q) -> total (used q) < 2 ^ 63 -> 0 <= count < 2 ^ 63 -> 0 <= skip < 2 ^ 63 ->
  let mem' := qemu_iovec_memset_skip q c count skip mem in
  let g := gather mem (used q) in
  let n := Z.to_nat (Z.min count (Z.max 0 (size q - skip))) in
  gather mem' (used q) = take (Z.to_nat skip) g ++ replicate n (u8 c) ++ drop (Z.to_nat skip + n) g /\
  (forall a k, outside (used q) a k -> aread mem' a (Z.to_nat k) = aread mem a (Z.to_nat k)) /\
  qemu_iovec_memset q c count mem = qemu_iovec_memset_skip q c count 0 mem.
Proof.
  intros Fq S Ht Hc Hs. pose proof (fits_lens _ _ Fq) as L. pose proof (total_nonneg _ L).
  rewrite (fits_size _ _ Fq), (wrap_small 64) by (unfold is_uint; lia).
  unfold qemu_iovec_memset_skip, qemu_iovec_memset. rewrite <- memset_loop_skip, memset_skip_put by (done || lia).
  rewrite !Z.sub_0_r, total_cut by (done || lia). set (n := Z.to_nat (Z.min _ _)).
  split; [|split; [|done]].
  - rewrite gather_put_cut; [by rewrite length_replicate|done|lia|lia|]. rewrite length_replicate, total_cut by (done || lia). lia.
  - intros a k O. destruct (cut_outside _ skip count a k O) as (? & ? & ?); [lia|]. apply put_apart; try done.
    apply cut_scattered; (done || lia).
Qed.

(** ** Witnesses *)

(** Three pieces of a memory of 40 bytes, one of them empty, and a vector with
    no room for another entry. *)
Definition demo_mem : list Z := seqZ 100 40.
Definition demo_iov : list iovec := [mkIov 20 4; mkIov 3 0; mkIov 5 6].
Definition demo_src : QEMUIOVector := mkQiov demo_iov 3 3 10.
Definition demo_dst : QEMUIOVector := mkQiov [mkIov 30 2] 1 1 2.

Lemma demo_scattered : scattered demo_mem demo_iov.
Proof.
  cbn -[demo_mem]. unfold valid, apart, demo_mem. rewrite length_seqZ. cbn. repeat constructor; cbn; lia.
Qed.

Lemma demo_src_fits : fits demo_src 0.
Proof. repeat constructor; cbn; lia. Qed.

Lemma demo_dst_fits : fits demo_dst 3.
Proof. repeat constructor; cbn; lia. Qed.

Lemma iov_buffer_roundtrip_witness :
  let r := iov_from_buf demo_iov [1; 2; 3; 4; 5; 6; 7] 7 demo_mem in
  iov_to_buf demo_iov (snd r) [0; 0; 0; 0] 3 3 = (3, [4; 5; 6; 0]).
Proof.
  refine (proj2 (proj2 (proj2 (iov_buffer_roundtrip demo_iov demo_mem [1; 2; 3; 4; 5; 6; 7] 7 [0; 0; 0; 0] 3 3
    demo_scattered _ _ _ _ _ _ _)))); cbn; lia.
Defined.

Lemma iovec_copy_slice_witness : exists dst',
  qemu_iovec_copy demo_dst demo_src 2 5 = Some dst' /\
  gather demo_mem (used dst') = [130; 131; 122; 123; 105; 106; 107] /\ nalloc dst' = 3.
Proof.
  destruct (iovec_copy_slice demo_mem demo_dst demo_src 2 5 demo_dst_fits demo_src_fits) as (d & E & _ & _ & G & _);
    [try split; by vm_compute..|].
  exists d. split; [exact E|]. split; [exact G|]. vm_compute in E. by injection E as <-.
Defined.

Lemma iovec_helpers_agree_witness :
  qemu_iovec_to_buffer demo_src demo_mem (replicate 10 0) =
  snd (iov_to_buf demo_iov demo_mem (replicate 10 0) 0 10).
Proof. refine (proj2 (iovec_helpers_agree demo_src demo_mem (replicate 10 0) 10 demo_src_fits _ _));
  try split; by vm_compute.
Defined.

Lemma iovec_memset_range_witness :
  gather (qemu_iovec_memset_skip demo_src 0 4 2 demo_mem) demo_iov = [120; 121; 0; 0; 0; 0; 107; 108; 109; 110].
Proof.
  refine (proj1 (iovec_memset_range demo_src demo_mem 0 4 2 demo_src_fits demo_scattered _ _ _)); try split; by vm_compute.
Defined.

End Iov.
