(* ===== verification/Cutils.v ===== *)
(** * Strings and dates (src/qemu/cutils.c)

    Bounded copies of C strings and the conversion of a broken-down date to
    seconds.  A string is the list of the bytes from its first one to the end
    of the object that holds it; reading past that end is [None].  Characters
    are signed.  Arithmetic on [int] wraps around; [time_t] has 64 bits.

    The theorems: [pstrcpy] and [pstrcat] keep the longest beginning that fits
    and always terminate it; [mktimegm] counts the seconds of the calendar that
    the real time clock (RTC.v) runs through, until its product of 32 bits
    overflows after 19 January 2038. *)
From S2P Require Import Prelude RTC.

Module Cutils.

Fixpoint pstrcpy_loop (str : list Z) (q last : Z) (buf : list Z) : option (list Z) :=
  match str with
  | [] => None
  | c :: str =>
      if (c =? 0) || (last <=? q) then Some (aset buf q 0)
      else pstrcpy_loop str (q + 1) last (aset buf q c)
  end.

(** The destination is [base] bytes into [buf]. *)
Definition pstrcpy (base buf_size : Z) (str buf : list Z) : option (list Z) :=
  if buf_size <=? 0 then Some buf else pstrcpy_loop str base (base + buf_size - 1) buf.

Fixpoint strlen (s : list Z) : option Z :=
  match s with
  | [] => None
  | c :: s => if c =? 0 then Some 0 else n ← strlen s; Some (n + 1)
  end.

Definition pstrcat (buf_size : Z) (s buf : list Z) : option (list Z) :=
  len ← strlen buf;
  if len <? buf_size then pstrcpy len (buf_size - len) s buf else Some buf.

(** The result of [strstart] is [*ptr] when the function returns 1. *)
Fixpoint strstart (str val : list Z) {struct val} : option (option (list Z)) :=
  match val with
  | [] => None
  | v :: val =>
      if v =? 0 then Some (Some str)
      else
        match str with
        | [] => None
        | c :: str => if negb (c =? v) then Some None else strstart str val
        end
  end.

Definition qemu_toupper (c : Z) : Z :=
  let c := u8 c in if (97 <=? c) && (c <=? 122) then c - 32 else c.

Fixpoint stristart (str val : list Z) {struct val} : option (option (list Z)) :=
  match val with
  | [] => None
  | v :: val =>
      if v =? 0 then Some (Some str)
      else
        match str with
        | [] => None
        | c :: str => if negb (qemu_toupper c =? qemu_toupper v) then Some None else stristart str val
        end
  end.

Fixpoint strnlen_loop (n : nat) (s : list Z) (i : Z) : option Z :=
  match n with
  | O => Some i
  | S n =>
      match s with
      | [] => None
      | c :: s => if c =? 0 then Some i else strnlen_loop n s (i + 1)
      end
  end.

Definition qemu_strnlen (s : list Z) (max_len : Z) : option Z := strnlen_loop (Z.to_nat max_len) s 0.

Definition mktimegm (t : RTC.tm) : Z :=
  let y := RTC.tm_year t + 1900 in
  let m := RTC.tm_mon t + 1 in
  let d := RTC.tm_mday t in
  let '(m, y) := if m <? 3 then (m + 12, y - 1) else (m, y) in
  let days := d + Z.quot (153 * m - 457) 5 + 365 * y + Z.quot y 4 - Z.quot y 100 + Z.quot y 400 - 719469 in
  s32 (86400 * days) + s32 (3600 * RTC.tm_hour t + 60 * RTC.tm_min t + RTC.tm_sec t).

(** ** Strings *)

(** [buf] holds the string [s] at [base]. *)
Definition holds (buf : list Z) (base : Z) (s : list Z) : Prop :=
  Forall (fun c => c <> 0) s /\ 0 <= base /\ base + Z.of_nat (length s) < Z.of_nat (length buf) /\
  aread buf base (S (length s)) = s ++ [0].

(** A string and the bytes after it. *)
Definition is_string (l s : list Z) : Prop := Forall (fun c => c <> 0) s /\ exists junk, l = s ++ 0 :: junk.

Lemma pstrcpy_loop_writes l s : is_string l s -> forall q last buf, q <= last ->
  pstrcpy_loop l q last buf = Some (awrite buf q (take (Z.to_nat (last - q)) s ++ [0])).
Proof.
  intros [F [junk ->]]. induction F as [|c s Hc F IH]; intros q last buf Hq; cbn [pstrcpy_loop app].
  { by rewrite Z.eqb_refl, take_nil. }
  rewrite (proj2 (Z.eqb_neq _ _)) by done. cbn [orb]. destruct (Z.leb_spec last q).
  { replace (Z.to_nat (last - q)) with 0%nat by lia. done. }
  rewrite IH by lia. replace (Z.to_nat (last - q)) with (S (Z.to_nat (last - (q + 1)))) by lia. done.
Qed.

Lemma pstrcpy_writes base n l s buf : is_string l s -> 0 < n ->
  pstrcpy base n l buf = Some (awrite buf base (take (Z.to_nat (n - 1)) s ++ [0])).
Proof.
  intros H Hn. unfold pstrcpy. rewrite (proj2 (Z.leb_gt _ _)) by lia.
  rewrite (pstrcpy_loop_writes l s H) by lia. do 5 f_equal. lia.
Qed.

Lemma strlen_holds buf s : is_string buf s -> strlen buf = Some (Z.of_nat (length s)).
Proof.
  intros [F [junk ->]]. induction F as [|c s Hc F IH]; cbn [strlen app length]; [done|].
  rewrite (proj2 (Z.eqb_neq _ _)), IH by done. cbn. f_equal. lia.
Qed.

Lemma holds_is_string buf s : holds buf 0 s -> is_string buf s.
Proof.
  intros (F & _ & L & R). split; [done|]. exists (drop (S (length s)) buf).
  change (s ++ 0 :: drop (S (length s)) buf) with (s ++ [0] ++ drop (S (length s)) buf). rewrite app_assoc, <- R.
  rewrite <- (aread_all buf) at 1 3.
  replace (length buf) with (S (length s) + (length buf - S (length s)))%nat by lia.
  rewrite aread_add, drop_app_length' by (by rewrite length_aread). done.
Qed.

Lemma write_holds buf base s : Forall (fun c => c <> 0) s -> 0 <= base ->
  base + Z.of_nat (length s) < Z.of_nat (length buf) -> holds (awrite buf base (s ++ [0])) base s.
Proof.
  intros F Hb L. split; [done|]. split; [done|]. rewrite length_awrite. split; [done|].
  apply aread_awrite_eq; rewrite ?length_app; cbn; lia.
Qed.

(** Appending behind a string that is there. *)
Lemma append_holds buf b s : holds buf 0 b -> Forall (fun c => c <> 0) s ->
  Z.of_nat (length b + length s) < Z.of_nat (length buf) ->
  holds (awrite buf (Z.of_nat (length b)) (s ++ [0])) 0 (b ++ s).
Proof.
  intros (Fb & _ & Lb & Rb) F L. split; [by apply Forall_app|]. split; [done|]. rewrite length_awrite, length_app.
  split; [lia|]. replace (S (length b + length s)) with (length b + S (length s))%nat by lia.
  rewrite aread_add, Z.add_0_l, aread_awrite_eq by (rewrite ?length_app; cbn; lia).
  rewrite aread_awrite_ne by (rewrite ?length_app; cbn; lia). rewrite <- app_assoc. f_equal.
  replace (S (length b)) with (length b + 1)%nat in Rb by lia. rewrite aread_add in Rb.
  apply app_inj_1 in Rb as [Rb _]; [done|]. by rewrite length_aread.
Qed.

(** Copies never pass the end of the buffer and are always terminated.
    [pstrcpy] with a positive size leaves in the buffer the longest beginning
    of the string that fits with its terminator, and [pstrcat] appends to the
    string in the buffer the longest beginning that still fits; neither changes
    a byte from the size on.  A buffer whose string is as long as the size
    already is left as it is. *)
Theorem pstrcat_truncates n l s buf b :
  holds buf 0 b -> is_string l s -> 0 < n <= Z.of_nat (length buf) ->
  (exists buf', pstrcpy 0 n l buf = Some buf' /\ holds buf' 0 (take (Z.to_nat (n - 1)) s) /\
    length buf' = length buf /\ forall k, n <= k -> aget buf' k = aget buf k) /\
  (exists buf', pstrcat n l buf = Some buf' /\
    (Z.of_nat (length b) < n -> holds buf' 0 (b ++ take (Z.to_nat (n - 1) - length b) s)) /\
    (n <= Z.of_nat (length b) -> buf' = buf) /\
    length buf' = length buf /\ forall k, n <= k -> aget buf' k = aget buf k).
Proof.
  intros Hb Hl Hn. pose proof Hl as [F _].
  assert (K : forall base m, 0 <= base -> base + Z.of_nat m < n ->
    length (awrite buf base (take m s ++ [0])) = length buf /\
    forall k, n <= k -> aget (awrite buf base (take m s ++ [0])) k = aget buf k).
  { intros base m H1 H2. split; [apply length_awrite|]. intros k Hk.
    pose proof (length_take s m). rewrite aget_awrite by (rewrite ?length_app; cbn; lia). rewrite length_app. cbn [length].
    zcases; done || lia. }
  split.
  - rewrite (pstrcpy_writes 0 n l s) by (done || lia). eexists. split; [reflexivity|]. split; [|apply K; lia].
    apply write_holds; [by apply Forall_take|lia|]. rewrite length_take. lia.
  - unfold pstrcat. rewrite (strlen_holds buf b) by (by apply holds_is_string). cbn [mbind option_bind].
    destruct (Z.ltb_spec (Z.of_nat (length b)) n) as [Lt|Ge].
    2: { exists buf. split; [done|]. split; [lia|]. done. }
    rewrite (pstrcpy_writes _ _ l s) by (done || lia). eexists. split; [reflexivity|].
    replace (Z.to_nat (n - Z.of_nat (length b) - 1)) with (Z.to_nat (n - 1) - length b)%nat by lia.
    split; [intros _|split; [lia|apply K; lia]].
    apply append_holds; [done|by apply Forall_take|]. rewrite length_take. lia.
Qed.

(** [strstart] finds a prefix and where it ends; [qemu_strnlen] is the length
    of the string, or the bound. *)
Theorem strstart_prefix l s lv v :
  is_string l s -> is_string lv v ->
  (strstart l lv = Some None /\ ~ v `prefix_of` s) \/
  (exists k l', s = v ++ k /\ is_string l' k /\ strstart l lv = Some (Some l')).
Proof.
  intros [F [j ->]] [Fv [jv ->]]. revert s F. induction Fv as [|x v Hx Fv IH]; intros s F; cbn [strstart app].
  { right. exists s, (s ++ 0 :: j). split; [done|]. split; [|done]. split; [done|by exists j]. }
  rewrite (proj2 (Z.eqb_neq x 0)) by done. destruct F as [|c s Hc F]; cbn [app].
  { left. rewrite (proj2 (Z.eqb_neq 0 x)) by auto. split; [done|]. intros [k E]. done. }
  destruct (Z.eqb_spec c x) as [->|N]; cbn [negb].
  - destruct (IH s F) as [[E P]|(k & l' & -> & S & E)].
    + left. split; [done|]. intros [k Ek]. apply P. exists k. by injection Ek.
    + right. by exists k, l'.
  - left. split; [done|]. intros [k Ek]. by injection Ek as -> _.
Qed.

Theorem strnlen_bounded l s n : is_string l s -> qemu_strnlen l n = Some (Z.min (Z.max 0 n) (Z.of_nat (length s))).
Proof.
  intros [F [j ->]]. unfold qemu_strnlen.
  enough (E : forall m i, strnlen_loop m (s ++ 0 :: j) i = Some (i + Z.min (Z.of_nat m) (Z.of_nat (length s)))) by (rewrite E; f_equal; lia).
  induction F as [|c s Hc F IH]; intros [|m] i; cbn [strnlen_loop app length]; try (f_equal; lia).
  rewrite (proj2 (Z.eqb_neq c 0)), IH by done. f_equal. lia.
Qed.

(** ** Dates *)

(** 1 January 1970. *)
Definition epoch : RTC.tm := RTC.mkTm 0 0 0 4 1 0 70.

(** The days since the epoch. *)
Definition days_of (t : RTC.tm) : Z := RTC.day_number t - RTC.day_number epoch.

(** Replaces a closed term by its value. *)
Ltac evaluate t := let v := eval vm_compute in t in change t with v.

(** The formula of [mktimegm] for the days, month by month. *)
Lemma days_formula mday mon y : 0 <= mon < 12 -> 1 <= y ->
  let '(m, y') := if mon + 1 <? 3 then (mon + 1 + 12, y - 1) else (mon + 1, y) in
  mday + Z.quot (153 * m - 457) 5 + 365 * y' + Z.quot y' 4 - Z.quot y' 100 + Z.quot y' 400 - 719469 =
  RTC.year_start y + RTC.month_start mon y + mday - 1 - 719162.
Proof.
  intros Hm Hy. pose proof (RTC.year_step y) as Y. unfold RTC.year_start in *. replace (y + 1 - 1) with y in Y by lia.
  destruct (Z.ltb_spec (mon + 1) 3); rewrite ?(Z.quot_div_nonneg y), ?(Z.quot_div_nonneg (y - 1)) by lia; revert Y;
    generalize (y / 4) (y / 100) (y / 400) ((y - 1) / 4) ((y - 1) / 100) ((y - 1) / 400); intros a b c a' b' c';
    unfold RTC.month_start; RTC.months mon; try (exfalso; lia);
    (match goal with |- context [Z.quot ?k 5] => evaluate (Z.quot k 5) end);
    (match goal with |- context [aget ?l ?m] => evaluate (aget l m) end);
    destruct (RTC.leap y); cbn [andb Z.ltb Z.compare Pos.compare Pos.compare_cont]; intros Y; lia.
Qed.

Lemma mktimegm_days t : RTC.valid t ->
  mktimegm t = s32 (86400 * days_of t) + (RTC.tm_hour t * 3600 + RTC.tm_min t * 60 + RTC.tm_sec t).
Proof.
  intros (V1 & V2 & V3 & V4 & V5 & V6 & V7). destruct t as [sec min hour wday mday mon year].
  unfold mktimegm, days_of, RTC.day_number at 1. RTC.tproj.
  rewrite (swrap_small 32 (3600 * hour + 60 * min + sec)) by lia.
  change (RTC.day_number epoch) with 719162.
  pose proof (days_formula mday mon (year + 1900) V4 ltac:(lia)) as D.
  destruct (if mon + 1 <? 3 then _ else _) as [m y]. rewrite D. lia.
Qed.

(** The last second before the product overflows, 19 January 2038, 23:59:59. *)
Definition last_day : Z := 24855.

(** C39: [mktimegm] counts the seconds of the calendar.  The date the real time
    clock shows [n] seconds after the beginning of 1970, as [rtc_next_second]
    advances it, is converted to [n], up to the end of 19 January 2038; from
    then on, until 2106, the result is 2^32 too small and so lies before
    1970. *)
Theorem mktimegm_counts_seconds n :
  let t := Nat.iter n RTC.rtc_next_second epoch in
  (Z.of_nat n < 86400 * (last_day + 1) -> mktimegm t = Z.of_nat n) /\
  (86400 * (last_day + 1) <= Z.of_nat n < 2 ^ 32 -> mktimegm t = Z.of_nat n - 2 ^ 32).
Proof.
  assert (E : forall k, RTC.valid (Nat.iter k RTC.rtc_next_second epoch) /\
    RTC.seconds (Nat.iter k RTC.rtc_next_second epoch) = RTC.seconds epoch + Z.of_nat k).
  { induction k as [|k [IH1 IH2]]; [split; [by repeat split|done]|].
    change (Nat.iter (S k) RTC.rtc_next_second epoch) with (RTC.rtc_next_second (Nat.iter k RTC.rtc_next_second epoch)).
    destruct (RTC.next_second_spec _ IH1) as (N1 & N2 & _). split; [done|]. rewrite N2. lia. }
  destruct (E n) as [V S]. clear E. cbv zeta. set (t := Nat.iter n _ _) in *. clearbody t.
  rewrite mktimegm_days by done. unfold RTC.seconds in S. fold epoch in S. unfold days_of, last_day.
  change (RTC.day_number epoch) with 719162 in *. change (RTC.tm_hour epoch) with 0 in S.
  change (RTC.tm_min epoch) with 0 in S. change (RTC.tm_sec epoch) with 0 in S.
  destruct V as (V1 & V2 & V3 & _). set (d := RTC.day_number t) in *. clearbody d. split; intros H.
  - rewrite (swrap_small 32) by lia. lia.
  - replace (swrap 32 (86400 * (d - 719162))) with (86400 * (d - 719162) - 2 ^ 32); [lia|].
    unfold swrap. rewrite <- (Z_mod_plus_full _ (-1)), Z.mod_small by lia. lia.
Qed.

(** ** Witnesses *)

Lemma pstrcat_truncates_witness :
  holds [104; 105; 0; 7; 7; 7; 7; 7] 0 [104; 105] /\
  exists buf', pstrcat 5 [97; 98; 99; 0] [104; 105; 0; 7; 7; 7; 7; 7] = Some buf' /\ holds buf' 0 [104; 105; 97; 98].
Proof.
  assert (H : holds [104; 105; 0; 7; 7; 7; 7; 7] 0 [104; 105]) by (split; [by repeat constructor|cbn; repeat split; lia]).
  split; [exact H|].
  destruct (pstrcat_truncates 5 [97; 98; 99; 0] [97; 98; 99] _ [104; 105] H) as [_ (b & E & B & _)].
  - split; [by repeat constructor|by exists []].
  - cbn. lia.
  - exists b. split; [exact E|]. apply B. cbn. lia.
Defined.

Lemma mktimegm_counts_seconds_witness : mktimegm (Nat.iter 100 RTC.rtc_next_second epoch) = 100.
Proof. apply (mktimegm_counts_seconds 100). unfold last_day. lia. Defined.

(** The second after the last one that is converted. *)
Example mktimegm_2038 :
  mktimegm (RTC.mkTm 59 59 23 2 19 0 138) = 2147558399 /\ mktimegm (RTC.mkTm 0 0 0 3 20 0 138) = 2147558400 - 2 ^ 32.
Proof. done. Qed.

End Cutils.
