(* ===== verification/NetChecksum.v ===== *)
(** * Internet checksums (src/qemu/net/checksum.c)

    The checksum of TCP and UDP packets that a network back end computes for
    the guest.  A packet is a list of bytes from the Ethernet header on; an
    access outside of it is [None].  Sums have 32 bits, results 16.  The loop
    that folds the carries takes fuel; [fold_fuel] steps are enough for every
    sum of 32 bits.

    The theorems: a packet whose checksum was computed passes the receiver's
    test, and nothing but the checksum changes; a packet shorter than its IP
    header says is accessed behind its end, since the length argument is not
    used. *)
From S2P Require Import Prelude.

Module NetChecksum.

Definition PROTO_TCP : Z := 6.
Definition PROTO_UDP : Z := 17.

(** Byte [i] of the packet. *)
Definition byte_at (data : list Z) (i : Z) : option Z :=
  if i <? 0 then None else data !! Z.to_nat i.
Definition put_byte (data : list Z) (i b : Z) : option (list Z) :=
  _ ← byte_at data i; Some (<[Z.to_nat i := u8 b]> data).

(** [n] more bytes from index [i] of the part that begins at [buf]. *)
Fixpoint add_loop (n : nat) (data : list Z) (buf i sum : Z) : option Z :=
  match n with
  | O => Some sum
  | S n =>
      b ← byte_at data (buf + i);
      let sum := if truthy (i &. 1) then u32 (sum + b) else u32 (sum + u32 (b <<. 8)) in
      add_loop n data buf (i + 1) sum
  end.

Definition net_checksum_add (len : Z) (data : list Z) (buf : Z) : option Z :=
  add_loop (Z.to_nat len) data buf 0 0.

Definition fold_fuel : nat := 3.

Fixpoint finish_loop (fuel : nat) (sum : Z) : option Z :=
  match fuel with
  | O => None
  | S fuel =>
      if truthy (sum >>. 16) then finish_loop fuel (u32 ((sum &. 0xFFFF) + (sum >>. 16)))
      else Some sum
  end.

Definition net_checksum_finish (sum : Z) : option Z :=
  sum ← finish_loop fold_fuel sum; Some (u16 (~. sum)).

Definition net_checksum_tcpudp (length proto : Z) (data : list Z) (addrs buf : Z) : option Z :=
  payload ← net_checksum_add length data buf;
  addresses ← net_checksum_add 8 data addrs;
  net_checksum_finish (u32 (u32 (payload + addresses) + (proto + length))).

Definition net_checksum_calculate (data : list Z) (length : Z) : option (list Z) :=
  d14 ← byte_at data 14;
  if negb ((d14 &. 0xf0) =? 0x40) then Some data
  else
    let hlen := (d14 &. 0x0f) * 4 in
    d16 ← byte_at data 16;
    d17 ← byte_at data 17;
    let plen := ((d16 <<. 8) |. d17) - hlen in
    proto ← byte_at data 23;
    let finish csum_offset :=
      if plen <? csum_offset + 2 then Some data
      else
        data ← put_byte data (14 + hlen + csum_offset) 0;
        data ← put_byte data (14 + hlen + csum_offset + 1) 0;
        csum ← net_checksum_tcpudp (u16 plen) (u16 proto) data (14 + 12) (14 + hlen);
        data ← put_byte data (14 + hlen + csum_offset) (csum >>. 8);
        put_byte data (14 + hlen + csum_offset + 1) (csum &. 0xff) in
    if proto =? PROTO_TCP then finish 16
    else if proto =? PROTO_UDP then finish 6
    else Some data.

(** ** Sums *)

(** The big-endian words of a sequence of bytes, the last one padded. *)
Fixpoint words (bs : list Z) : list Z :=
  match bs with
  | [] => []
  | [a] => [a * 256]
  | a :: b :: bs => a * 256 + b :: words bs
  end.

Definition word_sum (bs : list Z) : Z := foldr Z.add 0 (words bs).

(** The same, byte by byte from an index that is even or odd. *)
Fixpoint byte_sum (odd : bool) (bs : list Z) : Z :=
  match bs with
  | [] => 0
  | b :: bs => (if odd then b else b * 256) + byte_sum (negb odd) bs
  end.

Lemma byte_sum_words bs : byte_sum false bs = word_sum bs.
Proof.
  enough (H : forall n bs, (length bs <= n)%nat -> byte_sum false bs = word_sum bs) by (apply (H (length bs)); lia).
  clear bs. induction n as [|n IH]; intros [|a [|b bs]] L; cbn in *; try lia. unfold word_sum in *. cbn. rewrite IH by lia. lia.
Qed.

Lemma byte_sum_app bs bs' : byte_sum false (bs ++ bs') = byte_sum false bs + byte_sum (Nat.odd (length bs)) bs'.
Proof.
  enough (H : forall odd, byte_sum odd (bs ++ bs') = byte_sum odd bs + byte_sum (xorb odd (Nat.odd (length bs))) bs')
    by (rewrite H; by destruct (Nat.odd _)).
  induction bs as [|b bs IH]; intros odd; cbn [app byte_sum length]; [by rewrite xorb_false_r|].
  rewrite IH, Nat.odd_succ, <- Nat.negb_odd, <- negb_xorb_l, <- negb_xorb_r. lia.
Qed.

Lemma byte_sum_bounds odd bs : Forall (is_uint 8) bs -> 0 <= byte_sum odd bs <= 65280 * Z.of_nat (length bs).
Proof.
  intros F. revert odd. induction F as [|b bs Hb F IH]; intros odd; cbn [byte_sum length]; [lia|].
  specialize (IH (negb odd)). unfold is_uint in Hb. destruct odd; lia.
Qed.

Lemma byte_at_app bs i b : 0 <= i -> byte_at bs i = Some b -> bs !! Z.to_nat i = Some b.
Proof. intros Hi. unfold byte_at. by rewrite (proj2 (Z.ltb_ge _ _)). Qed.

(** The part of a packet from [buf] on, [n] bytes. *)
Definition part (data : list Z) (buf n : Z) : list Z := take (Z.to_nat n) (drop (Z.to_nat buf) data).

Lemma add_loop_sum n : forall data buf i sum, Forall (is_uint 8) data -> 0 <= buf -> 0 <= i ->
  buf + i + Z.of_nat n <= Z.of_nat (length data) -> 0 <= sum -> sum + 65280 * Z.of_nat n < 2 ^ 32 ->
  add_loop n data buf i sum = Some (sum + byte_sum (Z.odd i) (take n (drop (Z.to_nat (buf + i)) data))).
Proof.
  induction n as [|n IH]; intros data buf i sum F Hb Hi L Hs B; cbn [add_loop].
  { rewrite take_0. cbn. f_equal. lia. }
  destruct (drop (Z.to_nat (buf + i)) data) as [|b rest] eqn:D.
  { apply (f_equal length) in D. rewrite length_drop in D. cbn in D. lia. }
  assert (Hlk : data !! Z.to_nat (buf + i) = Some b).
  { rewrite <- (Nat.add_0_r (Z.to_nat (buf + i))), <- lookup_drop, D. done. }
  assert (D' : drop (Z.to_nat (buf + (i + 1))) data = rest).
  { replace (Z.to_nat (buf + (i + 1))) with (Z.to_nat (buf + i) + 1)%nat by lia. by rewrite <- drop_drop, D. }
  assert (Hbyte : is_uint 8 b) by (by eapply Forall_lookup_1 in Hlk). unfold is_uint in Hbyte.
  unfold byte_at. rewrite (proj2 (Z.ltb_ge _ _)), Hlk by lia. cbn [mbind option_bind].
  change (i &. 1) with (i &. (1 <<. 0)). rewrite truthy_land_bit, Z.bit0_odd by lia. cbn [take byte_sum].
  rewrite <- D', <- Z.negb_even, Z.negb_even. rewrite Z.shiftl_mul_pow2 by lia. change (2 ^ 8) with 256.
  rewrite (wrap_small 32 (b * 256)) by (unfold is_uint; lia).
  assert (O : Z.odd (i + 1) = negb (Z.odd i)) by (rewrite Z.odd_add; by destruct (Z.odd i)).
  destruct (Z.odd i); rewrite wrap_small by (unfold is_uint; lia); rewrite IH by (done || lia); rewrite O; f_equal; cbn [negb]; lia.
Qed.

Lemma checksum_add_sum len data buf : Forall (is_uint 8) data -> 0 <= buf -> 0 <= len < 2 ^ 16 ->
  buf + len <= Z.of_nat (length data) ->
  net_checksum_add len data buf = Some (byte_sum false (part data buf len)).
Proof.
  intros F Hb Hl L. unfold net_checksum_add. rewrite add_loop_sum by (done || lia). by rewrite Z.add_0_r.
Qed.

(** Reading past the end. *)
Lemma add_loop_past n : forall data buf i sum, 0 <= buf -> 0 <= i -> Z.of_nat (length data) < buf + i + Z.of_nat n ->
  add_loop n data buf i sum = None \/ n = 0%nat.
Proof.
  induction n as [|n IH]; intros data buf i sum Hb Hi L; [by right|]. left. cbn [add_loop]. unfold byte_at.
  rewrite (proj2 (Z.ltb_ge _ _)) by lia. destruct (data !! Z.to_nat (buf + i)) as [b|] eqn:E; [|done]. cbn [mbind option_bind].
  apply lookup_lt_Some in E. edestruct IH as [->| ->]; [exact Hb| | |done|]; lia.
Qed.

(** ** Folding the carries *)

Lemma fold_step sum : 0 <= sum < 2 ^ 32 ->
  let sum' := u32 ((sum &. 0xFFFF) + (sum >>. 16)) in
  sum' = sum mod 65536 + sum / 65536 /\ truthy (sum >>. 16) = (65536 <=? sum).
Proof.
  intros H. change 0xFFFF with (Z.ones 16). rewrite Z.land_ones, Z.shiftr_div_pow2 by lia. change (2 ^ 16) with 65536.
  rewrite wrap_small by (unfold is_uint; dlia). split; [done|]. unfold truthy. zcases; cbn [negb]; try done; dlia.
Qed.

(** The folded sum: the same modulo 2^16 - 1, and 0 only for 0. *)
Lemma finish_loop_fold sum : 0 <= sum < 2 ^ 32 ->
  exists r, finish_loop fold_fuel sum = Some r /\ 0 <= r < 65536 /\ (65535 | sum - r) /\ (0 < sum -> 0 < r).
Proof.
  intros H. unfold fold_fuel. cbn [finish_loop].
  destruct (fold_step sum H) as [-> ->]. destruct (Z.leb_spec 65536 sum).
  2: { exists sum. repeat split; try lia. exists 0. lia. }
  set (a := sum mod 65536 + sum / 65536). assert (A : 0 < a < 131072) by (unfold a; dlia).
  assert (Da : sum - a = sum / 65536 * 65535) by (unfold a; dlia).
  destruct (fold_step a ltac:(lia)) as [-> ->]. destruct (Z.leb_spec 65536 a).
  2: { exists a. repeat split; try lia. exists (sum / 65536). lia. }
  set (b := a mod 65536 + a / 65536). assert (B : 0 < b < 65536) by (unfold b; dlia).
  assert (Db : a - b = a / 65536 * 65535) by (unfold b; dlia).
  destruct (fold_step b ltac:(lia)) as [_ ->]. rewrite (proj2 (Z.leb_gt _ _)) by lia.
  exists b. repeat split; try lia. exists (sum / 65536 + a / 65536). lia.
Qed.

Lemma lnot_u16 r : 0 <= r < 65536 -> u16 (~. r) = 65535 - r.
Proof. intros H. unfold wrap. replace (~. r) with (- r - 1) by (unfold Z.lnot; lia). change (2 ^ 16) with 65536. dlia. Qed.

Lemma checksum_finish sum : 0 < sum < 2 ^ 32 ->
  exists c, net_checksum_finish sum = Some c /\ 0 <= c < 65535 /\ (65535 | sum + c).
Proof.
  intros H. destruct (finish_loop_fold sum ltac:(lia)) as (r & E & R & [k D] & P). unfold net_checksum_finish. rewrite E.
  cbn [mbind option_bind]. exists (65535 - r). rewrite lnot_u16 by done. split; [done|]. split; [lia|]. exists (k + 1). lia.
Qed.

(** A sum that is a multiple of 2^16 - 1 has the checksum 0. *)
Lemma checksum_zero sum : 0 < sum < 2 ^ 32 -> (65535 | sum) -> net_checksum_finish sum = Some 0.
Proof.
  intros H D. destruct (checksum_finish sum H) as (c & E & C & D'). rewrite E. f_equal.
  destruct D as [k D], D' as [k' D']. assert (k' = k \/ k' <> k) as [->|] by lia; [lia|]. nia.
Qed.

(** ** Packets *)

(** Two bytes replaced. *)
Definition store (k : nat) (x y : Z) (data : list Z) : list Z := <[S k := y]> (<[k := x]> data).

Lemma length_store k x y data : length (store k x y data) = length data.
Proof. unfold store. by rewrite !length_insert. Qed.

Lemma store_bytes k x y data : Forall (is_uint 8) data -> is_uint 8 x -> is_uint 8 y -> Forall (is_uint 8) (store k x y data).
Proof. intros. unfold store. by repeat apply Forall_insert. Qed.

Lemma store_split (pre rest : list Z) a b x y : store (length pre) x y (pre ++ a :: b :: rest) = pre ++ x :: y :: rest.
Proof.
  unfold store. rewrite <- (Nat.add_0_r (length pre)) at 1 2.
  replace (S (length pre + 0)) with (length pre + 1)%nat by lia. by rewrite !insert_app_r.
Qed.

(** A word at an even place enters the sum as it is. *)
Lemma byte_sum_store o x y l : Nat.odd o = false -> (o + 2 <= length l)%nat ->
  byte_sum false (store o x y (store o 0 0 l)) = byte_sum false (store o 0 0 l) + (x * 256 + y).
Proof.
  intros O L. destruct (drop o l) as [|a [|b rest]] eqn:D; try (apply (f_equal length) in D; rewrite length_drop in D; cbn in D; lia).
  rewrite <- (take_drop o l), D. assert (Lo : length (take o l) = o) by (rewrite length_take; lia).
  revert Lo. generalize (take o l). intros pre <-. rewrite !store_split, !byte_sum_app, O. cbn [byte_sum negb]. lia.
Qed.

Lemma part_store data b n k x y : 0 <= b -> Z.of_nat k + 1 < b + n -> b <= Z.of_nat k ->
  part (store k x y data) b n = store (k - Z.to_nat b) x y (part data b n).
Proof.
  intros Hb H1 H2. unfold part, store. rewrite !drop_insert_ge, !take_insert_lt by lia.
  by replace (S k - Z.to_nat b)%nat with (S (k - Z.to_nat b)) by lia.
Qed.

Lemma part_other data b n k x y : 0 <= b -> 0 <= n -> b + n <= Z.of_nat k -> part (store k x y data) b n = part data b n.
Proof. intros Hb Hn H. unfold part, store. rewrite !drop_insert_ge, !take_insert_ge by lia. done. Qed.

Lemma length_part data b n : 0 <= b -> 0 <= n -> b + n <= Z.of_nat (length data) -> length (part data b n) = Z.to_nat n.
Proof. intros. unfold part. rewrite length_take, length_drop. lia. Qed.

Lemma part_bytes data b n : Forall (is_uint 8) data -> Forall (is_uint 8) (part data b n).
Proof. intros. by apply Forall_take, Forall_drop. Qed.

(** What the checksum covers: the payload, the addresses, protocol and length. *)
Definition covered (data : list Z) (hlen plen proto : Z) : Z :=
  word_sum (part data (14 + hlen) plen) + word_sum (part data 26 8) + proto + plen.

Lemma tcpudp_sum data hlen plen proto : Forall (is_uint 8) data -> 0 <= hlen -> 0 < plen < 2 ^ 16 -> 0 <= proto < 256 ->
  14 + hlen + plen <= Z.of_nat (length data) -> 34 <= Z.of_nat (length data) ->
  net_checksum_tcpudp plen proto data 26 (14 + hlen) = net_checksum_finish (covered data hlen plen proto) /\
  0 < covered data hlen plen proto < 2 ^ 32 - 65536.
Proof.
  intros F Hh Hp Hr L L2. unfold net_checksum_tcpudp, covered. rewrite !checksum_add_sum by (done || lia).
  cbn [mbind option_bind]. rewrite !byte_sum_words.
  pose proof (byte_sum_bounds false _ (part_bytes data (14 + hlen) plen F)) as B1.
  pose proof (byte_sum_bounds false _ (part_bytes data 26 8 F)) as B2. rewrite !byte_sum_words, length_part in B1, B2 by lia.
  rewrite (wrap_small 32 (word_sum _ + _)) by (unfold is_uint; lia). rewrite wrap_small by (unfold is_uint; lia).
  split; [f_equal; lia|lia].
Qed.

(** An IPv4 packet in an Ethernet frame: [hlen] and [plen] are the lengths of
    the IP header and of what follows it, [off] is the place of the checksum. *)
Record ip_packet (data : list Z) (hlen plen proto off : Z) : Prop := {
  pk_bytes : Forall (is_uint 8) data;
  pk_ihl : exists ihl, 5 <= ihl <= 15 /\ hlen = ihl * 4 /\ data !! 14%nat = Some (64 + ihl);
  pk_total : exists h l, data !! 16%nat = Some h /\ data !! 17%nat = Some l /\ h * 256 + l = hlen + plen;
  pk_proto : data !! 23%nat = Some proto /\ (proto = 6 /\ off = 16 \/ proto = 17 /\ off = 6);
  pk_room : off + 2 <= plen
}.

(** The function on such a packet. *)
Lemma calculate_packet data n hlen plen proto off : ip_packet data hlen plen proto off ->
  net_checksum_calculate data n =
  (data ← put_byte data (14 + hlen + off) 0;
   data ← put_byte data (14 + hlen + off + 1) 0;
   csum ← net_checksum_tcpudp plen proto data 26 (14 + hlen);
   data ← put_byte data (14 + hlen + off) (csum >>. 8);
   put_byte data (14 + hlen + off + 1) (csum &. 0xff)).
Proof.
  intros [F (ihl & Hi & -> & E14) (h & l & E16 & E17 & T) (E23 & P) R].
  pose proof (Forall_lookup_1 _ _ _ _ F E16) as Hh. pose proof (Forall_lookup_1 _ _ _ _ F E17) as Hl.
  unfold is_uint in Hh, Hl. unfold net_checksum_calculate. unfold byte_at at 1 2 3 4.
  change (Z.to_nat 14) with 14%nat. change (Z.to_nat 16) with 16%nat. change (Z.to_nat 17) with 17%nat. change (Z.to_nat 23) with 23%nat.
  cbn [Z.ltb Z.compare]. rewrite E14, E16, E17, E23. cbn [mbind option_bind].
  assert (N : ((64 + ihl) &. 0xf0) = 0x40 /\ ((64 + ihl) &. 0x0f) = ihl).
  { assert (C : In ihl [5; 6; 7; 8; 9; 10; 11; 12; 13; 14; 15]) by (cbn; lia). cbn in C. repeat destruct C as [<-|C]; done. }
  destruct N as [-> ->]. cbn [negb Z.eqb Pos.eqb]. rewrite (shiftl_lor_add 8) by (unfold is_uint; lia). change (2 ^ 8) with 256.
  replace (h * 256 + l - ihl * 4) with plen by lia. rewrite !(wrap_small 16) by (unfold is_uint; lia).
  destruct P as [[-> ->]|[-> ->]]; cbn [Z.eqb Pos.eqb PROTO_TCP PROTO_UDP]; rewrite (proj2 (Z.ltb_ge _ _)) by lia; done.
Qed.

Lemma put_store data k x y : 0 <= k -> k + 1 < Z.of_nat (length data) -> is_uint 8 x -> is_uint 8 y ->
  exists d, put_byte data k x = Some d /\ put_byte d (k + 1) y = Some (store (Z.to_nat k) x y data).
Proof.
  intros Hk L Hx Hy. unfold put_byte, byte_at. rewrite !(proj2 (Z.ltb_ge _ _)) by lia.
  destruct (lookup_lt_is_Some_2 data (Z.to_nat k)) as [a ->]; [lia|]. cbn [mbind option_bind]. eexists. split; [reflexivity|].
  destruct (lookup_lt_is_Some_2 (<[Z.to_nat k:=u8 x]> data) (Z.to_nat (k + 1))) as [b ->]; [rewrite length_insert; lia|].
  cbn [mbind option_bind]. rewrite !wrap_small by done. unfold store. do 2 f_equal. lia.
Qed.

Lemma store_twice k x y data : store k x y (store k 0 0 data) = store k x y data.
Proof.
  unfold store. rewrite (list_insert_insert_ne _ k (S k)) by lia. by rewrite !list_insert_insert_eq.
Qed.

(** The words of a checksum of 16 bits. *)
Lemma checksum_bytes c : 0 <= c < 65536 -> is_uint 8 (c >>. 8) /\ is_uint 8 (c &. 0xff) /\ (c >>. 8) * 256 + (c &. 0xff) = c.
Proof.
  intros H. change 0xff with (Z.ones 8). rewrite Z.land_ones, Z.shiftr_div_pow2 by lia. change (2 ^ 8) with 256.
  unfold is_uint. dlia.
Qed.

(** Storing the checksum adds it to what is covered. *)
Lemma covered_store data hlen plen proto off x y : 20 <= hlen -> hlen mod 4 = 0 -> off = 6 \/ off = 16 ->
  off + 2 <= plen -> 14 + hlen + plen <= Z.of_nat (length data) ->
  let k := Z.to_nat (14 + hlen + off) in
  covered (store k x y (store k 0 0 data)) hlen plen proto = covered (store k 0 0 data) hlen plen proto + (x * 256 + y).
Proof.
  intros Hh Hm Ho Hp L k. unfold covered. rewrite !(part_other _ 26 8) by (unfold k; lia).
  rewrite !part_store by (unfold k; lia). rewrite <- !byte_sum_words.
  replace (k - Z.to_nat (14 + hlen))%nat with (Z.to_nat off) by (unfold k; lia).
  rewrite byte_sum_store; [lia|destruct Ho as [->| ->]; done|]. rewrite length_part; lia.
Qed.

(** C31: a packet whose checksum was computed is accepted.  For a TCP or UDP
    packet over IPv4 that lies in the buffer, the function succeeds, whatever
    its length argument, and changes only the two bytes of the checksum; the
    words the checksum covers then add up to a multiple of 2^16 - 1, and the
    checksum that the receiver computes over them is 0. *)
Theorem net_checksum_accepted data n hlen plen proto off :
  ip_packet data hlen plen proto off -> 14 + hlen + plen <= Z.of_nat (length data) ->
  exists x y, is_uint 8 x /\ is_uint 8 y /\
    let data' := store (Z.to_nat (14 + hlen + off)) x y data in
    net_checksum_calculate data n = Some data' /\
    (65535 | covered data' hlen plen proto) /\
    net_checksum_tcpudp plen proto data' 26 (14 + hlen) = Some 0.
Proof.
  intros P L. rewrite (calculate_packet _ _ _ _ _ _ P). destruct P as [F (ihl & Hi & Hh & _) (h & l & E16 & E17 & T) (_ & P) R].
  pose proof (Forall_lookup_1 _ _ _ _ F E16) as Bh. pose proof (Forall_lookup_1 _ _ _ _ F E17) as Bl. unfold is_uint in Bh, Bl.
  assert (Z0 : is_uint 8 0) by (unfold is_uint; lia).
  destruct (put_store data (14 + hlen + off) 0 0) as (d & -> & E); [lia|lia|done|done|]. cbn [mbind option_bind].
  rewrite E. cbn [mbind option_bind]. clear E d. set (k := Z.to_nat (14 + hlen + off)).
  assert (Fz : Forall (is_uint 8) (store k 0 0 data)) by (by apply store_bytes).
  destruct (tcpudp_sum (store k 0 0 data) hlen plen proto Fz) as [-> C]; try lia; try (rewrite length_store; lia).
  destruct (checksum_finish _ ltac:(split; [apply C|lia])) as (c & -> & Hc & D). cbn [mbind option_bind].
  destruct (checksum_bytes c ltac:(lia)) as (Hx & Hy & Ec).
  destruct (put_store (store k 0 0 data) (14 + hlen + off) (c >>. 8) (c &. 0xff)) as (d & -> & E);
    [lia|rewrite length_store; lia|done|done|]. cbn [mbind option_bind].
  fold k in E. rewrite E. rewrite store_twice. exists (c >>. 8), (c &. 0xff). split; [done|]. split; [done|]. cbv zeta.
  assert (Cd : covered (store k (c >>. 8) (c &. 0xff) data) hlen plen proto = covered (store k 0 0 data) hlen plen proto + c).
  { rewrite <- (store_twice k (c >>. 8)). unfold k. rewrite covered_store; [by rewrite Ec|lia|rewrite Hh; apply Z_mod_mult|lia|lia|lia]. }
  split; [done|]. fold k. rewrite Cd. split; [done|].
  destruct (tcpudp_sum (store k (c >>. 8) (c &. 0xff) data) hlen plen proto) as [-> _];
    [by apply store_bytes|lia|lia|lia|rewrite length_store; lia|rewrite length_store; lia|].
  rewrite Cd. apply checksum_zero; [lia|done].
Qed.

Lemma length_put_byte data k x d : put_byte data k x = Some d -> length d = length data.
Proof. unfold put_byte. destruct (byte_at data k); cbn; [|done]. intros [= <-]. apply length_insert. Qed.

(** C40: the length of the frame is not checked.  A TCP or UDP packet over
    IPv4 that says it is longer than the buffer is makes the function access
    memory behind the buffer, whatever length it is told. *)
Theorem net_checksum_overrun data n hlen plen proto off :
  ip_packet data hlen plen proto off -> Z.of_nat (length data) < 14 + hlen + plen ->
  net_checksum_calculate data n = None.
Proof.
  intros P L. rewrite (calculate_packet _ _ _ _ _ _ P). destruct P as [_ (ihl & Hi & Hh & _) _ (_ & P) R].
  destruct (put_byte data (14 + hlen + off) 0) as [d|] eqn:E1; [|done]. cbn [mbind option_bind].
  destruct (put_byte d (14 + hlen + off + 1) 0) as [d'|] eqn:E2; [|done]. cbn [mbind option_bind].
  apply length_put_byte in E1, E2. unfold net_checksum_tcpudp, net_checksum_add.
  destruct (add_loop_past (Z.to_nat plen) d' (14 + hlen) 0 0) as [->|]; [lia|lia|rewrite E2, E1; lia|done|lia].
Qed.

(** ** Witnesses *)

(** A UDP packet with one byte of data, and the same frame cut off. *)
Definition demo_packet : list Z :=
  replicate 14 0 ++ [69; 0; 0; 29; 0; 0; 0; 0; 64; 17; 0; 0; 10; 0; 0; 1; 10; 0; 0; 2] ++ [0; 67; 0; 68; 0; 9; 1; 2; 77].

Lemma demo_ip n : (24 <= n)%nat -> ip_packet (take n demo_packet) 20 9 17 6.
Proof.
  intros H. constructor; [| | | |lia].
  - apply Forall_take. unfold is_uint. repeat constructor; cbn; lia.
  - exists 5. by rewrite lookup_take_lt by lia.
  - exists 0, 29. rewrite !lookup_take_lt by lia. done.
  - rewrite lookup_take_lt by lia. split; [done|by right].
Qed.

Lemma net_checksum_accepted_witness : exists x y,
  net_checksum_calculate demo_packet 43 = Some (store 40 x y demo_packet) /\
  net_checksum_tcpudp 9 17 (store 40 x y demo_packet) 26 34 = Some 0 /\ x * 256 + y = 0x9e52.
Proof.
  destruct (net_checksum_accepted demo_packet 43 20 9 17 6) as (x & y & _ & _ & E & _ & A);
    [apply (demo_ip 43); lia|cbn; lia|].
  exists x, y. split; [exact E|]. split; [exact A|].
  vm_compute in E. injection E as <- <-. done.
Defined.

Lemma net_checksum_overrun_witness : net_checksum_calculate (take 42 demo_packet) 42 = None.
Proof. apply (net_checksum_overrun _ 42 20 9 17 6); [apply (demo_ip 42); lia|cbn; lia]. Defined.

End NetChecksum.
