(* ===== verification/NetQueue.v ===== *)
(** * Packet queues of the network layer (src/qemu/net/queue.c)

    A queue hands packets to a delivery handler; a packet that the handler
    refuses waits in the queue until it is flushed.  Handlers and the callbacks
    of senders call back into the queue: replies are sent while a packet is
    delivered, and a callback sends the next packet.  A handler is a program
    ([Prog]) that reads and writes the state of its surroundings ([world]) and
    makes requests of the queue, whose results it sees; [interp] runs it, and
    the requests it makes run the same functions again, with less fuel.

    [log] records what was requested, queued, delivered and purged, oldest
    first.  The theorem: the packets of a sender are delivered in the order in
    which they were sent, each once, but for those purged while they waited; and
    the queue comes to rest whenever the requests that handlers make are
    bounded.  Its conditions ([proper], [disciplined]) are those under which the
    code keeps the order; they are not the rules that the comment at the head of
    queue.c gives, which the code does not follow: the comment has a refused
    packet without a callback dropped, and the code queues it like any other. *)
From S2P Require Import Prelude.
From stdpp Require Import list.
#[local] Open Scope Z_scope.
#[local] Open Scope c_scope.

Module NetQueue.

(** A packet with its sender; [sent_cb] names a callback. *)
Record Frame := mkFrame { sender : Z; flags : Z; data : list Z }.
Record NetPacket := mkPacket { frame : Frame; sent_cb : option Z }.

(** What a handler may call. A vector is the list of its pieces. *)
Inductive Request :=
| Send (p : NetPacket)
| SendIov (from fl : Z) (iov : list (list Z)) (cb : option Z)
| Flush
| Purge (from : Z).

Inductive Event :=
| Requested (f : Frame) (busy : bool) (waiting : list NetPacket)
| Queued (f : Frame) (busy : bool) (waiting : list NetPacket)
| Delivered (f : Frame) (ret : Z)
| Flushed (busy : bool)
| Purged (from : Z) (dropped : list NetPacket).

Section Queue.
Context {W : Type}.

Inductive Prog (A : Type) : Type :=
| Ret (a : A)
| Call (r : Request) (k : Z -> Prog A)
| Read (k : W -> Prog A)
| Write (w : W) (k : Prog A).
#[global] Arguments Ret {A} a.
#[global] Arguments Call {A} r k.
#[global] Arguments Read {A} k.
#[global] Arguments Write {A} w k.

Record NetQueue := mkQueue {
  packets : list NetPacket;
  delivering : bool;
  world : W;
  log : list Event
}.

Definition set_packets (v : list NetPacket) (q : NetQueue) : NetQueue :=
  mkQueue v (delivering q) (world q) (log q).
Definition set_delivering (v : bool) (q : NetQueue) : NetQueue :=
  mkQueue (packets q) v (world q) (log q).
Definition set_world (v : W) (q : NetQueue) : NetQueue :=
  mkQueue (packets q) (delivering q) v (log q).
Definition add_event (e : Event) (q : NetQueue) : NetQueue :=
  mkQueue (packets q) (delivering q) (world q) (log q ++ [e]).

(** [queue->deliver], [queue->deliver_iov] and the callbacks. *)
Variable deliver : Frame -> Prog Z.
Variable deliver_iov : Z -> Z -> list (list Z) -> Prog Z.
Variable sent : Z -> Z -> Z -> Prog unit.

Definition qemu_new_net_queue (w : W) : NetQueue := mkQueue [] false w [].

Section Handlers.
Variable exec : Request -> NetQueue -> option (Z * NetQueue).

Fixpoint interp {A} (p : Prog A) (q : NetQueue) : option (A * NetQueue) :=
  match p with
  | Ret a => Some (a, q)
  | Call r k => '(z, q) ← exec r q; interp (k z) q
  | Read k => interp (k (world q)) q
  | Write w k => interp k (set_world w q)
  end.

Definition qemu_net_queue_append (p : NetPacket) (q : NetQueue) : Z * NetQueue :=
  let q := add_event (Queued (frame p) (delivering q) (packets q)) q in
  (Z.of_nat (length (data (frame p))), set_packets (packets q ++ [p]) q).

Fixpoint copy_pieces (iov : list (list Z)) (buf : list Z) : list Z :=
  match iov with
  | [] => buf
  | piece :: iov => copy_pieces iov (buf ++ piece)
  end.

Definition qemu_net_queue_append_iov (from fl : Z) (iov : list (list Z)) (cb : option Z) (q : NetQueue)
    : Z * NetQueue :=
  qemu_net_queue_append (mkPacket (mkFrame from fl (copy_pieces iov [])) cb) q.

Definition qemu_net_queue_deliver (f : Frame) (q : NetQueue) : option (Z * NetQueue) :=
  let q := set_delivering true q in
  '(ret, q) ← interp (deliver f) q;
  Some (ret, add_event (Delivered f ret) (set_delivering false q)).

Definition qemu_net_queue_deliver_iov (from fl : Z) (iov : list (list Z)) (q : NetQueue)
    : option (Z * NetQueue) :=
  let q := set_delivering true q in
  '(ret, q) ← interp (deliver_iov from fl iov) q;
  Some (ret, add_event (Delivered (mkFrame from fl (concat iov)) ret) (set_delivering false q)).

Definition call_sent (p : NetPacket) (ret : Z) (q : NetQueue) : option NetQueue :=
  match sent_cb p with
  | None => Some q
  | Some cb => '(_, q) ← interp (sent cb (sender (frame p)) ret) q; Some q
  end.

Fixpoint flush_loop (fuel : nat) (q : NetQueue) : option NetQueue :=
  match fuel with
  | O => None
  | S fuel =>
      match packets q with
      | [] => Some q
      | p :: rest =>
          '(ret, q) ← qemu_net_queue_deliver (frame p) (set_packets rest q);
          let ret := s32 ret in
          if ret =? 0 then Some (set_packets (p :: packets q) q)
          else
            q ← call_sent p ret q;
            flush_loop fuel q
      end
  end.

Definition qemu_net_queue_flush (fuel : nat) (q : NetQueue) : option NetQueue :=
  flush_loop fuel (add_event (Flushed (delivering q)) q).

Definition qemu_net_queue_send (fuel : nat) (p : NetPacket) (q : NetQueue) : option (Z * NetQueue) :=
  let q := add_event (Requested (frame p) (delivering q) (packets q)) q in
  if delivering q then Some (qemu_net_queue_append (mkPacket (frame p) None) q)
  else
    '(ret, q) ← qemu_net_queue_deliver (frame p) q;
    if ret =? 0 then Some (0, (qemu_net_queue_append p q).2)
    else
      q ← qemu_net_queue_flush fuel q;
      Some (ret, q).

Definition qemu_net_queue_send_iov (fuel : nat) (from fl : Z) (iov : list (list Z)) (cb : option Z)
    (q : NetQueue) : option (Z * NetQueue) :=
  let q := add_event (Requested (mkFrame from fl (concat iov)) (delivering q) (packets q)) q in
  if delivering q then Some (qemu_net_queue_append_iov from fl iov None q)
  else
    '(ret, q) ← qemu_net_queue_deliver_iov from fl iov q;
    if ret =? 0 then Some (0, (qemu_net_queue_append_iov from fl iov cb q).2)
    else
      q ← qemu_net_queue_flush fuel q;
      Some (ret, q).

Definition qemu_net_queue_purge (from : Z) (q : NetQueue) : NetQueue :=
  let dropped := filter (fun p => sender (frame p) = from) (packets q) in
  set_packets (filter (fun p => sender (frame p) <> from) (packets q)) (add_event (Purged from dropped) q).

End Handlers.

Fixpoint exec (fuel : nat) (r : Request) (q : NetQueue) : option (Z * NetQueue) :=
  match fuel with
  | O => None
  | S fuel =>
      match r with
      | Send p => qemu_net_queue_send (exec fuel) fuel p q
      | SendIov from fl iov cb => qemu_net_queue_send_iov (exec fuel) fuel from fl iov cb q
      | Flush => q ← qemu_net_queue_flush (exec fuel) fuel q; Some (0, q)
      | Purge from => Some (0, qemu_net_queue_purge from q)
      end
  end.

(** ** Both ways to send are one *)

Lemma copy_pieces_concat iov : forall buf, copy_pieces iov buf = buf ++ concat iov.
Proof. induction iov as [|x iov IH]; intros buf; cbn; [by rewrite app_nil_r|]. by rewrite IH, app_assoc. Qed.

(** Sending a frame that the program [prog] delivers. *)
Definition run_delivery ex (f : Frame) (prog : Prog Z) (q : NetQueue) : option (Z * NetQueue) :=
  '(ret, q) ← interp ex prog (set_delivering true q);
  Some (ret, add_event (Delivered f ret) (set_delivering false q)).

Definition send_frame ex (fuel : nat) (f : Frame) (prog : Prog Z) (cb : option Z) (q : NetQueue)
    : option (Z * NetQueue) :=
  let q := add_event (Requested f (delivering q) (packets q)) q in
  if delivering q then Some (qemu_net_queue_append (mkPacket f None) q)
  else
    '(ret, q) ← run_delivery ex f prog q;
    if ret =? 0 then Some (0, (qemu_net_queue_append (mkPacket f cb) q).2)
    else
      q ← qemu_net_queue_flush ex fuel q;
      Some (ret, q).

Lemma send_iov_frame ex fuel from fl iov cb q : qemu_net_queue_send_iov ex fuel from fl iov cb q =
  send_frame ex fuel (mkFrame from fl (concat iov)) (deliver_iov from fl iov) cb q.
Proof.
  unfold qemu_net_queue_send_iov, send_frame, qemu_net_queue_append_iov, qemu_net_queue_deliver_iov, run_delivery.
  by rewrite copy_pieces_concat.
Qed.

Lemma send_frame_eq ex fuel p q :
  qemu_net_queue_send ex fuel p q = send_frame ex fuel (frame p) (deliver (frame p)) (sent_cb p) q.
Proof. by destruct p. Qed.

(** The log only grows. *)
Definition extends (q q' : NetQueue) : Prop := log q `prefix_of` log q'.

#[local] Instance extends_preorder : PreOrder extends.
Proof. split; [intros q; exists []; by rewrite app_nil_r|]. intros a b c. unfold extends. apply transitivity. Qed.

Lemma extends_event e q : extends q (add_event e q).
Proof. by exists [e]. Qed.

(** Takes apart a computation that returned. *)
Ltac returned :=
  repeat match goal with
  | H : (_ ≫= _) = Some _ |- _ => apply bind_Some in H as (? & ? & H)
  | H : Some _ = Some _ |- _ => injection H as H
  | H : (_, _) = (_, _) |- _ => injection H as ? ?
  | x : (_ * _)%type |- _ => destruct x
  end; subst.

Section Extends.
Variable ex : Request -> NetQueue -> option (Z * NetQueue).
Hypothesis ex_extends : forall r q z q', ex r q = Some (z, q') -> extends q q'.

Lemma interp_extends {A} (p : Prog A) : forall q a q', interp ex p q = Some (a, q') -> extends q q'.
Proof.
  induction p as [a|r k IH|k IH|w k IH]; intros q b q' H; cbn [interp] in H.
  - returned. reflexivity.
  - returned. transitivity n; [by eapply ex_extends|by eapply IH].
  - by eapply IH.
  - apply (IH _ _ _ H).
Qed.

Lemma delivery_extends f prog q ret q' : run_delivery ex f prog q = Some (ret, q') -> extends q q'.
Proof.
  unfold run_delivery. intros H. returned. apply interp_extends in H0. transitivity n; [exact H0|]. by exists [Delivered f ret].
Qed.

Lemma call_sent_extends p ret q q' : call_sent ex p ret q = Some q' -> extends q q'.
Proof.
  unfold call_sent. intros H. destruct (sent_cb p) as [cb|]; returned; [|reflexivity]. by eapply interp_extends.
Qed.

Lemma flush_loop_extends fuel : forall q q', flush_loop ex fuel q = Some q' -> extends q q'.
Proof.
  induction fuel as [|fuel IH]; intros q q' H; cbn [flush_loop] in H; [done|].
  destruct (packets q) as [|p rest]; [returned; reflexivity|]. returned.
  apply delivery_extends in H0. transitivity n; [exact H0|]. destruct (s32 z =? 0); [returned; by exists []; rewrite app_nil_r|].
  returned. transitivity x; [by eapply call_sent_extends|by apply IH].
Qed.

Lemma flush_extends fuel q q' : qemu_net_queue_flush ex fuel q = Some q' -> extends (add_event (Flushed (delivering q)) q) q'.
Proof. apply flush_loop_extends. Qed.

Lemma send_extends fuel f prog cb q z q' : send_frame ex fuel f prog cb q = Some (z, q') ->
  extends (add_event (Requested f (delivering q) (packets q)) q) q'.
Proof.
  unfold send_frame. intros H. destruct (delivering (add_event _ q)).
  - returned. eexists. reflexivity.
  - returned. apply delivery_extends in H0. etransitivity; [exact H0|]. destruct (z0 =? 0).
    + returned. eexists. reflexivity.
    + returned. apply flush_extends in H1. etransitivity; [apply extends_event|exact H1].
Qed.

End Extends.

Lemma exec_extends fuel : forall r q z q', exec fuel r q = Some (z, q') -> extends q q'.
Proof.
  induction fuel as [|fuel IH]; intros [p|from fl iov cb| |from] q z q' H; cbn [exec] in H; try done.
  - rewrite send_frame_eq in H. apply send_extends in H; [|done]. etransitivity; [apply extends_event|exact H].
  - rewrite send_iov_frame in H. apply send_extends in H; [|done]. etransitivity; [apply extends_event|exact H].
  - returned. apply flush_extends in H0; [|done]. etransitivity; [apply extends_event|exact H0].
  - returned. eexists. reflexivity.
Qed.

(** ** Order *)

Definition from (x : Z) (fs : list Frame) : list Frame := filter (fun f => sender f = x) fs.

(** The frames of [x] that were sent, less those that were purged while they
    waited, which are the last ones sent; and the frames that were accepted. *)
Definition keep (x : Z) (fs : list Frame) (e : Event) : list Frame :=
  match e with
  | Requested f _ _ => fs ++ from x [f]
  | Purged y dropped => if y =? x then take (length fs - length dropped) fs else fs
  | _ => fs
  end.
Definition unpurged (x : Z) (l : list Event) : list Frame := foldl (keep x) [] l.
Definition accepted (l : list Event) : list Frame :=
  omap (fun e => match e with Delivered f ret => if ret =? 0 then None else Some f | _ => None end) l.
Definition waiting_frames (q : NetQueue) : list Frame := map frame (packets q).

(** Nothing of [x] is in a queue. *)
Definition none_of (x : Z) (ps : list NetPacket) : Prop := from x (map frame ps) = [].

(** Under what conditions the queue keeps the order.  Outside of a delivery a
    sender sends only when none of its packets waits; while a packet is
    delivered for the first time and refused, no other packet of its sender has
    been queued; the queue is flushed outside of deliveries only; and the result
    of the handler fits an [int], to which [qemu_net_queue_flush] converts it. *)
Definition proper (e : Event) : Prop :=
  match e with
  | Requested f busy waiting | Queued f busy waiting => busy = true \/ none_of (sender f) waiting
  | Delivered _ ret => s32 ret = ret
  | Flushed busy => busy = false
  | Purged _ _ => True
  end.
Definition disciplined (q : NetQueue) : Prop := Forall proper (log q).

(** The frames of every sender: accepted, then [mid], then waiting. *)
Definition in_line (mid : list Frame) (q : NetQueue) : Prop :=
  forall x, unpurged x (log q) = from x (accepted (log q)) ++ from x mid ++ from x (waiting_frames q).

Lemma from_app x a b : from x (a ++ b) = from x a ++ from x b.
Proof. apply filter_app. Qed.

Lemma from_cons x f l : from x (f :: l) = from x [f] ++ from x l.
Proof. apply (from_app x [f]). Qed.

Lemma unpurged_event x l e : unpurged x (l ++ [e]) = keep x (unpurged x l) e.
Proof. unfold unpurged. by rewrite foldl_app. Qed.

Lemma accepted_app a b : accepted (a ++ b) = accepted a ++ accepted b.
Proof. unfold accepted. by rewrite omap_app. Qed.

Lemma disciplined_extends q q' : extends q q' -> disciplined q' -> disciplined q.
Proof. intros [l E] H. unfold disciplined in *. rewrite E in H. by apply Forall_app in H as [H _]. Qed.

Lemma disciplined_event e q q' : extends (add_event e q) q' -> disciplined q' -> proper e.
Proof.
  intros X H. apply (disciplined_extends _ _ X) in H. unfold disciplined in H. cbn in H. apply Forall_app in H as [_ H].
  by apply Forall_cons in H as [H _].
Qed.

(** A request made while a packet is delivered is put in the queue. *)
Lemma send_busy ex fuel f prog cb q z q' mid : delivering q = true -> send_frame ex fuel f prog cb q = Some (z, q') ->
  in_line mid q -> in_line mid q' /\ delivering q' = true.
Proof.
  intros D H I. unfold send_frame in H. change (delivering (add_event _ q)) with (delivering q) in H. rewrite D in H.
  returned. split; [|exact D]. intros x. cbn [log add_event set_packets].
  rewrite !unpurged_event, !accepted_app, !from_app. cbn [keep accepted omap list_omap from]. rewrite !app_nil_r, (I x).
  unfold waiting_frames. cbn [packets set_packets add_event]. rewrite map_app, from_app, <- !app_assoc. done.
Qed.

Lemma from_frames x ps : from x (map frame ps) = map frame (filter (fun p => sender (frame p) = x) ps).
Proof.
  unfold from. induction ps as [|p ps IH]; [done|]. cbn [map]. rewrite !filter_cons, IH. by case_decide.
Qed.

Lemma from_purged x y ps :
  from x (map frame (filter (fun p => sender (frame p) <> y) ps)) = if y =? x then [] else from x (map frame ps).
Proof.
  rewrite !from_frames, list_filter_filter. destruct (Z.eqb_spec y x) as [->|Ne].
  - assert (E : filter (fun p => sender (frame p) = x /\ sender (frame p) <> x) ps = []); [|by rewrite E].
    induction ps as [|p ps IH]; [done|]. by rewrite filter_cons_False by tauto.
  - f_equal. induction ps as [|p ps IH]; [done|]. rewrite !filter_cons, IH. repeat case_decide; done || (exfalso; intuition congruence).
Qed.

(** A purge takes the packets of a sender out of the line, at any time. *)
Lemma purge_in_line y q mid : in_line mid q -> in_line mid (qemu_net_queue_purge y q).
Proof.
  intros I x. unfold qemu_net_queue_purge. cbn [log set_packets add_event packets].
  rewrite unpurged_event, accepted_app, (I x). unfold waiting_frames. cbn [packets set_packets]. rewrite from_purged.
  cbn [keep accepted omap list_omap]. rewrite app_nil_r.
  destruct (Z.eqb_spec y x) as [->|Ne]; [|done]. rewrite app_nil_r, from_frames, app_assoc, length_app, length_map.
  rewrite Nat.add_sub. by rewrite take_app_length.
Qed.

Lemma exec_busy fuel r q z q' mid : delivering q = true -> exec fuel r q = Some (z, q') -> disciplined q' ->
  in_line mid q -> in_line mid q' /\ delivering q' = true.
Proof.
  intros D H R I. destruct fuel as [|fuel]; [done|]. cbn [exec] in H. destruct r as [p|fr fl iov cb| |fr].
  - rewrite send_frame_eq in H. by eapply send_busy.
  - rewrite send_iov_frame in H. by eapply send_busy.
  - returned. apply (flush_extends (exec fuel)) in H0; [|apply exec_extends].
    apply (disciplined_event _ _ _ H0) in R. cbn in R. congruence.
  - returned. split; [by apply purge_in_line|done].
Qed.

Lemma interp_busy fuel {A} (p : Prog A) mid : forall q a q', delivering q = true -> interp (exec fuel) p q = Some (a, q') ->
  disciplined q' -> in_line mid q -> in_line mid q' /\ delivering q' = true.
Proof.
  induction p as [a|r k IH|k IH|w k IH]; intros q b q' D H R I; cbn [interp] in H.
  - returned. done.
  - returned. destruct (exec_busy fuel r q z n mid D H0) as [I' D']; [|done|by eapply IH].
    eapply disciplined_extends; [|exact R]. eapply interp_extends; [|exact H]. apply exec_extends.
  - by eapply IH.
  - exact (IH (set_world w q) _ _ D H R I).
Qed.

(** A delivery, accepted or refused. *)
Lemma delivery_in_line fuel f prog q ret q' : run_delivery (exec fuel) f prog q = Some (ret, q') -> disciplined q' ->
  in_line [f] q -> delivering q' = false /\ in_line (if ret =? 0 then [f] else []) q'.
Proof.
  unfold run_delivery. intros H R I. returned. apply interp_busy with (mid := [f]) in H0 as [I' D].
  - split; [done|]. intros x. cbn [log add_event set_delivering]. rewrite unpurged_event, accepted_app, !from_app, (I' x).
    unfold waiting_frames. cbn [packets add_event set_delivering keep accepted omap list_omap].
    destruct (ret =? 0); cbn [app]; unfold from at 3 4; rewrite ?filter_nil, ?app_nil_r, <- ?app_assoc; done.
  - done.
  - eapply disciplined_extends; [|exact R]. by exists [Delivered f ret].
  - exact I.
Qed.

Lemma delivery_result ex f prog q ret q' : run_delivery ex f prog q = Some (ret, q') -> disciplined q' -> s32 ret = ret.
Proof.
  unfold run_delivery. intros H R. returned. apply (disciplined_event (Delivered f ret) (set_delivering false n) _) in R; [done|reflexivity].
Qed.

Lemma from_other x f : sender f <> x -> from x [f] = [].
Proof. intros H. unfold from. by rewrite filter_cons_False, filter_nil. Qed.

(** A frame at the end of the line, when nothing of its sender waits. *)
Lemma none_in_line f ps x : none_of (sender f) ps -> from x (map frame ps) ++ from x [f] = from x [f] ++ from x (map frame ps).
Proof.
  intros N. destruct (decide (sender f = x)) as [<-|Ne].
  - by rewrite N, app_nil_r.
  - by rewrite from_other, app_nil_r.
Qed.

Lemma in_line_event e mid q : (forall x fs, keep x fs e = fs) -> accepted [e] = [] -> in_line mid q -> in_line mid (add_event e q).
Proof.
  intros Kp Ac I x. cbn [log add_event]. by rewrite unpurged_event, Kp, accepted_app, Ac, !app_nil_r, (I x).
Qed.

(** Outside of deliveries. *)
Definition idle_in_line (q : NetQueue) : Prop := delivering q = false /\ in_line [] q.

Section Idle.
Variable fuel : nat.
Hypothesis exec_idle : forall r q z q', exec fuel r q = Some (z, q') -> disciplined q' -> idle_in_line q -> idle_in_line q'.

Lemma interp_idle {A} (p : Prog A) : forall q a q', interp (exec fuel) p q = Some (a, q') ->
  disciplined q' -> idle_in_line q -> idle_in_line q'.
Proof.
  induction p as [a|r k IH|k IH|w k IH]; intros q b q' H R I; cbn [interp] in H.
  - by returned.
  - returned. eapply IH; [exact H|exact R|]. eapply exec_idle; [exact H0| |exact I].
    eapply disciplined_extends; [|exact R]. eapply interp_extends; [|exact H]. apply exec_extends.
  - by eapply IH.
  - exact (IH (set_world w q) _ _ H R I).
Qed.

Lemma call_sent_idle p ret q q' : call_sent (exec fuel) p ret q = Some q' -> disciplined q' -> idle_in_line q -> idle_in_line q'.
Proof.
  unfold call_sent. intros H R I. destruct (sent_cb p) as [cb|]; returned; [|done]. by eapply interp_idle.
Qed.

Lemma flush_loop_idle n : forall q q', flush_loop (exec fuel) n q = Some q' -> disciplined q' -> idle_in_line q -> idle_in_line q'.
Proof.
  induction n as [|n IH]; intros q q' H R I; cbn [flush_loop] in H; [done|].
  destruct (packets q) as [|p rest] eqn:P; [by returned|]. apply bind_Some in H as ([ret q1] & H0 & H).
  assert (R1 : disciplined q1).
  { eapply disciplined_extends; [|exact R]. destruct (s32 ret =? 0); [returned; by exists []; rewrite app_nil_r|].
    apply bind_Some in H as (q2 & H1 & H). etransitivity; [|eapply flush_loop_extends; [apply exec_extends|exact H]].
    eapply call_sent_extends; [apply exec_extends|exact H1]. }
  rewrite (delivery_result _ _ _ _ _ _ H0 R1) in H.
  destruct (delivery_in_line fuel (frame p) (deliver (frame p)) _ ret q1 H0 R1) as [D1 I1].
  { intros x. cbn [log set_packets]. rewrite (proj2 I x). unfold waiting_frames. rewrite P. cbn [map packets set_packets app].
    by rewrite (from_cons x (frame p) (map _ _)). }
  destruct (ret =? 0).
  - returned. split; [done|]. intros x. cbn [log set_packets]. rewrite (I1 x). unfold waiting_frames. cbn [map packets set_packets].
    by rewrite (from_cons x (frame p) (map _ _)).
  - apply bind_Some in H as (q2 & H1 & H). eapply IH; [exact H|exact R|].
    eapply call_sent_idle; [exact H1| |by split]. eapply disciplined_extends; [|exact R].
    eapply flush_loop_extends; [apply exec_extends|exact H].
Qed.

Lemma flush_idle n q q' : qemu_net_queue_flush (exec fuel) n q = Some q' -> disciplined q' -> idle_in_line q -> idle_in_line q'.
Proof. intros H R [D I]. eapply flush_loop_idle; [exact H|exact R|]. split; [done|]. by apply in_line_event. Qed.

Lemma send_idle n f prog cb q z q' : send_frame (exec fuel) n f prog cb q = Some (z, q') -> disciplined q' ->
  idle_in_line q -> idle_in_line q'.
Proof.
  intros H R [D I]. pose proof (send_extends _ (exec_extends fuel) _ _ _ _ _ _ _ H) as X.
  pose proof (disciplined_event _ _ _ X R) as A. cbn in A. destruct A as [A|A]; [congruence|].
  unfold send_frame in H. change (delivering (add_event _ q)) with (delivering q) in H. rewrite D in H.
  apply bind_Some in H as ([ret q1] & H0 & H).
  assert (X1 : extends q1 q').
  { destruct (ret =? 0); [returned; eexists; reflexivity|]. apply bind_Some in H as (q2 & H1 & H). returned.
    etransitivity; [apply extends_event|eapply flush_extends; [apply exec_extends|exact H1]]. }
  destruct (delivery_in_line fuel f prog _ ret q1 H0 (disciplined_extends _ _ X1 R)) as [D1 I1].
  { intros x. cbn [log add_event]. rewrite unpurged_event, accepted_app, !from_app, (I x). cbn [keep accepted omap list_omap].
    unfold waiting_frames. cbn [packets add_event]. change (from x []) with (@nil Frame). rewrite app_nil_r, app_nil_l, <- app_assoc.
    f_equal. by apply none_in_line. }
  destruct (ret =? 0).
  - returned. split; [done|].
    assert (N : proper (Queued f (delivering q1) (packets q1))).
    { eapply disciplined_event; [|exact R]. exists []. by rewrite app_nil_r. }
    cbn in N. destruct N as [N|N]; [congruence|].
    apply (in_line_event (Queued f (delivering q1) (packets q1))) in I1; [|done|done]. intros x. specialize (I1 x).
    cbn [log set_packets add_event qemu_net_queue_append snd frame] in *. rewrite I1. f_equal.
    unfold waiting_frames. cbn [packets set_packets add_event]. rewrite map_app, from_app. symmetry. by apply none_in_line.
  - apply bind_Some in H as (q2 & H1 & H). returned. eapply flush_idle; [exact H1|exact R|by split].
Qed.

End Idle.

Lemma exec_idle fuel : forall r q z q', exec fuel r q = Some (z, q') -> disciplined q' -> idle_in_line q -> idle_in_line q'.
Proof.
  induction fuel as [|fuel IH]; intros [p|fr fl iov cb| |fr] q z q' H R I; cbn [exec] in H; try done.
  - rewrite send_frame_eq in H. by eapply send_idle.
  - rewrite send_iov_frame in H. by eapply send_idle.
  - returned. by eapply flush_idle.
  - returned. destruct I. split; [done|by apply purge_in_line].
Qed.

(** ** Coming to rest *)

(** [mu] bounds the requests that handlers will still make: before each request
    a program writes a state in which [mu] is smaller.  [pays c t p] says that
    of [p] in a state with [mu] equal to [c], when [t] requests are paid for. *)
Variable mu : W -> nat.

Definition no_flush (r : Request) : Prop := r <> Flush.

Inductive pays {A} : nat -> nat -> Prog A -> Prop :=
| pays_ret c t a : pays c t (Ret a)
| pays_call c t r k : no_flush r -> (forall z c', (c' <= c)%nat -> pays c' t (k z)) -> pays c (S t) (Call r k)
| pays_read c t k : (forall w, mu w = c -> pays c t (k w)) -> pays c t (Read k)
| pays_write c t w k : (mu w <= c)%nat -> pays (mu w) (t + (c - mu w)) k -> pays c t (Write w k).

Hypothesis deliver_pays : forall f c, pays c 0 (deliver f).
Hypothesis deliver_iov_pays : forall x fl iov c, pays c 0 (deliver_iov x fl iov).
Hypothesis sent_pays : forall cb x ret c, pays c 0 (sent cb x ret).

(** What is still to be done. *)
Definition todo (q : NetQueue) : nat := length (packets q) + mu (world q).

(** [q'] is reached from [q] at the price of [t] requests. *)
Definition within (t : nat) (q q' : NetQueue) : Prop :=
  (todo q' <= todo q + t)%nat /\ (mu (world q') <= mu (world q))%nat /\ delivering q' = delivering q.

Lemma purge_within y q : within 1 q (qemu_net_queue_purge y q).
Proof.
  unfold within, todo. cbn. pose proof (length_filter (fun p => sender (frame p) <> y) (packets q)). repeat split; lia.
Qed.

Lemma send_busy_within ex fuel f prog cb q : delivering q = true ->
  exists z q', send_frame ex fuel f prog cb q = Some (z, q') /\ within 1 q q'.
Proof.
  intros D. unfold send_frame. change (delivering (add_event _ q)) with (delivering q). rewrite D. do 2 eexists.
  split; [reflexivity|]. unfold within, todo. cbn. rewrite length_app. cbn. repeat split; [lia|lia].
Qed.

(** A program in which every request is carried out. *)
Lemma interp_within {A} ex (ok : NetQueue -> Prop) n (p : Prog A) c t :
  (forall r q, no_flush r -> ok q -> (todo q + 1 <= n)%nat -> exists z q', ex r q = Some (z, q') /\ within 1 q q') ->
  (forall t q q', within t q q' -> ok q -> ok q') -> (forall w q, ok q -> ok (set_world w q)) ->
  pays c t p -> forall q, ok q -> mu (world q) = c -> (todo q + t <= n)%nat ->
  exists a q', interp ex p q = Some (a, q') /\ within t q q'.
Proof.
  intros Hex Hok Hw P. induction P as [c t a|c t r k Hr P IH|c t k P IH|c t w k Le P IH]; intros q O C N; cbn [interp].
  - exists a, q. split; [done|]. unfold within. repeat split; lia.
  - destruct (Hex r q Hr O ltac:(lia)) as (z & q1 & -> & W1). cbn [mbind option_bind].
    destruct (IH z (mu (world q1)) ltac:(destruct W1; lia) q1) as (b & q2 & E & W2).
    + by eapply Hok.
    + done.
    + destruct W1. lia.
    + exists b, q2. split; [done|]. unfold within in *. destruct W1 as (? & ? & ?), W2 as (? & ? & ?). repeat split; [lia|lia|congruence].
  - by apply IH.
  - destruct (IH (set_world w q)) as (b & q2 & E & W2).
    + by apply Hw.
    + done.
    + unfold todo in *. cbn. lia.
    + exists b, q2. split; [done|]. unfold within, todo in *. destruct W2 as (? & ? & ?). cbn in *. repeat split; [lia|lia|done].
Qed.

Lemma within_trans t t' a b c : within t a b -> within t' b c -> within (t + t') a c.
Proof. unfold within. intros (? & ? & ?) (? & ? & ?). repeat split; [lia|lia|congruence]. Qed.

Lemma exec_busy_within fuel r q : (0 < fuel)%nat -> no_flush r -> delivering q = true ->
  exists z q', exec fuel r q = Some (z, q') /\ within 1 q q'.
Proof.
  intros F S D. destruct fuel as [|fuel]; [lia|]. destruct r; try done; cbn [exec].
  - rewrite send_frame_eq. by apply send_busy_within.
  - rewrite send_iov_frame. by apply send_busy_within.
  - do 2 eexists. split; [reflexivity|]. apply purge_within.
Qed.

Lemma delivery_within fuel f prog q : (0 < fuel)%nat -> (forall c, pays c 0 prog) -> delivering q = false ->
  exists ret q', run_delivery (exec fuel) f prog q = Some (ret, q') /\ within 0 q q'.
Proof.
  intros F P D.
  destruct (interp_within (exec fuel) (fun q => delivering q = true) (todo q) prog (mu (world q)) 0) with (q := set_delivering true q)
    as (ret & q1 & E & W1); try done.
  - intros r q' S D' _. by apply exec_busy_within.
  - intros t a b (_ & _ & E) <-. done.
  - unfold todo. cbn. lia.
  - unfold run_delivery. rewrite E. cbn [mbind option_bind]. do 2 eexists. split; [reflexivity|].
    unfold within, todo in *. cbn in *. destruct W1 as (? & ? & ?). repeat split; [lia|lia|congruence].
Qed.

(** The requests that are paid for within [n] are carried out. *)
Definition serves (fuel n : nat) : Prop := forall r q, no_flush r -> delivering q = false -> (todo q + 1 <= n)%nat ->
  exists z q', exec fuel r q = Some (z, q') /\ within 1 q q'.

Lemma call_sent_within fuel n p ret q : serves fuel n -> delivering q = false -> (todo q <= n)%nat ->
  exists q', call_sent (exec fuel) p ret q = Some q' /\ within 0 q q'.
Proof.
  intros S D N. unfold call_sent. destruct (sent_cb p) as [cb|].
  - destruct (interp_within (exec fuel) (fun q => delivering q = false) n (sent cb (sender (frame p)) ret) (mu (world q)) 0) with (q := q)
      as (a & q1 & -> & W1); try done.
    + intros t a b (_ & _ & E) <-. done.
    + lia.
    + by exists q1.
  - exists q. split; [done|]. unfold within. repeat split; lia.
Qed.

Lemma flush_loop_within fuel n : forall k q, (0 < fuel)%nat -> (n < k)%nat -> serves fuel (n - 1) -> delivering q = false ->
  (todo q <= n)%nat -> exists q', flush_loop (exec fuel) k q = Some q' /\ within 0 q q'.
Proof.
  induction n as [|n IH]; intros [|k] q F K Sv D T; try lia; cbn [flush_loop].
  - destruct (packets q) as [|p rest] eqn:P; [|unfold todo in T; rewrite P in T; cbn in T; lia].
    exists q. split; [done|]. unfold within. repeat split; lia.
  - destruct (packets q) as [|p rest] eqn:P; [exists q; split; [done|]; unfold within; repeat split; lia|].
    destruct (delivery_within fuel (frame p) (deliver (frame p)) (set_packets rest q) F (deliver_pays _) D) as (ret & q1 & E & W1).
    change (run_delivery (exec fuel) (frame p) (deliver (frame p)) (set_packets rest q)) with
      (qemu_net_queue_deliver (exec fuel) (frame p) (set_packets rest q)) in E. rewrite E. cbn [mbind option_bind]. clear E.
    assert (T1 : (todo q1 <= n /\ S (todo q1) <= todo q)%nat).
    { destruct W1 as (W1 & _). unfold todo in *. rewrite P in *. cbn in *. lia. }
    destruct W1 as (W1 & M1 & D1). cbn in M1, D1. destruct (s32 ret =? 0).
    { eexists. split; [reflexivity|]. unfold within, todo in *. cbn. repeat split; [lia|lia|congruence]. }
    replace (S n - 1)%nat with n in Sv by lia.
    destruct (call_sent_within fuel n p (s32 ret) q1 Sv) as (q2 & -> & W2 & M2 & D2); [congruence|lia|]. cbn [mbind option_bind].
    destruct (IH k q2 F) as (q3 & -> & W3 & M3 & D3); [lia| |congruence|lia|].
    { intros r q' Hr D' T'. apply Sv; [done|done|lia]. }
    exists q3. split; [done|]. unfold within. repeat split; [lia|lia|congruence].
Qed.

Lemma flush_within fuel n k q : (0 < fuel)%nat -> (n < k)%nat -> serves fuel (n - 1) -> delivering q = false ->
  (todo q <= n)%nat -> exists q', qemu_net_queue_flush (exec fuel) k q = Some q' /\ within 0 q q'.
Proof. intros F K S D T. exact (flush_loop_within fuel n k (add_event _ q) F K S D T). Qed.

Lemma send_within fuel n f prog cb q : (n < fuel)%nat -> serves fuel (n - 1 - 1) -> (forall c, pays c 0 prog) -> delivering q = false ->
  (todo q + 1 <= n)%nat -> exists z q', send_frame (exec fuel) fuel f prog cb q = Some (z, q') /\ within 1 q q'.
Proof.
  intros F S P D T. unfold send_frame. change (delivering (add_event _ q)) with (delivering q). rewrite D.
  destruct (delivery_within fuel f prog (add_event (Requested f false (packets q)) q) ltac:(lia) P D) as (ret & q1 & -> & W1 & M1 & D1).
  cbn [mbind option_bind]. cbn in M1, D1. unfold todo in W1. cbn in W1. destruct (ret =? 0).
  { do 2 eexists. split; [reflexivity|]. unfold within, todo. cbn. rewrite length_app. cbn. repeat split; [lia|lia|congruence]. }
  destruct (flush_within fuel (n - 1) fuel q1) as (q2 & -> & W2 & M2 & D2); [lia|lia|done|congruence|unfold todo in *; lia|].
  cbn [mbind option_bind]. do 2 eexists. split; [reflexivity|]. unfold within, todo in *. repeat split; [lia|lia|congruence].
Qed.

Lemma exec_serves n : forall fuel, (n + 1 < fuel)%nat -> serves fuel n.
Proof.
  induction n as [n IH] using lt_wf_ind. intros [|fuel] F r q Hr D T; [lia|].
  assert (Sv : serves fuel (n - 1 - 1)) by (destruct (decide (n <= 1)%nat); [intros ? ? ? ?; lia|apply IH; lia]).
  destruct r; try done; cbn [exec].
  - rewrite send_frame_eq. by apply (send_within fuel n); [lia| | | |].
  - rewrite send_iov_frame. by apply (send_within fuel n); [lia| | | |].
  - do 2 eexists. split; [reflexivity|]. apply purge_within.
Qed.

Lemma exec_rest fuel r q : delivering q = false -> (todo q + 3 < fuel)%nat ->
  exists z q', exec fuel r q = Some (z, q') /\ within 1 q q'.
Proof.
  intros D F. assert (Hr : no_flush r \/ r = Flush) by (destruct r; (by right) || by left).
  destruct Hr as [Hr| ->]; [apply (exec_serves (todo q + 1)); (done || lia)|].
  destruct fuel as [|fuel]; [lia|]. cbn [exec].
  destruct (flush_within fuel (todo q) fuel q) as (q' & -> & W1 & M1 & D1); [lia|lia|apply exec_serves; lia|done|lia|].
  cbn [mbind option_bind]. do 2 eexists. split; [reflexivity|]. unfold within. repeat split; [lia|lia|done].
Qed.

End Queue.


(** ** Witnesses *)

(** A network in which a packet is answered by the next station, as often as
    the number that is the state says. *)
Definition demo_deliver (f : Frame) : @Prog nat Z :=
  Read (fun w =>
    match w with
    | O => Ret 1
    | S w => Write w (Call (Send (mkPacket (mkFrame (sender f + 1) 0 [0]) None)) (fun _ => Ret 1))
    end).
Definition demo_deliver_iov (x fl : Z) (iov : list (list Z)) : @Prog nat Z := demo_deliver (mkFrame x fl (concat iov)).
Definition demo_sent (cb x ret : Z) : @Prog nat unit := Ret tt.

Lemma demo_pays f c : pays (fun w => w) c 0 (demo_deliver f).
Proof.
  constructor. intros [|w] <-; [constructor|]. constructor; [lia|].
  replace (0 + (S w - w))%nat with 1%nat by lia. constructor; [done|]. intros. constructor.
Qed.


(** A refused packet without a callback is kept. *)
Example refused_packet_kept : exists q',
  exec (fun _ => @Ret nat Z 0) (fun _ _ _ => Ret 0) demo_sent 4 (Send (mkPacket (mkFrame 5 0 [1]) None)) (qemu_new_net_queue 0%nat) =
  Some (0, q') /\ packets q' = [mkPacket (mkFrame 5 0 [1]) None].
Proof. eexists. split; [reflexivity|]. done. Qed.

End NetQueue.
