(* ===== verification/FwCfg.v ===== *)
(** * Firmware configuration device (src/qemu/hw/fw_cfg.c, fw_cfg.h)

    The firmware of the guest selects an entry with a 16-bit key and reads its
    bytes through a port; the machine adds the entries, among them a directory
    of named files.  Data of entries are blocks of [heap], reached by their
    address, since the directory that an entry shows is the one that
    [fw_cfg_add_file] changes, and since the guest can write to entries.  An
    access outside of the table of entries or of a block, and a call of the
    null pointer, is [None]; calls of callbacks are logged, newest first.

    The theorems: what is added is what the guest reads; the directory lists
    the files in the order in which they were added; and a guest can make the
    device write outside of its table and call the null pointer. *)
From S2P Require Import Prelude RTC Cutils.
From stdpp Require Import list gmap.
#[local] Open Scope Z_scope.
#[local] Open Scope c_scope.

Module FwCfg.

Definition FW_CFG_SIGNATURE : Z := 0x00.
Definition FW_CFG_UUID : Z := 0x02.
Definition FW_CFG_NOGRAPHIC : Z := 0x04.
Definition FW_CFG_NB_CPUS : Z := 0x05.
Definition FW_CFG_BOOT_MENU : Z := 0x0e.
Definition FW_CFG_MAX_CPUS : Z := 0x0f.
Definition FW_CFG_FILE_DIR : Z := 0x19.
Definition FW_CFG_FILE_FIRST : Z := 0x20.
Definition FW_CFG_FILE_SLOTS : Z := 0x10.
Definition FW_CFG_MAX_ENTRY : Z := FW_CFG_FILE_FIRST + FW_CFG_FILE_SLOTS.
Definition FW_CFG_WRITE_CHANNEL : Z := 0x4000.
Definition FW_CFG_ARCH_LOCAL : Z := 0x8000.
Definition FW_CFG_ENTRY_MASK : Z := ~. (FW_CFG_WRITE_CHANNEL |. FW_CFG_ARCH_LOCAL).
Definition FW_CFG_INVALID : Z := 0xffff.

(** A null [data] or [callback] is [None]; the pair [callback],
    [callback_opaque] is one number. *)
Record FWCfgEntry := mkEntry { len : Z; data : option Z; callback : option Z }.

Record FWCfgState := mkFw {
  entries : list (list FWCfgEntry);
  files : option Z;
  cur_entry : Z;
  cur_offset : Z;
  heap : gmap Z (list Z);
  calls : list (Z * list Z)
}.

Definition set_entries (v : list (list FWCfgEntry)) (s : FWCfgState) : FWCfgState :=
  mkFw v (files s) (cur_entry s) (cur_offset s) (heap s) (calls s).
Definition set_files (v : option Z) (s : FWCfgState) : FWCfgState :=
  mkFw (entries s) v (cur_entry s) (cur_offset s) (heap s) (calls s).
Definition set_cur_entry (v : Z) (s : FWCfgState) : FWCfgState :=
  mkFw (entries s) (files s) v (cur_offset s) (heap s) (calls s).
Definition set_cur_offset (v : Z) (s : FWCfgState) : FWCfgState :=
  mkFw (entries s) (files s) (cur_entry s) v (heap s) (calls s).
Definition set_heap (v : gmap Z (list Z)) (s : FWCfgState) : FWCfgState :=
  mkFw (entries s) (files s) (cur_entry s) (cur_offset s) v (calls s).
Definition add_call (v : Z * list Z) (s : FWCfgState) : FWCfgState :=
  mkFw (entries s) (files s) (cur_entry s) (cur_offset s) (heap s) (v :: calls s).

(** The device as it is allocated. *)
Definition fw_cfg_new (h : gmap Z (list Z)) : FWCfgState :=
  mkFw (replicate 2 (replicate (Z.to_nat FW_CFG_MAX_ENTRY) (mkEntry 0 None None))) None 0 0 h [].

Definition arch_of (key : Z) : nat := if truthy (key &. FW_CFG_ARCH_LOCAL) then 1%nat else 0%nat.
Definition index_of (key : Z) : Z := key &. FW_CFG_ENTRY_MASK.

Definition entry_at (key : Z) (s : FWCfgState) : option FWCfgEntry :=
  row ← entries s !! arch_of key; row !! Z.to_nat (index_of key).
Definition put_entry (key : Z) (e : FWCfgEntry) (s : FWCfgState) : FWCfgState :=
  set_entries (alter (fun row => <[Z.to_nat (index_of key) := e]> row) (arch_of key) (entries s)) s.

Definition fw_cfg_write (value : Z) (s : FWCfgState) : option FWCfgState :=
  if truthy (cur_entry s &. FW_CFG_WRITE_CHANNEL) then
    e ← entry_at (cur_entry s) s;
    if cur_offset s <? len e then
      d ← data e;
      b ← heap s !! d;
      _ ← b !! Z.to_nat (cur_offset s);
      let b := <[Z.to_nat (cur_offset s) := value]> b in
      let s := set_heap (<[d := b]> (heap s)) s in
      let s := set_cur_offset (u32 (cur_offset s + 1)) s in
      if cur_offset s =? len e then
        cb ← callback e;
        Some (set_cur_offset 0 (add_call (cb, b) s))
      else Some s
    else Some s
  else Some s.

Definition fw_cfg_select (key : Z) (s : FWCfgState) : Z * FWCfgState :=
  let s := set_cur_offset 0 s in
  if FW_CFG_MAX_ENTRY <=? index_of key then (0, set_cur_entry FW_CFG_INVALID s)
  else (1, set_cur_entry key s).

Definition fw_cfg_read (s : FWCfgState) : option (Z * FWCfgState) :=
  if cur_entry s =? FW_CFG_INVALID then Some (0, s)
  else
    e ← entry_at (cur_entry s) s;
    match data e with
    | None => Some (0, s)
    | Some d =>
        if len e <=? cur_offset s then Some (0, s)
        else
          b ← heap s !! d;
          v ← b !! Z.to_nat (cur_offset s);
          Some (v, set_cur_offset (u32 (cur_offset s + 1)) s)
    end.

Definition fw_cfg_io_readb (s : FWCfgState) : option (Z * FWCfgState) := fw_cfg_read s.
Definition fw_cfg_io_writeb (value : Z) (s : FWCfgState) : option FWCfgState := fw_cfg_write (u8 value) s.
Definition fw_cfg_io_writew (value : Z) (s : FWCfgState) : FWCfgState := (fw_cfg_select (u16 value) s).2.

Definition fw_cfg_reset (s : FWCfgState) : FWCfgState := (fw_cfg_select 0 s).2.

Definition fw_cfg_add_bytes (key d n : Z) (s : FWCfgState) : Z * FWCfgState :=
  if FW_CFG_MAX_ENTRY <=? index_of key then (0, s)
  else
    match entry_at key s with
    | Some e => (1, put_entry key (mkEntry n (Some d) (callback e)) s)
    | None => (1, s)
    end.

Fixpoint le_bytes (n : nat) (v : Z) : list Z :=
  match n with
  | O => []
  | S n => u8 v :: le_bytes n (v >>. 8)
  end.

(** [p] is the block that [qemu_malloc] returns. *)
Definition fw_cfg_add_i16 (p key value : Z) (s : FWCfgState) : Z * FWCfgState :=
  fw_cfg_add_bytes key p 2 (set_heap (<[p := le_bytes 2 value]> (heap s)) s).
Definition fw_cfg_add_i32 (p key value : Z) (s : FWCfgState) : Z * FWCfgState :=
  fw_cfg_add_bytes key p 4 (set_heap (<[p := le_bytes 4 value]> (heap s)) s).
Definition fw_cfg_add_i64 (p key value : Z) (s : FWCfgState) : Z * FWCfgState :=
  fw_cfg_add_bytes key p 8 (set_heap (<[p := le_bytes 8 value]> (heap s)) s).

Definition fw_cfg_add_callback (key cb d n : Z) (s : FWCfgState) : Z * FWCfgState :=
  if negb (truthy (key &. FW_CFG_WRITE_CHANNEL)) then (0, s)
  else if (FW_CFG_MAX_ENTRY <=? index_of key) || (65535 <? n) then (0, s)
  else (1, put_entry key (mkEntry n (Some d) (Some cb)) s).

(** ** The directory of files *)

(** [FWCfgFile]: size and select are big-endian, the name has 56 bytes. *)
Definition SIZEOF_FILE : Z := 64.
Definition NAME_SIZE : Z := 56.
Definition dsize : Z := 4 + SIZEOF_FILE * FW_CFG_FILE_SLOTS.
Definition file_offset (i : Z) : Z := 4 + SIZEOF_FILE * i.
Definition name_offset (i : Z) : Z := file_offset i + 8.

Definition be32_bytes (v : Z) : list Z := [u8 (v >>. 24); u8 (v >>. 16); u8 (v >>. 8); u8 v].
Definition be16_bytes (v : Z) : list Z := [u8 (v >>. 8); u8 v].
Definition be32_at (b : list Z) (o : Z) : Z :=
  aget b o * 2 ^ 24 + aget b (o + 1) * 2 ^ 16 + aget b (o + 2) * 2 ^ 8 + aget b (o + 3).

(** Whether [strcmp] returns 0; [None] when it passes the end of an object. *)
Fixpoint strcmp_equal (a b : list Z) : option bool :=
  match a, b with
  | x :: a, y :: b => if negb (x =? y) then Some false else if x =? 0 then Some true else strcmp_equal a b
  | _, _ => None
  end.

Definition name_at (b : list Z) (i : Z) : list Z := aread b (name_offset i) (Z.to_nat NAME_SIZE).

(** The loop from [i] on, [n] files. *)
Fixpoint duplicate (n : nat) (b : list Z) (i index : Z) : option bool :=
  match n with
  | O => Some false
  | S n =>
      same ← strcmp_equal (name_at b index) (name_at b i);
      if (same : bool) then Some true else duplicate n b (i + 1) index
  end.

(** [p] is the block for the directory when there is none. *)
Definition fw_cfg_add_file (p : Z) (filename : list Z) (d n : Z) (s : FWCfgState) : option (Z * FWCfgState) :=
  let s :=
    match files s with
    | Some _ => s
    | None =>
        let s := set_files (Some p) (set_heap (<[p := replicate (Z.to_nat dsize) 0]> (heap s)) s) in
        (fw_cfg_add_bytes FW_CFG_FILE_DIR p dsize s).2
    end in
  fp ← files s;
  b ← heap s !! fp;
  let index := be32_at b 0 in
  if index =? FW_CFG_FILE_SLOTS then Some (0, s)
  else if FW_CFG_FILE_SLOTS <? index then None
  else
    let s := (fw_cfg_add_bytes (FW_CFG_FILE_FIRST + index) d n s).2 in
    b ← Cutils.pstrcpy (name_offset index) NAME_SIZE filename b;
    let s := set_heap (<[fp := b]> (heap s)) s in
    dup ← duplicate (Z.to_nat index) b 0 index;
    if (dup : bool) then Some (1, s)
    else
      let b := awrite b (file_offset index) (be32_bytes n) in
      let b := awrite b (file_offset index + 4) (be16_bytes (FW_CFG_FILE_FIRST + index)) in
      let b := awrite b 0 (be32_bytes (index + 1)) in
      Some (1, set_heap (<[fp := b]> (heap s)) s).

Definition fw_cfg_init (signature uuid p1 p2 p3 p4 : Z) (nographic smp_cpus max_cpus boot_menu : Z) (s : FWCfgState)
    : FWCfgState :=
  let s := (fw_cfg_add_bytes FW_CFG_SIGNATURE signature 4 s).2 in
  let s := (fw_cfg_add_bytes FW_CFG_UUID uuid 16 s).2 in
  let s := (fw_cfg_add_i16 p1 FW_CFG_NOGRAPHIC (u16 nographic) s).2 in
  let s := (fw_cfg_add_i16 p2 FW_CFG_NB_CPUS (u16 smp_cpus) s).2 in
  let s := (fw_cfg_add_i16 p3 FW_CFG_MAX_CPUS (u16 max_cpus) s).2 in
  (fw_cfg_add_i16 p4 FW_CFG_BOOT_MENU (u16 boot_menu) s).2.

(** ** The table of entries *)

Definition table_ok (s : FWCfgState) : Prop :=
  length (entries s) = 2%nat /\ Forall (fun row => length row = Z.to_nat FW_CFG_MAX_ENTRY) (entries s).

Lemma arch_lt key : (arch_of key < 2)%nat.
Proof. unfold arch_of. destruct (truthy _); lia. Qed.

Lemma entry_some key s : table_ok s -> 0 <= key -> index_of key < FW_CFG_MAX_ENTRY -> exists e, entry_at key s = Some e.
Proof.
  intros [L F] Hk Hi. unfold entry_at. pose proof (arch_lt key).
  destruct (lookup_lt_is_Some_2 (entries s) (arch_of key)) as [row Hr]; [lia|]. rewrite Hr. cbn.
  apply lookup_lt_is_Some_2. rewrite (Forall_lookup_1 _ _ _ _ F Hr). change (Z.to_nat FW_CFG_MAX_ENTRY) with 48%nat.
  change FW_CFG_MAX_ENTRY with 48 in Hi. lia.
Qed.

Lemma entry_outside key s : table_ok s -> FW_CFG_MAX_ENTRY <= index_of key -> entry_at key s = None.
Proof.
  intros [L F] Hi. unfold entry_at. destruct (entries s !! arch_of key) as [row|] eqn:Hr; [|done]. cbn.
  apply lookup_ge_None_2. rewrite (Forall_lookup_1 _ _ _ _ F Hr). change (Z.to_nat FW_CFG_MAX_ENTRY) with 48%nat.
  change FW_CFG_MAX_ENTRY with 48 in Hi. lia.
Qed.

Lemma put_entry_table key e s : table_ok s -> table_ok (put_entry key e s).
Proof.
  intros [L F]. split; cbn [entries put_entry set_entries]; [by rewrite length_alter|].
  apply Forall_alter; [done|]. intros row Hr Hl. by rewrite length_insert.
Qed.

Lemma entry_put key e s : table_ok s -> 0 <= key -> index_of key < FW_CFG_MAX_ENTRY -> entry_at key (put_entry key e s) = Some e.
Proof.
  intros T Hk Hi. destruct (entry_some key s T Hk Hi) as [e0 E]. unfold entry_at in *. cbn [entries put_entry set_entries].
  rewrite list_lookup_alter_eq. destruct (entries s !! arch_of key) as [row|]; [|done]. cbn in *.
  apply list_lookup_insert_eq. by apply lookup_lt_Some in E.
Qed.

Lemma entry_put_ne key key' e s : 0 <= index_of key -> 0 <= index_of key' ->
  arch_of key <> arch_of key' \/ index_of key <> index_of key' -> entry_at key' (put_entry key e s) = entry_at key' s.
Proof.
  intros H1 H2 N. unfold entry_at. cbn [entries put_entry set_entries]. destruct (decide (arch_of key = arch_of key')) as [Ea|Ea].
  - rewrite Ea, list_lookup_alter_eq. destruct (entries s !! arch_of key') as [row|]; [|done]. cbn.
    apply list_lookup_insert_ne. destruct N as [N|N]; [done|lia].
  - by rewrite list_lookup_alter_ne.
Qed.

(** ** Reading *)

(** [n] reads of the data port. *)
Fixpoint reads (n : nat) (s : FWCfgState) : option (list Z * FWCfgState) :=
  match n with
  | O => Some ([], s)
  | S n =>
      '(v, s) ← fw_cfg_io_readb s;
      '(vs, s) ← reads n s;
      Some (v :: vs, s)
  end.

Lemma reads_entry n key e d b : forall s o, cur_entry s = key -> key <> FW_CFG_INVALID -> cur_offset s = o -> entry_at key s = Some e ->
  data e = Some d -> heap s !! d = Some b -> 0 <= o <= len e -> len e <= Z.of_nat (length b) -> len e < 2 ^ 32 ->
  reads n s = Some (take n (drop (Z.to_nat o) (take (Z.to_nat (len e)) b)) ++ replicate (n - Z.to_nat (len e - o)) 0,
                    set_cur_offset (Z.min (o + Z.of_nat n) (len e)) s).
Proof.
  induction n as [|n IH]; intros s o Hc Hk Ho He Hd Hb Hr Hl H32; cbn [reads].
  { rewrite take_0. replace (Z.min (o + Z.of_nat 0) (len e)) with (cur_offset s) by lia. by destruct s. }
  unfold fw_cfg_io_readb, fw_cfg_read. rewrite Hc, (proj2 (Z.eqb_neq _ _)) by done. rewrite He. cbn [mbind option_bind]. rewrite Hd, Ho.
  destruct (Z.leb_spec (len e) o) as [Le|Gt]; cbn [mbind option_bind].
  - rewrite (IH s o) by done. cbn [mbind option_bind]. assert (o = len e) as -> by lia.
    rewrite !drop_ge by (rewrite length_take; lia). rewrite !take_nil, Z.sub_diag, !Nat.sub_0_r.
    do 3 f_equal. lia.
  - rewrite Hb. cbn [mbind option_bind]. destruct (lookup_lt_is_Some_2 b (Z.to_nat o)) as [v Hv]; [lia|]. rewrite Hv. cbn [mbind option_bind].
    rewrite (wrap_small 32) by (unfold is_uint; lia). rewrite (IH _ (o + 1)) by (done || cbn; lia). cbn [mbind option_bind].
    assert (D : drop (Z.to_nat o) (take (Z.to_nat (len e)) b) = v :: drop (Z.to_nat (o + 1)) (take (Z.to_nat (len e)) b)).
    { rewrite (drop_S _ v) by (by rewrite lookup_take_lt by lia). do 2 f_equal. lia. }
    rewrite D. cbn [take app]. f_equal. f_equal.
    + do 3 f_equal. lia.
    + unfold set_cur_offset. cbn. f_equal. lia.
Qed.

Lemma select_entry key s : is_uint 16 key -> index_of key < FW_CFG_MAX_ENTRY ->
  fw_cfg_io_writew key s = set_cur_entry key (set_cur_offset 0 s) /\ key <> FW_CFG_INVALID.
Proof.
  intros Hk Hi. unfold fw_cfg_io_writew, fw_cfg_select. rewrite (wrap_small 16) by done. rewrite (proj2 (Z.leb_gt _ _)) by done.
  split; [done|]. intros ->. by vm_compute in Hi.
Qed.

(** The guest reads what the machine has added.  An entry that was added
    is accepted; once its key is selected the data port returns its bytes in
    order and then zeros; nothing but the position changes, and entries with
    other keys are as before. *)
Theorem fw_cfg_add_read key d n b s k :
  table_ok s -> is_uint 16 key -> index_of key < FW_CFG_MAX_ENTRY -> heap s !! d = Some b ->
  0 <= n <= Z.of_nat (length b) -> n < 2 ^ 32 ->
  let '(ret, s1) := fw_cfg_add_bytes key d n s in
  ret = 1 /\
  (exists s2, reads k (fw_cfg_io_writew key s1) = Some (take k (take (Z.to_nat n) b) ++ replicate (k - Z.to_nat n) 0, s2) /\
    heap s2 = heap s /\ entries s2 = entries s1) /\
  (forall key', 0 <= index_of key' -> arch_of key <> arch_of key' \/ index_of key <> index_of key' ->
    entry_at key' s1 = entry_at key' s).
Proof.
  intros T Hk Hi Hb Hn H32. unfold fw_cfg_add_bytes. rewrite (proj2 (Z.leb_gt _ _)) by done.
  destruct (entry_some key s T) as [e ->]; [apply Hk|done|]. split; [done|].
  assert (P : 0 <= index_of key) by (apply Z.land_nonneg; left; apply Hk).
  split; [|intros key' P' N; by apply entry_put_ne].
  set (s1 := put_entry _ _ s). destruct (select_entry key s1 Hk Hi) as [-> Hne].
  rewrite (reads_entry k key (mkEntry n (Some d) (callback e)) d b _ 0); try done; cbn [len].
  - eexists. split; [rewrite Z.sub_0_r; change (Z.to_nat 0) with 0%nat; rewrite drop_0; reflexivity|done].
  - change (entry_at key (set_cur_entry key (set_cur_offset 0 s1))) with (entry_at key s1). apply entry_put; [done|apply Hk|done].
  - lia.
  - lia.
Qed.

(** ** Writing by the guest *)

Fixpoint writes (vs : list Z) (s : FWCfgState) : option FWCfgState :=
  match vs with
  | [] => Some s
  | v :: vs => s ← fw_cfg_io_writeb v s; writes vs s
  end.

(** Bytes of an entry that is selected for writing, up to its last one. *)
Lemma writes_entry vs key e d : forall s b, Forall (is_uint 8) vs -> cur_entry s = key -> truthy (key &. FW_CFG_WRITE_CHANNEL) = true ->
  0 <= cur_offset s -> entry_at key s = Some e -> data e = Some d -> heap s !! d = Some b -> len e <= Z.of_nat (length b) ->
  len e < 2 ^ 32 -> cur_offset s + Z.of_nat (length vs) < len e ->
  writes vs s = Some (set_cur_offset (cur_offset s + Z.of_nat (length vs))
                        (set_heap (<[d := awrite b (cur_offset s) vs]> (heap s)) s)).
Proof.
  induction vs as [|v vs IH]; intros s b F Hc Hw Ho He Hd Hb Hl H32 Hn; cbn [writes length awrite] in *.
  { rewrite insert_id, Z.add_0_r by done. by destruct s. }
  apply Forall_cons in F as [Hv F]. unfold fw_cfg_io_writeb, fw_cfg_write. rewrite (wrap_small 8) by done.
  rewrite Hc, Hw, He. cbn [mbind option_bind]. rewrite (proj2 (Z.ltb_lt _ _)) by lia. rewrite Hd. cbn [mbind option_bind]. rewrite Hb. cbn [mbind option_bind].
  destruct (lookup_lt_is_Some_2 b (Z.to_nat (cur_offset s))) as [x ->]; [lia|]. cbn [mbind option_bind cur_offset set_heap].
  rewrite (wrap_small 32) by (unfold is_uint; lia). cbn [cur_offset set_cur_offset]. rewrite (proj2 (Z.eqb_neq _ _)) by lia. cbn [mbind option_bind].
  rewrite (IH _ (<[Z.to_nat (cur_offset s):=v]> b)); try done; cbn [cur_offset set_cur_offset heap set_heap].
  - rewrite insert_insert_eq. unfold set_cur_offset, set_heap. cbn. do 2 f_equal. lia.
  - lia.
  - apply lookup_insert_eq.
  - by rewrite length_insert.
  - lia.
Qed.

(** C28: the guest can write outside of the device.  A write after an invalid
    key was selected addresses an entry behind the table, whatever the state;
    and an entry that the machine added without a callback can be overwritten
    by selecting its key with the bit of the write channel: every byte but the
    last goes to the data of the entry, and with the last one the null pointer
    is called. *)
Theorem fw_cfg_write_unchecked s key v e d b vs :
  table_ok s ->
  (is_uint 16 key -> FW_CFG_MAX_ENTRY <= index_of key -> fw_cfg_io_writeb v (fw_cfg_io_writew key s) = None) /\
  (is_uint 16 key -> index_of key < FW_CFG_MAX_ENTRY -> truthy (key &. FW_CFG_WRITE_CHANNEL) = true ->
   entry_at key s = Some e -> callback e = None -> data e = Some d -> heap s !! d = Some b ->
   len e <= Z.of_nat (length b) -> Forall (is_uint 8) vs -> Z.of_nat (length vs) + 1 = len e -> len e < 2 ^ 32 ->
   exists s1, writes vs (fw_cfg_io_writew key s) = Some s1 /\ heap s1 = <[d := awrite b 0 vs]> (heap s) /\
     fw_cfg_io_writeb v s1 = None).
Proof.
  intros T. split.
  - intros Hk Hi. unfold fw_cfg_io_writew, fw_cfg_select. rewrite (wrap_small 16), (proj2 (Z.leb_le _ _)) by done. cbn [snd].
    unfold fw_cfg_io_writeb, fw_cfg_write. cbn [cur_entry set_cur_entry]. change (truthy (FW_CFG_INVALID &. FW_CFG_WRITE_CHANNEL)) with true.
    cbn iota. change (entry_at FW_CFG_INVALID (set_cur_entry FW_CFG_INVALID (set_cur_offset 0 s))) with (entry_at FW_CFG_INVALID s).
    rewrite entry_outside; [done|done|]. by vm_compute.
  - intros Hk Hi Hw He Hcb Hd Hb Hl F Hn H32. destruct (select_entry key s Hk Hi) as [-> _].
    rewrite (writes_entry vs key e d _ b); try done; cbn [cur_offset set_cur_entry set_cur_offset]; [|lia..].
    eexists. split; [reflexivity|]. split; [done|]. rewrite Z.add_0_l.
    unfold fw_cfg_io_writeb, fw_cfg_write. cbn [cur_entry set_cur_offset set_heap set_cur_entry cur_offset heap]. rewrite Hw.
    match goal with |- context [entry_at key ?t] => change (entry_at key t) with (entry_at key s) end. rewrite He. cbn [mbind option_bind].
    rewrite (proj2 (Z.ltb_lt _ _)) by lia. rewrite Hd. cbn [mbind option_bind]. rewrite lookup_insert_eq. cbn [mbind option_bind].
    destruct (lookup_lt_is_Some_2 (awrite b 0 vs) (Z.to_nat (Z.of_nat (length vs)))) as [x ->]; [rewrite length_awrite; lia|].
    cbn [mbind option_bind cur_offset set_heap set_cur_offset]. rewrite (wrap_small 32) by (unfold is_uint; lia).
    rewrite (proj2 (Z.eqb_eq _ _)) by lia. by rewrite Hcb.
Qed.

(** ** The directory *)

Lemma be32_at_window b o : be32_at b o = be32_at (aread b o 4) 0.
Proof. unfold be32_at, aread. cbn -[aget Z.mul Z.pow]. rewrite Z.add_0_r. done. Qed.

Lemma be32_at_bytes v : is_uint 32 v -> be32_at (be32_bytes v) 0 = v.
Proof.
  intros H. unfold is_uint in H.
  change (be32_at (be32_bytes v) 0) with (u8 (v >>. 24) * 2 ^ 24 + u8 (v >>. 16) * 2 ^ 16 + u8 (v >>. 8) * 2 ^ 8 + u8 v).
  rewrite !Z.shiftr_div_pow2 by lia. unfold wrap. change (2 ^ 24) with (256 * 256 * 256). change (2 ^ 16) with (256 * 256).
  change (2 ^ 8) with 256. rewrite <- !Z.div_div by lia.
  pose proof (Z.div_mod v 256 ltac:(lia)). pose proof (Z.div_mod (v / 256) 256 ltac:(lia)).
  pose proof (Z.div_mod (v / 256 / 256) 256 ltac:(lia)). rewrite (Z.mod_small (v / 256 / 256 / 256)) by dlia. lia.
Qed.

Definition file : Type := (list Z * Z * Z).
Definition name_of (f : file) : list Z := f.1.1.

(** Slot [i] of the directory [b] describes a file. *)
Definition listed (b : list Z) (i : Z) (f : file) : Prop :=
  be32_at b (file_offset i) = f.2 /\ aread b (file_offset i + 4) 2 = be16_bytes (FW_CFG_FILE_FIRST + i) /\
  Cutils.holds b (name_offset i) (name_of f) /\ Z.of_nat (length (name_of f)) < NAME_SIZE.

(** The directory [b] at address [fp], and the entries of the files it lists. *)
Record dir_ok (s : FWCfgState) (fs : list file) (fp : Z) (b : list Z) : Prop := {
  dir_files : files s = Some fp;
  dir_block : heap s !! fp = Some b;
  dir_length : Z.of_nat (length b) = dsize;
  dir_count : be32_at b 0 = Z.of_nat (length fs);
  dir_slots : Z.of_nat (length fs) <= FW_CFG_FILE_SLOTS;
  dir_entry : exists cb, entry_at FW_CFG_FILE_DIR s = Some (mkEntry dsize (Some fp) cb);
  dir_listed : forall i f, fs !! i = Some f -> listed b (Z.of_nat i) f /\
    exists cb, entry_at (FW_CFG_FILE_FIRST + Z.of_nat i) s = Some (mkEntry f.2 (Some f.1.2) cb);
  dir_distinct : NoDup (name_of <$> fs)
}.

Lemma small_key k : 0 <= k < FW_CFG_MAX_ENTRY -> index_of k = k /\ arch_of k = 0%nat.
Proof.
  intros H. assert (A : forallb (fun k => (index_of k =? k) && (arch_of k =? 0)%nat) (seqZ 0 FW_CFG_MAX_ENTRY) = true) by reflexivity.
  rewrite forallb_forall in A. specialize (A k). apply andb_prop in A as [A1 A2]; [|apply list_elem_of_In, elem_of_seqZ; lia].
  split; [by apply Z.eqb_eq|by apply Nat.eqb_eq].
Qed.

(** A write beside a window of the directory. *)
Lemma listed_write b i f o bs : 0 <= i < FW_CFG_FILE_SLOTS -> 0 <= o -> o + Z.of_nat (length bs) <= Z.of_nat (length b) ->
  Z.of_nat (length b) = dsize -> o + Z.of_nat (length bs) <= file_offset i \/ file_offset (i + 1) <= o ->
  listed b i f -> listed (awrite b o bs) i f.
Proof.
  unfold listed, file_offset, name_offset, file_offset, SIZEOF_FILE, FW_CFG_FILE_SLOTS, dsize, SIZEOF_FILE, FW_CFG_FILE_SLOTS, NAME_SIZE.
  intros Hi Ho Hl Hd N (L1 & L2 & (F & L3 & L4 & L5) & L6). split; [|split; [|split; [|done]]].
  - rewrite be32_at_window, aread_awrite_ne by lia. by rewrite <- be32_at_window.
  - by rewrite aread_awrite_ne by lia.
  - split; [done|]. split; [done|]. rewrite length_awrite. split; [done|]. by rewrite aread_awrite_ne by lia.
Qed.

Lemma strcmp_equal_strings a b x y : Cutils.is_string a x -> Cutils.is_string b y -> strcmp_equal a b = Some (bool_decide (x = y)).
Proof.
  intros [Fa [ja ->]] [Fb [jb ->]]. revert y Fb. induction Fa as [|c x Hc Fa IH]; intros y Fb; destruct Fb as [|c' y Hc' Fb]; cbn [app strcmp_equal].
  - done.
  - rewrite (proj2 (Z.eqb_neq 0 c')) by auto. done.
  - rewrite (proj2 (Z.eqb_neq c 0)) by done. done.
  - destruct (Z.eqb_spec c c') as [->|N]; cbn [negb].
    + rewrite (proj2 (Z.eqb_neq c' 0)), IH by done. f_equal. apply bool_decide_ext. split; [by intros ->|by intros [= ->]].
    + f_equal. symmetry. apply bool_decide_eq_false. by intros [= ->].
Qed.

Lemma name_at_string b i nm : Cutils.holds b (name_offset i) nm -> Z.of_nat (length nm) < NAME_SIZE -> Cutils.is_string (name_at b i) nm.
Proof.
  intros (F & _ & _ & R) L. split; [done|]. unfold name_at.
  replace (Z.to_nat NAME_SIZE) with (S (length nm) + (Z.to_nat NAME_SIZE - S (length nm)))%nat by lia.
  rewrite aread_add, R, <- app_assoc. by eexists.
Qed.

(** The search for a file of the same name. *)
Lemma duplicate_found b index nm l : forall i, Cutils.is_string (name_at b index) nm ->
  (forall j f, l !! j = Some f -> Cutils.is_string (name_at b (i + Z.of_nat j)) (name_of f)) ->
  duplicate (length l) b i index = Some (bool_decide (nm ∈ name_of <$> l)).
Proof.
  induction l as [|f l IH]; intros i Hn Hl; cbn [duplicate length]; [done|].
  rewrite (strcmp_equal_strings _ _ nm (name_of f)); [|done|]. 2: { specialize (Hl 0%nat f eq_refl). by rewrite Z.add_0_r in Hl. }
  cbn [mbind option_bind]. destruct (bool_decide_reflect (nm = name_of f)) as [->|N].
  - f_equal. symmetry. apply bool_decide_eq_true. cbn. apply list_elem_of_here.
  - rewrite IH; [|done|]. 2: { intros j g Hj. specialize (Hl (S j) g Hj). by replace (i + 1 + Z.of_nat j) with (i + Z.of_nat (S j)) by lia. }
    f_equal. apply bool_decide_ext. cbn. rewrite elem_of_cons. split; [by right|by intros [?|?]].
Qed.

Lemma add_bytes_entry key d n s : table_ok s -> 0 <= key < FW_CFG_MAX_ENTRY ->
  exists cb, fw_cfg_add_bytes key d n s = (1, put_entry key (mkEntry n (Some d) cb) s).
Proof.
  intros T Hk. destruct (small_key key Hk) as [Ei _]. unfold fw_cfg_add_bytes. rewrite Ei, (proj2 (Z.leb_gt _ _)) by lia.
  destruct (entry_some key s T) as [e ->]; [lia|lia|]. by exists (callback e).
Qed.

(** An entry of a small key after another one was added. *)
Lemma entry_put_small key key' e s : 0 <= key < FW_CFG_MAX_ENTRY -> 0 <= key' < FW_CFG_MAX_ENTRY -> key <> key' ->
  entry_at key' (put_entry key e s) = entry_at key' s.
Proof.
  intros H H' N. destruct (small_key key H) as [E _], (small_key key' H') as [E' _].
  apply entry_put_ne; rewrite ?E, ?E'; [lia|lia|by right].
Qed.

Lemma dir_put s fs fp b key e : dir_ok s fs fp b -> FW_CFG_FILE_FIRST + Z.of_nat (length fs) <= key < FW_CFG_MAX_ENTRY ->
  dir_ok (put_entry key e s) fs fp b.
Proof.
  unfold FW_CFG_MAX_ENTRY, FW_CFG_FILE_FIRST. intros [] Hk. constructor; try done.
  - rewrite entry_put_small; [done| | |]; unfold FW_CFG_MAX_ENTRY, FW_CFG_FILE_FIRST, FW_CFG_FILE_SLOTS, FW_CFG_FILE_DIR in *; lia.
  - intros i f Hi. destruct (dir_listed0 i f Hi) as [L E]. split; [done|]. pose proof (lookup_lt_Some _ _ _ Hi).
    rewrite entry_put_small; [done| | |]; unfold FW_CFG_MAX_ENTRY, FW_CFG_FILE_FIRST, FW_CFG_FILE_SLOTS in *; lia.
Qed.

(** Changes of the directory's block outside of the slots that are listed. *)
Lemma dir_write s fs fp b b' : dir_ok s fs fp b -> length b' = length b -> be32_at b' 0 = be32_at b 0 ->
  (forall i f, fs !! i = Some f -> listed b (Z.of_nat i) f -> listed b' (Z.of_nat i) f) ->
  dir_ok (set_heap (<[fp := b']> (heap s)) s) fs fp b'.
Proof.
  intros [] L C K. constructor; try done.
  - apply lookup_insert_eq.
  - by rewrite L.
  - by rewrite C.
  - intros i f Hi. destruct (dir_listed0 i f Hi) as [Hl E]. split; [by apply (K i f)|done].
Qed.

(** The next slot filled in: its name is there, the size, the key and the count
    are written. *)
Lemma dir_append s fs fp b nm d n cb : dir_ok s fs fp b -> Z.of_nat (length fs) < FW_CFG_FILE_SLOTS -> is_uint 32 n ->
  let i := Z.of_nat (length fs) in
  entry_at (FW_CFG_FILE_FIRST + i) s = Some (mkEntry n (Some d) cb) ->
  Cutils.holds b (name_offset i) nm -> Z.of_nat (length nm) < NAME_SIZE -> nm ∉ name_of <$> fs ->
  let b' := awrite (awrite (awrite b (file_offset i) (be32_bytes n)) (file_offset i + 4) (be16_bytes (FW_CFG_FILE_FIRST + i)))
              0 (be32_bytes (i + 1)) in
  dir_ok (set_heap (<[fp := b']> (heap s)) s) (fs ++ [(nm, d, n)]) fp b'.
Proof.
  intros [] Hs Hn i He Hh Hl Hd b'.
  assert (Ln : length (be32_bytes n) = 4%nat /\ length (be16_bytes (FW_CFG_FILE_FIRST + i)) = 2%nat /\ length (be32_bytes (i + 1)) = 4%nat) by done.
  destruct Ln as (Ln1 & Ln2 & Ln3).
  assert (Lb : length b' = length b) by (unfold b'; by rewrite !length_awrite).
  assert (I : 0 <= i < 16 /\ i = Z.of_nat (length fs)) by (unfold i, FW_CFG_FILE_SLOTS in *; lia).
  assert (D : Z.of_nat (length b) = 1028) by done.
  assert (Fo : file_offset i = 4 + 64 * i /\ name_offset i = 12 + 64 * i) by (unfold name_offset, file_offset, SIZEOF_FILE; lia).
  destruct Fo as [Fo No].
  constructor; try done; cbn [heap set_heap].
  - apply lookup_insert_eq.
  - by rewrite Lb.
  - unfold b'. rewrite be32_at_window, aread_awrite_eq by (rewrite ?length_awrite; lia).
    rewrite be32_at_bytes by (unfold is_uint; lia). rewrite length_app. cbn. lia.
  - rewrite length_app. cbn. unfold FW_CFG_FILE_SLOTS in *. lia.
  - intros j f Hj. apply lookup_app_Some in Hj as [Hj|[Hj1 Hj2]].
    + pose proof (lookup_lt_Some _ _ _ Hj). destruct (dir_listed0 j f Hj) as [Lj Ej]. split; [|done].
      unfold b'. repeat apply listed_write; rewrite ?length_awrite, ?Ln1, ?Ln2, ?Ln3; try done;
        unfold file_offset, SIZEOF_FILE, FW_CFG_FILE_SLOTS, dsize in *; lia.
    + apply list_lookup_singleton_Some in Hj2 as [Hj2 <-]. assert (j = length fs) as -> by lia. fold i. split; [|by exists cb].
      split; [|split; [|split; [|done]]]; cbn [name_of fst snd].
      * unfold b'. rewrite be32_at_window, !(aread_awrite_ne _ _ _ (file_offset i)) by (rewrite ?length_awrite; lia).
        rewrite aread_awrite_eq by lia. by apply be32_at_bytes.
      * unfold b'. rewrite (aread_awrite_ne _ 0) by (rewrite ?length_awrite; lia). apply aread_awrite_eq; rewrite ?length_awrite; lia.
      * destruct Hh as (H1 & H2 & H3 & H4). split; [done|]. split; [done|]. split; [by rewrite Lb|].
        unfold NAME_SIZE in Hl. unfold b'. by rewrite !aread_awrite_ne by (rewrite ?length_awrite; lia).
  - rewrite fmap_app. apply NoDup_app. split; [done|]. split; [|apply NoDup_singleton].
    intros x Hx E. cbn in E. apply list_elem_of_singleton in E as ->. done.
Qed.

(** A new directory. *)
Definition with_dir (p : Z) (s : FWCfgState) : FWCfgState :=
  match files s with
  | Some _ => s
  | None =>
      let s := set_files (Some p) (set_heap (<[p := replicate (Z.to_nat dsize) 0]> (heap s)) s) in
      (fw_cfg_add_bytes FW_CFG_FILE_DIR p dsize s).2
  end.

(** The files [fs] are in the directory; without one there are none. *)
Definition directory (s : FWCfgState) (fs : list file) : Prop :=
  (files s = None /\ fs = []) \/ exists fp b, dir_ok s fs fp b.

Lemma with_dir_ok p s fs : table_ok s -> directory s fs -> table_ok (with_dir p s) /\ exists fp b, dir_ok (with_dir p s) fs fp b.
Proof.
  intros T [[N ->]|(fp & b & D)]; unfold with_dir.
  2: { rewrite (dir_files _ _ _ _ D). split; [done|by exists fp, b]. }
  rewrite N. set (s0 := set_files _ _). assert (T0 : table_ok s0) by done.
  destruct (add_bytes_entry FW_CFG_FILE_DIR p dsize s0 T0) as [cb ->]; [done|]. cbn [snd]. split; [by apply put_entry_table|].
  exists p, (replicate (Z.to_nat dsize) 0). constructor; try done.
  - apply lookup_insert_eq.
  - exists cb. apply entry_put; done.
  - apply NoDup_nil_2.
Qed.

Lemma file_key i : 0 <= i < FW_CFG_FILE_SLOTS -> 0 <= FW_CFG_FILE_FIRST + i < FW_CFG_MAX_ENTRY.
Proof. unfold FW_CFG_FILE_FIRST, FW_CFG_MAX_ENTRY, FW_CFG_FILE_FIRST, FW_CFG_FILE_SLOTS. lia. Qed.

(** The name written into the next slot, and the search for its duplicate. *)
Lemma dir_named s fs fp b nm : dir_ok s fs fp b -> Z.of_nat (length fs) < FW_CFG_FILE_SLOTS -> Forall (fun c => c <> 0) nm ->
  (length nm <= 55)%nat ->
  let i := Z.of_nat (length fs) in
  let b1 := awrite b (name_offset i) (nm ++ [0]) in
  dir_ok (set_heap (<[fp := b1]> (heap s)) s) fs fp b1 /\ Cutils.holds b1 (name_offset i) nm /\
  duplicate (Z.to_nat i) b1 0 i = Some (bool_decide (nm ∈ name_of <$> fs)).
Proof.
  intros D Hi Fz Ln i b1. assert (I : 0 <= i < 16 /\ i = Z.of_nat (length fs)) by (unfold i, FW_CFG_FILE_SLOTS in *; lia).
  assert (Lb : Z.of_nat (length b) = 1028) by apply (dir_length _ _ _ _ D).
  assert (No : name_offset i = 12 + 64 * i) by (unfold name_offset, file_offset, SIZEOF_FILE; lia).
  assert (H1 : Cutils.holds b1 (name_offset i) nm) by (apply Cutils.write_holds; [done|lia|lia]).
  assert (D2 : dir_ok (set_heap (<[fp := b1]> (heap s)) s) fs fp b1).
  { eapply dir_write; [exact D|apply length_awrite| |].
    - unfold b1. rewrite be32_at_window, aread_awrite_ne, <- be32_at_window; (done || (rewrite ?length_app; cbn [length]; lia)).
    - intros j f Hj Lj. pose proof (lookup_lt_Some _ _ _ Hj). apply listed_write; rewrite ?length_app; cbn [length];
        unfold file_offset, SIZEOF_FILE, FW_CFG_FILE_SLOTS, dsize in *; (done || lia). }
  split; [done|]. split; [done|]. replace (Z.to_nat i) with (length fs) by lia.
  apply duplicate_found; [apply name_at_string; [done|unfold NAME_SIZE; lia]|].
  intros j f Hj. rewrite Z.add_0_l. destruct (dir_listed _ _ _ _ D2 j f Hj) as [(_ & _ & Hh & Hl) _]. by apply name_at_string.
Qed.

(** The part of [fw_cfg_add_file] after the directory is there. *)
Lemma add_file_dir p filename nm d n s fs fp b : table_ok s -> dir_ok s fs fp b -> Cutils.is_string filename nm -> is_uint 32 n ->
  let nm' := take 55 nm in
  exists ret s', fw_cfg_add_file p filename d n s = Some (ret, s') /\ table_ok s' /\
    (Z.of_nat (length fs) = FW_CFG_FILE_SLOTS -> ret = 0 /\ directory s' fs) /\
    (Z.of_nat (length fs) < FW_CFG_FILE_SLOTS -> ret = 1 /\
      directory s' (if bool_decide (nm' ∈ name_of <$> fs) then fs else fs ++ [(nm', d, n)])).
Proof.
  intros T D Hs Hn nm'. unfold fw_cfg_add_file. rewrite (dir_files _ _ _ _ D). cbn [mbind option_bind]. rewrite (dir_files _ _ _ _ D). cbn [mbind option_bind].
  rewrite (dir_block _ _ _ _ D). cbn [mbind option_bind]. rewrite (dir_count _ _ _ _ D). set (i := Z.of_nat (length fs)).
  pose proof (dir_slots _ _ _ _ D) as Hi. fold i in Hi. destruct (Z.eqb_spec i FW_CFG_FILE_SLOTS) as [E|Ne].
  { exists 0, s. split; [done|]. split; [done|]. split; [|lia]. intros _. split; [done|]. right. by exists fp, b. }
  rewrite (proj2 (Z.ltb_ge _ _)) by lia. assert (I : 0 <= i < FW_CFG_FILE_SLOTS) by (unfold i in *; lia).
  pose proof (file_key i I) as K. destruct (add_bytes_entry (FW_CFG_FILE_FIRST + i) d n s T K) as [cb ->].
  cbn [snd]. set (s1 := put_entry _ _ s). assert (D1 : dir_ok s1 fs fp b) by (apply dir_put; [done|fold i; lia]).
  assert (E1 : entry_at (FW_CFG_FILE_FIRST + i) s1 = Some (mkEntry n (Some d) cb)).
  { destruct (small_key _ K) as [Ei _]. apply entry_put; rewrite ?Ei; (done || lia). }
  rewrite (Cutils.pstrcpy_writes _ _ filename nm) by done. cbn [mbind option_bind]. change (take (Z.to_nat (NAME_SIZE - 1)) nm) with nm'.
  assert (Ln : (length nm' <= 55)%nat) by (unfold nm'; rewrite length_take; lia).
  assert (Fz : Forall (fun c => c <> 0) nm') by (apply Forall_take; apply Hs).
  destruct (dir_named s1 fs fp b nm' D1 ltac:(apply I) Fz Ln) as (D2 & H1 & Dup). fold i in D2, H1, Dup.
  set (b1 := awrite b (name_offset i) (nm' ++ [0])) in *. rewrite Dup. cbn [mbind option_bind]. clear Dup.
  assert (T2 : forall h, table_ok (set_heap h s1)) by (intros h; apply put_entry_table, T).
  destruct (bool_decide_reflect (nm' ∈ name_of <$> fs)) as [In|NIn];
    (do 2 eexists; split; [reflexivity|]; split; [apply T2|]; split; [lia|]; intros _; split; [done|]; right; exists fp; eexists).
  - exact D2.
  - apply (dir_append _ fs fp b1 nm' d n cb D2); fold i; try done; [apply I|unfold NAME_SIZE; lia].
Qed.

(** C27: the directory lists the files.  Adding a file with room left
    succeeds: the file appears behind those listed before, under the first 55
    characters of its name, with its length, the key to select and an entry for
    that key; a name that is listed already changes nothing in the listing.  The
    directory itself can be read from its own entry.  When all the slots are
    taken the file is refused. *)
Theorem fw_cfg_file_listed p filename nm d n s fs :
  table_ok s -> directory s fs -> Cutils.is_string filename nm -> is_uint 32 n ->
  let nm' := take 55 nm in
  exists ret s', fw_cfg_add_file p filename d n s = Some (ret, s') /\ table_ok s' /\
    (Z.of_nat (length fs) = FW_CFG_FILE_SLOTS -> ret = 0 /\ directory s' fs) /\
    (Z.of_nat (length fs) < FW_CFG_FILE_SLOTS -> ret = 1 /\
      directory s' (if bool_decide (nm' ∈ name_of <$> fs) then fs else fs ++ [(nm', d, n)])).
Proof.
  intros T D Hs Hn nm'. destruct (with_dir_ok p s fs T D) as (T1 & fp & b & D1).
  replace (fw_cfg_add_file p filename d n s) with (fw_cfg_add_file p filename d n (with_dir p s)); [by eapply add_file_dir|].
  pose proof (dir_files _ _ _ _ D1) as F. unfold fw_cfg_add_file at 1. rewrite F. cbn [mbind option_bind]. rewrite F.
  unfold fw_cfg_add_file. fold (with_dir p s). by rewrite F.
Qed.

(** ** Witnesses *)

(** A device with an empty table and two blocks of data. *)
Definition demo_fw : FWCfgState := fw_cfg_new {[ 1 := [81; 69; 77; 85]; 2 := [10; 20; 30] ]}.

Lemma demo_fw_table : table_ok demo_fw.
Proof. split; [done|]. repeat constructor. Qed.

Lemma fw_cfg_add_read_witness : exists s2,
  reads 6 (fw_cfg_io_writew 0 (fw_cfg_add_bytes 0 1 4 demo_fw).2) = Some ([81; 69; 77; 85; 0; 0], s2).
Proof.
  pose proof (fw_cfg_add_read 0 1 4 [81; 69; 77; 85] demo_fw 6 demo_fw_table) as H.
  destruct (fw_cfg_add_bytes 0 1 4 demo_fw) as [ret s1].
  destruct H as (_ & (s2 & E & _) & _); [unfold is_uint; lia|done|done|cbn; lia|lia|]. exists s2. exact E.
Defined.

(** The number of processors, two bytes, is overwritten. *)
Lemma fw_cfg_write_unchecked_witness : exists s1,
  writes [7] (fw_cfg_io_writew (FW_CFG_WRITE_CHANNEL |. 5) (fw_cfg_add_i16 9 5 1 demo_fw).2) = Some s1 /\
  heap s1 !! 9 = Some [7; 0] /\ fw_cfg_io_writeb 0 s1 = None.
Proof.
  destruct (fw_cfg_write_unchecked (fw_cfg_add_i16 9 5 1 demo_fw).2 (FW_CFG_WRITE_CHANNEL |. 5) 0 (mkEntry 2 (Some 9) None) 9 [1; 0] [7])
    as [_ H].
  - split; [done|]. repeat constructor.
  - destruct H as (s1 & E & Hh & N); try done; [repeat constructor; unfold is_uint; lia|].
    exists s1. split; [exact E|]. split; [rewrite Hh; apply lookup_insert_eq|exact N].
Defined.

Lemma fw_cfg_file_listed_witness : exists s',
  fw_cfg_add_file 50 [98; 111; 111; 116; 0] 2 3 demo_fw = Some (1, s') /\ directory s' [([98; 111; 111; 116], 2, 3)].
Proof.
  destruct (fw_cfg_file_listed 50 [98; 111; 111; 116; 0] [98; 111; 111; 116] 2 3 demo_fw [] demo_fw_table)
    as (ret & s' & E & _ & _ & L).
  - by left.
  - split; [by repeat constructor|by exists []].
  - unfold is_uint. lia.
  - destruct L as [-> L]; [done|]. exists s'. split; [exact E|exact L].
Defined.

End FwCfg.
