(* ===== verification/SMBus.v ===== *)
(** * The system management bus (src/qemu/hw/i2c.c, smbus.c, smbus_eeprom.c,
    pm_smbus.c)

    Four layers: the host controller with its registers ([PMSMBus]), the
    commands of the bus master and the protocol of a slave device ([SMBus]), the
    I2C bus below them ([I2C]), and the memory with the description of a memory
    module ([Eeprom]).  The callbacks that one layer offers to another are the
    classes [I2C.I2CSlaveInfo] and [SMBus.SMBusDeviceInfo]; the protocol
    of a slave is an instance of the first for every instance of the second.
    Null callbacks are [None].  A store outside of the buffer of a slave, and
    an access outside of the controller's block, is [None].

    The theorems: the bus is at rest between transactions, and a transaction
    never confuses a slave nor overruns its buffer; every command of the master
    is one call of the device, or one for each byte read; bytes, words and
    blocks that the guest stores in a memory through the registers of the
    controller are read back. *)
From S2P Require Import Prelude.
From stdpp Require Import list.
#[local] Open Scope Z_scope.
#[local] Open Scope c_scope.

Module I2C.

Inductive i2c_event := I2C_START_RECV | I2C_START_SEND | I2C_FINISH | I2C_NACK.

Class I2CSlaveInfo (S : Type) := {
  event : i2c_event -> S -> S;
  recv : S -> Z * S;
  send : Z -> S -> option (Z * S)
}.

Record i2c_slave (S : Type) := mkSlave { address : Z; slave : S }.
Arguments mkSlave {S} _ _.
Arguments address {S} _.
Arguments slave {S} _.

(** The devices of the bus and the place of the current one. *)
Record i2c_bus (S : Type) := mkBus { devs : list (i2c_slave S); current_dev : option nat }.
Arguments mkBus {S} _ _.
Arguments devs {S} _.
Arguments current_dev {S} _.

Section Bus.
Context {S : Type} `{I2CSlaveInfo S}.

Definition i2c_bus_busy (bus : i2c_bus S) : bool := match current_dev bus with Some _ => true | None => false end.

(** The state of device [i] replaced. *)
Definition put (i : nat) (s : S) (bus : i2c_bus S) : i2c_bus S :=
  mkBus (alter (fun d => mkSlave (address d) s) i (devs bus)) (current_dev bus).
Definition get (i : nat) (bus : i2c_bus S) : option S := slave <$> devs bus !! i.

Fixpoint find_addr (a : Z) (l : list (i2c_slave S)) (i : nat) : option nat :=
  match l with
  | [] => None
  | d :: l => if address d =? a then Some i else find_addr a l (Datatypes.S i)
  end.

Definition i2c_start_transfer (a : Z) (rcv : bool) (bus : i2c_bus S) : Z * i2c_bus S :=
  match find_addr a (devs bus) 0 with
  | None => (1, bus)
  | Some i =>
      let bus := mkBus (devs bus) (Some i) in
      match get i bus with
      | Some s => (0, put i (event (if rcv then I2C_START_RECV else I2C_START_SEND) s) bus)
      | None => (0, bus)
      end
  end.

(** What [f] does with the current device. *)
Definition on_current {A} (f : S -> A * S) (none : A) (bus : i2c_bus S) : A * i2c_bus S :=
  match current_dev bus with
  | None => (none, bus)
  | Some i =>
      match get i bus with
      | Some s => let '(a, s) := f s in (a, put i s bus)
      | None => (none, bus)
      end
  end.

Definition i2c_end_transfer (bus : i2c_bus S) : i2c_bus S :=
  let '(_, bus) := on_current (fun s => (tt, event I2C_FINISH s)) tt bus in
  mkBus (devs bus) None.

Definition i2c_send (data : Z) (bus : i2c_bus S) : option (Z * i2c_bus S) :=
  match current_dev bus with
  | None => Some (-1, bus)
  | Some i =>
      s ← get i bus;
      '(ret, s) ← send data s;
      Some (ret, put i s bus)
  end.

Definition i2c_recv (bus : i2c_bus S) : Z * i2c_bus S := on_current recv (-1) bus.

Definition i2c_nack (bus : i2c_bus S) : i2c_bus S :=
  (on_current (fun s => (tt, event I2C_NACK s)) tt bus).2.

Definition i2c_set_slave_address (i : nat) (a : Z) (bus : i2c_bus S) : i2c_bus S :=
  mkBus (alter (fun d => mkSlave (u8 a) (slave d)) i (devs bus)) (current_dev bus).

(** The saved address of the bus; the bus is loaded first and then every
    device. *)
Definition i2c_bus_pre_save (bus : i2c_bus S) : Z :=
  u8 (match current_dev bus with
      | Some i => match devs bus !! i with Some d => address d | None => -1 end
      | None => -1
      end).

Definition i2c_bus_post_load (bus : i2c_bus S) : i2c_bus S := mkBus (devs bus) None.

Definition i2c_slave_post_load (saved_address : Z) (bus : i2c_bus S) (i : nat) : i2c_bus S :=
  match devs bus !! i with
  | Some d => if saved_address =? address d then mkBus (devs bus) (Some i) else bus
  | None => bus
  end.

Definition i2c_load (saved_address : Z) (bus : i2c_bus S) : i2c_bus S :=
  fold_left (i2c_slave_post_load saved_address) (seq 0 (length (devs bus))) (i2c_bus_post_load bus).

(** Loading finds the current device of a bus whose devices have addresses of
    their own, none of them the mark for no device. *)
Lemma post_loads saved (cur : option nat) ds l : forall c0,
  (forall i d, ds !! i = Some d -> address d = saved -> cur = Some i) ->
  (forall k, cur = Some k -> exists d, ds !! k = Some d /\ address d = saved) ->
  fold_left (i2c_slave_post_load saved) l (mkBus ds c0) =
  mkBus ds (if existsb (fun k => bool_decide (cur = Some k)) l then cur else c0).
Proof.
  induction l as [|i l IH]; intros c0 U P; cbn [fold_left existsb]; [done|].
  unfold i2c_slave_post_load at 2. cbn [devs]. case_bool_decide as Ei; cbn [orb].
  - destruct (P i Ei) as (d & -> & ->). rewrite Z.eqb_refl, IH by done. clear IH. rewrite Ei. by destruct (existsb _ l).
  - destruct (ds !! i) as [d|] eqn:E; [|by apply IH]. destruct (Z.eqb_spec saved (address d)); [|by apply IH].
    by destruct (Ei (U i d E (eq_sym e))).
Qed.

Lemma i2c_save_load bus cur : NoDup (map address (devs bus)) -> Forall (fun d => 0 <= address d < 255) (devs bus) ->
  (forall i, current_dev bus = Some i -> (i < length (devs bus))%nat) ->
  i2c_load (i2c_bus_pre_save bus) (mkBus (devs bus) cur) = bus.
Proof.
  intros N F V. unfold i2c_load, i2c_bus_post_load. cbn [devs]. destruct bus as [ds c]. cbn [devs current_dev] in *.
  assert (A : forall i d, ds !! i = Some d -> 0 <= address d < 255) by (intros i d E; exact (Forall_lookup_1 _ _ _ _ F E)).
  assert (C : c = None \/ exists k d, c = Some k /\ ds !! k = Some d).
  { destruct c as [k|]; [right|by left]. destruct (lookup_lt_is_Some_2 ds k (V k eq_refl)) as [d E]. by exists k, d. }
  rewrite (post_loads _ c).
  - f_equal. destruct C as [->|(k & d & -> & E)]; [by destruct (existsb _ _)|].
    replace (existsb _ _) with true; [done|]. symmetry. apply existsb_exists. exists k. split; [|by apply bool_decide_eq_true].
    apply in_seq. apply lookup_lt_Some in E. lia.
  - intros i d E Ea. pose proof (A i d E) as Bi. unfold i2c_bus_pre_save in Ea. cbn [devs current_dev] in Ea.
    destruct C as [->|(k & d' & -> & E')]; [change (u8 (-1)) with 255 in Ea; lia|]. rewrite E', wrap_small in Ea by (pose proof (A k d' E'); unfold is_uint; lia).
    f_equal. symmetry. refine (NoDup_lookup _ _ _ (address d) N _ _); rewrite list_lookup_fmap; [by rewrite E|by rewrite E'; cbn; rewrite Ea].
  - intros k ->. destruct C as [|(k' & d & [= <-] & E)]; [done|]. exists d. split; [done|]. unfold i2c_bus_pre_save. cbn [devs current_dev].
    rewrite E, wrap_small; [done|]. pose proof (A k d E). unfold is_uint. lia.
Qed.

(** *** Transfers to a device that answers *)

(** The bus during a transfer to device [i] in state [s]. *)
Definition focus (i : nat) (s : S) (bus : i2c_bus S) : i2c_bus S :=
  mkBus (alter (fun d => mkSlave (address d) s) i (devs bus)) (Some i).
(** The bus after it. *)
Definition settle (i : nat) (s : S) (bus : i2c_bus S) : i2c_bus S :=
  mkBus (alter (fun d => mkSlave (address d) s) i (devs bus)) None.

Lemma alter_twice i (s s' : S) (l : list (i2c_slave S)) :
  alter (fun d => mkSlave (address d) s') i (alter (fun d => mkSlave (address d) s) i l) =
  alter (fun d => mkSlave (address d) s') i l.
Proof. rewrite list_alter_alter_eq. by apply list_alter_ext. Qed.

Lemma get_focus i s s0 bus : get i bus = Some s0 -> get i (focus i s bus) = Some s.
Proof.
  unfold get, focus. cbn. rewrite list_lookup_alter_eq. by destruct (devs bus !! i).
Qed.

Lemma put_focus i s s' bus : put i s' (focus i s bus) = focus i s' bus.
Proof. unfold put, focus. cbn. by rewrite alter_twice. Qed.

Lemma find_addr_alter a i (s : S) : forall l n, find_addr a (alter (fun d => mkSlave (address d) s) i l) n = find_addr a l n.
Proof.
  revert i. induction i as [|i IH]; intros [|d l] n; cbn; try done. by rewrite IH.
Qed.

Lemma find_addr_get a l : forall n i, find_addr a l n = Some i ->
  exists d, (n <= i)%nat /\ l !! (i - n)%nat = Some d /\ address d = a.
Proof.
  induction l as [|d l IH]; intros n i E; cbn in E; [done|]. destruct (Z.eqb_spec (address d) a).
  - injection E as <-. exists d. rewrite Nat.sub_diag. done.
  - apply IH in E as (d' & L & E & A). exists d'. split; [lia|]. replace (i - n)%nat with (Datatypes.S (i - Datatypes.S n)) by lia. done.
Qed.

Section Answers.
Context (a : Z) (i : nat) (s0 : S) (bus : i2c_bus S).
Hypothesis answers : find_addr a (devs bus) 0 = Some i.
Hypothesis present : get i bus = Some s0.

Lemma start_focus rcv : (i2c_start_transfer a rcv bus).2 = focus i (event (if rcv then I2C_START_RECV else I2C_START_SEND) s0) bus.
Proof. unfold i2c_start_transfer. rewrite answers. unfold get in *. cbn. rewrite present. done. Qed.

Lemma restart_focus s rcv :
  (i2c_start_transfer a rcv (focus i s bus)).2 = focus i (event (if rcv then I2C_START_RECV else I2C_START_SEND) s) bus.
Proof.
  unfold i2c_start_transfer. cbn [devs focus]. rewrite find_addr_alter, answers.
  change (mkBus (alter (fun d => mkSlave (address d) s) i (devs bus)) (Some i)) with (focus i s bus).
  rewrite (get_focus i s s0) by done. cbn [snd]. apply put_focus.
Qed.

Lemma send_focus x s : i2c_send x (focus i s bus) = '(ret, s') ← send x s; Some (ret, focus i s' bus).
Proof.
  unfold i2c_send. cbn [current_dev focus].
  change (mkBus (alter (fun d => mkSlave (address d) s) i (devs bus)) (Some i)) with (focus i s bus).
  rewrite (get_focus i s s0) by done. cbn [mbind option_bind]. destruct (send x s) as [[ret s']|]; [|done]. cbn. by rewrite put_focus.
Qed.

Lemma on_current_focus {A} (f : S -> A * S) none s : on_current f none (focus i s bus) = ((f s).1, focus i (f s).2 bus).
Proof.
  unfold on_current. cbn [current_dev focus].
  change (mkBus (alter (fun d => mkSlave (address d) s) i (devs bus)) (Some i)) with (focus i s bus).
  rewrite (get_focus i s s0) by done. destruct (f s). cbn. by rewrite put_focus.
Qed.

Lemma end_focus s : i2c_end_transfer (focus i s bus) = settle i (event I2C_FINISH s) bus.
Proof. unfold i2c_end_transfer. by rewrite on_current_focus. Qed.

Lemma nack_focus s : i2c_nack (focus i s bus) = focus i (event I2C_NACK s) bus.
Proof. unfold i2c_nack. by rewrite on_current_focus. Qed.

Lemma recv_focus s : i2c_recv (focus i s bus) = ((recv s).1, focus i (recv s).2 bus).
Proof. apply on_current_focus. Qed.

End Answers.

(** *** Transfers that nobody answers *)

Section Silent.
Context (a : Z) (bus : i2c_bus S).
Hypothesis silent : find_addr a (devs bus) 0 = None.
Hypothesis resting : current_dev bus = None.

Lemma start_silent rcv : i2c_start_transfer a rcv bus = (1, bus).
Proof. unfold i2c_start_transfer. by rewrite silent. Qed.
Lemma send_silent x : i2c_send x bus = Some (-1, bus).
Proof. unfold i2c_send. by rewrite resting. Qed.
Lemma recv_silent : i2c_recv bus = (-1, bus).
Proof. unfold i2c_recv, on_current. by rewrite resting. Qed.
Lemma nack_silent : i2c_nack bus = bus.
Proof. unfold i2c_nack, on_current. by rewrite resting. Qed.
Lemma end_silent : i2c_end_transfer bus = bus.
Proof. clear silent. unfold i2c_end_transfer, on_current. rewrite resting. destruct bus. cbn in *. by rewrite resting. Qed.

End Silent.

End Bus.

End I2C.
Export I2C.

Module SMBus.

Inductive Mode := SMBUS_IDLE | SMBUS_WRITE_DATA | SMBUS_RECV_BYTE | SMBUS_READ_DATA | SMBUS_DONE | SMBUS_CONFUSED.

Class SMBusDeviceInfo (D : Type) := {
  quick_cmd : option (Z -> D -> D);
  send_byte : option (Z -> D -> D);
  receive_byte : option (D -> Z * D);
  write_data : option (Z -> list Z -> D -> D);
  read_data : option (Z -> Z -> D -> Z * D)
}.

Record SMBusDevice (D : Type) := mkDev {
  mode : Mode;
  data_len : Z;
  data_buf : list Z;
  command : Z;
  device : D
}.
Arguments mkDev {D} _ _ _ _ _.
Arguments mode {D} _.
Arguments data_len {D} _.
Arguments data_buf {D} _.
Arguments command {D} _.
Arguments device {D} _.

Section Slave.
Context {D : Type} `{SMBusDeviceInfo D}.
Implicit Types dev : SMBusDevice D.

Definition set_mode (v : Mode) dev := mkDev v (data_len dev) (data_buf dev) (command dev) (device dev).
Definition set_data_len (v : Z) dev := mkDev (mode dev) v (data_buf dev) (command dev) (device dev).
Definition set_data_buf (v : list Z) dev := mkDev (mode dev) (data_len dev) v (command dev) (device dev).
Definition set_command (v : Z) dev := mkDev (mode dev) (data_len dev) (data_buf dev) v (device dev).
Definition set_device (v : D) dev := mkDev (mode dev) (data_len dev) (data_buf dev) (command dev) v.

Definition smbus_do_quick_cmd (rcv : Z) dev :=
  match quick_cmd with
  | Some f => set_device (f rcv (device dev)) dev
  | None => dev
  end.

Definition smbus_do_write dev :=
  if data_len dev =? 0 then smbus_do_quick_cmd 0 dev
  else if data_len dev =? 1 then
    match send_byte with
    | Some f => set_device (f (aget (data_buf dev) 0) (device dev)) dev
    | None => dev
    end
  else
    let dev := set_command (aget (data_buf dev) 0) dev in
    match write_data with
    | Some f => set_device (f (command dev) (aread (data_buf dev) 1 (Z.to_nat (data_len dev - 1))) (device dev)) dev
    | None => dev
    end.

Definition smbus_i2c_event (e : i2c_event) dev : SMBusDevice D :=
  match e with
  | I2C_START_SEND =>
      match mode dev with
      | SMBUS_IDLE => set_mode SMBUS_WRITE_DATA dev
      | _ => set_mode SMBUS_CONFUSED dev
      end
  | I2C_START_RECV =>
      match mode dev with
      | SMBUS_IDLE => set_mode SMBUS_RECV_BYTE dev
      | SMBUS_WRITE_DATA =>
          if data_len dev =? 0 then set_mode SMBUS_CONFUSED dev
          else
            let dev := if 1 <? data_len dev then smbus_do_write dev else set_command (aget (data_buf dev) 0) dev in
            set_mode SMBUS_READ_DATA (set_data_len 0 dev)
      | _ => set_mode SMBUS_CONFUSED dev
      end
  | I2C_FINISH =>
      let dev :=
        match mode dev with
        | SMBUS_WRITE_DATA => smbus_do_write dev
        | SMBUS_RECV_BYTE => smbus_do_quick_cmd 1 dev
        | _ => dev
        end in
      set_data_len 0 (set_mode SMBUS_IDLE dev)
  | I2C_NACK =>
      match mode dev with
      | SMBUS_DONE => dev
      | SMBUS_READ_DATA => set_mode SMBUS_DONE dev
      | _ => set_mode SMBUS_CONFUSED dev
      end
  end.

Definition smbus_i2c_recv dev : Z * SMBusDevice D :=
  match mode dev with
  | SMBUS_RECV_BYTE =>
      let '(ret, dev) :=
        match receive_byte with
        | Some f => let '(ret, d) := f (device dev) in (ret, set_device d dev)
        | None => (0, dev)
        end in
      (ret, set_mode SMBUS_DONE dev)
  | SMBUS_READ_DATA =>
      match read_data with
      | Some f =>
          let '(ret, d) := f (command dev) (data_len dev) (device dev) in
          (ret, set_data_len (data_len dev + 1) (set_device d dev))
      | None => (0, dev)
      end
  | _ => (0, set_mode SMBUS_CONFUSED dev)
  end.

Definition smbus_i2c_send (data : Z) dev : option (Z * SMBusDevice D) :=
  match mode dev with
  | SMBUS_WRITE_DATA =>
      if data_len dev <? Z.of_nat (length (data_buf dev)) then
        Some (0, set_data_len (data_len dev + 1) (set_data_buf (aset (data_buf dev) (data_len dev) data) dev))
      else None
  | _ => Some (0, dev)
  end.

#[global] Instance smbus_slave : I2CSlaveInfo (SMBusDevice D) := {
  event := smbus_i2c_event;
  recv := smbus_i2c_recv;
  send := smbus_i2c_send
}.

End Slave.

(** ** Commands of the master *)

Section Master.
Context {S : Type} `{I2CSlaveInfo S}.
Implicit Types bus : i2c_bus S.

Definition smbus_quick_command (addr : Z) (read : bool) bus : i2c_bus S :=
  i2c_end_transfer (i2c_start_transfer addr read bus).2.

Definition smbus_receive_byte (addr : Z) bus : Z * i2c_bus S :=
  let '(_, bus) := i2c_start_transfer addr true bus in
  let '(data, bus) := i2c_recv bus in
  (u8 data, i2c_end_transfer (i2c_nack bus)).

Definition smbus_send_byte (addr data : Z) bus : option (i2c_bus S) :=
  let '(_, bus) := i2c_start_transfer addr false bus in
  '(_, bus) ← i2c_send data bus;
  Some (i2c_end_transfer bus).

Definition smbus_read_byte (addr command : Z) bus : option (Z * i2c_bus S) :=
  let '(_, bus) := i2c_start_transfer addr false bus in
  '(_, bus) ← i2c_send command bus;
  let '(_, bus) := i2c_start_transfer addr true bus in
  let '(data, bus) := i2c_recv bus in
  Some (u8 data, i2c_end_transfer (i2c_nack bus)).

Definition smbus_write_byte (addr command data : Z) bus : option (i2c_bus S) :=
  let '(_, bus) := i2c_start_transfer addr false bus in
  '(_, bus) ← i2c_send command bus;
  '(_, bus) ← i2c_send data bus;
  Some (i2c_end_transfer bus).

Definition smbus_read_word (addr command : Z) bus : option (Z * i2c_bus S) :=
  let '(_, bus) := i2c_start_transfer addr false bus in
  '(_, bus) ← i2c_send command bus;
  let '(_, bus) := i2c_start_transfer addr true bus in
  let '(lo, bus) := i2c_recv bus in
  let '(hi, bus) := i2c_recv bus in
  Some (u16 (u16 lo |. (hi <<. 8)), i2c_end_transfer (i2c_nack bus)).

Definition smbus_write_word (addr command data : Z) bus : option (i2c_bus S) :=
  let '(_, bus) := i2c_start_transfer addr false bus in
  '(_, bus) ← i2c_send command bus;
  '(_, bus) ← i2c_send (data &. 0xff) bus;
  '(_, bus) ← i2c_send (u8 (data >>. 8)) bus;
  Some (i2c_end_transfer bus).

(** [n] bytes received into [data] from index [i] on, and [n] sent.  An access
    outside the caller's buffer is a failure, [None]. *)
Fixpoint recv_loop (n : nat) (i : Z) (data : list Z) bus : option (list Z * i2c_bus S) :=
  match n with
  | O => Some (data, bus)
  | Datatypes.S n =>
      let '(v, bus) := i2c_recv bus in
      _ ← data !! Z.to_nat i;
      recv_loop n (i + 1) (aset data i (u8 v)) bus
  end.

Fixpoint send_loop (n : nat) (i : Z) (data : list Z) bus : option (i2c_bus S) :=
  match n with
  | O => Some bus
  | Datatypes.S n =>
      v ← data !! Z.to_nat i;
      '(_, bus) ← i2c_send v bus;
      send_loop n (i + 1) data bus
  end.

Definition smbus_read_block (addr command : Z) (data : list Z) bus : option (Z * list Z * i2c_bus S) :=
  let '(_, bus) := i2c_start_transfer addr false bus in
  '(_, bus) ← i2c_send command bus;
  let '(_, bus) := i2c_start_transfer addr true bus in
  let '(len, bus) := i2c_recv bus in
  let len := if 32 <? len then 0 else len in
  '(data, bus) ← recv_loop (Z.to_nat len) 0 data bus;
  Some (len, data, i2c_end_transfer (i2c_nack bus)).

Definition smbus_write_block (addr command : Z) (data : list Z) (len : Z) bus : option (i2c_bus S) :=
  let len := if 32 <? len then 32 else len in
  let '(_, bus) := i2c_start_transfer addr false bus in
  '(_, bus) ← i2c_send command bus;
  '(_, bus) ← i2c_send (u8 len) bus;
  bus ← send_loop (Z.to_nat len) 0 data bus;
  Some (i2c_end_transfer bus).

End Master.

(** ** The protocol of a slave *)

Section Protocol.
Context {D : Type} `{SMBusDeviceInfo D}.
Implicit Types dev : SMBusDevice D.

(** A slave between transactions. *)
Definition idle dev : Prop := mode dev = SMBUS_IDLE /\ data_len dev = 0 /\ length (data_buf dev) = 34%nat.

(** What the device is told: by a write of the bytes [bs], and by a read. *)
Definition dev_write (bs : list Z) (d : D) : D :=
  match bs with
  | [] => match quick_cmd with Some f => f 0 d | None => d end
  | [b] => match send_byte with Some f => f b d | None => d end
  | c :: bs => match write_data with Some f => f c bs d | None => d end
  end.

Definition dev_quick_read (d : D) : D := match quick_cmd with Some f => f 1 d | None => d end.
Definition dev_receive (d : D) : Z * D := match receive_byte with Some f => f d | None => (0, d) end.

(** [k] bytes read with command [c], the first of them number [n]. *)
Fixpoint dev_read (c n : Z) (k : nat) (d : D) : list Z * D :=
  match k with
  | O => ([], d)
  | S k =>
      let '(v, d) := match read_data with Some f => f c n d | None => (0, d) end in
      let '(vs, d) := dev_read c (match read_data with Some _ => n + 1 | None => n end) k d in
      (v :: vs, d)
  end.

Fixpoint sends (bs : list Z) dev : option (SMBusDevice D) :=
  match bs with
  | [] => Some dev
  | b :: bs => '(_, dev) ← send b dev; sends bs dev
  end.

Fixpoint recvs (k : nat) dev : list Z * SMBusDevice D :=
  match k with
  | O => ([], dev)
  | S k =>
      let '(v, dev) := recv dev in
      let '(vs, dev) := recvs k dev in
      (v :: vs, dev)
  end.

(** Bytes sent are collected in the buffer. *)
Lemma sends_collect bs : forall dev, mode dev = SMBUS_WRITE_DATA -> 0 <= data_len dev ->
  data_len dev + Z.of_nat (length bs) <= Z.of_nat (length (data_buf dev)) ->
  sends bs dev = Some (mkDev SMBUS_WRITE_DATA (data_len dev + Z.of_nat (length bs))
                         (awrite (data_buf dev) (data_len dev) bs) (command dev) (device dev)).
Proof.
  induction bs as [|b bs IH]; intros dev M L B; cbn [sends length awrite] in *.
  { rewrite Z.add_0_r. destruct dev. cbn in *. by subst. }
  cbn [send smbus_slave]. unfold smbus_i2c_send. rewrite M, (proj2 (Z.ltb_lt _ _)) by lia. cbn [mbind option_bind].
  rewrite IH; cbn; rewrite ?length_aset; try done; try lia. do 2 f_equal. lia.
Qed.

(** A write transaction hands the bytes to the device. *)
Lemma write_transaction bs dev : idle dev -> (length bs <= 34)%nat ->
  exists dev', sends bs (event I2C_START_SEND dev) = Some dev' /\ idle (event I2C_FINISH dev') /\
    device (event I2C_FINISH dev') = dev_write bs (device dev).
Proof.
  intros (M & L & B) Hb. cbn [event smbus_slave smbus_i2c_event]. rewrite M.
  rewrite sends_collect; cbn [mode data_len data_buf set_mode]; [|done|lia|lia]. eexists. split; [reflexivity|]. cbn [mode].
  rewrite L, Z.add_0_l. unfold smbus_do_write. cbn [data_len data_buf].
  assert (G : aread (awrite (data_buf dev) 0 bs) 0 (length bs) = bs) by (apply aread_awrite_eq; lia).
  assert (LB : length (awrite (data_buf dev) 0 bs) = 34%nat) by (by rewrite length_awrite).
  revert G LB. generalize (awrite (data_buf dev) 0 bs). intros buf G LB. destruct bs as [|b [|c bs]].
  - cbn [length Z.of_nat Z.eqb]. unfold smbus_do_quick_cmd. cbn [dev_write]. destruct quick_cmd; cbn; by repeat split.
  - assert (Ab : aget buf 0 = b) by (by injection G).
    cbn [length Z.of_nat Pos.of_succ_nat Z.eqb Pos.eqb dev_write]. rewrite Ab. destruct send_byte; cbn; by repeat split.
  - rewrite !(proj2 (Z.eqb_neq _ _)) by (cbn [length]; lia). assert (Ab : aget buf 0 = b) by (by injection G).
    change (length (b :: c :: bs)) with (1 + length (c :: bs))%nat in G. rewrite aread_add in G.
    apply (f_equal (drop 1)) in G. rewrite drop_app_length' in G by (by rewrite length_aread). cbn [drop] in G.
    rewrite Ab. cbn [set_command command data_buf data_len dev_write].
    replace (Z.to_nat (Z.of_nat (length (b :: c :: bs)) - 1)) with (length (c :: bs)) by (cbn [length]; lia). change (0 + Z.of_nat 1) with 1 in G. rewrite G.
    destruct write_data; cbn; by repeat split.
Qed.

(** A read transaction: the command is sent, then the bytes are received. *)
Lemma recvs_read k : forall dev, mode dev = SMBUS_READ_DATA ->
  let r := recvs k dev in
  fst r = fst (dev_read (command dev) (data_len dev) k (device dev)) /\
  device (snd r) = snd (dev_read (command dev) (data_len dev) k (device dev)) /\
  mode (snd r) = SMBUS_READ_DATA /\ data_buf (snd r) = data_buf dev.
Proof.
  induction k as [|k IH]; intros dev M; cbn [recvs dev_read]; [done|]. cbn [recv smbus_slave]. unfold smbus_i2c_recv. rewrite M.
  destruct read_data as [f|].
  - destruct (f (command dev) (data_len dev) (device dev)) as [v d].
    specialize (IH (set_data_len (data_len dev + 1) (set_device d dev)) M). cbn in IH.
    destruct (recvs k _) as [vs dev'], (dev_read _ _ k d) as [ws d']. cbn in *. destruct IH as (-> & -> & ? & ?). done.
  - specialize (IH dev M). destruct (recvs k dev) as [vs dev'], (dev_read _ _ k _) as [ws d']. cbn in *. destruct IH as (-> & -> & ? & ?). done.
Qed.

Lemma read_transaction c k dev : idle dev ->
  exists dev1, sends [c] (event I2C_START_SEND dev) = Some dev1 /\
    let r := recvs k (event I2C_START_RECV dev1) in
    let dev' := event I2C_FINISH (event I2C_NACK (snd r)) in
    fst r = fst (dev_read c 0 k (device dev)) /\ idle dev' /\ device dev' = snd (dev_read c 0 k (device dev)).
Proof.
  intros (M & L & B). cbn [event smbus_slave smbus_i2c_event]. rewrite M.
  rewrite sends_collect; cbn [mode data_len data_buf set_mode]; [|done|lia|cbn; lia]. eexists. split; [reflexivity|]. cbn [mode data_len].
  rewrite L. change (0 + Z.of_nat (length [c])) with 1. change (1 =? 0) with false. change (1 <? 1) with false. cbn [data_buf].
  assert (A : aget (awrite (data_buf dev) 0 [c]) 0 = c).
  { assert (G : aread (awrite (data_buf dev) 0 [c]) 0 1 = [c]) by (apply aread_awrite_eq; cbn; lia). by injection G. }
  rewrite A. set (dev2 := set_mode SMBUS_READ_DATA _).
  destruct (recvs_read k dev2 eq_refl) as (R1 & R2 & R3 & R4). cbn [command data_len device dev2 set_mode set_data_len set_command] in R1, R2.
  split; [exact R1|]. rewrite R3. cbn [mode set_mode]. split; [|exact R2]. split; [done|]. split; [done|].
  cbn [data_buf set_mode set_data_len]. rewrite R4. unfold dev2. cbn [data_buf set_mode set_data_len set_command]. by rewrite length_awrite.
Qed.

(** A byte received, and the two quick commands. *)
Lemma receive_transaction dev : idle dev ->
  let r := recv (event I2C_START_RECV dev) in
  let dev' := event I2C_FINISH (event I2C_NACK (snd r)) in
  fst r = fst (dev_receive (device dev)) /\ idle dev' /\ device dev' = snd (dev_receive (device dev)).
Proof.
  intros (M & L & B). cbn [event recv smbus_slave smbus_i2c_event]. rewrite M. unfold smbus_i2c_recv, dev_receive. cbn [mode set_mode].
  destruct receive_byte as [f|]; [destruct (f _) as [v d]|]; cbn; by repeat split.
Qed.

Lemma quick_transaction (read : bool) dev : idle dev ->
  let dev' := event I2C_FINISH (event (if read then I2C_START_RECV else I2C_START_SEND) dev) in
  idle dev' /\ device dev' = (if read then dev_quick_read (device dev) else dev_write [] (device dev)).
Proof.
  intros (M & L & B). unfold dev_quick_read. destruct read; cbn [event smbus_slave smbus_i2c_event]; rewrite M; cbn [mode set_mode];
    unfold smbus_do_write, smbus_do_quick_cmd; cbn [data_len set_mode]; rewrite ?L; cbn [Z.eqb dev_write];
    destruct quick_cmd; cbn; by repeat split.
Qed.

(** ** What the commands of the master do *)

Implicit Types bus : i2c_bus (SMBusDevice D).

Definition at_rest bus : Prop := current_dev bus = None /\ Forall (fun d => idle (slave d)) (devs bus).

(** A write of [bs] to address [a], and a read of the bytes [vs]: when nobody
    answers nothing happens and the bus reads as -1. *)
Definition written (a : Z) (bs : list Z) bus bus' : Prop :=
  match find_addr a (devs bus) 0 with
  | None => bus' = bus
  | Some i => exists dev dev', get i bus = Some dev /\ bus' = settle i dev' bus /\ idle dev' /\
      device dev' = dev_write bs (device dev)
  end.

Definition readout (a c : Z) (vs : list Z) bus bus' : Prop :=
  match find_addr a (devs bus) 0 with
  | None => vs = replicate (length vs) (-1) /\ bus' = bus
  | Some i => exists dev dev', get i bus = Some dev /\ bus' = settle i dev' bus /\ idle dev' /\
      dev_read c 0 (length vs) (device dev) = (vs, device dev')
  end.

Fixpoint i2c_sends (bs : list Z) bus : option (i2c_bus (SMBusDevice D)) :=
  match bs with
  | [] => Some bus
  | b :: bs => '(_, bus) ← i2c_send b bus; i2c_sends bs bus
  end.

Fixpoint i2c_recvs (k : nat) bus : list Z * i2c_bus (SMBusDevice D) :=
  match k with
  | O => ([], bus)
  | S k =>
      let '(v, bus) := i2c_recv bus in
      let '(vs, bus) := i2c_recvs k bus in
      (v :: vs, bus)
  end.

Lemma found_present a bus i : find_addr a (devs bus) 0 = Some i -> at_rest bus -> exists dev, get i bus = Some dev /\ idle dev.
Proof.
  intros E [_ F]. apply find_addr_get in E as (d & _ & E & _). rewrite Nat.sub_0_r in E.
  exists (slave d). unfold get. rewrite E. split; [done|]. exact (Forall_lookup_1 _ _ _ _ F E).
Qed.

Lemma settle_rest i dev' bus : at_rest bus -> idle dev' -> at_rest (settle i dev' bus).
Proof. intros [_ F] I. split; [done|]. cbn. apply Forall_alter; [done|]. done. Qed.

Lemma i2c_sends_focus i dev0 bus bs : get i bus = Some dev0 -> forall dev,
  i2c_sends bs (focus i dev bus) = dev' ← sends bs dev; Some (focus i dev' bus).
Proof.
  intros P. induction bs as [|b bs IH]; intros dev; cbn [i2c_sends sends]; [done|].
  rewrite (send_focus i dev0 bus P). destruct (send b dev) as [[r dev1]|]; cbn; [apply IH|done].
Qed.

Lemma i2c_recvs_focus i dev0 bus k : get i bus = Some dev0 -> forall dev,
  i2c_recvs k (focus i dev bus) = (fst (recvs k dev), focus i (snd (recvs k dev)) bus).
Proof.
  intros P. induction k as [|k IH]; intros dev; cbn [i2c_recvs recvs]; [done|].
  rewrite (recv_focus i dev0 bus P). destruct (recv dev) as [v dev1]. cbn. rewrite IH. by destruct (recvs k dev1).
Qed.

Lemma i2c_silent bus : current_dev bus = None -> (forall bs, i2c_sends bs bus = Some bus) /\ (forall k, i2c_recvs k bus = (replicate k (-1), bus)).
Proof.
  intros R. split; [induction bs as [|b bs IH]|induction k as [|k IH]]; cbn [i2c_sends i2c_recvs replicate]; try done.
  - by rewrite send_silent.
  - by rewrite recv_silent, IH.
Qed.

Lemma write_command a bs bus : at_rest bus -> (length bs <= 34)%nat ->
  exists bus1, i2c_sends bs (i2c_start_transfer a false bus).2 = Some bus1 /\ written a bs bus (i2c_end_transfer bus1) /\
    at_rest (i2c_end_transfer bus1).
Proof.
  intros R L. unfold written. destruct (find_addr a (devs bus) 0) as [i|] eqn:F.
  - destruct (found_present a bus i F R) as (dev & P & I). rewrite (start_focus a i dev bus F P false), (i2c_sends_focus i dev bus bs P).
    destruct (write_transaction bs dev I L) as (dev1 & -> & I1 & E1). cbn [mbind option_bind]. eexists. split; [reflexivity|].
    rewrite (end_focus i dev bus P). split; [|by apply settle_rest]. by exists dev, (event I2C_FINISH dev1).
  - rewrite start_silent by done. cbn [snd]. destruct R as [R1 R2]. rewrite (proj1 (i2c_silent bus R1)). eexists. split; [reflexivity|].
    by rewrite end_silent.
Qed.

(** The part of a read up to the last byte received. *)
Lemma read_command a c k bus : at_rest bus ->
  exists bus1, i2c_sends [c] (i2c_start_transfer a false bus).2 = Some bus1 /\
    let r := i2c_recvs k (i2c_start_transfer a true bus1).2 in
    let bus' := i2c_end_transfer (i2c_nack (snd r)) in
    length (fst r) = k /\ readout a c (fst r) bus bus' /\ at_rest bus'.
Proof.
  intros R. unfold readout. destruct (find_addr a (devs bus) 0) as [i|] eqn:F.
  - destruct (found_present a bus i F R) as (dev & P & I). rewrite (start_focus a i dev bus F P false), (i2c_sends_focus i dev bus [c] P).
    destruct (read_transaction c k dev I) as (dev1 & -> & E1 & I1 & D1). cbn [mbind option_bind]. eexists. split; [reflexivity|].
    rewrite (restart_focus a i dev bus F P dev1 true), (i2c_recvs_focus i dev bus k P). cbn [fst snd].
    rewrite (nack_focus i dev bus P), (end_focus i dev bus P).
    assert (Lk : length (fst (recvs k (event I2C_START_RECV dev1))) = k).
    { generalize (event I2C_START_RECV dev1). clear. induction k as [|k IH]; intros dev; cbn [recvs]; [done|].
      destruct (recv dev) as [v dev']. specialize (IH dev'). destruct (recvs k dev'). cbn in *. by rewrite IH. }
    cbv zeta. split; [done|]. split; [|by apply settle_rest]. do 2 eexists. split; [done|]. split; [reflexivity|]. split; [done|].
    rewrite Lk. rewrite E1, D1. apply surjective_pairing.
  - rewrite start_silent by done. cbn [snd]. destruct R as [R1 R2]. rewrite (proj1 (i2c_silent bus R1)). eexists. split; [reflexivity|].
    rewrite start_silent by done. cbn [snd]. rewrite (proj2 (i2c_silent bus R1)). cbn [fst snd].
    rewrite nack_silent, end_silent by done. rewrite length_replicate. done.
Qed.

(** Follows the bytes that a command sends. *)
Ltac sent_bytes E :=
  cbn [snd i2c_sends] in E;
  repeat (let b := fresh "b" in let E1 := fresh "E" in
    apply bind_Some in E as ([? b] & E1 & E); cbn beta iota in E; rewrite E1; cbn [mbind option_bind]; clear E1);
  injection E as ->.

Lemma send_byte_spec a v bus : at_rest bus ->
  exists bus', smbus_send_byte a v bus = Some bus' /\ written a [v] bus bus' /\ at_rest bus'.
Proof.
  intros R. destruct (write_command a [v] bus R ltac:(cbn; lia)) as (bus1 & E & W & R1). unfold smbus_send_byte.
  destruct (i2c_start_transfer a false bus) as [r b]. sent_bytes E. by eexists.
Qed.

Lemma write_byte_spec a c v bus : at_rest bus ->
  exists bus', smbus_write_byte a c v bus = Some bus' /\ written a [c; v] bus bus' /\ at_rest bus'.
Proof.
  intros R. destruct (write_command a [c; v] bus R ltac:(cbn; lia)) as (bus1 & E & W & R1). unfold smbus_write_byte.
  destruct (i2c_start_transfer a false bus) as [r b]. sent_bytes E. by eexists.
Qed.

Lemma write_word_spec a c v bus : at_rest bus ->
  exists bus', smbus_write_word a c v bus = Some bus' /\ written a [c; v &. 0xff; u8 (v >>. 8)] bus bus' /\ at_rest bus'.
Proof.
  intros R. destruct (write_command a [c; v &. 0xff; u8 (v >>. 8)] bus R ltac:(cbn; lia)) as (bus1 & E & W & R1). unfold smbus_write_word.
  destruct (i2c_start_transfer a false bus) as [r b]. sent_bytes E. by eexists.
Qed.

Lemma aread_first data i n : aread data i (S n) = aget data i :: aread data (i + 1) n.
Proof. change (S n) with (1 + n)%nat. rewrite aread_add. cbn [Z.of_nat]. unfold aread at 1. cbn. by rewrite Z.add_0_r. Qed.

Lemma in_buffer data i n : 0 <= i -> i + Z.of_nat (S n) <= Z.of_nat (length data) -> data !! Z.to_nat i = Some (aget data i).
Proof.
  intros Hi Hl. destruct (lookup_lt_is_Some_2 data (Z.to_nat i)) as [v E]; [lia|]. unfold aget. by rewrite (nth_lookup_Some _ _ _ _ E).
Qed.

Lemma send_loop_sends n : forall i data bus, 0 <= i -> i + Z.of_nat n <= Z.of_nat (length data) ->
  send_loop n i data bus = i2c_sends (aread data i n) bus.
Proof.
  induction n as [|n IH]; intros i data bus Hi Hl; [done|]. rewrite aread_first. cbn [send_loop i2c_sends].
  rewrite (in_buffer data i n) by done. cbn [mbind option_bind].
  destruct (i2c_send (aget data i) bus) as [[? b]|]; cbn; [apply IH; lia|done].
Qed.

Lemma write_block_spec a c data n bus : at_rest bus -> 0 <= n -> length data = 32%nat ->
  let k := Z.min n 32 in
  exists bus', smbus_write_block a c data n bus = Some bus' /\ written a (c :: u8 k :: aread data 0 (Z.to_nat k)) bus bus' /\ at_rest bus'.
Proof.
  intros R Hn Hd k. destruct (write_command a (c :: u8 k :: aread data 0 (Z.to_nat k)) bus R) as (bus1 & E & W & R1).
  { cbn [length]. rewrite length_aread. unfold k. lia. }
  unfold smbus_write_block. replace (if 32 <? n then 32 else n) with k by (unfold k; zcases; lia).
  destruct (i2c_start_transfer a false bus) as [r b]. cbn [snd i2c_sends] in E.
  apply bind_Some in E as ([? b1] & E1 & E). rewrite E1. cbn [mbind option_bind] in *. clear E1.
  apply bind_Some in E as ([? b2] & E1 & E). rewrite E1. cbn [mbind option_bind] in *. rewrite send_loop_sends, E by (unfold k; lia). by eexists.
Qed.

Lemma read_byte_spec a c bus : at_rest bus ->
  exists v bus', smbus_read_byte a c bus = Some (u8 v, bus') /\ readout a c [v] bus bus' /\ at_rest bus'.
Proof.
  intros R. destruct (read_command a c 1 bus R) as (bus1 & E & L & W & R1). unfold smbus_read_byte.
  destruct (i2c_start_transfer a false bus) as [r b]. sent_bytes E. destruct (i2c_start_transfer a true bus1) as [r' b'].
  cbn [snd i2c_recvs] in *. destruct (i2c_recv b') as [v b2]. cbn [fst snd] in *. by exists v; eexists.
Qed.

Lemma read_word_spec a c bus : at_rest bus ->
  exists v w bus', smbus_read_word a c bus = Some (u16 (u16 v |. (w <<. 8)), bus') /\ readout a c [v; w] bus bus' /\ at_rest bus'.
Proof.
  intros R. destruct (read_command a c 2 bus R) as (bus1 & E & L & W & R1). unfold smbus_read_word.
  destruct (i2c_start_transfer a false bus) as [r b]. sent_bytes E. destruct (i2c_start_transfer a true bus1) as [r' b'].
  cbn [snd i2c_recvs] in *. destruct (i2c_recv b') as [v b2]. destruct (i2c_recv b2) as [w b3]. cbn [fst snd] in *. exists v, w. by eexists.
Qed.

Lemma recv_loop_recvs n : forall i data bus, 0 <= i -> i + Z.of_nat n <= Z.of_nat (length data) -> recv_loop n i data bus =
  Some (awrite data i (map (fun v => u8 v) (fst (i2c_recvs n bus))), snd (i2c_recvs n bus)).
Proof.
  induction n as [|n IH]; intros i data bus Hi Hl; cbn [recv_loop i2c_recvs]; [done|]. destruct (i2c_recv bus) as [v b].
  rewrite (in_buffer data i n) by done. cbn [mbind option_bind]. rewrite IH by (rewrite ?length_aset; lia).
  by destruct (i2c_recvs n b).
Qed.

Lemma read_block_spec a c data bus : at_rest bus -> length data = 32%nat ->
  exists v vs bus', let n := if 32 <? v then 0 else v in
    smbus_read_block a c data bus = Some (n, awrite data 0 (map (fun v => u8 v) vs), bus') /\
    length vs = Z.to_nat n /\ readout a c (v :: vs) bus bus' /\ at_rest bus'.
Proof.
  intros R Hd. destruct (read_command a c 1 bus R) as (bus1 & E & _). unfold smbus_read_block.
  destruct (i2c_start_transfer a true bus1) as [r' b'] eqn:S2. destruct (i2c_recv b') as [v b2] eqn:V.
  set (n := if 32 <? v then 0 else v).
  destruct (read_command a c (1 + Z.to_nat n) bus R) as (bus2 & E2 & L & W & R1).
  rewrite E2 in E. injection E as ->. rewrite S2 in L, W, R1. cbn [snd i2c_recvs Nat.add] in L, W, R1. rewrite V in L, W, R1.
  destruct (i2c_start_transfer a false bus) as [r b]. sent_bytes E2. rewrite S2, V. fold n. rewrite recv_loop_recvs by (unfold n; zcases; lia).
  destruct (i2c_recvs (Z.to_nat n) b2) as [vs b3]. cbn [fst snd length] in *. exists v, vs. eexists. fold n. split; [reflexivity|].
  split; [lia|]. split; [exact W|exact R1].
Qed.

Lemma quick_command_spec a read bus : at_rest bus -> at_rest (smbus_quick_command a read bus).
Proof.
  intros R. unfold smbus_quick_command. destruct (find_addr a (devs bus) 0) as [i|] eqn:F.
  - destruct (found_present a bus i F R) as (dev & P & I). rewrite (start_focus a i dev bus F P read), (end_focus i dev bus P).
    apply settle_rest; [done|]. apply (quick_transaction read dev I).
  - rewrite start_silent by done. cbn [snd]. destruct R as [R1 R2]. by rewrite end_silent.
Qed.

Lemma receive_byte_spec a bus : at_rest bus -> at_rest (snd (smbus_receive_byte a bus)).
Proof.
  intros R. unfold smbus_receive_byte. destruct (find_addr a (devs bus) 0) as [i|] eqn:F.
  - destruct (found_present a bus i F R) as (dev & P & I). pose proof (start_focus a i dev bus F P true) as E.
    destruct (i2c_start_transfer a true bus) as [r b]. cbn [snd] in E. subst b. rewrite (recv_focus i dev bus P). cbn [fst snd].
    rewrite (nack_focus i dev bus P), (end_focus i dev bus P). apply settle_rest; [done|]. apply (receive_transaction dev I).
  - rewrite start_silent by done. destruct R as [R1 R2]. rewrite recv_silent by done. cbn [snd]. by rewrite nack_silent, end_silent.
Qed.

End Protocol.

End SMBus.
Export SMBus.

Module Eeprom.

Record SMBusEEPROMDevice := mkEeprom { data : list Z; offset : Z }.

Definition eeprom_quick_cmd (read : Z) (e : SMBusEEPROMDevice) : SMBusEEPROMDevice := e.
Definition eeprom_send_byte (val : Z) (e : SMBusEEPROMDevice) : SMBusEEPROMDevice := mkEeprom (data e) val.
Definition eeprom_receive_byte (e : SMBusEEPROMDevice) : Z * SMBusEEPROMDevice :=
  (aget (data e) (offset e), mkEeprom (data e) (u8 (offset e + 1))).

Definition eeprom_write_data (cmd : Z) (buf : list Z) (e : SMBusEEPROMDevice) : SMBusEEPROMDevice :=
  let len := Z.of_nat (length buf) in
  let n := if 256 <? cmd + len then 256 - cmd else len in
  let d := awrite (data e) cmd (take (Z.to_nat n) buf) in
  let len := len - n in
  let d := if truthy len then awrite d 0 (drop (Z.to_nat n) buf) else d in
  mkEeprom d (offset e).

Definition eeprom_read_data (cmd n : Z) (e : SMBusEEPROMDevice) : Z * SMBusEEPROMDevice :=
  eeprom_receive_byte (if n =? 0 then mkEeprom (data e) cmd else e).

Definition smbus_eeprom_init (d : list Z) : SMBusEEPROMDevice := mkEeprom d 0.

#[global] Instance smbus_eeprom_info : SMBusDeviceInfo SMBusEEPROMDevice := {
  quick_cmd := Some eeprom_quick_cmd;
  send_byte := Some eeprom_send_byte;
  receive_byte := Some eeprom_receive_byte;
  write_data := Some eeprom_write_data;
  read_data := Some eeprom_read_data
}.

End Eeprom.
Export Eeprom.

Module PMSMBus.

Definition SMBHSTSTS : Z := 0x00.
Definition SMBHSTCNT : Z := 0x02.
Definition SMBHSTCMD : Z := 0x03.
Definition SMBHSTADD : Z := 0x04.
Definition SMBHSTDAT0 : Z := 0x05.
Definition SMBHSTDAT1 : Z := 0x06.
Definition SMBBLKDAT : Z := 0x07.

Section Controller.
Context {D : Type} `{SMBusDeviceInfo D}.

Record PMSMBus := mkSmb {
  smbus : i2c_bus (SMBusDevice D);
  smb_stat : Z;
  smb_ctl : Z;
  smb_cmd : Z;
  smb_addr : Z;
  smb_data0 : Z;
  smb_data1 : Z;
  smb_data : list Z;
  smb_index : Z
}.
Implicit Types s : PMSMBus.

Definition set_smbus v s :=
  mkSmb v (smb_stat s) (smb_ctl s) (smb_cmd s) (smb_addr s) (smb_data0 s) (smb_data1 s) (smb_data s) (smb_index s).
Definition set_smb_stat (v : Z) s :=
  mkSmb (smbus s) v (smb_ctl s) (smb_cmd s) (smb_addr s) (smb_data0 s) (smb_data1 s) (smb_data s) (smb_index s).
Definition set_smb_ctl (v : Z) s :=
  mkSmb (smbus s) (smb_stat s) v (smb_cmd s) (smb_addr s) (smb_data0 s) (smb_data1 s) (smb_data s) (smb_index s).
Definition set_smb_cmd (v : Z) s :=
  mkSmb (smbus s) (smb_stat s) (smb_ctl s) v (smb_addr s) (smb_data0 s) (smb_data1 s) (smb_data s) (smb_index s).
Definition set_smb_addr (v : Z) s :=
  mkSmb (smbus s) (smb_stat s) (smb_ctl s) (smb_cmd s) v (smb_data0 s) (smb_data1 s) (smb_data s) (smb_index s).
Definition set_smb_data0 (v : Z) s :=
  mkSmb (smbus s) (smb_stat s) (smb_ctl s) (smb_cmd s) (smb_addr s) v (smb_data1 s) (smb_data s) (smb_index s).
Definition set_smb_data1 (v : Z) s :=
  mkSmb (smbus s) (smb_stat s) (smb_ctl s) (smb_cmd s) (smb_addr s) (smb_data0 s) v (smb_data s) (smb_index s).
Definition set_smb_data (v : list Z) s :=
  mkSmb (smbus s) (smb_stat s) (smb_ctl s) (smb_cmd s) (smb_addr s) (smb_data0 s) (smb_data1 s) v (smb_index s).
Definition set_smb_index (v : Z) s :=
  mkSmb (smbus s) (smb_stat s) (smb_ctl s) (smb_cmd s) (smb_addr s) (smb_data0 s) (smb_data1 s) (smb_data s) v.

Definition smb_transaction s : option PMSMBus :=
  let prot := (smb_ctl s >>. 2) &. 0x07 in
  let read := truthy (smb_addr s &. 0x01) in
  let cmd := smb_cmd s in
  let addr := smb_addr s >>. 1 in
  let bus := smbus s in
  if prot =? 0x0 then Some (set_smbus (smbus_quick_command addr read bus) s)
  else if prot =? 0x1 then
    if read then
      let '(v, bus) := smbus_receive_byte addr bus in
      Some (set_smb_data0 v (set_smbus bus s))
    else
      bus ← smbus_send_byte addr cmd bus;
      Some (set_smbus bus s)
  else if prot =? 0x2 then
    if read then
      '(v, bus) ← smbus_read_byte addr cmd bus;
      Some (set_smb_data0 v (set_smbus bus s))
    else
      bus ← smbus_write_byte addr cmd (smb_data0 s) bus;
      Some (set_smbus bus s)
  else if prot =? 0x3 then
    if read then
      '(val, bus) ← smbus_read_word addr cmd bus;
      Some (set_smb_data1 (u8 (val >>. 8)) (set_smb_data0 (u8 val) (set_smbus bus s)))
    else
      bus ← smbus_write_word addr cmd ((smb_data1 s <<. 8) |. smb_data0 s) bus;
      Some (set_smbus bus s)
  else if prot =? 0x5 then
    if read then
      '(len, data, bus) ← smbus_read_block addr cmd (smb_data s) bus;
      Some (set_smb_data0 (u8 len) (set_smb_data data (set_smbus bus s)))
    else
      bus ← smbus_write_block addr cmd (smb_data s) (smb_data0 s) bus;
      Some (set_smbus bus s)
  else Some (set_smb_stat (smb_stat s |. 0x04) s).

Definition next_index s := let s := set_smb_index (u8 (smb_index s + 1)) s in if 31 <? smb_index s then set_smb_index 0 s else s.

Definition smb_ioport_writeb (addr val : Z) s : option PMSMBus :=
  let addr := addr &. 0x3f in
  if addr =? SMBHSTSTS then Some (set_smb_index 0 (set_smb_stat 0 s))
  else if addr =? SMBHSTCNT then
    let s := set_smb_ctl (u8 val) s in
    if truthy (val &. 0x40) then smb_transaction s else Some s
  else if addr =? SMBHSTCMD then Some (set_smb_cmd (u8 val) s)
  else if addr =? SMBHSTADD then Some (set_smb_addr (u8 val) s)
  else if addr =? SMBHSTDAT0 then Some (set_smb_data0 (u8 val) s)
  else if addr =? SMBHSTDAT1 then Some (set_smb_data1 (u8 val) s)
  else if addr =? SMBBLKDAT then
    _ ← smb_data s !! Z.to_nat (smb_index s);
    Some (next_index (set_smb_data (aset (smb_data s) (smb_index s) (u8 val)) s))
  else Some s.

Definition smb_ioport_readb (addr : Z) s : option (Z * PMSMBus) :=
  let addr := addr &. 0x3f in
  if addr =? SMBHSTSTS then Some (smb_stat s, s)
  else if addr =? SMBHSTCNT then Some (smb_ctl s &. 0x1f, set_smb_index 0 s)
  else if addr =? SMBHSTCMD then Some (smb_cmd s, s)
  else if addr =? SMBHSTADD then Some (smb_addr s, s)
  else if addr =? SMBHSTDAT0 then Some (smb_data0 s, s)
  else if addr =? SMBHSTDAT1 then Some (smb_data1 s, s)
  else if addr =? SMBBLKDAT then
    v ← smb_data s !! Z.to_nat (smb_index s);
    Some (v, next_index s)
  else Some (0, s).

(** The controller of a new machine with the devices [ds]. *)
Definition pm_smbus_init (ds : list (i2c_slave (SMBusDevice D))) : PMSMBus :=
  mkSmb (mkBus ds None) 0 0 0 0 0 0 (replicate 32 0) 0.

(** ** The invariant *)

Record smb_ok s : Prop := {
  ok_rest : at_rest (smbus s);
  ok_data : length (smb_data s) = 32%nat;
  ok_index : 0 <= smb_index s <= 31;
  ok_low : is_uint 8 (smb_data0 s);
  ok_high : is_uint 8 (smb_data1 s);
  ok_cmd : is_uint 8 (smb_cmd s);
  ok_addr : is_uint 8 (smb_addr s);
  ok_ctl : is_uint 8 (smb_ctl s);
  ok_stat : is_uint 8 (smb_stat s)
}.

Inductive reachable (ds : list (i2c_slave (SMBusDevice D))) : PMSMBus -> Prop :=
| reach_init : reachable ds (pm_smbus_init ds)
| reach_write s addr val s' : reachable ds s -> smb_ioport_writeb addr val s = Some s' -> reachable ds s'
| reach_read s addr v s' : reachable ds s -> smb_ioport_readb addr s = Some (v, s') -> reachable ds s'.

Lemma u8_byte v : is_uint 8 (u8 v).
Proof. apply wrap_range. lia. Qed.

Lemma transaction_ok s : smb_ok s -> exists s', smb_transaction s = Some s' /\ smb_ok s'.
Proof.
  intros []. unfold smb_transaction. set (prot := (smb_ctl s >>. 2) &. 0x07).
  destruct (prot =? 0). { eexists. split; [reflexivity|]. constructor; try done. by apply quick_command_spec. }
  destruct (prot =? 1).
  { destruct (truthy _).
    - pose proof (receive_byte_spec (smb_addr s >>. 1) (smbus s) ok_rest0) as R.
      assert (B : is_uint 8 (fst (smbus_receive_byte (smb_addr s >>. 1) (smbus s)))).
      { unfold smbus_receive_byte. destruct (i2c_start_transfer _ _ _). destruct (i2c_recv _). apply u8_byte. }
      destruct (smbus_receive_byte _ _) as [v bus]. eexists. split; [reflexivity|]. by constructor.
    - destruct (send_byte_spec (smb_addr s >>. 1) (smb_cmd s) (smbus s) ok_rest0) as (bus & -> & _ & R). eexists. split; [reflexivity|]. by constructor. }
  destruct (prot =? 2).
  { destruct (truthy _).
    - destruct (read_byte_spec (smb_addr s >>. 1) (smb_cmd s) (smbus s) ok_rest0) as (v & bus & -> & _ & R). eexists. split; [reflexivity|].
      constructor; try done. apply u8_byte.
    - destruct (write_byte_spec (smb_addr s >>. 1) (smb_cmd s) (smb_data0 s) (smbus s) ok_rest0) as (bus & -> & _ & R). eexists. split; [reflexivity|]. by constructor. }
  destruct (prot =? 3).
  { destruct (truthy _).
    - destruct (read_word_spec (smb_addr s >>. 1) (smb_cmd s) (smbus s) ok_rest0) as (v & w & bus & -> & _ & R). eexists. split; [reflexivity|].
      constructor; try done; apply wrap_range; lia.
    - destruct (write_word_spec (smb_addr s >>. 1) (smb_cmd s) ((smb_data1 s <<. 8) |. smb_data0 s) (smbus s) ok_rest0) as (bus & -> & _ & R).
      eexists. split; [reflexivity|]. by constructor. }
  destruct (prot =? 5).
  { destruct (truthy _).
    - destruct (read_block_spec (smb_addr s >>. 1) (smb_cmd s) (smb_data s) (smbus s) ok_rest0 ok_data0) as (v & vs & bus & -> & L & _ & R).
      eexists. split; [reflexivity|]. constructor; try done; [|apply u8_byte]. cbn. by rewrite length_awrite.
    - destruct (write_block_spec (smb_addr s >>. 1) (smb_cmd s) (smb_data s) (smb_data0 s) (smbus s) ok_rest0) as (bus & -> & _ & R); [apply ok_low0|done|].
      eexists. split; [reflexivity|]. by constructor. }
  eexists. split; [reflexivity|]. constructor; try done. apply is_uint_lor; [done|unfold is_uint; lia|lia].
Qed.

Lemma next_index_ok s : smb_ok s -> smb_ok (next_index s).
Proof.
  intros []. unfold next_index. rewrite wrap_small by (unfold is_uint; lia). cbn [smb_index set_smb_index].
  destruct (Z.ltb_spec 31 (smb_index s + 1)); constructor; cbn; try done; lia.
Qed.

Lemma writeb_ok addr val s : smb_ok s -> exists s', smb_ioport_writeb addr val s = Some s' /\ smb_ok s'.
Proof.
  intros O. pose proof O as []. unfold smb_ioport_writeb.
  destruct (_ =? SMBHSTSTS). { eexists. split; [reflexivity|]. constructor; cbn; try done; unfold is_uint; lia. }
  destruct (_ =? SMBHSTCNT).
  { assert (O1 : smb_ok (set_smb_ctl (u8 val) s)) by (constructor; try done; apply u8_byte).
    destruct (truthy _); [by apply transaction_ok|by eexists]. }
  do 4 (match goal with |- context [if ?b then Some _ else _] => destruct b end;
    [eexists; split; [reflexivity|]; constructor; try done; apply u8_byte|]).
  destruct (_ =? SMBBLKDAT).
  - destruct (lookup_lt_is_Some_2 (smb_data s) (Z.to_nat (smb_index s))) as [x ->]; [lia|]. cbn [mbind option_bind].
    eexists. split; [reflexivity|]. apply next_index_ok. constructor; try done. cbn. by rewrite length_aset.
  - by eexists.
Qed.

Lemma readb_ok addr s : smb_ok s -> exists v s', smb_ioport_readb addr s = Some (v, s') /\ smb_ok s'.
Proof.
  intros O. pose proof O as []. unfold smb_ioport_readb.
  destruct (_ =? SMBHSTSTS); [by do 2 eexists|].
  destruct (_ =? SMBHSTCNT). { do 2 eexists. split; [reflexivity|]. constructor; cbn; try done; lia. }
  do 4 (match goal with |- context [if ?b then Some _ else _] => destruct b end; [by do 2 eexists|]).
  destruct (_ =? SMBBLKDAT); [|by do 2 eexists].
  destruct (lookup_lt_is_Some_2 (smb_data s) (Z.to_nat (smb_index s))) as [x ->]; [lia|]. cbn [mbind option_bind].
  do 2 eexists. split; [reflexivity|]. by apply next_index_ok.
Qed.

Lemma smb_reachable_ok ds s : Forall (fun d => idle (slave d)) ds -> reachable ds s -> smb_ok s.
Proof.
  intros F R. induction R as [|s addr val s' R IH E|s addr v s' R IH E].
  - constructor; cbn; try done; try (unfold is_uint; lia).
  - destruct (writeb_ok addr val s IH) as (t & E' & O). rewrite E' in E. by injection E as <-.
  - destruct (readb_ok addr s IH) as (w & t & E' & O). rewrite E' in E. by injection E as _ <-.
Qed.

End Controller.

(** C29: between two accesses of the guest the bus is at rest.  Whatever
    devices are on the bus and whatever the guest writes to the registers, no
    transaction is transferred in part, no device is left confused or in the
    middle of a transfer, no access is outside of a device's buffer of 34
    bytes or of the controller's block of 32 bytes, whatever length a device
    sends, and every access of the guest is carried out. *)
Theorem smb_bus_at_rest {D} `{SMBusDeviceInfo D} ds s :
  Forall (fun d => idle (slave d)) ds -> reachable ds s ->
  smb_ok s /\ (forall addr val, exists s', smb_ioport_writeb addr val s = Some s') /\
  (forall addr, exists v s', smb_ioport_readb addr s = Some (v, s')).
Proof.
  intros F R. pose proof (smb_reachable_ok ds s F R) as O. split; [done|]. split.
  - intros addr val. destruct (writeb_ok addr val s O) as (s' & E & _). by exists s'.
  - intros addr. destruct (readb_ok addr s O) as (v & s' & E & _). by exists v, s'.
Qed.

(** ** The memory *)

(** A write stores bytes from its command on, around the end of the memory. *)
Lemma eeprom_write_at c buf e k : length (data e) = 256%nat -> 0 <= c < 256 -> (length buf <= 256)%nat -> 0 <= k < 256 ->
  aget (data (eeprom_write_data c buf e)) k =
    (if (k - c) mod 256 <? Z.of_nat (length buf) then aget buf ((k - c) mod 256) else aget (data e) k) /\
  length (data (eeprom_write_data c buf e)) = 256%nat.
Proof.
  intros L Hc Hb Hk. unfold eeprom_write_data. remember (Z.of_nat (length buf)) as len eqn:Elen.
  assert (M : (k - c) mod 256 = if k <? c then k - c + 256 else k - c).
  { destruct (Z.ltb_spec k c); [rewrite <- (Z_mod_plus_full _ 1)|]; rewrite Z.mod_small; lia. }
  rewrite M. clear M. destruct (Z.ltb_spec 256 (c + len)).
  - replace (truthy (len - (256 - c))) with true by (unfold truthy; zcases; done || lia). cbn [data].
    assert (Lt : Z.of_nat (length (take (Z.to_nat (256 - c)) buf)) = 256 - c) by (rewrite length_take; lia).
    assert (Ld : Z.of_nat (length (drop (Z.to_nat (256 - c)) buf)) = len - (256 - c)) by (rewrite length_drop; lia).
    split; [|by rewrite !length_awrite]. rewrite !aget_awrite by (rewrite ?length_awrite; lia). rewrite Lt, Ld.
    destruct (Z.ltb_spec k c); zcases; try lia; rewrite ?aget_take, ?aget_drop by lia; try done; f_equal; lia.
  - rewrite Z.sub_diag. cbn [truthy Z.eqb negb data]. rewrite take_ge by lia. split; [|by rewrite length_awrite].
    rewrite aget_awrite by lia. rewrite <- Elen. destruct (Z.ltb_spec k c); zcases; try lia; done.
Qed.

(** A read returns the bytes from its command on. *)
Lemma eeprom_read_at c k : forall n e, 0 <= n -> 0 <= c < 256 -> 0 <= offset e < 256 ->
  let o := if n =? 0 then c else offset e in
  fst (dev_read c n k e) = map (fun j => aget (data e) ((o + Z.of_nat j) mod 256)) (seq 0 k) /\
  data (snd (dev_read c n k e)) = data e.
Proof.
  induction k as [|k IH]; intros n e Hn Hc Ho o; cbn [dev_read]; [done|]. cbn [read_data smbus_eeprom_info].
  unfold eeprom_read_data, eeprom_receive_byte.
  assert (O : 0 <= o < 256) by (unfold o; destruct (n =? 0); done).
  assert (E : (if n =? 0 then mkEeprom (data e) c else e) = mkEeprom (data e) o) by (unfold o; destruct (n =? 0); [done|by destruct e]).
  rewrite E. cbn [data offset]. set (e' := mkEeprom (data e) (u8 (o + 1))).
  destruct (IH (n + 1) e') as [IH1 IH2]; [lia|done|apply wrap_range; lia|].
  rewrite (proj2 (Z.eqb_neq _ _)) in IH1 by lia. destruct (dev_read c (n + 1) k e') as [vs e2]. cbn [fst snd] in *.
  split; [|done]. rewrite IH1. cbn [seq map]. f_equal.
  - rewrite Z.add_0_r, Z.mod_small by lia. done.
  - rewrite <- seq_shift, map_map. apply map_ext. intros j. cbn [data offset e']. f_equal. unfold wrap.
    rewrite Zplus_mod_idemp_l. f_equal. lia.
Qed.

(** ** What the guest does *)

Section Guest.
Context {D : Type} `{SMBusDeviceInfo D}.
Implicit Types s : @PMSMBus D.

Fixpoint smb_writes (l : list (Z * Z)) s : option PMSMBus :=
  match l with
  | [] => Some s
  | (addr, val) :: l => s ← smb_ioport_writeb addr val s; smb_writes l s
  end.

Fixpoint smb_reads (l : list Z) s : option (list Z * PMSMBus) :=
  match l with
  | [] => Some ([], s)
  | addr :: l =>
      '(v, s) ← smb_ioport_readb addr s;
      '(vs, s) ← smb_reads l s;
      Some (v :: vs, s)
  end.

(** A block write of [bs] with command [c] to address [a], and a block read. *)
Definition store_block (a c : Z) (bs : list Z) s : option PMSMBus :=
  smb_writes ([(SMBHSTSTS, 0); (SMBHSTADD, 2 * a); (SMBHSTCMD, c); (SMBHSTDAT0, Z.of_nat (length bs))] ++
              map (pair SMBBLKDAT) bs ++ [(SMBHSTCNT, 0x54)]) s.

Definition fetch_block (a c : Z) s : option (list Z * PMSMBus) :=
  s ← smb_writes [(SMBHSTSTS, 0); (SMBHSTADD, 2 * a + 1); (SMBHSTCMD, c); (SMBHSTCNT, 0x54)] s;
  '(n, s) ← smb_ioport_readb SMBHSTDAT0 s;
  smb_reads (repeat SMBBLKDAT (Z.to_nat n)) s.

Lemma smb_writes_app l1 l2 s : smb_writes (l1 ++ l2) s = s ← smb_writes l1 s; smb_writes l2 s.
Proof.
  revert s. induction l1 as [|[addr val] l1 IH]; intros s; cbn [smb_writes app]; [done|].
  destruct (smb_ioport_writeb addr val s); cbn; [apply IH|done].
Qed.

(** The place in the block after [n] more bytes. *)
Definition block_index (i n : Z) : Z := if i + n =? 32 then 0 else i + n.

Lemma next_index_eq s : 0 <= smb_index s <= 31 -> next_index s = set_smb_index (block_index (smb_index s) 1) s.
Proof.
  intros B. unfold next_index, block_index. rewrite wrap_small by (unfold is_uint; lia). cbn [smb_index set_smb_index].
  destruct (Z.ltb_spec 31 (smb_index s + 1)), (Z.eqb_spec (smb_index s + 1) 32); try lia; done.
Qed.

Lemma block_index_add i n : 0 <= i <= 31 -> 0 <= n -> i + 1 + n <= 32 -> i + 1 < 32 \/ n = 0 ->
  block_index (block_index i 1) n = block_index i (1 + n).
Proof. intros. unfold block_index. destruct (Z.eqb_spec (i + 1) 32); zcases; lia. Qed.

Lemma block_writes bs : forall s, Forall (is_uint 8) bs -> length (smb_data s) = 32%nat -> 0 <= smb_index s <= 31 ->
  smb_index s + Z.of_nat (length bs) <= 32 ->
  smb_writes (map (pair SMBBLKDAT) bs) s =
  Some (set_smb_index (block_index (smb_index s) (Z.of_nat (length bs))) (set_smb_data (awrite (smb_data s) (smb_index s) bs) s)).
Proof.
  induction bs as [|b bs IH]; intros s Fb L B Lb; cbn [map smb_writes length awrite].
  { unfold block_index. rewrite (proj2 (Z.eqb_neq _ _)) by lia. rewrite Z.add_0_r. by destruct s. }
  apply Forall_cons in Fb as [Fb Fbs]. cbn [length] in Lb.
  change (smb_ioport_writeb SMBBLKDAT b s) with (_ ← smb_data s !! Z.to_nat (smb_index s);
    Some (next_index (set_smb_data (aset (smb_data s) (smb_index s) (u8 b)) s))).
  destruct (lookup_lt_is_Some_2 (smb_data s) (Z.to_nat (smb_index s))) as [x ->]; [lia|]. cbn [mbind option_bind].
  rewrite next_index_eq by done. rewrite (wrap_small 8 b) by done. cbn [smb_index set_smb_data].
  destruct bs as [|b' bs]; [done|]. cbn [length] in Lb.
  assert (E1 : block_index (smb_index s) 1 = smb_index s + 1) by (unfold block_index; zcases; lia).
  rewrite IH; cbn [smb_data smb_index set_smb_index set_smb_data]; rewrite ?length_aset; try done; rewrite ?E1; cbn [length]; try lia.
  replace (block_index (smb_index s + 1) _) with (block_index (smb_index s) (Z.of_nat (S (S (length bs))))); [done|].
  rewrite <- E1, block_index_add by lia. f_equal. lia.
Qed.

Lemma block_reads n : forall s, length (smb_data s) = 32%nat -> 0 <= smb_index s <= 31 -> smb_index s + Z.of_nat n <= 32 ->
  smb_reads (repeat SMBBLKDAT n) s =
  Some (aread (smb_data s) (smb_index s) n, set_smb_index (block_index (smb_index s) (Z.of_nat n)) s).
Proof.
  induction n as [|n IH]; intros s L B Ln; cbn [repeat smb_reads].
  { unfold block_index. rewrite (proj2 (Z.eqb_neq _ _)) by lia. rewrite Z.add_0_r. by destruct s. }
  change (smb_ioport_readb SMBBLKDAT s) with (v ← smb_data s !! Z.to_nat (smb_index s); Some (v, next_index s)).
  destruct (lookup_lt_is_Some_2 (smb_data s) (Z.to_nat (smb_index s))) as [x Ex]; [lia|]. rewrite Ex. cbn [mbind option_bind].
  assert (Ax : aget (smb_data s) (smb_index s) = x) by (unfold aget; by rewrite nth_lookup, Ex).
  rewrite next_index_eq by done. rewrite aread_first, Ax. destruct n as [|n]; [done|].
  assert (E1 : block_index (smb_index s) 1 = smb_index s + 1) by (unfold block_index; zcases; lia).
  rewrite IH; cbn [smb_data smb_index set_smb_index]; try done; rewrite ?E1; try lia. cbn [mbind option_bind].
  replace (block_index (smb_index s + 1) _) with (block_index (smb_index s) (Z.of_nat (S (S n)))); [done|].
  rewrite <- E1, block_index_add by lia. f_equal. lia.
Qed.

(** The device at address [a] is in state [d]. *)
Definition device_at (a : Z) (d : D) s : Prop :=
  exists i dev, find_addr a (devs (smbus s)) 0 = Some i /\ get i (smbus s) = Some dev /\ device dev = d.

Lemma settle_at i dev dev0 s a d : find_addr a (devs (smbus s)) 0 = Some i -> get i (smbus s) = Some dev0 -> device dev = d ->
  device_at a d (set_smbus (settle i dev (smbus s)) s) /\
  (forall b d', b <> a -> device_at b d' s -> device_at b d' (set_smbus (settle i dev (smbus s)) s)).
Proof.
  intros F P E. split.
  - exists i, dev. unfold get in *. cbn. rewrite find_addr_alter, list_lookup_alter_eq. by destruct (devs (smbus s) !! i).
  - intros b d' N (j & devj & Fj & Pj & Ej). exists j, devj. unfold get in *. cbn. rewrite find_addr_alter.
    rewrite list_lookup_alter_ne; [done|]. intros <-.
    apply find_addr_get in F as (x & _ & Ex & Ax), Fj as (y & _ & Ey & Ay). congruence.
Qed.

(** Bit 0 of the address register is the direction. *)
Lemma address_bits a r : 0 <= r <= 1 -> ((2 * a + r) >>. 1) = a /\ ((2 * a + r) &. 0x01) = r.
Proof.
  intros Hr. split.
  - rewrite Z.shiftr_div_pow2 by lia. change (2 ^ 1) with 2. symmetry. apply (Z.div_unique _ _ _ r); lia.
  - change 0x01 with (Z.ones 1). rewrite Z.land_ones by lia. change (2 ^ 1) with 2. symmetry. apply (Z.mod_unique _ _ a); lia.
Qed.

Lemma transaction_store a s : smb_ok s -> smb_ctl s = 0x54 -> smb_addr s = 2 * a + 0 -> smb_data0 s <= 32 ->
  exists bus', smb_transaction s = Some (set_smbus bus' s) /\ at_rest bus' /\
    written a (smb_cmd s :: smb_data0 s :: aread (smb_data s) 0 (Z.to_nat (smb_data0 s))) (smbus s) bus'.
Proof.
  intros [] Ec Ea Hn. unfold smb_transaction. rewrite Ec, Ea. destruct (address_bits a 0) as [-> ->]; [lia|].
  change ((0x54 >>. 2) &. 0x07) with 5. cbn [Z.eqb Pos.eqb truthy negb].
  destruct (write_block_spec a (smb_cmd s) (smb_data s) (smb_data0 s) (smbus s) ok_rest0) as (bus' & -> & W & R); [apply ok_low0|done|].
  rewrite Z.min_l in W by lia. rewrite wrap_small in W by done. by exists bus'.
Qed.

Lemma transaction_fetch a s : smb_ok s -> smb_ctl s = 0x54 -> smb_addr s = 2 * a + 1 ->
  exists v vs bus', let n := if 32 <? v then 0 else v in
    smb_transaction s = Some (set_smb_data0 (u8 n) (set_smb_data (awrite (smb_data s) 0 (map (fun v => u8 v) vs)) (set_smbus bus' s))) /\
    length vs = Z.to_nat n /\ at_rest bus' /\ readout a (smb_cmd s) (v :: vs) (smbus s) bus'.
Proof.
  intros [] Ec Ea. unfold smb_transaction. rewrite Ec, Ea. destruct (address_bits a 1) as [-> ->]; [lia|].
  change ((0x54 >>. 2) &. 0x07) with 5. cbn [Z.eqb Pos.eqb truthy negb].
  destruct (read_block_spec a (smb_cmd s) (smb_data s) (smbus s) ok_rest0 ok_data0) as (v & vs & bus' & -> & L & W & R).
  exists v, vs, bus'. done.
Qed.

Lemma set_smbus_ok bus s : at_rest bus -> smb_ok s -> smb_ok (set_smbus bus s).
Proof. intros R []. by constructor. Qed.

Lemma store_block_spec a c bs d s : smb_ok s -> 0 <= a < 128 -> is_uint 8 c -> Forall (is_uint 8) bs -> (length bs <= 32)%nat ->
  device_at a d s ->
  exists s', store_block a c bs s = Some s' /\ smb_ok s' /\ device_at a (dev_write (c :: Z.of_nat (length bs) :: bs) d) s' /\
    (forall b d', b <> a -> device_at b d' s -> device_at b d' s').
Proof.
  intros O Ha Hc Fb Lb (i & dev & F & P & E). pose proof O as []. unfold store_block. rewrite smb_writes_app.
  change (smb_writes [_; _; _; _] s) with
    (Some (set_smb_data0 (u8 (Z.of_nat (length bs))) (set_smb_cmd (u8 c) (set_smb_addr (u8 (2 * a)) (set_smb_index 0 (set_smb_stat 0 s)))))).
  rewrite !wrap_small by (done || (unfold is_uint; lia)). cbn [mbind option_bind].
  rewrite smb_writes_app, block_writes by (done || (cbn; lia)). cbn [mbind option_bind smb_index set_smb_data0 set_smb_cmd set_smb_addr set_smb_index].
  set (s2 := set_smb_index _ _). change (smb_writes [(SMBHSTCNT, 0x54)] s2) with (s ← smb_transaction (set_smb_ctl 0x54 s2); Some s).
  assert (O2 : smb_ok (set_smb_ctl 0x54 s2)).
  { constructor; cbn; rewrite ?length_awrite; try done; try (unfold is_uint; lia). unfold block_index. zcases; lia. }
  destruct (transaction_store a (set_smb_ctl 0x54 s2)) as (bus' & -> & R & W); try done; [cbn; lia|cbn; lia|].
  cbn [mbind option_bind]. eexists. split; [reflexivity|].
  cbn [smb_cmd smb_data0 smb_data smbus set_smb_ctl s2 set_smb_index set_smb_data set_smb_data0 set_smb_cmd] in W.
  rewrite Nat2Z.id, aread_awrite_eq in W by (done || (cbn; lia)). unfold written in W. cbn in W. rewrite F in W.
  destruct W as (dev0 & dev' & P' & -> & I & E'). rewrite P in P'. injection P' as <-.
  split; [by apply set_smbus_ok|]. rewrite E in E'. apply (settle_at i dev' dev s a _ F P E').
Qed.

Lemma dev_read_first c n k k' v vs w ws (d d1 d2 : D) : dev_read c n (S k) d = (v :: vs, d1) -> dev_read c n (S k') d = (w :: ws, d2) -> v = w.
Proof.
  cbn [dev_read]. destruct (match read_data with Some f => f c n d | None => (0, d) end) as [x d'].
  destruct (dev_read _ _ k d'), (dev_read _ _ k' d'). congruence.
Qed.

Lemma map_u8 vs : Forall (is_uint 8) vs -> map (fun v => u8 v) vs = vs.
Proof. induction 1 as [|v vs Hv _ IH]; cbn; [done|]. by rewrite IH, wrap_small. Qed.

Lemma fetch_block_spec a c d s n vs d' : smb_ok s -> 0 <= a < 128 -> is_uint 8 c -> device_at a d s ->
  dev_read c 0 (S n) d = (Z.of_nat n :: vs, d') -> length vs = n -> (n <= 32)%nat -> Forall (is_uint 8) vs ->
  exists s', fetch_block a c s = Some (vs, s') /\ device_at a d' s' /\ (forall b e, b <> a -> device_at b e s -> device_at b e s').
Proof.
  intros O Ha Hc (i & dev & F & P & E) Er Lv Ln Fv. pose proof O as []. unfold fetch_block.
  set (s1 := set_smb_ctl 0x54 (set_smb_cmd c (set_smb_addr (2 * a + 1) (set_smb_index 0 (set_smb_stat 0 s))))).
  assert (E1 : smb_writes [(SMBHSTSTS, 0); (SMBHSTADD, 2 * a + 1); (SMBHSTCMD, c); (SMBHSTCNT, 0x54)] s = smb_transaction s1).
  { transitivity (s ← smb_transaction (set_smb_ctl 0x54 (set_smb_cmd (u8 c) (set_smb_addr (u8 (2 * a + 1)) (set_smb_index 0 (set_smb_stat 0 s))))); Some s);
      [done|]. rewrite !wrap_small by (done || (unfold is_uint; lia)). fold s1. by destruct (smb_transaction s1). }
  rewrite E1. clear E1. assert (O1 : smb_ok s1) by (constructor; cbn; try done; unfold is_uint; lia).
  destruct (transaction_fetch a s1 O1 eq_refl eq_refl) as (v & vs' & bus' & -> & L & R & W).
  unfold readout in W. change (smbus s1) with (smbus s) in W. rewrite F in W. destruct W as (dev0 & dev' & P' & -> & I & E').
  rewrite P in P'. injection P' as <-. change (smb_cmd s1) with c in E'. rewrite E in E'. cbn [length] in E'.
  assert (v = Z.of_nat n) as -> by exact (dev_read_first _ _ _ _ _ _ _ _ _ _ _ E' Er).
  rewrite (proj2 (Z.ltb_ge 32 _)) in L |- * by lia. rewrite Nat2Z.id in L. rewrite L, Er in E'. injection E' as <- ->.
  rewrite map_u8 by done. cbn [mbind option_bind]. set (s2 := set_smb_data0 _ _).
  change (smb_ioport_readb SMBHSTDAT0 s2) with (Some (u8 (Z.of_nat n), s2)). cbn [mbind option_bind].
  rewrite wrap_small, Nat2Z.id by (unfold is_uint; lia).
  rewrite block_reads by (cbn; rewrite ?length_awrite; done || lia). change (smb_data s2) with (awrite (smb_data s) 0 vs).
  change (smb_index s2) with 0. rewrite aread_awrite_eq by (done || lia). eexists. split; [reflexivity|].
  exact (settle_at i dev' dev s a _ F P eq_refl).
Qed.

End Guest.

(** The 256 bytes of a memory. *)
Definition eeprom_ok (e : SMBusEEPROMDevice) : Prop := length (data e) = 256%nat /\ is_uint 8 (offset e).

(** The bytes read from [c] on are those that were written there. *)
Lemma eeprom_written_read c bs e e' : eeprom_ok e -> eeprom_ok e' -> is_uint 8 c -> (length bs <= 256)%nat ->
  data e' = data (eeprom_write_data c bs e) ->
  exists e2, dev_read c 0 (length bs) e' = (bs, e2) /\ data e2 = data e'.
Proof.
  intros [L Ho] [L' Ho'] Hc Lb E. destruct (eeprom_read_at c (length bs) 0 e') as [R1 R2]; [lia|done|done|].
  destruct (dev_read c 0 (length bs) e') as [vs e2]. cbn [fst snd Z.eqb] in R1, R2. exists e2. split; [|done]. f_equal. rewrite R1.
  rewrite <- (aread_all bs) at 2. unfold aread. apply map_ext_in. intros j Hj. apply in_seq in Hj. rewrite Z.add_0_l, E.
  assert (B : is_uint 8 ((c + Z.of_nat j) mod 256)) by (apply Z.mod_pos_bound; lia).
  rewrite (proj1 (eeprom_write_at c bs e _ L Hc Lb B)).
  replace (((c + Z.of_nat j) mod 256 - c) mod 256) with (Z.of_nat j); [by rewrite (proj2 (Z.ltb_lt _ _)) by lia|].
  rewrite Zminus_mod_idemp_l. rewrite Z.mod_small; lia.
Qed.

(** C26: a block that the guest stores in a memory through the registers of the
    controller is what it reads back.  A block write puts the number of bytes
    and the bytes into the memory from the command on, around its end, and
    nothing else on the bus changes; a block read in any later state in which
    the memory still holds them returns exactly the bytes, and changes no byte. *)
Theorem smb_block_roundtrip a c bs e (s : @PMSMBus SMBusEEPROMDevice) :
  smb_ok s -> 0 <= a < 128 -> is_uint 8 c -> Forall (is_uint 8) bs -> (length bs <= 32)%nat ->
  device_at a e s -> eeprom_ok e ->
  exists s1 e1, store_block a c bs s = Some s1 /\ smb_ok s1 /\ device_at a e1 s1 /\ eeprom_ok e1 /\
    (forall k, is_uint 8 k -> Z.of_nat (length bs) < (k - c) mod 256 -> aget (data e1) k = aget (data e) k) /\
    (forall b e', b <> a -> device_at b e' s -> device_at b e' s1) /\
    forall s2 e2, smb_ok s2 -> device_at a e2 s2 -> eeprom_ok e2 -> data e2 = data e1 ->
      exists s3 e3, fetch_block a c s2 = Some (bs, s3) /\ device_at a e3 s3 /\ data e3 = data e1.
Proof.
  intros O Ha Hc Fb Lb At [Le Ho]. destruct (store_block_spec a c bs e s O Ha Hc Fb Lb At) as (s1 & E1 & O1 & At1 & Oth).
  set (buf := Z.of_nat (length bs) :: bs) in *. assert (Lbuf : (length buf <= 256)%nat) by (cbn; lia).
  change (dev_write (c :: buf) e) with (eeprom_write_data c buf e) in At1.
  assert (Ok1 : eeprom_ok (eeprom_write_data c buf e)).
  { split; [|done]. apply (eeprom_write_at c buf e 0); done || lia. }
  exists s1, (eeprom_write_data c buf e). do 4 (split; [done|]). split; [|split; [done|]].
  - intros k Hk Hout. rewrite (proj1 (eeprom_write_at c buf e k Le Hc Lbuf Hk)), (proj2 (Z.ltb_ge _ _)); [done|]. cbn [length buf]. lia.
  - intros s2 e2 O2 At2 Ok2 D2. destruct (eeprom_written_read c buf e e2 (conj Le Ho) Ok2 Hc Lbuf D2) as (e3 & R & D3).
    destruct (fetch_block_spec a c e2 s2 (length bs) bs e3 O2 Ha Hc At2 R) as (s3 & E3 & At3 & _); try done.
    exists s3, e3. by rewrite D3.
Qed.

(** Two memories, as a board with two modules has them. *)
Definition two_modules : list (i2c_slave (SMBusDevice SMBusEEPROMDevice)) :=
  map (fun a => mkSlave a (mkDev SMBUS_IDLE 0 (replicate 34 0) 0 (smbus_eeprom_init (replicate 256 0)))) [0x50; 0x51].

Lemma two_modules_idle : Forall (fun d => idle (slave d)) two_modules.
Proof. repeat constructor. Qed.

Lemma smb_bus_at_rest_witness : exists s, reachable two_modules s /\ smb_ok s.
Proof.
  destruct (smb_ioport_writeb SMBHSTADD 0xa3 (pm_smbus_init two_modules)) as [s|] eqn:E; [|discriminate].
  exists s. assert (R : reachable two_modules s) by (eapply reach_write; [apply reach_init|exact E]).
  split; [exact R|]. exact (proj1 (smb_bus_at_rest two_modules s two_modules_idle R)).
Defined.

Lemma smb_block_roundtrip_witness : exists s1 s3,
  store_block 0x51 250 [1; 2; 3; 4; 5; 6; 7; 8] (pm_smbus_init two_modules) = Some s1 /\
  fetch_block 0x51 250 s1 = Some ([1; 2; 3; 4; 5; 6; 7; 8], s3).
Proof.
  destruct (smb_block_roundtrip 0x51 250 [1; 2; 3; 4; 5; 6; 7; 8] (smbus_eeprom_init (replicate 256 0)) (pm_smbus_init two_modules))
    as (s1 & e1 & E1 & O1 & A1 & Ok1 & _ & _ & H).
  - apply (smb_reachable_ok two_modules); [exact two_modules_idle|apply reach_init].
  - lia.
  - unfold is_uint; lia.
  - repeat constructor; done.
  - cbn; lia.
  - exists 1%nat. eexists. split; [reflexivity|]. split; reflexivity.
  - split; [reflexivity|unfold is_uint; cbn; lia].
  - destruct (H s1 e1 O1 A1 Ok1 eq_refl) as (s3 & e3 & E3 & _). exists s1, s3. split; assumption.
Defined.

End PMSMBus.
