(* ===== verification/Qcow2Cache.v ===== *)
(** * The metadata caches of qcow2 images (src/qemu/block/qcow2-cache.c)

    An open qcow2 image has two write-back caches of clusters with metadata, one
    for second level tables and one for blocks of reference counts
    (src/qemu/block/qcow2.c, [qcow2_open]).  A table in use is pinned by its
    reference count and changed in place; dirty tables are written back when they
    are replaced or flushed.  A cache may depend on the other: its tables reach
    the file only after the tables of the other, and a flush of the file.

    The state holds both caches, so a pointer to a cache is a [cache_id], and a
    pointer to a table is the number of its entry.  The file below is any
    [Block.Protocol] with a flush; every access to it may fail ([TableFile]).
    [abort] is [None], and so is a recursion through more than
    [cache_fuel] caches, which the theorems exclude.

    The theorems: the caches are transparent, whatever accesses fail; a
    successful flush leaves nothing behind; writes keep the order of the
    dependency. *)
From S2P Require Import Prelude Block.
From stdpp Require Import list.
#[local] Open Scope Z_scope.
#[local] Open Scope c_scope.

Module Qcow2Cache.
Export Block.

Definition ENOENT : Z := 2.
Definition ENOSPC : Z := 28.
Definition INT_MAX : Z := 0x7fffffff.

Inductive cache_id := L2_TABLE_CACHE | REFCOUNT_BLOCK_CACHE.

#[global] Instance cache_id_eq_dec : EqDecision cache_id.
Proof. solve_decision. Defined.

Record Qcow2CachedTable := mkTable {
  table : list Z;
  offset : Z;
  dirty : bool;
  cache_hits : Z;
  ref : Z
}.

Record Qcow2Cache := mkCache {
  entries : list Qcow2CachedTable;
  depends : option cache_id;
  depends_on_flush : bool;
  writethrough : bool
}.

Definition set_table v e := mkTable v (offset e) (dirty e) (cache_hits e) (ref e).
Definition set_offset v e := mkTable (table e) v (dirty e) (cache_hits e) (ref e).
Definition set_dirty v e := mkTable (table e) (offset e) v (cache_hits e) (ref e).
Definition set_cache_hits v e := mkTable (table e) (offset e) (dirty e) v (ref e).
Definition set_ref v e := mkTable (table e) (offset e) (dirty e) (cache_hits e) v.

Definition set_entries v c := mkCache v (depends c) (depends_on_flush c) (writethrough c).
Definition set_depends v c := mkCache (entries c) v (depends_on_flush c) (writethrough c).
Definition set_depends_on_flush v c := mkCache (entries c) (depends c) v (writethrough c).

(** [bdrv_flush]. *)
Class Flushable (F : Type) := file_flush : F -> Z * F.

Section Cache.
Context {F : Type} {proto : Protocol F} {flushable : Flushable F}.

Record state := mkState { file : F; l2_table_cache : Qcow2Cache; refcount_block_cache : Qcow2Cache }.
Implicit Types st : state.

Definition set_file f st := mkState f (l2_table_cache st) (refcount_block_cache st).
Definition cache (c : cache_id) st : Qcow2Cache :=
  match c with L2_TABLE_CACHE => l2_table_cache st | REFCOUNT_BLOCK_CACHE => refcount_block_cache st end.
Definition upd_cache (c : cache_id) (f : Qcow2Cache -> Qcow2Cache) st : state :=
  match c with
  | L2_TABLE_CACHE => mkState (file st) (f (l2_table_cache st)) (refcount_block_cache st)
  | REFCOUNT_BLOCK_CACHE => mkState (file st) (l2_table_cache st) (f (refcount_block_cache st))
  end.
Definition entry (c : cache_id) (i : nat) st : option Qcow2CachedTable := entries (cache c st) !! i.
Definition upd (c : cache_id) (i : nat) (f : Qcow2CachedTable -> Qcow2CachedTable) st : state :=
  upd_cache c (fun x => set_entries (alter f i (entries x)) x) st.
Definition size (c : cache_id) st : nat := length (entries (cache c st)).

(** The buffer of every entry starts as [uninit]. *)
Definition qcow2_cache_create (uninit : list Z) (num_tables : nat) (wt : bool) : Qcow2Cache :=
  mkCache (replicate num_tables (mkTable uninit 0 false 0 0)) None false wt.

(** The assertion is [None]. *)
Definition qcow2_cache_destroy (c : Qcow2Cache) : option Z :=
  if forallb (fun e => ref e =? 0) (entries c) then Some 0 else None.

(** ** Writing back *)

(** The recursion goes through the flush of the cache depended on. *)
Section Flush.
Context (flush : cache_id -> state -> option (Z * state)).

Definition flush_dependency_with (c : cache_id) st : option (Z * state) :=
  d ← depends (cache c st);
  '(ret, st) ← flush d st;
  if ret <? 0 then Some (ret, st)
  else Some (0, upd_cache c (fun x => set_depends_on_flush false (set_depends None x)) st).

Definition wait_dependency (c : cache_id) st : option (Z * state) :=
  match depends (cache c st) with
  | Some _ => flush_dependency_with c st
  | None =>
      if depends_on_flush (cache c st) then
        let '(ret, f) := file_flush (file st) in
        let st := set_file f st in
        Some (ret, if 0 <=? ret then upd_cache c (set_depends_on_flush false) st else st)
      else Some (0, st)
  end.

Definition write_entry (c : cache_id) (i : nat) st : option (Z * state) :=
  e ← entry c i st;
  let '(ret, f) := file_pwrite (file st) (offset e) (table e) in
  let st := set_file f st in
  if ret <? 0 then Some (ret, st) else Some (0, upd c i (set_dirty false) st).

Definition entry_flush_with (c : cache_id) (i : nat) st : option (Z * state) :=
  e ← entry c i st;
  if negb (dirty e) || (offset e =? 0) then Some (0, st)
  else
    '(ret, st) ← wait_dependency c st;
    if ret <? 0 then Some (ret, st) else write_entry c i st.

Fixpoint flush_entries (n : nat) (c : cache_id) (i : nat) (result : Z) st : option (Z * state) :=
  match n with
  | O => Some (result, st)
  | S n =>
      '(ret, st) ← entry_flush_with c i st;
      let result := if (ret <? 0) && negb (result =? - ENOSPC) then ret else result in
      flush_entries n c (S i) result st
  end.

Definition flush_with (c : cache_id) st : option (Z * state) :=
  '(result, st) ← flush_entries (size c st) c 0 0 st;
  if result =? 0 then
    let '(ret, f) := file_flush (file st) in
    Some (if ret <? 0 then ret else result, set_file f st)
  else Some (result, st).

End Flush.

Fixpoint cache_flush (fuel : nat) (c : cache_id) st : option (Z * state) :=
  match fuel with
  | O => None
  | S fuel => flush_with (cache_flush fuel) c st
  end.

Definition cache_fuel : nat := 2.
Definition qcow2_cache_flush := cache_flush cache_fuel.
Definition qcow2_cache_flush_dependency := flush_dependency_with qcow2_cache_flush.
Definition qcow2_cache_entry_flush := entry_flush_with qcow2_cache_flush.

Definition qcow2_cache_set_dependency (c dependency : cache_id) st : option (Z * state) :=
  '(ret, st) ← match depends (cache dependency st) with
               | Some _ => qcow2_cache_flush_dependency dependency st
               | None => Some (0, st)
               end;
  if ret <? 0 then Some (ret, st)
  else
    '(ret, st) ← match depends (cache c st) with
                 | Some d => if decide (d = dependency) then Some (0, st) else qcow2_cache_flush_dependency c st
                 | None => Some (0, st)
                 end;
    if ret <? 0 then Some (ret, st) else Some (0, upd_cache c (set_depends (Some dependency)) st).

Definition qcow2_cache_depends_on_flush (c : cache_id) st : state := upd_cache c (set_depends_on_flush true) st.

(** ** Tables in use *)

(** The least used entry without references, and the entries with their hits
    halved. *)
Fixpoint find_victim (l : list Qcow2CachedTable) (i : nat) (min_count : Z) (min_index : option nat) :
    option nat * list Qcow2CachedTable :=
  match l with
  | [] => (min_index, [])
  | e :: l =>
      if truthy (ref e) then
        let '(r, l) := find_victim l (S i) min_count min_index in (r, e :: l)
      else
        let '(min_count, min_index) :=
          if cache_hits e <? min_count then (cache_hits e, Some i) else (min_count, min_index) in
        let '(r, l) := find_victim l (S i) min_count min_index in
        (r, set_cache_hits (Z.quot (cache_hits e) 2) e :: l)
  end.

Definition qcow2_cache_find_entry_to_replace (c : cache_id) st : option (nat * state) :=
  let '(r, l) := find_victim (entries (cache c st)) 0 INT_MAX None in
  i ← r;
  Some (i, upd_cache c (set_entries l) st).

Fixpoint find_offset (l : list Qcow2CachedTable) (i : nat) (o : Z) : option nat :=
  match l with
  | [] => None
  | e :: l => if offset e =? o then Some i else find_offset l (S i) o
  end.

Definition take_ref (e : Qcow2CachedTable) : Qcow2CachedTable := set_ref (ref e + 1) (set_cache_hits (s32 (cache_hits e + 1)) e).

(** A result and, when it is not negative, the pointer to the table. *)
Definition qcow2_cache_do_get (c : cache_id) (o : Z) (read_from_disk : bool) st : option (Z * nat * state) :=
  match find_offset (entries (cache c st)) 0 o with
  | Some i => Some (0, i, upd c i take_ref st)
  | None =>
      '(i, st) ← qcow2_cache_find_entry_to_replace c st;
      '(ret, st) ← qcow2_cache_entry_flush c i st;
      if ret <? 0 then Some (ret, i, st)
      else
        let st := upd c i (set_offset 0) st in
        e ← entry c i st;
        let '(ret, buf) := if read_from_disk then file_pread (file st) o (table e) else (0, table e) in
        let st := upd c i (set_table buf) st in
        if ret <? 0 then Some (ret, i, st)
        else Some (0, i, upd c i (fun e => take_ref (set_offset o (set_cache_hits 32 e))) st)
  end.

Definition qcow2_cache_get (c : cache_id) (o : Z) := qcow2_cache_do_get c o true.
Definition qcow2_cache_get_empty (c : cache_id) (o : Z) := qcow2_cache_do_get c o false.

Definition qcow2_cache_put (c : cache_id) (p : nat) st : option (Z * state) :=
  match entry c p st with
  | None => Some (- ENOENT, st)
  | Some e =>
      let st := upd c p (set_ref (ref e - 1)) st in
      if ref e - 1 <? 0 then None
      else if writethrough (cache c st) then qcow2_cache_entry_flush c p st
      else Some (0, st)
  end.

Definition qcow2_cache_entry_mark_dirty (c : cache_id) (p : nat) st : option state :=
  _ ← entry c p st;
  Some (upd c p (set_dirty true) st).

End Cache.
Arguments state F : clear implicits.

(** ** A file that may fail *)

(** A read that succeeds returns the bytes of the file; a write that fails may
    leave anything in its range, and changes nothing else; a flush changes
    nothing that is read. *)
Class TableFile (F : Type) {proto : Protocol F} {flushable : Flushable F} := {
  tlen : F -> Z;
  tbyte : F -> Z -> Z;
  tfile_ok : F -> Prop;
  tread f off buf : tfile_ok f -> 0 <= off -> off + Zlength buf <= tlen f -> Forall (is_uint 8) buf ->
    let '(r, buf') := file_pread f off buf in
    length buf' = length buf /\ Forall (is_uint 8) buf' /\ (0 <= r -> buf' = window (tbyte f) off (length buf));
  twrite f off bs : tfile_ok f -> 0 <= off -> bs <> [] -> Forall (is_uint 8) bs ->
    let '(r, f') := file_pwrite f off bs in
    tfile_ok f' /\ tlen f <= tlen f' /\
    (forall i, 0 <= i < tlen f -> i < off \/ off + Zlength bs <= i -> tbyte f' i = tbyte f i) /\
    (0 <= r -> off + Zlength bs <= tlen f' /\ forall i, off <= i < off + Zlength bs -> tbyte f' i = aget bs (i - off));
  tflush f : tfile_ok f ->
    let '(r, f') := file_flush f in
    tfile_ok f' /\ tlen f' = tlen f /\ forall i, tbyte f' i = tbyte f i
}.

(** What is done to a file. *)
Inductive fevent := EPwrite (o : Z) (t : list Z) (r : Z) | EFlush (r : Z).

Inductive runs {F} `{Protocol F} `{Flushable F} : F -> list fevent -> F -> Prop :=
| runs_nil f : runs f [] f
| runs_write f evs f1 o t r f2 : runs f evs f1 -> file_pwrite f1 o t = (r, f2) -> runs f (evs ++ [EPwrite o t r]) f2
| runs_flush f evs f1 r f2 : runs f evs f1 -> file_flush f1 = (r, f2) -> runs f (evs ++ [EFlush r]) f2.

Lemma runs_app {F} `{Protocol F} `{Flushable F} (f1 f2 f3 : F) e1 e2 : runs f1 e1 f2 -> runs f2 e2 f3 -> runs f1 (e1 ++ e2) f3.
Proof.
  intros R1 R2. induction R2 as [|f evs f2 o t r f3 R IH E|f evs f2 r f3 R IH E].
  - by rewrite app_nil_r.
  - rewrite app_assoc. eapply runs_write; [by apply IH|done].
  - rewrite app_assoc. eapply runs_flush; [by apply IH|done].
Qed.

Section Laws.
Context {F : Type} {proto : Protocol F} {flushable : Flushable F} {tf : TableFile F}.
Context (cs : nat) (Hcs : (0 < cs)%nat).
Implicit Types st : state F.

(** ** The invariant *)

(** The places of tables. *)
Definition placed (o : Z) : Prop := 0 < o /\ (Z.of_nat cs | o).

Definition in_file (f : F) (o : Z) (t : list Z) : Prop := o + Z.of_nat cs <= tlen f /\ t = window (tbyte f) o cs.

(** A file that does not fail. *)
Definition works : Prop :=
  (forall f o t, tfile_ok f -> 0 <= o -> t <> [] -> Forall (is_uint 8) t -> 0 <= fst (file_pwrite f o t)) /\
  (forall f, tfile_ok f -> 0 <= fst (file_flush f)) /\
  (forall f o buf, tfile_ok f -> 0 <= o -> o + Zlength buf <= tlen f -> 0 <= fst (file_pread f o buf)).

(** The result of a function: negative only when the file fails. *)
Definition outcome (r : Z) : Prop := r <= 0 /\ (works -> r = 0).

Record cache_ok st : Prop := {
  co_file : tfile_ok (file st);
  co_table c i e : entry c i st = Some e -> length (table e) = cs /\ Forall (is_uint 8) (table e) /\ 0 <= ref e;
  co_placed c i e : entry c i st = Some e -> offset e <> 0 -> placed (offset e);
  co_unique c i e c' i' e' : entry c i st = Some e -> entry c' i' st = Some e' -> offset e = offset e' -> offset e <> 0 ->
    c = c' /\ i = i';
  co_clean c i e : entry c i st = Some e -> offset e <> 0 -> ref e = 0 -> dirty e = false -> in_file (file st) (offset e) (table e);
  co_acyclic c d : depends (cache c st) = Some d -> d <> c /\ depends (cache d st) = None
}.

(** The table at [o] as the user of the caches sees it. *)
Definition cached (o : Z) st : Prop := exists c i e, entry c i st = Some e /\ offset e = o.
Definition holds st (o : Z) (t : list Z) : Prop :=
  (exists c i e, entry c i st = Some e /\ offset e = o /\ table e = t) \/ (~ cached o st /\ in_file (file st) o t).

Lemma entry_upd c i f st c' i' :
  entry c' i' (upd c i f st) = if decide (c = c' /\ i = i') then f <$> entry c' i' st else entry c' i' st.
Proof.
  unfold entry, upd. destruct (decide (c = c' /\ i = i')) as [[<- <-]|N].
  - destruct c; cbn; by rewrite list_lookup_alter_eq.
  - destruct c, c'; cbn; try done; apply list_lookup_alter_ne; naive_solver.
Qed.

Lemma entry_upd_eq c i f st : entry c i (upd c i f st) = f <$> entry c i st.
Proof. rewrite entry_upd. by rewrite decide_True. Qed.

Lemma entry_set_file c i f st : entry c i (set_file f st) = entry c i st.
Proof. by destruct c. Qed.

Lemma cache_set_file c f st : cache c (set_file f st) = cache c st.
Proof. by destruct c. Qed.

Lemma cache_upd_cache c f st c' : cache c' (upd_cache c f st) = if decide (c = c') then f (cache c' st) else cache c' st.
Proof. by destruct c, c'. Qed.

Lemma file_upd_cache c f st : file (upd_cache c f st) = file st.
Proof. by destruct c. Qed.

Lemma file_upd c i f st : file (upd c i f st) = file st.
Proof. apply file_upd_cache. Qed.

Lemma depends_upd c i f st c' : depends (cache c' (upd c i f st)) = depends (cache c' st).
Proof. unfold upd. rewrite cache_upd_cache. by destruct (decide _). Qed.

Lemma placed_apart o o' i : placed o -> placed o' -> o <> o' -> o' <= i < o' + Z.of_nat cs -> i < o \/ o + Z.of_nat cs <= i.
Proof. intros [_ [a ->]] [_ [b ->]] N Hi. assert (a < b \/ b < a) by (destruct (Z.lt_trichotomy a b) as [|[->|]]; lia). nia. Qed.

(** What is kept by a write of a table. *)
Lemma in_file_write f f' r o t o' t' : tfile_ok f -> placed o -> placed o' -> o <> o' -> length t = cs -> Forall (is_uint 8) t ->
  file_pwrite f o t = (r, f') -> in_file f o' t' -> in_file f' o' t'.
Proof.
  intros Ok P P' N L B E [I1 ->]. pose proof (twrite f o t Ok) as W. rewrite E in W.
  destruct W as (_ & Len & Old & _); [destruct P; lia|by destruct t; cbn in *; [lia|]|done|]. split; [lia|].
  apply window_ext. intros i Hi. symmetry. destruct P'. apply Old; [lia|]. unfold Zlength. rewrite L.
  apply (placed_apart o o'); done || lia.
Qed.

Lemma in_file_written f f' r o t : tfile_ok f -> placed o -> length t = cs -> Forall (is_uint 8) t ->
  file_pwrite f o t = (r, f') -> 0 <= r -> in_file f' o t.
Proof.
  intros Ok P L B E Hr. pose proof (twrite f o t Ok) as W. rewrite E in W.
  destruct W as (_ & _ & _ & New); [destruct P; lia|by destruct t; cbn in *; [lia|]|done|]. destruct (New Hr) as [Len W].
  unfold Zlength in *. rewrite L in *. split; [done|]. rewrite <- L. apply window_eq. rewrite L. intros i Hi. rewrite W by lia. f_equal. lia.
Qed.

(** ** Writing back *)

(** The caches [W] wrote some of their dirty tables. *)
Record flushed (W : cache_id -> Prop) st (evs : list fevent) st' : Prop := {
  fl_runs : runs (file st) evs (file st');
  fl_ok : cache_ok st';
  fl_entry c i e : entry c i st = Some e -> exists b, entry c i st' = Some (set_dirty b e) /\ (b = true -> dirty e = true);
  fl_size c : size c st' = size c st;
  fl_file o t : placed o -> (forall c i e, entry c i st = Some e -> offset e = o -> dirty e = false) ->
    in_file (file st) o t -> in_file (file st') o t;
  fl_dirty c i e : entry c i st = Some e -> dirty e = true -> offset e <> 0 ->
    entry c i st' = Some e \/ exists r, 0 <= r /\ EPwrite (offset e) (table e) r ∈ evs;
  fl_writes o t r : EPwrite o t r ∈ evs -> exists c i e, W c /\ entry c i st = Some e /\ offset e = o /\ o <> 0 /\ table e = t;
  fl_depends c : depends (cache c st') = None \/ depends (cache c st') = depends (cache c st);
  fl_writethrough c : writethrough (cache c st') = writethrough (cache c st)
}.

Lemma set_dirty_same e : set_dirty (dirty e) e = e.
Proof. by destruct e. Qed.

Lemma flushed_refl W st : cache_ok st -> flushed W st [] st.
Proof.
  intros Ok. constructor; try done.
  - apply runs_nil.
  - intros c i e E. exists (dirty e). by rewrite set_dirty_same.
  - by left.
  - intros o t r H. by apply elem_of_nil in H.
  - by right.
Qed.

Lemma flushed_weaken (W W' : cache_id -> Prop) st evs st' : (forall c, W c -> W' c) -> flushed W st evs st' -> flushed W' st evs st'.
Proof.
  intros H []. constructor; try done. intros o t r E. destruct (fl_writes0 o t r E) as (c & i & e & Wc & R). exists c, i, e. by auto.
Qed.

Lemma flushed_back W st evs st' c i e' : flushed W st evs st' -> entry c i st' = Some e' ->
  exists e, entry c i st = Some e /\ e' = set_dirty (dirty e') e /\ (dirty e' = true -> dirty e = true).
Proof.
  intros Fl E'. destruct (entry c i st) as [e|] eqn:E.
  - destruct (fl_entry _ _ _ _ Fl c i e E) as (b & Eb & Hb). rewrite E' in Eb. injection Eb as ->. by exists e.
  - exfalso. apply lookup_ge_None_1 in E. apply lookup_lt_Some in E'. pose proof (fl_size _ _ _ _ Fl c). unfold size in *. lia.
Qed.

Lemma flushed_trans W st1 e1 st2 e2 st3 : flushed W st1 e1 st2 -> flushed W st2 e2 st3 -> flushed W st1 (e1 ++ e2) st3.
Proof.
  intros F1 F2. constructor.
  - eapply runs_app; [apply F1|apply F2].
  - apply F2.
  - intros c i e E. destruct (fl_entry _ _ _ _ F1 c i e E) as (b & E1 & H1).
    destruct (fl_entry _ _ _ _ F2 c i _ E1) as (b' & E2 & H2). exists b'. split; [done|]. by auto.
  - intros c. rewrite (fl_size _ _ _ _ F2). apply F1.
  - intros o t P C I. apply (fl_file _ _ _ _ F2); [done| |by apply (fl_file _ _ _ _ F1)].
    intros c i e' E' O. destruct (flushed_back _ _ _ _ _ _ _ F1 E') as (e & E & Ee & D).
    destruct (dirty e'); [|done]. rewrite (C c i e E) in D by (rewrite <- O, Ee; done). by symmetry; apply D.
  - intros c i e E D O. destruct (fl_dirty _ _ _ _ F1 c i e E D O) as [E1|(r & Hr & I)].
    + destruct (fl_dirty _ _ _ _ F2 c i e E1 D O) as [E2|(r & Hr & I)]; [by left|]. right. exists r. split; [done|]. apply elem_of_app. by right.
    + right. exists r. split; [done|]. apply elem_of_app. by left.
  - intros o t r [I|I]%elem_of_app; [by apply (fl_writes _ _ _ _ F1) in I|].
    destruct (fl_writes _ _ _ _ F2 o t r I) as (c & i & e' & Wc & E' & O & N & T).
    destruct (flushed_back _ _ _ _ _ _ _ F1 E') as (e & E & Ee & _). rewrite Ee in O, T. by exists c, i, e.
  - intros c. destruct (fl_depends _ _ _ _ F2 c) as [H|H]; [by left|]. rewrite H. apply F1.
  - intros c. rewrite (fl_writethrough _ _ _ _ F2). apply F1.
Qed.

(** A flush of the file. *)
Lemma file_flush_step W st r f : cache_ok st -> file_flush (file st) = (r, f) -> flushed W st [EFlush r] (set_file f st).
Proof.
  intros Ok E. pose proof (tflush (file st) (co_file _ Ok)) as T. rewrite E in T. destruct T as (T1 & T2 & T3).
  assert (I : forall o t, in_file (file st) o t -> in_file f o t).
  { intros o t [I1 ->]. split; [lia|]. apply window_ext. intros i _. by rewrite T3. }
  constructor.
  - by eapply (runs_flush _ []); [apply runs_nil|].
  - destruct Ok. constructor; try done; intros c; rewrite ?cache_set_file; intros; rewrite ?entry_set_file, ?cache_set_file in *; eauto.
  - intros c i e Ee. exists (dirty e). by rewrite entry_set_file, set_dirty_same.
  - intros c. unfold size. by rewrite cache_set_file.
  - intros o t _ _. apply I.
  - intros c i e Ee _ _. left. by rewrite entry_set_file.
  - intros o t r' H. apply list_elem_of_singleton in H. done.
  - intros c. right. by rewrite cache_set_file.
  - intros c. by rewrite cache_set_file.
Qed.

(** A write of a table, which is then clean if the write succeeded. *)
Section Write.
Context (c : cache_id) (i : nat) (e : Qcow2CachedTable) (st : state F) (r : Z) (f : F).
Hypothesis Ok : cache_ok st.
Hypothesis He : entry c i st = Some e.
Hypothesis Hd : dirty e = true.
Hypothesis Ho : offset e <> 0.
Hypothesis E : file_pwrite (file st) (offset e) (table e) = (r, f).

Let st' := if r <? 0 then set_file f st else upd c i (set_dirty false) (set_file f st).

Lemma written_file_ok : tfile_ok f.
Proof.
  destruct (co_table _ Ok _ _ _ He) as (L & B & _). destruct (co_placed _ Ok _ _ _ He Ho).
  pose proof (twrite (file st) (offset e) (table e) (co_file _ Ok)) as T. rewrite E in T. apply T; [lia| |done].
  destruct (table e); cbn in L; [lia|done].
Qed.

Lemma written_works : works -> 0 <= r.
Proof.
  intros (Ww & _). destruct (co_table _ Ok _ _ _ He) as (L & B & _). destruct (co_placed _ Ok _ _ _ He Ho).
  specialize (Ww (file st) (offset e) (table e) (co_file _ Ok)). rewrite E in Ww. apply Ww; [lia| |done].
  destruct (table e); cbn in L; [lia|done].
Qed.

Lemma written_in_file o t : placed o -> offset e <> o -> in_file (file st) o t -> in_file f o t.
Proof.
  intros Po N. destruct (co_table _ Ok _ _ _ He) as (L & B & _).
  apply (in_file_write _ _ r (offset e) (table e)); try done; [apply Ok|by eapply co_placed].
Qed.

Lemma written_file : file st' = f.
Proof. unfold st'. destruct (r <? 0); [done|by rewrite file_upd]. Qed.

Lemma written_same c' : depends (cache c' st') = depends (cache c' st) /\ writethrough (cache c' st') = writethrough (cache c' st) /\
  size c' st' = size c' st.
Proof.
  unfold st', upd, size. destruct (r <? 0); rewrite ?cache_upd_cache, !cache_set_file; [done|]. destruct (decide _); [|done].
  cbn. by rewrite length_alter.
Qed.

Lemma written_entry c' i' e0 : entry c' i' st = Some e0 ->
  exists b, entry c' i' st' = Some (set_dirty b e0) /\ (b = dirty e0 \/ c = c' /\ i = i' /\ 0 <= r /\ b = false).
Proof.
  intros E0. unfold st'. destruct (Z.ltb_spec r 0); rewrite ?entry_upd, entry_set_file, E0.
  - exists (dirty e0). rewrite set_dirty_same. auto.
  - destruct (decide _) as [[<- <-]|]; [exists false; by auto 6|]. exists (dirty e0). rewrite set_dirty_same. auto.
Qed.

Lemma written_back c' i' e' : entry c' i' st' = Some e' ->
  exists e0, entry c' i' st = Some e0 /\ e' = set_dirty (dirty e') e0 /\ (dirty e' = dirty e0 \/ c = c' /\ i = i' /\ 0 <= r).
Proof.
  intros E'. destruct (entry c' i' st) as [e0|] eqn:E0.
  - destruct (written_entry _ _ _ E0) as (b & Eb & H). rewrite E' in Eb. injection Eb as ->. exists e0. cbn.
    destruct H as [H|(H1 & H2 & H3 & _)]; auto 6.
  - apply lookup_ge_None_1 in E0. apply lookup_lt_Some in E'. pose proof (written_same c') as (_ & _ & L). unfold size in L. lia.
Qed.

Lemma written_ok : cache_ok st'.
Proof.
  constructor.
  - rewrite written_file. apply written_file_ok.
  - intros c' i' e' (e0 & E0 & -> & _)%written_back. exact (co_table _ Ok _ _ _ E0).
  - intros c' i' e' (e0 & E0 & -> & _)%written_back. exact (co_placed _ Ok _ _ _ E0).
  - intros c1 i1 e1 c2 i2 e2 (x1 & E1 & -> & _)%written_back (x2 & E2 & -> & _)%written_back. exact (co_unique _ Ok _ _ _ _ _ _ E1 E2).
  - intros c' i' e' E' O' R' D'. rewrite written_file. destruct (written_back _ _ _ E') as (e0 & E0 & X & C).
    rewrite X in O', R' |- *. cbn in *. pose proof (co_placed _ Ok _ _ _ E0 O') as P0.
    destruct (decide (offset e = offset e0)) as [Eo|No].
    + destruct (co_unique _ Ok _ _ _ _ _ _ He E0 Eo Ho) as [<- <-]. rewrite He in E0. injection E0 as <-.
      destruct (co_table _ Ok _ _ _ He) as (L & B & _). destruct C as [C|(_ & _ & Hr)]; [congruence|].
      apply (in_file_written (file st) f r); try done. apply Ok.
    + apply written_in_file; [done..|]. apply (co_clean _ Ok _ _ _ E0); try done. destruct C as [C|(-> & -> & _)]; congruence.
  - intros c' d. destruct (written_same c') as (-> & _), (written_same d) as (-> & _). apply Ok.
Qed.

Lemma write_step (W : cache_id -> Prop) : W c -> flushed W st [EPwrite (offset e) (table e) r] st'.
Proof.
  intros Wc. constructor.
  - rewrite written_file. by eapply (runs_write _ []); [apply runs_nil|].
  - apply written_ok.
  - intros c' i' e0 E0. destruct (written_entry _ _ _ E0) as (b & Eb & H). exists b. split; [done|]. intros ->. by destruct H as [H|(_ & _ & _ & H)].
  - intros c'. apply written_same.
  - intros o t Po C. rewrite written_file. apply written_in_file; [done|]. intros N. rewrite (C _ _ _ He N) in Hd. done.
  - intros c' i' e0 E0 D0 O0. destruct (written_entry _ _ _ E0) as (b & Eb & H). destruct H as [->|(<- & <- & Hr & ->)].
    + left. by rewrite Eb, set_dirty_same.
    + right. exists r. rewrite He in E0. injection E0 as <-. split; [done|]. by apply list_elem_of_singleton.
  - intros o t r' [= -> -> ->]%list_elem_of_singleton. by exists c, i, e.
  - intros c'. right. apply written_same.
  - intros c'. apply written_same.
Qed.

End Write.

(** A cache without its dependency. *)
Lemma dependency_step W c g st : cache_ok st -> (forall x, entries (g x) = entries x) -> (forall x, writethrough (g x) = writethrough x) ->
  (forall x, depends (g x) = None \/ depends (g x) = depends x) -> flushed W st [] (upd_cache c g st).
Proof.
  intros Ok Ge Gw Gd.
  assert (En : forall c' i', entry c' i' (upd_cache c g st) = entry c' i' st).
  { intros c' i'. unfold entry. rewrite cache_upd_cache. destruct (decide _); [|done]. by rewrite Ge. }
  assert (De : forall c', depends (cache c' (upd_cache c g st)) = None \/ depends (cache c' (upd_cache c g st)) = depends (cache c' st)).
  { intros c'. rewrite cache_upd_cache. destruct (decide _); [apply Gd|by right]. }
  constructor; rewrite ?file_upd_cache; try done.
  - apply runs_nil.
  - constructor; rewrite ?file_upd_cache; try apply Ok; intros c'; try (setoid_rewrite En; apply Ok).
    intros d E. destruct (De c') as [H|H]; [congruence|]. rewrite H in E. destruct (co_acyclic _ Ok _ _ E) as [N X].
    split; [done|]. destruct (De d) as [->| ->]; done.
  - intros c' i e E. exists (dirty e). by rewrite En, set_dirty_same.
  - intros c'. unfold size. rewrite cache_upd_cache. destruct (decide _); [|done]. by rewrite Ge.
  - intros c' i e E _ _. left. by rewrite En.
  - intros o t r H. by apply elem_of_nil in H.
  - intros c'. rewrite cache_upd_cache. destruct (decide _); [apply Gw|done].
Qed.

(** ** The order of writes *)

(** All of [P] was written and then the file flushed. *)
Definition settled (P : Z -> list Z -> Prop) (evs : list fevent) : Prop :=
  exists a r b, evs = a ++ EFlush r :: b /\ 0 <= r /\ forall o t, P o t -> exists r', 0 <= r' /\ EPwrite o t r' ∈ a.

Definition owned (c : cache_id) (o : Z) st : Prop := exists i e, entry c i st = Some e /\ offset e = o.

(** After [pre], writes of the cache [c] come when [P] is settled. *)
Definition guarded (c : cache_id) (P : Z -> list Z -> Prop) st (pre evs : list fevent) : Prop :=
  forall a o t r b, evs = a ++ EPwrite o t r :: b -> owned c o st -> settled P (pre ++ a).

(** [P] is settled, or [c] depends on [d] and what is not yet written is dirty there. *)
Definition ready (c d : cache_id) (P : Z -> list Z -> Prop) st (pre : list fevent) : Prop :=
  settled P pre \/
  depends (cache c st) = Some d /\
  forall o t, P o t -> (exists i e, entry d i st = Some e /\ dirty e = true /\ o <> 0 /\ offset e = o /\ table e = t) \/
                       exists r, 0 <= r /\ EPwrite o t r ∈ pre.

Lemma settled_app P a b : settled P a -> settled P (a ++ b).
Proof. intros (x & r & y & -> & H). exists x, r, (y ++ b). by rewrite <- app_assoc. Qed.

Lemma owned_flushed W c o st evs st' : flushed W st evs st' -> owned c o st -> owned c o st'.
Proof. intros Fl (i & e & E & O). destruct (fl_entry _ _ _ _ Fl c i e E) as (b & E' & _). by exists i, (set_dirty b e). Qed.

Lemma guarded_app W c P st pre e1 st1 e2 : flushed W st e1 st1 -> guarded c P st pre e1 -> guarded c P st1 (pre ++ e1) e2 ->
  guarded c P st pre (e1 ++ e2).
Proof.
  intros Fl G1 G2 a o t r b E Ow. apply app_eq_inv in E as [(k & E1 & E2)|(k & E1 & E2)]; swap 1 2.
  - subst a. rewrite app_assoc. eapply G2; [done|by eapply owned_flushed].
  - destruct k as [|x k]; [|injection E2 as <- E2; by eapply (G1 a)].
    rewrite app_nil_r in E1. subst. replace (pre ++ a) with ((pre ++ a) ++ []) by apply app_nil_r.
    eapply (G2 [] o t r b); [done|by eapply owned_flushed].
Qed.

Lemma ready_flushed W c d P st evs st' pre : flushed W st evs st' -> depends (cache c st') = depends (cache c st) ->
  ready c d P st pre -> ready c d P st' (pre ++ evs).
Proof.
  intros Fl D [H|[Dc H]]; [left; by apply settled_app|]. right. split; [congruence|]. intros o t Po.
  destruct (H o t Po) as [(i & e & E & De & N & <- & <-)|(r & Hr & I)].
  - destruct (fl_dirty _ _ _ _ Fl d i e E De N) as [E'|(r & Hr & I)]; [left; by exists i, e|].
    right. exists r. split; [done|]. apply elem_of_app. by right.
  - right. exists r. split; [done|]. apply elem_of_app. by left.
Qed.

Definition clean_cache (c : cache_id) st : Prop := forall i e, entry c i st = Some e -> offset e <> 0 -> dirty e = false.

(** What is expected of the flush of a cache that does not depend on another. *)
Definition flush_spec (flush : cache_id -> state F -> option (Z * state F)) : Prop :=
  forall d st, cache_ok st -> depends (cache d st) = None ->
  exists r evs st', flush d st = Some (r, st') /\ flushed (eq d) st evs st' /\ outcome r /\
    (forall x, depends (cache x st') = depends (cache x st)) /\
    (r = 0 -> clean_cache d st' /\ exists e1 r0, evs = e1 ++ [EFlush r0] /\ 0 <= r0).

Section FlushSpec.
Context (flush : cache_id -> state F -> option (Z * state F)).

(** Nothing to wait for, or a flush that works. *)
Definition can_wait c st : Prop := depends (cache c st) = None \/ flush_spec flush.

Definition dependents c st (x : cache_id) : Prop := depends (cache c st) = Some x.

Lemma can_wait_flushed W c st evs st' : flushed W st evs st' -> can_wait c st -> can_wait c st'.
Proof. intros Fl [H|H]; [left|by right]. destruct (fl_depends _ _ _ _ Fl c) as [?|E]; congruence. Qed.

Lemma settled_by_flush c d P st st' pre e1 r0 : ready c d P st pre -> depends (cache c st) = Some d ->
  flushed (dependents c st) st (e1 ++ [EFlush r0]) st' -> clean_cache d st' -> 0 <= r0 -> settled P (pre ++ e1 ++ [EFlush r0]).
Proof.
  intros [H|[_ H]] D Fl Cl Hr; [by apply settled_app|]. exists (pre ++ e1), r0, []. split; [by rewrite app_assoc|]. split; [done|].
  intros o t Po. destruct (H o t Po) as [(i & e & E & De & N & <- & <-)|(r & Hr' & I)].
  - destruct (fl_dirty _ _ _ _ Fl d i e E De N) as [E'|(r & Hr' & I)]; [by rewrite (Cl i e E' N) in De|].
    exists r. split; [done|]. apply elem_of_app. right. apply elem_of_app in I as [I|I]; [done|]. by apply list_elem_of_singleton in I.
  - exists r. split; [done|]. apply elem_of_app. by left.
Qed.

Lemma wait_spec c st : cache_ok st -> can_wait c st ->
  exists r evs st', wait_dependency flush c st = Some (r, st') /\ flushed (dependents c st) st evs st' /\ (works -> 0 <= r) /\
    (forall x, x <> c -> depends (cache x st') = depends (cache x st)) /\
    forall d P pre, ready c d P st pre -> (0 <= r -> settled P (pre ++ evs)) /\ ready c d P st' (pre ++ evs).
Proof.
  intros Ok Can. unfold wait_dependency. destruct (depends (cache c st)) as [d|] eqn:D.
  - destruct Can as [|Hf]; [congruence|]. destruct (co_acyclic _ Ok _ _ D) as [Nd Dd].
    destruct (Hf d st Ok Dd) as (r & evs & st1 & E & Fl & Hr & Dx & H0). unfold flush_dependency_with. rewrite D. cbn [mbind option_bind]. rewrite E. cbn [mbind option_bind].
    apply (flushed_weaken _ (dependents c st)) in Fl; [|by intros ? <-].
    destruct (Z.ltb_spec r 0).
    + exists r, evs, st1. do 2 (split; [done|]). split; [intros Wk; destruct Hr as [_ Hr]; rewrite Hr; done|]. split; [done|].
      intros d' P pre R. split; [lia|]. by eapply ready_flushed.
    + destruct H0 as (Cl & e1 & r0 & -> & Hr0); [destruct Hr; lia|]. eexists 0, (e1 ++ [EFlush r0]), _. split; [reflexivity|].
      split; [|split; [done|split]].
      * replace (e1 ++ [EFlush r0]) with ((e1 ++ [EFlush r0]) ++ []) by apply app_nil_r. eapply flushed_trans; [exact Fl|]. apply dependency_step; try done; [apply Fl|]. by left.
      * intros x N. rewrite cache_upd_cache, decide_False by done. apply Dx.
      * intros d' P pre R. assert (S : settled P (pre ++ e1 ++ [EFlush r0])); [|by split; [|left]].
        destruct R as [R|R]; [by apply settled_app|]. assert (d' = d) as -> by (destruct R; congruence).
        eapply settled_by_flush; try done. by right.
  - assert (N : forall d P pre, ready c d P st pre -> settled P pre) by (intros d P pre [H|[H _]]; [done|congruence]).
    destruct (depends_on_flush (cache c st)).
    + destruct (file_flush (file st)) as [r f] eqn:E. eexists r, [EFlush r], _. split; [reflexivity|].
      pose proof (file_flush_step (dependents c st) st r f Ok E) as Fl. split; [|split; [|split]].
      * destruct (0 <=? r); [|done]. change [EFlush r] with ([EFlush r] ++ []). eapply flushed_trans; [exact Fl|].
        apply dependency_step; try done; [apply Fl|by right].
      * intros (_ & Wf & _). specialize (Wf (file st) (co_file _ Ok)). by rewrite E in Wf.
      * intros x Nx. destruct (0 <=? r); rewrite ?cache_upd_cache, ?decide_False by done; by rewrite cache_set_file.
      * intros d P pre R%N. split; [intros _|left]; by apply settled_app.
    + exists 0, [], st. split; [done|]. split; [by apply flushed_refl|]. do 2 (split; [done|]). intros d P pre R%N.
      split; [intros _|left]; by apply settled_app.
Qed.

(** The flush of an entry. *)
Lemma entry_flush_spec c i st : cache_ok st -> can_wait c st -> (i < size c st)%nat ->
  exists r evs st', entry_flush_with flush c i st = Some (r, st') /\ flushed (fun x => x = c \/ dependents c st x) st evs st' /\ outcome r /\
    (forall x, x <> c -> depends (cache x st') = depends (cache x st)) /\
    (r = 0 -> exists e, entry c i st' = Some e /\ (offset e <> 0 -> dirty e = false)) /\
    forall d P pre, ready c d P st pre -> guarded c P st pre evs /\ ready c d P st' (pre ++ evs).
Proof.
  intros Ok Can Hi. unfold entry_flush_with. destruct (lookup_lt_is_Some_2 (entries (cache c st)) i Hi) as [e E].
  change (entry c i st = Some e) in E. rewrite E. cbn [mbind option_bind].
  destruct (negb (dirty e) || (offset e =? 0)) eqn:Q.
  - exists 0, [], st. split; [done|]. split; [by apply flushed_refl|]. do 2 (split; [done|]). split.
    + intros _. exists e. split; [done|]. intros O. apply orb_true_iff in Q as [Q|Q]; [by destruct (dirty e)|]. apply Z.eqb_eq in Q. done.
    + intros d P pre R. rewrite app_nil_r. split; [|done]. intros a o t r b Eq. by destruct a.
  - apply orb_false_iff in Q as [Q1 Q2]. apply negb_false_iff in Q1. apply Z.eqb_neq in Q2.
    destruct (wait_spec c st Ok Can) as (r & ew & st1 & -> & Fl & Wr & Dx & Rd). cbn [mbind option_bind].
    pose proof (flushed_weaken _ (fun x => x = c \/ dependents c st x) _ _ _ (fun x H => or_intror H) Fl) as Fl'.
    assert (Gw : forall P pre, guarded c P st pre ew).
    { intros P pre a o t r' b -> (j & e' & Ej & Oj). destruct (fl_writes _ _ _ _ Fl o t r') as (x & k & e0 & Dw & Ek & Ok' & No & _).
      { apply elem_of_app. right. by left. }
      assert (x = c /\ k = j) as [-> _] by (eapply (co_unique _ Ok); [exact Ek|exact Ej|congruence|congruence]).
      by destruct (co_acyclic _ Ok _ _ Dw). }
    destruct (Z.ltb_spec r 0).
    { exists r, ew, st1. split; [done|]. split; [done|]. split; [split; [lia|intros Wk; specialize (Wr Wk); lia]|]. split; [done|]. split; [lia|].
      intros d P pre R. split; [done|]. by apply Rd. }
    destruct (fl_dirty _ _ _ _ Fl c i e E Q1 Q2) as [E1|(r' & _ & I)].
    2: { apply (fl_writes _ _ _ _ Fl) in I as (x & k & e0 & Dw & Ek & Ok' & No & _).
         assert (x = c /\ k = i) as [-> _] by (eapply (co_unique _ Ok); [exact Ek|exact E|congruence|congruence]).
         by destruct (co_acyclic _ Ok _ _ Dw). }
    unfold write_entry. rewrite E1. cbn [mbind option_bind]. destruct (file_pwrite (file st1) (offset e) (table e)) as [rw f] eqn:Ew.
    pose proof (write_step c i e st1 rw f (fl_ok _ _ _ _ Fl) E1 Q1 Q2 Ew (fun x => x = c \/ dependents c st x) (or_introl eq_refl)) as Fw.
    exists (if rw <? 0 then rw else 0), (ew ++ [EPwrite (offset e) (table e) rw]),
      (if rw <? 0 then set_file f st1 else upd c i (set_dirty false) (set_file f st1)).
    split; [by destruct (rw <? 0)|]. split; [exact (flushed_trans _ _ _ _ _ _ Fl' Fw)|]. split.
    { split; [zcases; lia|]. intros Wk. pose proof (written_works c i e st1 rw f (fl_ok _ _ _ _ Fl) E1 Q2 Ew Wk). zcases; lia. }
    assert (Dc : forall x, depends (cache x (if rw <? 0 then set_file f st1 else upd c i (set_dirty false) (set_file f st1))) = depends (cache x st1)).
    { intros x. by destruct (rw <? 0); rewrite ?depends_upd, cache_set_file. }
    split; [intros x N; rewrite Dc; by apply Dx|]. split.
    + intros Hr. exists (set_dirty false e). split; [|done]. destruct (rw <? 0) eqn:Hw; [lia|]. by rewrite entry_upd_eq, entry_set_file, E1.
    + intros d P pre R. destruct (Rd d P pre R) as [S1 R1]. split.
      * eapply guarded_app; [exact Fl'|apply Gw|]. intros a o t r' b Eq _. destruct a as [|? [|]]; try done.
        rewrite app_nil_r. by apply S1.
      * rewrite app_assoc. eapply ready_flushed; [exact Fw|apply Dc|done].
Qed.

Definition writers c st (x : cache_id) : Prop := x = c \/ dependents c st x.

Lemma writers_later W c st evs st' x : flushed W st evs st' -> writers c st' x -> writers c st x.
Proof.
  intros Fl [->|H]; [by left|]. right. unfold dependents in *. destruct (fl_depends _ _ _ _ Fl c) as [E|E]; congruence.
Qed.

Lemma flush_entries_spec c n : forall i result st, cache_ok st -> can_wait c st -> (i + n = size c st)%nat -> result <= 0 ->
  exists r evs st', flush_entries flush n c i result st = Some (r, st') /\ flushed (writers c st) st evs st' /\ (r <= 0 /\ (works -> result = 0 -> r = 0)) /\
    (forall x, x <> c -> depends (cache x st') = depends (cache x st)) /\
    (r = 0 -> result = 0 /\ forall j e, (i <= j)%nat -> entry c j st' = Some e -> offset e <> 0 -> dirty e = false) /\
    forall d P pre, ready c d P st pre -> guarded c P st pre evs /\ ready c d P st' (pre ++ evs).
Proof.
  induction n as [|n IH]; intros i result st Ok Can Hn Hr; cbn [flush_entries].
  { exists result, [], st. split; [done|]. split; [by apply flushed_refl|]. do 2 (split; [done|]). split.
    - intros ->. split; [done|]. intros j e Hj Ej%lookup_lt_Some. unfold size in Hn. lia.
    - intros d P pre R. rewrite app_nil_r. split; [|done]. intros a o t r b Eq. by destruct a. }
  destruct (entry_flush_spec c i st Ok Can) as (r1 & e1 & st1 & -> & F1 & Hr1 & D1 & C1 & O1); [lia|]. cbn [mbind option_bind].
  set (result1 := if _ && _ then r1 else result).
  destruct (IH (S i) result1 st1) as (r & e2 & st2 & -> & F2 & Hr2 & D2 & C2 & O2).
  { apply F1. } { by eapply can_wait_flushed. } { rewrite (fl_size _ _ _ _ F1). lia. } { unfold result1. destruct Hr1. by destruct (_ && _). }
  exists r, (e1 ++ e2), st2. split; [done|]. split; [|split; [|split; [|split]]].
  - eapply flushed_trans; [exact F1|]. eapply flushed_weaken; [|exact F2]. intros x Hx. by eapply writers_later in Hx.
  - split; [apply Hr2|]. intros Wk ->. apply Hr2; [done|]. unfold result1. destruct Hr1 as [_ ->]; done.
  - intros x N. rewrite D2 by done. by apply D1.
  - intros R0. destruct (C2 R0) as [Z1 Cl]. unfold result1 in Z1. destruct (Z.ltb_spec r1 0); cbn [andb] in Z1.
    { exfalso. destruct (Z.eqb_spec result (- ENOSPC)); cbn in Z1; unfold ENOSPC in *; lia. }
    split; [done|]. intros j e Hj Ej Oj. destruct (decide (j = i)) as [->|]; [|apply (Cl j); done || lia].
    destruct C1 as (e' & E' & C'); [destruct Hr1; lia|]. destruct (fl_entry _ _ _ _ F2 c i e' E') as (b & Eb & Hb). rewrite Ej in Eb. injection Eb as ->.
    cbn in *. destruct b; [|done]. rewrite C' in Hb by done. by symmetry; apply Hb.
  - intros d P pre R. destruct (O1 d P pre R) as [G1 R1]. destruct (O2 d P _ R1) as [G2 R2]. rewrite app_assoc. split; [|done].
    by eapply guarded_app.
Qed.

Lemma flush_with_spec c st : cache_ok st -> can_wait c st ->
  exists r evs st', flush_with flush c st = Some (r, st') /\ flushed (writers c st) st evs st' /\ outcome r /\
    (forall x, x <> c -> depends (cache x st') = depends (cache x st)) /\
    (r = 0 -> clean_cache c st' /\ exists e1 r0, evs = e1 ++ [EFlush r0] /\ 0 <= r0) /\
    forall d P pre, ready c d P st pre -> guarded c P st pre evs /\ ready c d P st' (pre ++ evs).
Proof.
  intros Ok Can. unfold flush_with.
  destruct (flush_entries_spec c (size c st) 0 0 st Ok Can) as (r & evs & st1 & -> & Fl & Hr & D & C & O); [done|done|]. cbn [mbind option_bind].
  destruct (Z.eqb_spec r 0) as [->|N].
  2: { exists r, evs, st1. do 2 (split; [done|]). split; [split; [apply Hr|intros Wk; by apply Hr]|]. split; [done|]. split; [lia|done]. }
  destruct (file_flush (file st1)) as [r0 f] eqn:E. pose proof (file_flush_step (writers c st) st1 r0 f (fl_ok _ _ _ _ Fl) E) as Ff.
  eexists _, (evs ++ [EFlush r0]), _. split; [reflexivity|]. split; [by eapply flushed_trans|].
  split; [split; [zcases; lia|intros (_ & Wf & _); specialize (Wf (file st1) (co_file _ (fl_ok _ _ _ _ Fl))); rewrite E in Wf; cbn in Wf; zcases; lia]|].
  split; [intros x N; rewrite cache_set_file; by apply D|]. split.
  - intros R0. destruct (Z.ltb_spec r0 0); [lia|]. split; [|by exists evs, r0]. destruct (C eq_refl) as [_ Cl]. intros i e Ei.
    rewrite entry_set_file in Ei. apply (Cl i); [lia|done].
  - intros d P pre R. destruct (O d P pre R) as [G R1]. split.
    + eapply guarded_app; [exact Fl|exact G|]. intros a o t r b Eq. destruct a as [|? [|]]; done.
    + rewrite app_assoc. eapply ready_flushed; [exact Ff|by rewrite cache_set_file|done].
Qed.

End FlushSpec.

(** A cache that depends on no other, and so the cache that depends on it. *)
Lemma leaf_flush_spec n : flush_spec (cache_flush (S n)).
Proof.
  intros d st Ok D. destruct (flush_with_spec (cache_flush n) d st Ok (or_introl D)) as (r & evs & st' & E & Fl & Hr & Dx & C & _).
  exists r, evs, st'. split; [done|]. split; [|split; [done|split; [|done]]].
  - eapply flushed_weaken; [|exact Fl]. intros x [->|H]; [done|]. unfold dependents in H. congruence.
  - intros x. destruct (decide (x = d)) as [->|N]; [|by apply Dx]. destruct (fl_depends _ _ _ _ Fl d) as [H|H]; congruence.
Qed.

Lemma can_always_wait n c st : can_wait (cache_flush (S n)) c st.
Proof. right. apply leaf_flush_spec. Qed.

(** ** Updating an entry *)

Lemma flushed_cached W st evs st' o : flushed W st evs st' -> cached o st' -> cached o st.
Proof. intros Fl (c & i & e & E & O). destruct (flushed_back _ _ _ _ _ _ _ Fl E) as (e0 & E0 & X & _). rewrite X in O. by exists c, i, e0. Qed.

Lemma flushed_holds W st evs st' o t : flushed W st evs st' -> placed o -> holds st o t -> holds st' o t.
Proof.
  intros Fl P [(c & i & e & E & O & T)|[N I]].
  - left. destruct (fl_entry _ _ _ _ Fl c i e E) as (b & E' & _). by exists c, i, (set_dirty b e).
  - right. split; [by intros C%(flushed_cached _ _ _ _ _ Fl)|]. apply (fl_file _ _ _ _ Fl); [done| |done].
    intros c i e E O. exfalso. apply N. by exists c, i, e.
Qed.

Section Update.
Context (c : cache_id) (i : nat) (g : Qcow2CachedTable -> Qcow2CachedTable) (e : Qcow2CachedTable) (st : state F).
Hypothesis Ok : cache_ok st.
Hypothesis He : entry c i st = Some e.

Lemma upd_entry c' i' e' : entry c' i' (upd c i g st) = Some e' ->
  c = c' /\ i = i' /\ e' = g e \/ ~ (c = c' /\ i = i') /\ entry c' i' st = Some e'.
Proof.
  rewrite entry_upd. destruct (decide _) as [[<- <-]|N]; [|by right]. rewrite He. intros [= <-]. by left.
Qed.

Lemma upd_ok : length (table (g e)) = cs -> Forall (is_uint 8) (table (g e)) -> 0 <= ref (g e) ->
  (offset (g e) <> 0 -> placed (offset (g e))) ->
  (forall c' i' e', entry c' i' st = Some e' -> offset e' = offset (g e) -> offset e' <> 0 -> c = c' /\ i = i') ->
  (offset (g e) <> 0 -> ref (g e) = 0 -> dirty (g e) = false -> in_file (file st) (offset (g e)) (table (g e))) ->
  cache_ok (upd c i g st).
Proof.
  intros L B R P U C. constructor.
  - rewrite file_upd. apply Ok.
  - intros c' i' e' [(<- & <- & ->)|[_ E']]%upd_entry; [done|]. by eapply co_table.
  - intros c' i' e' [(<- & <- & ->)|[_ E']]%upd_entry; [done|]. by eapply co_placed.
  - intros c1 i1 e1 c2 i2 e2 [(<- & <- & ->)|[N1 E1]]%upd_entry [(<- & <- & ->)|[N2 E2]]%upd_entry Eo No.
    + done.
    + exact (U c2 i2 e2 E2 (eq_sym Eo) ltac:(congruence)).
    + destruct (U c1 i1 e1 E1 Eo No) as [<- <-]. done.
    + by eapply co_unique.
  - intros c' i' e' [(<- & <- & ->)|[_ E']]%upd_entry; rewrite file_upd; [done|]. by eapply co_clean.
  - intros c' d. rewrite !depends_upd. apply Ok.
Qed.

Lemma upd_holds o t : o <> 0 -> holds st o t ->
  (offset e = o -> offset (g e) = o -> table (g e) = table e) ->
  (offset e = o -> offset (g e) <> o -> in_file (file st) o (table e)) ->
  (offset e <> o -> offset (g e) = o -> in_file (file st) o t -> table (g e) = t) ->
  holds (upd c i g st) o t.
Proof.
  intros No H H1 H2 H3. unfold holds. rewrite file_upd. destruct H as [(c0 & i0 & e0 & E0 & O0 & <-)|[N I]].
  - destruct (decide (c = c0 /\ i = i0)) as [[<- <-]|D].
    + rewrite He in E0. injection E0 as <-. destruct (decide (offset (g e) = o)) as [Og|Og].
      * left. exists c, i, (g e). rewrite entry_upd_eq, He. split; [done|]. split; [done|]. by apply H1.
      * right. split; [|by apply H2]. intros (c' & i' & e' & [(<- & <- & ->)|[Nc E']]%upd_entry & O'); [done|].
        apply Nc. eapply (co_unique _ Ok); [exact He|exact E'|congruence|congruence].
    + left. exists c0, i0, e0. by rewrite entry_upd, decide_False.
  - assert (Ne : offset e <> o) by (intros X; apply N; by exists c, i, e). destruct (decide (offset (g e) = o)) as [Og|Og].
    + left. exists c, i, (g e). rewrite entry_upd_eq, He. split; [done|]. split; [done|]. by apply H3.
    + right. split; [|done]. intros (c' & i' & e' & [(<- & <- & ->)|[Nc E']]%upd_entry & O'); [done|]. apply N. by exists c', i', e'.
Qed.

(** Changes of an entry that keep its table in place. *)
Lemma upd_kept : table (g e) = table e -> offset (g e) = offset e -> 0 <= ref (g e) ->
  (offset e <> 0 -> ref (g e) = 0 -> dirty (g e) = false -> in_file (file st) (offset e) (table e)) ->
  cache_ok (upd c i g st) /\ forall o t, o <> 0 -> holds st o t -> holds (upd c i g st) o t.
Proof.
  intros T O R C. destruct (co_table _ Ok _ _ _ He) as (L & B & _). split.
  - apply upd_ok; rewrite ?T, ?O; try done; [by eapply co_placed|]. intros c' i' e' E' Eo No.
    eapply (co_unique _ Ok); [exact He|exact E'|congruence|congruence].
  - intros o t No H. apply upd_holds; try done; intros; congruence.
Qed.

End Update.

(** ** Looking for an entry *)

Lemma lookup_shift {A} (x : A) l i k y : (S i <= k)%nat -> l !! (k - S i)%nat = Some y -> (x :: l) !! (k - i)%nat = Some y.
Proof. intros Hk E. by replace (k - i)%nat with (S (k - S i)) by lia. Qed.

Lemma find_offset_spec l o : forall i,
  match find_offset l i o with
  | Some k => exists e, (i <= k)%nat /\ l !! (k - i)%nat = Some e /\ offset e = o
  | None => forall j e, l !! j = Some e -> offset e <> o
  end.
Proof.
  induction l as [|e l IH]; intros i; cbn [find_offset]; [done|]. destruct (Z.eqb_spec (offset e) o).
  - exists e. by rewrite Nat.sub_diag.
  - specialize (IH (S i)). destruct (find_offset l (S i) o) as [k|].
    + destruct IH as (e' & Hk & E & O). exists e'. split; [lia|]. split; [by apply lookup_shift|done].
    + intros [|j] e' E; [by injection E as <-|by apply (IH j)].
Qed.

(** Hits fade, and nothing else changes. *)
Definition faded (e e' : Qcow2CachedTable) : Prop :=
  exists h, e' = set_cache_hits h e /\ (0 <= cache_hits e -> 0 <= h <= cache_hits e).

Lemma faded_refl e : faded e e.
Proof. exists (cache_hits e). split; [by destruct e|lia]. Qed.

Lemma find_victim_faded l : forall i mc mi, Forall2 faded l (snd (find_victim l i mc mi)).
Proof.
  induction l as [|e l IH]; intros i mc mi; cbn [find_victim]; [constructor|]. destruct (truthy (ref e)).
  - specialize (IH (S i) mc mi). destruct (find_victim l (S i) mc mi). constructor; [apply faded_refl|done].
  - destruct (cache_hits e <? mc).
    1: specialize (IH (S i) (cache_hits e) (Some i)). 2: specialize (IH (S i) mc mi).
    all: destruct (find_victim l (S i) _ _); constructor; [|done]; eexists; (split; [reflexivity|]); intros;
      rewrite Z.quot_div_nonneg by lia; split; [apply Z.div_pos; lia|apply Z.div_le_upper_bound; lia].
Qed.

Lemma find_victim_free l : forall i mc mi k, fst (find_victim l i mc mi) = Some k ->
  mi = Some k \/ exists e, (i <= k)%nat /\ l !! (k - i)%nat = Some e /\ ref e = 0.
Proof.
  induction l as [|e l IH]; intros i mc mi k; cbn [find_victim]; [by left|].
  assert (Sh : forall mi', (mi' = Some k \/ exists e, (S i <= k)%nat /\ l !! (k - S i)%nat = Some e /\ ref e = 0) ->
     mi' = Some k \/ exists e0, (i <= k)%nat /\ (e :: l) !! (k - i)%nat = Some e0 /\ ref e0 = 0).
  { intros mi' [->|(e0 & Hk & E & R)]; [by left|]. right. exists e0. split; [lia|]. split; [by apply lookup_shift|done]. }
  destruct (truthy (ref e)) eqn:T.
  - specialize (IH (S i) mc mi k). destruct (find_victim l (S i) mc mi). cbn [fst] in *. auto.
  - assert (ref e = 0) by (unfold truthy in T; lia). destruct (cache_hits e <? mc).
    + specialize (IH (S i) (cache_hits e) (Some i) k). destruct (find_victim l (S i) _ _). cbn [fst] in *. intros H'.
      destruct (Sh _ (IH H')) as [[= ->]|]; [|by right]. right. exists e. by rewrite Nat.sub_diag.
    + specialize (IH (S i) mc mi k). destruct (find_victim l (S i) mc mi). cbn [fst] in *. auto.
Qed.

Lemma find_victim_some l : forall i mc mi, mi <> None \/ Exists (fun e => ref e = 0 /\ cache_hits e < mc) l ->
  exists k, fst (find_victim l i mc mi) = Some k.
Proof.
  induction l as [|e l IH]; intros i mc mi H; cbn [find_victim].
  { destruct H as [H|H]; [|by inversion H]. destruct mi as [k|]; [by exists k|done]. }
  assert (H' : mi <> None \/ (ref e = 0 /\ cache_hits e < mc) \/ Exists (fun e => ref e = 0 /\ cache_hits e < mc) l).
  { destruct H as [H|H]; [by left|]. inversion H; auto. }
  destruct (truthy (ref e)) eqn:T.
  - specialize (IH (S i) mc mi). destruct (find_victim l (S i) mc mi). apply IH. destruct H' as [?|[[R _]|?]]; auto. rewrite R in T. done.
  - destruct (Z.ltb_spec (cache_hits e) mc).
    + specialize (IH (S i) (cache_hits e) (Some i)). destruct (find_victim l (S i) _ _). apply IH. by left.
    + specialize (IH (S i) mc mi). destruct (find_victim l (S i) mc mi). apply IH. destruct H' as [?|[[_ R]|?]]; auto. lia.
Qed.

(** States that differ in the hits only. *)
Record similar st st' : Prop := {
  sim_file : file st' = file st;
  sim_depends c : depends (cache c st') = depends (cache c st);
  sim_writethrough c : writethrough (cache c st') = writethrough (cache c st);
  sim_entry c : Forall2 faded (entries (cache c st)) (entries (cache c st'))
}.

Lemma similar_back st st' c i e' : similar st st' -> entry c i st' = Some e' -> exists e, entry c i st = Some e /\ faded e e'.
Proof. intros Sm E. apply (Forall2_lookup_r _ _ _ _ _ (sim_entry _ _ Sm c) E). Qed.

Lemma similar_forth st st' c i e : similar st st' -> entry c i st = Some e -> exists e', entry c i st' = Some e' /\ faded e e'.
Proof. intros Sm E. apply (Forall2_lookup_l _ _ _ _ _ (sim_entry _ _ Sm c) E). Qed.

Lemma similar_ok st st' : similar st st' -> cache_ok st -> cache_ok st'.
Proof.
  intros Sm Ok. constructor; rewrite ?(sim_file _ _ Sm).
  - apply Ok.
  - intros c i e' (e & E & h & -> & _)%(similar_back _ _ _ _ _ Sm). exact (co_table _ Ok _ _ _ E).
  - intros c i e' (e & E & h & -> & _)%(similar_back _ _ _ _ _ Sm). exact (co_placed _ Ok _ _ _ E).
  - intros c i e1 c' i' e1' (e & E & h & -> & _)%(similar_back _ _ _ _ _ Sm) (e' & E' & h' & -> & _)%(similar_back _ _ _ _ _ Sm).
    exact (co_unique _ Ok _ _ _ _ _ _ E E').
  - intros c i e' (e & E & h & -> & _)%(similar_back _ _ _ _ _ Sm). exact (co_clean _ Ok _ _ _ E).
  - intros c d. rewrite !(sim_depends _ _ Sm). apply Ok.
Qed.

Lemma similar_holds st st' o t : similar st st' -> holds st o t -> holds st' o t.
Proof.
  intros Sm [(c & i & e & E & O & T)|[N I]].
  - left. destruct (similar_forth _ _ _ _ _ Sm E) as (e' & E' & h & -> & _). by exists c, i, (set_cache_hits h e).
  - right. rewrite (sim_file _ _ Sm). split; [|done]. intros (c & i & e' & (e & E & h & -> & _)%(similar_back _ _ _ _ _ Sm) & O).
    apply N. by exists c, i, e.
Qed.

Lemma victim_similar c st i st' : qcow2_cache_find_entry_to_replace c st = Some (i, st') ->
  similar st st' /\ exists e, entry c i st' = Some e /\ ref e = 0.
Proof.
  unfold qcow2_cache_find_entry_to_replace. pose proof (find_victim_faded (entries (cache c st)) 0 INT_MAX None) as Fa.
  pose proof (find_victim_free (entries (cache c st)) 0 INT_MAX None) as Fr.
  destruct (find_victim (entries (cache c st)) 0 INT_MAX None) as [[k|] l']; [|done]. cbn [fst snd mbind option_bind] in *. intros [= <- <-].
  assert (Sm : similar st (upd_cache c (set_entries l') st)).
  { constructor; try apply file_upd_cache; intros c'; rewrite cache_upd_cache; destruct (decide (c = c')) as [<-|]; try done.
    apply Forall_Forall2_diag, Forall_true. intros. apply faded_refl. }
  split; [done|]. destruct (Fr k eq_refl) as [|(e1 & _ & E1 & R1)]; [done|]. rewrite Nat.sub_0_r in E1.
  destruct (similar_forth _ _ c k e1 Sm E1) as (e2 & E2 & h & -> & _). by exists (set_cache_hits h e1).
Qed.

Lemma victim_spec c st : (exists i e, entry c i st = Some e /\ ref e = 0 /\ cache_hits e < INT_MAX) ->
  exists i st', qcow2_cache_find_entry_to_replace c st = Some (i, st') /\ similar st st' /\ exists e, entry c i st' = Some e /\ ref e = 0.
Proof.
  intros (j & e & E & R & Hh). destruct (qcow2_cache_find_entry_to_replace c st) as [[i st']|] eqn:Ev.
  - exists i, st'. split; [done|]. by apply victim_similar.
  - exfalso. unfold qcow2_cache_find_entry_to_replace in Ev. destruct (find_victim_some (entries (cache c st)) 0 INT_MAX None) as [k Hk].
    { right. apply Exists_exists. exists e. split; [by eapply list_elem_of_lookup_2|done]. }
    destruct (find_victim (entries (cache c st)) 0 INT_MAX None) as [r l']. cbn [fst] in Hk. by subst r.
Qed.

(** ** Getting a table *)

(** What happens to an entry that is not the one asked for. *)
Definition keeps (e e' : Qcow2CachedTable) : Prop :=
  table e' = table e /\ offset e' = offset e /\ ref e' = ref e /\ (dirty e' = true -> dirty e = true) /\
  (0 <= cache_hits e -> 0 <= cache_hits e' <= cache_hits e).

Definition keeps_all st st' : Prop := forall c i e', entry c i st' = Some e' -> exists e, entry c i st = Some e /\ keeps e e'.

Lemma keeps_all_trans st1 st2 st3 : keeps_all st1 st2 -> keeps_all st2 st3 -> keeps_all st1 st3.
Proof.
  intros K1 K2 c i e3 (e2 & E2 & A2 & B2 & C2 & D2 & H2)%K2. destruct (K1 c i e2 E2) as (e1 & E1 & A1 & B1 & C1 & D1 & H1).
  exists e1. split; [done|]. repeat split; try congruence; auto; intros; destruct H1; try lia; destruct H2; lia.
Qed.

Lemma keeps_similar st st' : similar st st' -> keeps_all st st'.
Proof. intros Sm c i e' (e & E & h & -> & Hh)%(similar_back _ _ _ _ _ Sm). by exists e. Qed.

Lemma keeps_flushed W st evs st' : flushed W st evs st' -> keeps_all st st'.
Proof.
  intros Fl c i e' E'. destruct (flushed_back _ _ _ _ _ _ _ Fl E') as (e & E & X & D). exists e. split; [done|]. rewrite X. unfold keeps. cbn.
  split_and!; auto. lia.
Qed.

(** Making room: the table of the victim is in the file. *)
Lemma evict_spec c st : cache_ok st -> (exists i e, entry c i st = Some e /\ ref e = 0 /\ cache_hits e < INT_MAX) ->
  exists i st1 r st2 e, qcow2_cache_find_entry_to_replace c st = Some (i, st1) /\ qcow2_cache_entry_flush c i st1 = Some (r, st2) /\
    outcome r /\ cache_ok st2 /\ keeps_all st st2 /\ (forall o t, placed o -> holds st o t -> holds st2 o t) /\
    (forall c', size c' st2 = size c' st /\ writethrough (cache c' st2) = writethrough (cache c' st)) /\
    entry c i st2 = Some e /\ ref e = 0 /\ (r = 0 -> offset e <> 0 -> in_file (file st2) (offset e) (table e)).
Proof.
  intros Ok (j & ej & Ej). destruct (victim_spec c st) as (i & st1 & Ev & Sm & e1 & E1 & R1); [by exists j, ej|].
  pose proof (similar_ok _ _ Sm Ok) as Ok1.
  destruct (entry_flush_spec (cache_flush cache_fuel) c i st1 Ok1 (can_always_wait _ c st1)) as (r & evs & st2 & Ef & Fl & Hr & _ & C & _).
  { by eapply lookup_lt_Some. }
  destruct (fl_entry _ _ _ _ Fl c i e1 E1) as (b & E2 & Hb).
  exists i, st1, r, st2, (set_dirty b e1). do 3 (split; [done|]). split; [apply Fl|]. split; [|split; [|split; [|split; [done|split; [done|]]]]].
  - eapply keeps_all_trans; [by apply keeps_similar|by eapply keeps_flushed].
  - intros o t P H. eapply flushed_holds; [exact Fl|done|]. by eapply similar_holds.
  - intros c'. rewrite (fl_size _ _ _ _ Fl), (fl_writethrough _ _ _ _ Fl), (sim_writethrough _ _ Sm). split; [|done].
    symmetry. apply (Forall2_length _ _ _ (sim_entry _ _ Sm c')).
  - intros Hr0 O. destruct (C Hr0) as (e & E & D). rewrite E2 in E. injection E as <-.
    apply (co_clean _ (fl_ok _ _ _ _ Fl) _ _ _ E2); try done. by apply D.
Qed.

(** The steps of loading a table into the entry of the victim. *)
Section Load.
Context (c : cache_id) (i : nat) (o : Z) (e : Qcow2CachedTable) (st : state F) (buf : list Z).
Hypothesis Ok : cache_ok st.
Hypothesis He : entry c i st = Some e.
Hypothesis Hr : ref e = 0.
Hypothesis In : offset e <> 0 -> in_file (file st) (offset e) (table e).

Let st1 := upd c i (set_offset 0) st.

Lemma dropped_ok : cache_ok st1 /\ (forall o' t, o' <> 0 -> holds st o' t -> holds st1 o' t) /\ entry c i st1 = Some (set_offset 0 e).
Proof.
  destruct (co_table _ Ok _ _ _ He) as (L & B & _). split; [|split].
  - eapply upd_ok; try done. cbn. lia.
  - intros o' t No H. eapply upd_holds; try done.
    intros <- _. by apply In.
  - unfold st1. by rewrite entry_upd_eq, He.
Qed.

Lemma buffered_ok : length buf = cs -> Forall (is_uint 8) buf ->
  let st2 := upd c i (set_table buf) st1 in
  cache_ok st2 /\ (forall o' t, o' <> 0 -> holds st1 o' t -> holds st2 o' t) /\ entry c i st2 = Some (set_table buf (set_offset 0 e)).
Proof.
  intros L B st2. destruct dropped_ok as (Ok1 & _ & E1). split; [|split].
  - eapply (upd_ok c i _ (set_offset 0 e)); try done. cbn. lia.
  - intros o' t No H. eapply (upd_holds c i _ (set_offset 0 e)); try done; cbn; intros; congruence.
  - unfold st2. by rewrite entry_upd_eq, E1.
Qed.

Lemma loaded_table_ok : length buf = cs -> Forall (is_uint 8) buf -> placed o -> ~ cached o st ->
  let st2 := upd c i (set_table buf) st1 in
  let st3 := upd c i (fun e => take_ref (set_offset o (set_cache_hits 32 e))) st2 in
  cache_ok st3 /\ (forall o' t, o' <> 0 -> (o' = o -> buf = t) -> holds st o' t -> holds st3 o' t) /\
  entry c i st3 = Some (mkTable buf o (dirty e) 33 1).
Proof.
  intros L B P N st2 st3. destruct dropped_ok as (Ok1 & H1 & E1). destruct (buffered_ok L B) as (Ok2 & H2 & E2). fold st2 in Ok2, H2, E2.
  split; [|split].
  - eapply (upd_ok c i _ _ st2 Ok2 E2); try done; cbn; rewrite ?Hr; try done. intros c' i' e' E' Eo _. exfalso.
    assert (X : entry c' i' st2 = Some e') by done. unfold st2, st1 in X. rewrite !entry_upd in X. destruct (decide _) as [[<- <-]|D].
    + rewrite He in X. injection X as <-. cbn in Eo. destruct P. lia.
    + apply N. by exists c', i', e'.
  - intros o' t No Hb H. eapply (upd_holds c i _ _ st2 Ok2 E2); auto; cbn; intros; congruence.
  - unfold st3. rewrite entry_upd_eq, E2. cbn. unfold take_ref. cbn. by rewrite Hr.
Qed.

End Load.

(** The table [p] of cache [c] was got for offset [o]. *)
Record got (c : cache_id) (o : Z) (rd : bool) st (r : Z) (p : nat) st' : Prop := {
  got_ok : cache_ok st';
  got_result : outcome r;
  got_holds o' t : placed o' -> (o' = o -> rd = true \/ r < 0) -> holds st o' t -> holds st' o' t;
  got_others c' i e' : entry c' i st' = Some e' -> c' = c /\ i = p \/ exists e, entry c' i st = Some e /\ keeps e e';
  got_same c' : size c' st' = size c' st /\ writethrough (cache c' st') = writethrough (cache c' st);
  got_error : r < 0 -> exists e e', entry c p st = Some e /\ entry c p st' = Some e' /\ ref e' = 0 /\ ref e = 0 /\
    (offset e' = 0 \/ offset e' = offset e) /\ (0 <= cache_hits e -> 0 <= cache_hits e' <= cache_hits e);
  got_table : r = 0 -> exists e e', entry c p st = Some e /\ entry c p st' = Some e' /\ offset e' = o /\ ref e' = ref e + 1 /\
    (cache_hits e' = s32 (cache_hits e + 1) \/ cache_hits e' = 33) /\
    (rd = true -> forall t, holds st o t -> table e' = t) /\
    (rd = true -> ref e = 0 -> dirty e' = false -> in_file (file st') o (table e'))
}.

Lemma hit_spec c o rd st i e : cache_ok st -> placed o -> entry c i st = Some e -> offset e = o ->
  got c o rd st 0 i (upd c i take_ref st).
Proof.
  intros Ok P He Ho. destruct (co_table _ Ok _ _ _ He) as (_ & _ & Rn). destruct P as [Po _].
  destruct (upd_kept c i take_ref e st Ok He) as [Ok' Hh]; try done; [cbn; lia|cbn; lia|].
  constructor; try done; try lia.
  - intros o' t [P' _] _. apply Hh. lia.
  - intros c' j e' [(<- & <- & _)|[_ E']]%(upd_entry _ _ _ _ _ He); [by left|]. right. exists e'. split; [done|]. unfold keeps. split_and!; auto. lia.
  - intros c'. unfold upd, size. rewrite cache_upd_cache. destruct (decide _); [|done]. cbn. by rewrite length_alter.
  - intros _. exists e, (take_ref e). rewrite entry_upd_eq, He, file_upd. cbn. split_and!; auto.
    + intros _ t [(c' & j & e' & E' & O' & <-)|[N _]]; [|exfalso; apply N; by exists c, i, e].
      assert (c' = c /\ j = i) as [-> ->] by (eapply (co_unique _ Ok); [exact E'|exact He|congruence|lia]). congruence.
    + intros _ R D. rewrite <- Ho. eapply co_clean; try done. lia.
Qed.

Lemma upd_same c i g st c' : size c' (upd c i g st) = size c' st /\ writethrough (cache c' (upd c i g st)) = writethrough (cache c' st).
Proof. unfold upd, size. rewrite cache_upd_cache. destruct (decide _); [|done]. cbn. by rewrite length_alter. Qed.

Lemma uncached c o st : find_offset (entries (cache c st)) 0 o = None ->
  (forall c' i e, c' <> c -> entry c' i st = Some e -> offset e <> o) -> ~ cached o st.
Proof.
  intros Fo X (c' & i & e & E & O). destruct (decide (c' = c)) as [->|N]; [|by apply (X c' i e)].
  pose proof (find_offset_spec (entries (cache c st)) o 0) as Fs. rewrite Fo in Fs. by apply (Fs i e).
Qed.

Section Miss.
Context (c : cache_id) (i : nat) (o : Z) (rd : bool) (st st2 : state F) (e0 e : Qcow2CachedTable) (buf : list Z).
Hypothesis Po : placed o.
Hypothesis Ok : cache_ok st2.
Hypothesis K : keeps_all st st2.
Hypothesis Hh : forall o' t, placed o' -> holds st o' t -> holds st2 o' t.
Hypothesis Same : forall c', size c' st2 = size c' st /\ writethrough (cache c' st2) = writethrough (cache c' st).
Hypothesis E0 : entry c i st = Some e0.
Hypothesis E : entry c i st2 = Some e.
Hypothesis Ke : keeps e0 e.
Hypothesis R : ref e = 0.
Hypothesis In : offset e <> 0 -> in_file (file st2) (offset e) (table e).
Hypothesis Nc : ~ cached o st2.
Hypothesis Lb : length buf = cs.
Hypothesis Bb : Forall (is_uint 8) buf.

Let st4 := upd c i (set_table buf) (upd c i (set_offset 0) st2).
Let st5 := upd c i (fun e => take_ref (set_offset o (set_cache_hits 32 e))) st4.

Lemma miss_same c' : size c' st4 = size c' st /\ writethrough (cache c' st4) = writethrough (cache c' st).
Proof.
  unfold st4. destruct (upd_same c i (set_table buf) (upd c i (set_offset 0) st2) c') as [-> ->], (upd_same c i (set_offset 0) st2 c') as [-> ->].
  apply Same.
Qed.

Lemma miss_others c' j e' : entry c' j st4 = Some e' -> c' = c /\ j = i \/ exists e, entry c' j st = Some e /\ keeps e e'.
Proof.
  unfold st4. destruct (decide (c = c' /\ i = j)) as [[-> ->]|D]; [by left|]. rewrite !entry_upd, !decide_False by done. right. by apply K.
Qed.

Lemma miss_error r : r < 0 -> outcome r -> got c o rd st r i st4.
Proof.
  intros Hr Hout. destruct (dropped_ok c i e st2 Ok E R In) as (Ok1 & H1 & E1).
  destruct (buffered_ok c i e st2 buf Ok E R In Lb Bb) as (Ok2 & H2 & E2). fold st4 in Ok2, H2, E2.
  destruct Ke as (_ & _ & R' & _ & Hits). constructor; try done; try lia.
  - intros o' t P' _ H. pose proof P' as [Pp _]. apply H2; [lia|]. apply H1; [lia|]. by apply Hh.
  - apply miss_others.
  - apply miss_same.
  - intros _. exists e0, (set_table buf (set_offset 0 e)). split_and!; try done; [congruence|by left].
Qed.

Lemma miss_loaded : (rd = true -> in_file (file st2) o buf) -> got c o rd st 0 i st5.
Proof.
  intros Rb. destruct (loaded_table_ok c i o e st2 buf Ok E R In Lb Bb Po Nc) as (Ok3 & H3 & E3). fold st4 st5 in Ok3, H3, E3.
  destruct Ke as (_ & _ & R' & _ & Hits).
  assert (Fb : rd = true -> forall t, holds st o t -> buf = t).
  { intros Hrd t H. destruct (Rb Hrd) as [_ ->]. destruct (Hh o t Po H) as [(c' & j & e' & E' & O' & _)|[_ [_ ->]]]; [|done].
    exfalso. apply Nc. by exists c', j, e'. }
  assert (Fi : file st5 = file st2) by (unfold st5, st4; by rewrite !file_upd).
  constructor; try done; try lia.
  - intros o' t P' Ho H. pose proof P' as [Pp _]. apply H3; [lia| |by apply Hh]. intros ->. destruct (Ho eq_refl); [by apply Fb|lia].
  - intros c' j e' E'. unfold st5 in E'. rewrite entry_upd in E'. destruct (decide _) as [[-> ->]|D]; [by left|]. by apply miss_others.
  - intros c'. unfold st5. destruct (upd_same c i (fun e => take_ref (set_offset o (set_cache_hits 32 e))) st4 c') as [-> ->]. apply miss_same.
  - intros _. exists e0, (mkTable buf o (dirty e) 33 1). rewrite Fi. split_and!; try done; [cbn; lia|by right|auto].
Qed.

End Miss.

Lemma do_get_spec c o rd st : cache_ok st -> placed o ->
  (forall c' i e, c' <> c -> entry c' i st = Some e -> offset e <> o) ->
  (rd = true -> exists t, holds st o t) ->
  (exists i e, entry c i st = Some e /\ ref e = 0 /\ cache_hits e < INT_MAX) ->
  exists r p st', qcow2_cache_do_get c o rd st = Some (r, p, st') /\ got c o rd st r p st'.
Proof.
  intros Ok P X Kn V. unfold qcow2_cache_do_get. pose proof (find_offset_spec (entries (cache c st)) o 0) as Fs.
  destruct (find_offset (entries (cache c st)) 0 o) as [i|] eqn:Fo.
  { destruct Fs as (e & _ & E & O). rewrite Nat.sub_0_r in E. do 3 eexists. split; [reflexivity|]. by eapply hit_spec. }
  clear Fs. pose proof (uncached c o st Fo X) as Nc.
  destruct (evict_spec c st Ok V) as (i & st1 & r & st2 & e & -> & Ef & Hr & Ok2 & K2 & H2 & S2 & E2 & R2 & In2). cbn [mbind option_bind].
  rewrite Ef. cbn [mbind option_bind]. destruct (K2 c i e E2) as (e0 & E0 & Ke).
  destruct (Z.ltb_spec r 0).
  { exists r, i, st2. split; [done|]. constructor; try done; try lia; [by auto| |].
    - intros c' j e' E'. right. by apply K2.
    - intros _. exists e0, e. destruct Ke as (_ & O' & R' & _ & Hh). split_and!; try done; [congruence|auto]. }
  assert (r = 0) as -> by (destruct Hr; lia). specialize (In2 eq_refl).
  assert (Nc2 : ~ cached o st2). { intros (c' & j & e' & (ex & Ex & _ & Ox & _)%K2 & O'). apply Nc. exists c', j, ex. split; [done|]. congruence. }
  destruct (dropped_ok c i e st2 Ok2 E2 R2 In2) as (_ & _ & ->). cbn [mbind option_bind table set_offset]. rewrite file_upd.
  destruct (co_table _ Ok2 _ _ _ E2) as (L & B & _). destruct rd.
  - destruct (Kn eq_refl) as [t Ht]. assert (I : in_file (file st2) o t).
    { destruct (H2 o t P Ht) as [(c' & j & e' & E' & O' & _)|[_ I]]; [|done]. exfalso. apply Nc2. by exists c', j, e'. }
    pose proof (tread (file st2) o (table e) (co_file _ Ok2)) as T. destruct (file_pread (file st2) o (table e)) as [r1 buf] eqn:Ep.
    destruct I as [I ->].
    assert (Wr : works -> 0 <= r1).
    { intros (_ & _ & Wr). specialize (Wr (file st2) o (table e) (co_file _ Ok2)). rewrite Ep in Wr. apply Wr; [destruct P; lia|unfold Zlength; by rewrite L]. }
    destruct T as (T1 & T2 & T3); [destruct P; lia|unfold Zlength; rewrite L; done|done|]. rewrite L in T1, T3.
    destruct (Z.ltb_spec r1 0); do 3 eexists; (split; [reflexivity|]); [eapply miss_error; try done; split; [lia|by intros Wk; specialize (Wr Wk); lia]|].
    eapply miss_loaded; try done. intros _. split; [done|]. by apply T3.
  - do 3 eexists. split; [reflexivity|]. by eapply miss_loaded.
Qed.

(** ** Giving a table back *)

Lemma put_spec c p e st : cache_ok st -> entry c p st = Some e -> 0 < ref e ->
  (ref e = 1 -> offset e <> 0 -> dirty e = false -> in_file (file st) (offset e) (table e)) ->
  exists r st', qcow2_cache_put c p st = Some (r, st') /\ outcome r /\ cache_ok st' /\
    (forall o t, placed o -> holds st o t -> holds st' o t) /\ (forall c', size c' st' = size c' st) /\
    forall c' i e', entry c' i st' = Some e' -> exists e0, entry c' i st = Some e0 /\ offset e' = offset e0 /\
      cache_hits e' = cache_hits e0 /\ ref e' = if decide (c = c' /\ p = i) then ref e0 - 1 else ref e0.
Proof.
  intros Ok He Hr C. unfold qcow2_cache_put. rewrite He. set (st1 := upd c p (set_ref (ref e - 1)) st).
  destruct (upd_kept c p (set_ref (ref e - 1)) e st Ok He) as [Ok1 H1]; try done; [cbn; lia|intros; apply C; try done; cbn in *; lia|]. fold st1 in Ok1, H1.
  assert (B1 : forall c' i e', entry c' i st1 = Some e' -> exists e0, entry c' i st = Some e0 /\ offset e' = offset e0 /\
      cache_hits e' = cache_hits e0 /\ ref e' = if decide (c = c' /\ p = i) then ref e0 - 1 else ref e0).
  { intros c' i e' [(<- & <- & ->)|[N E']]%(upd_entry _ _ _ _ _ He).
    - exists e. by rewrite decide_True.
    - exists e'. by rewrite decide_False. }
  assert (S1 : forall c', size c' st1 = size c' st) by (intros; apply upd_same).
  assert (P0 : forall o, placed o -> o <> 0) by (intros o [? _]; lia).
  rewrite (proj2 (Z.ltb_ge _ _)) by lia. destruct (writethrough (cache c st1)).
  - destruct (entry_flush_spec (cache_flush cache_fuel) c p st1 Ok1 (can_always_wait _ c st1)) as (r & evs & st2 & E & Fl & Hr2 & _).
    { rewrite S1. by eapply lookup_lt_Some. }
    exists r, st2. do 2 (split; [done|]). split; [apply Fl|]. split; [|split].
    + intros o t Po H. eapply flushed_holds; [exact Fl|done|]. by apply H1; [apply P0|].
    + intros c'. rewrite (fl_size _ _ _ _ Fl). apply S1.
    + intros c' i e' E'. destruct (flushed_back _ _ _ _ _ _ _ Fl E') as (e1 & E1 & -> & _). exact (B1 _ _ _ E1).
  - exists 0, st1. split; [done|]. split; [done|]. split; [done|]. split; [|done]. intros o t Po. apply H1. by apply P0.
Qed.

(** ** Dependencies *)

Lemma flush_dependency_spec c d st : cache_ok st -> depends (cache c st) = Some d ->
  exists r evs st', qcow2_cache_flush_dependency c st = Some (r, st') /\ flushed (fun _ => True) st evs st' /\ outcome r /\
    (r = 0 -> depends (cache c st') = None).
Proof.
  intros Ok D. destruct (co_acyclic _ Ok _ _ D) as [_ Dd]. unfold qcow2_cache_flush_dependency, flush_dependency_with. rewrite D. cbn [mbind option_bind].
  destruct (leaf_flush_spec 1 d st Ok Dd) as (r & evs & st1 & E & Fl & Hr & _). unfold qcow2_cache_flush, cache_fuel. rewrite E. cbn [mbind option_bind].
  apply (flushed_weaken _ (fun _ => True)) in Fl; [|done]. destruct (Z.ltb_spec r 0).
  - exists r, evs, st1. split; [done|]. split; [done|]. split; [done|lia].
  - eexists 0, (evs ++ []), _. split; [reflexivity|]. split; [|split; [done|]].
    + eapply flushed_trans; [exact Fl|]. apply dependency_step; try done; [apply Fl|by left].
    + intros _. by rewrite cache_upd_cache, decide_True.
Qed.

Lemma depend_ok c d st : cache_ok st -> c <> d -> depends (cache d st) = None -> cache_ok (upd_cache c (set_depends (Some d)) st).
Proof.
  intros Ok N D. assert (En : forall c' i, entry c' i (upd_cache c (set_depends (Some d)) st) = entry c' i st).
  { intros c' i. unfold entry. rewrite cache_upd_cache. by destruct (decide _). }
  constructor; rewrite ?file_upd_cache; try apply Ok; intros c'; try (setoid_rewrite En; apply Ok).
  intros x. rewrite !cache_upd_cache. destruct (decide (c = c')) as [<-|Nc]; cbn.
  - intros [= <-]. split; [done|]. by rewrite decide_False.
  - assert (c' = d) as -> by (destruct c, c', d; done). congruence.
Qed.

Lemma set_dependency_spec c d st : cache_ok st -> c <> d ->
  exists r evs st1 st', qcow2_cache_set_dependency c d st = Some (r, st') /\ flushed (fun _ => True) st evs st1 /\ outcome r /\
    (r < 0 /\ st' = st1 \/ r = 0 /\ depends (cache d st1) = None /\ st' = upd_cache c (set_depends (Some d)) st1).
Proof.
  intros Ok N. unfold qcow2_cache_set_dependency.
  assert (H1 : exists r evs st1, match depends (cache d st) with Some _ => qcow2_cache_flush_dependency d st | None => Some (0, st) end = Some (r, st1) /\
    flushed (fun _ => True) st evs st1 /\ outcome r /\ (r = 0 -> depends (cache d st1) = None)).
  { destruct (depends (cache d st)) as [x|] eqn:D; [by eapply flush_dependency_spec|]. exists 0, [], st. split; [done|]. split; [by apply flushed_refl|done]. }
  destruct H1 as (r1 & e1 & st1 & -> & F1 & Hr1 & D1). cbn [mbind option_bind]. destruct (Z.ltb_spec r1 0).
  { exists r1, e1, st1, st1. split; [done|]. split; [done|]. split; [done|by left]. }
  specialize (D1 ltac:(destruct Hr1; lia)).
  assert (Dc : depends (cache c st1) = None \/ depends (cache c st1) = Some d).
  { destruct (depends (cache c st1)) as [x|] eqn:D; [right|by left]. destruct (co_acyclic _ (fl_ok _ _ _ _ F1) _ _ D) as [Nx _]. destruct c, x, d; done. }
  assert (Em : match depends (cache c st1) with
    | Some x => if decide (x = d) then Some (0, st1) else qcow2_cache_flush_dependency c st1 | None => Some (0, st1) end = Some (0, st1)).
  { destruct Dc as [->| ->]; [done|]. by rewrite decide_True. }
  rewrite Em. cbn [mbind option_bind Z.ltb Z.compare]. eexists 0, e1, st1, _. split; [reflexivity|]. split; [done|]. split; [done|]. by right.
Qed.

(** ** Order *)

Definition dirty_in (d : cache_id) st (o : Z) (t : list Z) : Prop :=
  exists i e, entry d i st = Some e /\ dirty e = true /\ o <> 0 /\ offset e = o /\ table e = t.

Lemma entry_flush_order c d i st : cache_ok st -> depends (cache c st) = Some d -> (i < size c st)%nat ->
  exists r evs st', qcow2_cache_entry_flush c i st = Some (r, st') /\ runs (file st) evs (file st') /\ guarded c (dirty_in d st) st [] evs.
Proof.
  intros Ok D Hi. destruct (entry_flush_spec _ c i st Ok (can_always_wait 1 c st) Hi) as (r & evs & st' & E & Fl & _ & _ & _ & O).
  exists r, evs, st'. split; [done|]. split; [apply Fl|]. apply (O d). right. split; [done|]. intros o t Po. by left.
Qed.

(** The order is that of a state with the same tables. *)
Lemma guarded_same c d st st' evs : (forall o, owned c o st -> owned c o st') -> (forall o t, dirty_in d st o t -> dirty_in d st' o t) ->
  guarded c (dirty_in d st') st' [] evs -> guarded c (dirty_in d st) st [] evs.
Proof.
  intros Ow Di G a o t r b E H. destruct (G a o t r b E (Ow o H)) as (x & r0 & y & -> & Hr & Hp). exists x, r0, y.
  split; [done|]. split; [done|]. intros o' t' H'. by apply Hp, Di.
Qed.

Definition in_order (c d : cache_id) st (f' : F) : Prop :=
  exists evs, runs (file st) evs f' /\ guarded c (dirty_in d st) st [] evs.

Lemma in_order_nothing c d st : in_order c d st (file st).
Proof. exists []. split; [constructor|]. intros a o t r b E. by destruct a. Qed.

Lemma do_get_order c d st o rd r p st' : cache_ok st -> depends (cache c st) = Some d ->
  qcow2_cache_do_get c o rd st = Some (r, p, st') -> in_order c d st (file st').
Proof.
  intros Ok D. unfold qcow2_cache_do_get. destruct (find_offset _ _ _) as [i|]; [intros [= <- <- <-]; rewrite file_upd; apply in_order_nothing|].
  destruct (qcow2_cache_find_entry_to_replace c st) as [[i st1]|] eqn:Ev; [|done]. cbn [mbind option_bind].
  apply victim_similar in Ev as (Sm & e & E & _).
  destruct (entry_flush_order c d i st1) as (r1 & evs & st2 & -> & Ru & G).
  { by eapply similar_ok. } { by rewrite (sim_depends _ _ Sm). } { by eapply lookup_lt_Some. }
  rewrite (sim_file _ _ Sm) in Ru. intros E'. exists evs. split; [|].
  - cbn [mbind option_bind] in E'. replace (file st') with (file st2); [done|]. revert E'. destruct (r1 <? 0); [by intros [= <- <- <-]|].
    destruct (entry c i (upd c i (set_offset 0) st2)) as [e2|]; [|done]. cbn [mbind option_bind].
    destruct (if rd then _ else _) as [r2 buf]. destruct (r2 <? 0); intros [= <- <- <-]; by rewrite !file_upd.
  - eapply guarded_same; [| |exact G].
    + intros o' (j & x & Ex & Ox). destruct (similar_forth _ _ _ _ _ Sm Ex) as (x' & Ex' & h & -> & _). by exists j, (set_cache_hits h x).
    + intros o' t (j & x & Ex & H). destruct (similar_forth _ _ _ _ _ Sm Ex) as (x' & Ex' & h & -> & _). by exists j, (set_cache_hits h x).
Qed.

Lemma put_order c d st p e r st' : cache_ok st -> depends (cache c st) = Some d -> entry c p st = Some e ->
  (ref e = 1 -> offset e <> 0 -> dirty e = false -> in_file (file st) (offset e) (table e)) ->
  qcow2_cache_put c p st = Some (r, st') -> in_order c d st (file st').
Proof.
  intros Ok D E C. unfold qcow2_cache_put. rewrite E. destruct (Z.ltb_spec (ref e - 1) 0); [done|].
  set (st1 := upd c p (set_ref (ref e - 1)) st).
  destruct (writethrough _); [|intros [= <- <-]; unfold st1; rewrite file_upd; apply in_order_nothing].
  destruct (upd_kept c p (set_ref (ref e - 1)) e st Ok E) as [Ok1 _]; try done; [intros; apply C; try done; cbn in *; lia|]. fold st1 in Ok1.
  destruct (entry_flush_order c d p st1 Ok1) as (r1 & evs & st2 & -> & Ru & G).
  { unfold st1. by rewrite depends_upd. } { unfold st1. rewrite (proj1 (upd_same _ _ _ _ _)). by eapply lookup_lt_Some. }
  intros [= <- <-]. exists evs. unfold st1 in Ru. rewrite file_upd in Ru. split; [done|].
  assert (Fw : forall c' j x, entry c' j st = Some x -> exists x', entry c' j st1 = Some x' /\ offset x' = offset x /\ dirty x' = dirty x /\ table x' = table x).
  { intros c' j x Ex. unfold st1. rewrite entry_upd. destruct (decide _) as [[<- <-]|]; [|by exists x]. rewrite Ex. by eexists. }
  eapply guarded_same; [| |exact G].
  - intros o' (j & x & Ex & Ox). destruct (Fw _ _ _ Ex) as (x' & Ex' & Ho & _). exists j, x'. split; [done|]. congruence.
  - intros o' t (j & x & Ex & Dx & N & Ox & Tx). destruct (Fw _ _ _ Ex) as (x' & Ex' & Ho & Hd & Ht). exists j, x'. split_and!; congruence.
Qed.

(** C13: writes keep the order of the dependency.  While cache [c] depends on
    cache [d], whatever flushes [c], looks up a table in it or gives one back, and
    whichever accesses fail, writes a table of [c] to the file only after all
    tables that were dirty in [d] were written to it without error, and the file
    was flushed without error after them. *)
Theorem qcow2_cache_write_order c d st : cache_ok st -> depends (cache c st) = Some d ->
  (exists r st', qcow2_cache_flush c st = Some (r, st') /\ in_order c d st (file st')) /\
  (forall o rd r p st', qcow2_cache_do_get c o rd st = Some (r, p, st') -> in_order c d st (file st')) /\
  (forall p e r st', entry c p st = Some e -> (ref e = 1 -> offset e <> 0 -> dirty e = false -> in_file (file st) (offset e) (table e)) ->
    qcow2_cache_put c p st = Some (r, st') -> in_order c d st (file st')).
Proof.
  intros Ok D. split; [|split].
  - destruct (flush_with_spec _ c st Ok (can_always_wait 0 c st)) as (r & evs & st' & E & Fl & _ & _ & _ & O).
    exists r, st'. split; [done|]. exists evs. split; [apply Fl|]. apply (O d). right. split; [done|]. intros o t Po. by left.
  - intros o rd r p st'. by apply do_get_order.
  - intros p e r st'. by apply put_order.
Qed.

(** ** The users of the caches *)

(** Which cache the table at an offset belongs to. *)
Context (kind : Z -> cache_id).

Definition read_table (o : Z) st : option (Z * list Z * state F) :=
  '(r, p, st) ← qcow2_cache_get (kind o) o st;
  if r <? 0 then Some (r, [], st)
  else
    e ← entry (kind o) p st;
    '(r, st) ← qcow2_cache_put (kind o) p st;
    Some (r, table e, st).

(** A table that is changed in place, or a new one that is filled. *)
Definition edit_table (rd : bool) (o : Z) (g : list Z -> list Z) st : option (Z * state F) :=
  '(r, p, st) ← (if rd then qcow2_cache_get else qcow2_cache_get_empty) (kind o) o st;
  if r <? 0 then Some (r, st)
  else
    let st := upd (kind o) p (fun e => set_table (g (table e)) e) st in
    st ← qcow2_cache_entry_mark_dirty (kind o) p st;
    qcow2_cache_put (kind o) p st.

Inductive call :=
| Read (o : Z)
| Edit (o : Z) (g : list Z -> list Z)
| Fill (o : Z) (t : list Z)
| Flush (c : cache_id)
| Depend (c d : cache_id)
| DependOnFlush (c : cache_id).

Definition run (k : call) st : option (Z * list Z * state F) :=
  match k with
  | Read o => read_table o st
  | Edit o g => '(r, st) ← edit_table true o g st; Some (r, [], st)
  | Fill o t => '(r, st) ← edit_table false o (fun _ => t) st; Some (r, [], st)
  | Flush c => '(r, st) ← qcow2_cache_flush c st; Some (r, [], st)
  | Depend c d => '(r, st) ← qcow2_cache_set_dependency c d st; Some (r, [], st)
  | DependOnFlush c => Some (0, [], qcow2_cache_depends_on_flush c st)
  end.

Definition a_table (t : list Z) : Prop := length t = cs /\ Forall (is_uint 8) t.

(** ** The specification: tables without a cache *)

Definition tables : Type := Z -> option (list Z).
Definition set_at (o : Z) (t : list Z) (A : tables) : tables := fun x => if x =? o then Some t else A x.

(** Calls that may be made, and what they do: an error may come before or
    after the change. *)
Definition allowed (A : tables) (k : call) : Prop :=
  match k with
  | Read o => placed o /\ A o <> None
  | Edit o g => placed o /\ A o <> None /\ forall t, a_table t -> a_table (g t)
  | Fill o t => placed o /\ a_table t
  | Depend c d => c <> d
  | Flush _ | DependOnFlush _ => True
  end.

Definition effect (A : tables) (k : call) (r : Z) (data : list Z) (A' : tables) : Prop :=
  match k with
  | Read o => A' = A /\ (r = 0 -> A o = Some data)
  | Edit o g => exists t, A o = Some t /\ (A' = set_at o (g t) A \/ r < 0 /\ A' = A)
  | Fill o t => A' = set_at o t A \/ r < 0 /\ A' = A
  | Flush _ | Depend _ _ | DependOnFlush _ => A' = A
  end.

Definition represents (A : tables) st : Prop := forall o t, placed o -> A o = Some t -> holds st o t.

(** Between calls no table is in use. *)
Record idle (n : Z) st : Prop := {
  idle_ok : cache_ok st;
  idle_entry c i e : entry c i st = Some e -> ref e = 0 /\ 0 <= cache_hits e <= n /\ (offset e <> 0 -> kind (offset e) = c);
  idle_size c : (0 < size c st)%nat
}.

Lemma idle_victim n c st : idle n st -> n < INT_MAX -> exists i e, entry c i st = Some e /\ ref e = 0 /\ cache_hits e < INT_MAX.
Proof.
  intros Id Hn. destruct (lookup_lt_is_Some_2 (entries (cache c st)) 0 (idle_size _ _ Id c)) as [e E]. exists 0%nat, e.
  split; [done|]. destruct (idle_entry _ _ Id c 0 e E) as (R & Hh & _). split; [done|lia].
Qed.

Lemma idle_get n o rd st : idle n st -> n < INT_MAX -> placed o -> (rd = true -> exists t, holds st o t) ->
  exists r p st', qcow2_cache_do_get (kind o) o rd st = Some (r, p, st') /\ got (kind o) o rd st r p st'.
Proof.
  intros Id Hn P Kn. apply do_get_spec; try done; [apply Id| |by eapply idle_victim].
  intros c' i e N E <-. destruct (idle_entry _ _ Id _ _ _ E) as (_ & _ & K). apply N. symmetry. apply K. destruct P. lia.
Qed.

Lemma hits_next n h : 0 <= h <= n -> 33 <= n -> n < INT_MAX -> forall h', h' = s32 (h + 1) \/ h' = 33 -> 0 <= h' <= n + 1.
Proof. intros Hh Hn Hm h' [->| ->]; [|lia]. unfold INT_MAX in Hm. rewrite swrap_small; lia. Qed.

(** During a call the table [p] is in use, and no other. *)
Record busy (n o : Z) (p : nat) (e : Qcow2CachedTable) st : Prop := {
  busy_ok : cache_ok st;
  busy_table : entry (kind o) p st = Some e;
  busy_offset : offset e = o;
  busy_ref : ref e = 1;
  busy_hits : 0 <= cache_hits e <= n;
  busy_others c i e' : entry c i st = Some e' -> kind o = c /\ p = i \/
    ref e' = 0 /\ 0 <= cache_hits e' <= n /\ (offset e' <> 0 -> kind (offset e') = c);
  busy_size c : (0 < size c st)%nat
}.

Lemma others_idle n m o rd r p st st' c i e' : idle n st -> n <= m -> got (kind o) o rd st r p st' -> entry c i st' = Some e' ->
  kind o = c /\ p = i \/ ref e' = 0 /\ 0 <= cache_hits e' <= m /\ (offset e' <> 0 -> kind (offset e') = c).
Proof.
  intros Id Hm G E'. destruct (got_others _ _ _ _ _ _ _ G c i e' E') as [[-> ->]|(e & E & _ & Oe & Re & _ & He)]; [by left|].
  right. destruct (idle_entry _ _ Id _ _ _ E) as (R & Hh & K). rewrite Oe. split; [congruence|]. split; [destruct He; lia|done].
Qed.

Lemma got_busy n o rd p st st' : idle n st -> 33 <= n -> n < INT_MAX -> got (kind o) o rd st 0 p st' ->
  exists e, busy (n + 1) o p e st' /\ (rd = true -> forall t, holds st o t -> table e = t) /\
    (rd = true -> dirty e = false -> in_file (file st') o (table e)).
Proof.
  intros Id Hn Hm G. destruct (got_table _ _ _ _ _ _ _ G eq_refl) as (e0 & e & E0 & E & O & R & Hh & T & C). exists e.
  destruct (idle_entry _ _ Id _ _ _ E0) as (R0 & H0 & _). split; [|by auto]. constructor; try done; try lia.
  - apply G.
  - by eapply hits_next.
  - intros c i e'. eapply others_idle; try done. lia.
  - intros c. destruct (got_same _ _ _ _ _ _ _ G c) as [-> _]. apply Id.
Qed.

Lemma got_idle n o rd r p st st' : idle n st -> r < 0 -> got (kind o) o rd st r p st' -> idle (n + 1) st'.
Proof.
  intros Id Hr G. constructor; [apply G| |intros c; destruct (got_same _ _ _ _ _ _ _ G c) as [-> _]; apply Id].
  intros c i e' E'. destruct (others_idle n (n + 1) o rd r p st st' c i e' Id ltac:(lia) G E') as [[<- <-]|]; [|done].
  destruct (got_error _ _ _ _ _ _ _ G Hr) as (e & x & E & Ex & Rx & _ & Ox & Hx). rewrite E' in Ex. injection Ex as <-.
  destruct (idle_entry _ _ Id _ _ _ E) as (_ & Hh & K). split; [done|]. split; [destruct Hx; lia|]. destruct Ox as [->| ->]; [lia|done].
Qed.

Lemma busy_put n o p e st : busy n o p e st -> (dirty e = false -> in_file (file st) o (table e)) ->
  exists r st', qcow2_cache_put (kind o) p st = Some (r, st') /\ outcome r /\ idle n st' /\ forall o t, placed o -> holds st o t -> holds st' o t.
Proof.
  intros B C. destruct (put_spec (kind o) p e st) as (r & st' & E & Hr & Ok & H & Sz & En); try apply B.
  { rewrite (busy_ref _ _ _ _ _ B). lia. } { intros _ _ D. rewrite (busy_offset _ _ _ _ _ B). by apply C. }
  exists r, st'. split; [done|]. split; [done|]. split; [|done]. constructor; [done| |intros c; rewrite Sz; apply B].
  intros c i e' E'. destruct (En c i e' E') as (e0 & E0 & -> & -> & ->). destruct (decide _) as [[<- <-]|N].
  - rewrite (busy_table _ _ _ _ _ B) in E0. injection E0 as <-. rewrite (busy_ref _ _ _ _ _ B), (busy_offset _ _ _ _ _ B).
    split; [done|]. split; [apply B|done].
  - by destruct (busy_others _ _ _ _ _ B c i e0 E0).
Qed.

(** The table in use is changed and marked. *)
Lemma busy_edit n o p e st g : placed o -> busy n o p e st -> a_table (g (table e)) ->
  let e' := set_dirty true (set_table (g (table e)) e) in
  let st' := upd (kind o) p (set_dirty true) (upd (kind o) p (fun e => set_table (g (table e)) e) st) in
  qcow2_cache_entry_mark_dirty (kind o) p (upd (kind o) p (fun e => set_table (g (table e)) e) st) = Some st' /\
  busy n o p e' st' /\ holds st' o (g (table e)) /\ forall o' t, placed o' -> o' <> o -> holds st o' t -> holds st' o' t.
Proof.
  intros Po B [L By] e' st'. set (st1 := upd (kind o) p (fun e => set_table (g (table e)) e) st) in *.
  pose proof (busy_table _ _ _ _ _ B) as E. pose proof (busy_offset _ _ _ _ _ B) as O. pose proof (busy_ref _ _ _ _ _ B) as R.
  assert (Ok1 : cache_ok st1).
  { eapply (upd_ok _ _ _ e); try apply B; try done; cbn; rewrite ?R, ?O; try done.
    intros c i x Ex Eo No. eapply (co_unique _ (busy_ok _ _ _ _ _ B)); [exact E|exact Ex|congruence|congruence]. }
  assert (E1 : entry (kind o) p st1 = Some (set_table (g (table e)) e)) by (unfold st1; by rewrite entry_upd_eq, E).
  destruct (upd_kept (kind o) p (set_dirty true) _ st1 Ok1 E1) as [Ok2 H2]; try done; [cbn; lia|].
  assert (E2 : entry (kind o) p st' = Some e') by (unfold st'; by rewrite entry_upd_eq, E1).
  split; [unfold qcow2_cache_entry_mark_dirty; by rewrite E1|]. split; [|split].
  - constructor; try done; [apply B| |].
    + intros c i x Ex. unfold st', st1 in Ex. destruct (decide (kind o = c /\ p = i)) as [D|D]; [by left|].
      rewrite !entry_upd, !decide_False in Ex by done. by apply B.
    + intros c. unfold st'. rewrite (proj1 (upd_same _ _ _ _ _)). unfold st1. rewrite (proj1 (upd_same _ _ _ _ _)). apply B.
  - left. by exists (kind o), p, e'.
  - intros o' t [Pp _] N H. apply H2; [lia|]. eapply (upd_holds _ _ _ e); try apply B; try done; try lia; cbn; intros; congruence.
Qed.

Lemma read_step n A o st : idle n st -> 33 <= n -> n < INT_MAX -> represents A st -> placed o -> A o <> None ->
  exists r data st', read_table o st = Some (r, data, st') /\ idle (n + 1) st' /\ represents A st' /\ outcome r /\ (r = 0 -> A o = Some data).
Proof.
  intros Id Hn Hm Rep P Kn. unfold read_table, qcow2_cache_get. destruct (A o) as [t|] eqn:At; [|done].
  destruct (idle_get n o true st Id Hm P) as (r & p & st1 & -> & G); [intros _; exists t; by apply Rep|]. cbn [mbind option_bind].
  assert (Rep1 : represents A st1) by (intros o' t' P' At'; eapply got_holds; [exact G|done|by left|by apply Rep]).
  destruct (Z.ltb_spec r 0).
  { eexists r, _, st1. split; [reflexivity|]. split; [by eapply got_idle|]. split; [done|]. split; [apply G|lia]. }
  assert (r = 0) as -> by (destruct (got_result _ _ _ _ _ _ _ G); lia).
  destruct (got_busy n o true p st st1 Id Hn Hm G) as (e & B & T & C). rewrite (busy_table _ _ _ _ _ B). cbn [mbind option_bind].
  destruct (busy_put _ _ _ _ _ B (C eq_refl)) as (r & st2 & -> & Hr & Id2 & H2). cbn [mbind option_bind].
  exists r, (table e), st2. split; [done|]. split; [done|]. split; [intros o' t' P' At'; apply H2; [done|by apply Rep1]|].
  split; [done|]. intros _. f_equal. symmetry. apply T; [done|]. by apply Rep.
Qed.

Lemma represents_set A o t st st' : represents A st -> holds st' o t -> (forall o' t', placed o' -> o' <> o -> holds st o' t' -> holds st' o' t') ->
  represents (set_at o t A) st'.
Proof.
  intros Rep H Ho o' t' P'. unfold set_at. destruct (Z.eqb_spec o' o) as [->|N]; [by intros [= <-]|]. intros At. apply Ho; [done|done|by apply Rep].
Qed.

Lemma edit_step n A rd o g st : idle n st -> 33 <= n -> n < INT_MAX -> represents A st -> placed o ->
  (rd = true -> A o <> None) -> (forall t, a_table t -> a_table (g t)) ->
  exists r st' A', edit_table rd o g st = Some (r, st') /\ idle (n + 1) st' /\ represents A' st' /\ outcome r /\
    (r < 0 /\ A' = A \/ exists t, a_table t /\ (rd = true -> A o = Some t) /\ A' = set_at o (g t) A).
Proof.
  intros Id Hn Hm Rep P Kn Hg. unfold edit_table.
  replace ((if rd then qcow2_cache_get else qcow2_cache_get_empty) (kind o) o st) with (qcow2_cache_do_get (kind o) o rd st) by (by destruct rd).
  destruct (idle_get n o rd st Id Hm P) as (r & p & st1 & -> & G).
  { intros Hrd. destruct (A o) as [t|] eqn:At; [exists t; by apply Rep|by destruct (Kn Hrd)]. }
  cbn [mbind option_bind]. destruct (Z.ltb_spec r 0).
  { exists r, st1, A. split; [done|]. split; [by eapply got_idle|]. split; [|split; [apply G|by left]].
    intros o' t' P' At'. eapply got_holds; [exact G|done|by right|by apply Rep]. }
  assert (r = 0) as -> by (destruct (got_result _ _ _ _ _ _ _ G); lia).
  destruct (got_busy n o rd p st st1 Id Hn Hm G) as (e & B & T & _).
  assert (Te : a_table (table e)) by (destruct (co_table _ (busy_ok _ _ _ _ _ B) _ _ _ (busy_table _ _ _ _ _ B)) as (L & By & _); done).
  destruct (busy_edit _ _ _ _ _ g P B (Hg _ Te)) as (-> & B2 & H2 & Ho2). cbn [mbind option_bind].
  destruct (busy_put _ _ _ _ _ B2) as (r & st2 & -> & Hr & Id2 & H3); [done|]. exists r, st2, (set_at o (g (table e)) A).
  split; [done|]. split; [done|]. split.
  - eapply (represents_set A o _ st); [done|by apply H3|]. intros o' t' P' N Hx. apply H3; [done|]. apply Ho2; [done|done|].
    eapply got_holds; [exact G|done|by intros ->|done].
  - split; [done|]. right. exists (table e). split; [done|]. split; [|done]. intros Hrd. destruct (A o) as [t|] eqn:At; [|by destruct (Kn Hrd)].
    f_equal. symmetry. apply T; [done|]. by apply Rep.
Qed.

Lemma flushed_idle W n st evs st' : flushed W st evs st' -> idle n st -> idle (n + 1) st'.
Proof.
  intros Fl Id. constructor; [apply Fl| |intros c; rewrite (fl_size _ _ _ _ Fl); apply Id].
  intros c i e' E'. destruct (flushed_back _ _ _ _ _ _ _ Fl E') as (e & E & -> & _). destruct (idle_entry _ _ Id _ _ _ E) as (R & Hh & K).
  split; [done|]. split; [cbn; lia|done].
Qed.

Lemma flushed_represents W A st evs st' : flushed W st evs st' -> represents A st -> represents A st'.
Proof. intros Fl Rep o t P At. eapply flushed_holds; [exact Fl|done|by apply Rep]. Qed.

(** Changes of the dependencies only. *)
Lemma links_only c g st A n : (forall x, entries (g x) = entries x) -> cache_ok (upd_cache c g st) -> represents A st -> idle n st ->
  represents A (upd_cache c g st) /\ idle n (upd_cache c g st).
Proof.
  intros Ge Ok Rep Id. assert (En : forall c' i, entry c' i (upd_cache c g st) = entry c' i st).
  { intros c' i. unfold entry. rewrite cache_upd_cache. destruct (decide _); [|done]. by rewrite Ge. }
  split.
  - intros o t P At. destruct (Rep o t P At) as [(c' & i & e & E & H)|[N I]].
    + left. exists c', i, e. by rewrite En.
    + right. rewrite file_upd_cache. split; [|done]. intros (c' & i & e & E & O). apply N. exists c', i, e. by rewrite <- En.
  - constructor; [done| |]; intros c'.
    + intros i e. rewrite En. apply Id.
    + unfold size. rewrite cache_upd_cache. destruct (decide _); [rewrite Ge|]; apply Id.
Qed.

Lemma idle_mono n m st : idle n st -> n <= m -> idle m st.
Proof. intros [Ok En Sz] Hm. constructor; [done| |done]. intros c i e E. destruct (En c i e E) as (R & Hh & K). split; [done|]. split; [lia|done]. Qed.

Lemma call_step n A k st : idle n st -> 33 <= n -> n < INT_MAX -> represents A st -> allowed A k ->
  exists r data st' A', run k st = Some (r, data, st') /\ idle (n + 1) st' /\ effect A k r data A' /\ represents A' st' /\ outcome r.
Proof.
  intros Id Hn Hm Rep Al. destruct k as [o|o g|o t|c|c d|c]; cbn [run allowed effect] in *.
  - destruct Al as [P Kn]. destruct (read_step n A o st Id Hn Hm Rep P Kn) as (r & data & st' & -> & Id' & Rep' & Hr & V). by exists r, data, st', A.
  - destruct Al as (P & Kn & Hg). destruct (edit_step n A true o g st Id Hn Hm Rep P (fun _ => Kn) Hg) as (r & st' & A' & -> & Id' & Rep' & Hout & V).
    exists r, [], st', A'. split; [done|]. split; [done|]. split; [|done].
    destruct V as [[Hr ->]|(t & _ & At & ->)]; [|exists t; auto]. destruct (A o) as [t|]; [|done]. exists t. auto.
  - destruct Al as [P Ht]. destruct (edit_step n A false o (fun _ => t) st Id Hn Hm Rep P) as (r & st' & A' & -> & Id' & Rep' & Hout & V); [done|done|].
    exists r, [], st', A'. split; [done|]. split; [done|]. split; [|done]. destruct V as [[Hr ->]|(t' & _ & _ & ->)]; auto.
  - destruct (flush_with_spec _ c st (idle_ok _ _ Id) (can_always_wait 0 c st)) as (r & evs & st' & E & Fl & Hr & _).
    change (qcow2_cache_flush c st) with (flush_with (cache_flush 1) c st). rewrite E. exists r, [], st', A. split; [done|].
    split; [by eapply flushed_idle|]. split; [done|]. split; [by eapply flushed_represents|done].
  - destruct (set_dependency_spec c d st (idle_ok _ _ Id) Al) as (r & evs & st1 & st' & -> & Fl & Hr & S).
    exists r, [], st', A. split; [done|]. pose proof (flushed_represents _ A _ _ _ Fl Rep) as Rep1. pose proof (flushed_idle _ n _ _ _ Fl Id) as Id1.
    destruct S as [[_ ->]|(-> & D & ->)]; [done|]. destruct (links_only c (set_depends (Some d)) st1 A (n + 1)) as [R2 I2]; try done.
    apply depend_ok; [apply Fl|done|done].
  - exists 0, [], (qcow2_cache_depends_on_flush c st), A. split; [done|].
    destruct (links_only c (set_depends_on_flush true) st A n) as [R2 I2]; try done; [|split; [apply (idle_mono n); [done|lia]|by repeat split]].
    apply (fl_ok (fun _ => True) st []). apply dependency_step; try done; [apply Id|by right].
Qed.

(** ** Sequences of calls *)

Fixpoint run_all (ks : list call) st : option (list (Z * list Z) * state F) :=
  match ks with
  | [] => Some ([], st)
  | k :: ks =>
      '(r, data, st) ← run k st;
      '(rs, st) ← run_all ks st;
      Some ((r, data) :: rs, st)
  end.

Inductive effects : tables -> list call -> list (Z * list Z) -> tables -> Prop :=
| effects_nil A : effects A [] [] A
| effects_cons A k r data A1 ks rs A2 : effect A k r data A1 -> effects A1 ks rs A2 -> effects A (k :: ks) ((r, data) :: rs) A2.

Lemma set_at_known o t A o' : A o' <> None -> set_at o t A o' <> None.
Proof. unfold set_at. by destruct (o' =? o). Qed.

Lemma effect_known A k r data A' o : effect A k r data A' -> A o <> None -> A' o <> None.
Proof.
  destruct k; cbn; intros E Kn.
  - by destruct E as [-> _].
  - destruct E as (t & _ & [->|[_ ->]]); [by apply set_at_known|done].
  - destruct E as [->|[_ ->]]; [by apply set_at_known|done].
  - by subst.
  - by subst.
  - by subst.
Qed.

Lemma allowed_later A A' k : (forall o, A o <> None -> A' o <> None) -> allowed A k -> allowed A' k.
Proof. intros H. destruct k; cbn; try done; [intros [? ?]|intros (? & ? & ?)]; auto. Qed.

Lemma run_all_spec ks : forall n A st, idle n st -> 33 <= n -> n + Z.of_nat (length ks) < INT_MAX -> represents A st -> Forall (allowed A) ks ->
  exists rs st' A', run_all ks st = Some (rs, st') /\ effects A ks rs A' /\ represents A' st' /\ idle (n + Z.of_nat (length ks)) st' /\
    (works -> Forall (fun x => fst x = 0) rs).
Proof.
  induction ks as [|k ks IH]; intros n A st Id Hn Hm Rep Al; cbn [run_all].
  { exists [], st, A. split; [done|]. split; [constructor|]. split; [done|]. by rewrite Z.add_0_r. }
  apply Forall_cons in Al as [Al Als]. cbn [length] in Hm.
  destruct (call_step n A k st Id Hn ltac:(lia) Rep Al) as (r & data & st1 & A1 & -> & Id1 & Ef & Rep1 & Hr). cbn [mbind option_bind].
  destruct (IH (n + 1) A1 st1) as (rs & st2 & A2 & -> & Efs & Rep2 & Id2 & Hrs); try done; try lia.
  { eapply Forall_impl; [exact Als|]. intros k'. apply allowed_later. intros o. by eapply effect_known. }
  exists ((r, data) :: rs), st2, A2. split; [done|]. split; [by econstructor|]. split; [done|]. cbn [length].
  split; [|intros Wk; constructor; [by apply Hr|by apply Hrs]].
  by replace (n + Z.of_nat (S (length ks))) with (n + 1 + Z.of_nat (length ks)) by lia.
Qed.

(** After a flush without error the file has the tables of the cache. *)
Lemma flush_durable n A c st : idle n st -> represents A st ->
  exists r st', qcow2_cache_flush c st = Some (r, st') /\ outcome r /\
    (r = 0 -> forall o t, placed o -> kind o = c -> A o = Some t -> in_file (file st') o t).
Proof.
  intros Id Rep. destruct (flush_with_spec _ c st (idle_ok _ _ Id) (can_always_wait 0 c st)) as (r & evs & st' & E & Fl & Hout & _ & C & _).
  exists r, st'. do 2 (split; [done|]). intros Hr o t P <- At. destruct (C Hr) as [Cl _].
  destruct (flushed_represents _ A _ _ _ Fl Rep o t P At) as [(c' & i & e & Ee & Oe & <-)|[_ I]]; [|done].
  destruct (idle_entry _ _ (flushed_idle _ n _ _ _ Fl Id) _ _ _ Ee) as (R & _ & K). rewrite Oe in K. destruct P as [Po _].
  specialize (K ltac:(lia)). subst c'. rewrite <- Oe. apply (co_clean _ (fl_ok _ _ _ _ Fl) _ _ _ Ee); [lia|done|]. apply (Cl i); [done|lia].
Qed.

(** Between calls the caches can be destroyed. *)
Lemma idle_destroy n c st : idle n st -> qcow2_cache_destroy (cache c st) = Some 0.
Proof.
  intros Id. unfold qcow2_cache_destroy. replace (forallb _ _) with true; [done|]. symmetry. apply forallb_forall. intros e [i E]%list_elem_of_In%list_elem_of_lookup.
  apply Z.eqb_eq. by destruct (idle_entry _ _ Id c i e E).
Qed.

(** ** An image that was just opened *)

Definition just_opened (f : F) (uninit : list Z) (l2_size refcount_size : nat) (wt : bool) : state F :=
  mkState f (qcow2_cache_create uninit l2_size wt) (qcow2_cache_create uninit refcount_size wt).

Definition tables_of (f : F) : tables := fun o => if o + Z.of_nat cs <=? tlen f then Some (window (tbyte f) o cs) else None.

Lemma opened_entry f u n1 n2 wt c i e : entry c i (just_opened f u n1 n2 wt) = Some e -> e = mkTable u 0 false 0 0.
Proof. by destruct c; intros [-> _]%lookup_replicate_1. Qed.

Lemma opened_idle f u n1 n2 wt : tfile_ok f -> a_table u -> (0 < n1)%nat -> (0 < n2)%nat -> idle 33 (just_opened f u n1 n2 wt).
Proof.
  intros Of [L B] H1 H2. constructor.
  - constructor; try done.
    + by intros c i e ->%opened_entry.
    + by intros c i e ->%opened_entry.
    + intros c i e c' i' e' ->%opened_entry _ _ Ne. done.
    + by intros c i e ->%opened_entry.
    + by intros [].
  - intros c i e ->%opened_entry. cbn. split; [done|]. split; [lia|done].
  - intros []; unfold size; cbn; by rewrite length_replicate.
Qed.

Lemma opened_represents f u n1 n2 wt : represents (tables_of f) (just_opened f u n1 n2 wt).
Proof.
  intros o t [P _] At. right. split; [|].
  - intros (c & i & e & ->%opened_entry & O). cbn in O. lia.
  - unfold tables_of in At. destruct (Z.leb_spec (o + Z.of_nat cs) (tlen f)); [|done]. injection At as <-. done.
Qed.

(** C3: the caches are transparent.  On an image that was just opened, any
    sequence of reads and changes of tables, flushes and dependencies does to the
    tables what it would do without caches, whichever accesses to the file fail:
    a read that succeeds returns the last table stored, a call that fails has
    made its change or none, and no other table changes.  No call crashes, in
    writethrough mode or not, none fails unless the file does, no table is left in
    use, and a flush that succeeds leaves every table of the cache in the file. *)
Theorem qcow2_cache_transparent f uninit l2_size refcount_size wt ks :
  tfile_ok f -> a_table uninit -> (0 < l2_size)%nat -> (0 < refcount_size)%nat ->
  33 + Z.of_nat (length ks) < INT_MAX -> Forall (allowed (tables_of f)) ks ->
  exists rs st A, run_all ks (just_opened f uninit l2_size refcount_size wt) = Some (rs, st) /\ effects (tables_of f) ks rs A /\
    (works -> Forall (fun x => fst x = 0) rs) /\
    forall c, qcow2_cache_destroy (cache c st) = Some 0 /\ exists r st', qcow2_cache_flush c st = Some (r, st') /\ outcome r /\
      (r = 0 -> forall o t, placed o -> kind o = c -> A o = Some t -> in_file (file st') o t).
Proof.
  intros Of Hu H1 H2 Hk Al.
  destruct (run_all_spec ks 33 (tables_of f) (just_opened f uninit l2_size refcount_size wt)) as (rs & st & A & E & Ef & Rep & Id & Hrs); try done.
  { by apply opened_idle. } { apply opened_represents. }
  exists rs, st, A. do 3 (split; [done|]). intros c. split; [by eapply idle_destroy|by eapply flush_durable].
Qed.

End Laws.

(** ** Files *)

(** The files of the block layer, which a flush leaves as they are. *)
Definition plain_flush {F} : Flushable F := fun f => (0, f).

#[global] Instance reliable_tables {F} `{Reliable F} : TableFile F (flushable := plain_flush).
Proof.
  refine {| tlen := flen; tbyte := fbyte; tfile_ok := file_ok |}.
  - intros f off buf Ok H0 H1 _. rewrite file_pread_ok by done. rewrite length_window. split; [done|]. split; [|done].
    unfold window. apply Forall_map, Forall_true. intros i. apply fbyte_u8.
  - intros f off bs Ok H0 Hb B. destruct (file_pwrite_ok f off bs Ok H0 Hb B) as (f' & -> & Ok' & [Sn So Sl]).
    split; [done|]. split; [lia|]. split; [done|]. intros _. split; [lia|done].
  - done.
Defined.

Lemma reliable_works {F} `{Reliable F} : works (flushable := plain_flush) (F := F).
Proof.
  split; [|split].
  - intros f o t Ok H0 Ht B. destruct (file_pwrite_ok f o t Ok H0 Ht B) as (f' & -> & _). cbn. unfold Zlength. lia.
  - done.
  - intros f o buf Ok H0 H1. rewrite file_pread_ok by done. cbn. unfold Zlength. lia.
Qed.

(** A disk of fixed size that fails after a number of writes. *)
Record worn := mkWorn { disk : list Z; writes_left : nat }.

#[global] Instance worn_protocol : Protocol worn := {
  file_pread f off buf := (Zlength buf, aread (disk f) off (length buf));
  file_pwrite f off bs :=
    if off + Zlength bs <=? Zlength (disk f) then
      match writes_left f with
      | O => (- EIO, f)
      | S n => (Zlength bs, mkWorn (awrite (disk f) off bs) n)
      end
    else (- ENOSPC, f);
  file_pwrite_sync f off bs := (- EIO, f);
  file_getlength f := Zlength (disk f);
  file_truncate f n := (- EIO, f);
  file_aio_readv f n buf := None;
  file_aio_writev f n bs := None
}.

#[global] Instance worn_flush : Flushable worn := fun f => (match writes_left f with O => - EIO | S _ => 0 end, f).

#[global] Instance worn_tables : TableFile worn.
Proof.
  refine {| tlen f := Zlength (disk f); tbyte f i := aget (disk f) i; tfile_ok f := Forall (is_uint 8) (disk f) |}.
  - intros f off buf Ok H0 H1 _. cbn. rewrite length_aread. split; [done|]. split; [|done].
    unfold aread. apply Forall_map, Forall_true. intros i. by apply aget_byte.
  - intros f off bs Ok H0 Hb B. cbn. unfold Zlength in *. destruct (Z.leb_spec (off + Z.of_nat (length bs)) (Z.of_nat (length (disk f)))).
    2: { split; [done|]. split; [lia|]. split; [done|]. unfold ENOSPC. lia. }
    destruct (writes_left f) as [|n]; cbn [disk].
    { split; [done|]. split; [lia|]. split; [done|]. unfold EIO. lia. }
    rewrite length_awrite. split; [by apply awrite_byte|]. split; [lia|].
    split; intros; [|split; [lia|]; intros]; rewrite aget_awrite by lia; zcases; done || f_equal; lia.
  - done.
Defined.

(** Tables of four bytes on a disk of 64, which survives two writes. *)
Definition small_disk : worn := mkWorn (replicate 64 0) 2.
Definition small_kind (o : Z) : cache_id := if o <? 32 then L2_TABLE_CACHE else REFCOUNT_BLOCK_CACHE.
Definition small_calls : list call :=
  [Fill 4 [1; 2; 3; 4]; Edit 32 (fun t => map (fun b => u8 (b + 1)) t); Depend REFCOUNT_BLOCK_CACHE L2_TABLE_CACHE].
Definition more_calls : list call :=
  small_calls ++ [Read 4; Fill 8 [5; 6; 7; 8]; Flush REFCOUNT_BLOCK_CACHE; Read 32; Read 12].

Lemma small_disk_ok : tfile_ok small_disk.
Proof. apply Forall_replicate. unfold is_uint. lia. Qed.

Lemma small_allowed : Forall (allowed 4 (tables_of 4 small_disk)) more_calls.
Proof.
  assert (P : forall k, 0 < k -> placed 4 (k * 4)) by (intros k Hk; split; [lia|by exists k]).
  assert (Pk : placed 4 4 /\ placed 4 8 /\ placed 4 12 /\ placed 4 32) by (split_and!; [apply (P 1)|apply (P 2)|apply (P 3)|apply (P 8)]; lia).
  destruct Pk as (P4 & P8 & P12 & P32).
  assert (T : forall a b c d, is_uint 8 a -> is_uint 8 b -> is_uint 8 c -> is_uint 8 d -> a_table 4 [a; b; c; d]).
  { intros a b c d Ha Hb Hc Hd. split; [done|]. by repeat (apply Forall_cons_2 || apply Forall_nil_2). }
  assert (G : forall t, a_table 4 t -> a_table 4 (map (fun b => u8 (b + 1)) t)).
  { intros t [L _]. split; [by rewrite length_map|]. apply Forall_map, Forall_true. intros b. apply wrap_range. lia. }
  repeat (apply Forall_cons_2 || apply Forall_nil_2); cbn [allowed].
  all: first [exact I | done | by split | by split; [|split] | by split; [|apply T]].
Qed.

Lemma qcow2_cache_transparent_witness : exists rs st,
  run_all small_kind more_calls (just_opened small_disk [9; 9; 9; 9] 1 1 false) = Some (rs, st) /\
  rs = [(0, []); (0, []); (0, []); (0, [1; 2; 3; 4]); (0, []); (-5, []); (0, [1; 1; 1; 1]); (0, [0; 0; 0; 0])].
Proof.
  destruct (qcow2_cache_transparent 4 ltac:(lia) small_kind small_disk [9; 9; 9; 9] 1 1 false more_calls) as (rs & st & A & E & _).
  - exact small_disk_ok.
  - split; [reflexivity|repeat constructor; done].
  - lia.
  - lia.
  - reflexivity.
  - exact small_allowed.
  - exists rs, st. split; [exact E|]. vm_compute in E. injection E as E _. rewrite <- E. reflexivity.
Defined.

Lemma qcow2_cache_write_order_witness : exists st,
  depends (cache REFCOUNT_BLOCK_CACHE st) = Some L2_TABLE_CACHE /\
  exists r st', qcow2_cache_flush REFCOUNT_BLOCK_CACHE st = Some (r, st') /\
    in_order (F := worn) REFCOUNT_BLOCK_CACHE L2_TABLE_CACHE st (file st').
Proof.
  assert (Al : Forall (allowed 4 (tables_of 4 small_disk)) small_calls).
  { pose proof small_allowed as H. unfold more_calls in H. apply Forall_app in H as [H _]. exact H. }
  destruct (run_all_spec 4 ltac:(lia) small_kind small_calls 33 (tables_of 4 small_disk) (just_opened small_disk [9; 9; 9; 9] 1 1 false))
    as (rs & st & A & E & _ & _ & Id & _).
  - apply opened_idle; [lia|exact small_disk_ok|split; [reflexivity|repeat constructor; done]|lia|lia].
  - lia.
  - reflexivity.
  - apply opened_represents; [lia|exact small_kind].
  - exact Al.
  - exists st. assert (D : depends (cache REFCOUNT_BLOCK_CACHE st) = Some L2_TABLE_CACHE).
    { vm_compute in E. injection E as _ E. rewrite <- E. reflexivity. }
    split; [exact D|]. exact (proj1 (qcow2_cache_write_order 4 ltac:(lia) REFCOUNT_BLOCK_CACHE L2_TABLE_CACHE st (idle_ok _ _ _ _ Id) D)).
Defined.

End Qcow2Cache.
